(* ===== verification/_CoqProject ===== *)
-Q . S2P
Prelude.v
GoNet.v
GoStrings.v
NetBlock.v
NetText.v
CNIPlugins.v
NetworkingV1.v
MulticlusterV1.v
Kubernetes.v
Config.v
Utils.v
IPAMTypes.v
IPAMSubnet.v
IPAMSync.v
IPAMCanonical.v
IPAMPool.v
IPAMSubnetProperties.v
IPAMNetwork.v
IPAMNetworkProperties.v
Allocator.v
AllocatorInvariant.v
AllocatorProperties.v
Transform.v
Names.v
GoJSON.v
KubeClient.v
Store.v
StoreProperties.v
ClientUtils.v
UUIDMutex.v
IPAMManager.v
Regexp.v
Admission.v
Validating.v
ValidatingNetworks.v
ValidatingSubnets.v
ValidatingPods.v
Mutating.v
PodController.v
PodAllocation.v
Predicates.v
StatusControllers.v
StatusProperties.v
ManagerRuntime.v
Mirror.v
MirrorProperties.v
ClusterChecker.v
RemoteClusters.v
RemoteClustersProperties.v
IPRange.v
IPRangeProperties.v
ARP.v
ARPProperties.v
IPSet.v
IPSetProperties.v
IPTables.v
IPTablesSync.v
IPTablesProperties.v
Netlink.v
DaemonUtils.v
BGP.v
BGPSync.v
BGPProperties.v
Neigh.v
Route.v
RouteManager.v
RouteSync.v
RouteProperties.v
NDP.v
ContainerNetwork.v
Addr.v
DaemonConfig.v
CtrlHub.v
DaemonControllers.v
DaemonEvents.v
IPTablesCluster.v
DaemonInvariant.v
DaemonServer.v
CNI.v
DaemonProperties.v
