(* ===== verification/Prelude.v ===== *)
(** * Hybridnet: verification library (root file)

    Hybridnet gives pods of Kubernetes their addresses.  A manager process
    (cmd/manager) holds the allocator and the controllers, a webhook process
    admits and changes objects, a daemon on every node programs the kernel,
    and a CNI plugin asks the daemon for the network of a container.  This
    library models the four programs but for their start-up.

    ** How the code is modelled

    A Go call is an [outcome]: [Ret], [Fail] (an error), [Panic], or [Diverge]
    (fuel ran out, or a lock never comes).  A method with state is a function
    of the monad [M S A := S → outcome A * S]; [zoom] runs it on a part of a
    larger state.  Integers are [Z] at the width of the code, with [uint32],
    [int32], [int64] written out where they may wrap; byte slices are [list Z];
    maps are [gmap]; the order in which Go visits a map, and the time, are
    arguments.  A method that holds a mutex from its first to its last step is
    one transition; histories are sequences of transitions.

    Code outside the repository is a class: [CNIPlugins] (arithmetic on
    addresses), [StrSets], [ApiMachinery] and [Client] (the API server, with
    the laws [ClientLaws]), [StatusClient], [RemoteClusterClient],
    [ObjectClient] and [Ownership] (a parent cluster), [ClusterLib]
    (controller-runtime), [Ethernet], [IPAddrLib], [IPSetCmd] (the command
    ipset), [IPTablesExec] (iptables), [Netlink] (the kernel's links, routes,
    rules, addresses and neighbours), [OS], [NetPkg] and [CNIHost] (files,
    interfaces, network namespaces), [BgpServer] (gobgp), [Kube] (the cache of
    the daemon's client), [Sockets], [NDPLib], [Sha1], [CNINetwork], [CNIEnv];
    [MapOrder] is the order of range statements.  Laws state documented
    behaviour; for every class of laws there is an instance that satisfies
    them, on which the witnesses run.  Feature gates and environment variables
    are the class [Settings].

    ** The parts, in the order of the files

    - [Prelude]: outcomes, the monad, automation, lemmas on lists.
      [GoNet], [GoStrings], [NetBlock], [NetText], [CNIPlugins]: Go's net and
      strings packages as far as they are used, with the round trip of the
      text of addresses.
    - [NetworkingV1], [MulticlusterV1], [Kubernetes], [Config], [Utils]:
      pkg/apis, pkg/utils, pkg/feature, pkg/ipam/strategy, the objects of
      Kubernetes that are used.
    - The allocator (pkg/ipam): [IPAMTypes] the data, [IPAMSubnet] and
      [IPAMSync] the code and invariant of a subnet, [IPAMCanonical] its
      canonical form, [IPAMPool] the abstract pool of addresses,
      [IPAMSubnetProperties] the refinement; [IPAMNetwork] and
      [IPAMNetworkProperties] the choice among subnets; [Allocator],
      [AllocatorInvariant], [AllocatorProperties] the allocators of a network,
      single and dual stack; [Transform] the transfer from API objects.
    - The store (pkg/ipam/store): [Names] the names of IP instances, [GoJSON]
      the bodies of patches, [KubeClient] the API server, [Store] and
      [StoreProperties] the workers; [ClientUtils] pkg/controllers/utils;
      [IPAMManager] how the allocator is rebuilt from the server.
    - The webhooks (pkg/webhook): [Regexp], [Admission], [Validating] with
      [ValidatingNetworks], [ValidatingSubnets], [ValidatingPods]; [Mutating].
    - The controllers (pkg/controllers/networking): [PodController] and
      [PodAllocation] (allocator and store together), [Predicates],
      [StatusControllers] and [StatusProperties].
    - Multicluster (pkg/controllers/multicluster, pkg/managerruntime):
      [UUIDMutex], [ManagerRuntime], [Mirror] and [MirrorProperties],
      [ClusterChecker], [RemoteClusters] and [RemoteClustersProperties].
    - The daemon: [IPRange] and [IPRangeProperties] (pkg/daemon/utils), [ARP]
      and [ARPProperties] (pkg/daemon/arp), [IPSet] and [IPSetProperties]
      (pkg/daemon/ipset), [IPTables], [IPTablesSync] and [IPTablesProperties]
      (pkg/daemon/iptables); [Netlink] and [DaemonUtils]; [BGP], [BGPSync] and
      [BGPProperties] (pkg/daemon/bgp); [Neigh] (neigh, vxlan); [Route],
      [RouteManager], [RouteSync] and [RouteProperties] (route); [NDP] (ndp);
      [ContainerNetwork] (containernetwork); [Addr] (addr); [DaemonConfig]
      (config); [CtrlHub], [DaemonControllers] and [DaemonEvents]
      (controller), with [IPTablesCluster] on the loop of iptables and
      [DaemonInvariant] on all handlers together; [DaemonServer] (server, pkg/request); [DaemonProperties].
    - [CNI]: the plugin (cmd/cni).

    How they interact: the pod controller calls the allocator and the store in
    one step of its state [Cluster], the pair of an API server and the networks
    of the allocator; the getters of [IPAMManager] discharge the interface by
    which the allocator reads the server; the webhook for subnets admits what
    [Subnet_Canonicalize] of the allocator accepts; the remote-cluster
    controllers share the UUID mutex and the hub of [ManagerRuntime], whose
    daemons are an interface that [managerRuntime] implements.  The daemon's
    controllers hold the managers of routes, addresses, neighbours, BGP,
    iptables and vxlan in the state [Hub]: a reconciliation records subnets,
    addresses and nodes in them and calls their synchronisations, which make
    the kernel follow; the server configures containers with the same helpers.

    ** What the theorems show

    - C1-C3, C5, C8, C9, a subnet: [Sync] establishes the invariant, every
      operation refines an abstract pool, no address is given out twice, the
      round robin is a search of one lap, usage counts, canonical forms.
    - C10, C13, the choice of subnets; C14-C16, the allocators:
      refinement, all-or-nothing allocation, completeness.
    - C4, the daemon of a node as a state machine ([daemon_step]): an invariant
      of the hub, which gives the properties of the next group what they
      suppose of the managers, under every sequence of handlers; its clauses on
      families suppose that cached objects have the family of their version,
      which the webhooks do not enforce.  C11, what a pass over the instances
      records and synchronises.
    - C6, C12, C17, C30, the daemon: after a synchronisation the proxy
      neighbours, the ipsets and rules of iptables, the paths of BGP and the
      routes to the overlay are those that were recorded; what a failure
      leaves; and what earlier failures or others have left in the kernel: the
      members of an abandoned temporary ipset stay (C12, C18), an existing
      route is kept whatever its link, a default route in the table of the
      overlay is a panic (C30).  C18, the ipsets of a node follow the objects
      of the cluster; C7, the priorities of the policy rules.
    - C19-C24, names, the store and the manager: round trips (of IPv4
      addresses and of IPv6 ones whose text neither begins nor ends with "::"),
      all-or-nothing coupling up to deletions that the API server refuses,
      exact reuse and release, recovery of the recorded addresses, refresh of
      the allocator to what the server describes.
    - C25-C29, C31, C32, the webhooks: what is admitted, exactly, in terms of
      the addresses that the texts mean ([valid_range], [size_of], [pool_has],
      [ranges_meet]), what that gives the allocator, and what a mutated pod is;
      C33, with dual stack, allocation for a pod over allocator and server.
    - C34 the UUID mutex; C35-C36 ARP; C37 excluded address blocks.
    - C38 the status of a network; C39 the mirror of a remote cluster follows
      it, if the name of the cluster has no dot; C40 daemons and locks of remote clusters stay together.

    Lemmas outside this list carry the findings, each beside the component it
    is about.

    ** Termination and fuel

    Loops of the code that are not structural have fuel: one lap of the ring
    for a subnet ([allocate_loop]) and for the choice of a subnet
    ([available_loop]), 257 blocks for the splitting of a range
    ([split_loop]), the number of datagrams for ARP and NDP, the 32768
    priorities of rules ([priority_loop]) and the 30000 tables for subnets
    ([empty_table_loop]), whose bounds are those of the code.  That the fuel
    is enough is part of the theorems: none of them allows [Diverge].

    ** Not modelled

    Logs, events and metrics (but for the values of the usage gauge); the
    wiring of controllers (SetupWithManager) apart from its predicates and its
    functions from objects to requests; flags and process start-up; generated
    code; the HTTP transport between plugin and daemon.  Of the daemon:
    subscriptions to the kernel and timers (the steps of the event loops that
    they trigger are modelled), the loop that serves gobgp, and the
    interleaving of two handlers: a transition of [daemon_step] is a whole
    one. *)

From stdpp Require Export base gmap strings list fin_maps.
From Stdlib Require Export ZArith Lia.

Declare Scope go_scope.
Delimit Scope go_scope with go.

(** ** Errors

    A Go [error] value that is not nil.  The formatted text is not computed:
    [Errorf] keeps the format string and the string arguments, [Wrapf] also
    the error that the format includes, so that two errors are equal when the
    code builds them the same way. *)

(** The reasons of Kubernetes API errors the code tells apart. *)
Inductive StatusReason : Type :=
  | StatusReasonNotFound
  | StatusReasonAlreadyExists
  | StatusReasonConflict
  | StatusReasonOther.

Inductive error : Type :=
  | errors_New (text : string)
  | Errorf (format : string) (args : list string)
  | Wrapf (format : string) (args : list string) (cause : error)
  | StatusError (reason : StatusReason).

#[export] Instance StatusReason_eq_dec : EqDecision StatusReason.
Proof. solve_decision. Defined.

#[export] Instance error_eq_dec : EqDecision error.
Proof. solve_decision. Defined.

(** ** Outcomes of a Go call

    [Ret a]: the call returns [a] (with a nil error when it has one);
    [Fail e]: it returns the non-nil error [e]; [Panic]: a run-time panic (nil
    dereference, index out of range, division by zero); [Diverge]: the fuel
    given to a loop of the model ran out. *)
Inductive outcome (A : Type) : Type :=
  | Ret (a : A)
  | Fail (e : error)
  | Panic
  | Diverge.

Arguments Ret {A} a.
Arguments Fail {A} e.
Arguments Panic {A}.
Arguments Diverge {A}.

#[export] Instance outcome_ret : MRet outcome := λ A a, Ret a.
#[export] Instance outcome_bind : MBind outcome := λ A B f m,
  match m with
  | Ret a => f a
  | Fail e => Fail e
  | Panic => Panic
  | Diverge => Diverge
  end.

(** A [for] loop over the elements of a list that updates the variables [a]. *)
Fixpoint for_each {A B} (f : A → B → outcome A) (a : A) (l : list B) : outcome A :=
  match l with
  | [] => Ret a
  | x :: l => f a x ≫= λ a, for_each f a l
  end.

(** The dereference of a pointer that may be nil, the access of an element
    that may be out of range. *)
Definition deref {A} (o : option A) : outcome A :=
  match o with Some a => Ret a | None => Panic end.

(** ** Methods with a receiver

    A method that may change its receiver of type [S] and returns an [A] is a
    function from the receiver to the outcome and the changed receiver: the
    changes made before an error is returned are kept, as in Go. *)
Definition M (S A : Type) : Type := S → outcome A * S.

#[export] Instance M_ret {S} : MRet (M S) := λ A a s, (Ret a, s).
#[export] Instance M_bind {S} : MBind (M S) := λ A B f m s,
  match m s with
  | (Ret a, s') => f a s'
  | (Fail e, s') => (Fail e, s')
  | (Panic, s') => (Panic, s')
  | (Diverge, s') => (Diverge, s')
  end.

Definition fail {S A} (e : error) : M S A := λ s, (Fail e, s).
Definition panic {S A} : M S A := λ s, (Panic, s).
Definition get {S} : M S S := λ s, (Ret s, s).
Definition gets {S A} (f : S → A) : M S A := λ s, (Ret (f s), s).
Definition put {S} (s : S) : M S unit := λ _, (Ret tt, s).
Definition modify {S} (f : S → S) : M S unit := λ s, (Ret tt, f s).
Definition lift {S A} (o : outcome A) : M S A := λ s, (o, s).

(** [if err != nil { return fmt.Errorf(..., err) }] *)
Definition wrap {S A} (f : error → error) (m : M S A) : M S A := λ s,
  match m s with
  | (Fail e, s') => (Fail (f e), s')
  | r => r
  end.

(** A call whose error is looked at. *)
Definition attempt {S A} (m : M S A) : M S (A + error) := λ s,
  match m s with
  | (Ret a, s') => (Ret (inl a), s')
  | (Fail e, s') => (Ret (inr e), s')
  | (Panic, s') => (Panic, s')
  | (Diverge, s') => (Diverge, s')
  end.

Definition wrap_outcome {A} (f : error → error) (o : outcome A) : outcome A :=
  match o with Fail e => Fail (f e) | r => r end.

(** [defer func() { if err != nil { _ = cleanup } }()] around the rest of the
    function; the outcome of the clean-up is dropped. *)
Definition on_error {S A} (cleanup : M S unit) (m : M S A) : M S A := λ s,
  match m s with
  | (Fail e, s') =>
      match cleanup s' with
      | (Panic, s'') => (Panic, s'')
      | (Diverge, s'') => (Diverge, s'')
      | (_, s'') => (Fail e, s'')
      end
  | r => r
  end.

Fixpoint each {S A} (f : A → M S unit) (l : list A) : M S unit :=
  match l with
  | [] => mret tt
  | x :: l => f x;; each f l
  end.

(** A loop in which the results are dropped, errors included. *)
Definition ignore {S} (m : M S unit) : M S unit := λ s,
  match m s with (Fail _, s') => (Ret tt, s') | r => r end.

(** A method called through a pointer into the receiver: [rd] reads the
    pointed-to object ([None]: the pointer is nil or the index is out of
    range, a panic) and [wr] stores it back. *)
Definition zoom {S T A} (rd : S → option T) (wr : T → S → S) (m : M T A) : M S A :=
  λ s, match rd s with
       | None => (Panic, s)
       | Some t => let '(o, t') := m t in (o, wr t' s)
       end.


Section monad_laws.
Context {S A B : Type}.
Implicit Types (s : S) (m : M S A) (f : A → M S B).

Lemma bind_ret f a s : (mret a ≫= f) s = f a s.
Proof. done. Qed.

Lemma bind_Ret m f s a s' : m s = (Ret a, s') → (m ≫= f) s = f a s'.
Proof. unfold mbind, M_bind. by intros ->. Qed.

Lemma bind_Fail m f s e s' : m s = (Fail e, s') → (m ≫= f) s = (Fail e, s').
Proof. unfold mbind, M_bind. by intros ->. Qed.

Lemma bind_Ret_inv m f s b s' :
  (m ≫= f) s = (Ret b, s') → ∃ a s1, m s = (Ret a, s1) ∧ f a s1 = (Ret b, s').
Proof.
  unfold mbind, M_bind. destruct (m s) as [[a|e| |] s1]; intros H; simplify_eq; eauto.
Qed.

Lemma bind_Fail_inv m f s e s' :
  (m ≫= f) s = (Fail e, s') →
  m s = (Fail e, s') ∨ ∃ a s1, m s = (Ret a, s1) ∧ f a s1 = (Fail e, s').
Proof.
  unfold mbind, M_bind. destruct (m s) as [[a|e'| |] s1]; intros H; simplify_eq; eauto.
Qed.

Lemma bind_get (g : S → M S B) s : (get ≫= g) s = g s s.
Proof. done. Qed.

Lemma bind_gets (h : S → A) f s : (gets h ≫= f) s = f (h s) s.
Proof. done. Qed.

Lemma bind_put s0 (g : unit → M S B) s : (put s0 ≫= g) s = g tt s0.
Proof. done. Qed.

Lemma bind_modify h (g : unit → M S B) s : (modify h ≫= g) s = g tt (h s).
Proof. done. Qed.

Lemma bind_fail e f s : (fail e ≫= f) s = (Fail e, s).
Proof. done. Qed.

Lemma bind_panic f s : (panic ≫= f) s = (Panic, s).
Proof. done. Qed.

Lemma bind_lift_Ret a f s : (lift (Ret a) ≫= f) s = f a s.
Proof. done. Qed.

Lemma wrap_Ret_inv g m s a s' : wrap g m s = (Ret a, s') → m s = (Ret a, s').
Proof. unfold wrap. destruct (m s) as [[]]; naive_solver. Qed.

Lemma wrap_Ret g m s a s' : m s = (Ret a, s') → wrap g m s = (Ret a, s').
Proof. unfold wrap. by intros ->. Qed.

Lemma wrap_Fail g m s e s' : m s = (Fail e, s') → wrap g m s = (Fail (g e), s').
Proof. unfold wrap. by intros ->. Qed.

Lemma wrap_state g m s : (wrap g m s).2 = (m s).2.
Proof. unfold wrap. by destruct (m s) as [[]]. Qed.
End monad_laws.

(** What a call leaves: [post m s Q] when the outcome of [m] at [s] and the
    state after it satisfy [Q]. *)
Definition post {S A} (m : M S A) (s : S) (Q : outcome A → S → Prop) : Prop := Q (m s).1 (m s).2.

Section post_rules.
Context {S A B : Type}.
Implicit Types (s : S) (m : M S A) (f : A → M S B).

Lemma post_bind m f s Q :
  post m s (λ o s', match o with
                    | Ret a => post (f a) s' Q
                    | Fail e => Q (Fail e) s'
                    | Panic => Q Panic s'
                    | Diverge => Q Diverge s'
                    end) →
  post (m ≫= f) s Q.
Proof. unfold post, mbind, M_bind. by destruct (m s) as [[a|e| |] s']. Qed.

Lemma post_mono m s (Q Q' : outcome A → S → Prop) :
  post m s Q → (∀ o s', Q o s' → Q' o s') → post m s Q'.
Proof. unfold post. auto. Qed.

Lemma post_wrap g m s Q :
  post m s (λ o s', match o with Fail e => Q (Fail (g e)) s' | _ => Q o s' end) → post (wrap g m) s Q.
Proof. unfold post, wrap. by destruct (m s) as [[a|e| |] s']. Qed.

Lemma post_ret a s (Q : outcome A → S → Prop) : Q (Ret a) s → post (mret a) s Q.
Proof. done. Qed.

Lemma post_eq m s o s' Q : m s = (o, s') → post m s Q → Q o s'.
Proof. unfold post. by intros ->. Qed.
End post_rules.

(** Loops with an invariant over the elements that are done. *)
Section each_rules.
Context {S A : Type}.
Implicit Types (s : S) (f : A → M S unit).

Lemma post_each_list f l s (I : list A → S → Prop) (F : S → Prop) :
  I [] s →
  (∀ xs x rest s, l = xs ++ x :: rest → I xs s →
     post (f x) s (λ o s', match o with Ret _ => I (xs ++ [x]) s' | Fail _ => F s' | _ => False end)) →
  post (each f l) s (λ o s', match o with Ret _ => I l s' | Fail _ => F s' | _ => False end).
Proof.
  intros H0 Hf. assert (∀ xs rest s, l = xs ++ rest → I xs s →
    post (each f rest) s (λ o s', match o with Ret _ => I l s' | Fail _ => F s' | _ => False end)) as H; [|by apply (H [])].
  intros xs rest. revert xs. induction rest as [|x rest IH]; intros xs t E Hi; cbn [each].
  - apply post_ret. by rewrite E, app_nil_r.
  - apply post_bind. eapply post_mono; [by apply (Hf xs x rest)|]. intros [[]|e| |] t' Ht; [|done..].
    apply (IH (xs ++ [x])); [by rewrite <-app_assoc|done].
Qed.
End each_rules.

Create Rewrite HintDb m_db.
#[export] Hint Rewrite @bind_ret @bind_get @bind_gets @bind_put @bind_modify @bind_fail @bind_panic
  @bind_lift_Ret : m_db.

(** Runs the monadic operations at the head of a computation. *)
Ltac m_run := autorewrite with m_db; cbn [negb andb orb].

(** Case analysis on the first computation of a sequence in hypothesis [H]. *)
Ltac inv_bind H :=
  match type of H with
  | (_ ≫= _) _ = (Ret _, _) =>
      apply bind_Ret_inv in H;
      let a := fresh "a" in let s := fresh "s" in let H1 := fresh H in
      destruct H as (a & s & H1 & H)
  | wrap _ _ _ = (Ret _, _) => apply wrap_Ret_inv in H
  end.

(** Linear arithmetic with division and remainder. *)
Ltac zdiv_lia := repeat split; Z.to_euclidean_division_equations; lia.

(** ** Strings *)

Lemma sapp_nil (s : string) : "" +:+ s = s.
Proof. done. Qed.

Lemma sapp_cons c (s t : string) : String c s +:+ t = String c (s +:+ t).
Proof. done. Qed.

Lemma sapp_nil_r (s : string) : s +:+ "" = s.
Proof. induction s as [|c s IH]; [done|]. by rewrite sapp_cons, IH. Qed.

Lemma sapp_assoc (s t u : string) : (s +:+ t) +:+ u = s +:+ (t +:+ u).
Proof. induction s as [|c s IH]; [done|]. by rewrite !sapp_cons, IH. Qed.

Create Rewrite HintDb strings_db.
#[export] Hint Rewrite sapp_nil sapp_cons sapp_nil_r sapp_assoc : strings_db.
