(* ===== verification/GoNet.v ===== *)
(** * Go's package net, as the repository uses it

    Addresses are byte slices ([netIP], the empty list is the nil slice), a
    network is an address and a mask ([IPNet]).  The definitions follow the
    package of Go 1.16 (the version the repository is built with), where
    [ParseIP] still accepts decimal components with leading zeros.  The
    component ends with the round trip [ParseIP_String]: the text of a valid
    address parses back to the address in its 16-byte form. *)

From S2P Require Import Prelude.
From Stdlib Require Import Ascii.
Local Open Scope Z_scope.

Abbreviation netIP := (list Z) (only parsing).
Abbreviation IPMask := (list Z) (only parsing).

Record IPNet := mkIPNet { IPNet_IP : netIP; IPNet_Mask : IPMask }.

#[export] Instance IPNet_eq_dec : EqDecision IPNet.
Proof. solve_decision. Defined.

(** A slice of bytes. *)
Definition byte_ok (b : Z) : Prop := 0 ≤ b < 256.
Definition bytes_ok (l : list Z) : Prop := Forall byte_ok l.

(** ** Addresses *)

Definition v4InV6Prefix : list Z := [0;0;0;0;0;0;0;0;0;0;255;255].

Definition To4 (ip : netIP) : netIP :=
  if decide (length ip = 4%nat) then ip
  else if decide (length ip = 16%nat ∧ take 12 ip = v4InV6Prefix) then drop 12 ip
  else [].

Definition To16 (ip : netIP) : netIP :=
  if decide (length ip = 4%nat) then v4InV6Prefix ++ ip
  else if decide (length ip = 16%nat) then ip
  else [].

Definition IP_Equal (ip x : netIP) : bool :=
  if decide (length ip = length x) then bool_decide (ip = x)
  else if decide (length ip = 4%nat ∧ length x = 16%nat) then
    bool_decide (take 12 x = v4InV6Prefix) && bool_decide (ip = drop 12 x)
  else if decide (length ip = 16%nat ∧ length x = 4%nat) then
    bool_decide (take 12 ip = v4InV6Prefix) && bool_decide (drop 12 ip = x)
  else false.

Definition IPv4 (a b c d : Z) : netIP := v4InV6Prefix ++ [a; b; c; d].

Definition and_bytes (a b : list Z) : list Z := zip_with Z.land a b.

(** [func (ip IP) Mask(mask IPMask) IP] *)
Definition IP_Mask (ip : netIP) (mask : IPMask) : netIP :=
  let mask := if decide (length mask = 16%nat ∧ length ip = 4%nat
                         ∧ take 12 mask = replicate 12 255) then drop 12 mask else mask in
  let ip := if decide (length mask = 4%nat ∧ length ip = 16%nat
                       ∧ take 12 ip = v4InV6Prefix) then drop 12 ip else ip in
  if decide (length ip = length mask) then and_bytes ip mask else [].

Definition networkNumberAndMask (n : IPNet) : netIP * IPMask :=
  let ip4 := To4 (IPNet_IP n) in
  let m := IPNet_Mask n in
  if decide (ip4 = []) then
    if decide (length (IPNet_IP n) = 16%nat) then
      if decide (length m = 4%nat) then ([], [])
      else if decide (length m = 16%nat) then (IPNet_IP n, m) else ([], [])
    else ([], [])
  else if decide (length m = 4%nat) then (ip4, m)
  else if decide (length m = 16%nat) then (ip4, drop 12 m) else ([], []).

(** [func (n *IPNet) Contains(ip IP) bool] *)
Definition IPNet_Contains (n : IPNet) (ip : netIP) : bool :=
  let '(nn, m) := networkNumberAndMask n in
  let ip := if decide (To4 ip = []) then ip else To4 ip in
  if decide (length ip = length nn)
  then bool_decide (and_bytes nn m = and_bytes ip m) else false.

(** [func CIDRMask(ones, bits int) IPMask] *)
Fixpoint cidr_bytes (len : nat) (n : Z) : list Z :=
  match len with
  | O => []
  | S len => if 8 <=? n then 255 :: cidr_bytes len (n - 8)
             else (255 - Z.shiftr 255 n) :: cidr_bytes len 0
  end.

Definition CIDRMask (ones bits : Z) : IPMask :=
  if (bits =? 32) || (bits =? 128) then
    if (ones <? 0) || (bits <? ones) then [] else cidr_bytes (Z.to_nat (bits / 8)) ones
  else [].

(** [func simpleMaskLength(mask IPMask) int] *)
Fixpoint leading_ones (k : nat) (v : Z) : Z * Z :=
  match k with
  | O => (0, v)
  | S k => if Z.testbit v 7
           then let '(n, v) := leading_ones k (Z.land (Z.shiftl v 1) 255) in (n + 1, v)
           else (0, v)
  end.

Fixpoint simpleMaskLength (mask : IPMask) : Z :=
  match mask with
  | [] => 0
  | v :: rest =>
      if v =? 255 then
        let n := simpleMaskLength rest in if n =? -1 then -1 else n + 8
      else let '(n, v) := leading_ones 8 v in
           if negb (v =? 0) then -1
           else if forallb (Z.eqb 0) rest then n else -1
  end.

(** [func (m IPMask) Size() (ones, bits int)] *)
Definition Mask_Size (m : IPMask) : Z * Z :=
  let ones := simpleMaskLength m in
  if ones =? -1 then (0, 0) else (ones, Z.of_nat (length m) * 8).

(** ** Text *)

Definition digit_ascii (d : Z) : ascii := ascii_of_nat (Z.to_nat (48 + d)).
Definition hexdigit_ascii (d : Z) : ascii :=
  ascii_of_nat (Z.to_nat (if d <? 10 then 48 + d else 87 + d)).

Definition ascii_Z (c : ascii) : Z := Z.of_nat (nat_of_ascii c).

Definition digit_val (c : ascii) : option Z :=
  let n := ascii_Z c in if (48 <=? n) && (n <=? 57) then Some (n - 48) else None.

Definition hex_val (c : ascii) : option Z :=
  let n := ascii_Z c in
  if (48 <=? n) && (n <=? 57) then Some (n - 48)
  else if (97 <=? n) && (n <=? 102) then Some (n - 87)
  else if (65 <=? n) && (n <=? 70) then Some (n - 55)
  else None.

Definition big : Z := 16777215. (* 0xFFFFFF *)

(** [dtoi] and [xtoi]: the number at the head of the text, the number of
    characters it takes and the rest of the text; [None] when the text does
    not start with a number or the number is not below [big]. *)
Fixpoint ntoi_loop (base : Z) (val : ascii → option Z) (s : string) (n : Z) (i : nat)
  : option (Z * nat * string) :=
  match s with
  | EmptyString => Some (n, i, s)
  | String c s' =>
      match val c with
      | None => Some (n, i, s)
      | Some d => if big <=? n * base + d then None
                  else ntoi_loop base val s' (n * base + d) (S i)
      end
  end.

Definition ntoi (base : Z) (val : ascii → option Z) (s : string) : option (Z * nat * string) :=
  match ntoi_loop base val s 0 0 with
  | Some (_, O, _) => None
  | r => r
  end.

Definition dtoi := ntoi 10 digit_val.
Definition xtoi := ntoi 16 hex_val.

(** [func parseIPv4(s string) IP] *)
Fixpoint parseIPv4_loop (k : nat) (first : bool) (s : string) : option (list Z) :=
  match k with
  | O => match s with EmptyString => Some [] | _ => None end
  | S k =>
      let s' := if first then match s with EmptyString => None | _ => Some s end
                else match s with
                     | String c s' => if decide (c = "."%char) then Some s' else None
                     | EmptyString => None
                     end in
      match s' with
      | None => None
      | Some s =>
          match dtoi s with
          | Some (n, _, rest) =>
              if 255 <? n then None
              else match parseIPv4_loop k false rest with
                   | Some p => Some (n :: p)
                   | None => None
                   end
          | None => None
          end
      end
  end.

Definition parseIPv4 (s : string) : netIP :=
  match parseIPv4_loop 4 true s with
  | Some [a; b; c; d] => IPv4 a b c d
  | _ => []
  end.

(** [func parseIPv6(s string) IP]: the loop over the hex numbers; [acc] is
    the part of the address parsed so far, [ell] the position of the
    ellipsis. *)
Fixpoint parseIPv6_loop (fuel : nat) (acc : list Z) (ell : option nat) (s : string)
  : option (list Z * option nat) :=
  match fuel with
  | O => match s with EmptyString => Some (acc, ell) | _ => None end
  | S f =>
      match xtoi s with
      | None => None
      | Some (n, _, rest) =>
          if 65535 <? n then None
          else if bool_decide (String.get 0 rest = Some "."%char) then
            if bool_decide (ell = None ∧ length acc ≠ 12%nat) then None
            else if bool_decide (16 < length acc + 4)%nat then None
            else match parseIPv4 s with
                 | [] => None
                 | ip4 => Some (acc ++ drop 12 ip4, ell)
                 end
          else
            let acc := acc ++ [n / 256; n mod 256] in
            match rest with
            | EmptyString => Some (acc, ell)
            | String c s1 =>
                if decide (c = ":"%char) then
                  match s1 with
                  | EmptyString => None
                  | String c1 s2 =>
                      if decide (c1 = ":"%char) then
                        match ell with
                        | Some _ => None
                        | None =>
                            match s2 with
                            | EmptyString => Some (acc, Some (length acc))
                            | _ => parseIPv6_loop f acc (Some (length acc)) s2
                            end
                        end
                      else parseIPv6_loop f acc ell s1
                  end
                else None
            end
      end
  end.

Definition expand_ellipsis (acc : list Z) (ell : option nat) : netIP :=
  if decide (length acc < 16)%nat then
    match ell with
    | None => []
    | Some e => take e acc ++ replicate (16 - length acc) 0 ++ drop e acc
    end
  else match ell with Some _ => [] | None => acc end.

Definition parseIPv6 (s : string) : netIP :=
  let '(ell, s) := match s with
                   | String c0 (String c1 s') =>
                       if decide (c0 = ":"%char ∧ c1 = ":"%char)
                       then (Some 0%nat, s') else (None, s)
                   | _ => (None, s)
                   end in
  match ell, s with
  | Some _, EmptyString => replicate 16 0
  | _, _ => match parseIPv6_loop 8 [] ell s with
            | None => []
            | Some (acc, ell) => expand_ellipsis acc ell
            end
  end.

(** [func ParseIP(s string) IP] *)
Fixpoint ParseIP_scan (s0 s : string) : netIP :=
  match s with
  | EmptyString => []
  | String c s' =>
      if decide (c = "."%char) then parseIPv4 s0
      else if decide (c = ":"%char) then parseIPv6 s0
      else ParseIP_scan s0 s'
  end.

Definition ParseIP (s : string) : netIP := ParseIP_scan s s.

(** [func ParseCIDR(s string) ( IP, *IPNet, error)]; the error's text is not
    modelled. *)
Fixpoint split_slash (s : string) : option (string * string) :=
  match s with
  | EmptyString => None
  | String c s' =>
      if decide (c = "/"%char) then Some (EmptyString, s')
      else match split_slash s' with
           | Some (a, b) => Some (String c a, b)
           | None => None
           end
  end.

Definition ParseCIDR (s : string) : option (netIP * IPNet) :=
  match split_slash s with
  | None => None
  | Some (addr, mask) =>
      let '(ip, iplen) := match parseIPv4 addr with
                          | [] => (parseIPv6 addr, 16)
                          | ip => (ip, 4)
                          end in
      match dtoi mask with
      | Some (n, _, EmptyString) =>
          if decide (ip = []) then None
          else if 8 * iplen <? n then None
          else let m := CIDRMask n (8 * iplen) in
               Some (ip, mkIPNet (IP_Mask ip m) m)
      | _ => None
      end
  end.

(** [ubtoa]: the decimal text of a byte. *)
Definition ubtoa (v : Z) : string :=
  if v <? 10 then String (digit_ascii v) ""
  else if v <? 100 then String (digit_ascii (v / 10)) (String (digit_ascii (v mod 10)) "")
  else String (digit_ascii (v / 100))
         (String (digit_ascii (v / 10 mod 10)) (String (digit_ascii (v mod 10)) "")).

(** [appendHex]: the text of a 16-bit group, without leading zeros. *)
Fixpoint appendHex_loop (j : nat) (i : Z) : string :=
  match j with
  | O => ""
  | S j => let v := Z.shiftr i (Z.of_nat j * 4) in
           if 0 <? v then String (hexdigit_ascii (v mod 16)) (appendHex_loop j i)
           else appendHex_loop j i
  end.

Definition appendHex (i : Z) : string :=
  if i =? 0 then "0" else appendHex_loop 8 i.

Fixpoint join (sep : string) (l : list string) : string :=
  match l with
  | [] => ""
  | [x] => x
  | x :: l => x +:+ sep +:+ join sep l
  end.

Fixpoint groups (ip : list Z) : list Z :=
  match ip with
  | a :: b :: ip => (a * 256 + b) :: groups ip
  | _ => []
  end.

(** The longest run of zero groups, the first one when several are longest. *)
Fixpoint zero_run (gs : list Z) : nat :=
  match gs with
  | g :: gs => if g =? 0 then S (zero_run gs) else O
  | [] => O
  end.

Fixpoint longest_run (i : nat) (gs : list Z) (best : nat * nat) : nat * nat :=
  match gs with
  | [] => best
  | _ :: gs' =>
      let r := zero_run gs in
      let best := if decide (best.2 - best.1 < r)%nat then (i, (i + r)%nat) else best in
      longest_run (S i) gs' best
  end.

Definition print_v6 (gs : list Z) : string :=
  let '(e0, e1) := longest_run 0 gs (0, 0)%nat in
  if decide (e1 - e0 <= 1)%nat then join ":" (appendHex <$> gs)
  else join ":" (appendHex <$> take e0 gs) +:+ "::" +:+ join ":" (appendHex <$> drop e1 gs).

Definition hex_byte (b : Z) : string :=
  String (hexdigit_ascii (b / 16)) (String (hexdigit_ascii (b mod 16)) "").
Fixpoint hexString (l : list Z) : string :=
  match l with [] => "" | b :: l => hex_byte b +:+ hexString l end.

(** [func (ip IP) String() string] *)
Definition IP_String (ip : netIP) : string :=
  match ip with
  | [] => "<nil>"
  | _ => match To4 ip with
         | [a; b; c; d] => ubtoa a +:+ "." +:+ ubtoa b +:+ "." +:+ ubtoa c +:+ "." +:+ ubtoa d
         | _ => if decide (length ip = 16%nat) then print_v6 (groups ip)
                else "?" +:+ hexString ip
         end
  end.

(** ** Valid addresses

    The addresses that parsing yields: 4 or 16 bytes. *)

Definition valid_ip (ip : netIP) : Prop :=
  bytes_ok ip ∧ (length ip = 4%nat ∨ length ip = 16%nat).

(** The address as a number: the big-endian value of its 16-byte form. *)
Definition be (l : list Z) : Z := foldl (λ n b, n * 256 + b) 0 l.
Definition addr (ip : netIP) : Z := be (To16 ip).

Lemma length_nil {A} (l : list A) : length l = 0%nat → l = [].
Proof. by destruct l. Qed.

Lemma To16_length ip : valid_ip ip → length (To16 ip) = 16%nat.
Proof. intros [_ [H|H]]; unfold To16; repeat case_decide; simpl; rewrite ?H; lia. Qed.

Lemma To16_bytes ip : valid_ip ip → bytes_ok (To16 ip).
Proof.
  intros [Hb Hl]. unfold To16. case_decide; [|case_decide; [done|constructor]].
  apply Forall_app; split; [|done]. repeat constructor; lia.
Qed.

Lemma To16_valid ip : valid_ip ip → valid_ip (To16 ip).
Proof. intros H. split; [by apply To16_bytes|right; by apply To16_length]. Qed.

Lemma To16_idemp ip : valid_ip ip → To16 (To16 ip) = To16 ip.
Proof.
  intros H. pose proof (To16_length ip H) as Hl. revert Hl. generalize (To16 ip).
  intros l Hl. unfold To16. repeat case_decide; lia || done.
Qed.

(** The 4-byte form only depends on the 16-byte form. *)
Lemma To4_To16 ip : valid_ip ip → To4 (To16 ip) = To4 ip.
Proof.
  intros [_ [H|H]].
  - unfold To16. rewrite decide_True by done. unfold To4.
    rewrite decide_False by (rewrite length_app, H; simpl; lia).
    rewrite decide_True; [by rewrite decide_True by done|].
    rewrite length_app, H. done.
  - unfold To16. rewrite decide_False by lia. by rewrite decide_True by done.
Qed.

Lemma To4_length ip : valid_ip ip → To4 ip = [] ∨ length (To4 ip) = 4%nat.
Proof.
  intros [_ [H|H]]; unfold To4; repeat case_decide; auto; right; rewrite ?length_drop; lia.
Qed.

(** An IPv4 address is its 4 bytes after the fixed prefix. *)
Lemma To16_v4 ip : valid_ip ip → To4 ip ≠ [] → To16 ip = v4InV6Prefix ++ To4 ip.
Proof.
  intros [_ Hl] Hn. unfold To4, To16 in *. repeat case_decide; try done; try lia.
  destruct H0 as [_ <-]. by rewrite take_drop.
Qed.

Lemma To4_bytes ip : valid_ip ip → bytes_ok (To4 ip).
Proof.
  intros [Hb _]. unfold To4. repeat case_decide; [done| |constructor].
  by apply Forall_drop.
Qed.

Lemma bytes_ok_snoc l b : bytes_ok (l ++ [b]) → bytes_ok l ∧ byte_ok b.
Proof.
  intros H. apply Forall_app in H as [Hl Hb]. split; [done|]. by apply Forall_cons_1 in Hb as [? _].
Qed.

Lemma be_app l b : be (l ++ [b]) = be l * 256 + b.
Proof. unfold be. by rewrite foldl_app. Qed.

Lemma be_bounds l : bytes_ok l → 0 ≤ be l < 256 ^ Z.of_nat (length l).
Proof.
  induction l as [|b l IH] using rev_ind; [done|]. intros H.
  apply bytes_ok_snoc in H as [Hl Hb]. unfold byte_ok in Hb.
  rewrite be_app, length_app. simpl. specialize (IH Hl).
  replace (Z.of_nat (length l + 1)) with (Z.of_nat (length l) + 1) by lia.
  rewrite Z.pow_add_r, Z.pow_1_r by lia.
  revert IH. generalize (256 ^ Z.of_nat (length l)). intros; lia.
Qed.

Lemma be_inj l1 l2 :
  bytes_ok l1 → bytes_ok l2 → length l1 = length l2 → be l1 = be l2 → l1 = l2.
Proof.
  revert l2. induction l1 as [|b1 l1 IH] using rev_ind; intros l2 H1 H2 Hlen Hbe.
  - symmetry. by apply length_nil.
  - destruct l2 as [|b2 l2 _] using rev_ind; [rewrite length_app in Hlen; simpl in *; lia|].
    rewrite !length_app in Hlen. simpl in Hlen. rewrite !be_app in Hbe.
    apply bytes_ok_snoc in H1 as [H1 Hb1]. apply bytes_ok_snoc in H2 as [H2 Hb2].
    unfold byte_ok in Hb1, Hb2.
    assert (be l1 = be l2 ∧ b1 = b2) as [? ->] by lia.
    by rewrite (IH l2) by (done || lia).
Qed.

Lemma addr_inj ip x : valid_ip ip → valid_ip x → addr ip = addr x → To16 ip = To16 x.
Proof.
  intros H1 H2. apply be_inj; auto using To16_bytes. by rewrite !To16_length.
Qed.

Lemma addr_bounds ip : valid_ip ip → 0 ≤ addr ip < 2 ^ 128.
Proof.
  intros H. pose proof (be_bounds _ (To16_bytes ip H)) as Hb.
  rewrite To16_length in Hb by done. done.
Qed.

(** Equality of addresses is equality of the 16-byte forms. *)
Lemma IP_Equal_spec ip x :
  valid_ip ip → valid_ip x → IP_Equal ip x = true ↔ To16 ip = To16 x.
Proof.
  intros [_ H1] [_ H2]. unfold IP_Equal, To16.
  assert (∀ l : list Z, length l = 16%nat → ∀ r, length r = 4%nat →
    bool_decide (take 12 l = v4InV6Prefix) && bool_decide (r = drop 12 l) = true
    ↔ v4InV6Prefix ++ r = l) as Hsplit.
  { intros l Hl r Hr. rewrite andb_true_iff, !bool_decide_eq_true. split.
    - intros [<- ->]. by rewrite take_drop.
    - intros <-. split; done. }
  destruct H1 as [H1|H1], H2 as [H2|H2]; rewrite H1, H2; simpl.
  - rewrite bool_decide_eq_true. split; [by intros ->|]. intros E. by injection E.
  - apply Hsplit; done.
  - rewrite (bool_decide_ext (drop 12 ip = x) (x = drop 12 ip)) by (split; by intros ->).
    etrans; [exact (Hsplit ip H1 x H2)|]. split; intros E; symmetry; exact E.
  - by rewrite bool_decide_eq_true.
Qed.

Lemma IP_Equal_addr ip x :
  valid_ip ip → valid_ip x → IP_Equal ip x = true ↔ addr ip = addr x.
Proof.
  intros. rewrite IP_Equal_spec by done. split; [by unfold addr; intros ->|by apply addr_inj].
Qed.

(** ** Printing then parsing *)

Lemma digit_val_ascii d : 0 ≤ d < 10 → digit_val (digit_ascii d) = Some d.
Proof.
  intros. assert (d=0∨d=1∨d=2∨d=3∨d=4∨d=5∨d=6∨d=7∨d=8∨d=9) by lia.
  destruct_or!; subst; reflexivity.
Qed.

Lemma hex_val_ascii d : 0 ≤ d < 16 → hex_val (hexdigit_ascii d) = Some d.
Proof.
  intros. assert (d=0∨d=1∨d=2∨d=3∨d=4∨d=5∨d=6∨d=7∨d=8∨d=9∨d=10∨d=11∨d=12∨d=13∨d=14∨d=15) by lia.
  destruct_or!; subst; reflexivity.
Qed.

Section numbers.
Context (base : Z) (val : ascii → option Z).

Definition stops (s : string) : Prop :=
  match s with EmptyString => True | String c _ => val c = None end.

Lemma ntoi_loop_stop s n i : stops s → ntoi_loop base val s n i = Some (n, i, s).
Proof. destruct s; [done|]. simpl. by intros ->. Qed.

Lemma ntoi_loop_step c d s n i :
  val c = Some d → n * base + d < big →
  ntoi_loop base val (String c s) n i = ntoi_loop base val s (n * base + d) (S i).
Proof. intros Hc Hb. simpl. rewrite Hc. by destruct (Z.leb_spec big (n * base + d)); [lia|]. Qed.

Lemma ntoi_of_loop s n i r : ntoi_loop base val s 0 0 = Some (n, S i, r) → ntoi base val s = Some (n, S i, r).
Proof. unfold ntoi. by intros ->. Qed.
End numbers.

Lemma dtoi_step d s n i :
  0 ≤ d < 10 → n * 10 + d < big →
  ntoi_loop 10 digit_val (String (digit_ascii d) s) n i
  = ntoi_loop 10 digit_val s (n * 10 + d) (S i).
Proof. intros. apply ntoi_loop_step; [by apply digit_val_ascii|done]. Qed.

Lemma xtoi_step d s n i :
  0 ≤ d < 16 → n * 16 + d < big →
  ntoi_loop 16 hex_val (String (hexdigit_ascii d) s) n i
  = ntoi_loop 16 hex_val s (n * 16 + d) (S i).
Proof. intros. apply ntoi_loop_step; [by apply hex_val_ascii|done]. Qed.

Ltac digits :=
  repeat first [rewrite dtoi_step by (unfold big; lia) | rewrite xtoi_step by (unfold big; lia)];
  rewrite ntoi_loop_stop by done; repeat f_equal; lia.

Lemma dtoi_ubtoa v rest :
  byte_ok v → stops digit_val rest → ∃ k, dtoi (ubtoa v +:+ rest) = Some (v, S k, rest).
Proof.
  unfold byte_ok. intros Hv Hs. unfold dtoi, ubtoa.
  destruct (Z.ltb_spec v 10); [|destruct (Z.ltb_spec v 100)]; autorewrite with strings_db.
  - exists 0%nat. apply ntoi_of_loop. digits.
  - exists 1%nat. apply ntoi_of_loop.
    assert (0 ≤ v / 10 < 10 ∧ 0 ≤ v mod 10 < 10 ∧ v = v / 10 * 10 + v mod 10) by zdiv_lia.
    digits.
  - exists 2%nat. apply ntoi_of_loop.
    assert (v / 100 = v / 10 / 10) as -> by zdiv_lia.
    assert (0 ≤ v / 10 / 10 < 10 ∧ 0 ≤ v / 10 mod 10 < 10 ∧ 0 ≤ v mod 10 < 10
            ∧ v = (v / 10 / 10 * 10 + v / 10 mod 10) * 10 + v mod 10) by zdiv_lia.
    digits.
Qed.

(** The hexadecimal digits of a 16-bit group. *)
Lemma appendHex_spec i :
  0 < i < 65536 →
  appendHex i =
    let d3 := hexdigit_ascii (i / 4096 mod 16) in let d2 := hexdigit_ascii (i / 256 mod 16) in
    let d1 := hexdigit_ascii (i / 16 mod 16) in let d0 := hexdigit_ascii (i mod 16) in
    if i <? 16 then String d0 ""
    else if i <? 256 then String d1 (String d0 "")
    else if i <? 4096 then String d2 (String d1 (String d0 ""))
    else String d3 (String d2 (String d1 (String d0 ""))).
Proof.
  intros Hi. unfold appendHex. rewrite (proj2 (Z.eqb_neq i 0)) by lia.
  cbn [appendHex_loop]. rewrite !Z.shiftr_div_pow2 by lia.
  change (2 ^ (Z.of_nat 7 * 4)) with 268435456. change (2 ^ (Z.of_nat 6 * 4)) with 16777216.
  change (2 ^ (Z.of_nat 5 * 4)) with 1048576. change (2 ^ (Z.of_nat 4 * 4)) with 65536.
  change (2 ^ (Z.of_nat 3 * 4)) with 4096. change (2 ^ (Z.of_nat 2 * 4)) with 256.
  change (2 ^ (Z.of_nat 1 * 4)) with 16. change (2 ^ (Z.of_nat 0 * 4)) with 1.
  rewrite Z.div_1_r.
  assert (∀ k, 65536 ≤ k → (0 <? i / k) = false) as Hbig.
  { intros k Hk. rewrite Z.div_small by lia. done. }
  rewrite !Hbig by lia.
  assert (∀ k, 0 < k → (0 <? i / k) = negb (i <? k)) as Hk.
  { intros k Hk. destruct (Z.ltb_spec i k).
    - by rewrite Z.div_small by lia.
    - apply Z.ltb_lt. apply Z.div_str_pos. lia. }
  rewrite !Hk by lia. rewrite (proj2 (Z.ltb_lt 0 i)) by lia.
  destruct (Z.ltb_spec i 16), (Z.ltb_spec i 256), (Z.ltb_spec i 4096); try lia; done.
Qed.

Lemma xtoi_appendHex v rest :
  0 ≤ v < 65536 → stops hex_val rest → ∃ k, xtoi (appendHex v +:+ rest) = Some (v, S k, rest).
Proof.
  intros Hv Hs. unfold xtoi. destruct (decide (v = 0)) as [->|].
  { exists 0%nat. apply ntoi_of_loop. simpl. by rewrite ntoi_loop_stop. }
  rewrite appendHex_spec by lia. cbv zeta.
  assert (0 ≤ v mod 16 < 16 ∧ 0 ≤ v / 16 mod 16 < 16 ∧ 0 ≤ v / 256 mod 16 < 16
    ∧ 0 ≤ v / 4096 mod 16 < 16 ∧ v / 16 = v / 256 * 16 + v / 16 mod 16
    ∧ v / 256 = v / 4096 * 16 + v / 256 mod 16 ∧ v = v / 16 * 16 + v mod 16
    ∧ v / 4096 = v / 4096 mod 16) by zdiv_lia.
  destruct (Z.ltb_spec v 16); [|destruct (Z.ltb_spec v 256); [|destruct (Z.ltb_spec v 4096)]];
    autorewrite with strings_db.
  - exists 0%nat. apply ntoi_of_loop. assert (v / 16 = 0) by zdiv_lia. digits.
  - exists 1%nat. apply ntoi_of_loop. assert (v / 256 = 0) by zdiv_lia. digits.
  - exists 2%nat. apply ntoi_of_loop. assert (v / 4096 = 0) by zdiv_lia. digits.
  - exists 3%nat. apply ntoi_of_loop. digits.
Qed.

Lemma appendHex_head v : 0 ≤ v < 65536 →
  ∃ c s, appendHex v = String c s ∧ is_Some (hex_val c).
Proof.
  intros Hv. destruct (xtoi_appendHex v "" Hv I) as [k H].
  rewrite sapp_nil_r in H. destruct (appendHex v) as [|c s]; [done|].
  exists c, s. split; [done|]. unfold xtoi, ntoi in H. simpl in H.
  destruct (hex_val c); [eauto|done].
Qed.

(** *** IPv4 *)

Lemma parseIPv4_dotted a b c d :
  byte_ok a → byte_ok b → byte_ok c → byte_ok d →
  parseIPv4 (ubtoa a +:+ "." +:+ ubtoa b +:+ "." +:+ ubtoa c +:+ "." +:+ ubtoa d) = IPv4 a b c d.
Proof.
  intros Ha Hb Hc Hd. unfold parseIPv4.
  assert (∀ v rest, byte_ok v → stops digit_val rest → ∀ k first, 
    parseIPv4_loop (S k) first ((if first then "" else ".") +:+ ubtoa v +:+ rest)
    = match parseIPv4_loop k false rest with Some p => Some (v :: p) | None => None end) as Hstep.
  { intros v rest Hv Hs k first. destruct (dtoi_ubtoa v rest Hv Hs) as [n Hn].
    assert (∃ ch s', ubtoa v +:+ rest = String ch s') as (ch & s' & Heq).
    { destruct (ubtoa v +:+ rest); [done|eauto]. }
    destruct first; autorewrite with strings_db; cbn [parseIPv4_loop].
    - rewrite Heq. rewrite <-Heq, Hn. destruct (Z.ltb_spec 255 v); [unfold byte_ok in *; lia|done].
    - rewrite decide_True by done. rewrite Hn.
      destruct (Z.ltb_spec 255 v); [unfold byte_ok in *; lia|done]. }
  rewrite <-(sapp_nil (ubtoa a +:+ _)), (Hstep a _ Ha) with (first := true) by done.
  rewrite (Hstep b _ Hb) with (first := false) by done.
  rewrite (Hstep c _ Hc) with (first := false) by done.
  rewrite <-(sapp_nil_r (ubtoa d)), (Hstep d _ Hd) with (first := false) by done.
  done.
Qed.

(** [ParseIP] looks for the first separator. *)
Lemma ParseIP_scan_skip s0 t s :
  (∀ k c, String.get k t = Some c → c ≠ "."%char ∧ c ≠ ":"%char) →
  ParseIP_scan s0 (t +:+ s) = ParseIP_scan s0 s.
Proof.
  induction t as [|c t IH]; intros Ht; autorewrite with strings_db; [done|].
  destruct (Ht 0%nat c eq_refl). simpl. rewrite !decide_False by done.
  apply IH. intros k. apply (Ht (S k)).
Qed.

(** The characters of a printed number are digits. *)
Lemma ubtoa_chars v : byte_ok v → ∀ k c, String.get k (ubtoa v) = Some c → is_Some (digit_val c).
Proof.
  unfold byte_ok, ubtoa. intros Hv k c.
  assert (0 ≤ v / 10 mod 10 < 10 ∧ 0 ≤ v mod 10 < 10 ∧ (v < 100 → 0 ≤ v / 10 < 10)
    ∧ 0 ≤ v / 100 < 10) by zdiv_lia.
  destruct (Z.ltb_spec v 10); [|destruct (Z.ltb_spec v 100)];
    intros Hk; repeat (destruct k as [|k]; simpl in Hk;
      [simplify_eq; eexists; apply digit_val_ascii; lia|]); done.
Qed.

Lemma appendHex_chars v : 0 ≤ v < 65536 →
  ∀ k c, String.get k (appendHex v) = Some c → is_Some (hex_val c).
Proof.
  intros Hv k c. destruct (decide (v = 0)) as [->|].
  { simpl. destruct k; [|done]. intros [= <-]. by eexists. }
  rewrite appendHex_spec by lia. cbv zeta.
  assert (0 ≤ v mod 16 < 16 ∧ 0 ≤ v / 16 mod 16 < 16 ∧ 0 ≤ v / 256 mod 16 < 16
    ∧ 0 ≤ v / 4096 mod 16 < 16) by zdiv_lia.
  destruct (Z.ltb_spec v 16); [|destruct (Z.ltb_spec v 256); [|destruct (Z.ltb_spec v 4096)]];
    intros Hk; repeat (destruct k as [|k]; simpl in Hk;
      [simplify_eq; eexists; apply hex_val_ascii; lia|]); done.
Qed.

Lemma hex_val_sep c : is_Some (hex_val c) → c ≠ "."%char ∧ c ≠ ":"%char.
Proof. intros [v Hv]. split; intros ->; done. Qed.

Lemma digit_val_sep c : is_Some (digit_val c) → c ≠ "."%char ∧ c ≠ ":"%char.
Proof. intros [v Hv]. split; intros ->; done. Qed.

Lemma ubtoa_nosep v : byte_ok v →
  ∀ k c, String.get k (ubtoa v) = Some c → c ≠ "."%char ∧ c ≠ ":"%char.
Proof. intros Hv k c Hk. eapply digit_val_sep, ubtoa_chars; done. Qed.

Lemma appendHex_nosep v : 0 ≤ v < 65536 →
  ∀ k c, String.get k (appendHex v) = Some c → c ≠ "."%char ∧ c ≠ ":"%char.
Proof. intros Hv k c Hk. eapply hex_val_sep, appendHex_chars; done. Qed.

(** *** IPv6 *)

Definition group_ok (g : Z) : Prop := 0 ≤ g < 65536.
Definition ungroup (gs : list Z) : list Z := g ← gs; [g / 256; g mod 256].

Lemma ungroup_cons g gs : ungroup (g :: gs) = [g / 256; g mod 256] ++ ungroup gs.
Proof. done. Qed.

Lemma ungroup_app gs1 gs2 : ungroup (gs1 ++ gs2) = ungroup gs1 ++ ungroup gs2.
Proof. unfold ungroup. by rewrite bind_app. Qed.

Lemma length_ungroup gs : length (ungroup gs) = (2 * length gs)%nat.
Proof. induction gs as [|g gs IH]; [done|]. rewrite ungroup_cons. simpl. lia. Qed.

Lemma groups_spec n ip :
  length ip = (2 * n)%nat → bytes_ok ip →
  length (groups ip) = n ∧ Forall group_ok (groups ip) ∧ ungroup (groups ip) = ip.
Proof.
  revert ip. induction n as [|n IH]; intros ip Hlen Hb.
  { destruct ip; simpl in *; [by repeat constructor|lia]. }
  destruct ip as [|a [|b ip]]; simpl in Hlen; try lia.
  apply Forall_cons_1 in Hb as [Ha Hb]. apply Forall_cons_1 in Hb as [Hb Hip].
  unfold byte_ok in *. destruct (IH ip) as (Hl & Hg & Hu); [lia|done|].
  cbn [groups length]. split; [lia|]. split.
  - constructor; [unfold group_ok; lia|done].
  - rewrite ungroup_cons, Hu. simpl. f_equal; [zdiv_lia|f_equal; zdiv_lia].
Qed.

Lemma stops_hex_colon s : stops hex_val (String ":" s).
Proof. done. Qed.

(** One iteration of the loop on a printed group. *)
Lemma parseIPv6_step f acc ell g rest :
  group_ok g → (rest = "" ∨ ∃ s, rest = String ":" s) →
  parseIPv6_loop (S f) acc ell (appendHex g +:+ rest) =
    let acc := acc ++ [g / 256; g mod 256] in
    match rest with
    | EmptyString => Some (acc, ell)
    | String _ EmptyString => None
    | String _ (String c1 s2 as s1) =>
        if decide (c1 = ":"%char) then
          match ell with
          | Some _ => None
          | None => match s2 with
                    | EmptyString => Some (acc, Some (length acc))
                    | _ => parseIPv6_loop f acc (Some (length acc)) s2
                    end
          end
        else parseIPv6_loop f acc ell s1
    end.
Proof.
  intros Hg Hrest. unfold group_ok in Hg.
  assert (stops hex_val rest) as Hs by (destruct Hrest as [->|[s ->]]; done).
  destruct (xtoi_appendHex g rest Hg Hs) as [k Hk].
  cbn [parseIPv6_loop]. rewrite Hk. rewrite (proj2 (Z.ltb_ge 65535 g)) by lia.
  rewrite bool_decide_eq_false_2 by (destruct Hrest as [->|[s ->]]; done).
  destruct Hrest as [->|[s ->]]; [done|]. by rewrite decide_True.
Qed.

Definition hexs (gs : list Z) : string := join ":" (appendHex <$> gs).

Lemma hexs_nil : hexs [] = "".
Proof. done. Qed.

Lemma hexs_single g : hexs [g] = appendHex g.
Proof. done. Qed.

Lemma hexs_cons g g' gs : hexs (g :: g' :: gs) = appendHex g +:+ String ":" (hexs (g' :: gs)).
Proof. done. Qed.

Lemma hexs_head g gs : group_ok g → ∃ c s, hexs (g :: gs) = String c s ∧ is_Some (hex_val c).
Proof.
  intros Hg. destruct (appendHex_head g Hg) as (c & s & Heq & Hc).
  destruct gs as [|g' gs]; [exists c, s|rewrite hexs_cons, Heq; exists c; eexists]; done.
Qed.

(** The loop reads a series of groups up to the end of the text, *)
Lemma parseIPv6_groups f acc ell gs :
  Forall group_ok gs → gs ≠ [] → (length gs ≤ f)%nat →
  parseIPv6_loop f acc ell (hexs gs) = Some (acc ++ ungroup gs, ell).
Proof.
  revert f acc. induction gs as [|g gs IH]; intros f acc Hok Hne Hlen; [done|].
  apply Forall_cons_1 in Hok as [Hg Hok]. destruct f as [|f]; [simpl in *; lia|].
  rewrite ungroup_cons, app_assoc. destruct gs as [|g' gs].
  - rewrite hexs_single, <-(sapp_nil_r (appendHex g)).
    rewrite parseIPv6_step by auto. simpl. by rewrite app_nil_r.
  - rewrite hexs_cons, parseIPv6_step by eauto.
    destruct (hexs_head g' gs) as (c & s & Heq & Hc); [by apply Forall_cons_1 in Hok as [? _]|].
    rewrite Heq. cbv zeta. rewrite decide_False by (by apply hex_val_sep in Hc as [_ ?]).
    rewrite <-Heq. apply IH; [done|done|simpl in *; lia].
Qed.

(** or up to an ellipsis. *)
Lemma parseIPv6_ellipsis f acc gs t :
  Forall group_ok gs → gs ≠ [] → (length gs ≤ f)%nat →
  parseIPv6_loop f acc None (hexs gs +:+ "::" +:+ t) =
    let acc := acc ++ ungroup gs in
    match t with
    | EmptyString => Some (acc, Some (length acc))
    | _ => parseIPv6_loop (f - length gs) acc (Some (length acc)) t
    end.
Proof.
  revert f acc. induction gs as [|g gs IH]; intros f acc Hok Hne Hlen; [done|].
  apply Forall_cons_1 in Hok as [Hg Hok]. destruct f as [|f]; [simpl in *; lia|].
  rewrite ungroup_cons, app_assoc. destruct gs as [|g' gs].
  - rewrite hexs_single. change ("::" +:+ t) with (String ":" (String ":" t)).
    rewrite parseIPv6_step by eauto. cbv zeta. rewrite decide_True by done.
    rewrite app_nil_r. cbn [length]. rewrite Nat.sub_succ, Nat.sub_0_r. done.
  - rewrite hexs_cons, sapp_assoc, sapp_cons, parseIPv6_step by eauto.
    destruct (hexs_head g' gs) as (c & s & Heq & Hc); [by apply Forall_cons_1 in Hok as [? _]|].
    rewrite Heq, sapp_cons. cbv zeta. rewrite decide_False by (by apply hex_val_sep in Hc as [_ ?]).
    rewrite <-sapp_cons, <-Heq. rewrite IH by (done || simpl in *; lia). done.
Qed.

(** The run that is squashed is inside the groups and all zero. *)
Lemma zero_run_le gs : (zero_run gs ≤ length gs)%nat.
Proof. induction gs as [|g gs IH]; simpl; [lia|]. destruct (g =? 0); lia. Qed.

Lemma zero_run_zero gs : take (zero_run gs) gs = replicate (zero_run gs) 0.
Proof.
  induction gs as [|g gs IH]; [done|]. simpl. destruct (Z.eqb_spec g 0) as [->|]; [|done].
  simpl. by rewrite IH.
Qed.

Lemma longest_run_inv gs0 gs i best :
  drop i gs0 = gs →
  (best.1 ≤ best.2 ≤ length gs0)%nat ∧ take (best.2 - best.1) (drop best.1 gs0) = replicate (best.2 - best.1) 0 →
  let r := longest_run i gs best in
  (r.1 ≤ r.2 ≤ length gs0)%nat ∧ take (r.2 - r.1) (drop r.1 gs0) = replicate (r.2 - r.1) 0.
Proof.
  revert i best. induction gs as [|g gs IH]; intros i best Hdrop Hbest; [done|].
  cbn [longest_run]. apply IH.
  - by rewrite <-(drop_drop gs0 i 1), Hdrop, Nat.add_comm || (rewrite <-Nat.add_1_r, <-drop_drop, Hdrop; done).
  - case_decide; [|done]. cbn [fst snd]. pose proof (zero_run_le (g :: gs)) as Hle.
    rewrite <-Hdrop, length_drop in Hle. rewrite <-Hdrop.
    replace (i + zero_run (drop i gs0) - i)%nat with (zero_run (drop i gs0)) by lia.
    split; [|by rewrite zero_run_zero]. split; [lia|].
    assert (i < length gs0)%nat; [|lia].
    apply Nat.nle_gt. intros Hge. by rewrite drop_ge in Hdrop.
Qed.

Lemma hexs_nosep_scan g gs s0 t :
  group_ok g → ParseIP_scan s0 (hexs (g :: gs) +:+ String ":" t) = parseIPv6 s0.
Proof.
  intros Hg. destruct gs as [|g' gs].
  - rewrite hexs_single, ParseIP_scan_skip by (by apply appendHex_nosep).
    simpl. done.
  - rewrite hexs_cons, sapp_assoc, sapp_cons, ParseIP_scan_skip by (by apply appendHex_nosep).
    simpl. done.
Qed.

Lemma parseIPv6_plain c s :
  c ≠ ":"%char → 
  parseIPv6 (String c s) = match parseIPv6_loop 8 [] None (String c s) with
                           | None => [] | Some (acc, ell) => expand_ellipsis acc ell end.
Proof. intros Hc. unfold parseIPv6. destruct s; [done|]. rewrite decide_False by (by intros [? _]). done. Qed.

Lemma expand_ellipsis_spec l r n :
  (length l + length r + n = 16)%nat → (0 < n)%nat →
  expand_ellipsis (l ++ r) (Some (length l)) = l ++ replicate n 0 ++ r.
Proof.
  intros Hlen Hn. unfold expand_ellipsis. rewrite length_app.
  rewrite decide_True by lia. rewrite take_app_length, drop_app_length.
  by replace (16 - (length l + length r))%nat with n by lia.
Qed.

Lemma ungroup_zeros n : ungroup (replicate n 0) = replicate (2 * n) 0.
Proof.
  induction n as [|n IH]; [done|]. cbn [replicate]. rewrite ungroup_cons, IH.
  by replace (2 * S n)%nat with (S (S (2 * n))) by lia.
Qed.

(** Reading back a text with an ellipsis after at least one group. *)
Lemma parseIPv6_squashed gs1 gs2 n :
  Forall group_ok gs1 → Forall group_ok gs2 → (length gs1 + length gs2 + n = 8)%nat → (0 < n)%nat →
  ParseIP (hexs gs1 +:+ "::" +:+ hexs gs2) = ungroup (gs1 ++ replicate n 0 ++ gs2).
Proof.
  intros H1 H2 Hlen Hn. rewrite !ungroup_app, ungroup_zeros.
  assert (∀ f acc, (length gs2 ≤ f)%nat → length acc = length (ungroup gs1) →
    match parseIPv6_loop f acc (Some (length acc)) (hexs gs2) with
    | None => [] | Some (a, e) => expand_ellipsis a e end
    = match gs2 with [] => [] | _ => acc ++ replicate (2 * n) 0 ++ ungroup gs2 end
    ∨ gs2 = []) as Hright.
  { intros f acc Hf Hacc. destruct (decide (gs2 = [])) as [->|Hne]; [by right|left].
    rewrite parseIPv6_groups by done. rewrite expand_ellipsis_spec with (n := (2 * n)%nat).
    - by destruct gs2.
    - rewrite Hacc, !length_ungroup. lia.
    - lia. }
  destruct gs1 as [|g gs1].
  - rewrite hexs_nil, sapp_nil. change ("::" +:+ hexs gs2) with (String ":" (String ":" (hexs gs2))).
    unfold ParseIP. simpl ParseIP_scan.
    unfold parseIPv6. rewrite decide_True by done. destruct gs2 as [|g gs2].
    + rewrite hexs_nil. replace n with 8%nat by (simpl in *; lia). done.
    + pose proof (hexs_head g gs2) as (c & s & Heq & _); [by apply Forall_cons_1 in H2 as [? _]|].
      rewrite Heq. rewrite <-Heq.
      specialize (Hright 8%nat []). cbn [length] in Hright.
      destruct Hright as [->|]; [simpl in *; lia|done|done|done].
  - pose proof (Forall_cons_1 _ _ _ H1) as [Hg _].
    unfold ParseIP. autorewrite with strings_db. rewrite hexs_nosep_scan by done.
    destruct (hexs_head g gs1 Hg) as (c & s & Heq & Hc).
    rewrite Heq, sapp_cons, parseIPv6_plain by (by apply hex_val_sep in Hc as [_ ?]).
    rewrite <-sapp_cons, <-Heq.
    change (String ":" (String ":" (hexs gs2))) with ("::" +:+ hexs gs2).
    rewrite parseIPv6_ellipsis by (done || simpl in *; lia). cbv zeta. rewrite !app_nil_l.
    destruct gs2 as [|g2 gs2].
    + rewrite hexs_nil. cbv zeta. cbn beta iota.
      pose proof (expand_ellipsis_spec (ungroup (g :: gs1)) [] (2 * n)) as E.
      rewrite app_nil_r in E. apply E; [rewrite length_ungroup; simpl in *; lia|lia].
    + pose proof (hexs_head g2 gs2) as (c2 & s2 & Heq2 & _); [by apply Forall_cons_1 in H2 as [? _]|].
      rewrite Heq2. rewrite <-Heq2.
      destruct (Hright (8 - length (g :: gs1))%nat (ungroup (g :: gs1))) as [->|]; try done.
      simpl in *. lia.
Qed.

(** Reading back a text without an ellipsis. *)
Lemma ParseIP_hexs gs : length gs = 8%nat → Forall group_ok gs → ParseIP (hexs gs) = ungroup gs.
Proof.
  intros Hlen Hok. destruct gs as [|g [|g' gs]]; try (simpl in Hlen; lia).
  pose proof (Forall_cons_1 _ _ _ Hok) as [Hg _].
  unfold ParseIP. rewrite hexs_cons at 2.
  rewrite ParseIP_scan_skip by (by apply appendHex_nosep). simpl ParseIP_scan.
  destruct (hexs_head g (g' :: gs) Hg) as (c & s & Heq & Hc). rewrite Heq.
  rewrite parseIPv6_plain by (by apply hex_val_sep in Hc as [_ ?]).
  rewrite <-Heq, parseIPv6_groups by (done || lia). cbn [app].
  unfold expand_ellipsis. rewrite decide_False; [done|].
  change (length ([] ++ ungroup (g :: g' :: gs)) < 16)%nat with (length (ungroup (g :: g' :: gs)) < 16)%nat.
  rewrite length_ungroup. lia.
Qed.

(** The text of a valid address reads back as the address in 16-byte form. *)
Lemma parse_print_v6 gs :
  length gs = 8%nat → Forall group_ok gs → ParseIP (print_v6 gs) = ungroup gs.
Proof.
  intros Hlen Hok. unfold print_v6.
  destruct (longest_run 0 gs (0, 0)%nat) as [e0 e1] eqn:Hrun.
  pose proof (longest_run_inv gs gs 0 (0, 0)%nat (drop_0 gs)) as Hinv.
  rewrite Hrun in Hinv. cbn [fst snd] in Hinv.
  destruct Hinv as [Hle Hz]; [split; [simpl; lia|done]|].
  case_decide as Hshort.
  - by apply ParseIP_hexs.
  - change (ParseIP (hexs (take e0 gs) +:+ "::" +:+ hexs (drop e1 gs)) = ungroup gs).
    rewrite parseIPv6_squashed with (n := (e1 - e0)%nat).
    + rewrite <-Hz. replace (drop e1 gs) with (drop (e1 - e0) (drop e0 gs))
        by (rewrite drop_drop; f_equal; lia).
      by rewrite take_drop, take_drop.
    + by apply Forall_take.
    + by apply Forall_drop.
    + rewrite length_take, length_drop. lia.
    + lia.
Qed.

Theorem ParseIP_String ip : valid_ip ip → ParseIP (IP_String ip) = To16 ip.
Proof.
  intros Hv. assert (ip ≠ []) as Hne by (destruct Hv as [_ [H|H]]; by intros ->).
  assert (IP_String ip = match To4 ip with
    | [a; b; c; d] => ubtoa a +:+ "." +:+ ubtoa b +:+ "." +:+ ubtoa c +:+ "." +:+ ubtoa d
    | _ => if decide (length ip = 16%nat) then print_v6 (groups ip) else "?" +:+ hexString ip end)
    as -> by (by destruct ip).
  destruct (To4_length ip Hv) as [H4|H4].
  - rewrite H4. assert (length ip = 16%nat) as H16.
    { destruct Hv as [_ [H|H]]; [|done]. unfold To4 in H4. rewrite decide_True in H4 by done. by subst. }
    rewrite decide_True by done.
    destruct (groups_spec 8 ip) as (Hl & Hg & Hu); [lia|by destruct Hv|].
    rewrite parse_print_v6 by done. rewrite Hu. unfold To16.
    rewrite decide_False by lia. by rewrite decide_True.
  - pose proof (To4_bytes ip Hv) as Hb.
    rewrite (To16_v4 ip Hv) by (intros E; by rewrite E in H4).
    destruct (To4 ip) as [|a [|b [|c [|d [|]]]]]; try done.
    unfold bytes_ok in Hb. rewrite !Forall_cons in Hb. destruct Hb as (? & ? & ? & ? & _).
    unfold ParseIP. rewrite ParseIP_scan_skip by (by apply ubtoa_nosep).
    simpl ParseIP_scan. by rewrite parseIPv4_dotted.
Qed.

(** ** What the functions depend on

    The text, the containment in a network and the family of an address only
    depend on its 16-byte form. *)

Lemma valid_cases ip : valid_ip ip →
  (length ip = 4%nat ∧ To16 ip = v4InV6Prefix ++ ip) ∨ (length ip = 16%nat ∧ To16 ip = ip).
Proof.
  intros [_ [H|H]]; [left|right]; split; auto; unfold To16; repeat case_decide; done || lia.
Qed.

Lemma IP_String_To16 ip : valid_ip ip → IP_String (To16 ip) = IP_String ip.
Proof.
  intros Hv. pose proof (To4_To16 ip Hv) as H4.
  destruct (valid_cases ip Hv) as [[Hl E]|[_ ->]]; [|done].
  assert (To4 ip = ip) as H4'.
  { unfold To4. by rewrite decide_True. }
  rewrite E in *. unfold IP_String. rewrite H4, H4'.
  destruct ip as [|a [|b [|c [|d [|]]]]]; simpl in Hl; lia || done.
Qed.

Lemma IP_String_inj ip x :
  valid_ip ip → valid_ip x → IP_String ip = IP_String x → To16 ip = To16 x.
Proof.
  intros H1 H2 E. apply (f_equal ParseIP) in E. by rewrite !ParseIP_String in E.
Qed.

Lemma IP_String_eq ip x :
  valid_ip ip → valid_ip x → To16 ip = To16 x → IP_String ip = IP_String x.
Proof. intros H1 H2 E. rewrite <-(IP_String_To16 ip), E by done. by apply IP_String_To16. Qed.

Lemma IPNet_Contains_To16 n ip : valid_ip ip → IPNet_Contains n (To16 ip) = IPNet_Contains n ip.
Proof.
  intros Hv. unfold IPNet_Contains. rewrite To4_To16 by done.
  destruct (networkNumberAndMask n) as [nn m].
  destruct (decide (To4 ip = [])) as [H4|H4]; [|done].
  destruct (valid_cases ip Hv) as [[Hl E]|[_ ->]]; [|done].
  exfalso. unfold To4 in H4. case_decide; [by subst|done].
Qed.

Lemma To16_nil : To16 [] = [].
Proof. done. Qed.

(** *** The address of a number *)

Fixpoint to_bytes (n : nat) (z : Z) : list Z :=
  match n with
  | O => []
  | S n => to_bytes n (z / 256) ++ [z mod 256]
  end.

Definition of_addr (z : Z) : netIP := to_bytes 16 z.

Lemma to_bytes_length n z : length (to_bytes n z) = n.
Proof. revert z. induction n as [|n IH]; intros z; [done|]. simpl. rewrite length_app, IH. simpl. lia. Qed.

Lemma to_bytes_ok n z : bytes_ok (to_bytes n z).
Proof.
  revert z. induction n as [|n IH]; intros z; [constructor|]. simpl.
  apply Forall_app. split; [apply IH|]. constructor; [unfold byte_ok; zdiv_lia|done].
Qed.

Lemma be_to_bytes n z : be (to_bytes n z) = z mod 256 ^ Z.of_nat n.
Proof.
  revert z. induction n as [|n IH]; intros z; [by rewrite Z.mod_1_r|].
  cbn [to_bytes]. rewrite be_app, IH, Nat2Z.inj_succ, Z.pow_succ_r by lia.
  rewrite Z.rem_mul_r by lia. lia.
Qed.

Lemma of_addr_valid z : valid_ip (of_addr z).
Proof. split; [apply to_bytes_ok|right; apply to_bytes_length]. Qed.

Lemma To16_of_addr z : To16 (of_addr z) = of_addr z.
Proof. destruct (valid_cases _ (of_addr_valid z)) as [[Hl _]|[_ E]]; [|done].
  unfold of_addr in Hl. by rewrite to_bytes_length in Hl.
Qed.

Lemma addr_of_addr z : 0 ≤ z < 2 ^ 128 → addr (of_addr z) = z.
Proof.
  intros Hz. unfold addr. rewrite To16_of_addr. unfold of_addr. rewrite be_to_bytes.
  apply Z.mod_small. done.
Qed.

Lemma of_addr_ok z : bytes_ok (of_addr z).
Proof. apply to_bytes_ok. Qed.

Lemma of_addr_length z : length (of_addr z) = 16%nat.
Proof. apply to_bytes_length. Qed.

Lemma be_of_addr z : 0 ≤ z < 2 ^ 128 → be (of_addr z) = z.
Proof. intros Hz. unfold of_addr. rewrite be_to_bytes. by apply Z.mod_small. Qed.

Lemma of_addr_addr ip : valid_ip ip → of_addr (addr ip) = To16 ip.
Proof.
  intros Hv. apply be_inj.
  - apply of_addr_ok.
  - by apply To16_bytes.
  - by rewrite To16_length, of_addr_length.
  - by apply be_of_addr, addr_bounds.
Qed.

(** *** Families *)

Definition is_v4 (ip : netIP) : bool := bool_decide (To4 ip ≠ []).

Definition v4_first : Z := 0xffff00000000.
Definition v4_last : Z := 0xffffffffffff.

Lemma prefix_ok : bytes_ok v4InV6Prefix.
Proof. repeat (apply Forall_cons; split; [unfold byte_ok; lia|]). apply Forall_nil. done. Qed.

Lemma be_app_gen l1 l2 : be (l1 ++ l2) = be l1 * 256 ^ Z.of_nat (length l2) + be l2.
Proof.
  induction l2 as [|b l2 IH] using rev_ind.
  - rewrite app_nil_r. simpl. unfold be at 3. simpl. lia.
  - rewrite app_assoc, !be_app, IH, length_app. simpl.
    rewrite Nat2Z.inj_add, Z.pow_add_r by lia. change (256 ^ Z.of_nat 1) with 256. lia.
Qed.

Lemma is_v4_addr ip : valid_ip ip → is_v4 ip = true ↔ v4_first ≤ addr ip ≤ v4_last.
Proof.
  intros Hv. unfold is_v4. rewrite bool_decide_eq_true. split.
  - intros H4. unfold addr. rewrite To16_v4 by done. rewrite be_app_gen.
    destruct (To4_length ip Hv) as [?|Hl]; [done|]. pose proof (be_bounds _ (To4_bytes ip Hv)) as Hb.
    rewrite Hl in *. change (be v4InV6Prefix) with 65535. unfold v4_first, v4_last. simpl in *. lia.
  - intros Ha H4. pose proof (To16_length ip Hv) as Hl. pose proof (To16_bytes ip Hv) as Hb.
    rewrite <-To4_To16 in H4 by done. unfold addr in Ha.
    revert Hl Hb H4 Ha. generalize (To16 ip). intros l Hl Hb H4 Ha.
    assert (take 12 l = v4InV6Prefix) as Ht.
    { apply be_inj; [by apply Forall_take|apply prefix_ok|by rewrite length_take, Hl|].
      change (be v4InV6Prefix) with 65535.
      rewrite <-(take_drop 12 l), be_app_gen, length_drop, Hl in Ha.
      assert (0 ≤ be (drop 12 l) < 4294967296) as Hd.
      { pose proof (be_bounds (drop 12 l)) as Hd. rewrite length_drop, Hl in Hd. apply Hd.
        by apply Forall_drop. }
      change (256 ^ Z.of_nat (16 - 12)) with 4294967296 in Ha. unfold v4_first, v4_last in Ha. lia. }
    unfold To4 in H4. rewrite decide_False, decide_True in H4 by (done || lia).
    apply (f_equal length) in H4. rewrite length_drop, Hl in H4. done.
Qed.

(** ** What parsing yields *)

Lemma ntoi_loop_nonneg base val s n i v k r :
  0 ≤ base → (∀ c d, val c = Some d → 0 ≤ d) → 0 ≤ n →
  ntoi_loop base val s n i = Some (v, k, r) → 0 ≤ v.
Proof.
  intros Hb Hval. revert n i. induction s as [|c s IH]; intros n i Hn; simpl.
  - by intros [= <- _ _].
  - destruct (val c) as [d|] eqn:Hd; [|by intros [= <- _ _]].
    destruct (big <=? n * base + d); [done|]. apply IH. specialize (Hval _ _ Hd). lia.
Qed.

Lemma ntoi_nonneg base val s v k r :
  0 ≤ base → (∀ c d, val c = Some d → 0 ≤ d) → ntoi base val s = Some (v, k, r) → 0 ≤ v.
Proof.
  intros Hb Hval. unfold ntoi. destruct (ntoi_loop base val s 0 0) as [[[v' [|k']] r']|] eqn:E; [done| |done].
  intros [= <- _ _]. exact (ntoi_loop_nonneg _ _ _ _ _ _ _ _ Hb Hval (Z.le_refl 0) E).
Qed.

Lemma digit_val_nonneg c d : digit_val c = Some d → 0 ≤ d.
Proof. unfold digit_val. destruct (_ && _) eqn:E; [|done]. intros [= <-]. lia. Qed.

Lemma hex_val_nonneg c d : hex_val c = Some d → 0 ≤ d.
Proof.
  unfold hex_val. generalize (ascii_Z c). intros n.
  destruct ((48 <=? n) && (n <=? 57)) eqn:E1; [intros [= <-]; lia|].
  destruct ((97 <=? n) && (n <=? 102)) eqn:E2; [intros [= <-]; lia|].
  destruct ((65 <=? n) && (n <=? 70)) eqn:E3; [intros [= <-]; lia|done].
Qed.

Lemma parseIPv4_loop_ok k first s p : parseIPv4_loop k first s = Some p → bytes_ok p ∧ length p = k.
Proof.
  revert first s p. induction k as [|k IH]; intros first s p.
  - simpl. destruct s; [|done]. intros [= <-]. split; [constructor|done].
  - cbn [parseIPv4_loop]. destruct (if first then _ else _) as [s'|]; [|done].
    destruct (dtoi s') as [[[n c] rest]|] eqn:Hd; [|done].
    destruct (Z.ltb_spec 255 n); [done|].
    destruct (parseIPv4_loop k false rest) as [q|] eqn:Hq; [|done]. intros [= <-].
    apply IH in Hq as [Hok Hlen]. simpl. split; [|lia]. constructor; [|done].
    apply ntoi_nonneg in Hd; [|lia|apply digit_val_nonneg]. unfold byte_ok. lia.
Qed.

Lemma parseIPv4_ok s : parseIPv4 s = [] ∨ (bytes_ok (parseIPv4 s) ∧ length (parseIPv4 s) = 16%nat).
Proof.
  unfold parseIPv4. destruct (parseIPv4_loop 4 true s) as [p|] eqn:E; [|by left].
  apply parseIPv4_loop_ok in E as [Hok Hlen].
  destruct p as [|a [|b [|c [|d [|]]]]]; try (simpl in Hlen; lia).
  right. split; [|done]. apply Forall_app. split; [apply prefix_ok|done].
Qed.

Lemma parseIPv6_loop_ok f acc ell s r e :
  bytes_ok acc → parseIPv6_loop f acc ell s = Some (r, e) → (length acc + 2 * f = 16)%nat →
  bytes_ok r ∧ (length r ≤ 16)%nat.
Proof.
  revert acc ell s. induction f as [|f IH]; intros acc ell s Hok; cbn [parseIPv6_loop].
  { destruct s; [|done]. intros [= <- <-] ?. split; [done|lia]. }
  destruct (xtoi s) as [[[n c] rest]|] eqn:Hx; [|done].
  apply ntoi_nonneg in Hx; [|lia|apply hex_val_nonneg].
  destruct (Z.ltb_spec 65535 n) as [|Hn]; [done|].
  assert (bytes_ok (acc ++ [n / 256; n mod 256])) as Hok'.
  { apply Forall_app. split; [done|]. repeat constructor; unfold byte_ok; zdiv_lia. }
  case_bool_decide.
  - case_bool_decide; [done|]. case_bool_decide; [done|].
    destruct (parseIPv4_ok s) as [->|[H4 H4l]]; [done|].
    destruct (parseIPv4 s) as [|b q] eqn:Eq; [done|]. rewrite <-Eq in *. intros [= <- <-] ?.
    split; [apply Forall_app; split; [done|by apply Forall_drop]|].
    rewrite length_app, length_drop. lia.
  - assert (∀ ell s, parseIPv6_loop f (acc ++ [n / 256; n mod 256]) ell s = Some (r, e) →
      (length acc + 2 * S f = 16)%nat → bytes_ok r ∧ (length r ≤ 16)%nat) as Hrec.
    { intros ell' s' H' Hlen. eapply IH; [done|done|]. rewrite length_app. simpl. lia. }
    intros Hcase Hlen. cbv zeta in Hcase.
    repeat first [case_match; simplify_eq
                 |progress (rewrite ?length_app in *; simpl length in *)]; try done; eauto;
      split; try done; rewrite ?length_app; simpl; lia.
Qed.

Lemma expand_ellipsis_ok acc ell :
  bytes_ok acc → (length acc ≤ 16)%nat →
  expand_ellipsis acc ell = [] ∨ (bytes_ok (expand_ellipsis acc ell) ∧ length (expand_ellipsis acc ell) = 16%nat).
Proof.
  intros Hok Hlen. unfold expand_ellipsis. case_decide.
  - destruct ell as [e|]; [right|by left]. split.
    + apply Forall_app; split; [by apply Forall_take|]. apply Forall_app; split; [|by apply Forall_drop].
      apply Forall_replicate. unfold byte_ok. lia.
    + rewrite !length_app, length_take, length_replicate, length_drop. lia.
  - destruct ell; [by left|right]. split; [done|lia].
Qed.

Lemma parseIPv6_ok s : parseIPv6 s = [] ∨ (bytes_ok (parseIPv6 s) ∧ length (parseIPv6 s) = 16%nat).
Proof.
  unfold parseIPv6. destruct (match s with EmptyString => _ | _ => _ end) as [ell s'].
  assert (∀ ell s, let r := match parseIPv6_loop 8 [] ell s with None => []
                            | Some (acc, ell) => expand_ellipsis acc ell end in
    r = [] ∨ (bytes_ok r ∧ length r = 16%nat)) as Hgen.
  { intros ell0 s0. cbv zeta. destruct (parseIPv6_loop 8 [] ell0 s0) as [[acc e]|] eqn:E; [|by left].
    apply parseIPv6_loop_ok in E as [? ?]; [by apply expand_ellipsis_ok|constructor|done]. }
  destruct ell, s'; [|apply Hgen..].
  right. split; [|done]. apply (Forall_replicate byte_ok 16 0). unfold byte_ok. lia.
Qed.

Lemma ParseIP_ok s : ParseIP s = [] ∨ (valid_ip (ParseIP s) ∧ To16 (ParseIP s) = ParseIP s).
Proof.
  assert (∀ l, l = [] ∨ (bytes_ok l ∧ length l = 16%nat) → l = [] ∨ (valid_ip l ∧ To16 l = l)) as Hw.
  { intros l [->|[? ?]]; [by left|right]. split; [split; auto|].
    unfold To16. rewrite decide_False by lia. by rewrite decide_True. }
  unfold ParseIP. enough (∀ s0, ParseIP_scan s0 s = [] ∨
    (valid_ip (ParseIP_scan s0 s) ∧ To16 (ParseIP_scan s0 s) = ParseIP_scan s0 s)) by done.
  intros s0.
  induction s as [|c s IH]; simpl; [by left|].
  case_decide; [apply Hw, parseIPv4_ok|]. case_decide; [apply Hw, parseIPv6_ok|apply IH].
Qed.

Lemma ParseIP_valid s : ParseIP s ≠ [] → valid_ip (ParseIP s).
Proof. by destruct (ParseIP_ok s) as [?|[? _]]. Qed.

(** A network contains addresses of one family. *)
Lemma Contains_length n a :
  valid_ip a → IPNet_Contains n a = true →
  length (networkNumberAndMask n).1 = if is_v4 a then 4%nat else 16%nat.
Proof.
  intros Hv. unfold IPNet_Contains, is_v4. destruct (networkNumberAndMask n) as [nn m]. cbn [fst].
  destruct (decide (To4 a = [])) as [H4|H4].
  - rewrite (bool_decide_eq_false_2 (To4 a ≠ [])) by (intros Hx; by apply Hx).
    case_decide as Hl; [|done]. intros _.
    destruct Hv as [_ [Hlen|Hlen]]; [|lia]. unfold To4 in H4. rewrite decide_True in H4 by done. by subst.
  - rewrite (bool_decide_eq_true_2 (To4 a ≠ [])) by done. case_decide as Hl; [|done]. intros _.
    destruct (To4_length a Hv) as [?|?]; [done|lia].
Qed.

Lemma Contains_same_family n a b :
  valid_ip a → valid_ip b → IPNet_Contains n a = true → IPNet_Contains n b = true →
  is_v4 a = is_v4 b.
Proof.
  intros Ha Hb Hca Hcb. apply Contains_length in Hca, Hcb; [|done..].
  rewrite Hca in Hcb. by destruct (is_v4 a), (is_v4 b).
Qed.

Lemma IP_Equal_To16_l a b x : To16 a = To16 b → valid_ip a → valid_ip b → valid_ip x →
  IP_Equal x a = IP_Equal x b.
Proof.
  intros E Ha Hb Hx. apply Bool.eq_true_iff_eq. rewrite !IP_Equal_spec by done. by rewrite E.
Qed.

Lemma IP_Equal_nil_l a : valid_ip a → IP_Equal [] a = false.
Proof.
  intros [_ [H|H]]; unfold IP_Equal; rewrite H; simpl; done.
Qed.

(** A text is canonical when it is what printing its address gives. *)
Definition canonical (x : string) : Prop := valid_ip (ParseIP x) ∧ IP_String (ParseIP x) = x.

Lemma canonical_String ip : valid_ip ip → canonical (IP_String ip).
Proof.
  intros Hv. unfold canonical. rewrite ParseIP_String by done.
  split; [by apply To16_valid|by apply IP_String_To16].
Qed.
