(* ===== verification/GoStrings.v ===== *)
(** * The strings and strconv packages of the Go standard library

    The functions the repository uses on names and annotations, on strings as
    lists of bytes, with the lemmas about replacing, counting and splitting. *)

From S2P Require Import Prelude GoNet.
From Stdlib Require Import Ascii.
Local Open Scope Z_scope.

(** [strings.Count(s, sep)] for a separator of one byte. *)
Fixpoint Count_byte (s : string) (c : ascii) : nat :=
  match s with
  | EmptyString => O
  | String x s => (if decide (x = c) then 1 else 0) + Count_byte s c
  end.

(** [strings.ReplaceAll(s, old, new)] for an [old] that is not empty; [skip]
    is the number of bytes of an occurrence that are left to be dropped. *)
Fixpoint replace_go (old new : string) (skip : nat) (s : string) : string :=
  match s with
  | EmptyString => ""
  | String x s' =>
      match skip with
      | S skip => replace_go old new skip s'
      | O => if String.prefix old s then new +:+ replace_go old new (String.length old - 1) s'
             else String x (replace_go old new O s')
      end
  end.
Definition ReplaceAll (s old new : string) : string := replace_go old new 0 s.

(** [strings.Split(s, sep)] for a separator of one byte. *)
Fixpoint Split (s : string) (c : ascii) : list string :=
  match s with
  | EmptyString => [""]
  | String x s =>
      if decide (x = c) then "" :: Split s c
      else match Split s c with
           | p :: ps => String x p :: ps
           | [] => [String x ""]
           end
  end.

(** [strings.ToLower]: the ASCII letters, and the two letters outside ASCII
    whose lower case is in ASCII (U+212A, the Kelvin sign, and U+0130).  The
    code compares the result to ASCII texts only, so the other letters can be
    left as they are. *)
Definition ascii_lower (c : ascii) : ascii :=
  let n := ascii_Z c in
  if (65 <=? n) && (n <=? 90) then ascii_of_nat (Z.to_nat (n + 32)) else c.

Fixpoint ToLower (s : string) : string :=
  match s with
  | String "226" (String "132" (String "170" s)) => String "k" (ToLower s)
  | String "196" (String "176" s) => String "i" (ToLower s)
  | String c s => String (ascii_lower c) (ToLower s)
  | EmptyString => ""
  end.

(** [strings.EqualFold] on texts in ASCII: the network types it is used on. *)
Fixpoint EqualFold (a b : string) : bool :=
  match a, b with
  | EmptyString, EmptyString => true
  | String x a, String y b => bool_decide (ascii_lower x = ascii_lower y) && EqualFold a b
  | _, _ => false
  end.

(** [strconv.Atoi]: an optional sign and decimal digits, within an [int] of
    64 bits. *)
Fixpoint atoi_digits (s : string) (n : Z) : option Z :=
  match s with
  | EmptyString => Some n
  | String c s => match digit_val c with Some d => atoi_digits s (n * 10 + d) | None => None end
  end.

Definition Atoi (s : string) : option Z :=
  let '(neg, digits) := match s with
                        | String "-" s' => (true, s')
                        | String "+" s' => (false, s')
                        | _ => (false, s)
                        end in
  match digits with
  | EmptyString => None
  | _ => match atoi_digits digits 0 with
         | None => None
         | Some n => let n := if neg then - n else n in
                     if (- 2 ^ 63 <=? n) && (n <? 2 ^ 63) then Some n else None
         end
  end.

(** ** Lemmas *)

Fixpoint map_byte (c d : ascii) (s : string) : string :=
  match s with
  | EmptyString => ""
  | String x s => String (if decide (x = c) then d else x) (map_byte c d s)
  end.

(** The byte [c] does not occur in [s]. *)
Fixpoint nobyte (c : ascii) (s : string) : Prop :=
  match s with EmptyString => True | String x s => x ≠ c ∧ nobyte c s end.

Lemma Count_byte_app s t c : Count_byte (s +:+ t) c = (Count_byte s c + Count_byte t c)%nat.
Proof. induction s as [|x s IH]; [done|]. rewrite sapp_cons. cbn [Count_byte]. rewrite IH. lia. Qed.

Lemma Count_byte_nobyte s c : nobyte c s → Count_byte s c = O.
Proof. induction s as [|x s IH]; [done|]. intros [Hx Hs]. cbn [Count_byte]. rewrite decide_False by done. auto. Qed.

Lemma nobyte_app c s t : nobyte c s → nobyte c t → nobyte c (s +:+ t).
Proof. induction s as [|x s IH]; [done|]. intros [Hx Hs] Ht. rewrite sapp_cons. split; auto. Qed.

Lemma replace_byte c d s : ReplaceAll s (String c "") (String d "") = map_byte c d s.
Proof.
  unfold ReplaceAll. induction s as [|x s IH]; [done|]. cbn -[String.prefix].
  cbn [String.prefix]. destruct (ascii_dec c x) as [->|Hne].
  - destruct s; cbn [String.prefix]; rewrite decide_True by done; cbn; by f_equal.
  - rewrite decide_False by done. by f_equal.
Qed.

Lemma map_byte_app c d s t : map_byte c d (s +:+ t) = map_byte c d s +:+ map_byte c d t.
Proof. induction s as [|x s IH]; [done|]. rewrite !sapp_cons. cbn [map_byte]. by rewrite IH. Qed.

(** Replacing a byte and replacing it back. *)
Lemma map_byte_back c d s : nobyte d s → map_byte d c (map_byte c d s) = s.
Proof.
  induction s as [|x s IH]; [done|]. intros [Hx Hs]. cbn [map_byte]. rewrite IH by done. f_equal.
  destruct (decide (x = c)) as [->|Hc]; [by rewrite decide_True|by rewrite decide_False].
Qed.

Lemma Count_map_byte c d s : nobyte d s → Count_byte (map_byte c d s) d = Count_byte s c.
Proof.
  induction s as [|x s IH]; [done|]. intros [Hx Hs]. cbn [map_byte Count_byte]. rewrite IH by done.
  destruct (decide (x = c)) as [->|Hc]; [by rewrite decide_True|by rewrite decide_False].
Qed.

Lemma Split_nonempty s c : Split s c ≠ [].
Proof.
  destruct s as [|x s]; [done|]. cbn [Split]. case_decide; [done|]. by destruct (Split s c).
Qed.

(** Splitting the text of a list joined with the separator. *)
Lemma Split_join l c :
  l ≠ [] → Forall (nobyte c) l → Split (join (String c "") l) c = l.
Proof.
  intros Hne Hl. induction Hl as [|p l Hp Hl IH]; [done|].
  assert (∀ p, nobyte c p → Split p c = [p]) as Hone.
  { clear. induction p as [|x p IH]; [done|]. intros [Hx Hp]. cbn [Split].
    rewrite decide_False by done. by rewrite IH. }
  destruct l as [|q l]; [cbn [join]; by apply Hone|].
  cbn [join]. specialize (IH ltac:(done)).
  clear Hne Hone. induction p as [|x p IHp].
  - rewrite sapp_nil, sapp_cons, sapp_nil. cbn [Split]. rewrite decide_True by done. by f_equal.
  - destruct Hp as [Hx Hp]. rewrite sapp_cons. cbn [Split]. rewrite decide_False by done.
    by rewrite IHp.
Qed.

Lemma join_cons sep x y l : join sep (x :: y :: l) = x +:+ sep +:+ join sep (y :: l).
Proof. done. Qed.

(** Splitting and joining. *)
Lemma join_Split s c : join (String c "") (Split s c) = s.
Proof.
  induction s as [|x s IH]; [done|]. cbn [Split]. pose proof (Split_nonempty s c) as Hne.
  destruct (Split s c) as [|p ps]; [done|]. case_decide as Hx.
  - by rewrite join_cons, IH, sapp_nil, sapp_cons, sapp_nil, Hx.
  - destruct ps as [|q ps]; [cbn [join] in *; by subst|]. rewrite join_cons in *. by rewrite sapp_cons, IH.
Qed.

Lemma nobyte_get c s : (∀ k x, String.get k s = Some x → x ≠ c) → nobyte c s.
Proof.
  induction s as [|x s IH]; intros H; [done|]. split; [exact (H O x eq_refl)|].
  apply IH. intros k. exact (H (S k)).
Qed.

(** Replacing an occurrence after a text without its first byte. *)
Lemma replace_skip c old new s t :
  nobyte c s → ReplaceAll (s +:+ t) (String c old) new = s +:+ ReplaceAll t (String c old) new.
Proof.
  unfold ReplaceAll. induction s as [|x s IH]; [done|]. intros [Hx Hs]. rewrite !sapp_cons.
  cbn -[String.prefix]. cbn [String.prefix]. destruct (ascii_dec c x) as [E|_]; [by subst|]. by rewrite IH.
Qed.

Lemma replace_nobyte c old new s : nobyte c s → ReplaceAll s (String c old) new = s.
Proof. intros Hs. rewrite <-(sapp_nil_r s) at 1. rewrite replace_skip by done. by rewrite sapp_nil_r. Qed.
