(* ===== verification/NetBlock.v ===== *)
(** * Networks as blocks of numbers

    The network that [ParseCIDR] returns is an aligned block of addresses:
    [IPNet_Contains], the masks and the last address of a network in terms of
    the number [addr] of an address. *)

From S2P Require Import Prelude GoNet.
Local Open Scope Z_scope.

(** ** Masks *)

Lemma be_cons b l : be (b :: l) = b * 256 ^ Z.of_nat (length l) + be l.
Proof. change (b :: l) with ([b] ++ l). rewrite be_app_gen. done. Qed.

(** Clearing the [h] low bits of a number. *)
Definition clear (h z : Z) : Z := z / 2 ^ h * 2 ^ h.

Lemma land_clear_all :
  forallb (λ n, forallb (λ b, Z.land (Z.of_nat b) (255 - Z.shiftr 255 (Z.of_nat n))
                              =? clear (8 - Z.of_nat n) (Z.of_nat b)) (seq 0 256)) (seq 0 8) = true.
Proof. vm_compute. reflexivity. Qed.

Lemma land_clear b n : 0 ≤ b < 256 → 0 ≤ n < 8 → Z.land b (255 - Z.shiftr 255 n) = clear (8 - n) b.
Proof.
  intros Hb Hn. pose proof land_clear_all as H. rewrite forallb_forall in H.
  specialize (H (Z.to_nat n)). rewrite forallb_forall in H.
  apply Z.eqb_eq. rewrite <-(Z2Nat.id b), <-(Z2Nat.id n) by lia.
  apply H; apply in_seq; lia.
Qed.

Lemma land_255 b : 0 ≤ b < 256 → Z.land b 255 = b.
Proof. intros Hb. change 255 with (Z.ones 8). rewrite Z.land_ones by lia. apply Z.mod_small. lia. Qed.

Lemma clear_0 z : clear 0 z = z.
Proof. unfold clear. by rewrite Z.div_1_r, Z.mul_1_r. Qed.

Lemma clear_split h k b r :
  0 ≤ h → 0 ≤ k → 0 ≤ r < 2 ^ k → clear (h + k) (b * 2 ^ k + r) = clear h b * 2 ^ k.
Proof.
  intros Hh Hk Hr. unfold clear. rewrite Z.pow_add_r, (Z.mul_comm (2 ^ h)) by done.
  rewrite <-Z.div_div by lia. rewrite Z.div_add_l, (Z.div_small r), Z.add_0_r by lia. lia.
Qed.

Lemma clear_low h k b r :
  0 ≤ h ≤ k → clear h (b * 2 ^ k + r) = b * 2 ^ k + clear h r.
Proof.
  intros Hh. unfold clear. replace k with (k - h + h) by lia. rewrite Z.pow_add_r by lia.
  rewrite Z.mul_assoc, Z.div_add_l by lia. lia.
Qed.

Lemma pow256 n : 256 ^ Z.of_nat n = 2 ^ (8 * Z.of_nat n).
Proof. rewrite Z.pow_mul_r by lia. done. Qed.

Lemma and_bytes_cidr len n l :
  bytes_ok l → length l = len → 0 ≤ n ≤ 8 * Z.of_nat len →
  be (and_bytes l (cidr_bytes len n)) = clear (8 * Z.of_nat len - n) (be l).
Proof.
  revert n l. induction len as [|len IH]; intros n l Hb Hl Hn.
  - apply length_nil in Hl as ->. cbn. unfold clear. by rewrite Z.div_0_l by lia.
  - destruct l as [|b l]; [done|]. apply Forall_cons in Hb as [Hb Hbs]. injection Hl as Hl.
    unfold byte_ok in Hb. pose proof (be_bounds l Hbs) as Hbl. rewrite Hl, pow256 in Hbl.
    assert (∀ m, length (and_bytes l (cidr_bytes len m)) = len) as Hlen.
    { intros m. unfold and_bytes. rewrite length_zip_with_l_eq; [done|]. rewrite Hl. symmetry.
      clear. revert m. induction len as [|len IH]; intros m; [done|]. cbn. case_match; cbn; by rewrite IH. }
    rewrite (be_cons b l), Hl, pow256. cbn [cidr_bytes]. destruct (Z.leb_spec 8 n) as [Hge|Hlt].
    + unfold and_bytes. cbn [zip_with]. rewrite be_cons, land_255 by lia.
      change (zip_with Z.land) with and_bytes. rewrite Hlen, pow256, IH by (done || lia).
      rewrite clear_low by lia. f_equal. f_equal. lia.
    + unfold and_bytes. cbn [zip_with]. rewrite be_cons, land_clear by lia.
      change (zip_with Z.land) with and_bytes. rewrite Hlen, pow256, IH by (done || lia).
      replace (8 * Z.of_nat (S len) - n) with (8 - n + 8 * Z.of_nat len) by lia.
      rewrite clear_split by lia. rewrite Z.sub_0_r. unfold clear at 2.
      rewrite (Z.div_small (be l)) by lia. lia.
Qed.

Lemma cidr_bytes_length len n : length (cidr_bytes len n) = len.
Proof. revert n. induction len as [|len IH]; intros n; [done|]. cbn. case_match; cbn; by rewrite IH. Qed.

Lemma lor_not_mask_all :
  forallb (λ n, forallb (λ b, let m := 255 - Z.shiftr 255 (Z.of_nat n) in
      Z.lor (Z.land (Z.of_nat b) m) (Z.lxor m 255) =? clear (8 - Z.of_nat n) (Z.of_nat b) + 2 ^ (8 - Z.of_nat n) - 1)
    (seq 0 256)) (seq 0 8) = true.
Proof. vm_compute. reflexivity. Qed.

Lemma lor_not_mask b n :
  0 ≤ b < 256 → 0 ≤ n < 8 →
  let m := 255 - Z.shiftr 255 n in
  Z.lor (Z.land b m) (Z.lxor m 255) = clear (8 - n) b + 2 ^ (8 - n) - 1.
Proof.
  intros Hb Hn. pose proof lor_not_mask_all as H. rewrite forallb_forall in H.
  specialize (H (Z.to_nat n)). rewrite forallb_forall in H.
  apply Z.eqb_eq. cbv zeta. rewrite <-(Z2Nat.id b), <-(Z2Nat.id n) by lia.
  apply H; apply in_seq; lia.
Qed.

(** The last address of the block of [l]. *)
Definition last_bytes (ip mask : list Z) : list Z := zip_with (λ b m, Z.lor b (Z.lxor m 255)) ip mask.

Lemma last_bytes_cidr len n l :
  bytes_ok l → length l = len → 0 ≤ n ≤ 8 * Z.of_nat len →
  let h := 8 * Z.of_nat len - n in
  be (last_bytes (and_bytes l (cidr_bytes len n)) (cidr_bytes len n)) = clear h (be l) + 2 ^ h - 1.
Proof.
  revert n l. induction len as [|len IH]; intros n l Hb Hl Hn; cbv zeta.
  - apply length_nil in Hl as ->. cbn. unfold clear. rewrite Z.div_0_l by lia.
    by replace n with 0 by lia.
  - destruct l as [|b l]; [done|]. apply Forall_cons in Hb as [Hb Hbs]. injection Hl as Hl.
    unfold byte_ok in Hb. pose proof (be_bounds l Hbs) as Hbl. rewrite Hl, pow256 in Hbl.
    assert (∀ m, length (last_bytes (and_bytes l (cidr_bytes len m)) (cidr_bytes len m)) = len) as Hlen.
    { intros m. unfold last_bytes, and_bytes. rewrite !length_zip_with, cidr_bytes_length. lia. }
    rewrite (be_cons b l), Hl, pow256. cbn [cidr_bytes]. destruct (Z.leb_spec 8 n) as [Hge|Hlt].
    + unfold last_bytes, and_bytes. cbn [zip_with]. rewrite be_cons, land_255 by lia.
      change (zip_with Z.land) with and_bytes.
      fold (last_bytes (and_bytes l (cidr_bytes len (n - 8))) (cidr_bytes len (n - 8))).
      rewrite Hlen, pow256, IH by (done || lia).
      change (Z.lxor 255 255) with 0. rewrite Z.lor_0_r.
      replace (8 * Z.of_nat (S len) - n) with (8 * Z.of_nat len - (n - 8)) by lia.
      rewrite clear_low by lia. lia.
    + unfold last_bytes, and_bytes. cbn [zip_with]. rewrite be_cons, lor_not_mask by lia.
      change (zip_with Z.land) with and_bytes.
      fold (last_bytes (and_bytes l (cidr_bytes len 0)) (cidr_bytes len 0)).
      rewrite Hlen, pow256, IH by (done || lia).
      replace (8 * Z.of_nat (S len) - n) with (8 - n + 8 * Z.of_nat len) by lia.
      rewrite clear_split by lia. rewrite Z.sub_0_r, Z.pow_add_r by lia. unfold clear at 2.
      rewrite (Z.div_small (be l)) by lia. lia.
Qed.

(** ** Networks *)

(** The networks that [ParseCIDR] returns, but for IPv4-mapped ones in IPv6
    text ([cidr_net_parse]): [len] bytes, of which [ones] bits are fixed. *)
Record cidr_net (n : IPNet) (len : nat) (ones : Z) : Prop := {
  cn_len : len = 4%nat ∨ len = 16%nat;
  cn_ones : 0 ≤ ones ≤ 8 * Z.of_nat len;
  cn_mask : IPNet_Mask n = cidr_bytes len ones;
  cn_ip : ∃ l, bytes_ok l ∧ length l = len ∧ IPNet_IP n = and_bytes l (cidr_bytes len ones);
  cn_v6 : len = 16%nat → To4 (IPNet_IP n) = []
}.

Lemma byte_land a b : byte_ok a → byte_ok b → byte_ok (Z.land a b).
Proof.
  unfold byte_ok. intros Ha Hb. split; [apply Z.land_nonneg; lia|].
  destruct (Z.eq_dec (Z.land a b) 0) as [->|Hn]; [lia|].
  assert (0 < Z.land a b) by (pose proof (proj2 (Z.land_nonneg a b)); lia).
  apply Z.log2_lt_cancel. change (Z.log2 256) with 8.
  eapply Z.le_lt_trans; [apply Z.log2_land; lia|].
  apply Z.min_lt_iff. left. destruct (Z.eq_dec a 0) as [->|]; [done|].
  apply Z.log2_lt_pow2; lia.
Qed.

Lemma and_bytes_ok a b : bytes_ok a → bytes_ok b → bytes_ok (and_bytes a b).
Proof.
  intros Ha. revert b. induction Ha as [|x a Hx Ha IH]; intros b Hb; [constructor|].
  destruct b as [|y b]; [constructor|]. apply Forall_cons in Hb as [Hy Hb].
  constructor; [by apply byte_land|]. by apply IH.
Qed.

Lemma cidr_bytes_ok len n : 0 ≤ n → bytes_ok (cidr_bytes len n).
Proof.
  revert n. induction len as [|len IH]; intros n Hn; [constructor|]. cbn.
  destruct (Z.leb_spec 8 n).
  - constructor; [unfold byte_ok; lia|]. apply IH. lia.
  - constructor; [|by apply IH]. unfold byte_ok. rewrite Z.shiftr_div_pow2 by lia.
    pose proof (Z.pow_pos_nonneg 2 n). assert (0 ≤ 255 / 2 ^ n ≤ 255); [|lia].
    split; [apply Z.div_pos; lia|]. apply Z.div_le_upper_bound; nia.
Qed.

Lemma clear_mult h z : 0 ≤ h → clear h z = z ↔ ∃ k, z = k * 2 ^ h.
Proof.
  intros Hh. unfold clear. split; [eauto|]. intros [k ->].
  by rewrite Z.div_mul by (apply Z.pow_nonzero; lia).
Qed.

Lemma clear_idem h z : 0 ≤ h → clear h (clear h z) = clear h z.
Proof. intros Hh. apply clear_mult; [done|]. unfold clear. eauto. Qed.

(** An aligned block: the numbers that have the first bits of its start. *)
Lemma clear_block h b z : 0 ≤ h → clear h b = b → b = clear h z ↔ b ≤ z < b + 2 ^ h.
Proof.
  intros Hh Hb. pose proof (Z.pow_pos_nonneg 2 h) as Hp.
  apply (clear_mult h b Hh) in Hb as [k ->]. unfold clear.
  pose proof (Z.div_mod z (2 ^ h)) as Hd. pose proof (Z.mod_pos_bound z (2 ^ h)) as Hm. split.
  - intros E. lia.
  - intros Hz. f_equal. apply Z.div_unique_pos with (r := z - k * 2 ^ h); lia.
Qed.

Section network.
Context (n : IPNet) (len : nat) (ones : Z) (Hn : cidr_net n len ones).

Definition host_bits : Z := 8 * Z.of_nat len - ones.

Lemma net_ip_ok : bytes_ok (IPNet_IP n) ∧ length (IPNet_IP n) = len ∧ clear host_bits (be (IPNet_IP n)) = be (IPNet_IP n).
Proof.
  destruct Hn as [Hlen Ho Hm (l & Hl & Hll & E) _]. rewrite E. split_and!.
  - apply and_bytes_ok; [done|]. apply cidr_bytes_ok; lia.
  - unfold and_bytes. rewrite length_zip_with, cidr_bytes_length. lia.
  - rewrite and_bytes_cidr by done. apply clear_idem. lia.
Qed.

Lemma net_ip_valid : valid_ip (IPNet_IP n).
Proof. destruct net_ip_ok as (Hb & Hl & _). split; [done|]. rewrite Hl. apply Hn. Qed.

Lemma net_numberAndMask : networkNumberAndMask n = (IPNet_IP n, IPNet_Mask n).
Proof.
  destruct net_ip_ok as (_ & Hl & _). destruct Hn as [Hlen _ Hm _ Hv6].
  assert (length (IPNet_Mask n) = len) as Hml by (by rewrite Hm, cidr_bytes_length).
  unfold networkNumberAndMask. rewrite Hml, Hl. destruct Hlen as [->| ->].
  - assert (To4 (IPNet_IP n) = IPNet_IP n) as E by (unfold To4; by rewrite decide_True).
    rewrite E. case_decide as H0; [by rewrite H0 in Hl|]. done.
  - by rewrite Hv6.
Qed.

(** Masking by the network's mask leaves its address. *)
Lemma masked_spec ip :
  bytes_ok ip → length ip = len →
  and_bytes (IPNet_IP n) (IPNet_Mask n) = and_bytes ip (IPNet_Mask n) ↔
  be (IPNet_IP n) ≤ be ip < be (IPNet_IP n) + 2 ^ host_bits.
Proof.
  intros Hb Hl. destruct net_ip_ok as (Hnb & Hnl & Hc). destruct Hn as [_ Ho Hm _ _].
  assert (0 ≤ host_bits) as Hh by (unfold host_bits; lia).
  rewrite <-(clear_block _ _ _ Hh Hc). rewrite <-Hc at 1.
  unfold host_bits. rewrite Hm. rewrite <-!and_bytes_cidr by done.
  assert (∀ x, length x = len → length (and_bytes x (cidr_bytes len ones)) = len) as Hlen.
  { intros x Hx. unfold and_bytes. rewrite length_zip_with, cidr_bytes_length. lia. }
  assert (be (and_bytes (IPNet_IP n) (cidr_bytes len ones)) = be (IPNet_IP n)) as E.
  { rewrite and_bytes_cidr by done. done. }
  rewrite E. split; [by intros <-|]. intros Heq. rewrite <-E in Heq.
  apply be_inj; [apply and_bytes_ok; [done|apply cidr_bytes_ok; lia]..| |done].
  by rewrite !Hlen.
Qed.

(** The network is the block of [2 ^ host_bits] addresses from its own on. *)
Lemma Contains_block a :
  valid_ip a →
  IPNet_Contains n a = true ↔
    is_v4 a = is_v4 (IPNet_IP n) ∧ addr (IPNet_IP n) ≤ addr a < addr (IPNet_IP n) + 2 ^ host_bits.
Proof.
  intros Ha. unfold IPNet_Contains. rewrite net_numberAndMask.
  pose proof net_ip_valid as Hv. destruct net_ip_ok as (Hb & Hl & _).
  destruct (cn_len _ _ _ Hn) as [E|E].
  - assert (is_v4 (IPNet_IP n) = true) as ->.
    { unfold is_v4, To4. rewrite decide_True by congruence. apply bool_decide_eq_true_2. intros H0.
      rewrite H0 in Hl. by rewrite E in Hl. }
    assert (addr (IPNet_IP n) = v4_first + be (IPNet_IP n)) as ->.
    { unfold addr, To16. rewrite decide_True, be_app_gen, Hl, E by congruence. done. }
    unfold is_v4. destruct (decide (To4 a = [])) as [H4|H4].
    + rewrite (bool_decide_eq_false_2 (To4 a ≠ [])) by (intros Hx; by apply Hx).
      split; [|by intros [? _]]. rewrite Hl, E. case_decide as Hla; [|done].
      unfold To4 in H4. rewrite decide_True in H4 by done. by rewrite H4 in Hla.
    + rewrite (bool_decide_eq_true_2 (To4 a ≠ [])) by done.
      destruct (To4_length a Ha) as [?|H4l]; [done|]. rewrite decide_True by congruence.
      rewrite bool_decide_eq_true, masked_spec by (by apply To4_bytes || congruence).
      unfold addr. rewrite To16_v4, be_app_gen, H4l by done.
      change (be v4InV6Prefix * 256 ^ Z.of_nat 4) with v4_first. split; [intros; split; [done|lia]|intros [_ ?]; lia].
  - assert (To4 (IPNet_IP n) = []) as Hn4 by (by apply Hn).
    assert (is_v4 (IPNet_IP n) = false) as -> by (unfold is_v4; apply bool_decide_eq_false_2; rewrite Hn4; by intros H).
    assert (To16 (IPNet_IP n) = IPNet_IP n) as E16.
    { unfold To16. rewrite decide_False, decide_True by (rewrite Hl, E; done). done. }
    unfold is_v4. destruct (decide (To4 a = [])) as [H4|H4].
    + rewrite (bool_decide_eq_false_2 (To4 a ≠ [])) by (intros Hx; by apply Hx).
      assert (length a = 16%nat) as Hla.
      { destruct Ha as [_ [H|H]]; [|done]. unfold To4 in H4. rewrite decide_True in H4 by done. by rewrite H4 in H. }
      rewrite decide_True by congruence.
      rewrite bool_decide_eq_true, masked_spec by (by apply Ha || congruence).
      unfold addr. rewrite E16. assert (To16 a = a) as -> by (unfold To16; by rewrite decide_False, decide_True by lia).
      tauto.
    + rewrite (bool_decide_eq_true_2 (To4 a ≠ [])) by done.
      split; [|by intros [? _]]. destruct (To4_length a Ha) as [?|H4l]; [done|].
      rewrite decide_False by congruence. done.
Qed.
End network.

(** ** The last address *)

Lemma lor_not_ok b m : byte_ok b → byte_ok m → byte_ok (Z.lor b (Z.lxor m 255)).
Proof.
  unfold byte_ok. intros Hb Hm.
  assert (∀ z, 0 ≤ z < 256 ↔ 0 ≤ z ∧ Z.land z 255 = z) as Hz.
  { intros z. change 255 with (Z.ones 8). rewrite Z.land_ones by lia. split.
    - intros. split; [lia|]. apply Z.mod_small. lia.
    - intros [? <-]. apply Z.mod_pos_bound. lia. }
  apply Hz. apply Hz in Hb as [Hb0 Hb], Hm as [Hm0 Hm]. split.
  - apply Z.lor_nonneg. split; [done|]. apply Z.lxor_nonneg. split; lia.
  - rewrite Z.land_lor_distr_l, Hb. f_equal.
    apply Z.bits_inj'. intros k Hk. rewrite Z.land_spec, !Z.lxor_spec.
    apply (f_equal (λ z, Z.testbit z k)) in Hm. rewrite Z.land_spec in Hm.
    by destruct (Z.testbit m k), (Z.testbit 255 k).
Qed.

Lemma last_bytes_ok a b : bytes_ok a → bytes_ok b → bytes_ok (last_bytes a b).
Proof.
  intros Ha. revert b. induction Ha as [|x a Hx Ha IH]; intros b Hb; [constructor|].
  destruct b as [|y b]; [constructor|]. apply Forall_cons in Hb as [Hy Hb].
  constructor; [by apply lor_not_ok|]. by apply IH.
Qed.

Section last.
Context (n : IPNet) (len : nat) (ones : Z) (Hn : cidr_net n len ones).
Let h := host_bits len ones.

Lemma last_bytes_spec :
  let l := last_bytes (IPNet_IP n) (IPNet_Mask n) in
  bytes_ok l ∧ length l = len ∧ be l = be (IPNet_IP n) + 2 ^ h - 1.
Proof.
  destruct (net_ip_ok n len ones Hn) as (Hb & Hl & Hc).
  pose proof Hn as [_ Ho Hm (l & Hlb & Hll & E) _]. cbv zeta. split_and!.
  - rewrite Hm. apply last_bytes_ok; [done|]. apply cidr_bytes_ok. lia.
  - unfold last_bytes. rewrite length_zip_with, Hm, cidr_bytes_length, Hl. lia.
  - rewrite Hm. rewrite E at 1. rewrite last_bytes_cidr by done. unfold h, host_bits.
    rewrite E, and_bytes_cidr by done. done.
Qed.

(** Every network has one of two families; an IPv4 network is inside the
    IPv4-mapped addresses. *)
Lemma net_addr :
  (len = 4%nat ∧ is_v4 (IPNet_IP n) = true ∧ To4 (IPNet_IP n) ≠ [] ∧
   addr (IPNet_IP n) = v4_first + be (IPNet_IP n)) ∨
  (len = 16%nat ∧ is_v4 (IPNet_IP n) = false ∧ To4 (IPNet_IP n) = [] ∧ addr (IPNet_IP n) = be (IPNet_IP n)).
Proof.
  destruct (net_ip_ok n len ones Hn) as (Hb & Hl & _). unfold is_v4.
  destruct (cn_len _ _ _ Hn) as [E|E]; [left|right].
  - assert (To4 (IPNet_IP n) = IPNet_IP n) as -> by (unfold To4; by rewrite decide_True by congruence).
    assert (IPNet_IP n ≠ []) by (intros H0; rewrite H0, E in Hl; done).
    split_and!; [done|by apply bool_decide_eq_true_2|done|].
    unfold addr, To16. rewrite decide_True, be_app_gen, Hl, E by congruence. done.
  - rewrite (cn_v6 _ _ _ Hn E). split_and!; [done|apply bool_decide_eq_false_2; by intros H|done|].
    unfold addr, To16. by rewrite decide_False, decide_True by (rewrite Hl, E; done).
Qed.

(** The block's last address, of an IPv4 network the one before. *)
Definition last_ip : list Z :=
  let l := last_bytes (IPNet_IP n) (IPNet_Mask n) in
  if decide (To4 (IPNet_IP n) = []) then l else alter (λ b, (b - 1) mod 256) 3%nat l.

Lemma last_ip_spec :
  1 ≤ h →
  valid_ip last_ip ∧
  addr last_ip = addr (IPNet_IP n) + 2 ^ h - (if is_v4 (IPNet_IP n) then 2 else 1).
Proof.
  intros Hh. destruct last_bytes_spec as (Hlb & Hll & Hlbe). unfold last_ip.
  destruct (net_ip_ok n len ones Hn) as (_ & _ & Hc).
  destruct net_addr as [(E & -> & H4 & ->)|(E & -> & H4 & ->)].
  - rewrite decide_False by done. set (l := last_bytes _ _) in *. rewrite E in Hll.
    destruct l as [|b0 [|b1 [|b2 [|b3 [|]]]]]; try done.
    assert (∃ k, be (IPNet_IP n) = 2 * k) as [k Hk].
    { apply clear_mult in Hc as [k ->]; [|fold h; lia].
      exists (k * 2 ^ (h - 1)). replace (host_bits len ones) with (1 + (h - 1)) by (unfold h; lia).
      rewrite Z.pow_add_r by lia. lia. }
    assert (2 ^ h = 2 * 2 ^ (h - 1)) as Hp by (rewrite <-Z.pow_succ_r by lia; f_equal; lia).
    cbn [alter list_alter]. apply Forall_cons in Hlb as [H0 Hlb].
    apply Forall_cons in Hlb as [H1 Hlb]. apply Forall_cons in Hlb as [H2 Hlb]. apply Forall_cons in Hlb as [H3 _].
    assert (be [b0; b1; b2; b3] = ((b0 * 256 + b1) * 256 + b2) * 256 + b3) as E1 by (cbn; lia).
    unfold byte_ok in *. assert (1 ≤ b3) as Hb3 by lia.
    rewrite Z.mod_small by lia. split.
    + split; [|by left]. repeat (apply Forall_cons; split; [unfold byte_ok; lia|]). apply Forall_nil. done.
    + unfold addr, To16. rewrite decide_True by done. rewrite be_app_gen.
      change (be v4InV6Prefix * 256 ^ Z.of_nat (length [b0; b1; b2; b3 - 1])) with v4_first.
      assert (be [b0; b1; b2; b3 - 1] = be [b0; b1; b2; b3] - 1) as -> by (rewrite E1; cbn; lia). lia.
  - rewrite decide_True by done. split; [split; [done|right; congruence]|].
    unfold addr, To16. rewrite decide_False, decide_True by (rewrite Hll, E; done). lia.
Qed.
End last.

(** ** What [ParseCIDR] returns *)

Lemma parseIPv4_form s : parseIPv4 s = [] ∨ ∃ p, bytes_ok p ∧ length p = 4%nat ∧ parseIPv4 s = v4InV6Prefix ++ p.
Proof.
  unfold parseIPv4. destruct (parseIPv4_loop 4 true s) as [p|] eqn:E; [|by left].
  apply parseIPv4_loop_ok in E as [Hok Hlen].
  destruct p as [|a [|b [|c [|d [|]]]]]; try (simpl in Hlen; lia). right. by exists [a; b; c; d].
Qed.

Lemma CIDRMask_bytes k len :
  len = 4%nat ∨ len = 16%nat → 0 ≤ k ≤ 8 * Z.of_nat len → CIDRMask k (8 * Z.of_nat len) = cidr_bytes len k.
Proof.
  intros Hlen Hk. unfold CIDRMask.
  rewrite (proj2 (Z.ltb_ge k 0)), (proj2 (Z.ltb_ge (8 * Z.of_nat len) k)) by lia.
  by destruct Hlen as [-> | ->].
Qed.

Lemma IP_Mask_v6 ip k : length ip = 16%nat → IP_Mask ip (cidr_bytes 16 k) = and_bytes ip (cidr_bytes 16 k).
Proof.
  intros Hl. unfold IP_Mask. rewrite (decide_False (P := _ ∧ _ = 4%nat ∧ _)) by (rewrite Hl; lia).
  rewrite (decide_False (P := _ = 4%nat ∧ _)) by (rewrite cidr_bytes_length; lia).
  rewrite decide_True; [done|]. by rewrite cidr_bytes_length.
Qed.

Lemma IP_Mask_v4 p k :
  length p = 4%nat → IP_Mask (v4InV6Prefix ++ p) (cidr_bytes 4 k) = and_bytes p (cidr_bytes 4 k).
Proof.
  intros Hl. unfold IP_Mask.
  rewrite (decide_False (P := _ ∧ _ = 4%nat ∧ _)) by (rewrite cidr_bytes_length; lia).
  assert (drop 12 (v4InV6Prefix ++ p) = p) as Hd by done.
  rewrite (decide_True (P := _ = 4%nat ∧ _)).
  - rewrite Hd. rewrite decide_True; [done|]. by rewrite cidr_bytes_length.
  - rewrite cidr_bytes_length, length_app, Hl. done.
Qed.

Lemma cidr_net_v6 ip k :
  bytes_ok ip → length ip = 16%nat → 0 ≤ k ≤ 128 →
  let n := mkIPNet (IP_Mask ip (CIDRMask k 128)) (CIDRMask k 128) in
  (length (IPNet_IP n) = 16%nat → To4 (IPNet_IP n) = []) → cidr_net n 16 k.
Proof.
  intros Hb Hl Hk n. unfold n. change 128 with (8 * Z.of_nat 16). rewrite (CIDRMask_bytes k 16) by (auto || lia). cbn [IPNet_IP IPNet_Mask].
  intros Hv6. split; [by right|lia|done| |].
  - exists ip. split; [done|]. split; [done|]. by apply IP_Mask_v6.
  - intros _. apply Hv6. cbn [IPNet_IP]. rewrite IP_Mask_v6 by done. unfold and_bytes. rewrite length_zip_with, cidr_bytes_length. lia.
Qed.

Lemma cidr_net_v4 p k :
  bytes_ok p → length p = 4%nat → 0 ≤ k ≤ 32 →
  cidr_net (mkIPNet (IP_Mask (v4InV6Prefix ++ p) (CIDRMask k 32)) (CIDRMask k 32)) 4 k.
Proof.
  intros Hb Hl Hk. change 32 with (8 * Z.of_nat 4). rewrite (CIDRMask_bytes k 4) by (auto || lia). rewrite IP_Mask_v4 by done.
  split; [by left|lia|done|by exists p|done].
Qed.

(** The address is the one that was written, the network is masked. *)
Lemma ParseCIDR_form s ip n :
  ParseCIDR s = Some (ip, n) →
  (bytes_ok ip ∧ length ip = 16%nat ∧ ∃ k, 0 ≤ k ≤ 128 ∧ n = mkIPNet (IP_Mask ip (CIDRMask k 128)) (CIDRMask k 128)) ∨
  (∃ p k, bytes_ok p ∧ length p = 4%nat ∧ ip = v4InV6Prefix ++ p ∧ 0 ≤ k ≤ 32 ∧
     n = mkIPNet (IP_Mask ip (CIDRMask k 32)) (CIDRMask k 32)).
Proof.
  unfold ParseCIDR. destruct (split_slash s) as [[a m]|]; [|done].
  set (pr := match parseIPv4 a with [] => (parseIPv6 a, 16) | ip => (ip, 4) end).
  assert ((pr.1 = [] ∨ (bytes_ok pr.1 ∧ length pr.1 = 16%nat ∧ pr.2 = 16)) ∨
          ∃ p, bytes_ok p ∧ length p = 4%nat ∧ pr = (v4InV6Prefix ++ p, 4)) as Hpr.
  { unfold pr. destruct (parseIPv4_form a) as [->|(p & Hp & Hpl & ->)]; [left|right].
    - destruct (parseIPv6_ok a) as [->|[Hb Hl]]; [by left|right]. done.
    - exists p. done. }
  clearbody pr. destruct (dtoi m) as [[[k c] [|]]|] eqn:Hk; try (destruct pr; done).
  apply ntoi_nonneg in Hk; [|lia|apply digit_val_nonneg].
  destruct Hpr as [[Hnil|(Hb & Hl & H16)]|(p & Hb & Hl & ->)].
  - destruct pr. cbn in Hnil. subst. by rewrite decide_True.
  - destruct pr as [ip0 l0]. cbn [fst snd] in *. subst l0. case_decide; [done|].
    change (8 * 16) with 128. destruct (Z.ltb_spec 128 k); [done|]. intros [= <- <-]. left. split_and!; [done..|]. by exists k.
  - case_decide; [done|]. change (8 * 4) with 32. destruct (Z.ltb_spec 32 k); [done|]. intros [= <- <-].
    right. exists p, k. done.
Qed.

Lemma cidr_net_parse s ip n :
  ParseCIDR s = Some (ip, n) → (length (IPNet_IP n) = 16%nat → To4 (IPNet_IP n) = []) →
  ∃ len ones, cidr_net n len ones.
Proof.
  intros [(Hb & Hl & k & Hk & ->)|(p & k & Hb & Hl & -> & Hk & ->)]%ParseCIDR_form Hv6.
  - exists 16%nat, k. by apply cidr_net_v6.
  - exists 4%nat, k. by apply cidr_net_v4.
Qed.

Lemma ParseCIDR_valid s ip n : ParseCIDR s = Some (ip, n) → valid_ip ip ∧ valid_ip (IPNet_IP n) ∧ bytes_ok (IPNet_Mask n).
Proof.
  intros [(Hb & Hl & k & Hk & ->)|(p & k & Hb & Hl & -> & Hk & ->)]%ParseCIDR_form; cbn [IPNet_IP IPNet_Mask].
  - change 128 with (8 * Z.of_nat 16). rewrite CIDRMask_bytes, IP_Mask_v6 by (done || auto || lia).
    split_and!; [by split; [|right]| |apply cidr_bytes_ok; lia].
    split; [apply and_bytes_ok; [done|apply cidr_bytes_ok; lia]|right]. unfold and_bytes. rewrite length_zip_with, cidr_bytes_length. lia.
  - change 32 with (8 * Z.of_nat 4). rewrite CIDRMask_bytes, IP_Mask_v4 by (done || auto || lia).
    split_and!; [| |apply cidr_bytes_ok; lia].
    + split; [apply Forall_app; split; [by apply (bool_decide_unpack _); vm_compute|done]|right]. by rewrite length_app, Hl.
    + split; [apply and_bytes_ok; [done|apply cidr_bytes_ok; lia]|left]. unfold and_bytes. rewrite length_zip_with, cidr_bytes_length. lia.
Qed.

(** ** The size of a mask *)

Lemma leading_ones_all :
  forallb (λ n, bool_decide (leading_ones 8 (255 - Z.shiftr 255 (Z.of_nat n)) = (Z.of_nat n, 0))
                && negb (255 - Z.shiftr 255 (Z.of_nat n) =? 255)) (seq 0 8) = true.
Proof. vm_compute. reflexivity. Qed.

Lemma leading_ones_spec n :
  0 ≤ n < 8 → leading_ones 8 (255 - Z.shiftr 255 n) = (n, 0) ∧ 255 - Z.shiftr 255 n ≠ 255.
Proof.
  intros Hn. pose proof leading_ones_all as H. rewrite forallb_forall in H.
  specialize (H (Z.to_nat n)). rewrite Z2Nat.id in H by lia.
  destruct (andb_prop _ _ (H ltac:(apply in_seq; lia))) as [H1 H2].
  split; [by apply bool_decide_eq_true in H1|]. by apply negb_true_iff, Z.eqb_neq in H2.
Qed.

Lemma cidr_bytes_zeros len : forallb (Z.eqb 0) (cidr_bytes len 0) = true.
Proof. induction len as [|len IH]; [done|]. cbn. exact IH. Qed.

Lemma simpleMaskLength_cidr len n : 0 ≤ n ≤ 8 * Z.of_nat len → simpleMaskLength (cidr_bytes len n) = n.
Proof.
  revert n. induction len as [|len IH]; intros n Hn; cbn [cidr_bytes]; [cbn; lia|].
  destruct (Z.leb_spec 8 n) as [Hge|Hlt]; cbn [simpleMaskLength].
  - cbn [Z.eqb Pos.eqb]. rewrite IH by lia. destruct (Z.eqb_spec (n - 8) (-1)); lia.
  - destruct (leading_ones_spec n) as [E Hne]; [lia|]. rewrite (proj2 (Z.eqb_neq _ 255)) by done.
    rewrite E. cbn [Z.eqb negb]. by rewrite cidr_bytes_zeros.
Qed.

Lemma Mask_Size_cidr len n :
  0 ≤ n ≤ 8 * Z.of_nat len → Mask_Size (cidr_bytes len n) = (n, 8 * Z.of_nat len).
Proof.
  intros Hn. unfold Mask_Size. rewrite simpleMaskLength_cidr, cidr_bytes_length by done.
  destruct (Z.eqb_spec n (-1)); [lia|]. f_equal. lia.
Qed.

(** The network's address is its own masked address. *)
Lemma IP_Mask_net n len ones : cidr_net n len ones → IP_Mask (IPNet_IP n) (IPNet_Mask n) = IPNet_IP n.
Proof.
  intros Hn. destruct (net_ip_ok n len ones Hn) as (Hb & Hl & Hc). pose proof Hn as [Hlen Ho Hm _ Hv6].
  assert (IP_Mask (IPNet_IP n) (IPNet_Mask n) = and_bytes (IPNet_IP n) (IPNet_Mask n)) as ->.
  { unfold IP_Mask. rewrite (decide_False (P := _ ∧ _ = 4%nat ∧ _)).
    - rewrite (decide_False (P := _ = 4%nat ∧ _)).
      + by rewrite decide_True by (rewrite Hm, cidr_bytes_length; done).
      + rewrite Hm, cidr_bytes_length, Hl. intros (? & ? & _). lia.
    - rewrite Hm, cidr_bytes_length, Hl. intros (? & ? & _). lia. }
  rewrite Hm. apply be_inj; [apply and_bytes_ok; [done|apply cidr_bytes_ok; lia]|done| |].
  - unfold and_bytes. rewrite length_zip_with, cidr_bytes_length. lia.
  - by rewrite and_bytes_cidr by done.
Qed.
