(* ===== verification/NetText.v ===== *)
(** * The text of addresses and networks

    What characters the text of an address has, [IPNet.String] and its round
    trip through [ParseCIDR]. *)

From S2P Require Import Prelude GoNet GoStrings NetBlock.
From Stdlib Require Import Ascii.
Local Open Scope Z_scope.

(** [func (m IPMask) String() string] *)
Definition IPMask_String (m : IPMask) : string := if decide (m = []) then "<nil>" else hexString m.

(** [func ( n *IPNet) String() string]; the length of a mask is at most 128. *)
Definition IPNet_String (n : IPNet) : string :=
  let '(nn, m) := networkNumberAndMask n in
  if decide (nn = [] ∨ m = []) then "<nil>"
  else
    let l := simpleMaskLength m in
    if l =? -1 then IP_String nn +:+ "/" +:+ IPMask_String m
    else IP_String nn +:+ "/" +:+ ubtoa l.

Lemma appendHex_nobyte c g : group_ok g → hex_val c = None → nobyte c (appendHex g).
Proof.
  intros Hg Hc. apply nobyte_get. intros k x Hk ->.
  destruct (appendHex_chars g Hg k c Hk) as [v Hv]. congruence.
Qed.

Lemma ubtoa_nobyte c v : byte_ok v → digit_val c = None → nobyte c (ubtoa v).
Proof.
  intros Hv Hc. apply nobyte_get. intros k x Hk ->.
  destruct (ubtoa_chars v Hv k c Hk) as [d Hd]. congruence.
Qed.

Lemma hexs_nobyte c gs : Forall group_ok gs → hex_val c = None → c ≠ ":"%char → nobyte c (hexs gs).
Proof.
  intros Hok Hc Hne. induction Hok as [|g gs Hg Hok IH]; [done|].
  destruct gs as [|g' gs]; [by apply appendHex_nobyte|]. rewrite hexs_cons.
  apply nobyte_app; [by apply appendHex_nobyte|]. by split.
Qed.

Lemma IP_String_v4 ip : valid_ip ip → To4 ip ≠ [] →
  ∃ a b c d, byte_ok a ∧ byte_ok b ∧ byte_ok c ∧ byte_ok d ∧
    IP_String ip = ubtoa a +:+ "." +:+ ubtoa b +:+ "." +:+ ubtoa c +:+ "." +:+ ubtoa d.
Proof.
  intros Hv H4. pose proof (To4_bytes ip Hv) as Hb. destruct (To4_length ip Hv) as [E|E]; [done|].
  unfold IP_String. destruct ip as [|x ip]; [done|]. destruct (To4 (x :: ip)) as [|a [|b [|c [|d [|]]]]]; try done.
  unfold bytes_ok in Hb. rewrite !Forall_cons in Hb. destruct Hb as (? & ? & ? & ? & _).
  by exists a, b, c, d.
Qed.

Lemma IP_String_v6 ip : valid_ip ip → To4 ip = [] →
  length (groups ip) = 8%nat ∧ Forall group_ok (groups ip) ∧ ungroup (groups ip) = ip ∧
  IP_String ip = print_v6 (groups ip).
Proof.
  intros Hv H4. destruct Hv as [Hb [Hl|Hl]].
  - unfold To4 in H4. rewrite decide_True in H4 by done. by subst.
  - destruct (groups_spec 8 ip) as (? & ? & ?); [lia|done|]. split_and!; try done.
    unfold IP_String. rewrite H4. destruct ip; [done|]. by rewrite decide_True.
Qed.


Lemma print_v6_nobyte c gs : Forall group_ok gs → hex_val c = None → c ≠ ":"%char → nobyte c (print_v6 gs).
Proof.
  intros Hok Hc Hne. unfold print_v6. destruct (longest_run 0 gs (0, 0)%nat) as [e0 e1].
  case_decide; [by apply (hexs_nobyte c gs)|].
  apply nobyte_app; [by apply (hexs_nobyte c (take e0 gs)); [apply Forall_take|..]|].
  do 2 (split; [done|]). by apply (hexs_nobyte c (drop e1 gs)); [apply Forall_drop|..].
Qed.

Lemma IP_String_noslash ip : valid_ip ip → nobyte "/" (IP_String ip).
Proof.
  intros Hv. destruct (decide (To4 ip = [])) as [H4|H4].
  - destruct (IP_String_v6 ip Hv H4) as (_ & Hok & _ & ->). by apply print_v6_nobyte.
  - destruct (IP_String_v4 ip Hv H4) as (a & b & c & d & ? & ? & ? & ? & ->).
    repeat (apply nobyte_app; [by apply ubtoa_nobyte|]; rewrite sapp_cons, sapp_nil; split; [done|]).
    by apply ubtoa_nobyte.
Qed.

Lemma split_slash_app s t : nobyte "/" s → split_slash (s +:+ "/" +:+ t) = Some (s, t).
Proof.
  induction s as [|c s IH]; [done|]. intros [Hc Hs]. rewrite sapp_cons. cbn [split_slash].
  rewrite decide_False by done. by rewrite IH.
Qed.

Lemma ntoi_loop_rest c base val s n i m j r :
  nobyte c s → ntoi_loop base val s n i = Some (m, j, r) → nobyte c r.
Proof.
  revert n i. induction s as [|x s IH]; intros n i Hs; cbn [ntoi_loop]; [by intros [= _ _ <-]|].
  destruct (val x) as [d|]; [|by intros [= _ _ <-]]. case_match; [done|]. apply IH. apply Hs.
Qed.

Lemma dtoi_rest c s m j r : nobyte c s → dtoi s = Some (m, j, r) → nobyte c r.
Proof.
  intros Hs. unfold dtoi, ntoi. destruct (ntoi_loop 10 digit_val s 0 0) as [[[m' j'] r']|] eqn:E; [|done].
  destruct j'; [done|]. intros [= _ _ <-]. by eapply ntoi_loop_rest.
Qed.

Lemma parseIPv4_nodot s : nobyte "." s → parseIPv4 s = [].
Proof.
  intros Hs. unfold parseIPv4. cbn [parseIPv4_loop]. destruct s as [|c s]; [done|].
  destruct (dtoi (String c s)) as [[[n j] r]|] eqn:E; [|done]. apply dtoi_rest with (c := "."%char) in E; [|done].
  destruct (255 <? n); [done|]. destruct r as [|x r]; [done|]. destruct E as [Hx _].
  by rewrite decide_False by done.
Qed.

Lemma ParseIP_scan_nodot s0 s : nobyte "." s → ParseIP_scan s0 s = [] ∨ ParseIP_scan s0 s = parseIPv6 s0.
Proof.
  induction s as [|c s IH]; [by left|]. intros [Hc Hs]. cbn [ParseIP_scan].
  rewrite decide_False by done. case_decide; [by right|by apply IH].
Qed.

Lemma ParseCIDR_slash ip iplen t n :
  nobyte "/" t → 0 ≤ n ≤ 8 * iplen → iplen = 4 ∨ iplen = 16 → ip ≠ [] →
  match parseIPv4 t with [] => (parseIPv6 t, 16) | ip => (ip, 4) end = (ip, iplen) →
  ParseCIDR (t +:+ "/" +:+ ubtoa n) =
    Some (ip, mkIPNet (IP_Mask ip (CIDRMask n (8 * iplen))) (CIDRMask n (8 * iplen))).
Proof.
  intros Ht Hn Hl Hne E. unfold ParseCIDR. rewrite split_slash_app by done. rewrite E.
  destruct (dtoi_ubtoa n "") as [k Hk]; [unfold byte_ok; lia|done|]. rewrite sapp_nil_r in Hk. rewrite Hk.
  rewrite decide_False by done. by rewrite (proj2 (Z.ltb_ge _ _)) by lia.
Qed.

(** The text of an address with a mask of its family reads back. *)
Lemma ParseCIDR_IPNet_v6 ip n :
  valid_ip ip → To4 ip = [] → 0 ≤ n ≤ 128 →
  ParseCIDR (IPNet_String (mkIPNet ip (cidr_bytes 16 n)))
  = Some (ip, mkIPNet (IP_Mask ip (cidr_bytes 16 n)) (cidr_bytes 16 n)).
Proof.
  intros Hv H4 Hn. pose proof (ParseIP_String ip Hv) as Hp.
  destruct (IP_String_v6 ip Hv H4) as (_ & Hok & _ & Ht).
  destruct (valid_cases ip Hv) as [[Hl _]|[Hl H16]].
  { unfold To4 in H4. rewrite decide_True in H4 by done. by subst. }
  assert (ip ≠ []) as Hne by (by destruct ip). assert (To4 ip = [] ∧ ip ≠ []) as Hx by done.
  assert (nobyte "." (IP_String ip)) as Hdot by (rewrite Ht; by apply print_v6_nobyte).
  assert (parseIPv6 (IP_String ip) = ip) as Hp6.
  { rewrite H16 in Hp. unfold ParseIP in Hp.
    destruct (ParseIP_scan_nodot (IP_String ip) (IP_String ip) Hdot) as [E|E]; congruence. }
  assert (networkNumberAndMask (mkIPNet ip (cidr_bytes 16 n)) = (ip, cidr_bytes 16 n)) as En.
  { unfold networkNumberAndMask. cbn [IPNet_IP IPNet_Mask]. rewrite (decide_True (P := To4 ip = [])) by done.
    rewrite decide_True by done. rewrite cidr_bytes_length. by rewrite decide_False, decide_True by done. }
  unfold IPNet_String. rewrite En, decide_False; [|intros [?|E]; [done|]; by apply (f_equal length) in E; rewrite cidr_bytes_length in E].
  rewrite simpleMaskLength_cidr by lia. rewrite (proj2 (Z.eqb_neq n (-1))) by lia.
  pose proof (CIDRMask_bytes n 16 ltac:(auto) ltac:(lia)) as Em. change (8 * Z.of_nat 16) with (8 * 16) in Em.
  rewrite (ParseCIDR_slash ip 16), Em; [done|by apply IP_String_noslash|lia|by right|done|].
  by rewrite parseIPv4_nodot, Hp6.
Qed.

Lemma ParseCIDR_IPNet_v4 ip n :
  valid_ip ip → To4 ip ≠ [] → 0 ≤ n ≤ 32 →
  ParseCIDR (IPNet_String (mkIPNet ip (cidr_bytes 4 n)))
  = Some (To16 ip, mkIPNet (IP_Mask (To16 ip) (cidr_bytes 4 n)) (cidr_bytes 4 n)).
Proof.
  intros Hv H4 Hn.
  assert (networkNumberAndMask (mkIPNet ip (cidr_bytes 4 n)) = (To4 ip, cidr_bytes 4 n)) as En.
  { unfold networkNumberAndMask. cbn [IPNet_IP IPNet_Mask]. rewrite (decide_False (P := To4 ip = [])) by done.
    by rewrite cidr_bytes_length, decide_True by done. }
  pose proof (To4_bytes ip Hv) as Hb. destruct (To4_length ip Hv) as [E|El]; [done|].
  assert (valid_ip (To4 ip)) as Hv4 by (split; [done|by left]).
  assert (To16 (To4 ip) = To16 ip ∧ IP_String (To4 ip) = IP_String ip) as [E16 Es].
  { assert (To16 (To4 ip) = To16 ip) as E.
    { rewrite (To16_v4 ip Hv H4). unfold To16. by rewrite decide_True. }
    split; [done|by apply IP_String_eq]. }
  unfold IPNet_String. rewrite En, decide_False; [|intros [?|E]; [done|]; by apply (f_equal length) in E; rewrite cidr_bytes_length in E].
  rewrite simpleMaskLength_cidr by lia. rewrite (proj2 (Z.eqb_neq n (-1))) by lia.
  pose proof (CIDRMask_bytes n 4 ltac:(auto) ltac:(lia)) as Em. change (8 * Z.of_nat 4) with (8 * 4) in Em.
  rewrite (ParseCIDR_slash (To16 ip) 4), Em; [done|by apply IP_String_noslash|lia|by left| |].
  - rewrite (To16_v4 ip Hv H4). done.
  - rewrite Es. pose proof (ParseIP_String ip Hv) as Hp.
    destruct (IP_String_v4 ip Hv H4) as (a & b & c & d & ? & ? & ? & ? & Et). rewrite Et in *.
    unfold ParseIP in Hp. rewrite ParseIP_scan_skip in Hp by (by apply ubtoa_nosep).
    simpl ParseIP_scan in Hp. rewrite Hp, (To16_v4 ip Hv H4). done.
Qed.
