(* ===== verification/CNIPlugins.v ===== *)
(** * The address arithmetic of containernetworking/plugins (pkg/ip)

    The package is not part of the repository: its three functions are the
    operations of the class [CNIPlugins], a parameter of every definition that
    uses them, and [CNIPluginsLaws] states their documented behaviour on valid
    addresses ("NextIP returns IP incremented by 1", "PrevIP returns IP
    decremented by 1", "Cmp compares two IPs, returning the usual ordering").
    The section [range] derives from the laws what the loops
    [for i := start; ip.Cmp(i, end) <= 0; i = ip.NextIP(i)] of the repository
    enumerate.  The instance at the end, a concrete reading of the documented
    behaviour, shows that the laws can hold. *)

From S2P Require Import Prelude GoNet.
Local Open Scope Z_scope.

Class CNIPlugins : Type := {
  NextIP : list Z → list Z;
  PrevIP : list Z → list Z;
  Cmp : list Z → list Z → Z
}.

(** [z + 1] is an address of the family of [z]. *)
Definition has_next (z : Z) : Prop := z ≠ v4_first - 1 ∧ z ≠ v4_last ∧ z + 1 < 2 ^ 128.
Definition has_prev (z : Z) : Prop := z ≠ v4_first ∧ z ≠ v4_last + 1 ∧ 0 ≤ z - 1.

Class CNIPluginsLaws (P : CNIPlugins) : Prop := {
  NextIP_law a : valid_ip a → has_next (addr a) →
    valid_ip (NextIP a) ∧ addr (NextIP a) = addr a + 1;
  PrevIP_law a : valid_ip a → has_prev (addr a) →
    valid_ip (PrevIP a) ∧ addr (PrevIP a) = addr a - 1;
  Cmp_law a b : valid_ip a → valid_ip b → is_v4 a = is_v4 b →
    (Cmp a b ?= 0) = (addr a ?= addr b)
}.

Section cmp.
Context {P : CNIPlugins} {L : CNIPluginsLaws P}.
Implicit Types a b : list Z.

Lemma Cmp_lt a b : valid_ip a → valid_ip b → is_v4 a = is_v4 b → (Cmp a b <? 0) = (addr a <? addr b).
Proof. intros. unfold Z.ltb. by rewrite Cmp_law. Qed.

Lemma Cmp_gt a b : valid_ip a → valid_ip b → is_v4 a = is_v4 b → (0 <? Cmp a b) = (addr b <? addr a).
Proof.
  intros Ha Hb Hv. unfold Z.ltb. rewrite (Z.compare_antisym (Cmp a b) 0), (Z.compare_antisym (addr a)).
  by rewrite Cmp_law.
Qed.

Lemma Cmp_le a b : valid_ip a → valid_ip b → is_v4 a = is_v4 b → (Cmp a b <=? 0) = (addr a <=? addr b).
Proof. intros. unfold Z.leb. by rewrite Cmp_law. Qed.
End cmp.

(** The values of [i] in [for i := start; ip.Cmp(i, end) <= 0; i = ip.NextIP(i)];
    [None] when the fuel runs out. *)
Fixpoint ip_range `{CNIPlugins} (fuel : nat) (i stop : list Z) : option (list (list Z)) :=
  match fuel with
  | O => None
  | S fuel => if Cmp i stop <=? 0
              then match ip_range fuel (NextIP i) stop with
                   | Some l => Some (i :: l)
                   | None => None
                   end
              else Some []
  end.

(** Enough fuel for the loop, see [ip_range_spec]. *)
Definition range_fuel (start stop : list Z) : nat := S (Z.to_nat (addr stop - addr start + 1)).

(** The addresses of the range are followed by an address of their family:
    the range does not reach the end of the address space and does not cross
    the IPv4-mapped block. *)
Definition range_ok (start stop : list Z) : Prop :=
  valid_ip start ∧ valid_ip stop ∧ is_v4 start = is_v4 stop ∧
  ∀ z, addr start ≤ z ≤ addr stop → has_next z.

Section range.
Context {P : CNIPlugins} {L : CNIPluginsLaws P}.

Lemma is_v4_same a b :
  valid_ip a → valid_ip b →
  (v4_first ≤ addr a ≤ v4_last ↔ v4_first ≤ addr b ≤ v4_last) → is_v4 a = is_v4 b.
Proof.
  intros Ha Hb Hiff. apply Bool.eq_true_iff_eq. by rewrite !is_v4_addr.
Qed.

Lemma NextIP_family a : valid_ip a → has_next (addr a) → is_v4 (NextIP a) = is_v4 a.
Proof.
  intros Ha Hn. destruct (NextIP_law a Ha Hn) as [Hv Hz].
  apply is_v4_same; [done..|]. rewrite Hz. destruct Hn. lia.
Qed.

Lemma range_ok_next start stop :
  range_ok start stop → addr start ≤ addr stop →
  range_ok (NextIP start) stop ∧ addr (NextIP start) = addr start + 1 ∧
  is_v4 (NextIP start) = is_v4 stop.
Proof.
  intros (Hs & He & Hf & Hn) Hle. assert (has_next (addr start)) as H1 by (apply Hn; lia).
  destruct (NextIP_law start Hs H1) as [Hv Hz]. unfold range_ok. rewrite NextIP_family by done.
  refine (conj (conj Hv (conj He (conj Hf _))) (conj Hz Hf)). intros z Hz'. apply Hn. lia.
Qed.

(** The loop visits the addresses from [start] to [stop] in order, each once. *)
Lemma ip_range_spec n start stop :
  range_ok start stop → (range_fuel start stop ≤ n)%nat →
  ∃ l, ip_range n start stop = Some l ∧ Forall valid_ip l ∧
       addr <$> l = seqZ (addr start) (addr stop - addr start + 1).
Proof.
  revert start. induction n as [|n IH]; intros start Hr Hfuel; unfold range_fuel in *; [lia|].
  pose proof Hr as (Hs & He & Hf & Hn). cbn [ip_range]. rewrite Cmp_le by done.
  destruct (Z.leb_spec (addr start) (addr stop)) as [Hle|Hgt].
  - destruct (range_ok_next start stop Hr Hle) as (Hr' & Hz & Hf').
    destruct (IH (NextIP start) Hr') as (l & -> & Hl & Hmap); [rewrite Hz; lia|].
    exists (start :: l). split; [done|]. split; [by constructor|].
    rewrite fmap_cons, Hmap, Hz. rewrite (seqZ_cons (addr start)) by lia.
    f_equal. f_equal; lia.
  - exists []. split; [done|]. split; [constructor|]. by rewrite seqZ_nil by lia.
Qed.
End range.

(** ** A concrete reading of the documented behaviour *)

Definition cni_concrete : CNIPlugins := {|
  NextIP a := of_addr (addr a + 1);
  PrevIP a := of_addr (addr a - 1);
  Cmp a b := if addr a <? addr b then -1 else if addr a =? addr b then 0 else 1
|}.

Lemma cni_concrete_laws : CNIPluginsLaws cni_concrete.
Proof.
  split.
  - intros a Ha (_ & _ & Hn). cbn. pose proof (addr_bounds a Ha).
    split; [apply of_addr_valid|apply addr_of_addr; lia].
  - intros a Ha (_ & _ & Hp). cbn. pose proof (addr_bounds a Ha).
    split; [apply of_addr_valid|apply addr_of_addr; lia].
  - intros a b Ha Hb _. cbn. destruct (Z.ltb_spec (addr a) (addr b)).
    + symmetry. by apply Z.compare_lt_iff.
    + destruct (Z.eqb_spec (addr a) (addr b)) as [->|]; [symmetry; apply Z.compare_refl|].
      symmetry. apply Z.compare_gt_iff. lia.
Qed.
