(* ===== verification/NetworkingV1.v ===== *)
(** * The API objects (pkg/apis/networking/v1)

    The custom resources Network, Subnet and IPInstance with the fields the
    code reads, and the helpers of [utils.go]: defaults of optional fields,
    validation of an address range and its capacity.  Strings typed by the
    source (NetworkType, NetworkMode, IPVersion, IPPhase) are strings here; a
    nil-able pointer or map is an [option]. *)

From S2P Require Import Prelude GoNet CNIPlugins.
Local Open Scope Z_scope.

(** ** Metadata: the fields of metav1.ObjectMeta that the code uses.  A
    deletion timestamp is only tested for presence. *)
Record OwnerReference := mkOwnerReference {
  or_APIVersion : string; or_Kind : string; or_Name : string; or_UID : string;
  or_Controller : option bool; or_BlockOwnerDeletion : option bool
}.

Record ObjectMeta := mkObjectMeta {
  om_Name : string;
  om_Namespace : string;
  om_UID : string;
  om_Labels : gmap string string;
  om_Annotations : gmap string string;
  om_Finalizers : list string;
  om_OwnerReferences : list OwnerReference;
  om_DeletionTimestamp : option Z
}.

(** ** types.go *)

Definition NetworkTypeUnderlay : string := "Underlay".
Definition NetworkTypeOverlay : string := "Overlay".

Definition NetworkModeBGP : string := "BGP".
Definition NetworkModeVlan : string := "VLAN".
Definition NetworkModeVxlan : string := "VXLAN".

Record Count := mkCount { ct_Total : Z; ct_Used : Z; ct_Available : Z }.

Definition IPVersion4 : string := "4".
Definition IPVersion6 : string := "6".

Record AddressRange := mkAddressRange {
  ar_Version : string;
  ar_Start : string;
  ar_End : string;
  ar_CIDR : string;
  ar_Gateway : string;
  ar_ReservedIPs : list string;
  ar_ExcludeIPs : list string
}.

Record SubnetConfig := mkSubnetConfig {
  sc_GatewayType : string;
  sc_GatewayNode : string;
  sc_AutoNatOutgoing : option bool;
  sc_Private : option bool;
  sc_AllowSubnets : list string
}.

Record BGPPeer := mkBGPPeer {
  bp_ASN : Z; bp_Address : string; bp_GracefulRestartSeconds : Z; bp_Password : string
}.

Record NetworkConfig := mkNetworkConfig { nc_BGPPeers : list BGPPeer }.

Record Address := mkAddress {
  ad_Version : string; ad_IP : string; ad_Gateway : string; ad_NetID : option Z; ad_MAC : string
}.

Definition IPPhaseUsing : string := "Using".
Definition IPPhaseReserved : string := "Reserved".

(** ** network_types.go, subnet_types.go, ipinstance_types.go *)

Record NetworkSpec := mkNetworkSpec {
  ns_NodeSelector : option (gmap string string);
  ns_NetID : option Z;
  ns_SwitchID : string;
  ns_Type : string;
  ns_Mode : string;
  ns_Config : option NetworkConfig
}.

Record NetworkStatus := mkNetworkStatus {
  nst_LastAllocatedSubnet : string;
  nst_LastAllocatedIPv6Subnet : string;
  nst_SubnetList : list string;
  nst_NodeList : list string;
  nst_Statistics : option Count;
  nst_IPv6Statistics : option Count;
  nst_DualStackStatistics : option Count
}.

Record V1Network := mkV1Network {
  vn_Meta : ObjectMeta; vn_Spec : NetworkSpec; vn_Status : NetworkStatus
}.

Record SubnetSpec := mkSubnetSpec {
  ssp_Range : AddressRange;
  ssp_NetID : option Z;
  ssp_Network : string;
  ssp_Config : option SubnetConfig
}.

Record SubnetStatus := mkSubnetStatus { sst_Count : Count; sst_LastAllocatedIP : string }.

Record V1Subnet := mkV1Subnet {
  vs_Meta : ObjectMeta; vs_Spec : SubnetSpec; vs_Status : SubnetStatus
}.

Record IPInstanceSpec := mkIPInstanceSpec {
  is_Network : string; is_Subnet : string; is_Address : Address
}.

Record IPInstanceStatus := mkIPInstanceStatus {
  ist_NodeName : string; ist_Phase : string; ist_PodName : string;
  ist_PodNamespace : string; ist_SandboxID : string
}.

Record V1IPInstance := mkV1IPInstance {
  vi_Meta : ObjectMeta; vi_Spec : IPInstanceSpec; vi_Status : IPInstanceStatus
}.

#[export] Instance Count_eq_dec : EqDecision Count.
Proof. solve_decision. Defined.
#[export] Instance AddressRange_eq_dec : EqDecision AddressRange.
Proof. solve_decision. Defined.
#[export] Instance NetworkStatus_eq_dec : EqDecision NetworkStatus.
Proof. solve_decision. Defined.
#[export] Instance SubnetStatus_eq_dec : EqDecision SubnetStatus.
Proof. solve_decision. Defined.

(** ** utils.go *)

Definition nonempty (s : string) : bool := negb (bool_decide (s = "")).

Definition IsPrivateSubnet (subnet : option V1Subnet) : bool :=
  match subnet with
  | None => false
  | Some subnet =>
      match ssp_Config (vs_Spec subnet) with
      | None => false
      | Some c => match sc_Private c with None => false | Some b => b end
      end
  end.

Definition IsIPv6Subnet (subnet : option V1Subnet) : bool :=
  match subnet with
  | None => false
  | Some subnet =>
      let range := ssp_Range (vs_Spec subnet) in
      if decide (ar_Version range = IPVersion6) then true
      else match ParseCIDR (ar_CIDR range) with
           | Some (_, cidr) => bool_decide (To4 (IPNet_IP cidr) = [])
           | None => false
           end
  end.

Definition GetNetworkType (networkObj : option V1Network) : string :=
  match networkObj with
  | None => NetworkTypeUnderlay
  | Some n => if nonempty (ns_Type (vn_Spec n)) then ns_Type (vn_Spec n) else NetworkTypeUnderlay
  end.

(** The switch has cases that fall out of it without returning; the field
    access of a nil network panics. *)
Definition GetNetworkMode (networkObj : option V1Network) : outcome string :=
  let t := GetNetworkType networkObj in
  let mode_of := match networkObj with Some n => Ret (ns_Mode (vn_Spec n)) | None => Panic end in
  if decide (t = NetworkTypeUnderlay) then
    match networkObj with
    | None => Ret NetworkModeVlan
    | Some n => if nonempty (ns_Mode (vn_Spec n)) then mode_of else Ret NetworkModeVlan
    end
  else if decide (t = NetworkTypeOverlay) then
    mode ← mode_of;
    if nonempty mode then mode_of else Ret NetworkModeVxlan
  else mode_of.

Definition IsIPv6IPInstance (ip : option V1IPInstance) : bool :=
  match ip with
  | None => false
  | Some ip =>
      let a := is_Address (vi_Spec ip) in
      if decide (ad_Version a = IPVersion6) then true
      else match ParseCIDR (ad_IP a) with
           | Some (tempIP, _) => bool_decide (To4 tempIP = [])
           | None => false
           end
  end.

Section validate.
Context `{CNIPlugins}.

(** [if cond { return err }] *)
Definition return_if (cond : bool) (err : error) : outcome unit :=
  if cond then Fail err else Ret tt.

(** The two loops over the reserved and the excluded addresses. *)
Fixpoint validate_ips (what : string) (cidr : IPNet) (cidrStr : string) (l : list string) : outcome unit :=
  match l with
  | [] => Ret tt
  | s :: l =>
      let tempIP := ParseIP s in
      if decide (tempIP = []) then Fail (Errorf ("invalid " +:+ what +:+ " ip %s") [s])
      else if negb (IPNet_Contains cidr tempIP)
      then Fail (Errorf (what +:+ " ip %s is not in CIDR %s") [s; cidrStr])
      else validate_ips what cidr cidrStr l
  end.

Definition ValidateAddressRange (ar : AddressRange) : outcome unit :=
  isIPv6 ← (if decide (ar_Version ar = IPVersion4) then Ret false
            else if decide (ar_Version ar = IPVersion6) then Ret true
            else Fail (Errorf "unsupported IP Version %s" [ar_Version ar]));
  let start := ParseIP (ar_Start ar) in
  return_if (nonempty (ar_Start ar) && bool_decide (start = []))
    (Errorf "invalid range start %s" [ar_Start ar]);;
  let stop := ParseIP (ar_End ar) in
  return_if (nonempty (ar_End ar) && bool_decide (stop = []))
    (Errorf "invalid range end %s" [ar_End ar]);;
  match ParseCIDR (ar_CIDR ar) with
  | None => Fail (Errorf "invalid range CIDR %s" [ar_CIDR ar])
  | Some (ipOfCIDR, cidr) =>
      return_if (negb (IP_Equal (IPNet_IP cidr) ipOfCIDR))
        (Errorf "CIDR notation is not standard, should start from %s but from %s"
           [IP_String (IPNet_IP cidr); IP_String ipOfCIDR]);;
      let '(ones, bits) := Mask_Size (IPNet_Mask cidr) in
      return_if (ones =? bits) (Errorf "types of /32 or /128 cidrs is not supported" []);;
      return_if (nonempty (ar_Start ar) && negb (IPNet_Contains cidr start))
        (Errorf "start %s is not in CIDR %s" [ar_Start ar; ar_CIDR ar]);;
      return_if (nonempty (ar_End ar) && negb (IPNet_Contains cidr stop))
        (Errorf "end %s is not in CIDR %s" [ar_End ar; ar_CIDR ar]);;
      return_if (nonempty (ar_Start ar) && nonempty (ar_End ar) && (0 <? Cmp start stop))
        (Errorf "subnet should have at least one available IP. start=%s, end=%s"
           [IP_String start; IP_String stop]);;
      (if nonempty (ar_Gateway ar) then
         let gateway := ParseIP (ar_Gateway ar) in
         return_if (bool_decide (gateway = [])) (Errorf "invalid range gateway %s" [ar_Gateway ar]);;
         return_if (negb (Bool.eqb (bool_decide (To4 gateway = [])) isIPv6))
           (Errorf "address families of ip version and gateway mismatch" []);;
         return_if (negb (IPNet_Contains cidr gateway))
           (Errorf "gateway %s is not in CIDR %s" [ar_Gateway ar; ar_CIDR ar])
       else Ret tt);;
      validate_ips "reserved" cidr (ar_CIDR ar) (ar_ReservedIPs ar);;
      validate_ips "excluded" cidr (ar_CIDR ar) (ar_ExcludeIPs ar)
  end.
End validate.

Definition IsSubnetAutoNatOutgoing (subnetSpec : option SubnetSpec) : bool :=
  match subnetSpec with
  | None => true
  | Some s => match ssp_Config s with
              | None => true
              | Some c => match sc_AutoNatOutgoing c with None => true | Some b => b end
              end
  end.

(** *** Capacity

    [int64] is two's complement; [big.Int.Int64] keeps the low 64 bits of the
    absolute value and applies the sign; [big.Int.Bytes] has no leading zeros
    (at most 17 bytes here, for the sum of a 128-bit number and one). *)

Definition MaxInt64 : Z := 2 ^ 63 - 1.
Definition int64 (z : Z) : Z := (z + 2 ^ 63) mod 2 ^ 64 - 2 ^ 63.

Definition big_Int64 (x : Z) : Z :=
  let v := int64 (Z.abs x mod 2 ^ 64) in if x <? 0 then int64 (- v) else v.

Fixpoint strip_zeros (l : list Z) : list Z :=
  match l with b :: l' => if b =? 0 then strip_zeros l' else l | [] => [] end.
Definition big_Bytes (z : Z) : list Z := strip_zeros (to_bytes 17 z).

Definition ipToInt (ip : list Z) : Z := if decide (To4 ip = []) then be (To16 ip) else be (To4 ip).
Definition intToIP (i : Z) : list Z := big_Bytes i.

(** [end = append(end, subnet.IP[i]|^subnet.Mask[i])] for each byte, then
    [end[3]--] for IPv4; bytes are [uint8]. *)
Definition lastIP (subnet : IPNet) : list Z :=
  let stop := zip_with (λ b m, Z.lor b (Z.lxor m 255)) (IPNet_IP subnet) (IPNet_Mask subnet) in
  if decide (To4 (IPNet_IP subnet) = []) then stop
  else alter (λ b, (b - 1) mod 256) 3%nat stop.

Definition nextIP (ip : list Z) : list Z := intToIP (ipToInt ip + 1).

Definition capacity (a b : list Z) : Z := int64 (big_Int64 (ipToInt b - ipToInt a) + 1).

Definition CalculateCapacity (ar : AddressRange) : Z :=
  match ParseCIDR (ar_CIDR ar) with
  | None => MaxInt64
  | Some (_, cidr) =>
      let start := if nonempty (ar_Start ar) then ParseIP (ar_Start ar) else [] in
      let start := if decide (start = []) then nextIP (IPNet_IP cidr) else start in
      let stop := if nonempty (ar_End ar) then ParseIP (ar_End ar) else [] in
      let stop := if decide (stop = []) then lastIP cidr else stop in
      int64 (capacity start stop - Z.of_nat (length (ar_ExcludeIPs ar)))
  end.

Definition IsAvailable (statistics : option Count) : bool :=
  match statistics with
  | None => false
  | Some c => 0 <? ct_Available c
  end.
