(* ===== verification/MulticlusterV1.v ===== *)
(** * The API objects of multicluster (pkg/apis/multicluster/v1) *)

From S2P Require Import Prelude NetworkingV1.

Definition ClusterReady : string := "Ready".
Definition ClusterNotReady : string := "NotReady".
Definition ClusterOffline : string := "Offline".
Definition ClusterUnknown : string := "Unknown".

Record VTEPInfo := mkVTEPInfo { vtep_IP : string; vtep_MAC : string }.

Record RemoteClusterSpec := mkRemoteClusterSpec {
  rc_APIEndpoint : string; rc_CAData : list Z; rc_CertData : list Z; rc_KeyData : list Z; rc_Timeout : Z
}.
(** [metav1.Condition] without the observed generation. *)
Record Condition := mkCondition {
  cd_Type : string; cd_Status : string; cd_LastTransitionTime : Z; cd_Reason : string; cd_Message : string
}.

Definition ConditionTrue : string := "True".
Definition ConditionFalse : string := "False".

Record RemoteClusterStatus := mkRemoteClusterStatus {
  rc_UUID : string; rc_State : string; rc_Conditions : list Condition
}.
Record RemoteCluster := mkRemoteCluster {
  rc_Meta : ObjectMeta; rc_Spec : RemoteClusterSpec; rc_Status : RemoteClusterStatus
}.

Record RemoteSubnetSpec := mkRemoteSubnetSpec {
  rs_Range : AddressRange; rs_Type : string; rs_ClusterName : string
}.
(** Of the status there is the time of the last change, none at first. *)
Record RemoteSubnet := mkRemoteSubnet {
  rs_Meta : ObjectMeta; rs_Spec : RemoteSubnetSpec; rs_LastModifyTime : option Z
}.

Record RemoteVtepSpec := mkRemoteVtepSpec {
  rv_ClusterName : string; rv_NodeName : string; rv_VTEPInfo : VTEPInfo; rv_EndpointIPList : list string
}.
Record RemoteVtep := mkRemoteVtep {
  rv_Meta : ObjectMeta; rv_Spec : RemoteVtepSpec; rv_LastModifyTime : option Z
}.

Definition GetRemoteSubnetType (remoteSubnetObj : option RemoteSubnet) : string :=
  match remoteSubnetObj with
  | None => NetworkTypeUnderlay
  | Some r => if nonempty (rs_Type (rs_Spec r)) then rs_Type (rs_Spec r) else NetworkTypeUnderlay
  end.
