(* ===== verification/Kubernetes.v ===== *)
(** * Kubernetes objects and the libraries of Kubernetes

    The parts of pods, nodes and namespaces (k8s.io/api/core/v1) that the code
    reads, and the small functions of k8s.io/apimachinery and
    controller-runtime it calls: they are not part of the repository, so they
    are the operations of the class [ApiMachinery], a parameter of the
    definitions that use them; [ApiMachineryLaws] states what their
    documentation promises.  The settings of a process (feature gates,
    environment variables, flags), which do not change while it runs, are the
    class [Settings]. *)

From S2P Require Import Prelude GoNet NetworkingV1.

Record Toleration := mkToleration {
  to_Key : string; to_Operator : string; to_Value : string; to_Effect : string
}.

Record Pod := mkPod {
  pod_Meta : ObjectMeta;
  pod_NodeName : string;
  pod_HostNetwork : bool;
  pod_NodeSelector : option (gmap string string);
  pod_Tolerations : list Toleration;
  pod_Containers : list string;
  pod_Phase : string;
  pod_Reason : string;
  pod_ContainerStatuses : list string
}.

(** Of the status there are the texts of the addresses. *)
Record Node := mkNode { node_Meta : ObjectMeta; node_Addresses : list string }.
Record Namespace := mkNamespace { nsp_Meta : ObjectMeta }.

Definition PodSucceeded : string := "Succeeded".
Definition PodFailed : string := "Failed".

#[export] Instance Toleration_eq_dec : EqDecision Toleration.
Proof. solve_decision. Defined.

(** [pod.Annotations[key]]: the empty string when the key is absent. *)
Definition annotation (m : ObjectMeta) (key : string) : string := default "" (om_Annotations m !! key).
Definition label (m : ObjectMeta) (key : string) : string := default "" (om_Labels m !! key).

Definition pod_Name (p : Pod) : string := om_Name (pod_Meta p).
Definition pod_Namespace (p : Pod) : string := om_Namespace (pod_Meta p).

Definition om_set_Annotations (v : gmap string string) (m : ObjectMeta) : ObjectMeta :=
  mkObjectMeta (om_Name m) (om_Namespace m) (om_UID m) (om_Labels m) v (om_Finalizers m)
    (om_OwnerReferences m) (om_DeletionTimestamp m).
Definition om_set_Labels (v : gmap string string) (m : ObjectMeta) : ObjectMeta :=
  mkObjectMeta (om_Name m) (om_Namespace m) (om_UID m) v (om_Annotations m) (om_Finalizers m)
    (om_OwnerReferences m) (om_DeletionTimestamp m).
Definition om_set_Finalizers (v : list string) (m : ObjectMeta) : ObjectMeta :=
  mkObjectMeta (om_Name m) (om_Namespace m) (om_UID m) (om_Labels m) (om_Annotations m) v
    (om_OwnerReferences m) (om_DeletionTimestamp m).
Definition om_set_Name (namespace name : string) (m : ObjectMeta) : ObjectMeta :=
  mkObjectMeta name namespace (om_UID m) (om_Labels m) (om_Annotations m) (om_Finalizers m)
    (om_OwnerReferences m) (om_DeletionTimestamp m).
Definition om_set_DeletionTimestamp (v : option Z) (m : ObjectMeta) : ObjectMeta :=
  mkObjectMeta (om_Name m) (om_Namespace m) (om_UID m) (om_Labels m) (om_Annotations m) (om_Finalizers m)
    (om_OwnerReferences m) v.

Definition pod_set_Meta (v : ObjectMeta) (p : Pod) : Pod :=
  mkPod v (pod_NodeName p) (pod_HostNetwork p) (pod_NodeSelector p) (pod_Tolerations p)
    (pod_Containers p) (pod_Phase p) (pod_Reason p) (pod_ContainerStatuses p).
Definition pod_set_NodeSelector (v : option (gmap string string)) (p : Pod) : Pod :=
  mkPod (pod_Meta p) (pod_NodeName p) (pod_HostNetwork p) v (pod_Tolerations p)
    (pod_Containers p) (pod_Phase p) (pod_Reason p) (pod_ContainerStatuses p).
Definition pod_set_Tolerations (v : list Toleration) (p : Pod) : Pod :=
  mkPod (pod_Meta p) (pod_NodeName p) (pod_HostNetwork p) (pod_NodeSelector p) v
    (pod_Containers p) (pod_Phase p) (pod_Reason p) (pod_ContainerStatuses p).

(** ** k8s.io/apimachinery, controllerutil *)

Class ApiMachinery : Type := {
  GetControllerOf : ObjectMeta → option OwnerReference;
  HasAnnotation : ObjectMeta → string → bool;
  IsNotFound : error → bool;
  ContainsFinalizer : ObjectMeta → string → bool;
  AddFinalizer : ObjectMeta → string → ObjectMeta;
  RemoveFinalizer : ObjectMeta → string → ObjectMeta;
  (** [labels.SelectorFromSet(selector).Matches(labels)] *)
  SelectorMatches : gmap string string → gmap string string → bool
}.

Class ApiMachineryLaws (A : ApiMachinery) : Prop := {
  GetControllerOf_law m r : GetControllerOf m = Some r →
    r ∈ om_OwnerReferences m ∧ or_Controller r = Some true;
  HasAnnotation_law m k : HasAnnotation m k = bool_decide (is_Some (om_Annotations m !! k));
  IsNotFound_law r : IsNotFound (StatusError r) = bool_decide (r = StatusReasonNotFound);
  ContainsFinalizer_law m f : ContainsFinalizer m f = bool_decide (f ∈ om_Finalizers m);
  AddFinalizer_law m f : f ∉ om_Finalizers m → AddFinalizer m f = om_set_Finalizers (om_Finalizers m ++ [f]) m;
  RemoveFinalizer_law m f : RemoveFinalizer m f = om_set_Finalizers (filter (.≠ f) (om_Finalizers m)) m;
  SelectorMatches_law sel ls : SelectorMatches sel ls = bool_decide (sel ⊆ ls)
}.

(** [client.IgnoreNotFound] *)
Definition IgnoreNotFound `{ApiMachinery} {A} (d : A) (o : outcome A) : outcome A :=
  match o with Fail e => if IsNotFound e then Ret d else Fail e | o => o end.

(** A concrete reading, which shows that the laws can hold. *)
Definition api_concrete : ApiMachinery := {|
  GetControllerOf m := snd <$> list_find (λ r, or_Controller r = Some true) (om_OwnerReferences m);
  HasAnnotation m k := bool_decide (is_Some (om_Annotations m !! k));
  IsNotFound e := match e with StatusError r => bool_decide (r = StatusReasonNotFound) | _ => false end;
  ContainsFinalizer m f := bool_decide (f ∈ om_Finalizers m);
  AddFinalizer m f := if decide (f ∈ om_Finalizers m) then m else om_set_Finalizers (om_Finalizers m ++ [f]) m;
  RemoveFinalizer m f := om_set_Finalizers (filter (.≠ f) (om_Finalizers m)) m;
  SelectorMatches sel ls := bool_decide (sel ⊆ ls)
|}.

Lemma api_concrete_laws : ApiMachineryLaws api_concrete.
Proof.
  split; try done.
  - cbn. intros m r Hr. apply fmap_Some in Hr as ([i r'] & Hf & ->).
    apply list_find_Some in Hf as (Hl & Hc & _). split; [|done]. by eapply list_elem_of_lookup_2.
  - cbn. intros m f Hf. by rewrite decide_False.
Qed.

(** ** Settings of the process *)

Class Settings : Type := {
  DualStackEnabled : bool;
  MultiClusterEnabled : bool;
  DEFAULT_IP_FAMILY : string;
  DEFAULT_NETWORK_TYPE : string;
  DefaultIPRetain : bool;
  StatefulWorkloadKinds : list string
}.
