(* ===== verification/Config.v ===== *)
(** * Families, network types, owners (pkg/ipam/types/constants.go,
    pkg/ipam/strategy, pkg/controllers/utils/pod.go)

    The environment is read once ([sync.Once]) and does not change: the two
    variables are fields of [Settings]. *)

From S2P Require Import Prelude GoNet GoStrings NetworkingV1 Kubernetes.

(** ** constants.go *)

Definition IPv4Only : string := "IPv4Only".
Definition IPv6Only : string := "IPv6Only".
Definition DualStack : string := "DualStack".
Definition IPv4OnlyAlias : string := "IPv4".
Definition IPv6OnlyAlias : string := "IPv6".
Definition Underlay : string := "Underlay".
Definition Overlay : string := "Overlay".

Section constants.
Context `{Settings}.

Definition ParseIPFamilyFromEnv : string :=
  let l := ToLower DEFAULT_IP_FAMILY in
  if decide (l = ToLower IPv4Only ∨ l = ToLower IPv4OnlyAlias ∨ l = "") then IPv4Only
  else if decide (l = ToLower IPv6Only ∨ l = ToLower IPv6OnlyAlias) then IPv6Only
  else if decide (l = ToLower DualStack) then DualStack
  else DEFAULT_IP_FAMILY.

Definition ParseIPFamilyFromEnvOnce : string := ParseIPFamilyFromEnv.

Definition ParseIPFamilyFromString (inp : string) : string :=
  if negb DualStackEnabled then IPv4Only
  else
    let l := ToLower inp in
    if decide (l = "") then ParseIPFamilyFromEnvOnce
    else if decide (l = ToLower IPv4Only ∨ l = ToLower IPv4OnlyAlias) then IPv4Only
    else if decide (l = ToLower IPv6Only ∨ l = ToLower IPv6OnlyAlias) then IPv6Only
    else if decide (l = ToLower DualStack) then DualStack
    else IPv4Only.

Definition ParseNetworkTypeFromEnv : string :=
  let l := ToLower DEFAULT_NETWORK_TYPE in
  if decide (l = ToLower Underlay ∨ l = "") then Underlay
  else if decide (l = ToLower Overlay) then Overlay
  else DEFAULT_NETWORK_TYPE.

Definition ParseNetworkTypeFromEnvOnce : string := ParseNetworkTypeFromEnv.

Definition ParseNetworkTypeFromString (inp : string) : string :=
  let l := ToLower inp in
  if decide (l = ToLower Underlay) then Underlay
  else if decide (l = ToLower Overlay) then Overlay
  else if decide (l = "") then ParseNetworkTypeFromEnvOnce
  else inp.

(** ** strategy.go *)

Definition OwnByStatefulWorkload `{ApiMachinery} (pod : Pod) : bool :=
  match GetControllerOf (pod_Meta pod) with
  | None => false
  | Some ref => bool_decide (or_Kind ref ∈ StatefulWorkloadKinds)
  end.

Definition GetKnownOwnReference `{ApiMachinery} (pod : Pod) : option OwnerReference :=
  if OwnByStatefulWorkload pod then GetControllerOf (pod_Meta pod) else None.
End constants.

(** ** pod.go *)

Definition PodIsEvicted (pod : Pod) : bool :=
  bool_decide (pod_Phase pod = PodFailed) && bool_decide (pod_Reason pod = "Evicted").

Definition PodIsCompleted (pod : Pod) : bool :=
  let unknownContainerCount :=
    length (filter (λ name, ¬ (name ∈ pod_ContainerStatuses pod)) (pod_Containers pod)) in
  bool_decide (pod_Phase pod = PodSucceeded) && (unknownContainerCount =? 0)%nat.
