(* ===== verification/Utils.v ===== *)
(** * Helpers (pkg/utils: ip.go, slice.go, string.go, bool.go)

    [Intersect] uses the string set of github.com/gogf/gf, which is not part of
    the repository: the class [StrSets] has its operations and [StrSetsLaws]
    the behaviour of a set. *)

From S2P Require Import Prelude GoNet CNIPlugins NetworkingV1.
From stdpp Require Import sorting.
Local Open Scope Z_scope.

(** ** bool.go, string.go *)

(** [strconv.ParseBool] *)
Definition ParseBool (s : string) : option bool :=
  if decide (s ∈ ["1"; "t"; "T"; "TRUE"; "true"; "True"]) then Some true
  else if decide (s ∈ ["0"; "f"; "F"; "FALSE"; "false"; "False"]) then Some false
  else None.

Definition ParseBoolOrDefault (inp : string) (defaultValue : bool) : bool :=
  match ParseBool inp with Some ret => ret | None => defaultValue end.

Fixpoint PickFirstNonEmptyString (ss : list string) : string :=
  match ss with
  | [] => ""
  | s :: ss => if nonempty s then s else PickFirstNonEmptyString ss
  end.

(** ** slice.go *)

Definition StringSliceToMap (inp : list string) : gset string :=
  foldl (λ out key, {[key]} ∪ out) ∅ inp.

(** [sort.Strings] sorts in the lexicographic order of the bytes. *)
Definition sort_Strings (l : list string) : list string := merge_sort String.le l.

Fixpoint equal_elements (a b : list string) : bool :=
  match a, b with
  | x :: a, y :: b => if decide (x = y) then equal_elements a b else false
  | _, _ => true
  end.

Definition DeepEqualStringSlice (a b : list string) : bool :=
  if negb (bool_decide (length a = length b)) then false
  else equal_elements (sort_Strings a) (sort_Strings b).

Definition DeepCopyStringSlice (inp : list string) : list string := [] ++ inp.

(** ** ip.go *)

(** The error of [ParseCIDR] is dropped: a text that is not a CIDR is a nil
    dereference. *)
Definition StringToIPNet (inp : string) : outcome IPNet :=
  match ParseCIDR inp with
  | Some (ip, cidr) => Ret (mkIPNet ip (IPNet_Mask cidr))
  | None => Panic
  end.

Definition NormalizedIP (ip : string) : string :=
  if decide (ParseIP ip = []) then "" else ip.

(** The last address of a network, without the broadcast address for IPv4. *)
Definition LastIP (subnet : IPNet) : list Z :=
  let stop := zip_with (λ b m, Z.lor b (Z.lxor m 255)) (IPNet_IP subnet) (IPNet_Mask subnet) in
  if decide (To4 (IPNet_IP subnet) = []) then stop
  else alter (λ b, (b - 1) mod 256) 3%nat stop.

(** github.com/gogf/gf/container/gset *)
Class StrSets : Type := {
  StrSet : Type;
  NewStrSet : StrSet;
  NewStrSetFrom : list string → StrSet;
  StrSet_Add : StrSet → string → StrSet;
  StrSet_Contains : StrSet → string → bool
}.

Class StrSetsLaws (T : StrSets) : Prop := {
  StrSet_Contains_new x : StrSet_Contains NewStrSet x = false;
  StrSet_Contains_from l x : StrSet_Contains (NewStrSetFrom l) x = bool_decide (x ∈ l);
  StrSet_Contains_add s y x : StrSet_Contains (StrSet_Add s y) x = bool_decide (x = y) || StrSet_Contains s x
}.

Definition strsets_concrete : StrSets := {|
  StrSet := gset string; NewStrSet := ∅; NewStrSetFrom := list_to_set;
  StrSet_Add s x := {[x]} ∪ s; StrSet_Contains s x := bool_decide (x ∈ s)
|}.

Lemma strsets_concrete_laws : StrSetsLaws strsets_concrete.
Proof.
  split; cbn; intros.
  - by apply bool_decide_eq_false.
  - apply bool_decide_ext. by rewrite elem_of_list_to_set.
  - rewrite <-bool_decide_or. apply bool_decide_ext. by rewrite elem_of_union, elem_of_singleton.
Qed.

Section intersect.
Context `{CNIPlugins} `{StrSets}.

(** The second loop of [Intersect], which returns as soon as it meets an
    address of the first range. *)
Fixpoint intersect_loop (fuel : nat) (i endB : list Z) (excludedB rangeASet : StrSet) : outcome bool :=
  match fuel with
  | O => Diverge
  | S fuel =>
      if Cmp i endB <=? 0 then
        if StrSet_Contains excludedB (IP_String i)
        then intersect_loop fuel (NextIP i) endB excludedB rangeASet
        else if StrSet_Contains rangeASet (IP_String i) then Ret true
        else intersect_loop fuel (NextIP i) endB excludedB rangeASet
      else Ret false
  end.

Definition Intersect (rangeA rangeB : AddressRange) : outcome bool :=
  if negb (bool_decide (ar_Version rangeA = ar_Version rangeB)) then Ret false
  else match ParseCIDR (ar_CIDR rangeA), ParseCIDR (ar_CIDR rangeB) with
  | Some (_, netA), Some (_, netB) =>
      if negb (IPNet_Contains netA (IPNet_IP netB)) && negb (IPNet_Contains netB (IPNet_IP netA))
      then Ret false
      else
        let startA := ParseIP (ar_Start rangeA) in
        let endA := ParseIP (ar_End rangeA) in
        let excludedIPSetA := NewStrSetFrom (ar_ExcludeIPs rangeA) in
        let startB := ParseIP (ar_Start rangeB) in
        let endB := ParseIP (ar_End rangeB) in
        let excludedIPSetB := NewStrSetFrom (ar_ExcludeIPs rangeB) in
        let startA := if bool_decide (startA = []) then NextIP (IPNet_IP netA) else startA in
        let startB := if bool_decide (startB = []) then NextIP (IPNet_IP netB) else startB in
        let endA := if bool_decide (endA = []) then LastIP netA else endA in
        let endB := if bool_decide (endB = []) then LastIP netB else endB in
        match ip_range (range_fuel startA endA) startA endA with
        | None => Diverge
        | Some l =>
            let rangeASet := foldl (λ set i, if StrSet_Contains excludedIPSetA (IP_String i) then set
                                             else StrSet_Add set (IP_String i)) NewStrSet l in
            intersect_loop (range_fuel startB endB) startB endB excludedIPSetB rangeASet
        end
  | _, _ => Panic
  end.
End intersect.

(** ** Lemmas *)

Lemma StringSliceToMap_spec l : StringSliceToMap l = list_to_set l.
Proof.
  unfold StringSliceToMap. enough (∀ s : gset string, foldl (λ out key, {[key]} ∪ out) s l = s ∪ list_to_set l) as ->.
  { set_solver. }
  induction l as [|x l IH]; intros s; simpl; [set_solver|]. rewrite IH. set_solver.
Qed.

Lemma equal_elements_spec a b : length a = length b → equal_elements a b = true ↔ a = b.
Proof.
  revert b. induction a as [|x a IH]; intros [|y b] Hlen; simpl in *; try done.
  case_decide as Hxy.
  - subst. rewrite IH by lia. split; [by intros ->|by intros [= ->]].
  - split; [done|]. by intros [= ? _].
Qed.

Lemma sort_Strings_Permutation l : sort_Strings l ≡ₚ l.
Proof. apply merge_sort_Permutation. Qed.

(** Two lists have the same sorted form when they are permutations. *)
Lemma sort_Strings_eq a b : sort_Strings a = sort_Strings b ↔ a ≡ₚ b.
Proof.
  split.
  - intros E. by rewrite <-(sort_Strings_Permutation a), E, sort_Strings_Permutation.
  - intros E. unfold sort_Strings. apply (StronglySorted_unique String.le).
    + apply (StronglySorted_merge_sort String.le).
    + apply (StronglySorted_merge_sort String.le).
    + by rewrite !merge_sort_Permutation.
Qed.

Lemma NormalizedIP_idem ip : NormalizedIP (NormalizedIP ip) = NormalizedIP ip.
Proof.
  unfold NormalizedIP. destruct (decide (ParseIP ip = [])) as [E|E]; [done|].
  by destruct (decide (ParseIP ip = [])).
Qed.
