(* ===== verification/IPAMTypes.v ===== *)
(** * IPAM data (pkg/ipam/types: types.go, ip.go, usage.go; subnet.go, the
    methods of Subnet)

    [IP], the set of used addresses [IPSet] (a map keyed by the address's
    text), the ring of allocatable addresses [IPSlice], [Usage] and [Subnet]
    with its operations.  Go [int]s are [Z], [uint32]s are [Z] with their
    wrap-around ([uint32]); the receiver of a method that changes it is
    threaded through [M].  The first part holds the definitions, the second
    the lemmas about the small types. *)

From S2P Require Import Prelude GoNet CNIPlugins NetworkingV1 Utils.
Local Open Scope Z_scope.

Definition uint32 (z : Z) : Z := z mod 2 ^ 32.

(** ** types.go *)

Definition IPStatusUsing : string := "Using".
Definition IPStatusReserved : string := "Reserved".

Record IP := mkIP {
  ip_Address : option IPNet;
  ip_Gateway : list Z;
  ip_NetID : option Z;
  ip_Subnet : string;
  ip_Network : string;
  ip_PodName : string;
  ip_PodNamespace : string;
  ip_Status : string
}.

#[export] Instance IP_eq_dec : EqDecision IP.
Proof. solve_decision. Defined.

Abbreviation IPSet := (gmap string IP).

Record IPSlice := mkIPSlice { sl_IPs : list string; sl_IPCount : Z; sl_IPIndex : Z }.

Record Usage := mkUsage {
  us_Total : Z; us_Used : Z; us_Available : Z; us_LastAllocation : string
}.

(** The spec fields are set by [NewSubnet] and completed by [Canonicalize];
    the last three, the status fields, by [Sync].  Before [Sync] the code's
    [AvailableIPs] and [UsingIPs] are nil; nothing reads them then, since a
    subnet is stored only after [Sync] ([SubnetSlice.AddSubnet]). *)
Record Subnet := mkSubnet {
  sn_Name : string;
  sn_ParentNetwork : string;
  sn_NetID : option Z;
  sn_Start : list Z;
  sn_End : list Z;
  sn_CIDR : option IPNet;
  sn_Gateway : list Z;
  sn_ReservedList : gset string;
  sn_BlackList : gset string;
  sn_LastAllocatedIP : list Z;
  sn_Private : bool;
  sn_IPv6 : bool;
  sn_AvailableIPs : IPSlice;
  sn_UsingIPs : IPSet;
  sn_ReservedIPCount : Z
}.

(** ** ip.go *)

Definition NewIPSet : IPSet := ∅.
Definition IPSet_Has (s : IPSet) (ip : string) : bool := bool_decide (is_Some (s !! ip)).
Definition IPSet_Add (s : IPSet) (ip : string) (content : IP) : IPSet := <[ip := content]> s.

Definition ip_set_PodName (v : string) (c : IP) : IP :=
  mkIP (ip_Address c) (ip_Gateway c) (ip_NetID c) (ip_Subnet c) (ip_Network c) v (ip_PodNamespace c) (ip_Status c).
Definition ip_set_PodNamespace (v : string) (c : IP) : IP :=
  mkIP (ip_Address c) (ip_Gateway c) (ip_NetID c) (ip_Subnet c) (ip_Network c) (ip_PodName c) v (ip_Status c).
Definition ip_set_Status (v : string) (c : IP) : IP :=
  mkIP (ip_Address c) (ip_Gateway c) (ip_NetID c) (ip_Subnet c) (ip_Network c) (ip_PodName c) (ip_PodNamespace c) v.

Definition IPSet_Update (s : IPSet) (ip podName podNamespace status : string) : IPSet :=
  if negb (IPSet_Has s ip) then s
  else
    let s := if nonempty podName then alter (ip_set_PodName podName) ip s else s in
    let s := if nonempty podNamespace then alter (ip_set_PodNamespace podNamespace) ip s else s in
    if nonempty status then alter (ip_set_Status status) ip s else s.

Definition IPSet_Delete (s : IPSet) (ip : string) : IPSet := delete ip s.
Definition IPSet_Get (s : IPSet) (ip : string) : option IP := s !! ip.
Definition IPSet_Count (s : IPSet) : Z := Z.of_nat (size s).

Definition NewIPSlice : IPSlice := mkIPSlice [] 0 (-1).

Definition IPSlice_Add (s : IPSlice) (ip : string) (isDefault : bool) : IPSlice :=
  let IPs := sl_IPs s ++ [ip] in
  let IPCount := Z.of_nat (length IPs) in
  mkIPSlice IPs IPCount (if isDefault then IPCount - 1 else sl_IPIndex s).

Definition IPSlice_Count (s : IPSlice) : Z := sl_IPCount s.

(** [s.IPs[i]]: out of range, also below zero, is a panic. *)
Definition index {A} (l : list A) (i : Z) : outcome A :=
  if i <? 0 then Panic
  else match l !! Z.to_nat i with Some x => Ret x | None => Panic end.

(** The remainder by zero is a panic; Go's [%] truncates. *)
Definition IPSlice_Next : M IPSlice string := λ s,
  if sl_IPCount s =? 0 then (Panic, s)
  else
    let s := mkIPSlice (sl_IPs s) (sl_IPCount s) (Z.rem (sl_IPIndex s + 1) (sl_IPCount s)) in
    (index (sl_IPs s) (sl_IPIndex s), s).

Definition IPSlice_Current (s : IPSlice) : outcome string :=
  if sl_IPIndex s <? 0 then Ret "" else index (sl_IPs s) (sl_IPIndex s).

Definition IP_IsIPv6 (i : IP) : bool :=
  match ip_Address i with
  | None => false
  | Some a => if decide (IPNet_IP a = []) then false else bool_decide (To4 (IPNet_IP a) = [])
  end.

(** ** usage.go *)

Definition Usage_zero : Usage := mkUsage 0 0 0 "".

Definition Usage_Add (u inp : Usage) : Usage :=
  mkUsage (uint32 (us_Total u + us_Total inp)) (uint32 (us_Used u + us_Used inp))
    (uint32 (us_Available u + us_Available inp))
    (if nonempty (us_LastAllocation u) then us_LastAllocation u else us_LastAllocation inp).

(** ** subnet.go: Subnet *)

Definition ErrNoAvailableSubnet : error := errors_New "no available subnet".
Definition ErrNotFoundSubnet : error := errors_New "subnet not found".
Definition ErrNotFoundAssignedIP : error := errors_New "assigned ip not found".
Definition ErrNotAvailableAssignedIP : error := errors_New "assigned ip is not available".

Definition NewSubnet (name network : string) (netID : option Z) (start stop gateway : list Z)
    (cidr : option IPNet) (reservedList blackList : gset string) (lastAllocated : list Z)
    (private IPv6 : bool) : Subnet :=
  mkSubnet name network netID start stop cidr gateway reservedList blackList lastAllocated
    private IPv6 NewIPSlice ∅ 0.

Definition sn_set_range (start stop : list Z) (s : Subnet) : Subnet :=
  mkSubnet (sn_Name s) (sn_ParentNetwork s) (sn_NetID s) start stop (sn_CIDR s) (sn_Gateway s)
    (sn_ReservedList s) (sn_BlackList s) (sn_LastAllocatedIP s) (sn_Private s) (sn_IPv6 s)
    (sn_AvailableIPs s) (sn_UsingIPs s) (sn_ReservedIPCount s).
Definition sn_set_NetID (v : option Z) (s : Subnet) : Subnet :=
  mkSubnet (sn_Name s) (sn_ParentNetwork s) v (sn_Start s) (sn_End s) (sn_CIDR s) (sn_Gateway s)
    (sn_ReservedList s) (sn_BlackList s) (sn_LastAllocatedIP s) (sn_Private s) (sn_IPv6 s)
    (sn_AvailableIPs s) (sn_UsingIPs s) (sn_ReservedIPCount s).
Definition sn_set_reserved (v : gset string) (n : Z) (s : Subnet) : Subnet :=
  mkSubnet (sn_Name s) (sn_ParentNetwork s) (sn_NetID s) (sn_Start s) (sn_End s) (sn_CIDR s) (sn_Gateway s)
    v (sn_BlackList s) (sn_LastAllocatedIP s) (sn_Private s) (sn_IPv6 s)
    (sn_AvailableIPs s) (sn_UsingIPs s) n.
Definition sn_set_AvailableIPs (v : IPSlice) (s : Subnet) : Subnet :=
  mkSubnet (sn_Name s) (sn_ParentNetwork s) (sn_NetID s) (sn_Start s) (sn_End s) (sn_CIDR s) (sn_Gateway s)
    (sn_ReservedList s) (sn_BlackList s) (sn_LastAllocatedIP s) (sn_Private s) (sn_IPv6 s)
    v (sn_UsingIPs s) (sn_ReservedIPCount s).
Definition sn_set_UsingIPs (v : IPSet) (s : Subnet) : Subnet :=
  mkSubnet (sn_Name s) (sn_ParentNetwork s) (sn_NetID s) (sn_Start s) (sn_End s) (sn_CIDR s) (sn_Gateway s)
    (sn_ReservedList s) (sn_BlackList s) (sn_LastAllocatedIP s) (sn_Private s) (sn_IPv6 s)
    (sn_AvailableIPs s) v (sn_ReservedIPCount s).

(** [s.CIDR], dereferenced.  A nil CIDR (the text did not parse) makes
    [Validate] panic, which runs before anything else; later uses of the
    field are on subnets whose CIDR is not nil. *)
Definition sn_cidr (s : Subnet) : IPNet := default (mkIPNet [] []) (sn_CIDR s).

Definition Subnet_IsReservedIP (s : Subnet) (ip : string) : bool := bool_decide (ip ∈ sn_ReservedList s).
Definition Subnet_IsBlackIP (s : Subnet) (ip : string) : bool := bool_decide (ip ∈ sn_BlackList s).
Definition Subnet_IsIPv6 (s : Subnet) : bool := sn_IPv6 s.

Definition unifyNetID (netID : option Z) : Z := match netID with None => 0 | Some n => n end.

(** The address built for a pod; the code writes the literal in [Sync],
    [AllocateNext] and [Assign]. *)
Definition Subnet_newIP (s : Subnet) (ip podName podNamespace status : string) : IP :=
  mkIP (Some (mkIPNet (ParseIP ip) (IPNet_Mask (sn_cidr s)))) (sn_Gateway s) (sn_NetID s)
    (sn_Name s) (sn_ParentNetwork s) podName podNamespace status.

Section subnet.
Context `{CNIPlugins}.

Definition Subnet_Validate (s : Subnet) : outcome unit :=
  return_if (negb (nonempty (sn_Name s))) (Errorf "subnet name can not be empty" []);;
  return_if (negb (nonempty (sn_ParentNetwork s))) (Errorf "subnet's partent network can not be empty" []);;
  match sn_CIDR s with
  | None => Panic
  | Some cidr =>
      return_if (bool_decide (IPNet_IP cidr = []) || bool_decide (IPNet_Mask cidr = []))
        (Errorf "CIDR is invalid" []);;
      let '(ones, masklen) := Mask_Size (IPNet_Mask cidr) in
      return_if (masklen - 2 <? ones) (Errorf "CIDR %s too small to allocate from" []);;
      return_if (negb (bool_decide (length (IPNet_IP cidr) = length (IPNet_Mask cidr))))
        (Errorf "CIDR %s IPNet IP and Mask version mismatch" []);;
      let networkIP := IP_Mask (IPNet_IP cidr) (IPNet_Mask cidr) in
      return_if (negb (IP_Equal (IPNet_IP cidr) networkIP))
        (Errorf "CIDR has host bits set because a subnet mask of length %d the network address is %s"
           [IP_String networkIP]);;
      return_if (negb (bool_decide (sn_Gateway s = [])) && negb (IPNet_Contains cidr (sn_Gateway s)))
        (Errorf "gateway %s not in CIDR %s" [IP_String (sn_Gateway s)]);;
      return_if (negb (bool_decide (sn_Start s = [])) && negb (IPNet_Contains cidr (sn_Start s)))
        (Errorf "start %s not in CIDR %s" [IP_String (sn_Start s)]);;
      return_if (negb (bool_decide (sn_End s = [])) && negb (IPNet_Contains cidr (sn_End s)))
        (Errorf "end %s not in CIDR %s" [IP_String (sn_End s)])
  end.

Definition Subnet_Canonicalize : M Subnet unit :=
  s ← get;
  lift (Subnet_Validate s);;
  let start := if bool_decide (sn_Start s = []) then NextIP (IPNet_IP (sn_cidr s)) else sn_Start s in
  let stop := if bool_decide (sn_End s = []) then LastIP (sn_cidr s) else sn_End s in
  put (sn_set_range start stop s).

Definition Subnet_Contains (s : Subnet) (addr : list Z) : bool :=
  if negb (IPNet_Contains (sn_cidr s) addr) then false
  else if negb (bool_decide (sn_Start s = [])) && (Cmp addr (sn_Start s) <? 0) then false
  else if negb (bool_decide (sn_End s = [])) && (0 <? Cmp addr (sn_End s)) then false
  else if negb (bool_decide (sn_Gateway s = [])) && IP_Equal (sn_Gateway s) addr then false
  else if Subnet_IsBlackIP s (IP_String addr) then false
  else true.

(** The loop of [Sync] over the addresses from Start to End. *)
Definition sync_step (s : Subnet) (sl : IPSlice) (i : list Z) : IPSlice :=
  if negb (Subnet_Contains s i) then sl
  else if Subnet_IsReservedIP s (IP_String i) then sl
  else IPSlice_Add sl (IP_String i) (IP_Equal i (sn_LastAllocatedIP s)).

(** The loop of [Sync] that marks the reserved addresses as used. *)
Definition sync_reserve (s : Subnet) (rip : string) (usingIPs : IPSet) : IPSet :=
  if IPSet_Has usingIPs rip then usingIPs
  else IPSet_Add usingIPs rip (Subnet_newIP s rip "" "" IPStatusReserved).

(** An address of the set belongs to the subnet; the dereference of a nil
    [content.Address] is a panic. *)
Definition sync_keeps (s : Subnet) (content : IP) : Prop :=
  ip_Subnet content = sn_Name s ∧
  Subnet_Contains s (match ip_Address content with Some a => IPNet_IP a | None => [] end) = true.

Definition Subnet_Sync (parentNetID : option Z) (ipSet : IPSet) : M Subnet unit :=
  (* generate valid netID, inherit from parent if NetID is null *)
  modify (λ s, match sn_NetID s with None => sn_set_NetID parentNetID s | Some _ => s end);;
  (* filter reserved list *)
  modify (λ s, let filtered := filter (λ rip, Subnet_Contains s (ParseIP rip) = true) (sn_ReservedList s) in
               sn_set_reserved filtered (Z.of_nat (size filtered)) s);;
  (* generate valid Using IP Set *)
  s ← get;
  (if decide (map_Exists (λ _ c, ip_Subnet c = sn_Name s ∧ ip_Address c = None) ipSet) then panic
   else put (sn_set_UsingIPs (filter (λ kv, sync_keeps s kv.2) ipSet) s));;
  (* pre-assign reserved ip *)
  modify (λ s, sn_set_UsingIPs (foldr (sync_reserve s) (sn_UsingIPs s) (elements (sn_ReservedList s))) s);;
  (* generate valid Available IP Slice *)
  s ← get;
  match ip_range (range_fuel (sn_Start s) (sn_End s)) (sn_Start s) (sn_End s) with
  | None => lift Diverge
  | Some l => put (sn_set_AvailableIPs (foldl (sync_step s) NewIPSlice l) s)
  end.

Definition Subnet_Overlap (s s1 : Subnet) : bool :=
  if negb (Bool.eqb (Subnet_IsIPv6 s) (Subnet_IsIPv6 s1)) then false
  else Subnet_Contains s (sn_Start s1) || Subnet_Contains s (sn_End s1)
       || Subnet_Contains s1 (sn_Start s) || Subnet_Contains s1 (sn_End s).

(** UsingIPCount counts the used addresses without the reserved ones. *)
Definition Subnet_UsingIPCount (s : Subnet) : Z := IPSet_Count (sn_UsingIPs s) - sn_ReservedIPCount s.

Definition Subnet_IsAvailable (s : Subnet) : bool :=
  (Subnet_UsingIPCount s <? IPSlice_Count (sn_AvailableIPs s)) && negb (sn_Private s).

Definition Subnet_Usage (s : Subnet) : outcome Usage :=
  last ← IPSlice_Current (sn_AvailableIPs s);
  Ret (mkUsage (uint32 (IPSlice_Count (sn_AvailableIPs s)))
         (uint32 (Subnet_UsingIPCount s))
         (uint32 (IPSlice_Count (sn_AvailableIPs s) - Subnet_UsingIPCount s)) last).

(** [AllocateNext] returns a nil address when it finds none.  The loop runs
    [Count] times; [k] is the number of iterations left. *)
Definition on_AvailableIPs {A} (m : M IPSlice A) : M Subnet A :=
  zoom (λ s, Some (sn_AvailableIPs s)) sn_set_AvailableIPs m.

Fixpoint allocate_loop (k : nat) (podName podNamespace : string) : M Subnet (option IP) :=
  match k with
  | O => mret None
  | S k =>
      ipCandidate ← on_AvailableIPs IPSlice_Next;
      s ← get;
      if IPSet_Has (sn_UsingIPs s) ipCandidate then allocate_loop k podName podNamespace
      else
        let availableIP := Subnet_newIP s ipCandidate podName podNamespace IPStatusUsing in
        put (sn_set_UsingIPs (IPSet_Add (sn_UsingIPs s) ipCandidate availableIP) s);;
        mret (Some availableIP)
  end.

Definition Subnet_AllocateNext (podName podNamespace : string) : M Subnet (option IP) :=
  s ← get;
  allocate_loop (Z.to_nat (IPSlice_Count (sn_AvailableIPs s))) podName podNamespace.

Definition Subnet_Release (ip : string) : M Subnet unit :=
  modify (λ s, if Subnet_IsReservedIP s ip
               then sn_set_UsingIPs (IPSet_Update (sn_UsingIPs s) ip "" "" IPStatusReserved) s
               else sn_set_UsingIPs (IPSet_Delete (sn_UsingIPs s) ip) s).

Definition Subnet_Assign (podName podNamespace ip : string) (forced : bool) : M Subnet (option IP) :=
  s ← get;
  if negb (Subnet_Contains s (ParseIP ip)) then fail ErrNotFoundAssignedIP
  else
    let update := sn_set_UsingIPs (IPSet_Update (sn_UsingIPs s) ip podName podNamespace IPStatusUsing) s in
    (match IPSet_Get (sn_UsingIPs s) ip with
     | None =>
         put (sn_set_UsingIPs (IPSet_Add (sn_UsingIPs s) ip
                (Subnet_newIP s ip podName podNamespace IPStatusUsing)) s)
     | Some c =>
         if decide (ip_PodNamespace c = podNamespace ∧ ip_PodName c = podName) then put update
         else if forced && bool_decide (ip_Status c = IPStatusReserved) then put update
         else fail ErrNotAvailableAssignedIP
     end);;
    s ← get;
    mret (IPSet_Get (sn_UsingIPs s) ip).
End subnet.
