(* ===== verification/IPAMSubnet.v ===== *)
(** * Correctness of a subnet (pkg/ipam/types/subnet.go, ip.go)

    The invariant [subnet_ok] of a synchronised subnet, that [Sync]
    establishes it and that every operation preserves it; what [AllocateNext],
    [Assign] and [Release] do on every branch; the accounting of [Usage]. *)

From S2P Require Import Prelude GoNet CNIPlugins NetworkingV1 Utils IPAMTypes.
Local Open Scope Z_scope.

(** ** The ring of allocatable addresses *)

Definition slice_ok (sl : IPSlice) : Prop :=
  sl_IPCount sl = Z.of_nat (length (sl_IPs sl)) ∧ -1 ≤ sl_IPIndex sl < Z.of_nat (length (sl_IPs sl)).

(** The [k] addresses that follow position [i] on the ring. *)
Fixpoint ring (l : list string) (i : Z) (k : nat) : list string :=
  match k with
  | O => []
  | S k => let i := (i + 1) mod Z.of_nat (length l) in
           match l !! Z.to_nat i with
           | Some x => x :: ring l i k
           | None => []
           end
  end.

Lemma ring_pos_lookup (l : list string) i :
  l ≠ [] → is_Some (l !! Z.to_nat (i mod Z.of_nat (length l))).
Proof.
  intros Hl. assert (0 < Z.of_nat (length l)) by (destruct l; [done|simpl; lia]).
  apply lookup_lt_is_Some. pose proof (Z.mod_pos_bound i (Z.of_nat (length l))). lia.
Qed.

Lemma ring_lookup l i k j :
  l ≠ [] → (j < k)%nat →
  ring l i k !! j = l !! Z.to_nat ((i + 1 + Z.of_nat j) mod Z.of_nat (length l)).
Proof.
  intros Hl. revert i j. induction k as [|k IH]; intros i j Hj; [lia|]. cbn [ring].
  destruct (ring_pos_lookup l (i + 1) Hl) as [x Hx]. rewrite Hx. destruct j as [|j].
  - by rewrite Z.add_0_r, Hx.
  - simpl. rewrite IH by lia. do 2 f_equal.
    rewrite <-Z.add_assoc, Zplus_mod_idemp_l. f_equal. lia.
Qed.

Lemma ring_length l i k : l ≠ [] → length (ring l i k) = k.
Proof.
  intros Hl. revert i. induction k as [|k IH]; intros i; [done|]. cbn [ring].
  destruct (ring_pos_lookup l (i + 1) Hl) as [x ->]. simpl. by rewrite IH.
Qed.

(** A full turn visits every address. *)
Lemma ring_elem_of l i x : x ∈ ring l i (length l) ↔ x ∈ l.
Proof.
  destruct (decide (l = [])) as [->|Hl]; [done|].
  assert (0 < Z.of_nat (length l)) as Hn by (destruct l; [done|simpl; lia]).
  rewrite !list_elem_of_lookup. split.
  - intros [j Hj]. pose proof (lookup_lt_Some _ _ _ Hj) as Hlt. rewrite ring_length in Hlt by done.
    rewrite ring_lookup in Hj by done. eauto.
  - intros [m Hm]. pose proof (lookup_lt_Some _ _ _ Hm) as Hlt.
    exists (Z.to_nat ((Z.of_nat m - (i + 1)) mod Z.of_nat (length l))).
    pose proof (Z.mod_pos_bound (Z.of_nat m - (i + 1)) (Z.of_nat (length l)) Hn).
    rewrite ring_lookup by (done || lia). rewrite <-Hm. f_equal.
    rewrite Z2Nat.id by lia. rewrite Zplus_mod_idemp_r.
    replace (i + 1 + (Z.of_nat m - (i + 1))) with (Z.of_nat m) by lia.
    rewrite Z.mod_small by lia. lia.
Qed.

Lemma slice_ok_new : slice_ok NewIPSlice.
Proof. split; simpl; lia. Qed.

Lemma slice_ok_add sl ip d : slice_ok sl → slice_ok (IPSlice_Add sl ip d).
Proof.
  intros [Hc Hi]. unfold slice_ok, IPSlice_Add. simpl. rewrite length_app. simpl.
  split; [done|]. destruct d; lia.
Qed.

Lemma index_lookup {A} (l : list A) i x : 0 ≤ i → l !! Z.to_nat i = Some x → index l i = Ret x.
Proof. intros Hi Hx. unfold index. rewrite (proj2 (Z.ltb_ge i 0)) by lia. by rewrite Hx. Qed.

Lemma IPSlice_Next_spec sl :
  slice_ok sl → sl_IPs sl ≠ [] →
  let i := (sl_IPIndex sl + 1) mod Z.of_nat (length (sl_IPs sl)) in
  ∃ x, sl_IPs sl !! Z.to_nat i = Some x ∧
       IPSlice_Next sl = (Ret x, mkIPSlice (sl_IPs sl) (sl_IPCount sl) i) ∧
       slice_ok (mkIPSlice (sl_IPs sl) (sl_IPCount sl) i).
Proof.
  intros [Hc Hi] Hne. cbv zeta.
  assert (0 < Z.of_nat (length (sl_IPs sl))) as Hn by (destruct (sl_IPs sl); [done|simpl; lia]).
  destruct (ring_pos_lookup (sl_IPs sl) (sl_IPIndex sl + 1) Hne) as [x Hx].
  exists x. split; [done|]. unfold IPSlice_Next. rewrite Hc.
  rewrite (proj2 (Z.eqb_neq _ 0)) by lia. cbn [sl_IPs sl_IPCount sl_IPIndex].
  rewrite Z.rem_mod_nonneg by lia.
  pose proof (Z.mod_pos_bound (sl_IPIndex sl + 1) (Z.of_nat (length (sl_IPs sl))) Hn).
  split.
  - rewrite (index_lookup _ _ x) by (done || lia). done.
  - split; simpl; lia.
Qed.

Lemma IPSlice_Current_ret sl : slice_ok sl → ∃ x, IPSlice_Current sl = Ret x.
Proof.
  intros [Hc Hi]. unfold IPSlice_Current. destruct (Z.ltb_spec (sl_IPIndex sl) 0); [eauto|].
  destruct (lookup_lt_is_Some_2 (sl_IPs sl) (Z.to_nat (sl_IPIndex sl))) as [x Hx]; [lia|].
  exists x. by apply index_lookup.
Qed.

(** ** AllocateNext *)

(** What the loop does, as a search on the ring: the first address after the
    cursor that is not used, if any. *)
Definition first_free (used : IPSet) (cands : list string) : option (nat * string) :=
  list_find (λ x, used !! x = None) cands.

(** The cursor after [k] steps. *)
Definition advance (sl : IPSlice) (k : nat) : IPSlice :=
  match k with
  | O => sl
  | S _ => mkIPSlice (sl_IPs sl) (sl_IPCount sl)
             ((sl_IPIndex sl + Z.of_nat k) mod Z.of_nat (length (sl_IPs sl)))
  end.

Lemma advance_advance sl a b : advance (advance sl a) b = advance sl (a + b).
Proof.
  destruct a as [|a]; [done|]. destruct b as [|b]; [by rewrite Nat.add_0_r|].
  unfold advance. cbn [sl_IPs sl_IPCount sl_IPIndex Nat.add]. f_equal.
  rewrite Zplus_mod_idemp_l. f_equal. lia.
Qed.

Lemma advance_IPs sl k : sl_IPs (advance sl k) = sl_IPs sl.
Proof. by destruct k. Qed.

Lemma advance_ok sl k : slice_ok sl → sl_IPs sl ≠ [] → slice_ok (advance sl k).
Proof.
  intros [Hc Hi] Hne. destruct k as [|k]; [done|].
  assert (0 < Z.of_nat (length (sl_IPs sl))) as Hn by (destruct (sl_IPs sl); [done|simpl; lia]).
  pose proof (Z.mod_pos_bound (sl_IPIndex sl + Z.of_nat (S k)) _ Hn).
  split; cbn [advance sl_IPs sl_IPCount sl_IPIndex]; lia.
Qed.

Lemma sn_set_AvailableIPs_id s : sn_set_AvailableIPs (sn_AvailableIPs s) s = s.
Proof. by destruct s. Qed.

Section allocate.
Context `{CNIPlugins}.
Implicit Types s : Subnet.

Lemma on_AvailableIPs_Next s :
  slice_ok (sn_AvailableIPs s) → sl_IPs (sn_AvailableIPs s) ≠ [] →
  ∃ x, sl_IPs (sn_AvailableIPs s) !! Z.to_nat ((sl_IPIndex (sn_AvailableIPs s) + 1) mod
           Z.of_nat (length (sl_IPs (sn_AvailableIPs s)))) = Some x ∧
       on_AvailableIPs IPSlice_Next s
       = (Ret x, sn_set_AvailableIPs (advance (sn_AvailableIPs s) 1) s) ∧
       slice_ok (advance (sn_AvailableIPs s) 1).
Proof.
  intros Hok Hne. destruct (IPSlice_Next_spec _ Hok Hne) as (x & Hx & Hrun & Hok').
  exists x. unfold on_AvailableIPs, zoom. rewrite Hrun. done.
Qed.

(** [k] turns of the loop are a search on the next [k] addresses. *)
Lemma allocate_loop_spec k pod ns s :
  slice_ok (sn_AvailableIPs s) → sl_IPs (sn_AvailableIPs s) ≠ [] →
  let sl := sn_AvailableIPs s in
  allocate_loop k pod ns s =
    match first_free (sn_UsingIPs s) (ring (sl_IPs sl) (sl_IPIndex sl) k) with
    | Some (j, x) =>
        let c := Subnet_newIP s x pod ns IPStatusUsing in
        (Ret (Some c), sn_set_UsingIPs (<[x := c]> (sn_UsingIPs s))
                         (sn_set_AvailableIPs (advance sl (S j)) s))
    | None => (Ret None, sn_set_AvailableIPs (advance sl k) s)
    end.
Proof.
  revert s. induction k as [|k IH]; intros s Hok Hne; cbv zeta; [by destruct s|].
  destruct (on_AvailableIPs_Next s Hok Hne) as (x & Hx & Hnext & Hok').
  cbn [ring]. rewrite Hx. cbn [allocate_loop]. rewrite (bind_Ret _ _ _ _ _ Hnext).
  unfold first_free. cbn [list_find].
  set (s1 := sn_set_AvailableIPs (advance (sn_AvailableIPs s) 1) s) in *.
  specialize (IH s1 Hok' Hne). cbv zeta in IH. unfold first_free in IH.
  change (sl_IPs (sn_AvailableIPs s1)) with (sl_IPs (sn_AvailableIPs s)) in IH.
  change (sl_IPIndex (sn_AvailableIPs s1)) with
    ((sl_IPIndex (sn_AvailableIPs s) + 1) mod Z.of_nat (length (sl_IPs (sn_AvailableIPs s)))) in IH.
  change (sn_UsingIPs s1) with (sn_UsingIPs s) in IH.
  unfold get at 1. unfold mbind at 1, M_bind at 1.
  change (sn_UsingIPs s1) with (sn_UsingIPs s).
  unfold IPSet_Has. destruct (sn_UsingIPs s !! x) as [c|] eqn:Hused.
  - rewrite bool_decide_eq_true_2 by eauto. rewrite decide_False by done. rewrite IH.
    destruct (list_find _ _) as [[j y]|] eqn:Hf; cbn [fmap option_fmap option_map prod_map];
      change (sn_AvailableIPs s1) with (advance (sn_AvailableIPs s) 1); rewrite advance_advance; done.
  - rewrite bool_decide_eq_false_2 by (by intros [? ?]). rewrite decide_True by done. done.
Qed.
End allocate.

(** ** Containment only depends on the address *)

Section subnet_contains.
Context {P : CNIPlugins} {L : CNIPluginsLaws P}.
Implicit Types s : Subnet.

(** The fields that [Canonicalize] leaves in a subnet whose range is usable:
    the bounds are in the network, in order, and the range can be walked. *)
Definition canonicalized s : Prop :=
  is_Some (sn_CIDR s) ∧ range_ok (sn_Start s) (sn_End s) ∧
  IPNet_Contains (sn_cidr s) (sn_Start s) = true ∧ IPNet_Contains (sn_cidr s) (sn_End s) = true ∧
  (sn_Gateway s = [] ∨ valid_ip (sn_Gateway s)).

Lemma valid_ne ip : valid_ip ip → ip ≠ [].
Proof. intros [_ [H|H]]; by intros ->. Qed.

(** Containment, on valid addresses of a canonicalized subnet. *)
Lemma Subnet_Contains_spec s a :
  canonicalized s → valid_ip a →
  Subnet_Contains s a = true ↔
    IPNet_Contains (sn_cidr s) a = true ∧ addr (sn_Start s) ≤ addr a ≤ addr (sn_End s) ∧
    (sn_Gateway s ≠ [] → addr (sn_Gateway s) ≠ addr a) ∧ IP_String a ∉ sn_BlackList s.
Proof.
  intros (Hc & (Hvs & Hve & Hf & _) & Hs & He & Hg) Ha. unfold Subnet_Contains.
  destruct (IPNet_Contains (sn_cidr s) a) eqn:Hca; cbn [negb]; [|naive_solver].
  assert (is_v4 a = is_v4 (sn_Start s)) as Hf1 by (by eapply Contains_same_family).
  assert (is_v4 a = is_v4 (sn_End s)) as Hf2 by congruence.
  rewrite !(bool_decide_eq_false_2 (_ = [])) by (by apply valid_ne). cbn [negb andb].
  rewrite Cmp_lt, Cmp_gt by done.
  destruct (Z.ltb_spec (addr a) (addr (sn_Start s))); [split; [done|lia]|].
  destruct (Z.ltb_spec (addr (sn_End s)) (addr a)); [split; [done|lia]|].
  unfold Subnet_IsBlackIP. destruct Hg as [->|Hg].
  - rewrite bool_decide_eq_true_2 by done. cbn [negb andb].
    case_bool_decide; naive_solver.
  - rewrite bool_decide_eq_false_2 by (by apply valid_ne). cbn [negb andb].
    pose proof (valid_ne _ Hg). pose proof (IP_Equal_addr (sn_Gateway s) a Hg Ha) as Heq.
    destruct (IP_Equal (sn_Gateway s) a); [naive_solver|].
    case_bool_decide; naive_solver.
Qed.

Lemma Subnet_Contains_To16 s a b :
  canonicalized s → valid_ip a → valid_ip b → To16 a = To16 b →
  Subnet_Contains s a = Subnet_Contains s b.
Proof.
  intros Hs Ha Hb E. apply Bool.eq_true_iff_eq. rewrite !Subnet_Contains_spec by done.
  assert (addr a = addr b) as -> by (unfold addr; by rewrite E).
  by rewrite <-(IPNet_Contains_To16 _ a), <-(IPNet_Contains_To16 _ b), E, (IP_String_eq a b).
Qed.

(** ** The invariant of a synchronised subnet *)

(** The texts the subnet may hand out: the canonical texts of the addresses
    it contains, without the reserved ones. *)
Definition allocatable s (x : string) : Prop :=
  canonical x ∧ Subnet_Contains s (ParseIP x) = true ∧ x ∉ sn_ReservedList s.

Record subnet_ok s : Prop := {
  ok_canonicalized : canonicalized s;
  ok_slice : slice_ok (sn_AvailableIPs s);
  ok_nodup : NoDup (sl_IPs (sn_AvailableIPs s));
  (* the ring has exactly the allocatable addresses *)
  ok_avail x : x ∈ sl_IPs (sn_AvailableIPs s) ↔ allocatable s x;
  (* every reserved address is marked as used *)
  ok_reserved x : x ∈ sn_ReservedList s → is_Some (sn_UsingIPs s !! x);
  ok_count : sn_ReservedIPCount s = Z.of_nat (size (sn_ReservedList s));
  (* every used entry is on the ring or reserved, *)
  ok_using x : is_Some (sn_UsingIPs s !! x) → x ∈ sl_IPs (sn_AvailableIPs s) ∨ x ∈ sn_ReservedList s;
  (* under the text of its address *)
  ok_addr x c : sn_UsingIPs s !! x = Some c →
    ∃ a, ip_Address c = Some a ∧ valid_ip (IPNet_IP a) ∧ IP_String (IPNet_IP a) = x;
  ok_reserved_contains x : x ∈ sn_ReservedList s → Subnet_Contains s (ParseIP x) = true
}.

(** The free addresses, and their number. *)
Definition free s : list string := filter (λ x, sn_UsingIPs s !! x = None) (sl_IPs (sn_AvailableIPs s)).

Lemma filter_length_split {A} (Q : A → Prop) `{!∀ x, Decision (Q x)} (l : list A) :
  length l = (length (filter Q l) + length (filter (λ x, ¬ Q x) l))%nat.
Proof.
  induction l as [|x l IH]; [done|]. rewrite !filter_cons.
  destruct (decide (Q x)), (decide (¬ Q x)); simpl; try lia; tauto.
Qed.

Lemma free_count s :
  subnet_ok s → IPSlice_Count (sn_AvailableIPs s) - Subnet_UsingIPCount s = Z.of_nat (length (free s)).
Proof.
  intros Hok. unfold IPSlice_Count, Subnet_UsingIPCount, IPSet_Count.
  destruct (ok_slice s Hok) as [-> _]. rewrite (ok_count s Hok).
  set (l := sl_IPs (sn_AvailableIPs s)) in *.
  set (used := filter (λ x, ¬ (sn_UsingIPs s !! x = None)) l).
  assert (dom (sn_UsingIPs s) = sn_ReservedList s ∪ list_to_set used) as Hdom.
  { apply set_eq. intros x. rewrite elem_of_dom, elem_of_union, elem_of_list_to_set.
    unfold used. rewrite list_elem_of_filter. split.
    - intros Hx. destruct (ok_using s Hok x Hx); [right|by left]. split; [|done].
      by apply not_eq_None_Some.
    - intros [Hx|[Hx _]]; [by apply (ok_reserved s Hok)|by apply not_eq_None_Some]. }
  rewrite <-(size_dom (sn_UsingIPs s)), Hdom, size_union.
  - rewrite size_list_to_set by (apply NoDup_filter, (ok_nodup s Hok)).
    pose proof (filter_length_split (λ x, sn_UsingIPs s !! x = None) l) as Hl.
    unfold free. fold l. cbv beta in Hl. fold used in Hl. lia.
  - intros x Hr Hx. apply elem_of_list_to_set in Hx. unfold used in Hx.
    apply list_elem_of_filter in Hx as [_ Hx]. apply (ok_avail s Hok) in Hx as (_ & _ & Hx). done.
Qed.

Lemma free_elem_of s x : x ∈ free s ↔ x ∈ sl_IPs (sn_AvailableIPs s) ∧ sn_UsingIPs s !! x = None.
Proof. unfold free. rewrite list_elem_of_filter. naive_solver. Qed.

(** ** Changing the used addresses keeps the invariant *)

Lemma subnet_ok_insert s x c sl :
  subnet_ok s → slice_ok sl → sl_IPs sl = sl_IPs (sn_AvailableIPs s) →
  x ∈ sl_IPs sl ∨ x ∈ sn_ReservedList s →
  (∃ a, ip_Address c = Some a ∧ valid_ip (IPNet_IP a) ∧ IP_String (IPNet_IP a) = x) →
  subnet_ok (sn_set_UsingIPs (<[x := c]> (sn_UsingIPs s)) (sn_set_AvailableIPs sl s)).
Proof.
  intros Hok Hsl Heq Hx Hc. rewrite Heq in Hx. destruct Hok as [H1 H2 H3 H4 H5 H6 H7 H8 H9].
  split; cbn; try rewrite Heq; try done.
  - intros y Hy. apply lookup_insert_is_Some'. auto.
  - intros y [<-|Hy]%lookup_insert_is_Some'; auto.
  - intros y c' [[<- <-]|[_ Hy]]%lookup_insert_Some; eauto.
Qed.

Lemma subnet_ok_delete s x :
  subnet_ok s → x ∉ sn_ReservedList s → subnet_ok (sn_set_UsingIPs (delete x (sn_UsingIPs s)) s).
Proof.
  intros [H1 H2 H3 H4 H5 H6 H7 H8 H9] Hx. split; cbn; try done.
  - intros y Hy. rewrite lookup_delete_ne by (by intros ->). auto.
  - intros y [c Hy]. apply lookup_delete_Some in Hy as [_ Hy]. eauto.
  - intros y c Hy. apply lookup_delete_Some in Hy as [_ Hy]. eauto.
Qed.

(** [Update] only changes the pod and the status of an entry. *)
Lemma IPSet_Update_spec (u : IPSet) x pod ns st :
  IPSet_Update u x pod ns st =
    alter (λ c, mkIP (ip_Address c) (ip_Gateway c) (ip_NetID c) (ip_Subnet c) (ip_Network c)
                  (if nonempty pod then pod else ip_PodName c)
                  (if nonempty ns then ns else ip_PodNamespace c)
                  (if nonempty st then st else ip_Status c)) x u.
Proof.
  apply map_eq. intros y. unfold IPSet_Update, IPSet_Has.
  destruct (decide (x = y)) as [<-|Hne].
  - rewrite lookup_alter_eq. destruct (u !! x) as [c|] eqn:Hux.
    + rewrite bool_decide_eq_true_2 by eauto. cbn [negb].
      destruct (nonempty pod), (nonempty ns), (nonempty st);
        rewrite ?lookup_alter_eq, ?Hux; by destruct c.
    + rewrite bool_decide_eq_false_2 by (by intros [? ?]). cbn. by rewrite ?Hux.
  - rewrite lookup_alter_ne by done. case_bool_decide; cbn [negb]; [|done].
    destruct (nonempty pod), (nonempty ns), (nonempty st); by rewrite ?lookup_alter_ne.
Qed.

Lemma subnet_ok_update s x pod ns st :
  subnet_ok s → subnet_ok (sn_set_UsingIPs (IPSet_Update (sn_UsingIPs s) x pod ns st) s).
Proof.
  intros [H1 H2 H3 H4 H5 H6 H7 H8 H9]. rewrite IPSet_Update_spec. split; cbn; try done.
  - intros y Hy. rewrite lookup_alter_is_Some. auto.
  - intros y Hy. rewrite lookup_alter_is_Some in Hy. auto.
  - intros y c [[-> [c' [Hc' ->]]]|[_ Hc]]%lookup_alter_Some; cbn; eauto.
Qed.

Lemma newIP_address s x pod ns st :
  canonical x → ∃ a, ip_Address (Subnet_newIP s x pod ns st) = Some a ∧
                     valid_ip (IPNet_IP a) ∧ IP_String (IPNet_IP a) = x.
Proof. intros [Hv Hx]. by eexists. Qed.

(** ** Results of the operations *)

Lemma AllocateNext_search s pod ns :
  subnet_ok s →
  Subnet_AllocateNext pod ns s =
    let sl := sn_AvailableIPs s in
    match first_free (sn_UsingIPs s) (ring (sl_IPs sl) (sl_IPIndex sl) (length (sl_IPs sl))) with
    | Some (j, x) =>
        let c := Subnet_newIP s x pod ns IPStatusUsing in
        (Ret (Some c), sn_set_UsingIPs (<[x := c]> (sn_UsingIPs s))
                         (sn_set_AvailableIPs (advance sl (S j)) s))
    | None => (Ret None, sn_set_AvailableIPs (advance sl (length (sl_IPs sl))) s)
    end.
Proof.
  intros Hok. unfold Subnet_AllocateNext. unfold get, mbind, M_bind.
  unfold IPSlice_Count. destruct (ok_slice s Hok) as [Hc _]. rewrite Hc, Nat2Z.id.
  cbv zeta. destruct (decide (sl_IPs (sn_AvailableIPs s) = [])) as [Hnil|Hne].
  - rewrite Hnil. cbn. by destruct s.
  - by apply (allocate_loop_spec (length (sl_IPs (sn_AvailableIPs s))) pod ns s (ok_slice s Hok)).
Qed.

(** The search fails exactly when no address is free, and finds a free one. *)
Lemma first_free_None s :
  let sl := sn_AvailableIPs s in
  first_free (sn_UsingIPs s) (ring (sl_IPs sl) (sl_IPIndex sl) (length (sl_IPs sl))) = None ↔ free s = [].
Proof.
  cbv zeta. unfold first_free. rewrite list_find_None, Forall_forall.
  setoid_rewrite ring_elem_of. split.
  - intros Hall. apply elem_of_nil_inv. intros x [Hx Hf]%free_elem_of. by apply (Hall x).
  - intros Hnil x Hx Hf. apply (not_elem_of_nil x). rewrite <-Hnil. by apply free_elem_of.
Qed.

Lemma first_free_Some s j x :
  let sl := sn_AvailableIPs s in
  first_free (sn_UsingIPs s) (ring (sl_IPs sl) (sl_IPIndex sl) (length (sl_IPs sl))) = Some (j, x) →
  x ∈ free s.
Proof.
  cbv zeta. unfold first_free. intros (Hj & Hx & _)%list_find_Some.
  apply free_elem_of. split; [|done]. apply (ring_elem_of _ (sl_IPIndex (sn_AvailableIPs s))).
  by eapply list_elem_of_lookup_2.
Qed.

(** Either some address is free and [AllocateNext] returns one, or none is
    free and it returns nil and leaves the used addresses as they are. *)
Lemma AllocateNext_cases s pod ns :
  subnet_ok s →
  (∃ x s', x ∈ free s ∧ subnet_ok s' ∧
     let c := Subnet_newIP s x pod ns IPStatusUsing in
     Subnet_AllocateNext pod ns s = (Ret (Some c), s') ∧
     sn_UsingIPs s' = <[x := c]> (sn_UsingIPs s) ∧
     sn_ReservedList s' = sn_ReservedList s ∧ sl_IPs (sn_AvailableIPs s') = sl_IPs (sn_AvailableIPs s) ∧
     sn_Name s' = sn_Name s) ∨
  (free s = [] ∧ ∃ s', subnet_ok s' ∧ Subnet_AllocateNext pod ns s = (Ret None, s') ∧
     sn_UsingIPs s' = sn_UsingIPs s ∧ sn_ReservedList s' = sn_ReservedList s ∧
     sl_IPs (sn_AvailableIPs s') = sl_IPs (sn_AvailableIPs s) ∧ sn_Name s' = sn_Name s).
Proof.
  intros Hok. rewrite AllocateNext_search by done. cbv zeta.
  destruct (first_free _ _) as [[j x]|] eqn:Hf; [left|right].
  - pose proof (first_free_Some s j x Hf) as Hx. exists x. eexists. split; [done|].
    split; [|split; [done|]; cbn -[advance]; by rewrite advance_IPs].
    apply free_elem_of in Hx as [Hx _].
    assert (sl_IPs (sn_AvailableIPs s) ≠ []) as Hne by (intros E; rewrite E in Hx; by apply not_elem_of_nil in Hx).
    change (sn_UsingIPs s) with (sn_UsingIPs s) at 1.
    apply subnet_ok_insert; [done|apply advance_ok; [apply ok_slice|]; done|apply advance_IPs| |].
    + rewrite advance_IPs. by left.
    + apply newIP_address. by apply (ok_avail s Hok) in Hx as [? _].
  - apply first_free_None in Hf. split; [done|]. eexists. split; [|split; [done|]; cbn -[advance]; by rewrite advance_IPs].
    destruct Hok as [H1 H2 H3 H4 H5 H6 H7 H8 H9]. destruct (decide (sl_IPs (sn_AvailableIPs s) = [])) as [E|E].
    + rewrite E. cbn. by destruct s.
    + split; cbn; rewrite ?advance_IPs; try done. by apply advance_ok.
Qed.

(** [Release]: a reserved address stays in the set, as reserved; another one
    leaves it. *)
Lemma Release_ok s x : subnet_ok s → subnet_ok (Subnet_Release x s).2.
Proof.
  intros Hok. unfold Subnet_Release, modify, Subnet_IsReservedIP. cbn [snd].
  case_bool_decide; [by apply subnet_ok_update|by apply subnet_ok_delete].
Qed.

(** The branches of [Assign]. *)
Lemma Assign_cases s pod ns x forced :
  let res := Subnet_Assign pod ns x forced s in
  (Subnet_Contains s (ParseIP x) = false ∧ res = (Fail ErrNotFoundAssignedIP, s)) ∨
  (Subnet_Contains s (ParseIP x) = true ∧ sn_UsingIPs s !! x = None ∧
     let c := Subnet_newIP s x pod ns IPStatusUsing in
     res = (Ret (Some c), sn_set_UsingIPs (<[x := c]> (sn_UsingIPs s)) s)) ∨
  (∃ c, Subnet_Contains s (ParseIP x) = true ∧ sn_UsingIPs s !! x = Some c ∧
     ((ip_PodNamespace c = ns ∧ ip_PodName c = pod) ∨ (forced = true ∧ ip_Status c = IPStatusReserved)) ∧
     let u := IPSet_Update (sn_UsingIPs s) x pod ns IPStatusUsing in
     res = (Ret (u !! x), sn_set_UsingIPs u s)) ∨
  (∃ c, Subnet_Contains s (ParseIP x) = true ∧ sn_UsingIPs s !! x = Some c ∧
     ¬ (ip_PodNamespace c = ns ∧ ip_PodName c = pod) ∧ ¬ (forced = true ∧ ip_Status c = IPStatusReserved) ∧
     res = (Fail ErrNotAvailableAssignedIP, s)).
Proof.
  cbv zeta. unfold Subnet_Assign. m_run.
  destruct (Subnet_Contains s (ParseIP x)) eqn:Hc; m_run; [right|by left].
  unfold IPSet_Get. destruct (sn_UsingIPs s !! x) as [c|] eqn:Hx; [right|left].
  - destruct (decide (ip_PodNamespace c = ns ∧ ip_PodName c = pod)) as [Hp|Hp].
    + left. exists c. m_run. auto.
    + destruct forced; cbn [andb]; [case_bool_decide as Hst|].
      * left. exists c. m_run. split_and!; [done..|by right|done].
      * right. exists c. m_run. naive_solver.
      * right. exists c. m_run. naive_solver.
  - m_run. cbn [sn_UsingIPs sn_set_UsingIPs]. unfold IPSet_Add. by rewrite lookup_insert_eq.
Qed.

Lemma Assign_ok s pod ns x forced :
  subnet_ok s → canonical x → subnet_ok (Subnet_Assign pod ns x forced s).2.
Proof.
  intros Hok Hx. destruct (Assign_cases s pod ns x forced) as
    [[_ ->]|[(Hc & Hu & ->)|[(c & _ & _ & _ & ->)|(c & _ & _ & _ & _ & ->)]]]; cbn [snd]; [done| | |done].
  - rewrite <-(sn_set_AvailableIPs_id s) at 1.
    apply subnet_ok_insert; [done|apply ok_slice, Hok|done| |by apply newIP_address].
    destruct (decide (x ∈ sn_ReservedList s)); [by right|left]. by apply (ok_avail s Hok).
  - by apply subnet_ok_update.
Qed.
End subnet_contains.
