(* ===== verification/IPAMSync.v ===== *)
(** * Building a subnet (pkg/ipam/types/subnet.go, [Sync])

    [Sync] turns a canonicalized subnet and the recorded addresses of its
    network into a subnet that satisfies the invariant [subnet_ok]. *)

From S2P Require Import Prelude GoNet CNIPlugins NetworkingV1 Utils IPAMTypes IPAMSubnet.
Local Open Scope Z_scope.

(** The recorded addresses, under the texts of their addresses. *)
Definition ipset_ok (u : IPSet) : Prop :=
  map_Forall (λ x c, ∃ a, ip_Address c = Some a ∧ valid_ip (IPNet_IP a) ∧ IP_String (IPNet_IP a) = x) u.

Lemma NoDup_fmap_refine {A B C} (f : A → B) (g : A → C) (l : list A) :
  (∀ x y, x ∈ l → y ∈ l → g x = g y → f x = f y) → NoDup (f <$> l) → NoDup (g <$> l).
Proof.
  induction l as [|x l IH]; intros Hfg; [constructor|].
  rewrite !fmap_cons, !NoDup_cons. intros [Hx Hl]. split.
  - intros (y & Hy & Hin)%list_elem_of_fmap. apply Hx.
    rewrite (Hfg x y) by (done || by constructor). by apply list_elem_of_fmap_2.
  - apply IH; [|done]. intros y z Hy Hz. apply Hfg; by constructor.
Qed.

Section sync.
Context {P : CNIPlugins} {L : CNIPluginsLaws P}.
Implicit Types s : Subnet.

(** The addresses of the range that go on the ring. *)
Definition sync_addrs s (l : list (list Z)) : list (list Z) :=
  filter (λ i, Subnet_Contains s i = true ∧ IP_String i ∉ sn_ReservedList s) l.

Lemma sync_addrs_cons s i l :
  sync_addrs s (i :: l) =
    if decide (Subnet_Contains s i = true ∧ IP_String i ∉ sn_ReservedList s)
    then i :: sync_addrs s l else sync_addrs s l.
Proof. done. Qed.

Lemma sync_step_spec s sl i :
  sync_step s sl i =
    if decide (Subnet_Contains s i = true ∧ IP_String i ∉ sn_ReservedList s)
    then IPSlice_Add sl (IP_String i) (IP_Equal i (sn_LastAllocatedIP s)) else sl.
Proof.
  unfold sync_step, Subnet_IsReservedIP.
  destruct (Subnet_Contains s i), (decide (IP_String i ∈ sn_ReservedList s)); cbn [negb];
    try rewrite bool_decide_eq_true_2 by done; try rewrite bool_decide_eq_false_2 by done;
    case_decide; naive_solver.
Qed.

Lemma foldl_sync s l sl :
  slice_ok sl →
  slice_ok (foldl (sync_step s) sl l) ∧
  sl_IPs (foldl (sync_step s) sl l) = sl_IPs sl ++ (IP_String <$> sync_addrs s l).
Proof.
  revert sl. induction l as [|i l IH]; intros sl Hsl; cbn [foldl].
  - by rewrite app_nil_r.
  - unfold sync_addrs. rewrite filter_cons, sync_step_spec. case_decide.
    + destruct (IH (IPSlice_Add sl (IP_String i) (IP_Equal i (sn_LastAllocatedIP s)))) as [H1 ->];
        [by apply slice_ok_add|]. split; [done|].
      rewrite fmap_cons. unfold IPSlice_Add. cbn [sl_IPs]. by rewrite <-app_assoc.
    + by apply IH.
Qed.

Lemma Current_Add sl x d :
  slice_ok sl → IPSlice_Current (IPSlice_Add sl x d) = if d then Ret x else IPSlice_Current sl.
Proof.
  intros [Hc Hi]. unfold IPSlice_Current, IPSlice_Add. cbn [sl_IPs sl_IPIndex]. destruct d.
  - rewrite length_app. cbn. rewrite (proj2 (Z.ltb_ge _ 0)) by lia.
    apply index_lookup; [lia|]. rewrite lookup_app_r by lia.
    by replace (_ - _)%nat with 0%nat by lia.
  - destruct (Z.ltb_spec (sl_IPIndex sl) 0); [done|]. unfold index.
    rewrite (proj2 (Z.ltb_ge _ 0)) by lia. by rewrite lookup_app_l by lia.
Qed.

Lemma foldl_sync_Current s l sl :
  slice_ok sl → valid_ip (sn_LastAllocatedIP s) → Forall valid_ip l →
  IPSlice_Current (foldl (sync_step s) sl l) =
    if decide (IP_String (sn_LastAllocatedIP s) ∈ IP_String <$> sync_addrs s l)
    then Ret (IP_String (sn_LastAllocatedIP s)) else IPSlice_Current sl.
Proof.
  intros Hsl Hlast Hl. revert sl Hsl. induction Hl as [|i l Hi Hl IH]; intros sl Hsl; [done|].
  cbn [foldl]. rewrite sync_step_spec, sync_addrs_cons.
  destruct (decide (Subnet_Contains s i = true ∧ _)) as [Hc|Hc]; [|by apply IH].
  rewrite IH by (by apply slice_ok_add). rewrite Current_Add, fmap_cons by done.
  destruct (decide (_ ∈ IP_String <$> sync_addrs s l)) as [Hin|Hin].
  - rewrite decide_True; [done|]. by right.
  - destruct (IP_Equal i (sn_LastAllocatedIP s)) eqn:He.
    + apply IP_Equal_spec in He; [|done..].
      rewrite (IP_String_eq i (sn_LastAllocatedIP s)) by done. rewrite decide_True; [done|by left].
    + rewrite decide_False; [done|]. intros [E|?]%elem_of_cons; [|done].
      apply IP_String_inj in E; [|done..].
      by rewrite (proj2 (IP_Equal_spec _ _ Hi Hlast) (eq_sym E)) in He.
Qed.

Lemma sync_reserve_lookup s l u x :
  foldr (sync_reserve s) u l !! x =
    match u !! x with
    | Some c => Some c
    | None => if decide (x ∈ l) then Some (Subnet_newIP s x "" "" IPStatusReserved) else None
    end.
Proof.
  induction l as [|r l IH]; cbn [foldr]; [destruct (u !! x); [done|]; by rewrite decide_False by apply not_elem_of_nil|].
  unfold sync_reserve at 1, IPSet_Has, IPSet_Add. case_bool_decide as Hr.
  - rewrite IH. destruct (u !! x) as [c|] eqn:Hu; [done|].
    destruct (decide (x ∈ l)) as [Hx|Hx]; [by rewrite decide_True by (by right)|].
    rewrite decide_False; [done|]. intros [->|?]%elem_of_cons; [|done].
    destruct Hr as [c Hc]. by rewrite IH in Hc.
  - destruct (decide (x = r)) as [->|Hne].
    + rewrite lookup_insert_eq. rewrite IH in Hr.
      destruct (u !! r); [exfalso; apply Hr; eauto|]. by rewrite decide_True by (by left).
    + rewrite lookup_insert_ne, IH by done. destruct (u !! x); [done|].
      destruct (decide (x ∈ l)) as [Hx|Hx]; [by rewrite decide_True by (by right)|].
      rewrite decide_False; [done|]. by intros [->|?]%elem_of_cons.
Qed.

(** The subnet with the network's ID, and with the reserved addresses that it contains. *)
Definition sync_prepare (parentNetID : option Z) s : Subnet :=
  let s := match sn_NetID s with None => sn_set_NetID parentNetID s | Some _ => s end in
  let filtered := filter (λ rip, Subnet_Contains s (ParseIP rip) = true) (sn_ReservedList s) in
  sn_set_reserved filtered (Z.of_nat (size filtered)) s.

(** The result of [Sync]. *)
Definition synced (parentNetID : option Z) (ipSet : IPSet) (l : list (list Z)) s : Subnet :=
  let s := sync_prepare parentNetID s in
  let s := sn_set_UsingIPs (filter (λ kv, sync_keeps s kv.2) ipSet) s in
  let s := sn_set_UsingIPs (foldr (sync_reserve s) (sn_UsingIPs s) (elements (sn_ReservedList s))) s in
  sn_set_AvailableIPs (foldl (sync_step s) NewIPSlice l) s.

Lemma Sync_run parentNetID ipSet s l :
  ipset_ok ipSet →
  ip_range (range_fuel (sn_Start s) (sn_End s)) (sn_Start s) (sn_End s) = Some l →
  Subnet_Sync parentNetID ipSet s = (Ret tt, synced parentNetID ipSet l s).
Proof.
  intros Hu Hl. unfold Subnet_Sync. m_run. rewrite decide_False.
  2: { intros (x & c & Hx & _ & Hn). destruct (Hu x c Hx) as (a & Ha & _). congruence. }
  m_run. cbn [sn_Start sn_End sn_set_UsingIPs sn_set_reserved].
  replace (sn_Start _) with (sn_Start s) by (by destruct (sn_NetID s)).
  replace (sn_End _) with (sn_End s) by (by destruct (sn_NetID s)).
  by rewrite Hl.
Qed.

Lemma sync_prepare_fields parentNetID s :
  let s' := sync_prepare parentNetID s in
  sn_Name s' = sn_Name s ∧ sn_Start s' = sn_Start s ∧ sn_End s' = sn_End s ∧
  sn_CIDR s' = sn_CIDR s ∧ sn_Gateway s' = sn_Gateway s ∧ sn_BlackList s' = sn_BlackList s ∧
  sn_LastAllocatedIP s' = sn_LastAllocatedIP s ∧
  (∀ a, Subnet_Contains s' a = Subnet_Contains s a) ∧
  sn_ReservedList s' = filter (λ rip, Subnet_Contains s (ParseIP rip) = true) (sn_ReservedList s) ∧
  sn_ReservedIPCount s' = Z.of_nat (size (sn_ReservedList s')).
Proof. unfold sync_prepare. by destruct (sn_NetID s) eqn:E; split_and!. Qed.

Lemma sync_prepare_canonicalized parentNetID s :
  canonicalized s → canonicalized (sync_prepare parentNetID s).
Proof. unfold sync_prepare. by destruct (sn_NetID s). Qed.

Lemma synced_fields parentNetID u l s :
  let s' := synced parentNetID u l s in
  sn_ReservedList s' = sn_ReservedList (sync_prepare parentNetID s) ∧
  sn_AvailableIPs s' = foldl (sync_step (sync_prepare parentNetID s)) NewIPSlice l ∧
  (∀ a, Subnet_Contains s' a = Subnet_Contains s a) ∧
  (∀ x, sn_UsingIPs s' !! x =
     match u !! x with
     | Some c => if decide (sync_keeps s c) then Some c
                 else if decide (x ∈ sn_ReservedList s')
                      then Some (Subnet_newIP s' x "" "" IPStatusReserved) else None
     | None => if decide (x ∈ sn_ReservedList s')
               then Some (Subnet_newIP s' x "" "" IPStatusReserved) else None
     end).
Proof.
  cbv zeta. destruct (sync_prepare_fields parentNetID s) as (Hn & _ & _ & _ & _ & _ & _ & Hc & _).
  split; [done|]. split; [done|]. split; [exact Hc|]. intros x. unfold synced.
  cbn [sn_UsingIPs sn_set_AvailableIPs sn_set_UsingIPs sn_ReservedList].
  rewrite sync_reserve_lookup, map_lookup_filter.
  assert (∀ c, sync_keeps (sync_prepare parentNetID s) c ↔ sync_keeps s c) as Hk.
  { intros c. unfold sync_keeps. by rewrite Hn, Hc. }
  assert (∀ A (a b : A), (if decide (x ∈ elements (sn_ReservedList (sync_prepare parentNetID s)))
                          then a else b)
          = if decide (x ∈ sn_ReservedList (sync_prepare parentNetID s)) then a else b) as Hd.
  { intros A a b. apply decide_ext. by rewrite elem_of_elements. }
  destruct (u !! x) as [c|]; cbn [mbind option_bind]; [|by rewrite Hd].
  case_guard as Hg; pose proof Hg as Hg'; cbn in Hg'; rewrite Hk in Hg';
    cbn; [by rewrite decide_True by done|].
  rewrite (decide_False (P := sync_keeps s c)) by done. by rewrite Hd.
Qed.

Lemma sync_addrs_spec s l x :
  canonicalized s → Forall valid_ip l →
  addr <$> l = seqZ (addr (sn_Start s)) (addr (sn_End s) - addr (sn_Start s) + 1) →
  x ∈ IP_String <$> sync_addrs s l ↔ allocatable s x.
Proof.
  intros Hs Hl Hseq. rewrite Forall_forall in Hl. unfold sync_addrs, allocatable.
  rewrite list_elem_of_fmap. setoid_rewrite list_elem_of_filter. split.
  - intros (i & -> & (Hc & Hr) & Hi). specialize (Hl i Hi).
    split; [by apply canonical_String|]. split; [|done].
    by rewrite ParseIP_String, (Subnet_Contains_To16 s _ i Hs (To16_valid i Hl) Hl) by
      (done || by apply To16_idemp).
  - intros ([Hv Hx] & Hc & Hr). set (a := ParseIP x) in *.
    pose proof (proj1 (Subnet_Contains_spec s a Hs Hv) Hc) as (_ & Hrange & _).
    assert (addr a ∈ addr <$> l) as Hin by (rewrite Hseq; apply elem_of_seqZ; lia).
    apply list_elem_of_fmap in Hin as (i & Ha & Hi). specialize (Hl i Hi).
    assert (To16 i = To16 a) as E by (by apply addr_inj).
    exists i. rewrite (IP_String_eq i a) by done. split; [done|]. split; [|done].
    rewrite (Subnet_Contains_To16 s i a) by done. rewrite Hx. done.
Qed.

Lemma synced_ok parentNetID u l s :
  canonicalized s → ipset_ok u → set_Forall canonical (sn_ReservedList s) →
  Forall valid_ip l →
  addr <$> l = seqZ (addr (sn_Start s)) (addr (sn_End s) - addr (sn_Start s) + 1) →
  subnet_ok (synced parentNetID u l s).
Proof.
  intros Hs Hu Hres Hl Hseq.
  destruct (synced_fields parentNetID u l s) as (HR & HA & Hc & HU).
  destruct (sync_prepare_fields parentNetID s) as (_ & Hst & Hen & _ & _ & _ & _ & Hcp & HRp & Hcount).
  pose proof (sync_prepare_canonicalized parentNetID s Hs) as Hp.
  set (s' := synced parentNetID u l s) in *. set (p := sync_prepare parentNetID s) in *.
  destruct (foldl_sync p l NewIPSlice slice_ok_new) as [Hok HIPs].
  assert (canonicalized s') as Hs' by exact Hp.
  assert (∀ x, x ∈ sl_IPs (sn_AvailableIPs s') ↔ allocatable s' x) as Hav.
  { intros x. rewrite HA, HIPs. cbn [NewIPSlice sl_IPs app].
    rewrite (sync_addrs_spec p l x Hp Hl) by (by rewrite Hst, Hen). done. }
  assert (∀ x, x ∈ sn_ReservedList s' → canonical x ∧ Subnet_Contains s (ParseIP x) = true) as Hrs.
  { intros x. rewrite HR, HRp, elem_of_filter. intros [? Hx]. split; [by apply Hres|done]. }
  split; [exact Hs'|by rewrite HA|..].
  - rewrite HA, HIPs. cbn [NewIPSlice sl_IPs app].
    assert (NoDup (addr <$> l)) as Hnd by (rewrite Hseq; apply NoDup_seqZ).
    apply (NoDup_fmap_refine addr).
    + intros i j [_ Hi]%list_elem_of_filter [_ Hj]%list_elem_of_filter E.
      rewrite Forall_forall in Hl. unfold addr. by rewrite (IP_String_inj i j); auto.
    + eapply sublist_NoDup; [exact Hnd|]. apply fmap_sublist, sublist_filter.
  - done.
  - intros x Hx. rewrite HU. destruct (u !! x) as [c|]; repeat case_decide; done || eauto.
  - done.
  - intros x Hx. destruct (decide (x ∈ sn_ReservedList s')) as [Hr|Hr]; [by right|left].
    rewrite HU in Hx. apply Hav.
    destruct (u !! x) as [c|] eqn:Hux; [|by rewrite decide_False in Hx by done; destruct Hx].
    destruct (decide (sync_keeps s c)) as [[_ Hk]|]; [|by rewrite decide_False in Hx by done; destruct Hx].
    destruct (Hu x c Hux) as (a & Ha & Hv & <-). rewrite Ha in Hk.
    split; [by apply canonical_String|]. split; [|done].
    rewrite Hc, ParseIP_String, (Subnet_Contains_To16 s _ (IPNet_IP a)) by
      (done || by apply To16_idemp || by apply To16_valid). done.
  - intros x c. rewrite HU. intros Hx.
    destruct (u !! x) as [c'|] eqn:Hux; repeat case_decide; simplify_eq; try by eapply Hu.
    all: apply newIP_address; by apply Hrs.
  - intros x Hx. rewrite Hc. by apply Hrs.
Qed.
End sync.
