(* ===== verification/IPAMCanonical.v ===== *)
(** * The address range of a subnet (pkg/ipam/types/subnet.go, [Canonicalize])

    [Validate] accepts exactly the specifications whose gateway and bounds are
    in a network with at least two host bits; [Canonicalize] then completes
    the bounds with the first and the last address of the network, and the
    completed subnet is one that [Sync] accepts.  The second part reads the
    texts of an [AddressRange] (pkg/apis/networking/v1/utils.go, pkg/utils) as
    numbers and says what [ValidateAddressRange], [CalculateCapacity] and
    [Intersect] compute of them. *)

From S2P Require Import Prelude GoNet NetBlock CNIPlugins NetworkingV1 Utils IPAMTypes IPAMSubnet IPAMSync.
Local Open Scope Z_scope.

(** The network is away from the ends of the address space where the loop
    [for i := start; ip.Cmp(i, end) <= 0; i = ip.NextIP(i)] cannot end, and
    an IPv6 network has no IPv4-mapped address. *)
Definition net_plain (n : IPNet) (len : nat) (ones : Z) : Prop :=
  let stop := addr (IPNet_IP n) + 2 ^ host_bits len ones in
  if is_v4 (IPNet_IP n) then stop ≤ v4_last
  else stop < v4_first ∨ (v4_last < addr (IPNet_IP n) ∧ stop < 2 ^ 128).

Definition opt_valid (ip : list Z) : Prop := ip = [] ∨ valid_ip ip.

Lemma valid_nonempty ip : valid_ip ip → bool_decide (ip = []) = false.
Proof. intros [_ H]. apply bool_decide_eq_false_2. intros ->. cbn in H. lia. Qed.

Section canonical.
Context {P : CNIPlugins} {L : CNIPluginsLaws P}.
Implicit Types s : Subnet.
Context (s : Subnet) (n : IPNet) (len : nat) (ones : Z).
Context (HC : sn_CIDR s = Some n) (Hn : cidr_net n len ones) (Hplain : net_plain n len ones).
Context (Hst : opt_valid (sn_Start s)) (Hen : opt_valid (sn_End s)) (Hgw : opt_valid (sn_Gateway s)).

Let contained (ip : list Z) : Prop := ip = [] ∨ IPNet_Contains n ip = true.

Lemma return_if_ret b e : return_if b e = Ret tt ↔ b = false.
Proof. unfold return_if. by destruct b. Qed.

Lemma bind_unit_ret (o : outcome unit) (f : outcome unit) : (o;; f) = Ret tt ↔ o = Ret tt ∧ f = Ret tt.
Proof. destruct o as [[]| | |]; cbn; naive_solver. Qed.

Lemma contained_check ip : negb (bool_decide (ip = [])) && negb (IPNet_Contains n ip) = false ↔ contained ip.
Proof.
  unfold contained. destruct (IPNet_Contains n ip); case_bool_decide; cbn; naive_solver.
Qed.

(** [Validate], as a condition on the specification. *)
Lemma Validate_spec :
  Subnet_Validate s = Ret tt ↔
    sn_Name s ≠ "" ∧ sn_ParentNetwork s ≠ "" ∧ 2 ≤ host_bits len ones ∧
    contained (sn_Gateway s) ∧ contained (sn_Start s) ∧ contained (sn_End s).
Proof.
  destruct (net_ip_ok n len ones Hn) as (Hb & Hl & _). pose proof (net_ip_valid n len ones Hn) as Hv.
  pose proof (cn_ones _ _ _ Hn) as Ho.
  unfold Subnet_Validate. rewrite HC, !bind_unit_ret, !return_if_ret.
  rewrite (cn_mask _ _ _ Hn), Mask_Size_cidr by done.
  rewrite !bind_unit_ret, !return_if_ret, !contained_check, valid_nonempty by done.
  assert (bool_decide (cidr_bytes len ones = []) = false) as ->.
  { apply bool_decide_eq_false_2. intros E. apply (f_equal length) in E. rewrite cidr_bytes_length in E.
    cbn in E. destruct (cn_len _ _ _ Hn); lia. }
  rewrite bool_decide_eq_true_2 by (by rewrite cidr_bytes_length).
  assert (IP_Equal (IPNet_IP n) (IP_Mask (IPNet_IP n) (cidr_bytes len ones)) = true) as ->.
  { rewrite <-(cn_mask _ _ _ Hn), (IP_Mask_net n len ones Hn). by apply IP_Equal_spec. }
  rewrite Z.ltb_ge. unfold host_bits, nonempty. cbn [orb negb].
  assert (∀ x : string, negb (negb (bool_decide (x = ""))) = false ↔ x ≠ "") as Hne.
  { intros x. rewrite negb_involutive. apply bool_decide_eq_false. }
  rewrite !Hne. intuition lia.
Qed.

Lemma return_if_total b e : return_if b e = Ret tt ∨ return_if b e = Fail e.
Proof. destruct b; auto. Qed.

(** With a CIDR, [Validate] does not panic. *)
Lemma Validate_total : Subnet_Validate s = Ret tt ∨ ∃ e, Subnet_Validate s = Fail e.
Proof.
  unfold Subnet_Validate. rewrite HC. destruct (Mask_Size (IPNet_Mask n)) as [o m].
  repeat match goal with
  | |- context [return_if ?b ?e ≫= _] => destruct (return_if_total b e) as [-> | ->]; cbn [mbind outcome_bind]; [|eauto]
  end.
  destruct (return_if_total (negb (bool_decide (sn_End s = [])) && negb (IPNet_Contains n (sn_End s)))
              (Errorf "end %s not in CIDR %s" [IP_String (sn_End s)])); eauto.
Qed.

(** The addresses of the network are followed by one of its family. *)
Lemma net_has_next z :
  addr (IPNet_IP n) ≤ z < addr (IPNet_IP n) + 2 ^ host_bits len ones → has_next z.
Proof.
  intros Hz. unfold net_plain in Hplain. cbv zeta in Hplain. unfold has_next, v4_first, v4_last in *.
  destruct (net_addr n len ones Hn) as [(_ & E & _ & Ha)|(_ & E & _ & Ha)]; rewrite E in Hplain.
  - destruct (net_ip_ok n len ones Hn) as (Hb & _ & _). pose proof (be_bounds _ Hb) as Hbe.
    unfold v4_first in Ha. rewrite Ha in *. lia.
  - lia.
Qed.

Lemma contains_in_net a :
  valid_ip a → IPNet_Contains n a = true →
  is_v4 a = is_v4 (IPNet_IP n) ∧ addr (IPNet_IP n) ≤ addr a < addr (IPNet_IP n) + 2 ^ host_bits len ones.
Proof. intros Ha Hc. by apply (Contains_block n len ones Hn a Ha). Qed.

Definition canonical_start : list Z := if bool_decide (sn_Start s = []) then NextIP (IPNet_IP n) else sn_Start s.
Definition canonical_end : list Z := if bool_decide (sn_End s = []) then LastIP n else sn_End s.

Lemma canonical_start_ok :
  2 ≤ host_bits len ones → contained (sn_Start s) →
  valid_ip canonical_start ∧ IPNet_Contains n canonical_start = true ∧
  (sn_Start s = [] → addr canonical_start = addr (IPNet_IP n) + 1).
Proof.
  intros Hh Hc. unfold canonical_start. case_bool_decide as H0.
  - pose proof (net_ip_valid n len ones Hn) as Hv.
    assert (2 ^ 2 ≤ 2 ^ host_bits len ones) by (apply Z.pow_le_mono_r; lia).
    assert (has_next (addr (IPNet_IP n))) as Hnext by (apply net_has_next; lia).
    destruct (NextIP_law _ Hv Hnext) as [Hv' Ha]. split; [done|]. split; [|done].
    apply (Contains_block n len ones Hn); [done|]. rewrite NextIP_family by done. split; [done|lia].
  - destruct Hst as [?|?]; [done|]. destruct Hc as [?|?]; [done|]. split_and!; [done..|]. by intros ?.
Qed.

Lemma canonical_end_ok :
  2 ≤ host_bits len ones → contained (sn_End s) →
  valid_ip canonical_end ∧ IPNet_Contains n canonical_end = true ∧
  (sn_End s = [] → addr canonical_end =
     addr (IPNet_IP n) + 2 ^ host_bits len ones - (if is_v4 (IPNet_IP n) then 2 else 1)).
Proof.
  intros Hh Hc. unfold canonical_end. case_bool_decide as H0.
  - destruct (last_ip_spec n len ones Hn) as [Hv Ha]; [unfold host_bits in *; lia|].
    change (LastIP n) with (last_ip n). split; [done|]. split; [|done].
    assert (2 ^ 2 ≤ 2 ^ host_bits len ones) by (apply Z.pow_le_mono_r; lia).
    apply (Contains_block n len ones Hn); [done|].
    assert (addr (IPNet_IP n) ≤ addr (last_ip n) < addr (IPNet_IP n) + 2 ^ host_bits len ones) as Hin
      by (rewrite Ha; destruct (is_v4 (IPNet_IP n)); lia).
    split; [|done]. apply is_v4_same; [done|by eapply net_ip_valid|].
    pose proof Hplain as Hp. unfold net_plain in Hp. cbv zeta in Hp.
    destruct (net_addr n len ones Hn) as [(_ & E & _ & Hai)|(_ & E & _ & Hai)]; rewrite E in Hp.
    + destruct (net_ip_ok n len ones Hn) as (Hb & _ & _). pose proof (be_bounds _ Hb). lia.
    + lia.
  - destruct Hen as [?|?]; [done|]. destruct Hc as [?|?]; [done|]. split_and!; [done..|]. by intros ?.
Qed.

(** A validated specification is completed to a canonicalized subnet. *)
Lemma Canonicalize_ok :
  Subnet_Validate s = Ret tt →
  Subnet_Canonicalize s = (Ret tt, sn_set_range canonical_start canonical_end s) ∧
  canonicalized (sn_set_range canonical_start canonical_end s).
Proof.
  intros HV. split.
  - unfold Subnet_Canonicalize. m_run. rewrite HV. m_run. unfold sn_cidr. by rewrite HC.
  - apply Validate_spec in HV as (_ & _ & Hh & _ & Hcs & Hce).
    destruct (canonical_start_ok Hh Hcs) as (Hvs & His & _).
    destruct (canonical_end_ok Hh Hce) as (Hve & Hie & _).
    pose proof (contains_in_net _ Hvs His) as [Hfs Has]. pose proof (contains_in_net _ Hve Hie) as [Hfe Hae].
    unfold canonicalized, sn_cidr. cbn. rewrite HC. cbn. split_and!; [by eexists| |done..].
    split; [done|]. split; [done|]. split; [congruence|]. intros z Hz. apply net_has_next. lia.
Qed.

Lemma Canonicalize_error e s' : Subnet_Canonicalize s = (Fail e, s') → s' = s ∧ Subnet_Validate s = Fail e.
Proof.
  unfold Subnet_Canonicalize. m_run. unfold lift, mbind, M_bind.
  destruct (Subnet_Validate s); intros H; by simplify_eq.
Qed.
End canonical.

(** ** The address ranges of the API objects

    What the texts of an [AddressRange] say, read as numbers; the code that
    validates, measures and compares ranges is stated over it. *)

Section range_texts.
Implicit Types r : AddressRange.

Definition net_of r : IPNet := default (mkIPNet [] []) (snd <$> ParseCIDR (ar_CIDR r)).
Definition base_of r : Z := addr (IPNet_IP (net_of r)).

(** The number of bits that the mask leaves to hosts. *)
Definition host_of r : Z := let '(ones, bits) := Mask_Size (IPNet_Mask (net_of r)) in bits - ones.

Definition in_cidr r (a : list Z) : Prop :=
  is_v4 a = is_v4 (IPNet_IP (net_of r)) ∧ base_of r ≤ addr a < base_of r + 2 ^ host_of r.
Definition text_in r (t : string) : Prop := ParseIP t ≠ [] ∧ in_cidr r (ParseIP t).
Definition bound_in r (t : string) : Prop := t = "" ∨ text_in r t.

(** The first and the last address of the range; those of the network, for
    IPv4 without the broadcast address, when they are not given. *)
Definition first_addr r : Z :=
  if decide (ParseIP (ar_Start r) = []) then base_of r + 1 else addr (ParseIP (ar_Start r)).
Definition last_addr r : Z :=
  if decide (ParseIP (ar_End r) = [])
  then base_of r + 2 ^ host_of r - (if is_v4 (IPNet_IP (net_of r)) then 2 else 1)
  else addr (ParseIP (ar_End r)).

(** The addresses of the range, excluded ones not counted. *)
Definition size_of r : Z := last_addr r - first_addr r + 1 - Z.of_nat (length (ar_ExcludeIPs r)).

Definition in_range r (z : Z) : Prop :=
  first_addr r ≤ z ≤ last_addr r ∧ IP_String (of_addr z) ∉ ar_ExcludeIPs r.

Record valid_range r : Prop := {
  vr_version : ar_Version r = IPVersion4 ∨ ar_Version r = IPVersion6;
  vr_cidr : ∃ ip n, ParseCIDR (ar_CIDR r) = Some (ip, n) ∧ addr ip = addr (IPNet_IP n);
  vr_hosts : host_of r ≠ 0;
  vr_start : bound_in r (ar_Start r);
  vr_end : bound_in r (ar_End r);
  vr_order : ar_Start r ≠ "" → ar_End r ≠ "" → addr (ParseIP (ar_Start r)) ≤ addr (ParseIP (ar_End r));
  vr_gateway : bound_in r (ar_Gateway r) ∧
    (ar_Gateway r ≠ "" → is_v4 (ParseIP (ar_Gateway r)) = bool_decide (ar_Version r = IPVersion4));
  vr_reserved : Forall (text_in r) (ar_ReservedIPs r);
  vr_excluded : Forall (text_in r) (ar_ExcludeIPs r)
}.

(** The CIDR, when it is one, is of a network that the loops can walk over. *)
Definition plain_cidr r : Prop :=
  ∀ ip n, ParseCIDR (ar_CIDR r) = Some (ip, n) → ∃ len ones, cidr_net n len ones ∧ net_plain n len ones.

(** The first byte of the network is not zero when the range begins with the
    network: [nextIP] drops leading zeros. *)
Definition leading r : Prop := ar_Start r = "" → ∃ b l, IPNet_IP (net_of r) = b :: l ∧ b ≠ 0.

Lemma host_of_net r ip n len ones : ParseCIDR (ar_CIDR r) = Some (ip, n) → cidr_net n len ones →
  net_of r = n ∧ host_of r = host_bits len ones.
Proof.
  intros HC Hn. unfold host_of, net_of. rewrite HC. cbn. split; [done|].
  rewrite (cn_mask _ _ _ Hn), Mask_Size_cidr by apply Hn. done.
Qed.

Lemma in_cidr_Contains r ip n len ones a : ParseCIDR (ar_CIDR r) = Some (ip, n) → cidr_net n len ones → valid_ip a →
  IPNet_Contains n a = true ↔ in_cidr r a.
Proof.
  intros HC Hn Ha. destruct (host_of_net r ip n len ones HC Hn) as [E Eh].
  rewrite (Contains_block n len ones Hn a Ha). unfold in_cidr, base_of. by rewrite E, Eh.
Qed.

(** A plain network is inside or outside of the IPv4-mapped block. *)
Lemma plain_family n len ones z :
  cidr_net n len ones → net_plain n len ones → addr (IPNet_IP n) ≤ z < addr (IPNet_IP n) + 2 ^ host_bits len ones →
  is_v4 (IPNet_IP n) = true ↔ v4_first ≤ z ≤ v4_last.
Proof.
  intros Hn Hp Hz. unfold net_plain in Hp. cbv zeta in Hp. unfold v4_first, v4_last in *.
  destruct (net_addr n len ones Hn) as [(_ & E & _ & Ha)|(_ & E & _ & Ha)]; rewrite E in *.
  - destruct (net_ip_ok n len ones Hn) as (Hb & _ & _). pose proof (be_bounds _ Hb). unfold v4_first in Ha. split; [lia|done].
  - split; [done|lia].
Qed.
End range_texts.

Section ranges.
Context {P : CNIPlugins} {L : CNIPluginsLaws P}.
Implicit Types r : AddressRange.

Lemma validate_ips_spec r ip n len ones what t l : ParseCIDR (ar_CIDR r) = Some (ip, n) → cidr_net n len ones →
  validate_ips what n t l = Ret tt ↔ Forall (text_in r) l.
Proof.
  intros HC Hn. induction l as [|x l IH]; cbn [validate_ips]; [by split|].
  rewrite Forall_cons, <-IH. unfold text_in. destruct (ParseIP_ok x) as [E|[Hv _]].
  - rewrite E, decide_True by done. split; [done|]. by intros [[? _] _].
  - rewrite decide_False by (intros E; by rewrite E in Hv; destruct Hv as [_ [?|?]]).
    rewrite <-(in_cidr_Contains r ip n len ones) by done.
    destruct (IPNet_Contains n (ParseIP x)); cbn [negb]; split; try done.
    + intros Hx. split; [|done]. split; [|done]. intros E. rewrite E in Hv. by destruct Hv as [_ [?|?]].
    + by intros [_ ?].
    + by intros [[_ ?] _].
Qed.

(** One of the optional texts: parsed, then checked to be in the network. *)
Lemma bound_check r ip n len ones t : ParseCIDR (ar_CIDR r) = Some (ip, n) → cidr_net n len ones →
  nonempty t && bool_decide (ParseIP t = []) = false ∧ nonempty t && negb (IPNet_Contains n (ParseIP t)) = false ↔ bound_in r t.
Proof.
  intros HC Hn. unfold bound_in, text_in, nonempty. case_bool_decide as Ht; cbn [negb andb]; [subst; tauto|].
  rewrite bool_decide_eq_false, negb_false_iff. split.
  - intros [Hp Hc]. right. split; [done|]. by apply (in_cidr_Contains r ip n len ones); [..|by apply ParseIP_valid|].
  - intros [?|[Hp Hc]]; [done|]. split; [done|]. apply (in_cidr_Contains r ip n len ones); [done..|by apply ParseIP_valid|done].
Qed.
(** The gateway's checks. *)
Lemma gateway_check r ip n len ones : ParseCIDR (ar_CIDR r) = Some (ip, n) → cidr_net n len ones →
  (if nonempty (ar_Gateway r) then
     let gateway := ParseIP (ar_Gateway r) in
     return_if (bool_decide (gateway = [])) (Errorf "invalid range gateway %s" [ar_Gateway r]);;
     return_if (negb (Bool.eqb (bool_decide (To4 gateway = [])) (negb (bool_decide (ar_Version r = IPVersion4)))))
       (Errorf "address families of ip version and gateway mismatch" []);;
     return_if (negb (IPNet_Contains n gateway)) (Errorf "gateway %s is not in CIDR %s" [ar_Gateway r; ar_CIDR r])
   else Ret tt) = Ret tt ↔
  bound_in r (ar_Gateway r) ∧
    (ar_Gateway r ≠ "" → is_v4 (ParseIP (ar_Gateway r)) = bool_decide (ar_Version r = IPVersion4)).
Proof.
  intros HC Hn. rewrite <-(bound_check r ip n len ones) by done. unfold nonempty. case_bool_decide as Hg; cbn [negb andb].
  { split; [|done]. intros _. split; [done|]. by intros ?. }
  cbv zeta. rewrite !bind_unit_ret, !return_if_ret, negb_false_iff, Bool.eqb_true_iff. unfold is_v4.
  rewrite bool_decide_not. split.
  - intros (H1 & H2 & H3). split; [done|]. intros _. by rewrite H2, negb_involutive.
  - intros [[H1 H2] H3]. split; [done|]. split; [|done]. specialize (H3 Hg). rewrite <-H3. by rewrite negb_involutive.
Qed.

Lemma order_check r : bound_in r (ar_Start r) → bound_in r (ar_End r) →
  nonempty (ar_Start r) && nonempty (ar_End r) && (0 <? Cmp (ParseIP (ar_Start r)) (ParseIP (ar_End r))) = false ↔
  (ar_Start r ≠ "" → ar_End r ≠ "" → addr (ParseIP (ar_Start r)) ≤ addr (ParseIP (ar_End r))).
Proof.
  unfold nonempty. intros [->|[H1 [H2 _]]]; [cbn; by split|]. intros [->|[H3 [H4 _]]]; [rewrite andb_false_r; cbn; by split|].
  rewrite Cmp_gt by (by apply ParseIP_valid || congruence).
  destruct (Z.ltb_spec (addr (ParseIP (ar_End r))) (addr (ParseIP (ar_Start r)))); rewrite ?andb_true_r, ?andb_false_r;
    repeat case_bool_decide; cbn [negb andb]; split; (done || (intros; lia) || (intros Hx; exfalso; enough (addr (ParseIP (ar_Start r)) ≤ addr (ParseIP (ar_End r))) by lia; by apply Hx)).
Qed.

(** The webhooks' check of a range says that its texts are those of a range. *)
Lemma ValidateAddressRange_spec r : plain_cidr r → ValidateAddressRange r = Ret tt ↔ valid_range r.
Proof.
  intros Hp. unfold ValidateAddressRange.
  destruct (decide (ar_Version r = IPVersion4 ∨ ar_Version r = IPVersion6)) as [Hver|Hver].
  2: { rewrite !decide_False by tauto. split; [done|]. intros []. tauto. }
  assert ((if decide (ar_Version r = IPVersion4) then Ret false
           else if decide (ar_Version r = IPVersion6) then Ret true
           else Fail (Errorf "unsupported IP Version %s" [ar_Version r])) =
          Ret (negb (bool_decide (ar_Version r = IPVersion4)))) as ->.
  { case_bool_decide; [by rewrite decide_True|]. rewrite decide_False, decide_True by tauto. done. }
  cbn [mbind outcome_bind]. cbv zeta. rewrite !bind_unit_ret, !return_if_ret.
  destruct (ParseCIDR (ar_CIDR r)) as [[ip n]|] eqn:HC.
  2: { split; [by intros (_ & _ & ?)|]. intros [_ (? & ? & ? & _)]. congruence. }
  destruct (Hp ip n HC) as (len & ones & Hn & Hpl). destruct (host_of_net r ip n len ones HC Hn) as [En Eh].
  destruct (ParseCIDR_valid _ _ _ HC) as (Hvi & Hvn & _).
  rewrite bind_unit_ret, return_if_ret, negb_false_iff, IP_Equal_addr by done.
  rewrite (cn_mask _ _ _ Hn), Mask_Size_cidr by apply Hn.
  rewrite !bind_unit_ret, !return_if_ret, (gateway_check r ip n len ones HC Hn), !(validate_ips_spec r ip n len ones _ _ _ HC Hn).
  pose proof (bound_check r ip n len ones (ar_Start r) HC Hn). pose proof (bound_check r ip n len ones (ar_End r) HC Hn).
  pose proof (order_check r). rewrite Z.eqb_neq. split.
  - intros (? & ? & ? & ? & ? & ? & ? & ? & ? & ?). split; try tauto; [by exists ip, n|]. rewrite Eh. unfold host_bits. lia.
  - intros [_ (? & ? & HC' & ?) Hh]. rewrite HC in HC'. injection HC' as <- <-. rewrite Eh in Hh. unfold host_bits in Hh.
    split_and?; tauto || lia.
Qed.
(** ** Capacity *)

Lemma int64_cong z k : int64 (z + k * 2 ^ 64) = int64 z.
Proof. unfold int64. replace (z + k * 2 ^ 64 + 2 ^ 63) with (z + 2 ^ 63 + k * 2 ^ 64) by lia. by rewrite Z_mod_plus_full. Qed.

Lemma int64_exists z : ∃ k, int64 z = z + k * 2 ^ 64.
Proof. exists (- ((z + 2 ^ 63) / 2 ^ 64)). unfold int64. rewrite Z.mod_eq by done. lia. Qed.

Lemma big_Int64_exists x : ∃ k, big_Int64 x = x + k * 2 ^ 64.
Proof.
  unfold big_Int64. destruct (int64_exists (Z.abs x mod 2 ^ 64)) as [k ->]. rewrite Z.mod_eq by done.
  destruct (Z.ltb_spec x 0).
  - match goal with |- context [int64 ?z] => destruct (int64_exists z) as [k' ->] end. rewrite Z.abs_neq by lia.
    exists (k' - k + (- x) / 2 ^ 64). lia.
  - rewrite Z.abs_eq by lia. exists (k - x / 2 ^ 64). lia.
Qed.

Lemma capacity_spec a b : ∃ k, capacity a b = ipToInt b - ipToInt a + 1 + k * 2 ^ 64.
Proof.
  unfold capacity. destruct (big_Int64_exists (ipToInt b - ipToInt a)) as [k ->].
  match goal with |- context [int64 ?z] => destruct (int64_exists z) as [k' ->] end. exists (k + k'). lia.
Qed.

Lemma ipToInt_addr a : valid_ip a → ipToInt a = addr a - (if is_v4 a then v4_first else 0).
Proof.
  intros Ha. unfold ipToInt, is_v4, addr. case_decide as H4.
  - rewrite bool_decide_eq_false_2 by (intros Hx; by apply Hx). lia.
  - rewrite bool_decide_eq_true_2, (To16_v4 a Ha H4), be_app_gen by done.
    destruct (To4_length a Ha) as [?|Hl]; [done|]. rewrite Hl.
    change (be v4InV6Prefix * 256 ^ Z.of_nat 4) with v4_first. lia.
Qed.

Lemma be_cons_0 l : be (0 :: l) = be l.
Proof. rewrite be_cons. lia. Qed.

Lemma to_bytes_pad k len v : 0 ≤ v < 256 ^ Z.of_nat len → to_bytes (k + len) v = replicate k 0 ++ to_bytes len v.
Proof.
  intros Hv. apply be_inj; [apply to_bytes_ok|..].
  - apply Forall_app. split; [|apply to_bytes_ok]. apply Forall_replicate. unfold byte_ok. lia.
  - by rewrite length_app, length_replicate, !to_bytes_length.
  - rewrite be_to_bytes. assert (∀ l, be (replicate k 0 ++ l) = be l) as ->.
    { intros l. induction k as [|k IH]; [done|]. cbn [replicate app]. by rewrite be_cons_0. }
    rewrite be_to_bytes, (Z.mod_small _ _ Hv), Z.mod_small; [done|]. rewrite Nat2Z.inj_add, Z.pow_add_r by lia.
    pose proof (Z.pow_pos_nonneg 256 (Z.of_nat k)). nia.
Qed.

(** Without a leading zero the bytes of a number are those of the address. *)
Lemma intToIP_spec len v : (1 ≤ len ≤ 17)%nat → 256 ^ (Z.of_nat len - 1) ≤ v < 256 ^ Z.of_nat len → intToIP v = to_bytes len v.
Proof.
  intros Hlen Hv. pose proof (Z.pow_pos_nonneg 256 (Z.of_nat len - 1)).
  unfold intToIP, big_Bytes. replace 17%nat with (17 - len + len)%nat by lia. rewrite to_bytes_pad by lia.
  assert (∀ k l, strip_zeros (replicate k 0 ++ l) = strip_zeros l) as -> by (intros k l; induction k; [done|exact IHk]).
  pose proof (be_to_bytes len v) as Hbe. rewrite Z.mod_small in Hbe by lia.
  pose proof (to_bytes_length len v) as Hl. pose proof (to_bytes_ok len v) as Hb.
  destruct (to_bytes len v) as [|b l]; [done|]. cbn [strip_zeros]. destruct (Z.eqb_spec b 0) as [->|]; [|done].
  exfalso. rewrite be_cons_0 in Hbe. apply Forall_cons in Hb as [_ Hb]. pose proof (be_bounds l Hb) as Hbl.
  cbn [length] in Hl. replace (Z.of_nat len - 1) with (Z.of_nat (length l)) in Hv by lia. lia.
Qed.
Lemma block_family n len ones a :
  cidr_net n len ones → net_plain n len ones → valid_ip a →
  addr (IPNet_IP n) ≤ addr a < addr (IPNet_IP n) + 2 ^ host_bits len ones → is_v4 a = is_v4 (IPNet_IP n).
Proof.
  intros Hn Hp Ha Hin. apply Bool.eq_true_iff_eq. rewrite is_v4_addr by done. symmetry. by apply (plain_family n len ones).
Qed.

Lemma nextIP_spec n len ones b l :
  cidr_net n len ones → net_plain n len ones → 1 ≤ host_bits len ones → IPNet_IP n = b :: l → b ≠ 0 →
  ipToInt (nextIP (IPNet_IP n)) = addr (IPNet_IP n) + 1 - (if is_v4 (IPNet_IP n) then v4_first else 0).
Proof.
  intros Hn Hp Hh Hip Hb0. destruct (net_ip_ok n len ones Hn) as (Hb & Hl & _). pose proof (net_ip_valid n len ones Hn) as Hv.
  assert (2 ^ 1 ≤ 2 ^ host_bits len ones) as Hpow by (apply Z.pow_le_mono_r; lia).
  unfold nextIP. rewrite (ipToInt_addr _ Hv). pose proof (be_bounds _ Hb) as Hbe. rewrite Hl in Hbe.
  assert (256 ^ (Z.of_nat len - 1) ≤ be (IPNet_IP n)) as Hlow.
  { pose proof Hb as Hb'. rewrite Hip in Hb'. apply Forall_cons in Hb' as [H0 Hbl]. pose proof (be_bounds l Hbl).
    rewrite Hip, be_cons. rewrite Hip in Hl. cbn [length] in Hl. unfold byte_ok in H0.
    replace (Z.of_nat len - 1) with (Z.of_nat (length l)) by lia. nia. }
  pose proof (plain_family n len ones (addr (IPNet_IP n) + 1) Hn Hp) as Hfam. unfold net_plain in Hp. cbv zeta in Hp.
  destruct (net_addr n len ones Hn) as [(El & E & _ & Ha)|(El & E & _ & Ha)]; rewrite E in *; rewrite Ha in *; clear Hl Hn; subst len.
  - change (256 ^ Z.of_nat 4) with (2 ^ 32) in *. unfold v4_first, v4_last in *.
    rewrite (intToIP_spec 4) by (change (256 ^ Z.of_nat 4) with (2 ^ 32); change (256 ^ (Z.of_nat 4 - 1)) with (2 ^ 24) in *; lia).
    assert (To4 (to_bytes 4 (281470681743360 + be (IPNet_IP n) - 281470681743360 + 1)) = to_bytes 4 (be (IPNet_IP n) + 1)) as E4.
    { unfold To4. rewrite decide_True by apply to_bytes_length. f_equal. lia. }
    unfold ipToInt. rewrite E4. rewrite decide_False by (intros H0; apply (f_equal length) in H0; by rewrite to_bytes_length in H0).
    rewrite be_to_bytes, Z.mod_small by (change (256 ^ Z.of_nat 4) with (2 ^ 32); lia). lia.
  - change (256 ^ Z.of_nat 16) with (2 ^ 128) in *. unfold v4_first, v4_last in *.
    rewrite (intToIP_spec 16) by (change (256 ^ Z.of_nat 16) with (2 ^ 128); change (256 ^ (Z.of_nat 16 - 1)) with (2 ^ 120) in *; lia).
    rewrite Z.sub_0_r. change (to_bytes 16 ?z) with (of_addr z). rewrite ipToInt_addr by apply of_addr_valid.
    rewrite addr_of_addr by lia. destruct (is_v4 (of_addr (be (IPNet_IP n) + 1))) eqn:E4; [|done].
    apply is_v4_addr in E4; [|apply of_addr_valid]. rewrite addr_of_addr in E4 by lia. exfalso.
    assert (false = true); [|done]. apply Hfam; unfold v4_first, v4_last in *; lia.
Qed.

(** What is known of a valid plain range. *)
Lemma valid_range_net r : plain_cidr r → valid_range r →
  ∃ ip n len ones, ParseCIDR (ar_CIDR r) = Some (ip, n) ∧ net_of r = n ∧ host_of r = host_bits len ones ∧
    cidr_net n len ones ∧ net_plain n len ones ∧ 1 ≤ host_bits len ones.
Proof.
  intros Hp [_ (ip & n & HC & _) Hh _ _ _ _ _ _]. destruct (Hp ip n HC) as (len & ones & Hn & Hpl).
  destruct (host_of_net r ip n len ones HC Hn) as [En Eh]. exists ip, n, len, ones. split_and!; try done.
  rewrite Eh in Hh. pose proof (cn_ones _ _ _ Hn). unfold host_bits in *. lia.
Qed.

Lemma bound_parse r t : bound_in r t → ParseIP t = [] ∨ (valid_ip (ParseIP t) ∧ in_cidr r (ParseIP t)).
Proof. intros [->|[H ?]]; [by left|right]. split; [by apply ParseIP_valid|done]. Qed.

Lemma given_text r t : bound_in r t → (if nonempty t then ParseIP t else []) = ParseIP t.
Proof. intros [->|[H _]]; [done|]. unfold nonempty. by case_bool_decide; subst. Qed.

(** The capacity is the size, in 64 bits. *)
Lemma CalculateCapacity_spec r :
  plain_cidr r → valid_range r → leading r → CalculateCapacity r = int64 (size_of r).
Proof.
  intros Hp Hv Hlead. destruct (valid_range_net r Hp Hv) as (ip & n & len & ones & HC & En & Eh & Hn & Hpl & Hh).
  destruct Hv as [_ _ _ Hst Hen _ _ _ _]. unfold CalculateCapacity. rewrite HC. cbv zeta.
  rewrite (given_text r _ Hst), (given_text r _ Hen).
  set (off := if is_v4 (IPNet_IP n) then v4_first else 0).
  assert (ipToInt (if decide (ParseIP (ar_Start r) = []) then nextIP (IPNet_IP n) else ParseIP (ar_Start r)) = first_addr r - off) as E1.
  { unfold first_addr. destruct (bound_parse r _ Hst) as [H0|(Hvs & Hf & _)].
    - rewrite !decide_True by done. unfold base_of. rewrite En. destruct Hlead as (b & l & Hip & Hb).
      + destruct Hst as [?|[? _]]; [done|]. done.
      + rewrite En in Hip. by apply (nextIP_spec n len ones b l).
    - rewrite !decide_False by (intros H0; rewrite H0 in Hvs; by destruct Hvs as [_ [?|?]]).
      rewrite ipToInt_addr, Hf, En by done. done. }
  assert (ipToInt (if decide (ParseIP (ar_End r) = []) then lastIP n else ParseIP (ar_End r)) = last_addr r - off) as E2.
  { unfold last_addr. destruct (bound_parse r _ Hen) as [H0|(Hvs & Hf & _)].
    - rewrite !decide_True by done. change (lastIP n) with (last_ip n).
      destruct (last_ip_spec n len ones Hn Hh) as [Hvl Hal]. unfold base_of. rewrite En, Eh, ipToInt_addr by done.
      assert (2 ^ 1 ≤ 2 ^ host_bits len ones) by (apply Z.pow_le_mono_r; lia).
      rewrite (block_family n len ones) by (done || (rewrite Hal; destruct (is_v4 (IPNet_IP n)); lia)). rewrite Hal. done.
    - rewrite !decide_False by (intros H0; rewrite H0 in Hvs; by destruct Hvs as [_ [?|?]]).
      rewrite ipToInt_addr, Hf, En by done. done. }
  match goal with |- context [capacity ?a ?b] => destruct (capacity_spec a b) as [k ->] end.
  rewrite E1, E2, <-(int64_cong (size_of r) k). f_equal. unfold size_of. lia.
Qed.
End ranges.

(** ** Two ranges with an address in common *)

Definition text_of (z : Z) : string := IP_String (of_addr z).

Lemma text_of_addr a : valid_ip a → IP_String a = text_of (addr a).
Proof. intros Ha. unfold text_of. by rewrite of_addr_addr, IP_String_To16. Qed.

Lemma text_of_inj z z' : 0 ≤ z < 2 ^ 128 → 0 ≤ z' < 2 ^ 128 → text_of z = text_of z' → z = z'.
Proof.
  intros Hz Hz' E. apply IP_String_inj in E; [|apply of_addr_valid..].
  rewrite !To16_of_addr in E. rewrite <-(addr_of_addr z), <-(addr_of_addr z') by done. by rewrite E.
Qed.

Section meet.
Context {P : CNIPlugins} {L : CNIPluginsLaws P} {T : StrSets} {TL : StrSetsLaws T}.
Implicit Types r : AddressRange.

Lemma intersect_loop_spec fuel i e exB setA :
  range_ok i e → (range_fuel i e ≤ fuel)%nat →
  (∃ b, intersect_loop fuel i e exB setA = Ret b) ∧
  (intersect_loop fuel i e exB setA = Ret false ↔
     ∀ z, addr i ≤ z ≤ addr e → StrSet_Contains exB (text_of z) = false → StrSet_Contains setA (text_of z) = false).
Proof.
  revert i. induction fuel as [|fuel IH]; intros i Hr Hf; unfold range_fuel in Hf; [lia|].
  pose proof Hr as (Hi & He & Hfam & _). cbn [intersect_loop]. rewrite Cmp_le by done.
  destruct (Z.leb_spec (addr i) (addr e)) as [Hle|Hgt].
  2: { split; [by eexists|]. split; [|done]. intros _ z Hz. lia. }
  destruct (range_ok_next i e Hr Hle) as (Hr' & Hz & _).
  destruct (IH (NextIP i) Hr') as [IH1 IH2]; [unfold range_fuel; rewrite Hz; lia|]. rewrite Hz in IH2.
  rewrite (text_of_addr i Hi). destruct (StrSet_Contains exB _) eqn:Hex; [|destruct (StrSet_Contains setA _) eqn:HA].
  - split; [done|]. rewrite IH2. split; intros H z Hin Hx; [|apply H; [lia|done]].
    destruct (decide (z = addr i)) as [->|]; [congruence|]. apply H; [lia|done].
  - split; [by eexists|]. split; [done|]. intros H. rewrite H in HA; [done|lia|done].
  - split; [done|]. rewrite IH2. split; intros H z Hin Hx; [|apply H; [lia|done]].
    destruct (decide (z = addr i)) as [->|]; [done|]. apply H; [lia|done].
Qed.

Lemma range_set_spec ex l s x :
  StrSet_Contains (foldl (λ set i, if StrSet_Contains (NewStrSetFrom ex) (IP_String i) then set
                                   else StrSet_Add set (IP_String i)) s l) x = true ↔
    StrSet_Contains s x = true ∨ ((x ∉ ex) ∧ ∃ i, i ∈ l ∧ IP_String i = x).
Proof.
  revert s. induction l as [|i l IH]; intros s; cbn [foldl].
  { split; [by left|]. intros [?|(_ & i & Hi & _)]; [done|]. by apply elem_of_nil in Hi. }
  rewrite IH. setoid_rewrite elem_of_cons. rewrite StrSet_Contains_from. case_bool_decide as Hex.
  - naive_solver.
  - rewrite StrSet_Contains_add, orb_true_iff, bool_decide_eq_true. naive_solver.
Qed.

Definition start_ip r : list Z :=
  if bool_decide (ParseIP (ar_Start r) = []) then NextIP (IPNet_IP (net_of r)) else ParseIP (ar_Start r).
Definition end_ip r : list Z :=
  if bool_decide (ParseIP (ar_End r) = []) then LastIP (net_of r) else ParseIP (ar_End r).

(** The ends of a valid range, and the loop between them. *)
Lemma range_ends r : plain_cidr r → valid_range r →
  addr (start_ip r) = first_addr r ∧ addr (end_ip r) = last_addr r ∧ range_ok (start_ip r) (end_ip r) ∧
  in_cidr r (start_ip r) ∧ in_cidr r (end_ip r).
Proof.
  intros Hp Hv. destruct (valid_range_net r Hp Hv) as (ip & n & len & ones & HC & En & Eh & Hn & Hpl & Hh).
  destruct Hv as [_ _ _ Hst Hen _ _ _ _]. pose proof (net_ip_valid n len ones Hn) as Hvn.
  assert (2 ^ 1 ≤ 2 ^ host_bits len ones) by (apply Z.pow_le_mono_r; lia).
  assert (valid_ip (start_ip r) ∧ in_cidr r (start_ip r) ∧ addr (start_ip r) = first_addr r) as (Hvs & Hs & Hs').
  { unfold start_ip, first_addr. destruct (bound_parse r _ Hst) as [H0|[H1 H2]].
    - rewrite bool_decide_eq_true_2, decide_True by done. unfold in_cidr, base_of. rewrite En, Eh.
      assert (has_next (addr (IPNet_IP n))) as Hnext by (apply (net_has_next n len ones Hn Hpl); lia).
      destruct (NextIP_law _ Hvn Hnext) as [Hv' Ha]. rewrite Ha. split_and!; try (done || lia). by apply NextIP_family.
    - rewrite bool_decide_eq_false_2, decide_False by (intros H0; rewrite H0 in H1; by destruct H1 as [_ [?|?]]). done. }
  assert (valid_ip (end_ip r) ∧ in_cidr r (end_ip r) ∧ addr (end_ip r) = last_addr r) as (Hve & He & He').
  { unfold end_ip, last_addr. destruct (bound_parse r _ Hen) as [H0|[H1 H2]].
    - rewrite bool_decide_eq_true_2, decide_True by done. unfold in_cidr, base_of. rewrite En, Eh.
      change (LastIP n) with (last_ip n). destruct (last_ip_spec n len ones Hn Hh) as [Hv' Ha].
      assert (addr (IPNet_IP n) ≤ addr (last_ip n) < addr (IPNet_IP n) + 2 ^ host_bits len ones)
        by (rewrite Ha; destruct (is_v4 (IPNet_IP n)); lia).
      split_and!; try (done || lia). by apply (block_family n len ones).
    - rewrite bool_decide_eq_false_2, decide_False by (intros H0; rewrite H0 in H1; by destruct H1 as [_ [?|?]]). done. }
  split; [done|]. split; [done|]. split; [|done]. split; [done|]. split; [done|].
  destruct Hs as [Hfs Has], He as [Hfe Hae]. split; [congruence|].
  unfold base_of in *. rewrite En, Eh in *. intros z Hz. apply (net_has_next n len ones Hn Hpl). lia.
Qed.
(** The addresses of a range are in its network. *)
Lemma in_range_cidr r z : plain_cidr r → valid_range r → first_addr r ≤ z ≤ last_addr r →
  base_of r ≤ z < base_of r + 2 ^ host_of r ∧ 0 ≤ z < 2 ^ 128 ∧
  (is_v4 (IPNet_IP (net_of r)) = true ↔ v4_first ≤ z ≤ v4_last).
Proof.
  intros Hp Hv Hz. destruct (range_ends r Hp Hv) as (E1 & E2 & (Hs & He & _) & [_ H1] & [_ H2]).
  pose proof (addr_bounds _ Hs). pose proof (addr_bounds _ He).
  destruct (valid_range_net r Hp Hv) as (ip & n & len & ones & HC & En & Eh & Hn & Hpl & _).
  split; [lia|]. split; [lia|]. unfold base_of in *. rewrite En, Eh in *. apply (plain_family n len ones); [done|done|lia].
Qed.

Lemma net_contains_base r r' : plain_cidr r → valid_range r → plain_cidr r' → valid_range r' →
  is_v4 (IPNet_IP (net_of r)) = is_v4 (IPNet_IP (net_of r')) → base_of r ≤ base_of r' < base_of r + 2 ^ host_of r →
  IPNet_Contains (net_of r) (IPNet_IP (net_of r')) = true.
Proof.
  intros Hp Hv Hp' Hv' Hf Hb. destruct (valid_range_net r Hp Hv) as (ip & n & len & ones & HC & En & Eh & Hn & Hpl & _).
  destruct (valid_range_net r' Hp' Hv') as (ip' & n' & len' & ones' & HC' & En' & Eh' & Hn' & _).
  rewrite En at 1. apply (in_cidr_Contains r ip n len ones); [done..|rewrite En'; by eapply net_ip_valid|].
  by split.
Qed.

(** The set of the first range, at an address of the second. *)
Lemma range_set_mem r l z : plain_cidr r → valid_range r → 0 ≤ z < 2 ^ 128 → Forall valid_ip l →
  addr <$> l = seqZ (addr (start_ip r)) (addr (end_ip r) - addr (start_ip r) + 1) →
  StrSet_Contains (foldl (λ set i, if StrSet_Contains (NewStrSetFrom (ar_ExcludeIPs r)) (IP_String i) then set
                                   else StrSet_Add set (IP_String i)) NewStrSet l) (text_of z) = true ↔ in_range r z.
Proof.
  intros Hp Hv Hz Hl Hmap. destruct (range_ends r Hp Hv) as (Es & Ee & _). unfold in_range. fold (text_of z).
  rewrite range_set_spec, StrSet_Contains_new. rewrite Forall_forall in Hl. split.
  - intros [?|(Hx & i & Hi & Ei)]; [done|]. split; [|done].
    rewrite text_of_addr in Ei by auto. apply text_of_inj in Ei; [|by apply addr_bounds, Hl|done].
    assert (addr i ∈ addr <$> l) as Hin by (by apply list_elem_of_fmap_2).
    rewrite Hmap, elem_of_seqZ, Es, Ee in Hin. lia.
  - intros [Hin Hx]. right. split; [done|].
    assert (z ∈ addr <$> l) as (i & -> & Hi)%list_elem_of_fmap by (rewrite Hmap, elem_of_seqZ, Es, Ee; lia).
    exists i. split; [done|]. by apply text_of_addr, Hl.
Qed.

(** Valid ranges of the same version intersect when they have an address in
    common that neither excludes. *)
Lemma Intersect_spec A B : plain_cidr A → valid_range A → plain_cidr B → valid_range B →
  Intersect A B = Ret false ↔ ar_Version A ≠ ar_Version B ∨ ∀ z, in_range A z → ¬ in_range B z.
Proof.
  intros HpA HvA HpB HvB. unfold Intersect. case_bool_decide as Hver; cbn [negb]; [|tauto].
  destruct (valid_range_net A HpA HvA) as (ipA & nA & _ & _ & HCA & EA & _).
  destruct (valid_range_net B HpB HvB) as (ipB & nB & _ & _ & HCB & EB & _).
  rewrite HCA, HCB. rewrite <-EA, <-EB. cbv zeta.
  change (if bool_decide (ParseIP (ar_Start A) = []) then _ else _) with (start_ip A).
  change (if bool_decide (ParseIP (ar_Start B) = []) then _ else _) with (start_ip B).
  change (if bool_decide (ParseIP (ar_End A) = []) then _ else _) with (end_ip A).
  change (if bool_decide (ParseIP (ar_End B) = []) then _ else _) with (end_ip B).
  case_match eqn:Hnet.
  - apply andb_true_iff in Hnet as [Hn1 Hn2]. apply negb_true_iff in Hn1, Hn2. split; [|done]. intros _. right.
    intros z [HA _] [HB _]. destruct (in_range_cidr A z HpA HvA HA) as (HbA & _ & HfA).
    destruct (in_range_cidr B z HpB HvB HB) as (HbB & _ & HfB).
    assert (is_v4 (IPNet_IP (net_of A)) = is_v4 (IPNet_IP (net_of B))) as Hf by (apply Bool.eq_true_iff_eq; tauto).
    destruct (Z.le_ge_cases (base_of A) (base_of B)).
    + rewrite net_contains_base in Hn1; [done..|lia].
    + rewrite net_contains_base in Hn2; [done..|lia].
  - destruct (range_ends A HpA HvA) as (_ & _ & HrA & _). destruct (range_ends B HpB HvB) as (EsB & EeB & HrB & _).
    destruct (ip_range_spec (range_fuel (start_ip A) (end_ip A)) _ _ HrA (Nat.le_refl _)) as (l & -> & Hl & Hmap).
    match goal with |- intersect_loop _ _ _ ?ex ?set = _ ↔ _ =>
      destruct (intersect_loop_spec _ _ _ ex set HrB (Nat.le_refl _)) as [_ ->] end.
    rewrite EsB, EeB. split.
    + intros H. right. intros z HA [Hz Hx]. destruct (in_range_cidr B z HpB HvB Hz) as (_ & Hz128 & _).
      apply (range_set_mem A l z HpA HvA Hz128 Hl Hmap) in HA.
      rewrite H in HA; [done..|]. rewrite StrSet_Contains_from. by apply bool_decide_eq_false.
    + intros [?|H] z Hz Hx; [done|]. rewrite StrSet_Contains_from in Hx. apply bool_decide_eq_false in Hx.
      destruct (in_range_cidr B z HpB HvB Hz) as (_ & Hz128 & _). apply not_true_is_false. intros Hc.
      apply (range_set_mem A l z HpA HvA Hz128 Hl Hmap) in Hc. by apply (H z Hc).
Qed.
End meet.
