(* ===== verification/IPAMPool.v ===== *)
(** * A subnet is a pool of addresses

    The abstract specification of a synchronised subnet: which addresses it
    has, which are reserved and who holds which; the rules by which a holding
    may change.  The operations of pkg/ipam/types/subnet.go refine it, from
    which what holds of every history of a pool holds of every history of a
    subnet. *)

From S2P Require Import Prelude GoNet CNIPlugins NetworkingV1 Utils IPAMTypes IPAMSubnet IPAMSync.
Local Open Scope Z_scope.

(** ** The abstract pool *)

Record Holder := mkHolder { ho_Namespace : string; ho_Pod : string; ho_Status : string }.

Record Pool := mkPool {
  pl_ring : gset string;
  pl_reserved : gset string;
  pl_held : gmap string Holder
}.

Inductive pool_op :=
  | OpAllocate (pod ns : string)
  | OpAssign (pod ns x : string) (forced : bool)
  | OpRelease (x : string).

#[export] Instance pool_op_eq_dec : EqDecision pool_op.
Proof. solve_decision. Defined.

Inductive pool_res :=
  | ResGot (x : string)
  | ResNone
  | ResDone
  | ResErr (e : error)
  | ResPanic.

Definition pl_hold (f : gmap string Holder → gmap string Holder) (p : Pool) : Pool :=
  mkPool (pl_ring p) (pl_reserved p) (f (pl_held p)).

(** A text given as [""] does not change what is recorded. *)
Definition keep (new old : string) : string := if nonempty new then new else old.

Inductive pool_step : Pool → pool_op → pool_res → Pool → Prop :=
  | step_allocate p pod ns x :
      x ∈ pl_ring p → pl_held p !! x = None →
      pool_step p (OpAllocate pod ns) (ResGot x)
        (pl_hold <[x := mkHolder ns pod IPStatusUsing]> p)
  | step_exhausted p pod ns :
      (∀ x, x ∈ pl_ring p → is_Some (pl_held p !! x)) →
      pool_step p (OpAllocate pod ns) ResNone p
  | step_assign p pod ns x forced :
      x ∈ pl_ring p → pl_held p !! x = None →
      pool_step p (OpAssign pod ns x forced) (ResGot x)
        (pl_hold <[x := mkHolder ns pod IPStatusUsing]> p)
  | step_assign_again p pod ns x forced st :
      pl_held p !! x = Some (mkHolder ns pod st) →
      pool_step p (OpAssign pod ns x forced) (ResGot x)
        (pl_hold <[x := mkHolder ns pod IPStatusUsing]> p)
  | step_assign_forced p pod ns x ns' pod' :
      pl_held p !! x = Some (mkHolder ns' pod' IPStatusReserved) →
      pool_step p (OpAssign pod ns x true) (ResGot x)
        (pl_hold <[x := mkHolder (keep ns ns') (keep pod pod') IPStatusUsing]> p)
  | step_assign_unknown p pod ns x forced :
      x ∉ pl_ring p → x ∉ pl_reserved p →
      pool_step p (OpAssign pod ns x forced) (ResErr ErrNotFoundAssignedIP) p
  | step_assign_taken p pod ns x forced h :
      pl_held p !! x = Some h → ¬ (ho_Namespace h = ns ∧ ho_Pod h = pod) →
      ¬ (forced = true ∧ ho_Status h = IPStatusReserved) →
      pool_step p (OpAssign pod ns x forced) (ResErr ErrNotAvailableAssignedIP) p
  | step_release_reserved p x :
      x ∈ pl_reserved p →
      pool_step p (OpRelease x) ResDone
        (pl_hold (alter (λ h, mkHolder (ho_Namespace h) (ho_Pod h) IPStatusReserved) x) p)
  | step_release p x :
      x ∉ pl_reserved p →
      pool_step p (OpRelease x) ResDone (pl_hold (delete x) p).

(** A history: the operations with their results. *)
Inductive pool_trace : Pool → list (pool_op * pool_res) → Pool → Prop :=
  | trace_nil p : pool_trace p [] p
  | trace_cons p op r p1 tr p2 :
      pool_step p op r p1 → pool_trace p1 tr p2 → pool_trace p ((op, r) :: tr) p2.

Lemma pool_step_held p op r p' x :
  pool_step p op r p' → is_Some (pl_held p !! x) → op ≠ OpRelease x → is_Some (pl_held p' !! x).
Proof.
  intros Hstep Hx Hop. destruct Hstep; cbn [pl_hold pl_held]; try done.
  - apply lookup_insert_is_Some'. auto.
  - apply lookup_insert_is_Some'. auto.
  - apply lookup_insert_is_Some'. auto.
  - apply lookup_insert_is_Some'. auto.
  - by rewrite lookup_alter_is_Some.
  - rewrite lookup_delete_ne; [done|]. by intros ->.
Qed.

Lemma pool_trace_held p tr p' x :
  pool_trace p tr p' → is_Some (pl_held p !! x) → (∀ r, (OpRelease x, r) ∉ tr) → is_Some (pl_held p' !! x).
Proof.
  induction 1 as [|p op r p1 tr p2 Hstep _ IH]; intros Hx Hno; [done|].
  apply IH.
  - eapply pool_step_held; [done..|]. intros ->. by apply (Hno r); left.
  - intros r' Hr. apply (Hno r'). by right.
Qed.

(** An address that was given out is not given to another allocation before
    it is released. *)
Lemma pool_trace_no_double p pod ns x mid pod' ns' p' :
  pool_trace p ((OpAllocate pod ns, ResGot x) :: mid ++ [(OpAllocate pod' ns', ResGot x)]) p' →
  ∃ r, (OpRelease x, r) ∈ mid.
Proof.
  intros Htr. destruct (decide (Exists (λ e, e.1 = OpRelease x) mid)) as [He|He].
  - apply Exists_exists in He as ([op r] & Hin & Heq). cbn in Heq. subst. eauto.
  - exfalso. inversion Htr as [|? ? ? p1 ? ? Hstep Hmid]; subst.
    assert (is_Some (pl_held p1 !! x)) as H1.
    { inversion Hstep; subst. cbn. rewrite lookup_insert_eq. eauto. }
    clear Hstep Htr. revert p1 H1 Hmid. induction mid as [|[op r] mid IH]; intros p1 H1 Hmid.
    + inversion Hmid as [|? ? ? ? ? ? Hstep]; subst. inversion Hstep as [? ? ? ? ? Hn| | | | | | | |]; subst.
      rewrite Hn in H1. by destruct H1.
    + inversion Hmid as [|? ? ? ? ? ? Hstep Hrest]; subst. eapply IH; [|..|exact Hrest].
      * intros Hex. apply He. by right.
      * eapply pool_step_held; [done..|]. intros ->. apply He. by left.
Qed.

(** What a pod holds stays its own until it is released. *)
Lemma pool_step_using p op r p' x ns pod :
  pool_step p op r p' → pl_held p !! x = Some (mkHolder ns pod IPStatusUsing) → op ≠ OpRelease x →
  pl_held p' !! x = Some (mkHolder ns pod IPStatusUsing).
Proof.
  intros Hstep Hx Hop. assert (IPStatusUsing ≠ IPStatusReserved) by done.
  destruct Hstep as [? ? ? y|?|? ? ? y|? ? ? y|? ? ? y| |? ? ? y|? y|? y];
    cbn [pl_hold pl_held]; try done; destruct (decide (x = y)) as [->|];
    rewrite ?lookup_insert_ne, ?lookup_alter_ne, ?lookup_delete_ne by done; try done; try congruence.
  rewrite lookup_insert_eq. congruence.
Qed.

Lemma pool_trace_using p tr p' x ns pod :
  pool_trace p tr p' → pl_held p !! x = Some (mkHolder ns pod IPStatusUsing) →
  (∀ r, (OpRelease x, r) ∉ tr) → pl_held p' !! x = Some (mkHolder ns pod IPStatusUsing).
Proof.
  induction 1 as [|p op r p1 tr p2 Hstep _ IH]; intros Hx Hno; [done|].
  apply IH.
  - eapply pool_step_using; [done..|]. intros ->. by apply (Hno r); left.
  - intros r' Hr. apply (Hno r'). by right.
Qed.

Lemma pool_step_no_panic p op p' : ¬ pool_step p op ResPanic p'.
Proof. inversion 1. Qed.

Lemma pool_trace_no_panic p tr p' : pool_trace p tr p' → ResPanic ∉ (tr.*2).
Proof.
  induction 1 as [|p op r p1 tr p2 Hstep _ IH]; [apply not_elem_of_nil|].
  rewrite fmap_cons, not_elem_of_cons. split; [|done].
  cbn. intros <-. by eapply pool_step_no_panic.
Qed.

Lemma pool_trace_app p tr1 tr2 p' :
  pool_trace p (tr1 ++ tr2) p' ↔ ∃ p1, pool_trace p tr1 p1 ∧ pool_trace p1 tr2 p'.
Proof.
  split.
  - revert p. induction tr1 as [|e tr1 IH]; intros p Ht; [by exists p; split; [constructor|]|].
    inversion Ht as [|? ? ? p1 ? ? Hstep Hrest]; subst.
    destruct (IH p1 Hrest) as (p2 & H1 & H2). exists p2. split; [by econstructor|done].
  - intros (p1 & H1 & H2). induction H1; [done|]. cbn. econstructor; eauto.
Qed.

(** ** The subnet as a pool *)

Section refinement.
Context {P : CNIPlugins} {L : CNIPluginsLaws P}.
Implicit Types s : Subnet.

Definition holder (c : IP) : Holder := mkHolder (ip_PodNamespace c) (ip_PodName c) (ip_Status c).

Definition abs s : Pool :=
  mkPool (list_to_set (sl_IPs (sn_AvailableIPs s))) (sn_ReservedList s) (holder <$> sn_UsingIPs s).

(** The operations as the program runs them. *)
Definition ip_text (c : IP) : string :=
  match ip_Address c with Some a => IP_String (IPNet_IP a) | None => "" end.

Definition res_of (o : outcome (option IP)) : pool_res :=
  match o with
  | Ret (Some c) => ResGot (ip_text c)
  | Ret None => ResNone
  | Fail e => ResErr e
  | Panic | Diverge => ResPanic
  end.

Definition run_op (op : pool_op) s : pool_res * Subnet :=
  match op with
  | OpAllocate pod ns => let '(o, s') := Subnet_AllocateNext pod ns s in (res_of o, s')
  | OpAssign pod ns x forced => let '(o, s') := Subnet_Assign pod ns x forced s in (res_of o, s')
  | OpRelease x => let '(_, s') := Subnet_Release x s in (ResDone, s')
  end.

Fixpoint run_ops (ops : list pool_op) s : list (pool_op * pool_res) * Subnet :=
  match ops with
  | [] => ([], s)
  | op :: ops => let '(r, s1) := run_op op s in
                 let '(tr, s2) := run_ops ops s1 in ((op, r) :: tr, s2)
  end.

(** The texts given to [Assign] are the canonical texts of addresses. *)
Definition op_ok (op : pool_op) : Prop :=
  match op with OpAssign _ _ x _ => canonical x | _ => True end.

Lemma newIP_text s x pod ns st : canonical x → ip_text (Subnet_newIP s x pod ns st) = x.
Proof. by intros [_ Hx]. Qed.

Lemma abs_insert s x pod ns sl :
  sl_IPs sl = sl_IPs (sn_AvailableIPs s) →
  abs (sn_set_UsingIPs (<[x := Subnet_newIP s x pod ns IPStatusUsing]> (sn_UsingIPs s)) (sn_set_AvailableIPs sl s))
  = pl_hold <[x := mkHolder ns pod IPStatusUsing]> (abs s).
Proof. intros E. unfold abs, pl_hold. cbn. by rewrite fmap_insert, E. Qed.

Lemma abs_update s x pod ns st c :
  sn_UsingIPs s !! x = Some c → nonempty st = true →
  abs (sn_set_UsingIPs (IPSet_Update (sn_UsingIPs s) x pod ns st) s)
  = pl_hold <[x := mkHolder (keep ns (ip_PodNamespace c)) (keep pod (ip_PodName c)) st]> (abs s).
Proof.
  intros Hx Hst. rewrite IPSet_Update_spec. unfold abs, pl_hold. cbn. f_equal.
  apply map_eq. intros y. rewrite lookup_fmap. destruct (decide (x = y)) as [<-|Hne].
  - rewrite lookup_alter_eq, lookup_insert_eq, Hx. cbn. unfold holder. cbn. by rewrite Hst.
  - by rewrite lookup_alter_ne, lookup_insert_ne, lookup_fmap by done.
Qed.

Lemma abs_held s x c : sn_UsingIPs s !! x = Some c → pl_held (abs s) !! x = Some (holder c).
Proof. intros Hx. cbn. by rewrite lookup_fmap, Hx. Qed.

Lemma abs_held_inv s x h : pl_held (abs s) !! x = Some h ↔ ∃ c, sn_UsingIPs s !! x = Some c ∧ h = holder c.
Proof. cbn. rewrite lookup_fmap, fmap_Some. done. Qed.

Lemma abs_free s x : sn_UsingIPs s !! x = None → pl_held (abs s) !! x = None.
Proof. intros Hx. cbn. by rewrite lookup_fmap, Hx. Qed.

Lemma abs_contained s x :
  subnet_ok s → canonical x →
  Subnet_Contains s (ParseIP x) = true ↔ x ∈ pl_ring (abs s) ∨ x ∈ pl_reserved (abs s).
Proof.
  intros Hok Hx. cbn. rewrite elem_of_list_to_set, (ok_avail s Hok). split.
  - intros Hc. destruct (decide (x ∈ sn_ReservedList s)); [by right|by left].
  - intros [(_ & ? & _)|?]; [done|by apply (ok_reserved_contains s Hok)].
Qed.

Lemma run_allocate_refines s pod ns :
  subnet_ok s →
  let '(r, s') := run_op (OpAllocate pod ns) s in
  subnet_ok s' ∧ pool_step (abs s) (OpAllocate pod ns) r (abs s').
Proof.
  intros Hok. unfold run_op.
  destruct (AllocateNext_cases s pod ns Hok) as
    [(x & s' & Hx & Hok' & -> & HU & HR & HA & _)|(Hnil & s' & Hok' & -> & HU & HR & HA & _)].
  - split; [done|]. apply free_elem_of in Hx as [Hx Hf].
    cbn [res_of]. rewrite newIP_text by (by apply (ok_avail s Hok) in Hx as [? _]).
    replace (abs s') with (pl_hold <[x := mkHolder ns pod IPStatusUsing]> (abs s)).
    + constructor; [|by apply abs_free]. cbn. by apply elem_of_list_to_set.
    + unfold abs, pl_hold. by rewrite HU, HR, HA, fmap_insert.
  - split; [done|]. replace (abs s') with (abs s) by (unfold abs; by rewrite HU, HR, HA).
    constructor. intros x. cbn. rewrite elem_of_list_to_set, lookup_fmap, fmap_is_Some.
    intros Hx. destruct (sn_UsingIPs s !! x) eqn:Hu; [eauto|].
    exfalso. apply (not_elem_of_nil x). rewrite <-Hnil. by apply free_elem_of.
Qed.

Lemma run_assign_refines s pod ns x forced :
  subnet_ok s → canonical x →
  let '(r, s') := run_op (OpAssign pod ns x forced) s in
  subnet_ok s' ∧ pool_step (abs s) (OpAssign pod ns x forced) r (abs s').
Proof.
  intros Hok Hx. pose proof (Assign_ok s pod ns x forced Hok Hx) as Hok'. unfold run_op.
  destruct (Subnet_Assign pod ns x forced s) as [o s'] eqn:E. split; [done|]. clear Hok'.
  pose proof (abs_contained s x Hok Hx) as Hin.
  destruct (Assign_cases s pod ns x forced) as
    [[Hc H]|[(Hc & Hu & H)|[(c & Hc & Hu & Hor & H)|(c & Hc & Hu & Hne & Hnf & H)]]];
    rewrite E in H; injection H as -> ->.
  - constructor; intros ?; rewrite Hc in Hin; destruct Hin as [_ Hin]; by discriminate Hin; auto.
  - cbn [res_of]. rewrite newIP_text by done. pose proof (abs_insert s x pod ns (sn_AvailableIPs s) eq_refl) as Ha.
    rewrite sn_set_AvailableIPs_id in Ha. rewrite Ha. apply step_assign; [|by apply abs_free].
    apply Hin in Hc as [?|Hr]; [done|]. exfalso.
    destruct (ok_reserved s Hok x Hr) as [c Hc]. congruence.
  - rewrite (abs_update s x pod ns _ c) by done.
    assert (ResGot x = res_of (Ret (IPSet_Update (sn_UsingIPs s) x pod ns IPStatusUsing !! x))) as <-.
    { rewrite IPSet_Update_spec, lookup_alter_eq, Hu. cbn [fmap option_fmap option_map res_of]. f_equal.
      destruct (ok_addr s Hok x c Hu) as (a & Ha & _ & Hx'). unfold ip_text. cbn. by rewrite Ha. }
    pose proof (abs_held s x c Hu) as Hh. unfold holder in Hh.
    destruct Hor as [[Hns Hpod]|[-> Hst]].
    + subst ns pod. unfold keep. destruct (nonempty _), (nonempty _); by eapply step_assign_again.
    + apply step_assign_forced. by rewrite <-Hst.
  - eapply step_assign_taken; [by apply abs_held|done|done].
Qed.

Lemma run_release_refines s x :
  subnet_ok s →
  let '(r, s') := run_op (OpRelease x) s in
  subnet_ok s' ∧ pool_step (abs s) (OpRelease x) r (abs s').
Proof.
  intros Hok. pose proof (Release_ok s x Hok) as Hok'. unfold run_op.
  destruct (Subnet_Release x s) as [o s'] eqn:E. split; [done|]. clear Hok'.
  unfold Subnet_Release, modify, Subnet_IsReservedIP in E. injection E as _ <-.
  case_bool_decide as Hr.
  - eapply eq_rect; [by apply step_release_reserved|].
    destruct (ok_reserved s Hok x Hr) as [c Hc]. rewrite (abs_update s x "" "" _ c) by done.
    unfold pl_hold. f_equal. apply map_eq. intros y. cbn.
    destruct (decide (x = y)) as [<-|]; [|by rewrite lookup_alter_ne, lookup_insert_ne].
    by rewrite lookup_alter_eq, lookup_insert_eq, lookup_fmap, Hc.
  - eapply eq_rect; [by apply step_release|].
    unfold abs, pl_hold, IPSet_Delete. cbn. by rewrite fmap_delete.
Qed.

Lemma run_op_refines s op :
  subnet_ok s → op_ok op →
  let '(r, s') := run_op op s in subnet_ok s' ∧ pool_step (abs s) op r (abs s').
Proof.
  intros Hok Hop. destruct op.
  - by apply run_allocate_refines.
  - by apply run_assign_refines.
  - by apply run_release_refines.
Qed.

Lemma run_ops_refine s ops :
  subnet_ok s → Forall op_ok ops →
  let '(tr, s') := run_ops ops s in subnet_ok s' ∧ tr.*1 = ops ∧ pool_trace (abs s) tr (abs s').
Proof.
  intros Hok Hops. revert s Hok. induction Hops as [|op ops Hop _ IH]; intros s Hok; cbn [run_ops].
  - split; [done|]. split; [done|]. constructor.
  - pose proof (run_op_refines s op Hok Hop) as Hstep.
    destruct (run_op op s) as [r s1]. destruct Hstep as [Hok1 Hstep].
    specialize (IH s1 Hok1). destruct (run_ops ops s1) as [tr s2]. destruct IH as (Hok2 & Htr & Htrace).
    split; [done|]. split; [by cbn; rewrite Htr|]. by econstructor.
Qed.
End refinement.
