(* ===== verification/IPAMSubnetProperties.v ===== *)
(** * What a subnet promises (pkg/ipam/types/subnet.go)

    The properties of a single subnet: [Sync] establishes the invariant, the
    operations refine the abstract pool, histories are safe, allocation is
    round-robin and complete, and the accounting is exact.  A concrete subnet
    carries the witnesses. *)

From S2P Require Import Prelude GoNet CNIPlugins NetworkingV1 Utils IPAMTypes IPAMSubnet IPAMSync NetBlock IPAMCanonical IPAMPool.
Local Open Scope Z_scope.

(** ** Lemmas *)

Section lemmas.
Context {P : CNIPlugins} {L : CNIPluginsLaws P}.
Implicit Types s : Subnet.

Lemma run_ops_app ops1 ops2 s :
  run_ops (ops1 ++ ops2) s =
    let '(tr1, s1) := run_ops ops1 s in
    let '(tr2, s2) := run_ops ops2 s1 in (tr1 ++ tr2, s2).
Proof.
  revert s. induction ops1 as [|op ops1 IH]; intros s; cbn [run_ops app].
  - by destruct (run_ops ops2 s).
  - destruct (run_op op s) as [r s1]. rewrite IH.
    destruct (run_ops ops1 s1) as [tr1 s2]. by destruct (run_ops ops2 s2).
Qed.

Lemma free_insert s s' x c :
  subnet_ok s → x ∈ free s → sn_UsingIPs s' = <[x := c]> (sn_UsingIPs s) →
  sl_IPs (sn_AvailableIPs s') = sl_IPs (sn_AvailableIPs s) →
  free s ≡ₚ x :: free s'.
Proof.
  intros Hok Hx HU HA. pose proof (ok_nodup s Hok) as Hnd.
  assert (∀ y, y ∈ free s' ↔ y ∈ free s ∧ y ≠ x) as Hy.
  { intros y. rewrite !free_elem_of, HU, HA, lookup_insert_None. naive_solver. }
  apply NoDup_Permutation.
  - by apply NoDup_filter.
  - constructor; [rewrite Hy; tauto|]. unfold free. rewrite HA. by apply NoDup_filter.
  - intros y. rewrite elem_of_cons, Hy. destruct (decide (y = x)); naive_solver.
Qed.

Lemma allocate_all n s pod ns :
  subnet_ok s → length (free s) = n →
  ∃ xs, xs ≡ₚ free s ∧
    (run_ops (replicate (S n) (OpAllocate pod ns)) s).1
    = ((λ x, (OpAllocate pod ns, ResGot x)) <$> xs) ++ [(OpAllocate pod ns, ResNone)].
Proof.
  revert s. induction n as [|n IH]; intros s Hok Hn.
  - apply length_nil in Hn. exists []. rewrite Hn. split; [done|].
    destruct (AllocateNext_cases s pod ns Hok) as [(x & s' & Hx & _)|(_ & s' & _ & E & _)].
    + rewrite Hn in Hx. by apply not_elem_of_nil in Hx.
    + cbn. by rewrite E.
  - destruct (AllocateNext_cases s pod ns Hok) as
      [(x & s' & Hx & Hok' & E & HU & _ & HA & _)|(Hnil & _)]; [|by rewrite Hnil in Hn].
    pose proof (free_insert s s' x _ Hok Hx HU HA) as Hp.
    destruct (IH s' Hok') as (xs & Hxs & Hrun).
    { apply Permutation_length in Hp. cbn in Hp. lia. }
    exists (x :: xs). split; [by rewrite Hp, Hxs|].
    rewrite replicate_S. cbn [run_ops run_op]. rewrite E. cbn [res_of].
    apply free_elem_of in Hx as [Hx _]. apply (ok_avail s Hok) in Hx as [Hx _].
    rewrite newIP_text by done.
    destruct (run_ops (replicate (S n) (OpAllocate pod ns)) s') as [tr s2].
    cbn [fst] in *. by rewrite Hrun.
Qed.

Lemma free_length s : (length (free s) ≤ length (sl_IPs (sn_AvailableIPs s)))%nat.
Proof. apply length_filter. Qed.

Lemma IsAvailable_free s :
  subnet_ok s → sn_Private s = false → Subnet_IsAvailable s = true ↔ free s ≠ [].
Proof.
  intros Hok Hp. unfold Subnet_IsAvailable. rewrite Hp, andb_true_r, Z.ltb_lt.
  pose proof (free_count s Hok). destruct (free s); cbn [length] in *; split; done || lia.
Qed.

Lemma Sync_spec parentNetID u s :
  canonicalized s → ipset_ok u → set_Forall canonical (sn_ReservedList s) →
  ∃ l, Forall valid_ip l ∧
       addr <$> l = seqZ (addr (sn_Start s)) (addr (sn_End s) - addr (sn_Start s) + 1) ∧
       Subnet_Sync parentNetID u s = (Ret tt, synced parentNetID u l s) ∧
       subnet_ok (synced parentNetID u l s).
Proof.
  intros Hs Hu Hr. pose proof Hs as (_ & Hrange & _).
  destruct (ip_range_spec (range_fuel (sn_Start s) (sn_End s)) _ _ Hrange) as (l & Hl & Hv & Hseq); [done|].
  exists l. split; [done|]. split; [done|]. split; [by apply Sync_run|by apply synced_ok].
Qed.
End lemmas.

(** ** A concrete subnet

    10.0.0.0/29 with the gateway .1, .4 reserved, .5 excluded, and .2 the last
    allocated; a pod holds .3. *)
Definition w_cidr : option IPNet := snd <$> ParseCIDR "10.0.0.0/29".

Definition w_fresh : Subnet :=
  NewSubnet "subnet1" "network1" None [] [] (ParseIP "10.0.0.1") w_cidr
    {["10.0.0.4"]} {["10.0.0.5"]} (ParseIP "10.0.0.2") false false.

#[local] Existing Instance cni_concrete.
#[local] Existing Instance cni_concrete_laws.

Definition w_spec : Subnet := (Subnet_Canonicalize w_fresh).2.

Definition w_used : IPSet :=
  {["10.0.0.3" := mkIP (Some (mkIPNet (ParseIP "10.0.0.3") [255; 255; 255; 248])) (ParseIP "10.0.0.1")
                    (Some 7) "subnet1" "network1" "pod1" "default" IPStatusUsing]}.

Definition w_subnet : Subnet := (Subnet_Sync (Some 7) w_used w_spec).2.

Example w_subnet_ring : sn_AvailableIPs w_subnet = mkIPSlice ["10.0.0.2"; "10.0.0.3"; "10.0.0.6"] 3 0.
Proof. vm_compute. reflexivity. Qed.

Lemma range_ok_v4 start stop :
  valid_ip start → valid_ip stop → is_v4 start = is_v4 stop →
  v4_first ≤ addr start → addr stop < v4_last → range_ok start stop.
Proof.
  intros Hs He Hf H1 H2. split; [done|]. split; [done|]. split; [done|].
  intros z Hz. unfold has_next, v4_first, v4_last in *. lia.
Qed.

Lemma range_ok_v6 start stop :
  valid_ip start → valid_ip stop → is_v4 start = is_v4 stop →
  v4_last < addr start → addr stop + 1 < 2 ^ 128 → range_ok start stop.
Proof.
  intros Hs He Hf H1 H2. split; [done|]. split; [done|]. split; [done|].
  intros z Hz. unfold has_next, v4_first, v4_last in *. lia.
Qed.

Lemma bytes_valid (l : list Z) :
  forallb (λ b, (0 <=? b) && (b <? 256)) l = true → (length l = 4%nat ∨ length l = 16%nat) → valid_ip l.
Proof.
  intros Hl Hn. split; [|done]. apply Forall_forall. intros b Hb.
  rewrite forallb_forall in Hl. apply list_elem_of_In in Hb. specialize (Hl b Hb).
  unfold byte_ok. lia.
Qed.

Ltac valid_tac := apply bytes_valid; [vm_compute; reflexivity|vm_compute; auto].

Lemma w_spec_canonicalized : canonicalized w_spec.
Proof.
  split; [vm_compute; eauto|]. split; [|vm_compute; split_and!; [done..|]].
  - apply range_ok_v4; [valid_tac..|done| |]; by vm_compute.
  - right. valid_tac.
Qed.

Lemma w_used_ok : ipset_ok w_used.
Proof.
  apply map_Forall_singleton. eexists. split; [done|]. split; [valid_tac|by vm_compute].
Qed.

Lemma w_reserved_ok : set_Forall canonical (sn_ReservedList w_spec).
Proof.
  replace (sn_ReservedList w_spec) with ({["10.0.0.4"]} : gset string) by (by vm_compute).
  apply set_Forall_singleton. split; [valid_tac|by vm_compute].
Qed.

Lemma w_subnet_ok : subnet_ok w_subnet.
Proof.
  destruct (Sync_spec (Some 7) w_used w_spec w_spec_canonicalized w_used_ok w_reserved_ok)
    as (l & _ & _ & E & Hok). unfold w_subnet. by rewrite E.
Qed.

(** ** Properties *)




Definition w_ops : list pool_op :=
  [OpAllocate "pod2" "default"; OpAssign "pod3" "default" "10.0.0.4" true; OpAllocate "pod4" "default";
   OpRelease "10.0.0.6"; OpAllocate "pod5" "default"].

Lemma w_ops_ok : Forall op_ok w_ops.
Proof.
  unfold w_ops. repeat (apply Forall_cons; split); try done.
  split; [valid_tac|by vm_compute].
Qed.


(** C3. No double allocation: in every history of a subnet, an address that
    [AllocateNext] gave out is given out again only after it was released. *)
Theorem no_double_allocation {P : CNIPlugins} (L : CNIPluginsLaws P) s ops pre mid post pod ns pod' ns' x s' :
  subnet_ok s → Forall op_ok ops →
  run_ops ops s = (pre ++ (OpAllocate pod ns, ResGot x) :: mid ++ (OpAllocate pod' ns', ResGot x) :: post, s') →
  ∃ r, (OpRelease x, r) ∈ mid.
Proof.
  intros Hok Hops E. pose proof (run_ops_refine s ops Hok Hops) as H. rewrite E in H.
  destruct H as (_ & _ & Ht). apply pool_trace_app in Ht as (p1 & _ & Ht).
  rewrite (cons_middle _ mid post), (app_assoc mid), app_comm_cons in Ht.
  apply pool_trace_app in Ht as (p2 & Ht & _). by eapply pool_trace_no_double.
Qed.

Lemma no_double_allocation_witness :
  ∃ r, (OpRelease "10.0.0.6", r) ∈ [(OpAssign "pod3" "default" "10.0.0.4" true, ResGot "10.0.0.4");
     (OpAllocate "pod4" "default", ResGot "10.0.0.2"); (OpRelease "10.0.0.6", ResDone)].
Proof.
  apply (no_double_allocation cni_concrete_laws w_subnet w_ops [] _ [] "pod2" "default" "pod5" "default"
    "10.0.0.6" (run_ops w_ops w_subnet).2 w_subnet_ok w_ops_ok).
  vm_compute. reflexivity.
Defined.

(** What a pod holds in use is not taken from it: as long as the address is
    not released, no operation changes its holder, not even a forced
    assignment. *)
Theorem holding_persists {P : CNIPlugins} (L : CNIPluginsLaws P) s ops x c :
  subnet_ok s → Forall op_ok ops →
  sn_UsingIPs s !! x = Some c → ip_Status c = IPStatusUsing → OpRelease x ∉ ops →
  ∃ c', sn_UsingIPs (run_ops ops s).2 !! x = Some c' ∧
        ip_PodName c' = ip_PodName c ∧ ip_PodNamespace c' = ip_PodNamespace c ∧ ip_Status c' = IPStatusUsing.
Proof.
  intros Hok Hops Hx Hst Hno. pose proof (run_ops_refine s ops Hok Hops) as H.
  destruct (run_ops ops s) as [tr s']. destruct H as (_ & <- & Ht). cbn [snd].
  apply abs_held in Hx. unfold holder in Hx. rewrite Hst in Hx.
  pose proof (pool_trace_using _ _ _ x _ _ Ht Hx) as Hx'.
  rewrite abs_held_inv in Hx'. destruct Hx' as (c' & Hc' & Hh).
  - intros r Hr. apply Hno. change (OpRelease x) with (OpRelease x, r).1. by apply list_elem_of_fmap_2.
  - exists c'. unfold holder in Hh. split; [done|]. by simplify_eq.
Qed.

Lemma holding_persists_witness :
  ∃ c', sn_UsingIPs (run_ops w_ops w_subnet).2 !! "10.0.0.3" = Some c' ∧
        ip_PodName c' = "pod1" ∧ ip_PodNamespace c' = "default" ∧ ip_Status c' = IPStatusUsing.
Proof.
  assert (sn_UsingIPs w_subnet !! "10.0.0.3" = w_used !! "10.0.0.3") as E by (vm_compute; reflexivity).
  assert (OpRelease "10.0.0.3" ∉ w_ops) as Hno.
  { apply (bool_decide_unpack _). vm_compute. exact I. }
  exact (holding_persists cni_concrete_laws w_subnet w_ops "10.0.0.3" _ w_subnet_ok w_ops_ok E eq_refl Hno).
Defined.

(** C5. [AllocateNext] is equivalent to a search: the first address after the
    cursor, going round the ring once, that is not used.  It records the
    address for the pod and moves the cursor onto it; when there is none it
    returns nil and changes nothing but the cursor, that has gone round. *)
Theorem AllocateNext_round_robin {P : CNIPlugins} (L : CNIPluginsLaws P) s pod ns :
  subnet_ok s →
  Subnet_AllocateNext pod ns s =
    let sl := sn_AvailableIPs s in
    match list_find (λ x, sn_UsingIPs s !! x = None) (ring (sl_IPs sl) (sl_IPIndex sl) (length (sl_IPs sl))) with
    | Some (j, x) =>
        let c := Subnet_newIP s x pod ns IPStatusUsing in
        (Ret (Some c), sn_set_UsingIPs (<[x := c]> (sn_UsingIPs s)) (sn_set_AvailableIPs (advance sl (S j)) s))
    | None => (Ret None, sn_set_AvailableIPs (advance sl (length (sl_IPs sl))) s)
    end.
Proof. apply AllocateNext_search. Qed.

Lemma AllocateNext_round_robin_witness :
  (fst <$> list_find (λ x, sn_UsingIPs w_subnet !! x = None)
     (ring (sl_IPs (sn_AvailableIPs w_subnet)) (sl_IPIndex (sn_AvailableIPs w_subnet)) 3)) = Some 1%nat ∧
  (Subnet_AllocateNext "pod2" "default" w_subnet).1
  = Ret (Some (Subnet_newIP w_subnet "10.0.0.6" "pod2" "default" IPStatusUsing)).
Proof.
  split; [vm_compute; reflexivity|].
  rewrite (AllocateNext_round_robin cni_concrete_laws w_subnet "pod2" "default" w_subnet_ok).
  vm_compute. reflexivity.
Defined.

(** Allocation is complete: of a subnet with [n] free addresses, [n]
    allocations in a row return each of them exactly once, and the next one
    returns nil. *)
Theorem allocation_exhausts {P : CNIPlugins} (L : CNIPluginsLaws P) s pod ns :
  subnet_ok s →
  ∃ xs, xs ≡ₚ free s ∧
    (run_ops (replicate (S (length (free s))) (OpAllocate pod ns)) s).1
    = ((λ x, (OpAllocate pod ns, ResGot x)) <$> xs) ++ [(OpAllocate pod ns, ResNone)].
Proof. intros Hok. by apply allocate_all. Qed.

Lemma allocation_exhausts_witness :
  ∃ xs, xs ≡ₚ free w_subnet ∧
    (run_ops (replicate (S (length (free w_subnet))) (OpAllocate "pod2" "default")) w_subnet).1
    = ((λ x, (OpAllocate "pod2" "default", ResGot x)) <$> xs) ++ [(OpAllocate "pod2" "default", ResNone)].
Proof. exact (allocation_exhausts cni_concrete_laws w_subnet "pod2" "default" w_subnet_ok). Defined.

(** [IsAvailable] is exact: a subnet that is not private is available
    exactly when [AllocateNext] returns an address, exactly when some
    allocatable address is not used. *)
Theorem IsAvailable_exact {P : CNIPlugins} (L : CNIPluginsLaws P) s pod ns :
  subnet_ok s → sn_Private s = false →
  (Subnet_IsAvailable s = true ↔ ∃ c, (Subnet_AllocateNext pod ns s).1 = Ret (Some c)) ∧
  (Subnet_IsAvailable s = true ↔ ∃ x, allocatable s x ∧ sn_UsingIPs s !! x = None).
Proof.
  intros Hok Hp. pose proof (IsAvailable_free s Hok Hp) as Ha. split.
  - rewrite Ha. destruct (AllocateNext_cases s pod ns Hok) as
      [(x & s' & Hx & _ & -> & _)|(Hnil & s' & _ & -> & _)]; cbn; split; intros H; eauto.
    + intros E. rewrite E in Hx. by apply not_elem_of_nil in Hx.
    + done.
    + by destruct H.
  - rewrite Ha. setoid_rewrite <-(ok_avail s Hok). setoid_rewrite <-free_elem_of. split.
    + destruct (free s) as [|x l]; [done|]. intros _. exists x. by left.
    + intros [x Hx] E. rewrite E in Hx. by apply not_elem_of_nil in Hx.
Qed.

Lemma IsAvailable_exact_witness :
  Subnet_IsAvailable w_subnet = true ∧ ∃ x, allocatable w_subnet x ∧ sn_UsingIPs w_subnet !! x = None.
Proof.
  assert (Subnet_IsAvailable w_subnet = true) as E by (vm_compute; reflexivity).
  split; [exact E|].
  apply (proj2 (IsAvailable_exact cni_concrete_laws w_subnet "pod2" "default" w_subnet_ok
                  ltac:(vm_compute; reflexivity))). exact E.
Defined.

(** C8. [Usage] accounts for every address: [Total] is the number of
    allocatable addresses, [Available] the number of them that are not used,
    [Used] the rest, none of the counters wraps as long as the subnet has
    fewer than 2^32 addresses, and [LastAllocation] never panics. *)
Theorem Usage_accounting {P : CNIPlugins} (L : CNIPluginsLaws P) s :
  subnet_ok s → Z.of_nat (length (sl_IPs (sn_AvailableIPs s))) < 2 ^ 32 →
  ∃ last, IPSlice_Current (sn_AvailableIPs s) = Ret last ∧
    let total := Z.of_nat (length (sl_IPs (sn_AvailableIPs s))) in
    let available := Z.of_nat (length (free s)) in
    Subnet_Usage s = Ret (mkUsage total (total - available) available last) ∧
    0 ≤ available ≤ total.
Proof.
  intros Hok Hlt. destruct (IPSlice_Current_ret _ (ok_slice s Hok)) as [last Hlast].
  exists last. split; [done|]. cbv zeta. pose proof (free_count s Hok) as Hfree.
  destruct (ok_slice s Hok) as [Hc _]. unfold IPSlice_Count in *.
  pose proof (free_length s) as Hle.
  split; [|lia]. unfold Subnet_Usage, IPSlice_Count. rewrite Hlast. cbn [mbind outcome_bind].
  rewrite Hfree. unfold uint32. rewrite Hc in *. rewrite !Z.mod_small by lia. do 2 f_equal. lia.
Qed.

Lemma Usage_accounting_witness :
  ∃ last, IPSlice_Current (sn_AvailableIPs w_subnet) = Ret last ∧
    Subnet_Usage w_subnet = Ret (mkUsage 3 1 2 last).
Proof.
  destruct (Usage_accounting cni_concrete_laws w_subnet w_subnet_ok) as (last & E & H & _);
    [vm_compute; reflexivity|].
  exists last. split; [exact E|]. rewrite H. vm_compute. reflexivity.
Defined.

(** C9. [Canonicalize] accepts a specification exactly when its name and
    network are given, its CIDR leaves at least two host bits and the gateway
    and bounds that are given lie in the CIDR; the result is then a subnet
    that [Sync] accepts, and without bounds it contains exactly the host
    addresses of the CIDR (not the network address, not the broadcast address
    of IPv4) but for the gateway and the excluded ones. *)
Theorem Canonicalize_exact {P : CNIPlugins} (L : CNIPluginsLaws P) s n len ones :
  sn_CIDR s = Some n → cidr_net n len ones → net_plain n len ones →
  opt_valid (sn_Start s) → opt_valid (sn_End s) → opt_valid (sn_Gateway s) →
  let given_in ip := ip = [] ∨ IPNet_Contains n ip = true in
  ((Subnet_Canonicalize s).1 = Ret tt ↔
     sn_Name s ≠ "" ∧ sn_ParentNetwork s ≠ "" ∧ 2 ≤ host_bits len ones ∧
     given_in (sn_Gateway s) ∧ given_in (sn_Start s) ∧ given_in (sn_End s)) ∧
  ((Subnet_Canonicalize s).1 = Ret tt →
     let s' := (Subnet_Canonicalize s).2 in
     canonicalized s' ∧
     (sn_Start s = [] → sn_End s = [] → ∀ a, valid_ip a →
        Subnet_Contains s' a = true ↔
          is_v4 a = is_v4 (IPNet_IP n) ∧
          addr (IPNet_IP n) < addr a ≤
            addr (IPNet_IP n) + 2 ^ host_bits len ones - (if is_v4 (IPNet_IP n) then 2 else 1) ∧
          (sn_Gateway s ≠ [] → addr (sn_Gateway s) ≠ addr a) ∧ IP_String a ∉ sn_BlackList s)).
Proof.
  intros HC Hn Hp Hst Hen Hgw given_in.
  pose proof (Validate_spec s n len ones HC Hn) as HV.
  assert ((Subnet_Canonicalize s).1 = Ret tt ↔ Subnet_Validate s = Ret tt) as Hiff.
  { unfold Subnet_Canonicalize. m_run. unfold lift, mbind, M_bind.
    by destruct (Subnet_Validate s) as [[]| | |]. }
  rewrite Hiff. split; [exact HV|]. intros H. cbv zeta.
  destruct (Canonicalize_ok s n len ones HC Hn Hp Hst Hen Hgw H) as [-> Hs']. cbn [snd]. split; [done|].
  intros Hs0 He0 a Ha. rewrite (Subnet_Contains_spec _ a Hs' Ha). unfold sn_cidr. cbn. rewrite HC. cbn.
  rewrite (Contains_block n len ones Hn a Ha). apply HV in H as (_ & _ & Hh & _ & Hcs & Hce).
  destruct (canonical_start_ok s n len ones Hn Hp Hst Hh Hcs) as (_ & _ & E1).
  destruct (canonical_end_ok s n len ones Hn Hp Hen Hh Hce) as (_ & _ & E2).
  rewrite E1, E2 by done. destruct (is_v4 (IPNet_IP n)); split;
    [intros ((? & ?) & ? & ? & ?)|intros (? & ? & ? & ?)|intros ((? & ?) & ? & ? & ?)|intros (? & ? & ? & ?)];
    split_and!; done || lia.
Qed.

Definition w_net : IPNet := mkIPNet [10; 0; 0; 0] [255; 255; 255; 248].

Lemma w_net_ok : cidr_net w_net 4 29.
Proof.
  destruct (cidr_net_parse "10.0.0.0/29" (ParseIP "10.0.0.0") w_net) as (len & ones & Hn);
    [vm_compute; reflexivity|done|].
  pose proof (net_ip_ok _ _ _ Hn) as (_ & Hl & _). cbn in Hl. subst len.
  pose proof (Mask_Size_cidr 4 ones (cn_ones _ _ _ Hn)) as Hs. rewrite <-(cn_mask _ _ _ Hn) in Hs.
  vm_compute in Hs. by injection Hs as <-.
Qed.

Lemma Canonicalize_exact_witness :
  (Subnet_Canonicalize w_fresh).1 = Ret tt ∧ canonicalized (Subnet_Canonicalize w_fresh).2.
Proof.
  assert ((Subnet_Canonicalize w_fresh).1 = Ret tt) as E by (vm_compute; reflexivity).
  split; [exact E|].
  assert (sn_CIDR w_fresh = Some w_net) as HC by (vm_compute; reflexivity).
  assert (net_plain w_net 4 29) as Hp by (vm_compute; discriminate).
  assert (opt_valid (sn_Gateway w_fresh)) as Hg by (right; valid_tac).
  exact (proj1 (proj2 (Canonicalize_exact cni_concrete_laws w_fresh w_net 4 29 HC w_net_ok Hp
    (or_introl eq_refl) (or_introl eq_refl) Hg) E)).
Defined.
