(* ===== verification/IPAMNetwork.v ===== *)
(** * Networks (pkg/ipam/types: subnet.go, the methods of SubnetSlice; network.go)

    The subnets of a network with the cursor that makes their choice
    round-robin, the grouping by network ID that pairs IPv4 with IPv6 subnets,
    and the set of networks.  A [*Subnet] is the index of the subnet in the
    slice, and a [*Network] is the name under which the set has it, so that a
    change made through the pointer is seen by everyone who reads the slice.
    The indices and counts of [SubnetSlice] start at 0, and only grow or are
    reduced modulo the count, so they are [nat]. *)

From S2P Require Import Prelude GoNet CNIPlugins NetworkingV1 Utils IPAMTypes.

Record SubnetSlice := mkSubnetSlice {
  ss_Subnets : list Subnet;
  ss_SubnetIndexMap : gmap string nat;
  ss_SubnetIndex : nat;
  ss_SubnetCount : nat
}.

Record Network := mkNetwork {
  nw_Name : string;
  nw_NetID : option Z;
  nw_LastAllocatedSubnet : string;
  nw_Type : string;
  nw_Subnets : SubnetSlice
}.

Abbreviation NetworkSet := (gmap string Network).

(** ** SubnetSlice *)

Definition NewSubnetSlice : SubnetSlice := mkSubnetSlice [] ∅ 0 0.

Definition ss_set_SubnetIndex (i : nat) (s : SubnetSlice) : SubnetSlice :=
  mkSubnetSlice (ss_Subnets s) (ss_SubnetIndexMap s) i (ss_SubnetCount s).

Definition SubnetSlice_append (subnet : Subnet) (isDefault : bool) (s : SubnetSlice) : SubnetSlice :=
  let Subnets := ss_Subnets s ++ [subnet] in
  let SubnetCount := length Subnets in
  mkSubnetSlice Subnets (<[sn_Name subnet := SubnetCount - 1]> (ss_SubnetIndexMap s))
    (if isDefault then SubnetCount - 1 else ss_SubnetIndex s) SubnetCount.

(** The element of [s.Subnets] that a pointer points to. *)
Definition subnet_at (s : SubnetSlice) (i : nat) : outcome Subnet := deref (ss_Subnets s !! i).

Definition SubnetSlice_GetSubnet (s : SubnetSlice) (name : string) : outcome nat :=
  match ss_SubnetIndexMap s !! name with
  | Some subnetIndex => _ ← subnet_at s subnetIndex; Ret subnetIndex
  | None => Fail ErrNotFoundSubnet
  end.

(** [lastIndex] is the cursor at the start of the loop; a full turn takes
    [SubnetCount] iterations. *)
Fixpoint available_loop (fuel lastIndex : nat) : M SubnetSlice nat :=
  match fuel with
  | O => lift Diverge
  | S fuel =>
      s ← get;
      subnet ← lift (subnet_at s (ss_SubnetIndex s));
      if Subnet_IsAvailable subnet then mret (ss_SubnetIndex s)
      else
        let next := (ss_SubnetIndex s + 1) mod ss_SubnetCount s in
        put (ss_set_SubnetIndex next s);;
        if decide (next = lastIndex) then fail ErrNoAvailableSubnet
        else available_loop fuel lastIndex
  end.

Definition SubnetSlice_GetAvailableSubnet : M SubnetSlice nat :=
  s ← get;
  if decide (ss_SubnetCount s = 0) then fail ErrNoAvailableSubnet
  else available_loop (ss_SubnetCount s) (ss_SubnetIndex s).

(** [classify]: the names of the available subnets, by network ID and family,
    in the order of the cursor. *)
Record netIDGroupedSubnets := mkGroup { v4Subnets : list string; v6Subnets : list string }.

Definition Groups : Type := list Z * gmap Z netIDGroupedSubnets.

Definition classify_step (g : Groups) (currentSubnet : Subnet) : Groups :=
  if negb (Subnet_IsAvailable currentSubnet) then g
  else
    let '(netIDOrder, netIDMap) := g in
    let currentNetID := unifyNetID (sn_NetID currentSubnet) in
    let '(netIDOrder, netIDMap) :=
      match netIDMap !! currentNetID with
      | None => (netIDOrder ++ [currentNetID], <[currentNetID := mkGroup [] []]> netIDMap)
      | Some _ => (netIDOrder, netIDMap)
      end in
    (netIDOrder,
     alter (λ grp, if Subnet_IsIPv6 currentSubnet
                   then mkGroup (v4Subnets grp) (v6Subnets grp ++ [sn_Name currentSubnet])
                   else mkGroup (v4Subnets grp ++ [sn_Name currentSubnet]) (v6Subnets grp))
       currentNetID netIDMap).

Record Classified := mkClassified {
  onlyIPv4 : list string; onlyIPv6 : list string; pairedIPv4 : list string; pairedIPv6 : list string
}.

Definition classify_group (r : Classified) (grp : netIDGroupedSubnets) : Classified :=
  match v4Subnets grp, v6Subnets grp with
  | (_ :: _) as v4, [] => mkClassified (onlyIPv4 r ++ v4) (onlyIPv6 r) (pairedIPv4 r) (pairedIPv6 r)
  | [], (_ :: _) as v6 => mkClassified (onlyIPv4 r) (onlyIPv6 r ++ v6) (pairedIPv4 r) (pairedIPv6 r)
  | (_ :: _) as v4, (_ :: _) as v6 =>
      mkClassified (onlyIPv4 r) (onlyIPv6 r) (pairedIPv4 r ++ v4) (pairedIPv6 r ++ v6)
  | [], [] => r
  end.

Definition SubnetSlice_classify (s : SubnetSlice) : outcome Classified :=
  '(netIDOrder, netIDMap) ←
    for_each (λ g i, subnet ← subnet_at s ((i + ss_SubnetIndex s) mod ss_SubnetCount s);
                     Ret (classify_step g subnet))
      ([], ∅) (seq 0 (ss_SubnetCount s));
  for_each (λ r netID, grp ← deref (netIDMap !! netID); Ret (classify_group r grp))
    (mkClassified [] [] [] []) netIDOrder.

(** [s.SubnetIndexMap[name]]: the zero value when the key is absent. *)
Definition index_of (s : SubnetSlice) (name : string) : nat := default 0 (ss_SubnetIndexMap s !! name).

Definition choose_single (select : Classified → list string * list string) : M SubnetSlice nat :=
  s ← get;
  if decide (ss_SubnetCount s = 0) then fail ErrNoAvailableSubnet
  else
    c ← lift (SubnetSlice_classify s);
    let '(only, paired) := select c in
    match only, paired with
    | theChosenOne :: _, _ | [], theChosenOne :: _ =>
        put (ss_set_SubnetIndex (index_of s theChosenOne) s);;
        s ← get;
        lift (SubnetSlice_GetSubnet s theChosenOne)
    | [], [] => fail ErrNoAvailableSubnet
    end.

Definition SubnetSlice_GetAvailableIPv4Subnet : M SubnetSlice nat :=
  choose_single (λ c, (onlyIPv4 c, pairedIPv4 c)).

Definition SubnetSlice_GetAvailableIPv6Subnet : M SubnetSlice nat :=
  choose_single (λ c, (onlyIPv6 c, pairedIPv6 c)).

Definition SubnetSlice_GetAvailablePairedDualStackSubnets : M SubnetSlice (nat * nat) :=
  s ← get;
  if decide (ss_SubnetCount s = 0) then fail ErrNoAvailableSubnet
  else
    c ← lift (SubnetSlice_classify s);
    match pairedIPv4 c with
    | [] => fail ErrNoAvailableSubnet
    | v4Name :: _ =>
        v6Name ← lift (deref (head (pairedIPv6 c)));
        put (ss_set_SubnetIndex (index_of s v4Name) s);;
        s ← get;
        v4Subnet ← lift (SubnetSlice_GetSubnet s v4Name);
        v6Subnet ← lift (SubnetSlice_GetSubnet s v6Name);
        mret (v4Subnet, v6Subnet)
    end.

Definition SubnetSlice_CurrentSubnet (s : SubnetSlice) : outcome string :=
  if decide (ss_SubnetCount s = 0) then Ret ""
  else subnet ← subnet_at s (ss_SubnetIndex s); Ret (sn_Name subnet).

Definition SubnetSlice_Usage (s : SubnetSlice) : outcome (string * gmap string Usage) :=
  usages ← for_each (λ usages subnet, u ← Subnet_Usage subnet; Ret (<[sn_Name subnet := u]> usages))
             ∅ (ss_Subnets s);
  current ← SubnetSlice_CurrentSubnet s;
  Ret (current, usages).

(** [DualStackUsage]: the usages of IPv4, IPv6 and of the pairs. *)
Record DualUsage := mkDualUsage {
  du_v4 : Usage; du_v6 : Usage; du_subnets : gmap string Usage; du_paired : gmap Z (Usage * Usage)
}.

Definition chooseAvailable (p : Usage * Usage) : Z :=
  if (us_Available p.1 <? us_Available p.2)%Z then us_Available p.1 else us_Available p.2.

Definition dualstack_step (d : DualUsage) (subnet : Subnet) : outcome DualUsage :=
  let netID := unifyNetID (sn_NetID subnet) in
  u ← Subnet_Usage subnet;
  let subnetUsage := <[sn_Name subnet := u]> (du_subnets d) in
  let '(v4, v6) := default (Usage_zero, Usage_zero) (du_paired d !! netID) in
  Ret (if Subnet_IsIPv6 subnet
       then mkDualUsage (du_v4 d) (Usage_Add (du_v6 d) u) subnetUsage
              (<[netID := (v4, Usage_Add v6 u)]> (du_paired d))
       else mkDualUsage (Usage_Add (du_v4 d) u) (du_v6 d) subnetUsage
              (<[netID := (Usage_Add v4 u, v6)]> (du_paired d))).

Definition SubnetSlice_DualStackUsage (s : SubnetSlice) : outcome (Usage * Usage * Usage * gmap string Usage) :=
  d ← for_each (λ d i, subnet ← subnet_at s ((i + ss_SubnetIndex s) mod ss_SubnetCount s);
                       dualstack_step d subnet)
        (mkDualUsage Usage_zero Usage_zero ∅ ∅) (seq 0 (ss_SubnetCount s));
  let dual := map_fold (λ _ u n, uint32 (n + chooseAvailable u)) 0%Z (du_paired d) in
  Ret (du_v4 d, du_v6 d, mkUsage 0 0 dual "", du_subnets d).

Section network.
Context `{CNIPlugins}.

(** [subnet] is the caller's: it is stored in the slice only when both calls
    succeed. *)
Definition SubnetSlice_AddSubnet (subnet : Subnet) (parentNetID : option Z) (ips : IPSet)
    (isDefault : bool) : M SubnetSlice unit := λ s,
  match (Subnet_Canonicalize;; Subnet_Sync parentNetID ips) subnet with
  | (Ret _, subnet) => (Ret tt, SubnetSlice_append subnet isDefault s)
  | (Fail e, _) => (Fail e, s)
  | (Panic, _) => (Panic, s)
  | (Diverge, _) => (Diverge, s)
  end.

Definition SubnetSlice_GetSubnetByIP (s : SubnetSlice) (ip : string) : outcome nat :=
  match list_find (λ subnet, Subnet_Contains subnet (ParseIP ip) = true) (ss_Subnets s) with
  | Some (i, _) => Ret i
  | None => Fail ErrNotFoundSubnet
  end.

(** ** Network *)

Definition NewNetwork (name : string) (netID : option Z) (lastAllocatedSubnet networkType : string) : Network :=
  mkNetwork name netID lastAllocatedSubnet networkType NewSubnetSlice.

Definition nw_set_Subnets (v : SubnetSlice) (n : Network) : Network :=
  mkNetwork (nw_Name n) (nw_NetID n) (nw_LastAllocatedSubnet n) (nw_Type n) v.

(** A method of [n.Subnets]. *)
Definition on_Subnets {A} (m : M SubnetSlice A) : M Network A :=
  zoom (λ n, Some (nw_Subnets n)) nw_set_Subnets m.

Definition Network_AddSubnet (subnet : Subnet) (ips : IPSet) : M Network unit :=
  n ← get;
  on_Subnets (SubnetSlice_AddSubnet subnet (nw_NetID n) ips
                (bool_decide (sn_Name subnet = nw_LastAllocatedSubnet n))).

Definition Network_GetSubnet (subnetName : string) : M Network nat :=
  if nonempty subnetName
  then n ← get; lift (SubnetSlice_GetSubnet (nw_Subnets n) subnetName)
  else on_Subnets SubnetSlice_GetAvailableSubnet.

Definition Network_GetSubnetByIP (subnetName ip : string) : M Network nat :=
  n ← get;
  lift (if nonempty subnetName then SubnetSlice_GetSubnet (nw_Subnets n) subnetName
        else SubnetSlice_GetSubnetByIP (nw_Subnets n) ip).

Definition Network_GetIPv4Subnet (subnetName : string) : M Network nat :=
  if nonempty subnetName then
    n ← get;
    i ← lift (SubnetSlice_GetSubnet (nw_Subnets n) subnetName);
    sn ← lift (subnet_at (nw_Subnets n) i);
    if Subnet_IsIPv6 sn then fail (Errorf "assigned subnet %s is IPv6 family" [subnetName])
    else mret i
  else on_Subnets SubnetSlice_GetAvailableIPv4Subnet.

Definition Network_GetIPv6Subnet (subnetName : string) : M Network nat :=
  if nonempty subnetName then
    n ← get;
    i ← lift (SubnetSlice_GetSubnet (nw_Subnets n) subnetName);
    sn ← lift (subnet_at (nw_Subnets n) i);
    if negb (Subnet_IsIPv6 sn) then fail (Errorf "assigned subnet %s is IPv4 family" [subnetName])
    else mret i
  else on_Subnets SubnetSlice_GetAvailableIPv6Subnet.

Definition Network_GetPairedDualStackSubnets (v4Name v6Name : string) : M Network (nat * nat) :=
  if nonempty v4Name && nonempty v6Name then
    n ← get;
    i4 ← lift (SubnetSlice_GetSubnet (nw_Subnets n) v4Name);
    v4Subnet ← lift (subnet_at (nw_Subnets n) i4);
    if Subnet_IsIPv6 v4Subnet then fail (Errorf "assigned v4 subnet %s is IPv6 family" [v4Name])
    else
      i6 ← lift (SubnetSlice_GetSubnet (nw_Subnets n) v6Name);
      v6Subnet ← lift (subnet_at (nw_Subnets n) i6);
      if negb (Subnet_IsIPv6 v6Subnet) then fail (Errorf "assigned v6 subnet %s is IPv4 family" [v6Name])
      else if negb (unifyNetID (sn_NetID v4Subnet) =? unifyNetID (sn_NetID v6Subnet))%Z
      then fail (Errorf "assigned subnets %s and %s have mismatched net ID" [v4Name; v6Name])
      else mret (i4, i6)
  else on_Subnets SubnetSlice_GetAvailablePairedDualStackSubnets.

(** The usages are summed in the order of the map's iteration; only the
    counters are summed, so the order does not matter. *)
Definition usage_sum (u : Usage) (su : Usage) : Usage :=
  mkUsage (uint32 (us_Total u + us_Total su)) (uint32 (us_Used u + us_Used su))
    (uint32 (us_Available u + us_Available su)) (us_LastAllocation u).

Definition Network_Usage (n : Network) : outcome (Usage * gmap string Usage) :=
  '(lastAllocatedSubnet, subnetUsages) ← SubnetSlice_Usage (nw_Subnets n);
  let networkUsage := map_fold (λ _ su u, usage_sum u su) Usage_zero subnetUsages in
  Ret (mkUsage (us_Total networkUsage) (us_Used networkUsage) (us_Available networkUsage) lastAllocatedSubnet,
       subnetUsages).

Definition Network_DualStackUsage (n : Network) : outcome (Usage * Usage * Usage * gmap string Usage) :=
  SubnetSlice_DualStackUsage (nw_Subnets n).
End network.

(** ** NetworkSet *)

Definition ErrNotFoundNetwork : error := errors_New "network not found".

Definition NewNetworkSet : NetworkSet := ∅.
Definition RefreshNetwork (name : string) (network : Network) (n : NetworkSet) : NetworkSet := <[name := network]> n.
Definition RemoveNetwork (name : string) (n : NetworkSet) : NetworkSet := delete name n.
Definition GetNetwork (n : NetworkSet) (name : string) : outcome Network :=
  match n !! name with Some network => Ret network | None => Fail ErrNotFoundNetwork end.

(** [order] holds the entries of the set in the order in which the [range]
    statement visits them, which Go leaves open. *)
Definition GetNetworksByType (order : list (string * Network)) (networkType : string) : list string :=
  fst <$> filter (λ kv, nw_Type kv.2 = networkType) order.

(** The loop looks for the one entry with the key. *)
Definition MatchNetworkType (n : NetworkSet) (networkName networkType : string) : bool :=
  match n !! networkName with
  | Some network => bool_decide (nw_Type network = networkType)
  | None => false
  end.
