(* ===== verification/IPAMNetworkProperties.v ===== *)
(** * The choice of a subnet (pkg/ipam/types: SubnetSlice, Network)

    The invariant [slice_wf] of a slice of subnets, the loops read off the
    list of subnets in the order of the cursor, and what each way of choosing
    a subnet promises. *)

From S2P Require Import Prelude GoNet NetBlock CNIPlugins NetworkingV1 Utils IPAMTypes IPAMSubnet IPAMSync IPAMCanonical IPAMSubnetProperties IPAMNetwork.

(** ** The invariant *)

Section wf.
Context {P : CNIPlugins}.
Implicit Types s : SubnetSlice.

Record slice_wf s : Prop := {
  wf_count : ss_SubnetCount s = length (ss_Subnets s);
  wf_index : ss_SubnetIndex s < Nat.max 1 (ss_SubnetCount s);
  wf_map name i : ss_SubnetIndexMap s !! name = Some i ↔
                  ∃ sn, ss_Subnets s !! i = Some sn ∧ sn_Name sn = name;
  wf_subnets : Forall subnet_ok (ss_Subnets s)
}.

Lemma slice_wf_new : slice_wf NewSubnetSlice.
Proof.
  split; cbn; [done|lia| |constructor]. intros name i. rewrite lookup_empty.
  split; [done|]. intros (sn & Hsn & _). by rewrite lookup_nil in Hsn.
Qed.

Lemma slice_wf_append s sn d :
  slice_wf s → subnet_ok sn → ss_SubnetIndexMap s !! sn_Name sn = None → slice_wf (SubnetSlice_append sn d s).
Proof.
  intros [Hc Hi Hm Hs] Hok Hfresh. unfold SubnetSlice_append.
  split; cbn; rewrite ?length_app; cbn [length].
  - done.
  - destruct d; lia.
  - replace (length (ss_Subnets s) + 1 - 1) with (length (ss_Subnets s)) by lia. intros name i.
    rewrite lookup_insert_Some. split.
    + intros [[<- <-]|[Hne Hmi]].
      * exists sn. rewrite lookup_app_r, Nat.sub_diag by lia. done.
      * apply Hm in Hmi as (sn' & Hsn' & Hn). exists sn'.
        split; [|done]. apply lookup_app_l_Some. done.
    + intros (sn' & Hl & Hn). apply lookup_app_Some in Hl as [Hl|[Hge Hl]].
      * right. split; [|apply Hm; eauto]. intros E.
        assert (ss_SubnetIndexMap s !! sn_Name sn = Some i) as Hx by (apply Hm; rewrite E; eauto).
        by rewrite Hfresh in Hx.
      * apply list_lookup_singleton_Some in Hl as [Hz <-]. left. split; [done|lia].
  - apply Forall_app. split; [done|]. by constructor.
Qed.

Lemma slice_wf_set_index s i : slice_wf s → i < Nat.max 1 (ss_SubnetCount s) → slice_wf (ss_set_SubnetIndex i s).
Proof. intros [Hc Hi Hm Hs] Hlt. by split. Qed.

Lemma subnet_at_lookup s i sn : ss_Subnets s !! i = Some sn → subnet_at s i = Ret sn.
Proof. unfold subnet_at. by intros ->. Qed.

Lemma GetSubnet_spec s name :
  slice_wf s →
  SubnetSlice_GetSubnet s name =
    match ss_SubnetIndexMap s !! name with Some i => Ret i | None => Fail ErrNotFoundSubnet end.
Proof.
  intros Hwf. unfold SubnetSlice_GetSubnet. destruct (_ !! name) as [i|] eqn:Hi; [|done].
  apply (wf_map s Hwf) in Hi as (sn & Hsn & _). by rewrite (subnet_at_lookup s i sn).
Qed.

Lemma wf_names s i j sn sn' :
  slice_wf s → ss_Subnets s !! i = Some sn → ss_Subnets s !! j = Some sn' → sn_Name sn = sn_Name sn' → i = j.
Proof.
  intros Hwf Hi Hj E.
  assert (ss_SubnetIndexMap s !! sn_Name sn = Some i) as H1 by (apply (wf_map s Hwf); eauto).
  assert (ss_SubnetIndexMap s !! sn_Name sn = Some j) as H2 by (apply (wf_map s Hwf); rewrite E; eauto).
  congruence.
Qed.
End wf.

(** ** The subnets in the order of the cursor *)

Definition rotation (s : SubnetSlice) : list Subnet :=
  drop (ss_SubnetIndex s) (ss_Subnets s) ++ take (ss_SubnetIndex s) (ss_Subnets s).

Lemma rotation_elem_of s x : x ∈ rotation s ↔ x ∈ ss_Subnets s.
Proof.
  unfold rotation. rewrite <-(take_drop (ss_SubnetIndex s) (ss_Subnets s)) at 3.
  rewrite !elem_of_app. tauto.
Qed.

Lemma rotation_length s : length (rotation s) = length (ss_Subnets s).
Proof. unfold rotation. rewrite length_app, length_drop, length_take. lia. Qed.

Lemma rotation_lookup s j :
  ss_SubnetIndex s < length (ss_Subnets s) → j < length (ss_Subnets s) →
  rotation s !! j = ss_Subnets s !! ((j + ss_SubnetIndex s) mod length (ss_Subnets s)).
Proof.
  intros Hi Hj. unfold rotation. set (n := length (ss_Subnets s)) in *.
  destruct (decide (j < n - ss_SubnetIndex s)).
  - rewrite lookup_app_l by (rewrite length_drop; fold n; lia).
    rewrite lookup_drop, Nat.mod_small by lia. f_equal. lia.
  - rewrite lookup_app_r by (rewrite length_drop; fold n; lia).
    rewrite length_drop. fold n. rewrite lookup_take_lt by lia. f_equal.
    replace (j + ss_SubnetIndex s) with ((j - (n - ss_SubnetIndex s)) + 1 * n) by lia.
    rewrite Nat.Div0.mod_add, Nat.mod_small by lia. done.
Qed.

Lemma for_each_seq {A B} (f : A → B → outcome A) (h : nat → option B) (l : list B) a k :
  (∀ j, j < length l → h (k + j) = l !! j) →
  for_each (λ a i, x ← deref (h i); f a x) a (seq k (length l)) = for_each f a l.
Proof.
  revert a k. induction l as [|x l IH]; intros a k Hh; [done|]. cbn [length seq for_each].
  rewrite <-(Nat.add_0_r k) at 1. rewrite (Hh 0) by (cbn; lia).
  cbn [lookup list_lookup deref mbind outcome_bind]. destruct (f a x) as [a'| | |]; [|done..]. cbn.
  apply IH. intros j Hj. rewrite Nat.add_succ_comm. rewrite (Hh (S j)) by (cbn; lia). done.
Qed.

(** The loops over all subnets from the cursor on. *)
Lemma for_each_rotation `{CNIPlugins} {A} (f : A → Subnet → outcome A) (a : A) s :
  slice_wf s →
  for_each (λ a i, subnet ← subnet_at s ((i + ss_SubnetIndex s) mod ss_SubnetCount s); f a subnet)
    a (seq 0 (ss_SubnetCount s))
  = for_each f a (rotation s).
Proof.
  intros [Hc Hi _ _]. rewrite Hc in *.
  replace (seq 0 _) with (seq 0 (length (rotation s))) by (by rewrite rotation_length).
  apply (for_each_seq f (λ i, ss_Subnets s !! ((i + ss_SubnetIndex s) mod length (ss_Subnets s)))).
  intros j Hj. rewrite rotation_length in Hj. rewrite rotation_lookup by lia. done.
Qed.

Lemma for_each_pure {A B} (f : A → B → A) a (l : list B) :
  for_each (λ a x, Ret (f a x)) a l = Ret (foldl f a l).
Proof. revert a. induction l as [|x l IH]; intros a; [done|]. cbn. apply IH. Qed.

Lemma exists_snoc {A} (Q : A → Prop) l x : (∃ y, y ∈ l ++ [x] ∧ Q y) ↔ (∃ y, y ∈ l ∧ Q y) ∨ Q x.
Proof. setoid_rewrite elem_of_app. setoid_rewrite list_elem_of_singleton. naive_solver. Qed.

Lemma for_each_ext {A B} (f g : A → B → outcome A) a (l : list B) :
  (∀ a x, x ∈ l → f a x = g a x) → for_each f a l = for_each g a l.
Proof.
  revert a. induction l as [|x l IH]; intros a Hfg; [done|]. cbn.
  rewrite Hfg by (by left). destruct (g a x); [|done..]. cbn. apply IH. intros. apply Hfg. by right.
Qed.

(** ** GetAvailableSubnet *)

Section available.
Context {P : CNIPlugins}.
Implicit Types s : SubnetSlice.

Lemma mod_succ a k n : 0 < n → ((a + k) mod n + 1) mod n = (a + S k) mod n.
Proof. intros Hn. rewrite Nat.Div0.add_mod_idemp_l. f_equal. lia. Qed.

Lemma mod_eq_start a k n : a < n → 0 < k ≤ n → (a + k) mod n = a ↔ k = n.
Proof.
  intros Ha Hk. destruct (decide (a + k < n)).
  - rewrite Nat.mod_small by lia. lia.
  - assert (a + k = (a + k - n) + 1 * n) as -> by lia.
    rewrite Nat.Div0.mod_add, Nat.mod_small by lia. lia.
Qed.

Lemma available_loop_spec s k l :
  slice_wf s → drop k (rotation s) = l → l ≠ [] →
  let n := length (ss_Subnets s) in
  let at_ j := ss_set_SubnetIndex ((ss_SubnetIndex s + j) mod n) s in
  available_loop (length l) (ss_SubnetIndex s) (at_ k) =
    match list_find (λ sn, Subnet_IsAvailable sn = true) l with
    | Some (j, _) => (Ret ((ss_SubnetIndex s + (k + j)) mod n), at_ (k + j))
    | None => (Fail ErrNoAvailableSubnet, s)
    end.
Proof.
  intros Hwf Hl Hne n at_. revert k Hl Hne. induction l as [|x l IH]; intros k Hl Hne; [done|].
  pose proof (wf_count s Hwf) as Hc. pose proof (wf_index s Hwf) as Hi.
  assert (rotation s !! k = Some x) as Hk by (by rewrite <-(Nat.add_0_r k), <-lookup_drop, Hl).
  assert (k < n) as Hkn by (unfold n; rewrite <-rotation_length; by eapply lookup_lt_Some).
  assert (ss_SubnetIndex s < n) as Hin by (rewrite Hc in Hi; unfold n in *; lia).
  rewrite rotation_lookup in Hk by done.
  cbn [length available_loop]. m_run.
  change (subnet_at (at_ k) _) with (deref (ss_Subnets s !! ((ss_SubnetIndex s + k) mod n))).
  rewrite (Nat.add_comm _ k). fold n in Hk. rewrite Hk. cbn [deref]. m_run.
  cbn [list_find]. destruct (Subnet_IsAvailable x) eqn:Ha.
  - rewrite decide_True by done. m_run. rewrite Nat.add_0_r. reflexivity.
  - rewrite (decide_False (P := false = true)) by done. m_run.
    assert (ss_set_SubnetIndex ((ss_SubnetIndex (at_ k) + 1) mod ss_SubnetCount (at_ k)) (at_ k) = at_ (S k))
      as Hat by (unfold at_; cbn; rewrite Hc; fold n; by rewrite mod_succ by lia).
    pose proof (f_equal ss_SubnetIndex Hat) as Hnext. cbn [ss_SubnetIndex ss_set_SubnetIndex] in Hnext.
    rewrite Hat.
    assert (drop (S k) (rotation s) = l) as Hl' by (by rewrite <-(Nat.add_1_r k), <-drop_drop, Hl).
    destruct (decide (_ = ss_SubnetIndex s)) as [Hend|Hend]; rewrite Hnext in Hend.
    + apply mod_eq_start in Hend; [|lia..].
      assert (l = []) as -> by (rewrite <-Hl'; apply drop_ge; rewrite rotation_length; fold n; lia).
      cbn. unfold fail. f_equal. unfold at_.
      assert ((ss_SubnetIndex s + S k) mod n = ss_SubnetIndex s) as -> by (apply mod_eq_start; lia).
      by destruct s.
    + assert (l ≠ []) as Hl0.
      { intros ->. apply Hend. apply mod_eq_start; [lia..|].
        apply (f_equal length) in Hl. rewrite length_drop, rotation_length in Hl. fold n in Hl. cbn in Hl. lia. }
      rewrite (IH (S k) Hl' Hl0). destruct (list_find _ l) as [[j y]|]; [|done]. cbn.
      by replace (S (k + j)) with (k + S j) by lia.
Qed.

(** The first available subnet from the cursor on, or the error. *)
Lemma GetAvailableSubnet_search s :
  slice_wf s →
  SubnetSlice_GetAvailableSubnet s =
    match list_find (λ sn, Subnet_IsAvailable sn = true) (rotation s) with
    | Some (j, _) =>
        let i := (ss_SubnetIndex s + j) mod length (ss_Subnets s) in (Ret i, ss_set_SubnetIndex i s)
    | None => (Fail ErrNoAvailableSubnet, s)
    end.
Proof.
  intros Hwf. unfold SubnetSlice_GetAvailableSubnet. m_run. rewrite (wf_count s Hwf).
  case_decide as Hz.
  - rewrite <-rotation_length in Hz. apply length_nil in Hz. by rewrite Hz.
  - pose proof (available_loop_spec s 0 (rotation s) Hwf (drop_0 _)) as H.
    cbv zeta in H. rewrite rotation_length in H. rewrite Nat.add_0_r in H.
    pose proof (wf_index s Hwf) as Hi. rewrite (wf_count s Hwf) in Hi.
    rewrite Nat.mod_small in H by lia.
    replace (ss_set_SubnetIndex (ss_SubnetIndex s) s) with s in H by (by destruct s).
    apply H. intros E. apply Hz. by rewrite <-rotation_length, E.
Qed.
End available.

(** ** classify *)

Section classify.
Context {P : CNIPlugins}.
Implicit Types s : SubnetSlice.

Definition netID_of (sn : Subnet) : Z := unifyNetID (sn_NetID sn).

(** The available subnets of a network ID and a family. *)
Definition members (l : list Subnet) (v6 : bool) (netID : Z) : list string :=
  sn_Name <$> filter (λ sn, Subnet_IsAvailable sn = true ∧ netID_of sn = netID ∧ Subnet_IsIPv6 sn = v6) l.

Lemma members_snoc l sn v6 netID :
  members (l ++ [sn]) v6 netID =
    members l v6 netID ++
    if decide (Subnet_IsAvailable sn = true ∧ netID_of sn = netID ∧ Subnet_IsIPv6 sn = v6)
    then [sn_Name sn] else [].
Proof.
  unfold members. rewrite filter_app, fmap_app, filter_cons, filter_nil. by case_decide.
Qed.

Lemma members_snoc_unavailable l sn v6 netID :
  Subnet_IsAvailable sn = false → members (l ++ [sn]) v6 netID = members l v6 netID.
Proof.
  intros Ha. rewrite members_snoc, decide_False, app_nil_r; [done|]. rewrite Ha. by intros [? _].
Qed.

Lemma members_elem_of l v6 netID x :
  x ∈ members l v6 netID ↔
  ∃ sn, sn ∈ l ∧ sn_Name sn = x ∧ Subnet_IsAvailable sn = true ∧ netID_of sn = netID ∧ Subnet_IsIPv6 sn = v6.
Proof. unfold members. rewrite list_elem_of_fmap. setoid_rewrite list_elem_of_filter. naive_solver. Qed.

(** The groups of the subnets visited so far. *)
Definition groups_ok (l : list Subnet) (g : Groups) : Prop :=
  (∀ id, id ∈ g.1 ↔ ∃ sn, sn ∈ l ∧ Subnet_IsAvailable sn = true ∧ netID_of sn = id) ∧
  (∀ id, g.2 !! id = if decide (id ∈ g.1) then Some (mkGroup (members l false id) (members l true id)) else None).

Lemma members_none l v6 id :
  ¬ (∃ sn, sn ∈ l ∧ Subnet_IsAvailable sn = true ∧ netID_of sn = id) → members l v6 id = [].
Proof.
  intros Hno. apply elem_of_nil_inv. intros x (sn & ? & _ & ? & ? & _)%members_elem_of. eauto.
Qed.

Lemma add_member (id : Z) (v4 v6 : list string) (b : bool) x :
  (if b then mkGroup v4 (v6 ++ [x]) else mkGroup (v4 ++ [x]) v6)
  = mkGroup (v4 ++ if decide (id = id ∧ b = false) then [x] else [])
      (v6 ++ if decide (id = id ∧ b = true) then [x] else []).
Proof.
  destruct b.
  - by rewrite decide_False, decide_True, app_nil_r by (done || by intros [_ ?]).
  - rewrite decide_True, decide_False, app_nil_r by (done || by intros [_ ?]). done.
Qed.

Lemma groups_step l g sn : groups_ok l g → groups_ok (l ++ [sn]) (classify_step g sn).
Proof.
  intros [Hord Hmap]. unfold classify_step. destruct (Subnet_IsAvailable sn) eqn:Ha; cbn [negb].
  2: { split.
       - intros id. rewrite Hord, exists_snoc, Ha. by intuition.
       - intros id. by rewrite !members_snoc_unavailable, Hmap. }
  destruct g as [order m]. cbn [fst snd] in *. set (nid := unifyNetID (sn_NetID sn)).
  assert (∀ id, (∃ sn', sn' ∈ l ++ [sn] ∧ Subnet_IsAvailable sn' = true ∧ netID_of sn' = id)
                ↔ id ∈ order ∨ id = nid) as Hord'.
  { intros id. rewrite Hord, exists_snoc, Ha. unfold nid, netID_of. intuition. }
  assert (∀ v6 id, members (l ++ [sn]) v6 id =
            members l v6 id ++ if decide (nid = id ∧ Subnet_IsIPv6 sn = v6) then [sn_Name sn] else []) as Hms.
  { intros v6 id. rewrite members_snoc, Ha. f_equal. apply decide_ext. unfold nid, netID_of. naive_solver. }
  pose proof (Hmap nid) as Hnid. destruct (m !! nid) as [grp|] eqn:Hm.
  - destruct (decide (nid ∈ order)) as [Hin|Hin]; [|done]. split; cbn [fst snd].
    + intros id. rewrite Hord'. naive_solver.
    + intros id. rewrite !Hms. destruct (decide (nid = id)) as [<-|Hne].
      * rewrite lookup_alter_eq, Hm, decide_True by done. simplify_eq. cbn. f_equal.
        apply add_member.
      * rewrite lookup_alter_ne, Hmap by done. by rewrite !(decide_False (P := nid = id ∧ _)), !app_nil_r by tauto.
  - destruct (decide (nid ∈ order)) as [Hin|Hin]; [done|]. split; cbn [fst snd].
    + intros id. rewrite Hord', elem_of_app, list_elem_of_singleton. tauto.
    + intros id. rewrite !Hms. destruct (decide (nid = id)) as [<-|Hne].
      * rewrite lookup_alter_eq, lookup_insert_eq, decide_True by (apply elem_of_app; right; by left).
        rewrite !members_none by (by rewrite <-Hord). cbn. f_equal.
        apply (add_member _ [] []).
      * rewrite lookup_alter_ne, lookup_insert_ne, Hmap by done.
        rewrite !(decide_False (P := nid = id ∧ _)), !app_nil_r by tauto. apply decide_ext. rewrite elem_of_app, list_elem_of_singleton. naive_solver.
Qed.

Lemma groups_foldl l : groups_ok l (foldl classify_step ([], ∅) l).
Proof.
  induction l as [|sn l IH] using rev_ind.
  - split; cbn; [|done]. intros id. split; [by intros ?%not_elem_of_nil|].
    intros (sn & Hsn & _). by apply not_elem_of_nil in Hsn.
  - rewrite foldl_app. by apply groups_step.
Qed.

(** The four lists, by group. *)
Definition only (l : list Subnet) (v6 : bool) (id : Z) : list string :=
  match members l (negb v6) id with [] => members l v6 id | _ => [] end.
Definition paired (l : list Subnet) (v6 : bool) (id : Z) : list string :=
  match members l (negb v6) id with [] => [] | _ => members l v6 id end.

Lemma classify_groups l order r :
  foldl (λ r id, classify_group r (mkGroup (members l false id) (members l true id))) r order =
    mkClassified (onlyIPv4 r ++ (order ≫= only l false)) (onlyIPv6 r ++ (order ≫= only l true))
      (pairedIPv4 r ++ (order ≫= paired l false)) (pairedIPv6 r ++ (order ≫= paired l true)).
Proof.
  revert r. induction order as [|id order IH]; intros r; cbn [foldl].
  - destruct r. cbn. by rewrite !app_nil_r.
  - rewrite IH. rewrite !bind_cons. unfold only, paired, classify_group. cbn [v4Subnets v6Subnets negb].
    destruct (members l false id) as [|x v4], (members l true id) as [|y v6];
      cbn [app onlyIPv4 onlyIPv6 pairedIPv4 pairedIPv6]; by rewrite <-?app_assoc.
Qed.

Lemma classify_spec s :
  slice_wf s →
  ∃ order, (∀ id, id ∈ order ↔ ∃ sn, sn ∈ ss_Subnets s ∧ Subnet_IsAvailable sn = true ∧ netID_of sn = id) ∧
    SubnetSlice_classify s =
      Ret (mkClassified (order ≫= only (rotation s) false) (order ≫= only (rotation s) true)
             (order ≫= paired (rotation s) false) (order ≫= paired (rotation s) true)).
Proof.
  intros Hwf. unfold SubnetSlice_classify.
  rewrite (for_each_rotation (λ g subnet, Ret (classify_step g subnet))) by done.
  rewrite for_each_pure. destruct (groups_foldl (rotation s)) as [Hord Hmap].
  destruct (foldl _ _ _) as [order m]. cbn [fst snd mbind outcome_bind] in *. exists order.
  split; [by setoid_rewrite <-rotation_elem_of|].
  rewrite (for_each_ext _ (λ r id, Ret (classify_group r
             (mkGroup (members (rotation s) false id) (members (rotation s) true id))))).
  - by rewrite for_each_pure, classify_groups.
  - intros r id Hid. rewrite Hmap, decide_True by done. done.
Qed.
End classify.

(** ** The choice by family *)

Lemma bind_nil_inv {A B} (f : A → list B) (l : list A) : l ≫= f = [] ↔ ∀ x, x ∈ l → f x = [].
Proof.
  induction l as [|x l IH]; cbn; [split; [by intros _ ? ?%not_elem_of_nil|done]|].
  setoid_rewrite elem_of_cons. split.
  - intros [H1 H2]%app_nil y [->|Hy]; [done|]. by apply IH.
  - intros Hall. apply app_nil. split; [by apply Hall; left|]. apply IH. auto.
Qed.

Lemma bind_head {A B} (f g : A → list B) (l : list A) x :
  (∀ a, f a = [] ↔ g a = []) → head (l ≫= f) = Some x →
  ∃ a y, a ∈ l ∧ x ∈ f a ∧ y ∈ g a ∧ head (l ≫= g) = Some y.
Proof.
  intros Hfg. induction l as [|a l IH]; cbn; [done|].
  destruct (f a) as [|z fa] eqn:Hf.
  - assert (g a = []) as Hg by (by apply Hfg). cbn. rewrite Hg. intros H.
    destruct (IH H) as (b & y & Hb & Hx & Hy & Hh). exists b, y. split; [by right|]. done.
  - intros [= ->]. destruct (g a) as [|y ga] eqn:Hg; [by rewrite (proj2 (Hfg a) Hg) in Hf|].
    exists a, y. rewrite Hf. split; [by left|]. split; [by left|]. rewrite Hg. split; [by left|done].
Qed.

Section choice.
Context {P : CNIPlugins}.
Implicit Types s : SubnetSlice.

(** [i] is the index of an available subnet of a family and a network ID. *)
Definition candidate s (v6 : bool) (id : Z) (i : nat) : Prop :=
  ∃ sn, ss_Subnets s !! i = Some sn ∧ Subnet_IsAvailable sn = true ∧ netID_of sn = id ∧ Subnet_IsIPv6 sn = v6.

Lemma members_candidate s v6 id x :
  slice_wf s → x ∈ members (rotation s) v6 id ↔
  ∃ i, ss_SubnetIndexMap s !! x = Some i ∧ candidate s v6 id i.
Proof.
  intros Hwf. rewrite members_elem_of. split.
  - intros (sn & Hin & Hn & Ha & Hid & Hf). apply rotation_elem_of, list_elem_of_lookup in Hin as [i Hi].
    exists i. split; [by apply (wf_map s Hwf); eauto|by exists sn].
  - intros (i & Hi & sn & Hsn & Ha & Hid & Hf). apply (wf_map s Hwf) in Hi as (sn' & Hsn' & Hn).
    simplify_eq. exists sn'. split; [|done]. apply rotation_elem_of, list_elem_of_lookup. eauto.
Qed.

Lemma members_nil_candidate s v6 id :
  slice_wf s → members (rotation s) v6 id = [] ↔ ¬ ∃ i, candidate s v6 id i.
Proof.
  intros Hwf. split.
  - intros Hnil (i & sn & Hsn & Hrest). apply (not_elem_of_nil (sn_Name sn)). rewrite <-Hnil.
    apply members_candidate; [done|]. exists i. split; [by apply (wf_map s Hwf); eauto|by exists sn].
  - intros Hno. apply elem_of_nil_inv. intros x (i & _ & Hc)%members_candidate; [eauto|done].
Qed.

Lemma candidate_index s v6 id i : slice_wf s → candidate s v6 id i → i < Nat.max 1 (ss_SubnetCount s).
Proof.
  intros Hwf (sn & Hsn & _). apply lookup_lt_Some in Hsn. rewrite (wf_count s Hwf). lia.
Qed.

Lemma candidate_order s (order : list Z) v6 id i :
  (∀ id, id ∈ order ↔ ∃ sn, sn ∈ ss_Subnets s ∧ Subnet_IsAvailable sn = true ∧ netID_of sn = id) →
  candidate s v6 id i → id ∈ order.
Proof.
  intros Hord (sn & Hsn & Ha & Hid & _). apply Hord. exists sn.
  split; [by eapply list_elem_of_lookup_2|done].
Qed.

Lemma count_zero_none s v6 id i : slice_wf s → ss_SubnetCount s = 0 → ¬ candidate s v6 id i.
Proof.
  intros Hwf Hz (sn & Hsn & _). apply lookup_lt_Some in Hsn. rewrite <-(wf_count s Hwf) in Hsn. lia.
Qed.

Lemma paired_elem s v6 id x :
  slice_wf s → x ∈ paired (rotation s) v6 id ↔
  (∃ i, ss_SubnetIndexMap s !! x = Some i ∧ candidate s v6 id i) ∧ ∃ j, candidate s (negb v6) id j.
Proof.
  intros Hwf. unfold paired. destruct (members _ (negb v6) id) as [|y l] eqn:E.
  - apply (members_nil_candidate s _ _ Hwf) in E. split; [by intros ?%not_elem_of_nil|]. by intros [_ ?].
  - rewrite members_candidate by done. split; [|by intros [? _]]. intros Hx. split; [done|].
    assert (y ∈ members (rotation s) (negb v6) id) as Hy by (rewrite E; by left).
    apply members_candidate in Hy as (j & _ & Hj); eauto.
Qed.

Lemma only_elem s v6 id x :
  slice_wf s → x ∈ only (rotation s) v6 id ↔
  (∃ i, ss_SubnetIndexMap s !! x = Some i ∧ candidate s v6 id i) ∧ ¬ ∃ j, candidate s (negb v6) id j.
Proof.
  intros Hwf. unfold only. destruct (members _ (negb v6) id) as [|y l] eqn:E.
  - rewrite members_candidate by done. apply (members_nil_candidate s _ _ Hwf) in E. tauto.
  - split; [by intros ?%not_elem_of_nil|]. intros [_ Hno].
    apply (members_nil_candidate s _ _ Hwf) in Hno. by rewrite Hno in E.
Qed.

Lemma paired_nil_iff s id : slice_wf s → paired (rotation s) false id = [] ↔ paired (rotation s) true id = [].
Proof.
  intros Hwf. unfold paired. cbn [negb].
  destruct (members (rotation s) true id), (members (rotation s) false id); done.
Qed.

(** The pair of subnets: two available subnets with one network ID, IPv4 and
    IPv6, if there are such two. *)
Lemma GetAvailablePaired_cases s :
  slice_wf s →
  (∃ i4 i6 id, candidate s false id i4 ∧ candidate s true id i6 ∧
     SubnetSlice_GetAvailablePairedDualStackSubnets s = (Ret (i4, i6), ss_set_SubnetIndex i4 s)) ∨
  ((¬ ∃ i4 i6 id, candidate s false id i4 ∧ candidate s true id i6) ∧
     SubnetSlice_GetAvailablePairedDualStackSubnets s = (Fail ErrNoAvailableSubnet, s)).
Proof.
  intros Hwf. unfold SubnetSlice_GetAvailablePairedDualStackSubnets. m_run.
  destruct (decide (ss_SubnetCount s = 0)) as [Hz|Hz].
  { right. split; [|done]. intros (i4 & _ & id & Hc & _). by eapply count_zero_none. }
  destruct (classify_spec s Hwf) as (order & Hord & ->). m_run. cbn [pairedIPv4 pairedIPv6].
  destruct (order ≫= paired (rotation s) false) as [|x4 rest] eqn:E4; [right|left].
  - split; [|done]. intros (i4 & i6 & id & H4 & H6).
    pose proof (proj1 (bind_nil_inv _ _) E4 id (candidate_order _ _ _ _ _ Hord H4)) as Hnil.
    destruct H4 as (sn & Hsn & H4). apply (not_elem_of_nil (sn_Name sn)). rewrite <-Hnil.
    apply paired_elem; [done|]. split; [|by exists i6]. exists i4.
    split; [by apply (wf_map s Hwf); eauto|by exists sn].
  - destruct (bind_head (paired (rotation s) false) (paired (rotation s) true) order x4)
      as (id & x6 & _ & Hx4 & Hx6 & Hh); [intros; by apply paired_nil_iff|by rewrite E4|].
    rewrite Hh. cbn [deref]. m_run.
    apply paired_elem in Hx4 as [(i4 & Hi4 & Hc4) _]; [|done].
    apply paired_elem in Hx6 as [(i6 & Hi6 & Hc6) _]; [|done].
    exists i4, i6, id. split; [done|]. split; [done|].
    unfold index_of. rewrite Hi4. cbn [default].
    pose proof (slice_wf_set_index s i4 Hwf (candidate_index _ _ _ _ Hwf Hc4)) as Hwf'.
    rewrite !GetSubnet_spec by done. cbn [ss_SubnetIndexMap ss_set_SubnetIndex]. rewrite Hi4, Hi6. by m_run.
Qed.

(** Choosing a name moves the cursor onto its subnet. *)
Lemma choose_run s v6 x i id :
  slice_wf s → ss_SubnetIndexMap s !! x = Some i → candidate s v6 id i →
  (put (ss_set_SubnetIndex (index_of s x) s);; s0 ← get; lift (SubnetSlice_GetSubnet s0 x)) s
  = (Ret i, ss_set_SubnetIndex i s).
Proof.
  intros Hwf Hi Hc. m_run. unfold index_of. rewrite Hi. cbn [default].
  rewrite GetSubnet_spec by (apply slice_wf_set_index; [done|by eapply candidate_index]).
  cbn [ss_SubnetIndexMap ss_set_SubnetIndex]. by rewrite Hi.
Qed.

(** When no group has the family alone, every candidate has a partner. *)
Lemma only_nil_paired s v6 (order : list Z) i id :
  slice_wf s →
  (∀ id, id ∈ order ↔ ∃ sn, sn ∈ ss_Subnets s ∧ Subnet_IsAvailable sn = true ∧ netID_of sn = id) →
  candidate s v6 id i → order ≫= only (rotation s) v6 = [] →
  (∃ j, candidate s (negb v6) id j) ∧ order ≫= paired (rotation s) v6 ≠ [].
Proof.
  intros Hwf Hord Hc E. pose proof (candidate_order _ _ _ _ _ Hord Hc) as Hin.
  pose proof (proj1 (bind_nil_inv _ _) E id Hin) as En. unfold only in En.
  destruct (members (rotation s) (negb v6) id) as [|y l] eqn:Em.
  - exfalso. apply (members_nil_candidate s v6 id Hwf) in En. eauto.
  - assert (y ∈ members (rotation s) (negb v6) id) as Hy by (rewrite Em; by left).
    apply members_candidate in Hy as (j & _ & Hj'); [|done]. split; [eauto|].
    intros Ep. pose proof (proj1 (bind_nil_inv _ _) Ep id Hin) as Epn. unfold paired in Epn.
    rewrite Em in Epn. apply (members_nil_candidate s v6 id Hwf) in Epn. eauto.
Qed.

(** A single subnet of a family: an available one, one without an available
    partner of the other family if there is such. *)
Lemma choose_single_cases s (v6 : bool) :
  slice_wf s →
  let res := choose_single (λ c, if v6 then (onlyIPv6 c, pairedIPv6 c) else (onlyIPv4 c, pairedIPv4 c)) s in
  (∃ i id, candidate s v6 id i ∧ res = (Ret i, ss_set_SubnetIndex i s) ∧
     ((∃ j, candidate s (negb v6) id j) →
      ∀ i' id', candidate s v6 id' i' → ∃ j', candidate s (negb v6) id' j')) ∨
  ((¬ ∃ i id, candidate s v6 id i) ∧ res = (Fail ErrNoAvailableSubnet, s)).
Proof.
  intros Hwf. cbv zeta. unfold choose_single. m_run.
  destruct (decide (ss_SubnetCount s = 0)) as [Hz|Hz].
  { right. split; [|done]. intros (i & id & Hc). by eapply count_zero_none. }
  destruct (classify_spec s Hwf) as (order & Hord & ->). m_run.
  set (os := order ≫= only (rotation s) v6). set (ps := order ≫= paired (rotation s) v6).
  match goal with |- context [if v6 then ?a else ?b] =>
    replace (if v6 then a else b) with (os, ps) by (by destruct v6) end.
  assert (∀ x, x ∈ os → ∃ i id, ss_SubnetIndexMap s !! x = Some i ∧ candidate s v6 id i ∧
                                ¬ ∃ j, candidate s (negb v6) id j) as Hos.
  { intros x (id & Hx & _)%list_elem_of_bind.
    apply only_elem in Hx as [(i & Hi & Hc) Hno]; [|done]. by exists i, id. }
  assert (∀ x, x ∈ ps → ∃ i id, ss_SubnetIndexMap s !! x = Some i ∧ candidate s v6 id i) as Hps.
  { intros x (id & Hx & _)%list_elem_of_bind.
    apply paired_elem in Hx as [(i & Hi & Hc) _]; [|done]. by exists i, id. }
  pose proof (λ i id Hc, only_nil_paired s v6 order i id Hwf Hord Hc) as Hnil. fold os ps in Hnil.
  destruct os as [|x os'] eqn:Eo.
  - destruct ps as [|x ps'] eqn:Ep; [right|left].
    + split; [|done]. intros (i & id & Hc). by destruct (Hnil i id Hc).
    + destruct (Hps x) as (i & id & Hi & Hc); [by left|]. exists i, id. split; [done|].
      split; [by apply (choose_run s v6 x i id)|]. intros _ i' id' Hc'. by apply (Hnil i' id').
  - left. destruct (Hos x) as (i & id & Hi & Hc & Hno); [by left|]. exists i, id. split; [done|].
    split; [by apply (choose_run s v6 x i id)|]. by intros Hj.
Qed.
End choice.

(** ** AddSubnet *)

(** A specification that [AddSubnet] can be given: the networks and addresses
    that parsing the API object's texts yields. *)
Definition spec_ok (sn : Subnet) : Prop :=
  (∃ n len ones, sn_CIDR sn = Some n ∧ cidr_net n len ones ∧ net_plain n len ones) ∧
  opt_valid (sn_Start sn) ∧ opt_valid (sn_End sn) ∧ opt_valid (sn_Gateway sn) ∧
  set_Forall canonical (sn_ReservedList sn).

Lemma AddSubnet_spec {P : CNIPlugins} {L : CNIPluginsLaws P} s sn parent u d :
  slice_wf s → ss_SubnetIndexMap s !! sn_Name sn = None → spec_ok sn → ipset_ok u →
  match SubnetSlice_AddSubnet sn parent u d s with
  | (Ret _, s') => slice_wf s' ∧
      SubnetSlice_GetSubnet s' (sn_Name sn) = Ret (length (ss_Subnets s)) ∧
      (∃ sn', ss_Subnets s' = ss_Subnets s ++ [sn'] ∧ sn_Name sn' = sn_Name sn ∧ subnet_ok sn') ∧
      (∀ name i, SubnetSlice_GetSubnet s name = Ret i → SubnetSlice_GetSubnet s' name = Ret i) ∧
      (d = true → ss_SubnetIndex s' = length (ss_Subnets s))
  | (Fail e, s') => s' = s ∧ Subnet_Validate sn = Fail e
  | _ => False
  end.
Proof.
  intros Hwf Hfresh ((n & len & ones & HC & Hn & Hp) & Hst & Hen & Hgw & Hr) Hu. unfold SubnetSlice_AddSubnet.
  destruct (Validate_total sn n HC) as [HV|[e HV]].
  - destruct (Canonicalize_ok sn n len ones HC Hn Hp Hst Hen Hgw HV) as [Hcan Hs'].
    rewrite (bind_Ret _ _ _ _ _ Hcan). set (c := sn_set_range _ _ sn) in *.
    destruct (Sync_spec parent u c Hs' Hu Hr) as (l & _ & _ & -> & Hok).
    set (sn' := synced parent u l c) in *.
    assert (sn_Name sn' = sn_Name sn) as Hname by (unfold sn', synced, sync_prepare; cbn; by destruct (sn_NetID sn)).
    rewrite <-Hname in Hfresh. pose proof (slice_wf_append s sn' d Hwf Hok Hfresh) as Hwf'.
    assert (∀ name, ss_SubnetIndexMap (SubnetSlice_append sn' d s) !! name
                    = if decide (sn_Name sn' = name) then Some (length (ss_Subnets s)) else ss_SubnetIndexMap s !! name) as Hmap.
    { intros name. unfold SubnetSlice_append. cbn. rewrite length_app. cbn.
      rewrite Nat.add_sub. case_decide as E; [by rewrite E, lookup_insert_eq|by rewrite lookup_insert_ne]. }
    split; [done|]. rewrite <-Hname. split_and!.
    + by rewrite GetSubnet_spec, Hmap, decide_True by done.
    + by exists sn'.
    + intros name i. rewrite !GetSubnet_spec, Hmap by done.
      case_decide as E; [rewrite <-E, Hfresh; done|done].
    + intros ->. cbn. rewrite length_app. cbn. lia.
  - unfold Subnet_Canonicalize. unfold mbind, M_bind, get, lift. by rewrite HV.
Qed.

(** ** A concrete network: the subnet of [IPAMSubnetProperties], an IPv6
    subnet with the same network ID, and a private one *)

#[local] Existing Instance cni_concrete.
#[local] Existing Instance cni_concrete_laws.

Definition w6_spec : Subnet :=
  (Subnet_Canonicalize (NewSubnet "subnet6" "network1" (Some 7%Z) [] [] (ParseIP "fd00::1")
     (snd <$> ParseCIDR "fd00::/125") ∅ ∅ [] false true)).2.
Definition w6_subnet : Subnet := (Subnet_Sync (Some 7%Z) ∅ w6_spec).2.

Lemma w6_spec_canonicalized : canonicalized w6_spec.
Proof.
  split; [vm_compute; eauto|]. split; [|vm_compute; split_and!; [done..|]].
  - apply range_ok_v6; [valid_tac..|done| |]; by vm_compute.
  - right. valid_tac.
Qed.

Lemma w6_subnet_ok : subnet_ok w6_subnet.
Proof.
  destruct (Sync_spec (Some 7%Z) ∅ w6_spec w6_spec_canonicalized) as (l & _ & _ & E & Hok).
  - apply map_Forall_empty.
  - replace (sn_ReservedList w6_spec) with (∅ : gset string) by (by vm_compute). apply set_Forall_empty.
  - unfold w6_subnet. by rewrite E.
Qed.

Definition w_slice : SubnetSlice :=
  SubnetSlice_append w6_subnet false (SubnetSlice_append w_subnet false NewSubnetSlice).

Lemma w_slice_wf : slice_wf w_slice.
Proof.
  apply slice_wf_append; [|apply w6_subnet_ok|vm_compute; reflexivity].
  apply slice_wf_append; [apply slice_wf_new|apply w_subnet_ok|vm_compute; reflexivity].
Qed.

(** ** Properties *)

(** C10. [GetAvailableSubnet] always ends: it returns the first available
    subnet from the cursor on, going round once, and moves the cursor to it,
    or reports that no subnet is available, exactly when none is, and leaves
    the slice as it was. *)
Theorem GetAvailableSubnet_first `{CNIPlugins} s :
  slice_wf s →
  let n := length (ss_Subnets s) in
  (∃ j i sn, j < n ∧ i = (ss_SubnetIndex s + j) mod n ∧
     ss_Subnets s !! i = Some sn ∧ Subnet_IsAvailable sn = true ∧
     (∀ k sn', k < j → ss_Subnets s !! ((ss_SubnetIndex s + k) mod n) = Some sn' → Subnet_IsAvailable sn' = false) ∧
     SubnetSlice_GetAvailableSubnet s = (Ret i, ss_set_SubnetIndex i s)) ∨
  ((∀ sn, sn ∈ ss_Subnets s → Subnet_IsAvailable sn = false) ∧
     SubnetSlice_GetAvailableSubnet s = (Fail ErrNoAvailableSubnet, s)).
Proof.
  intros Hwf n. rewrite GetAvailableSubnet_search by done.
  destruct (list_find _ (rotation s)) as [[j sn]|] eqn:Hf; [left|right].
  - apply list_find_Some in Hf as (Hj & Ha & Hbefore).
    pose proof (lookup_lt_Some _ _ _ Hj) as Hlt. rewrite rotation_length in Hlt. fold n in Hlt.
    pose proof (wf_index s Hwf) as Hi. rewrite (wf_count s Hwf) in Hi. fold n in Hi.
    rewrite rotation_lookup in Hj by (fold n; lia). fold n in Hj. rewrite Nat.add_comm in Hj.
    exists j. eexists. exists sn. split_and!; [done|reflexivity|done|done| |done].
    intros k sn' Hk Hsn'. apply not_true_is_false. eapply (Hbefore k); [|done].
    rewrite rotation_lookup by (fold n; lia). fold n. by rewrite Nat.add_comm.
  - split; [|done]. apply list_find_None in Hf. rewrite Forall_forall in Hf.
    intros sn Hsn. apply not_true_is_false, Hf. by apply rotation_elem_of.
Qed.

Lemma GetAvailableSubnet_first_witness :
  (SubnetSlice_GetAvailableSubnet w_slice).1 = Ret 0 ∧
  ∃ i sn, SubnetSlice_GetAvailableSubnet w_slice = (Ret i, ss_set_SubnetIndex i w_slice) ∧
    ss_Subnets w_slice !! i = Some sn ∧ Subnet_IsAvailable sn = true.
Proof.
  assert ((SubnetSlice_GetAvailableSubnet w_slice).1 = Ret 0) as E by (vm_compute; reflexivity).
  split; [exact E|].
  destruct (GetAvailableSubnet_first w_slice w_slice_wf)
    as [(j & i & sn & _ & _ & Hi & Ha & _ & E')|[_ E']].
  - exists i, sn. exact (conj E' (conj Hi Ha)).
  - exfalso. rewrite E' in E. cbn [fst] in E. discriminate E.
Defined.

(** Dual-stack pairs: [GetAvailablePairedDualStackSubnets] returns an IPv4
    and an IPv6 subnet that are both available and have the same network ID;
    it fails only when no two such subnets exist, and then changes nothing. *)
Theorem GetAvailablePaired_exact `{CNIPlugins} s :
  slice_wf s →
  (∃ i4 i6 sn4 sn6,
     SubnetSlice_GetAvailablePairedDualStackSubnets s = (Ret (i4, i6), ss_set_SubnetIndex i4 s) ∧
     ss_Subnets s !! i4 = Some sn4 ∧ ss_Subnets s !! i6 = Some sn6 ∧
     Subnet_IsAvailable sn4 = true ∧ Subnet_IsAvailable sn6 = true ∧
     Subnet_IsIPv6 sn4 = false ∧ Subnet_IsIPv6 sn6 = true ∧
     unifyNetID (sn_NetID sn4) = unifyNetID (sn_NetID sn6)) ∨
  (SubnetSlice_GetAvailablePairedDualStackSubnets s = (Fail ErrNoAvailableSubnet, s) ∧
   ∀ sn4 sn6, sn4 ∈ ss_Subnets s → sn6 ∈ ss_Subnets s →
     Subnet_IsAvailable sn4 = true → Subnet_IsAvailable sn6 = true →
     Subnet_IsIPv6 sn4 = false → Subnet_IsIPv6 sn6 = true →
     unifyNetID (sn_NetID sn4) ≠ unifyNetID (sn_NetID sn6)).
Proof.
  intros Hwf. destruct (GetAvailablePaired_cases s Hwf) as
    [(i4 & i6 & id & (sn4 & ? & ? & Hid & ?) & (sn6 & ? & ? & Hid' & ?) & E)|[Hno E]]; [left|right].
  - exists i4, i6, sn4, sn6. split_and!; try done. by rewrite <-Hid in Hid'.
  - split; [done|]. intros sn4 sn6 [i4 H4]%list_elem_of_lookup [i6 H6]%list_elem_of_lookup ???? Hid.
    apply Hno. exists i4, i6, (netID_of sn4). split; [by exists sn4|]. exists sn6. by split_and!.
Qed.

Lemma GetAvailablePaired_exact_witness :
  (SubnetSlice_GetAvailablePairedDualStackSubnets w_slice).1 = Ret (0, 1) ∧
  ∃ i4 i6, SubnetSlice_GetAvailablePairedDualStackSubnets w_slice = (Ret (i4, i6), ss_set_SubnetIndex i4 w_slice).
Proof.
  assert ((SubnetSlice_GetAvailablePairedDualStackSubnets w_slice).1 = Ret (0, 1)) as E by (vm_compute; reflexivity).
  split; [exact E|].
  destruct (GetAvailablePaired_exact w_slice w_slice_wf) as [(i4 & i6 & _ & _ & E' & _)|[E' _]].
  - exists i4, i6. exact E'.
  - exfalso. rewrite E' in E. cbn [fst] in E. discriminate E.
Defined.

(** A single stack: [GetAvailableIPv4Subnet] returns an available IPv4
    subnet, and fails only when there is none; it takes a subnet that an IPv6
    subnet is paired with only when every available IPv4 subnet has such a
    partner.  The same holds of [GetAvailableIPv6Subnet]. *)
Theorem GetAvailable_family_exact `{CNIPlugins} s (v6 : bool) :
  slice_wf s →
  let res := if v6 then SubnetSlice_GetAvailableIPv6Subnet s else SubnetSlice_GetAvailableIPv4Subnet s in
  let available f sn := sn ∈ ss_Subnets s ∧ Subnet_IsAvailable sn = true ∧ Subnet_IsIPv6 sn = f in
  let has_partner sn := ∃ sn', available (negb v6) sn' ∧ netID_of sn' = netID_of sn in
  (∃ i sn, res = (Ret i, ss_set_SubnetIndex i s) ∧ ss_Subnets s !! i = Some sn ∧ available v6 sn ∧
     (has_partner sn → ∀ sn', available v6 sn' → has_partner sn')) ∨
  (res = (Fail ErrNoAvailableSubnet, s) ∧ ∀ sn, ¬ available v6 sn).
Proof.
  intros Hwf res available has_partner.
  assert (∀ f sn, available f sn ↔ ∃ i, ss_Subnets s !! i = Some sn ∧ candidate s f (netID_of sn) i) as Hav.
  { intros f sn. unfold available, candidate. rewrite list_elem_of_lookup. split.
    - intros ([i Hi] & Ha & Hf). exists i. split; [done|by exists sn].
    - intros (i & Hi & sn' & Hi' & Ha & _ & Hf). simplify_eq. eauto. }
  assert (∀ sn, has_partner sn ↔ ∃ j, candidate s (negb v6) (netID_of sn) j) as Hhp.
  { intros sn. unfold has_partner. split.
    - intros (sn' & (j & _ & Hj)%Hav & E). rewrite E in Hj. eauto.
    - intros (j & sn' & Hj & Ha & E & Hf). exists sn'. split; [|done].
      apply Hav. exists j. split; [done|]. by exists sn'. }
  assert (res = choose_single (λ c, if v6 then (onlyIPv6 c, pairedIPv6 c) else (onlyIPv4 c, pairedIPv4 c)) s)
    as -> by (unfold res; by destruct v6).
  destruct (choose_single_cases s v6 Hwf) as [(i & id & Hc & E & Hpair)|[Hno E]]; [left|right].
  - destruct Hc as (sn & Hi & Ha & <- & Hf). exists i, sn. split; [done|]. split; [done|].
    split; [split; [by eapply list_elem_of_lookup_2|done]|]. rewrite Hhp. intros Hp sn' (i' & _ & Hc')%Hav.
    apply Hhp. by eapply Hpair.
  - split; [done|]. intros sn (i & _ & Hc)%Hav. eauto.
Qed.

Lemma GetAvailable_family_exact_witness :
  ∃ i sn, SubnetSlice_GetAvailableIPv6Subnet w_slice = (Ret i, ss_set_SubnetIndex i w_slice) ∧
    ss_Subnets w_slice !! i = Some sn ∧ Subnet_IsIPv6 sn = true.
Proof.
  assert ((SubnetSlice_GetAvailableIPv6Subnet w_slice).1 = Ret 1) as E by (vm_compute; reflexivity).
  destruct (GetAvailable_family_exact w_slice true w_slice_wf) as [(i & sn & E' & Hi & (_ & _ & Hf) & _)|[E' _]].
  - exists i, sn. exact (conj E' (conj Hi Hf)).
  - exfalso. rewrite E' in E. cbn [fst] in E. discriminate E.
Defined.


Lemma w_fresh_ok : spec_ok w_fresh.
Proof.
  split.
  - exists w_net, 4, 29%Z. split; [vm_compute; reflexivity|]. split; [exact w_net_ok|]. vm_compute. discriminate.
  - split; [by left|]. split; [by left|]. split; [right; valid_tac|exact w_reserved_ok].
Qed.

