(* ===== verification/Allocator.v ===== *)
(** * The allocators (pkg/ipam/allocator, pkg/ipam/interface.go)

    An allocator is a set of networks behind a lock; every method holds the
    lock from its first to its last step, so that each is one transition of
    the set of networks.  The three getters read the API server and are
    arguments.  [*Network] and [*Subnet] are a key of the set and an index of
    the network's slice; [on_network] and [on_subnet] run a method through
    such a pointer. *)

From S2P Require Import Prelude GoNet CNIPlugins NetworkingV1 Kubernetes Config Utils IPAMTypes IPAMNetwork.

(** ** types.go *)

Record Getters := mkGetters {
  NetworkGetter : string → outcome (option Network);
  SubnetGetter : string → outcome (list Subnet);
  IPSetGetter : string → outcome IPSet
}.

Definition on_network {A} (name : string) (m : M Network A) : M NetworkSet A :=
  zoom (λ ns, ns !! name) (λ n ns, <[name := n]> ns) m.

Definition ss_set_subnet (i : nat) (sn : Subnet) (s : SubnetSlice) : SubnetSlice :=
  mkSubnetSlice (<[i := sn]> (ss_Subnets s)) (ss_SubnetIndexMap s) (ss_SubnetIndex s) (ss_SubnetCount s).

Definition on_subnet {A} (i : nat) (m : M Subnet A) : M Network A :=
  zoom (λ n, ss_Subnets (nw_Subnets n) !! i) (λ sn n, nw_set_Subnets (ss_set_subnet i sn (nw_Subnets n)) n) m.

(** [s.Name] of the subnet pointed to. *)
Definition subnet_name (i : nat) : M Network string := on_subnet i (gets sn_Name).

(** The error of [fmt.Errorf(format, args..., err)]. *)
Definition errf {S A} (format : string) (args : list string) (m : M S A) : M S A := wrap (Wrapf format args) m.

Section allocator.
Context `{CNIPlugins}.

(** The lookup of a network, whose error is returned as it is or wrapped. *)
Definition find_network (name : string) : M NetworkSet unit :=
  ns ← get; lift (_ ← GetNetwork ns name; Ret tt).

(** A method called on a local object: what it did is lost with the object
    when it fails. *)
Definition run_local {T A} (m : M T A) (t : T) : outcome T :=
  match m t with
  | (Ret _, t') => Ret t'
  | (Fail e, _) => Fail e
  | (Panic, _) => Panic
  | (Diverge, _) => Diverge
  end.

(** [refreshNetwork], the same in both allocators. *)
Definition add_subnets (g : Getters) (network : Network) (subnets : list Subnet) : outcome Network :=
  for_each (λ network subnet,
              ips ← IPSetGetter g (sn_Name subnet);
              run_local (Network_AddSubnet subnet ips) network) network subnets.

Definition refreshNetwork (g : Getters) (name : string) : M NetworkSet unit :=
  network ← lift (NetworkGetter g name);
  match network with
  | None => modify (RemoveNetwork name)
  | Some network =>
      subnets ← lift (SubnetGetter g name);
      network ← lift (add_subnets g network subnets);
      modify (RefreshNetwork name network)
  end.

Fixpoint Refresh (g : Getters) (networks : list string) : M NetworkSet unit :=
  match networks with
  | [] => mret tt
  | network :: networks => refreshNetwork g network;; Refresh g networks
  end.

Definition NewAllocator (g : Getters) (networks : list string) : outcome NetworkSet :=
  run_local (Refresh g networks) NewNetworkSet.

(** The methods of [DualStackAllocator] whose text is that of [Allocator]. *)
Definition DualStack_refreshNetwork : Getters → string → M NetworkSet unit := refreshNetwork.
Definition DualStack_Refresh : Getters → list string → M NetworkSet unit := Refresh.
Definition NewDualStackAllocator : Getters → list string → outcome NetworkSet := NewAllocator.

(** The lookups by type, under the read lock; [order] is that of the map. *)
Definition Allocator_GetNetworksByType (order : NetworkSet → list (string * Network)) (networkType : string) : M NetworkSet (list string) :=
  gets (λ ns, GetNetworksByType (order ns) networkType).
Definition Allocator_MatchNetworkType (networkName networkType : string) : M NetworkSet bool :=
  gets (λ ns, MatchNetworkType ns networkName networkType).
Definition DualStack_GetNetworksByType : (NetworkSet → list (string * Network)) → string → M NetworkSet (list string) := Allocator_GetNetworksByType.
Definition DualStack_MatchNetworkType : string → string → M NetworkSet bool := Allocator_MatchNetworkType.

(** ** allocator.go *)

Definition Allocator_Allocate (networkName subnetName podName podNamespace : string) : M NetworkSet IP :=
  errf "fail to get network %s: %v" [networkName] (find_network networkName);;
  on_network networkName (
    subnet ← errf "fail to get subnet %s: %v" [subnetName] (Network_GetSubnet subnetName);
    availableIP ← on_subnet subnet (Subnet_AllocateNext podName podNamespace);
    match availableIP with
    | None => name ← subnet_name subnet; fail (Errorf "fail to get available ip from subnet %s" [name])
    | Some availableIP => mret availableIP
    end).

Definition Allocator_Assign (networkName subnetName podName podNamespace ip : string) (forced : bool)
    : M NetworkSet (option IP) :=
  errf "fail to get network %s: %v" [networkName] (find_network networkName);;
  on_network networkName (
    subnet ← errf "fail to get subnet %s by ip %s: %v" [subnetName; ip] (Network_GetSubnetByIP subnetName ip);
    errf "fail to assign ip %s in subnet %s: %v" [ip; subnetName]
      (on_subnet subnet (Subnet_Assign podName podNamespace ip forced))).

Definition Allocator_Release (networkName subnetName ip : string) : M NetworkSet unit :=
  errf "fail to get network %s: %v" [networkName] (find_network networkName);;
  on_network networkName (
    subnet ← errf "fail to get subnet %s: %v" [subnetName] (Network_GetSubnet subnetName);
    on_subnet subnet (Subnet_Release ip)).

Definition Allocator_Usage (networkName : string) : M NetworkSet (Usage * gmap string Usage) :=
  errf "fail to get network %s: %v" [networkName] (find_network networkName);;
  on_network networkName (n ← get; lift (Network_Usage n)).

Definition Allocator_SubnetUsage (networkName subnetName : string) : M NetworkSet Usage :=
  errf "fail to get network %s: %v" [networkName] (find_network networkName);;
  on_network networkName (
    subnet ← errf "fail to get subnet %s: %v" [subnetName] (Network_GetSubnet subnetName);
    on_subnet subnet (sn ← get; lift (Subnet_Usage sn))).

(** ** dualstack_allocator.go *)

Definition DualStack_Usage (networkName : string) : M NetworkSet (Usage * Usage * Usage * gmap string Usage) :=
  errf "fail to get network %s: %v" [networkName] (find_network networkName);;
  on_network networkName (n ← get; lift (Network_DualStackUsage n)).

Definition DualStack_SubnetUsage (networkName subnetName : string) : M NetworkSet Usage :=
  Allocator_SubnetUsage networkName subnetName.

(** The subnet named by a list of at most one. *)
Definition one_subnet {S} (mode : string) (subnets : list string) : M S string :=
  match subnets with
  | [] => mret ""
  | [subnetName] => mret subnetName
  | _ => fail (Errorf ("only support one assigned subnet when " +:+ mode +:+ " mode") [])
  end.

(** The subnets named by an empty list or a list of two. *)
Definition two_subnets {S} (subnets : list string) : M S (string * string) :=
  match subnets with
  | [] => mret ("", "")
  | [v4Name; v6Name] => mret (v4Name, v6Name)
  | _ => fail (Errorf "only support 2 assigned subnets when DualStack mode" [])
  end.

Definition allocateIPv4Only (networkName : string) (subnets : list string) (podName podNamespace : string)
    : M NetworkSet (list IP) :=
  find_network networkName;;
  subnetName ← one_subnet IPv4Only subnets;
  on_network networkName (
    subnet ← errf "fail to get ipv4 subnet: %v" [] (Network_GetIPv4Subnet subnetName);
    ipv4Candidate ← on_subnet subnet (Subnet_AllocateNext podName podNamespace);
    match ipv4Candidate with
    | None => name ← subnet_name subnet; fail (Errorf "fail to get available ipv4 from subnet %s" [name])
    | Some ipv4Candidate => mret [ipv4Candidate]
    end).

Definition allocateIPv6Only (networkName : string) (subnets : list string) (podName podNamespace : string)
    : M NetworkSet (list IP) :=
  find_network networkName;;
  subnetName ← one_subnet IPv6Only subnets;
  on_network networkName (
    subnet ← errf "fail to get ipv6 subnet: %v" [] (Network_GetIPv6Subnet subnetName);
    ipv6Candidate ← on_subnet subnet (Subnet_AllocateNext podName podNamespace);
    match ipv6Candidate with
    | None => name ← subnet_name subnet; fail (Errorf "fail to get available ipv6 from subnet %s" [name])
    | Some ipv6Candidate => mret [ipv6Candidate]
    end).

(** [ipv4Candidate.Address.IP.String()] *)
Definition candidate_text (c : IP) : outcome string :=
  a ← deref (ip_Address c); Ret (IP_String (IPNet_IP a)).

(** The part of [allocateDualStack] on the two subnets. *)
Definition allocate_pair (v4Subnet v6Subnet : nat) (podName podNamespace : string) : M Network (list IP) :=
  ipv4Candidate ← on_subnet v4Subnet (Subnet_AllocateNext podName podNamespace);
  match ipv4Candidate with
  | None => name ← subnet_name v4Subnet; fail (Errorf "fail to get paired ipv4 from subnet %s" [name])
  | Some ipv4Candidate =>
      ipv6Candidate ← on_subnet v6Subnet (Subnet_AllocateNext podName podNamespace);
      match ipv6Candidate with
      | None =>
          (* recycle IPv4 address if IPv6 allocation fails *)
          ip ← lift (candidate_text ipv4Candidate);
          on_subnet v4Subnet (Subnet_Release ip);;
          name ← subnet_name v6Subnet; fail (Errorf "fail to get paired ipv6 from subnet %s" [name])
      | Some ipv6Candidate => mret [ipv4Candidate; ipv6Candidate]
      end
  end.

Definition allocateDualStack (networkName : string) (subnets : list string) (podName podNamespace : string)
    : M NetworkSet (list IP) :=
  find_network networkName;;
  '(v4Name, v6Name) ← two_subnets subnets;
  on_network networkName (
    '(v4Subnet, v6Subnet) ←
      errf "fail to get paired subnets: %v" [] (Network_GetPairedDualStackSubnets v4Name v6Name);
    allocate_pair v4Subnet v6Subnet podName podNamespace).

Definition unsupported {S A} (ipFamilyMode : string) : M S A :=
  fail (Errorf "unsupported ip family %s" [ipFamilyMode]).

Definition DualStack_Allocate (ipFamilyMode network : string) (subnets : list string)
    (podName podNamespace : string) : M NetworkSet (list IP) :=
  if decide (ipFamilyMode = IPv4Only) then allocateIPv4Only network subnets podName podNamespace
  else if decide (ipFamilyMode = IPv6Only) then allocateIPv6Only network subnets podName podNamespace
  else if decide (ipFamilyMode = DualStack) then allocateDualStack network subnets podName podNamespace
  else unsupported ipFamilyMode.

(** [assignIPv4Only] and [assignIPv6Only] differ in the messages only. *)
Definition assign_single (mode networkName : string) (subnets IPs : list string)
    (podName podNamespace : string) (forced : bool) : M NetworkSet (list (option IP)) :=
  find_network networkName;;
  subnetName ← one_subnet mode subnets;
  match IPs with
  | [ip] =>
      if negb (nonempty ip) then fail (Errorf "invalid assigned IP %s" [ip])
      else on_network networkName (
        subnet ← errf "fail to get subnets %s by ip %s: %v" [subnetName; ip] (Network_GetSubnetByIP subnetName ip);
        assignedIP ← errf "fail to assign ip %s in subnet %s: %v" [ip; subnetName]
          (on_subnet subnet (Subnet_Assign podName podNamespace ip forced));
        mret [assignedIP])
  | _ => fail (Errorf ("only support one assigned IP when " +:+ mode +:+ " mode") [])
  end.

Definition assignIPv4Only := assign_single IPv4Only.
Definition assignIPv6Only := assign_single IPv6Only.

Definition assignDualStack (networkName : string) (subnets IPs : list string)
    (podName podNamespace : string) (forced : bool) : M NetworkSet (list (option IP)) :=
  find_network networkName;;
  '(v4Name, v6Name) ← two_subnets subnets;
  match IPs with
  | [ipv4; ipv6] =>
      if negb (nonempty ipv4) || negb (nonempty ipv6)
      then fail (Errorf "invalid assigned IP %s or %s" [ipv4; ipv6])
      else on_network networkName (
        v4Subnet ← errf "fail to get subnet %s by ip %s: %v" [v4Name; ipv4] (Network_GetSubnetByIP v4Name ipv4);
        v6Subnet ← errf "fail to get subnet %s by ip %s: %v" [v6Name; ipv6] (Network_GetSubnetByIP v6Name ipv6);
        assignedIPv4 ← errf "fail to assign ip %s in subnet %s: %v" [ipv4; v4Name]
          (on_subnet v4Subnet (Subnet_Assign podName podNamespace ipv4 forced));
        assignedIPv6 ← errf "fail to assign ip %s in subnet %s: %v" [ipv6; v6Name]
          (on_subnet v6Subnet (Subnet_Assign podName podNamespace ipv6 forced));
        mret [assignedIPv4; assignedIPv6])
  | _ => fail (Errorf "only support 2 assigned IPs when DualStack mode" [])
  end.

Definition DualStack_Assign (ipFamilyMode network : string) (subnets IPs : list string)
    (podName podNamespace : string) (forced : bool) : M NetworkSet (list (option IP)) :=
  if decide (ipFamilyMode = IPv4Only) then assignIPv4Only network subnets IPs podName podNamespace forced
  else if decide (ipFamilyMode = IPv6Only) then assignIPv6Only network subnets IPs podName podNamespace forced
  else if decide (ipFamilyMode = DualStack) then assignDualStack network subnets IPs podName podNamespace forced
  else unsupported ipFamilyMode.

Definition releaseIP (networkName : string) (subnets IPs : list string) : M NetworkSet unit :=
  errf "fail to get network %s: %v" [networkName] (find_network networkName);;
  match subnets, IPs with
  | [subnetName], [ip] =>
      on_network networkName (
        subnet ← errf "fail to get subnet %s: %v" [subnetName] (Network_GetSubnet subnetName);
        on_subnet subnet (Subnet_Release ip))
  | [_], _ => fail (Errorf "IPs has unexpected length %d" [])
  | _, _ => fail (Errorf "subnets has unexpected length %d" [])
  end.

Fixpoint release_each (pairs : list (string * string)) : M Network unit :=
  match pairs with
  | [] => mret tt
  | (subnetName, ip) :: pairs =>
      subnet ← errf "fail to get subnet %s: %v" [subnetName] (Network_GetSubnet subnetName);
      on_subnet subnet (Subnet_Release ip);;
      release_each pairs
  end.

Definition releaseIPs (networkName : string) (subnets IPs : list string) : M NetworkSet unit :=
  errf "fail to get network %s: %v" [networkName] (find_network networkName);;
  if negb (bool_decide (length subnets = length IPs))
  then fail (Errorf "subnets mismatch IPs in length %d/%d" [])
  else on_network networkName (release_each (zip subnets IPs)).

Definition DualStack_Release (ipFamilyMode networkName : string) (subnets IPs : list string) : M NetworkSet unit :=
  if decide (ipFamilyMode = IPv4Only ∨ ipFamilyMode = IPv6Only) then releaseIP networkName subnets IPs
  else if decide (ipFamilyMode = DualStack) then releaseIPs networkName subnets IPs
  else unsupported ipFamilyMode.
End allocator.
