(* ===== verification/AllocatorInvariant.v ===== *)
(** * How an allocator changes its networks

    The frame of the allocators' theorems: a method acts on a state when it
    relates every well-formed state to the state it leaves, whatever it
    returns.  On a subnet the relation is a history of pool operations
    ([IPAMPool]); it is lifted to slices, networks and sets of networks. *)

From S2P Require Import Prelude GoNet NetBlock CNIPlugins NetworkingV1 Kubernetes Config Utils IPAMTypes IPAMSubnet IPAMSync IPAMCanonical IPAMPool IPAMSubnetProperties IPAMNetwork IPAMNetworkProperties Allocator.

(** ** Methods and a preorder on states *)

Section acts.
Context {S : Type} (W : S → Prop) (T : S → S → Prop).

Class Frame : Prop := {
  frame_refl s : W s → T s s;
  frame_trans s1 s2 s3 : W s1 → T s1 s2 → T s2 s3 → T s1 s3;
  frame_wf s s' : W s → T s s' → W s'
}.

Context {F : Frame}.

Definition acts {A} (m : M S A) : Prop := ∀ s, W s → T s (m s).2.

Lemma acts_const {A} (o : outcome A) : acts (λ s, (o, s)).
Proof. intros s Hs. by apply frame_refl. Qed.

Lemma acts_bind {A B} (m : M S A) (f : A → M S B) : acts m → (∀ a, acts (f a)) → acts (m ≫= f).
Proof.
  intros Hm Hf s Hs. pose proof (Hm s Hs) as H1. unfold mbind, M_bind.
  destruct (m s) as [[a|e| |] s1]; cbn [snd] in *; [|done..].
  eapply frame_trans; [done|exact H1|]. apply Hf. by eapply frame_wf.
Qed.

Lemma acts_bind_ret {A B} (m : M S A) (f : A → M S B) :
  acts m → (∀ s a s', W s → m s = (Ret a, s') → T s' (f a s').2) → acts (m ≫= f).
Proof.
  intros Hm Hf s Hs. pose proof (Hm s Hs) as H1. unfold mbind, M_bind.
  destruct (m s) as [[a|e| |] s1] eqn:E; cbn [snd] in *; [|done..].
  eapply frame_trans; [done|exact H1|]. by eapply Hf.
Qed.

Lemma acts_get {B} (f : S → M S B) : (∀ s, W s → T s (f s s).2) → acts (get ≫= f).
Proof. intros Hf s Hs. by apply Hf. Qed.

(** A method that only reads. *)
Definition reads {A} (m : M S A) : Prop := ∀ s, (m s).2 = s.

Lemma acts_reads {A} (m : M S A) : reads m → acts m.
Proof. intros Hm s Hs. rewrite Hm. by apply frame_refl. Qed.

Lemma reads_bind {A B} (m : M S A) (f : A → M S B) : reads m → (∀ a, reads (f a)) → reads (m ≫= f).
Proof.
  intros Hm Hf s. specialize (Hm s). unfold mbind, M_bind.
  destruct (m s) as [[a|e| |] s1]; cbn [snd] in *; subst; [apply Hf|done..].
Qed.

Lemma acts_errf {A} format args (m : M S A) : acts m → acts (errf format args m).
Proof. intros Hm s Hs. unfold errf. rewrite wrap_state. by apply Hm. Qed.
End acts.

Arguments Frame {S} W T.

(** Methods built from reads. *)
Ltac reads_tac :=
  repeat lazymatch goal with
  | |- reads (_ ≫= _) => apply reads_bind; [|intros ?]
  | |- reads (if ?b then _ else _) => destruct b
  | |- reads (match ?x with _ => _ end) => destruct x
  | |- reads _ => by intros ?
  end.

(** ** Subnets, slices, networks, sets *)

Section frame.
Context {P : CNIPlugins} {L : CNIPluginsLaws P}.

(** What no operation changes. *)
Definition static (s s' : Subnet) : Prop :=
  sn_Name s' = sn_Name s ∧ sn_NetID s' = sn_NetID s ∧ sn_IPv6 s' = sn_IPv6 s ∧ sn_Private s' = sn_Private s ∧
  sn_ReservedList s' = sn_ReservedList s ∧ (∀ a, Subnet_Contains s' a = Subnet_Contains s a).

Definition any_subnet (_ : Subnet) : Prop := True.

#[export] Instance static_frame : Frame any_subnet static.
Proof.
  split; [done| |done].
  intros s1 s2 s3 _ (? & ? & ? & ? & ? & Hc1) (? & ? & ? & ? & ? & Hc2).
  split_and!; congruence.
Qed.

Lemma allocate_loop_static k pod ns : acts any_subnet static (allocate_loop k pod ns).
Proof.
  induction k as [|k IH]; cbn [allocate_loop]; [by apply (acts_const _ _)|].
  apply (acts_bind any_subnet static).
  - intros s _. unfold on_AvailableIPs, zoom. by destruct (IPSlice_Next (sn_AvailableIPs s)).
  - intros x. apply (acts_get any_subnet static). intros s _.
    destruct (IPSet_Has _ x); [by apply IH|done].
Qed.

Lemma run_op_static op s : static s (run_op op s).2.
Proof.
  destruct op as [pod ns|pod ns x f|x]; cbn [run_op].
  - pose proof (allocate_loop_static (Z.to_nat (IPSlice_Count (sn_AvailableIPs s))) pod ns s I) as H.
    unfold Subnet_AllocateNext. m_run. by destruct (allocate_loop _ pod ns s).
  - destruct (Assign_cases s pod ns x f) as
      [[_ ->]|[(_ & _ & ->)|[(c & _ & _ & _ & ->)|(c & _ & _ & _ & _ & ->)]]]; done.
  - unfold Subnet_Release, modify, Subnet_IsReservedIP. cbn [snd]. by case_bool_decide.
Qed.

Lemma run_ops_static ops s : static s (run_ops ops s).2.
Proof.
  revert s. induction ops as [|op ops IH]; intros s; [done|]. cbn [run_ops].
  pose proof (run_op_static op s) as H1. destruct (run_op op s) as [r s1]. specialize (IH s1).
  destruct (run_ops ops s1) as [tr s2]. cbn [snd] in *. by eapply (frame_trans any_subnet static).
Qed.

Lemma run_ops_reserved ops s : sn_ReservedList (run_ops ops s).2 = sn_ReservedList s.
Proof. apply run_ops_static. Qed.

(** The subnet went through a history of operations. *)
Definition sub_hist (s s' : Subnet) : Prop := ∃ ops, Forall op_ok ops ∧ s' = (run_ops ops s).2.

(** What is in use stays with its holder. *)
Definition keeps (s s' : Subnet) : Prop :=
  ∀ x c, sn_UsingIPs s !! x = Some c → ip_Status c = IPStatusUsing →
    ∃ c', sn_UsingIPs s' !! x = Some c' ∧ holder c' = holder c.

Lemma keeps_trans s1 s2 s3 : keeps s1 s2 → keeps s2 s3 → keeps s1 s3.
Proof.
  intros H12 H23 x c Hx Hst. destruct (H12 x c Hx Hst) as (c' & Hx' & Hh).
  assert (ip_Status c' = IPStatusUsing) as Hst' by (unfold holder in Hh; by simplify_eq; congruence).
  destruct (H23 x c' Hx' Hst') as (c'' & ? & Hh'). exists c''. by rewrite Hh'.
Qed.

(** [strict]: the history takes nothing away from a holder. *)
Definition sub_rel (strict : bool) (s s' : Subnet) : Prop :=
  sub_hist s s' ∧ (strict = true → keeps s s').

#[export] Instance sub_frame strict : Frame subnet_ok (sub_rel strict).
Proof.
  split.
  - intros s Hs. split; [by exists []|]. intros _ x c Hx Hst. eauto.
  - intros s1 s2 s3 _ [(ops1 & Ho1 & ->) Hk1] [(ops2 & Ho2 & ->) Hk2]. split.
    + exists (ops1 ++ ops2). split; [by apply Forall_app|]. rewrite run_ops_app.
      destruct (run_ops ops1 s1) as [tr1 s2]. cbn [snd]. by destruct (run_ops ops2 s2).
    + intros E. eapply keeps_trans; auto.
  - intros s s' Hs [(ops & Ho & ->) _]. pose proof (run_ops_refine s ops Hs Ho) as H.
    destruct (run_ops ops s). apply H.
Qed.

Lemma sub_rel_op strict s op :
  subnet_ok s → op_ok op → (strict = true → ∀ x, op ≠ OpRelease x) → sub_rel strict s (run_op op s).2.
Proof.
  intros Hs Hop Hno. split.
  - exists [op]. split; [by repeat constructor|]. cbn. by destruct (run_op op s).
  - intros E x c Hx Hst. pose proof (run_op_refines s op Hs Hop) as H.
    destruct (run_op op s) as [r s']. destruct H as [_ Hstep]. cbn [snd].
    apply abs_held in Hx. unfold holder in Hx. rewrite Hst in Hx.
    eapply pool_step_using, abs_held_inv in Hstep as (c' & Hc' & Hh); [|exact Hx|by apply Hno].
    exists c'. split; [done|]. unfold holder. rewrite Hst. by rewrite Hh.
Qed.

Lemma acts_AllocateNext strict pod ns : acts subnet_ok (sub_rel strict) (Subnet_AllocateNext pod ns).
Proof.
  intros s Hs. pose proof (sub_rel_op strict s (OpAllocate pod ns) Hs I) as H.
  cbn [run_op] in H. destruct (Subnet_AllocateNext pod ns s). by apply H.
Qed.

Lemma acts_Assign strict pod ns x f : canonical x → acts subnet_ok (sub_rel strict) (Subnet_Assign pod ns x f).
Proof.
  intros Hx s Hs. pose proof (sub_rel_op strict s (OpAssign pod ns x f) Hs Hx) as H.
  cbn [run_op] in H. destruct (Subnet_Assign pod ns x f s). by apply H.
Qed.

Lemma acts_Release x : acts subnet_ok (sub_rel false) (Subnet_Release x).
Proof.
  intros s Hs. pose proof (sub_rel_op false s (OpRelease x) Hs I) as H.
  cbn [run_op] in H. destruct (Subnet_Release x s). by apply H.
Qed.

(** *** Slices and networks *)

Record slice_rel (strict : bool) (s s' : SubnetSlice) : Prop := {
  sr_map : ss_SubnetIndexMap s' = ss_SubnetIndexMap s;
  sr_count : ss_SubnetCount s' = ss_SubnetCount s;
  sr_index : ss_SubnetIndex s' < Nat.max 1 (ss_SubnetCount s);
  sr_subnets : Forall2 (sub_rel strict) (ss_Subnets s) (ss_Subnets s')
}.

Lemma sub_rel_name strict s s' : sub_rel strict s s' → sn_Name s' = sn_Name s.
Proof. intros [(ops & _ & ->) _]. apply run_ops_static. Qed.

Lemma Forall2_refl_on {A} (R : A → A → Prop) (Q : A → Prop) (l : list A) :
  (∀ x, Q x → R x x) → Forall Q l → Forall2 R l l.
Proof. intros Hr. induction 1; constructor; auto. Qed.

#[export] Instance slice_frame strict : Frame slice_wf (slice_rel strict).
Proof.
  split.
  - intros s Hs. split; [done|done|by apply wf_index|].
    eapply Forall2_refl_on; [|by apply wf_subnets]. apply frame_refl. apply _.
  - intros s1 s2 s3 Hs1 [Hm1 Hc1 Hi1 Hf1] [Hm2 Hc2 Hi2 Hf2]. split; [congruence|congruence|by rewrite <-Hc1|].
    pose proof (wf_subnets _ Hs1) as Hok. clear -Hf1 Hf2 Hok. revert Hok Hf2.
    generalize (ss_Subnets s3). induction Hf1 as [|x y l1 l2 Hxy Hl IH]; intros l3 Hok Hf2.
    + by inversion Hf2.
    + inversion Hf2; subst. apply Forall_cons in Hok as [? ?]. constructor; [|by apply IH].
      by eapply (frame_trans subnet_ok (sub_rel strict)).
  - intros s s' [Hc Hi Hm Hok] [Hm' Hc' Hi' Hf]. split.
    + rewrite Hc', Hc. by eapply Forall2_length.
    + by rewrite Hc'.
    + intros name i. rewrite Hm', Hm. split.
      * intros (sn & Hsn & Hn). destruct (Forall2_lookup_l _ _ _ _ _ Hf Hsn) as (sn' & Hsn' & Hr).
        exists sn'. split; [done|]. by rewrite (sub_rel_name _ _ _ Hr).
      * intros (sn' & Hsn' & Hn). destruct (Forall2_lookup_r _ _ _ _ _ Hf Hsn') as (sn & Hsn & Hr).
        exists sn. split; [done|]. by rewrite <-(sub_rel_name _ _ _ Hr).
    + clear -Hok Hf. induction Hf as [|x y l l' Hxy _ IH]; [constructor|].
      apply Forall_cons in Hok as [? ?]. constructor; [|by apply IH].
      by eapply (frame_wf subnet_ok (sub_rel strict)).
Qed.

Definition net_wf (n : Network) : Prop := slice_wf (nw_Subnets n).
Definition net_rel (strict : bool) (n n' : Network) : Prop :=
  n' = nw_set_Subnets (nw_Subnets n') n ∧ slice_rel strict (nw_Subnets n) (nw_Subnets n').

#[export] Instance net_frame strict : Frame net_wf (net_rel strict).
Proof.
  split.
  - intros n Hn. split; [by destruct n|]. by apply (frame_refl slice_wf _).
  - intros n1 n2 n3 Hn [E12 H12] [E23 H23]. split; [by rewrite E23, E12|].
    by eapply (frame_trans slice_wf (slice_rel strict)).
  - intros n n' Hn [_ H]. by eapply (frame_wf slice_wf (slice_rel strict)).
Qed.

Definition set_wf (ns : NetworkSet) : Prop := map_Forall (λ _ n, net_wf n) ns.
Definition set_rel (strict : bool) (ns ns' : NetworkSet) : Prop :=
  ∀ name, option_Forall2 (net_rel strict) (ns !! name) (ns' !! name).

Lemma set_rel_lookup strict ns ns' name n :
  set_rel strict ns ns' → ns !! name = Some n → ∃ n', ns' !! name = Some n' ∧ net_rel strict n n'.
Proof. intros H E. specialize (H name). rewrite E in H. inversion H; subst. eauto. Qed.

#[export] Instance set_frame strict : Frame set_wf (set_rel strict).
Proof.
  split.
  - intros ns Hns name. destruct (ns !! name) as [n|] eqn:E; constructor.
    apply (frame_refl net_wf _). by eapply Hns.
  - intros ns1 ns2 ns3 Hns H12 H23 name. pose proof (H12 name) as R12. pose proof (H23 name) as R23.
    destruct (ns1 !! name) as [n1|] eqn:E1, (ns2 !! name) as [n2|], (ns3 !! name) as [n3|];
      try (by inversion R12); try (by inversion R23); constructor.
    inversion R12; inversion R23; subst. eapply (frame_trans net_wf (net_rel strict)); [|done..].
    by eapply Hns.
  - intros ns ns' Hns H name n' E'. specialize (H name). rewrite E' in H.
    inversion H as [n ? Hr E|]; subst. eapply (frame_wf net_wf (net_rel strict)); [|done]. by eapply Hns.
Qed.

(** *** Methods through pointers *)

Lemma slice_rel_cursor strict s i :
  slice_wf s → i < Nat.max 1 (ss_SubnetCount s) → slice_rel strict s (ss_set_SubnetIndex i s).
Proof.
  intros Hs Hi. split; [done|done|done|]. cbn.
  eapply Forall2_refl_on; [|by apply wf_subnets]. apply (frame_refl subnet_ok _).
Qed.

Lemma slice_rel_set_subnet strict s i sn sn' :
  slice_wf s → ss_Subnets s !! i = Some sn → sub_rel strict sn sn' → slice_rel strict s (ss_set_subnet i sn' s).
Proof.
  intros Hs Hi Hr. split; [done|done|exact (wf_index s Hs)|]. cbn.
  rewrite <-(list_insert_id _ _ _ Hi) at 1. apply Forall2_insert; [|done].
  eapply Forall2_refl_on; [|by apply wf_subnets]. apply (frame_refl subnet_ok _).
Qed.

Lemma acts_on_subnet strict {A} i (m : M Subnet A) :
  acts subnet_ok (sub_rel strict) m → acts net_wf (net_rel strict) (on_subnet i m).
Proof.
  intros Hm n Hn. unfold on_subnet, zoom. destruct (_ !! i) as [sn|] eqn:Hi; [|by apply (frame_refl net_wf _)].
  assert (subnet_ok sn) as Hsn by (eapply (Forall_lookup_1 _ _ _ _ (wf_subnets _ Hn)); exact Hi).
  specialize (Hm sn Hsn). destruct (m sn) as [o sn']. cbn [snd] in *.
  split; [done|]. by eapply slice_rel_set_subnet.
Qed.

Lemma acts_on_network strict {A} name (m : M Network A) :
  acts net_wf (net_rel strict) m → acts set_wf (set_rel strict) (on_network name m).
Proof.
  intros Hm ns Hns. unfold on_network, zoom. destruct (ns !! name) as [n|] eqn:Hi; [|by apply (frame_refl set_wf _)].
  specialize (Hm n (Hns name n Hi)). destruct (m n) as [o n']. cbn [snd] in *.
  intros name'. destruct (decide (name = name')) as [<-|Hne].
  - rewrite lookup_insert_eq, Hi. by constructor.
  - rewrite lookup_insert_ne by done. by apply (frame_refl set_wf (set_rel strict)).
Qed.

Lemma acts_on_Subnets strict {A} (m : M SubnetSlice A) :
  acts slice_wf (slice_rel strict) m → acts net_wf (net_rel strict) (on_Subnets m).
Proof.
  intros Hm n Hn. specialize (Hm _ Hn). unfold on_Subnets, zoom.
  destruct (m (nw_Subnets n)) as [o s']. cbn [snd] in *. by split.
Qed.

Lemma acts_lift_get strict {A} (f : Network → outcome A) :
  acts net_wf (net_rel strict) (n ← get; lift (f n)).
Proof. intros n Hn. by apply (frame_refl net_wf _). Qed.

Lemma acts_subnet_name strict i : acts net_wf (net_rel strict) (subnet_name i).
Proof. apply acts_on_subnet. intros s Hs. by apply (frame_refl subnet_ok _). Qed.

Lemma candidate_lt s v6 id i : slice_wf s → candidate s v6 id i → i < Nat.max 1 (ss_SubnetCount s).
Proof. apply candidate_index. Qed.

Lemma acts_GetSubnet strict name : acts net_wf (net_rel strict) (Network_GetSubnet name).
Proof.
  unfold Network_GetSubnet. destruct (nonempty name); [apply acts_lift_get|].
  apply acts_on_Subnets. intros s Hs. rewrite GetAvailableSubnet_search by done.
  destruct (list_find _ _) as [[j x]|] eqn:Hf; cbn [snd]; [|by apply (frame_refl slice_wf _)].
  apply slice_rel_cursor; [done|]. rewrite (wf_count s Hs).
  assert (length (ss_Subnets s) ≠ 0) as Hz.
  { apply list_find_Some in Hf as (Hj & _). apply lookup_lt_Some in Hj. rewrite rotation_length in Hj. lia. }
  eapply Nat.lt_le_trans; [by apply Nat.mod_upper_bound|]. lia.
Qed.

Lemma acts_GetSubnetByIP strict name ip : acts net_wf (net_rel strict) (Network_GetSubnetByIP name ip).
Proof. intros n Hn. by apply (frame_refl net_wf _). Qed.

Lemma acts_choose strict (v6 : bool) :
  acts slice_wf (slice_rel strict)
    (choose_single (λ c, if v6 then (onlyIPv6 c, pairedIPv6 c) else (onlyIPv4 c, pairedIPv4 c))).
Proof.
  intros s Hs. destruct (choose_single_cases s v6 Hs) as [(i & id & Hc & -> & _)|[_ ->]]; cbn [snd].
  - apply slice_rel_cursor; [done|]. by eapply candidate_index.
  - by apply (frame_refl slice_wf _).
Qed.

Lemma acts_GetIPv4Subnet strict name : acts net_wf (net_rel strict) (Network_GetIPv4Subnet name).
Proof.
  unfold Network_GetIPv4Subnet. destruct (nonempty name).
  - apply acts_reads; [apply _|]. reads_tac.
  - apply acts_on_Subnets, (acts_choose strict false).
Qed.

Lemma acts_GetIPv6Subnet strict name : acts net_wf (net_rel strict) (Network_GetIPv6Subnet name).
Proof.
  unfold Network_GetIPv6Subnet. destruct (nonempty name).
  - apply acts_reads; [apply _|]. reads_tac.
  - apply acts_on_Subnets, (acts_choose strict true).
Qed.

Lemma acts_GetPaired strict v4 v6 : acts net_wf (net_rel strict) (Network_GetPairedDualStackSubnets v4 v6).
Proof.
  unfold Network_GetPairedDualStackSubnets. destruct (nonempty v4 && nonempty v6).
  - apply acts_reads; [apply _|]. reads_tac.
  - apply acts_on_Subnets. intros s Hs.
    destruct (GetAvailablePaired_cases s Hs) as [(i4 & i6 & id & Hc & _ & ->)|[_ ->]]; cbn [snd].
    + apply slice_rel_cursor; [done|]. by eapply candidate_index.
    + by apply (frame_refl slice_wf _).
Qed.

(** ** Dual stack: both or none *)

Definition set_subnet (i : nat) (sn : Subnet) (n : Network) : Network :=
  nw_set_Subnets (ss_set_subnet i sn (nw_Subnets n)) n.

Lemma on_subnet_run {A} i (m : M Subnet A) n sn o sn' :
  ss_Subnets (nw_Subnets n) !! i = Some sn → m sn = (o, sn') → on_subnet i m n = (o, set_subnet i sn' n).
Proof. intros Hi Hm. unfold on_subnet, zoom. by rewrite Hi, Hm. Qed.

Lemma set_subnet_id i sn n : ss_Subnets (nw_Subnets n) !! i = Some sn → set_subnet i sn n = n.
Proof.
  intros Hi. unfold set_subnet, nw_set_Subnets, ss_set_subnet. rewrite list_insert_id by done.
  by destruct n as [? ? ? ? []].
Qed.

Lemma subnet_name_run i n sn :
  ss_Subnets (nw_Subnets n) !! i = Some sn → subnet_name i n = (Ret (sn_Name sn), n).
Proof.
  intros Hi. unfold subnet_name. rewrite (on_subnet_run i (gets sn_Name) n sn _ sn Hi eq_refl). by rewrite set_subnet_id.
Qed.

Lemma set_subnet_eq i sn n :
  is_Some (ss_Subnets (nw_Subnets n) !! i) → ss_Subnets (nw_Subnets (set_subnet i sn n)) !! i = Some sn.
Proof. intros Hi%lookup_lt_is_Some. by apply list_lookup_insert_eq. Qed.

Lemma set_subnet_ne i j sn n :
  i ≠ j → ss_Subnets (nw_Subnets (set_subnet i sn n)) !! j = ss_Subnets (nw_Subnets n) !! j.
Proof. intros Hij. by apply list_lookup_insert_ne. Qed.

Lemma set_subnet_twice i sn sn' n : set_subnet i sn (set_subnet i sn' n) = set_subnet i sn n.
Proof. unfold set_subnet, nw_set_Subnets, ss_set_subnet. cbn. by rewrite list_insert_insert_eq. Qed.

Lemma set_subnet_comm i j sn sn' n :
  i ≠ j → set_subnet i sn (set_subnet j sn' n) = set_subnet j sn' (set_subnet i sn n).
Proof.
  intros Hij. unfold set_subnet, nw_set_Subnets, ss_set_subnet. cbn. by rewrite list_insert_insert_ne.
Qed.

Lemma keeps_same s s' : sn_UsingIPs s' = sn_UsingIPs s → keeps s s'.
Proof. intros E x c Hx _. rewrite E. eauto. Qed.

(** Taking back an address that was just allocated. *)
Lemma Release_undo s s1 x s2 c :
  subnet_ok s → x ∈ free s → sub_rel true s s1 → sn_UsingIPs s1 = <[x := c]> (sn_UsingIPs s) →
  Subnet_Release x s1 = (Ret tt, s2) → sub_rel true s s2 ∧ sn_UsingIPs s2 = sn_UsingIPs s.
Proof.
  intros Hok Hfree Hr HU ER. pose proof Hfree as [Hx Hu]%free_elem_of.
  pose proof (proj1 (ok_avail s Hok x) Hx) as (_ & _ & Hres).
  assert (sn_UsingIPs s2 = sn_UsingIPs s) as HU2.
  { destruct Hr as [(ops & Hops & ->) _]. pose proof (run_ops_reserved ops s) as Hrl.
    unfold Subnet_Release, modify, Subnet_IsReservedIP in ER. injection ER as <-.
    rewrite Hrl, bool_decide_eq_false_2 by done. cbn. rewrite HU. unfold IPSet_Delete. by apply delete_insert_id. }
  split; [|done]. split; [|intros _; by apply keeps_same].
  pose proof (frame_wf subnet_ok (sub_rel true) s s1 Hok Hr) as Hok1.
  pose proof (acts_Release x s1 Hok1) as [Hh _]. rewrite ER in Hh. cbn [snd] in Hh.
  destruct Hr as [Hh1 _]. eapply (frame_trans subnet_ok (sub_rel false)); [exact Hok|by split..].
Qed.

(** Either both subnets give an address that was free, or nothing is given
    and what is used is as before. *)
Lemma allocate_pair_cases i4 i6 pod ns n sn4 sn6 :
  net_wf n → i4 ≠ i6 → ss_Subnets (nw_Subnets n) !! i4 = Some sn4 → ss_Subnets (nw_Subnets n) !! i6 = Some sn6 →
  ∃ sn4' sn6', sub_rel true sn4 sn4' ∧ sub_rel true sn6 sn6' ∧
  ((∃ x4 x6, x4 ∈ free sn4 ∧ x6 ∈ free sn6 ∧
      let c4 := Subnet_newIP sn4 x4 pod ns IPStatusUsing in
      let c6 := Subnet_newIP sn6 x6 pod ns IPStatusUsing in
      sn_UsingIPs sn4' = <[x4 := c4]> (sn_UsingIPs sn4) ∧ sn_UsingIPs sn6' = <[x6 := c6]> (sn_UsingIPs sn6) ∧
      allocate_pair i4 i6 pod ns n = (Ret [c4; c6], set_subnet i6 sn6' (set_subnet i4 sn4' n))) ∨
   (∃ e, (free sn4 = [] ∨ free sn6 = []) ∧
      sn_UsingIPs sn4' = sn_UsingIPs sn4 ∧ sn_UsingIPs sn6' = sn_UsingIPs sn6 ∧
      allocate_pair i4 i6 pod ns n = (Fail e, set_subnet i6 sn6' (set_subnet i4 sn4' n)))).
Proof.
  intros Hn Hne H4 H6. pose proof (Forall_lookup_1 _ _ _ _ (wf_subnets _ Hn) H4) as Hok4.
  pose proof (Forall_lookup_1 _ _ _ _ (wf_subnets _ Hn) H6) as Hok6.
  pose proof (acts_AllocateNext true pod ns sn4 Hok4) as Ha4.
  pose proof (acts_AllocateNext true pod ns sn6 Hok6) as Ha6.
  unfold allocate_pair.
  destruct (AllocateNext_cases sn4 pod ns Hok4) as
    [(x4 & s4 & Hx4 & Hs4 & E4 & HU4 & _)|(Hnil & s4 & Hs4 & E4 & HU4 & _)]; rewrite E4 in Ha4; cbn [snd] in Ha4.
  2: { exists s4, sn6. split; [done|]. split; [by apply (frame_refl subnet_ok _)|]. right.
       rewrite (bind_Ret _ _ _ _ _ (on_subnet_run _ (Subnet_AllocateNext pod ns) _ _ _ _ H4 E4)).
       assert (ss_Subnets (nw_Subnets (set_subnet i4 s4 n)) !! i4 = Some s4) as H4' by (by apply set_subnet_eq).
       rewrite (bind_Ret _ _ _ _ _ (subnet_name_run _ _ _ H4')).
       rewrite (set_subnet_id i6) by (by rewrite set_subnet_ne). eauto 10. }
  rewrite (bind_Ret _ _ _ _ _ (on_subnet_run _ (Subnet_AllocateNext pod ns) _ _ _ _ H4 E4)).
  set (n1 := set_subnet i4 s4 n).
  assert (ss_Subnets (nw_Subnets n1) !! i4 = Some s4) as H4' by (by apply set_subnet_eq).
  assert (ss_Subnets (nw_Subnets n1) !! i6 = Some sn6) as H6' by (unfold n1; by rewrite set_subnet_ne).
  destruct (AllocateNext_cases sn6 pod ns Hok6) as
    [(x6 & s6 & Hx6 & Hs6 & E6 & HU6 & _)|(Hnil & s6 & Hs6 & E6 & HU6 & _)]; rewrite E6 in Ha6; cbn [snd] in Ha6;
    rewrite (bind_Ret _ _ _ _ _ (on_subnet_run _ (Subnet_AllocateNext pod ns) _ _ _ _ H6' E6)).
  - exists s4, s6. split; [done|]. split; [done|]. left. exists x4, x6. done.
  - assert (canonical x4) as Hx4c.
    { apply free_elem_of in Hx4 as [Hx4 _]. by apply (ok_avail sn4 Hok4) in Hx4 as [? _]. }
    set (n2 := set_subnet i6 s6 n1).
    assert (ss_Subnets (nw_Subnets n2) !! i4 = Some s4) as H4'' by (unfold n2; by rewrite set_subnet_ne).
    assert (lift (candidate_text (Subnet_newIP sn4 x4 pod ns IPStatusUsing)) n2 = (Ret x4, n2)) as Htxt.
    { unfold lift, candidate_text. cbn. destruct Hx4c as [_ ->]. done. }
    rewrite (bind_Ret _ _ _ _ _ Htxt).
    destruct (Subnet_Release x4 s4) as [o s4'] eqn:ER.
    assert (o = Ret tt) as -> by (unfold Subnet_Release, modify in ER; by simplify_eq).
    rewrite (bind_Ret _ _ _ _ _ (on_subnet_run _ (Subnet_Release x4) _ _ _ _ H4'' ER)).
    assert (ss_Subnets (nw_Subnets (set_subnet i4 s4' n2)) !! i6 = Some s6) as H6''.
    { rewrite set_subnet_ne by done. by apply set_subnet_eq. }
    rewrite (bind_Ret _ _ _ _ _ (subnet_name_run _ _ _ H6'')).
    exists s4', s6. pose proof (Release_undo sn4 s4 x4 s4' _ Hok4 Hx4 Ha4 HU4 ER) as [Hr4 HU4'].
    split; [done|]. split; [done|]. right. eexists. split; [by right|]. split; [done|]. split; [done|].
    unfold n2, n1, fail. by rewrite set_subnet_comm, set_subnet_twice by done.
Qed.

Lemma net_rel_set_subnet strict i sn sn' n :
  net_wf n → ss_Subnets (nw_Subnets n) !! i = Some sn → sub_rel strict sn sn' → net_rel strict n (set_subnet i sn' n).
Proof. intros Hn Hi Hr. split; [done|]. by eapply slice_rel_set_subnet. Qed.

(** The two subnets of a pair are of different families. *)
Definition is_pair (n : Network) (i4 i6 : nat) : Prop :=
  ∃ sn4 sn6, ss_Subnets (nw_Subnets n) !! i4 = Some sn4 ∧ ss_Subnets (nw_Subnets n) !! i6 = Some sn6 ∧
    Subnet_IsIPv6 sn4 = false ∧ Subnet_IsIPv6 sn6 = true ∧
    unifyNetID (sn_NetID sn4) = unifyNetID (sn_NetID sn6).

Lemma is_pair_ne n i4 i6 : is_pair n i4 i6 → i4 ≠ i6.
Proof. intros (sn4 & sn6 & H4 & H6 & F4 & F6 & _) ->. simplify_eq. by rewrite F4 in F6. Qed.

Lemma subnet_at_inv s i sn : subnet_at s i = Ret sn → ss_Subnets s !! i = Some sn.
Proof. unfold subnet_at, deref. destruct (_ !! i); intros; by simplify_eq. Qed.

Lemma GetPaired_ret n v4 v6 i4 i6 n' :
  net_wf n → Network_GetPairedDualStackSubnets v4 v6 n = (Ret (i4, i6), n') → is_pair n' i4 i6.
Proof.
  intros Hn. unfold Network_GetPairedDualStackSubnets. destruct (nonempty v4 && nonempty v6).
  - m_run. unfold lift, mbind, M_bind.
    destruct (SubnetSlice_GetSubnet _ v4) as [j4|e| |]; [|done..].
    destruct (subnet_at _ j4) as [sn4|e| |] eqn:H4; [|done..].
    destruct (Subnet_IsIPv6 sn4) eqn:F4; [done|].
    destruct (SubnetSlice_GetSubnet _ v6) as [j6|e| |]; [|done..].
    destruct (subnet_at _ j6) as [sn6|e| |] eqn:H6; [|done..].
    destruct (Subnet_IsIPv6 sn6) eqn:F6; [|done]. cbn [negb].
    destruct (Z.eqb_spec (unifyNetID (sn_NetID sn4)) (unifyNetID (sn_NetID sn6))); [|done].
    intros [= -> -> ->]. exists sn4, sn6. by split_and!; try apply subnet_at_inv.
  - unfold on_Subnets, zoom.
    destruct (GetAvailablePaired_cases _ Hn) as
      [(j4 & j6 & id & (sn4 & ? & ? & ? & ?) & (sn6 & ? & ? & ? & ?) & ->)|[_ ->]]; [|done].
    intros [= -> -> <-]. exists sn4, sn6. split_and!; try done. unfold netID_of in *. congruence.
Qed.

Lemma acts_allocate_pair n i4 i6 pod ns :
  net_wf n → is_pair n i4 i6 → net_rel true n (allocate_pair i4 i6 pod ns n).2.
Proof.
  intros Hn Hp. pose proof (is_pair_ne _ _ _ Hp) as Hne. destruct Hp as (sn4 & sn6 & H4 & H6 & _).
  destruct (allocate_pair_cases i4 i6 pod ns n sn4 sn6 Hn Hne H4 H6) as
    (sn4' & sn6' & Hr4 & Hr6 & Hcase).
  assert (net_rel true n (set_subnet i6 sn6' (set_subnet i4 sn4' n))) as Hrel.
  { pose proof (net_rel_set_subnet true i4 sn4 sn4' n Hn H4 Hr4) as R4.
    eapply (frame_trans net_wf (net_rel true)); [done|exact R4|].
    eapply net_rel_set_subnet; [by eapply (frame_wf net_wf (net_rel true))| |exact Hr6].
    by rewrite set_subnet_ne. }
  destruct Hcase as [(x4 & x6 & _ & _ & _ & _ & ->)|(e & _ & _ & _ & ->)]; done.
Qed.

(** ** The methods of the allocators *)

Lemma acts_find_network strict name : acts set_wf (set_rel strict) (find_network name).
Proof. apply acts_reads; [apply _|]. unfold find_network. reads_tac. Qed.

Lemma acts_one_subnet {S} (W : S → Prop) T `{!Frame W T} mode subnets : acts W T (one_subnet mode subnets).
Proof. destruct subnets as [|? [|]]; by apply acts_const. Qed.

Lemma acts_two_subnets {S} (W : S → Prop) T `{!Frame W T} subnets : acts W T (two_subnets subnets).
Proof. destruct subnets as [|? [|? [|]]]; by apply acts_const. Qed.

Ltac acts_tac :=
  repeat lazymatch goal with
  | |- acts _ _ (_ ≫= _) => apply acts_bind; [apply _| |intros ?]
  | |- acts _ _ (errf _ _ _) => apply acts_errf
  | |- acts _ _ (find_network _) => apply acts_find_network
  | |- acts _ _ (one_subnet _ _) => apply acts_one_subnet; apply _
  | |- acts _ _ (two_subnets _) => apply acts_two_subnets; apply _
  | |- acts _ _ (subnet_name _) => apply acts_subnet_name
  | |- acts _ _ (on_subnet _ (Subnet_AllocateNext _ _)) => apply acts_on_subnet, acts_AllocateNext
  | |- acts _ _ (fail _) => apply acts_const; apply _
  | |- acts _ _ (mret _) => apply acts_const; apply _
  | |- acts _ _ (match ?x with _ => _ end) => destruct x
  end.

Lemma acts_DualStack_Allocate mode network subnets pod ns :
  acts set_wf (set_rel true) (DualStack_Allocate mode network subnets pod ns).
Proof.
  unfold DualStack_Allocate, allocateIPv4Only, allocateIPv6Only, unsupported.
  repeat case_decide; [| | |acts_tac].
  - acts_tac. apply acts_on_network. acts_tac; try apply acts_GetIPv4Subnet; acts_tac.
  - acts_tac. apply acts_on_network. acts_tac; try apply acts_GetIPv6Subnet; acts_tac.
  - unfold allocateDualStack. acts_tac. apply acts_on_network.
    apply (acts_bind_ret net_wf (net_rel true)); [apply acts_errf, acts_GetPaired|].
    intros n [i4 i6] n' Hn E. apply wrap_Ret_inv in E.
    apply acts_allocate_pair; [|by eapply GetPaired_ret].
    eapply (frame_wf net_wf (net_rel true)); [exact Hn|].
    change n' with (Ret (i4, i6), n').2. rewrite <-E. by apply acts_GetPaired.
Qed.

Lemma acts_DualStack_Assign mode network subnets IPs pod ns forced :
  Forall canonical IPs → acts set_wf (set_rel true) (DualStack_Assign mode network subnets IPs pod ns forced).
Proof.
  intros HIPs. unfold DualStack_Assign, assignIPv4Only, assignIPv6Only, assignDualStack, assign_single, unsupported.
  assert (∀ i ip, ip ∈ IPs → acts net_wf (net_rel true) (on_subnet i (Subnet_Assign pod ns ip forced))) as Ha.
  { intros i ip Hip. apply acts_on_subnet, acts_Assign. rewrite Forall_forall in HIPs. by apply HIPs. }
  repeat case_decide; [| | |acts_tac].
  all: acts_tac; apply acts_on_network; acts_tac; try apply acts_GetSubnetByIP; try apply Ha; set_solver.
Qed.

Lemma acts_release_each pairs : acts net_wf (net_rel false) (release_each pairs).
Proof.
  induction pairs as [|[name ip] pairs IH]; cbn [release_each]; acts_tac; [apply acts_GetSubnet| |exact IH].
  apply acts_on_subnet, acts_Release.
Qed.

Lemma acts_DualStack_Release mode network subnets IPs :
  acts set_wf (set_rel false) (DualStack_Release mode network subnets IPs).
Proof.
  unfold DualStack_Release, releaseIP, releaseIPs, unsupported.
  repeat case_decide; acts_tac; apply acts_on_network; try apply acts_release_each.
  acts_tac; [apply acts_GetSubnet|]. apply acts_on_subnet, acts_Release.
Qed.

Lemma acts_Allocator_Allocate network subnet pod ns :
  acts set_wf (set_rel true) (Allocator_Allocate network subnet pod ns).
Proof. unfold Allocator_Allocate. acts_tac. apply acts_on_network. acts_tac. apply acts_GetSubnet. Qed.

Lemma acts_Allocator_Assign network subnet pod ns ip forced :
  canonical ip → acts set_wf (set_rel true) (Allocator_Assign network subnet pod ns ip forced).
Proof.
  intros Hip. unfold Allocator_Assign. acts_tac. apply acts_on_network. acts_tac.
  - apply acts_GetSubnetByIP.
  - by apply acts_on_subnet, acts_Assign.
Qed.

Lemma acts_Allocator_Release network subnet ip :
  acts set_wf (set_rel false) (Allocator_Release network subnet ip).
Proof.
  unfold Allocator_Release. acts_tac. apply acts_on_network. acts_tac; [apply acts_GetSubnet|].
  apply acts_on_subnet, acts_Release.
Qed.
End frame.
