(* ===== verification/AllocatorProperties.v ===== *)
(** * What the allocators promise (pkg/ipam/allocator)

    Every method acts on every subnet as a history of pool operations, so
    that what holds of a pool holds of an allocator; dual-stack allocation
    gives both addresses or nothing, and finds them whenever a pair of
    subnets has them; refreshing is atomic per network. *)

From S2P Require Import Prelude GoNet NetBlock CNIPlugins NetworkingV1 Kubernetes Config Utils IPAMTypes IPAMSubnet IPAMSync IPAMCanonical IPAMPool IPAMSubnetProperties IPAMNetwork IPAMNetworkProperties Allocator AllocatorInvariant.

(** ** Histories of an allocator *)

Inductive alloc_op :=
  | AAllocate (mode network : string) (subnets : list string) (pod ns : string)
  | AAssign (mode network : string) (subnets IPs : list string) (pod ns : string) (forced : bool)
  | ARelease (mode network : string) (subnets IPs : list string).

Definition is_release (op : alloc_op) : bool := match op with ARelease _ _ _ _ => true | _ => false end.

Section histories.
Context {P : CNIPlugins}.

Definition run_alloc (op : alloc_op) (ns : NetworkSet) : NetworkSet :=
  match op with
  | AAllocate mode network subnets pod pns => (DualStack_Allocate mode network subnets pod pns ns).2
  | AAssign mode network subnets IPs pod pns forced => (DualStack_Assign mode network subnets IPs pod pns forced ns).2
  | ARelease mode network subnets IPs => (DualStack_Release mode network subnets IPs ns).2
  end.

Definition alloc_op_ok (op : alloc_op) : Prop :=
  match op with AAssign _ _ _ IPs _ _ _ => Forall canonical IPs | _ => True end.

(** The subnet that a pointer points to. *)
Definition subnet_in (ns : NetworkSet) (name : string) (i : nat) : option Subnet :=
  n ← ns !! name; ss_Subnets (nw_Subnets n) !! i.

(** The addresses in use are the same, wherever the cursors are. *)
Definition used_same (ns ns' : NetworkSet) : Prop :=
  ∀ name i, sn_UsingIPs <$> subnet_in ns name i = sn_UsingIPs <$> subnet_in ns' name i.

Context {L : CNIPluginsLaws P}.

Lemma run_alloc_rel op ns :
  set_wf ns → alloc_op_ok op → set_rel (negb (is_release op)) ns (run_alloc op ns).
Proof.
  intros Hns Hop. destruct op; cbn [run_alloc is_release negb].
  - by apply acts_DualStack_Allocate.
  - by apply acts_DualStack_Assign.
  - by apply acts_DualStack_Release.
Qed.

Lemma set_rel_weaken strict ns ns' : set_rel strict ns ns' → set_rel false ns ns'.
Proof.
  intros H name. specialize (H name). destruct H as [n n' [E [H1 H2 H3 H4]]|]; constructor.
  split; [done|]. split; [done..|]. eapply Forall2_impl; [exact H4|]. intros s s' [Hh _]. by split.
Qed.

Lemma run_allocs_rel strict ops ns :
  set_wf ns → Forall alloc_op_ok ops → (strict = true → Forall (λ op, is_release op = false) ops) →
  set_rel strict ns (foldl (λ ns op, run_alloc op ns) ns ops).
Proof.
  intros Hns Hops. revert ns Hns. induction Hops as [|op ops Hop _ IH]; intros ns Hns Hno; cbn [foldl].
  - by apply (frame_refl set_wf _).
  - pose proof (run_alloc_rel op ns Hns Hop) as Hstep.
    assert (set_rel strict ns (run_alloc op ns)) as Hstep'.
    { destruct strict; [|by eapply set_rel_weaken].
      specialize (Hno eq_refl). apply Forall_cons in Hno as [E _]. by rewrite E in Hstep. }
    eapply (frame_trans set_wf (set_rel strict)); [done|exact Hstep'|]. apply IH.
    + by eapply (frame_wf set_wf (set_rel strict)).
    + intros E. specialize (Hno E). by apply Forall_cons in Hno as [_ ?].
Qed.

Lemma set_rel_subnet strict ns ns' name i sn :
  set_rel strict ns ns' → subnet_in ns name i = Some sn →
  ∃ sn', subnet_in ns' name i = Some sn' ∧ sub_rel strict sn sn'.
Proof.
  unfold subnet_in. intros H Hsn. destruct (ns !! name) as [n|] eqn:E; [|done]. cbn in Hsn.
  destruct (set_rel_lookup _ _ _ _ _ H E) as (n' & -> & _ & Hr). cbn.
  destruct (Forall2_lookup_l _ _ _ _ _ (sr_subnets _ _ _ Hr) Hsn) as (sn' & Hsn' & ?). by exists sn'.
Qed.

(** ** The steps of an allocation *)

Lemma find_network_run name ns n : ns !! name = Some n → find_network name ns = (Ret tt, ns).
Proof. intros E. unfold find_network, GetNetwork. m_run. by rewrite E. Qed.

Lemma on_network_run {A} name (m : M Network A) ns n o n' :
  ns !! name = Some n → m n = (o, n') → on_network name m ns = (o, <[name := n']> ns).
Proof. intros E Hm. unfold on_network, zoom. by rewrite E, Hm. Qed.

Lemma GetPaired_subnets n v4 v6 :
  net_wf n → ss_Subnets (nw_Subnets (Network_GetPairedDualStackSubnets v4 v6 n).2) = ss_Subnets (nw_Subnets n).
Proof.
  intros Hn. unfold Network_GetPairedDualStackSubnets. destruct (nonempty v4 && nonempty v6).
  - match goal with |- context [?m n] => assert (reads m) as Hr by reads_tac end. by rewrite Hr.
  - unfold on_Subnets, zoom. by destruct (GetAvailablePaired_cases _ Hn) as [(i4 & i6 & id & _ & _ & ->)|[_ ->]].
Qed.

Lemma subnet_in_insert ns name n name' i :
  subnet_in (<[name := n]> ns) name' i =
    if decide (name = name') then ss_Subnets (nw_Subnets n) !! i else subnet_in ns name' i.
Proof.
  unfold subnet_in. destruct (decide (name = name')) as [<-|]; [by rewrite lookup_insert_eq|].
  by rewrite lookup_insert_ne.
Qed.

Lemma used_same_insert ns name n n' :
  ns !! name = Some n →
  (∀ i, sn_UsingIPs <$> ss_Subnets (nw_Subnets n) !! i = sn_UsingIPs <$> ss_Subnets (nw_Subnets n') !! i) →
  used_same ns (<[name := n']> ns).
Proof.
  intros E H name' i. rewrite subnet_in_insert. case_decide as Hd; [|done]. subst.
  unfold subnet_in. rewrite E. cbn. apply H.
Qed.

Lemma used_same_refl ns : used_same ns ns.
Proof. by intros name i. Qed.

Lemma set_pair_used i4 i6 sn4 sn6 sn4' sn6' n i :
  i4 ≠ i6 → ss_Subnets (nw_Subnets n) !! i4 = Some sn4 → ss_Subnets (nw_Subnets n) !! i6 = Some sn6 →
  ss_Subnets (nw_Subnets (set_subnet i6 sn6' (set_subnet i4 sn4' n))) !! i =
    if decide (i = i4) then Some sn4' else if decide (i = i6) then Some sn6' else ss_Subnets (nw_Subnets n) !! i.
Proof.
  intros Hne H4 H6. repeat case_decide; subst.
  - rewrite set_subnet_ne by done. by apply set_subnet_eq.
  - apply set_subnet_eq. by rewrite set_subnet_ne.
  - by rewrite !set_subnet_ne.
Qed.

Lemma two_subnets_cases {S} (subnets : list string) :
  (∃ v, ∀ s : S, two_subnets subnets s = (Ret v, s)) ∨ (∃ e, ∀ s : S, two_subnets subnets s = (Fail e, s)).
Proof. destruct subnets as [|v4 [|v6 [|]]]; eauto. Qed.

Lemma GetSubnet_ret s name i :
  slice_wf s → SubnetSlice_GetSubnet s name = Ret i → ∃ sn, subnet_at s i = Ret sn.
Proof.
  intros Hs. rewrite GetSubnet_spec by done. destruct (_ !! name) as [j|] eqn:Hj; [|done].
  intros [= ->]. apply (wf_map s Hs) in Hj as (sn & Hsn & _). exists sn. by apply subnet_at_lookup.
Qed.

Lemma GetSubnet_total s name :
  slice_wf s → (∃ i, SubnetSlice_GetSubnet s name = Ret i) ∨ SubnetSlice_GetSubnet s name = Fail ErrNotFoundSubnet.
Proof. intros Hs. rewrite GetSubnet_spec by done. destruct (_ !! name); eauto. Qed.

Lemma GetPaired_cases n v4 v6 :
  net_wf n →
  ∃ n', net_wf n' ∧ ss_Subnets (nw_Subnets n') = ss_Subnets (nw_Subnets n) ∧
    ((∃ i4 i6, Network_GetPairedDualStackSubnets v4 v6 n = (Ret (i4, i6), n') ∧ is_pair n' i4 i6) ∨
     (∃ e, Network_GetPairedDualStackSubnets v4 v6 n = (Fail e, n'))).
Proof.
  intros Hn. pose proof (GetPaired_subnets n v4 v6 Hn) as Hs. pose proof (acts_GetPaired true v4 v6 n Hn) as Ha.
  pose proof (GetPaired_ret n v4 v6) as Hret.
  assert (∃ o n', Network_GetPairedDualStackSubnets v4 v6 n = (o, n') ∧ ((∃ r, o = Ret r) ∨ (∃ e, o = Fail e)))
    as (o & n' & E & Ho).
  { unfold Network_GetPairedDualStackSubnets. destruct (nonempty v4 && nonempty v6).
    - m_run. unfold lift, mbind, M_bind.
      destruct (GetSubnet_total (nw_Subnets n) v4 Hn) as [[i4 E4]|E4]; rewrite E4; [|eauto 10].
      destruct (GetSubnet_ret _ _ _ Hn E4) as [sn4 H4]. rewrite H4.
      destruct (Subnet_IsIPv6 sn4); [unfold fail; eauto 10|].
      destruct (GetSubnet_total (nw_Subnets n) v6 Hn) as [[i6 E6]|E6]; rewrite E6; [|eauto 10].
      destruct (GetSubnet_ret _ _ _ Hn E6) as [sn6 H6]. rewrite H6.
      destruct (negb (Subnet_IsIPv6 sn6)); [unfold fail; eauto 10|].
      destruct (negb _); unfold fail, mret, M_ret; eauto 10.
    - unfold on_Subnets, zoom.
      destruct (GetAvailablePaired_cases _ Hn) as [(i4 & i6 & id & _ & _ & ->)|[_ ->]]; eauto 10. }
  rewrite E in *. cbn [snd] in *. exists n'. split; [by eapply (frame_wf net_wf (net_rel true))|]. split; [done|].
  destruct Ho as [[[i4 i6] ->]|[e ->]]; [left|right; by exists e]. exists i4, i6. split; [done|].
  by apply (Hret i4 i6 n' Hn).
Qed.

(** The outcome of a dual-stack allocation: two addresses, or no change. *)
Lemma allocateDualStack_cases name subnets pod pns ns n :
  set_wf ns → ns !! name = Some n →
  let '(o, ns') := allocateDualStack name subnets pod pns ns in
  (∃ i4 i6 sn4 sn6 x4 x6,
     subnet_in ns name i4 = Some sn4 ∧ subnet_in ns name i6 = Some sn6 ∧
     Subnet_IsIPv6 sn4 = false ∧ Subnet_IsIPv6 sn6 = true ∧
     unifyNetID (sn_NetID sn4) = unifyNetID (sn_NetID sn6) ∧
     x4 ∈ free sn4 ∧ x6 ∈ free sn6 ∧
     let c4 := Subnet_newIP sn4 x4 pod pns IPStatusUsing in
     let c6 := Subnet_newIP sn6 x6 pod pns IPStatusUsing in
     o = Ret [c4; c6] ∧
     ∀ name' i, sn_UsingIPs <$> subnet_in ns' name' i =
       if decide (name' = name ∧ i = i4) then Some (<[x4 := c4]> (sn_UsingIPs sn4))
       else if decide (name' = name ∧ i = i6) then Some (<[x6 := c6]> (sn_UsingIPs sn6))
       else sn_UsingIPs <$> subnet_in ns name' i) ∨
  (∃ e, o = Fail e ∧ used_same ns ns').
Proof.
  intros Hns E. unfold allocateDualStack. rewrite (bind_Ret _ _ _ _ _ (find_network_run _ _ _ E)).
  destruct (two_subnets_cases (S := NetworkSet) subnets) as [[[v4 v6] Hv]|[e Hv]].
  2: { rewrite (bind_Fail _ _ _ _ _ (Hv ns)). right. exists e. split; [done|apply used_same_refl]. }
  rewrite (bind_Ret _ _ _ _ _ (Hv ns)). pose proof (Hns name n E) as Hn.
  destruct (GetPaired_cases n v4 v6 Hn) as (n1 & Hn1 & Hsub & [(i4 & i6 & Ep & Hpair)|[e Ep]]).
  2: { eapply (wrap_Fail (Wrapf "fail to get paired subnets: %v" [])) in Ep.
       erewrite on_network_run; [|done|by apply bind_Fail]. right. eexists. split; [done|].
       apply used_same_insert with n; [done|]. intros i. by rewrite Hsub. }
  eapply (wrap_Ret (Wrapf "fail to get paired subnets: %v" [])) in Ep.
  pose proof (is_pair_ne _ _ _ Hpair) as Hne. destruct Hpair as (sn4 & sn6 & H4 & H6 & F4 & F6 & Hid).
  destruct (allocate_pair_cases i4 i6 pod pns n1 sn4 sn6 Hn1 Hne H4 H6) as
    (sn4' & sn6' & _ & _ & Hcase).
  set (n2 := set_subnet i6 sn6' (set_subnet i4 sn4' n1)) in *.
  pose proof (λ i, set_pair_used i4 i6 sn4 sn6 sn4' sn6' n1 i Hne H4 H6) as Hl. fold n2 in Hl.
  destruct Hcase as [(x4 & x6 & Hx4 & Hx6 & HU4 & HU6 & Ea)|(e & _ & HU4 & HU6 & Ea)];
    (erewrite on_network_run; [|done|rewrite (bind_Ret _ _ _ _ _ Ep); exact Ea]); [left|right].
  - exists i4, i6, sn4, sn6, x4, x6. unfold subnet_in at 1 2. rewrite E. cbn [mbind option_bind]. rewrite <-Hsub.
    split_and!; try done. intros name' i. rewrite subnet_in_insert.
    destruct (decide (name = name')) as [<-|]; [|by rewrite !decide_False by naive_solver].
    rewrite Hl. unfold subnet_in. rewrite E. cbn [mbind option_bind]. rewrite <-Hsub.
    destruct (decide (i = i4)) as [->|]; [rewrite decide_True by done; by rewrite <-HU4|].
    rewrite (decide_False (P := name = name ∧ i = i4)) by naive_solver.
    destruct (decide (i = i6)) as [->|]; [rewrite decide_True by done; by rewrite <-HU6|].
    by rewrite (decide_False (P := name = name ∧ i = i6)) by naive_solver.
  - exists e. split; [done|]. apply used_same_insert with n; [done|]. intros i. rewrite Hl, <-Hsub.
    repeat case_decide; subst; [rewrite H4; cbn; by rewrite HU4|rewrite H6; cbn; by rewrite HU6|done].
Qed.

(** With a pair of available subnets and no subnet named, there are addresses. *)
Lemma allocateDualStack_complete name pod pns ns n i4 i6 id :
  set_wf ns → ns !! name = Some n →
  candidate (nw_Subnets n) false id i4 → candidate (nw_Subnets n) true id i6 →
  ∃ cs, (allocateDualStack name [] pod pns ns).1 = Ret cs.
Proof.
  intros Hns E Hc4 Hc6. pose proof (Hns name n E) as Hn.
  unfold allocateDualStack. rewrite (bind_Ret _ _ _ _ _ (find_network_run _ _ _ E)).
  cbn [two_subnets]. rewrite (bind_ret (S := NetworkSet) _ ("", "")).
  destruct (GetAvailablePaired_cases (nw_Subnets n) Hn) as
    [(j4 & j6 & id' & (sn4 & H4 & A4 & _ & F4) & (sn6 & H6 & A6 & _ & F6) & Ep)|[Hno _]];
    [|exfalso; apply Hno; by exists i4, i6, id].
  set (n1 := nw_set_Subnets (ss_set_SubnetIndex j4 (nw_Subnets n)) n).
  assert (Network_GetPairedDualStackSubnets "" "" n = (Ret (j4, j6), n1)) as Ep'.
  { unfold Network_GetPairedDualStackSubnets.
    replace (nonempty "" && nonempty "") with false by done. unfold on_Subnets, zoom. by rewrite Ep. }
  assert (net_wf n1) as Hn1.
  { apply slice_wf_set_index; [done|]. rewrite (wf_count _ Hn).
    pose proof (lookup_lt_Some _ _ _ H4). lia. }
  assert (∀ j sn, ss_Subnets (nw_Subnets n) !! j = Some sn → Subnet_IsAvailable sn = true → free sn ≠ []) as Hfree.
  { intros j sn Hj Ha. pose proof (Forall_lookup_1 _ _ _ _ (wf_subnets _ Hn) Hj) as Hok.
    apply (IsAvailable_free sn Hok); [|done]. unfold Subnet_IsAvailable in Ha.
    apply andb_prop in Ha as [_ Ha]. by apply negb_true_iff. }
  assert (j4 ≠ j6) as Hne by (intros ->; rewrite H4 in H6; simplify_eq; by rewrite F4 in F6).
  destruct (allocate_pair_cases j4 j6 pod pns n1 sn4 sn6 Hn1 Hne H4 H6) as
    (sn4' & sn6' & _ & _ & [(x4 & x6 & _ & _ & _ & _ & Ea)|(e & [Hf|Hf] & _)]).
  - eapply (wrap_Ret (Wrapf "fail to get paired subnets: %v" [])) in Ep'.
    erewrite on_network_run; [|done|rewrite (bind_Ret _ _ _ _ _ Ep'); exact Ea]. by eexists.
  - by destruct (Hfree _ _ H4 A4).
  - by destruct (Hfree _ _ H6 A6).
Qed.

(** ** One family *)

Definition GetFamily (v6 : bool) (name : string) : M Network nat :=
  if v6 then Network_GetIPv6Subnet name else Network_GetIPv4Subnet name.

Lemma GetFamily_cases n (v6 : bool) name :
  net_wf n →
  ∃ n', net_wf n' ∧ ss_Subnets (nw_Subnets n') = ss_Subnets (nw_Subnets n) ∧
    ((∃ i sn, GetFamily v6 name n = (Ret i, n') ∧ ss_Subnets (nw_Subnets n) !! i = Some sn ∧ Subnet_IsIPv6 sn = v6) ∨
     (∃ e, GetFamily v6 name n = (Fail e, n'))).
Proof.
  intros Hn. unfold GetFamily, Network_GetIPv6Subnet, Network_GetIPv4Subnet. destruct (nonempty name).
  - exists n. split; [done|]. split; [done|].
    destruct (GetSubnet_total (nw_Subnets n) name Hn) as [[i Ei]|Ei].
    + destruct (GetSubnet_ret _ _ _ Hn Ei) as [sn Hi]. pose proof (subnet_at_inv _ _ _ Hi) as Hi'.
      destruct v6; unfold mbind, M_bind, get, lift; rewrite Ei, Hi; destruct (Subnet_IsIPv6 sn) eqn:F; cbn;
        unfold fail, mret, M_ret; eauto 10.
    + destruct v6; unfold mbind, M_bind, get, lift; rewrite Ei; eauto.
  - assert (∃ n', net_wf n' ∧ ss_Subnets (nw_Subnets n') = ss_Subnets (nw_Subnets n) ∧
      ((∃ i sn, on_Subnets (choose_single (λ c, if v6 then (onlyIPv6 c, pairedIPv6 c) else (onlyIPv4 c, pairedIPv4 c))) n
          = (Ret i, n') ∧ ss_Subnets (nw_Subnets n) !! i = Some sn ∧ Subnet_IsIPv6 sn = v6) ∨
       (∃ e, on_Subnets (choose_single (λ c, if v6 then (onlyIPv6 c, pairedIPv6 c) else (onlyIPv4 c, pairedIPv4 c))) n
          = (Fail e, n')))) as H; [|by destruct v6].
    unfold on_Subnets, zoom.
    destruct (choose_single_cases (nw_Subnets n) v6 Hn) as [(i & id & (sn & Hi & Ha & Hid & F) & -> & _)|[_ ->]].
    + exists (nw_set_Subnets (ss_set_SubnetIndex i (nw_Subnets n)) n).
      split; [|split; [done|left; by exists i, sn]].
      apply slice_wf_set_index; [done|]. rewrite (wf_count _ Hn). pose proof (lookup_lt_Some _ _ _ Hi). lia.
    + exists (nw_set_Subnets (nw_Subnets n) n). split; [done|]. split; [done|]. right. eauto.
Qed.

Lemma one_subnet_cases {S} mode (subnets : list string) :
  (∃ v, ∀ s : S, one_subnet mode subnets s = (Ret v, s)) ∨ (∃ e, ∀ s : S, one_subnet mode subnets s = (Fail e, s)).
Proof. destruct subnets as [|v4 [|]]; eauto. Qed.

Definition allocateFamily (v6 : bool) :=
  if v6 then allocateIPv6Only else allocateIPv4Only.

Lemma allocateFamily_cases (v6 : bool) name subnets pod pns ns n :
  set_wf ns → ns !! name = Some n →
  let '(o, ns') := allocateFamily v6 name subnets pod pns ns in
  (∃ i sn x, subnet_in ns name i = Some sn ∧ Subnet_IsIPv6 sn = v6 ∧ x ∈ free sn ∧
     let c := Subnet_newIP sn x pod pns IPStatusUsing in
     o = Ret [c] ∧
     ∀ name' i', sn_UsingIPs <$> subnet_in ns' name' i' =
       if decide (name' = name ∧ i' = i) then Some (<[x := c]> (sn_UsingIPs sn))
       else sn_UsingIPs <$> subnet_in ns name' i') ∨
  (∃ e, o = Fail e ∧ used_same ns ns').
Proof.
  intros Hns E. pose proof (Hns name n E) as Hn.
  set (rest msg1 msg2 name' := on_network name (
    i ← errf msg1 [] (GetFamily v6 name');
    c ← on_subnet i (Subnet_AllocateNext pod pns);
    match c with None => nm ← subnet_name i; fail (Errorf msg2 [nm]) | Some c => mret [c] end)).
  assert (∃ mode msg1 msg2, allocateFamily v6 name subnets pod pns
    = (find_network name;; subnetName ← one_subnet mode subnets; rest msg1 msg2 subnetName))
    as (mode & msg1 & msg2 & ->) by (destruct v6; eexists _, _, _; reflexivity).
  rewrite (bind_Ret _ _ _ _ _ (find_network_run _ _ _ E)).
  destruct (one_subnet_cases (S := NetworkSet) mode subnets) as [[v Hv]|[e Hv]].
  2: { rewrite (bind_Fail _ _ _ _ _ (Hv ns)). right. exists e. split; [done|apply used_same_refl]. }
  rewrite (bind_Ret _ _ _ _ _ (Hv ns)). unfold rest.
  destruct (GetFamily_cases n v6 v Hn) as (n1 & Hn1 & Hsub & [(i & sn & Eg & Hi & F)|[e Eg]]).
  2: { eapply (wrap_Fail (Wrapf msg1 [])) in Eg.
       erewrite on_network_run; [|done|by apply bind_Fail]. right. eexists. split; [done|].
       apply used_same_insert with n; [done|]. intros j. by rewrite Hsub. }
  eapply (wrap_Ret (Wrapf msg1 [])) in Eg. pose proof (Forall_lookup_1 _ _ _ _ (wf_subnets _ Hn) Hi) as Hok.
  pose proof Hi as Hi1. rewrite <-Hsub in Hi1.
  destruct (AllocateNext_cases sn pod pns Hok) as [(x & s' & Hx & _ & Ea & HU & _)|(_ & s' & _ & Ea & HU & _)];
    apply (on_subnet_run i (Subnet_AllocateNext pod pns) n1 _ _ _ Hi1) in Ea.
  - erewrite on_network_run; [|done|rewrite (bind_Ret _ _ _ _ _ Eg), (bind_Ret _ _ _ _ _ Ea); reflexivity].
    left. exists i, sn, x. unfold subnet_in at 1. rewrite E. split_and!; try done. intros name' j.
    rewrite subnet_in_insert. destruct (decide (name = name')) as [<-|]; [|by rewrite decide_False by naive_solver].
    unfold subnet_in. rewrite E. cbn [mbind option_bind]. rewrite <-Hsub.
    destruct (decide (j = i)) as [->|].
    + rewrite decide_True, set_subnet_eq by done. cbn. by rewrite HU.
    + rewrite decide_False by naive_solver. by rewrite set_subnet_ne.
  - assert (ss_Subnets (nw_Subnets (set_subnet i s' n1)) !! i = Some s') as Hi2 by (by apply set_subnet_eq).
    erewrite on_network_run; [|done|rewrite (bind_Ret _ _ _ _ _ Eg), (bind_Ret _ _ _ _ _ Ea),
      (bind_Ret _ _ _ _ _ (subnet_name_run _ _ _ Hi2)); reflexivity].
    right. eexists. split; [done|]. apply used_same_insert with n; [done|]. intros j. rewrite <-Hsub.
    destruct (decide (i = j)) as [<-|]; [rewrite Hi2, Hi1; cbn; by rewrite HU|by rewrite set_subnet_ne].
Qed.
End histories.

(** ** Refreshing *)

(** What the getters return is the image of well-formed API objects: a fresh
    network, specifications with distinct names, recorded addresses under
    their texts. *)
Record getters_ok (g : Getters) : Prop := {
  go_network name : NetworkGetter g name ≠ Panic ∧ NetworkGetter g name ≠ Diverge ∧
    ∀ n, NetworkGetter g name = Ret (Some n) → nw_Subnets n = NewSubnetSlice;
  go_subnets name : SubnetGetter g name ≠ Panic ∧ SubnetGetter g name ≠ Diverge ∧
    ∀ l, SubnetGetter g name = Ret l → Forall spec_ok l ∧ NoDup (sn_Name <$> l);
  go_ips name : IPSetGetter g name ≠ Panic ∧ IPSetGetter g name ≠ Diverge ∧
    ∀ u, IPSetGetter g name = Ret u → ipset_ok u
}.

(** The subnet that a specification and the recorded addresses give under a
    network with the ID. *)
Definition built `{CNIPlugins} (g : Getters) (parent : option Z) (sn sn' : Subnet) : Prop :=
  subnet_ok sn' ∧ ∃ u, IPSetGetter g (sn_Name sn) = Ret u ∧ (Subnet_Canonicalize;; Subnet_Sync parent u) sn = (Ret tt, sn').

Definition same_network (n n' : Network) : Prop :=
  nw_Name n' = nw_Name n ∧ nw_NetID n' = nw_NetID n ∧ nw_Type n' = nw_Type n ∧ nw_LastAllocatedSubnet n' = nw_LastAllocatedSubnet n.

(** The recorded network is the one that the getters describe. *)
Definition refreshed `{CNIPlugins} (g : Getters) (name : string) (r : option Network) : Prop :=
  NetworkGetter g name = Ret None ∧ r = None ∨
  ∃ n l n', NetworkGetter g name = Ret (Some n) ∧ SubnetGetter g name = Ret l ∧ r = Some n' ∧ net_wf n' ∧
    sn_Name <$> ss_Subnets (nw_Subnets n') = sn_Name <$> l ∧ Forall2 (built g (nw_NetID n)) l (ss_Subnets (nw_Subnets n')) ∧
    same_network n n'.

Section refresh.
Context {P : CNIPlugins} {L : CNIPluginsLaws P}.
Context (g : Getters) (Hg : getters_ok g).

Lemma wf_map_None s name :
  slice_wf s → name ∉ (sn_Name <$> ss_Subnets s) → ss_SubnetIndexMap s !! name = None.
Proof.
  intros Hs Hn. apply eq_None_not_Some. intros [i Hi]. apply Hn.
  apply (wf_map s Hs) in Hi as (sn & Hsn & <-). apply list_elem_of_fmap_2. by eapply list_elem_of_lookup_2.
Qed.

Lemma AddSubnet_run sn parent u d ss ss' :
  SubnetSlice_AddSubnet sn parent u d ss = (Ret tt, ss') →
  ∃ sn', (Subnet_Canonicalize;; Subnet_Sync parent u) sn = (Ret tt, sn') ∧ ss_Subnets ss' = ss_Subnets ss ++ [sn'].
Proof.
  unfold SubnetSlice_AddSubnet. destruct ((Subnet_Canonicalize;; Subnet_Sync parent u) sn) as [[[]|e| |] sn']; try done.
  intros [= <-]. by exists sn'.
Qed.

Lemma Network_AddSubnet_spec n sn u :
  net_wf n → sn_Name sn ∉ (sn_Name <$> ss_Subnets (nw_Subnets n)) → spec_ok sn → IPSetGetter g (sn_Name sn) = Ret u →
  (∃ e, run_local (Network_AddSubnet sn u) n = Fail e) ∨
  (∃ n' sn', run_local (Network_AddSubnet sn u) n = Ret n' ∧ net_wf n' ∧
     ss_Subnets (nw_Subnets n') = ss_Subnets (nw_Subnets n) ++ [sn'] ∧ sn_Name sn' = sn_Name sn ∧
     built g (nw_NetID n) sn sn' ∧ same_network n n').
Proof.
  intros Hn Hfresh Hsn Hu. unfold run_local, Network_AddSubnet. m_run. unfold on_Subnets, zoom.
  pose proof (proj2 (proj2 (go_ips g Hg (sn_Name sn))) u Hu) as Hok.
  pose proof (AddSubnet_spec (nw_Subnets n) sn (nw_NetID n) u
    (bool_decide (sn_Name sn = nw_LastAllocatedSubnet n)) Hn (wf_map_None _ _ Hn Hfresh) Hsn Hok) as H.
  destruct (SubnetSlice_AddSubnet _ _ _ _ _) as [[[]|e| |] s'] eqn:E; [right|left; eauto|done..].
  destruct H as (Hwf & _ & (sn' & Hs' & Hname & Hsub) & _). apply AddSubnet_run in E as (sn'' & Hrun & Hs'').
  rewrite Hs' in Hs''. apply app_inj_tail in Hs'' as [_ <-]. do 2 eexists. split; [done|]. split; [done|].
  cbn. split; [exact Hs'|]. split; [done|]. split; [|by split_and!]. split; [done|]. by exists u.
Qed.

Lemma add_subnets_spec l n :
  net_wf n → Forall spec_ok l → NoDup ((sn_Name <$> ss_Subnets (nw_Subnets n)) ++ (sn_Name <$> l)) →
  (∃ e, add_subnets g n l = Fail e) ∨
  (∃ n' built_l, add_subnets g n l = Ret n' ∧ net_wf n' ∧
     ss_Subnets (nw_Subnets n') = ss_Subnets (nw_Subnets n) ++ built_l ∧ sn_Name <$> built_l = sn_Name <$> l ∧
     Forall2 (built g (nw_NetID n)) l built_l ∧ same_network n n').
Proof.
  intros Hn Hl. revert n Hn. induction Hl as [|sn l Hsn _ IH]; intros n Hn Hnd; unfold add_subnets; cbn [for_each].
  - right. exists n, []. by rewrite app_nil_r.
  - destruct (go_ips g Hg (sn_Name sn)) as (Hp & Hd & _).
    destruct (IPSetGetter g (sn_Name sn)) as [u|e| |] eqn:Eu; [|left; by eexists|done..]. cbn [mbind outcome_bind].
    rewrite fmap_cons in *. assert (sn_Name sn ∉ (sn_Name <$> ss_Subnets (nw_Subnets n))) as Hfresh.
    { apply NoDup_app in Hnd as (_ & Hdis & _). intros Hin. apply (Hdis _ Hin). by left. }
    destruct (Network_AddSubnet_spec n sn u Hn Hfresh Hsn Eu) as
      [[e ->]|(n1 & sn' & -> & Hn1 & Hs1 & Hname & Hb & E1 & E2 & E3 & E4)]; [left; by eexists|].
    cbn [mbind outcome_bind]. rewrite cons_middle, app_assoc in Hnd.
    destruct (IH n1 Hn1) as [[e He]|(n' & bl & Hr & Hn' & Hs' & Hnames & Hbl & E1' & E2' & E3' & E4')].
    { rewrite Hs1, fmap_app. cbn [fmap list_fmap]. by rewrite Hname. }
    + left. by exists e.
    + right. exists n', (sn' :: bl). split; [done|]. split; [done|]. split; [by rewrite Hs', Hs1, <-app_assoc|].
      split; [cbn; by rewrite Hname, Hnames|]. rewrite E2 in Hbl. split; [by constructor|]. split_and!; congruence.
Qed.

Lemma refreshNetwork_spec name ns :
  set_wf ns →
  (∃ e, refreshNetwork g name ns = (Fail e, ns)) ∨
  (∃ ns', refreshNetwork g name ns = (Ret tt, ns') ∧ set_wf ns' ∧ refreshed g name (ns' !! name) ∧
     ∀ name', name' ≠ name → ns' !! name' = ns !! name').
Proof.
  intros Hns. unfold refreshNetwork, lift, mbind, M_bind.
  destruct (go_network g Hg name) as (Hp & Hd & Hnet).
  destruct (NetworkGetter g name) as [[n|]|e| |] eqn:En; [|right|left; by eexists|done..].
  - destruct (go_subnets g Hg name) as (Hp' & Hd' & Hsubs).
    destruct (SubnetGetter g name) as [l|e| |] eqn:El; [|left; by eexists|done..].
    destruct (Hsubs l eq_refl) as [Hl Hnd]. specialize (Hnet n eq_refl).
    assert (net_wf n) as Hn by (unfold net_wf; rewrite Hnet; apply slice_wf_new).
    destruct (add_subnets_spec l n Hn Hl) as [[e ->]|(n' & bl & -> & Hn' & Hs' & Hnames & Hbl & Hsame)];
      [by rewrite Hnet|left; by eexists|right].
    eexists. split; [done|]. unfold RefreshNetwork. split; [by apply map_Forall_insert_2|].
    rewrite lookup_insert_eq. rewrite Hnet in Hs'. cbn in Hs'. split.
    + right. exists n, l, n'. rewrite Hs'. done.
    + intros name' Hne. by rewrite lookup_insert_ne.
  - eexists. split; [done|]. unfold RemoveNetwork. split; [by apply map_Forall_delete|]. rewrite lookup_delete_eq.
    split; [by left|]. intros name' Hne. by rewrite lookup_delete_ne.
Qed.

Lemma Refresh_spec names ns :
  set_wf ns →
  ∃ o ns', Refresh g names ns = (o, ns') ∧ set_wf ns' ∧
    (o = Ret tt ∧ (∀ name, name ∈ names → refreshed g name (ns' !! name)) ∨ ∃ e, o = Fail e) ∧
    (∀ name, ns' !! name = ns !! name ∨ name ∈ names ∧ refreshed g name (ns' !! name)).
Proof.
  revert ns. induction names as [|name names IH]; intros ns Hns; cbn [Refresh].
  - exists (Ret tt), ns. split; [done|]. split; [done|]. split; [left|by left].
    split; [done|]. by intros name ?%not_elem_of_nil.
  - destruct (refreshNetwork_spec name ns Hns) as [[e He]|(ns1 & H1 & Hns1 & Hr1 & Ho1)].
    + rewrite (bind_Fail _ _ _ _ _ He). exists (Fail e), ns. eauto 10.
    + rewrite (bind_Ret _ _ _ _ _ H1). destruct (IH ns1 Hns1) as (o & ns' & -> & Hns' & Hres & Hrest).
      exists o, ns'. split; [done|]. split; [done|].
      assert (refreshed g name (ns' !! name)) as Hname by (destruct (Hrest name) as [-> | [_ ?]]; done).
      split.
      * destruct Hres as [[-> Hall]|[e ->]]; [left|right; eauto]. split; [done|].
        intros name' [->|Hin]%elem_of_cons; auto.
      * intros name'. destruct (decide (name' = name)) as [->|Hne]; [right; split; [by left|done]|].
        destruct (Hrest name') as [Hl|[Hin Hr]]; [left; by rewrite Hl, Ho1|right]. split; [by right|done].
Qed.
End refresh.

(** ** A concrete allocator: the network of [IPAMNetworkProperties] *)

#[local] Existing Instance cni_concrete.
#[local] Existing Instance cni_concrete_laws.

Definition w_network : Network := mkNetwork "network1" (Some 7%Z) "" "Underlay" w_slice.
Definition w_set : NetworkSet := {["network1" := w_network]}.

Lemma w_set_wf : set_wf w_set.
Proof. apply map_Forall_singleton. exact w_slice_wf. Qed.

Definition w_alloc_ops : list alloc_op :=
  [AAllocate DualStack "network1" [] "pod2" "default"; AAssign IPv4Only "network1" ["subnet1"] ["10.0.0.4"] "pod3" "default" true;
   AAllocate IPv6Only "network1" [] "pod4" "default"].

Lemma w_alloc_ops_ok : Forall alloc_op_ok w_alloc_ops.
Proof.
  apply Forall_cons. split; [done|]. apply Forall_cons. split; [|by repeat constructor].
  apply Forall_singleton. split; [valid_tac|by vm_compute].
Qed.

(** ** Properties *)



(** C15. Dual-stack allocation is all or nothing: either it returns an IPv4 and
    an IPv6 address, both free before, of an IPv4 and an IPv6 subnet with the
    same network ID, and marks exactly these two as used, or it returns an
    error and the addresses in use are what they were, also when the IPv4
    address had to be taken back. *)
Theorem dualstack_all_or_nothing {P : CNIPlugins} (L : CNIPluginsLaws P) name subnets pod pns ns n :
  set_wf ns → ns !! name = Some n →
  let '(o, ns') := DualStack_Allocate DualStack name subnets pod pns ns in
  (∃ i4 i6 sn4 sn6 x4 x6,
     subnet_in ns name i4 = Some sn4 ∧ subnet_in ns name i6 = Some sn6 ∧
     Subnet_IsIPv6 sn4 = false ∧ Subnet_IsIPv6 sn6 = true ∧
     unifyNetID (sn_NetID sn4) = unifyNetID (sn_NetID sn6) ∧
     x4 ∈ free sn4 ∧ x6 ∈ free sn6 ∧
     let c4 := Subnet_newIP sn4 x4 pod pns IPStatusUsing in
     let c6 := Subnet_newIP sn6 x6 pod pns IPStatusUsing in
     o = Ret [c4; c6] ∧
     ∀ name' i, sn_UsingIPs <$> subnet_in ns' name' i =
       if decide (name' = name ∧ i = i4) then Some (<[x4 := c4]> (sn_UsingIPs sn4))
       else if decide (name' = name ∧ i = i6) then Some (<[x6 := c6]> (sn_UsingIPs sn6))
       else sn_UsingIPs <$> subnet_in ns name' i) ∨
  (∃ e, o = Fail e ∧ used_same ns ns').
Proof. intros Hns E. exact (allocateDualStack_cases name subnets pod pns ns n Hns E). Qed.

Lemma dualstack_all_or_nothing_witness :
  (ip_text <$> default [] (match (DualStack_Allocate DualStack "network1" [] "pod2" "default" w_set).1 with
                           | Ret cs => Some cs | _ => None end)) = ["10.0.0.6"; "fd00::2"] ∧
  ((∃ cs, (DualStack_Allocate DualStack "network1" [] "pod2" "default" w_set).1 = Ret cs) ∨
   used_same w_set (DualStack_Allocate DualStack "network1" [] "pod2" "default" w_set).2).
Proof.
  split; [vm_compute; reflexivity|].
  pose proof (dualstack_all_or_nothing cni_concrete_laws "network1" [] "pod2" "default" w_set w_network
    w_set_wf eq_refl) as H.
  destruct (DualStack_Allocate DualStack "network1" [] "pod2" "default" w_set) as [o ns'].
  destruct H as [(i4 & i6 & sn4 & sn6 & x4 & x6 & _ & _ & _ & _ & _ & _ & _ & E & _)|(e & _ & Hs)].
  - left. eexists. exact E.
  - right. exact Hs.
Defined.

(** C16. Dual-stack allocation is complete: when no subnet is named and the
    network has an available IPv4 and an available IPv6 subnet with the same
    network ID, it returns two addresses. *)
Theorem dualstack_complete {P : CNIPlugins} (L : CNIPluginsLaws P) name pod pns ns n sn4 sn6 :
  set_wf ns → ns !! name = Some n →
  sn4 ∈ ss_Subnets (nw_Subnets n) → sn6 ∈ ss_Subnets (nw_Subnets n) →
  Subnet_IsAvailable sn4 = true → Subnet_IsAvailable sn6 = true →
  Subnet_IsIPv6 sn4 = false → Subnet_IsIPv6 sn6 = true →
  unifyNetID (sn_NetID sn4) = unifyNetID (sn_NetID sn6) →
  ∃ c4 c6, (DualStack_Allocate DualStack name [] pod pns ns).1 = Ret [c4; c6].
Proof.
  intros Hns E [i4 H4]%list_elem_of_lookup [i6 H6]%list_elem_of_lookup A4 A6 F4 F6 Hid.
  destruct (allocateDualStack_complete name pod pns ns n i4 i6 (netID_of sn4) Hns E) as [cs Hcs];
    [by exists sn4|by exists sn6|].
  pose proof (allocateDualStack_cases name [] pod pns ns n Hns E) as H.
  change (DualStack_Allocate DualStack name [] pod pns ns) with (allocateDualStack name [] pod pns ns).
  destruct (allocateDualStack name [] pod pns ns) as [o ns']. cbn [fst] in *.
  destruct H as [(? & ? & ? & ? & ? & ? & _ & _ & _ & _ & _ & _ & _ & -> & _)|(e & -> & _)]; [eauto|done].
Qed.

Lemma dualstack_complete_witness :
  ∃ c4 c6, (DualStack_Allocate DualStack "network1" [] "pod2" "default" w_set).1 = Ret [c4; c6].
Proof.
  apply (dualstack_complete cni_concrete_laws "network1" "pod2" "default" w_set w_network w_subnet w6_subnet).
  - exact w_set_wf.
  - reflexivity.
  - left.
  - right. left.
  - vm_compute. reflexivity.
  - vm_compute. reflexivity.
  - vm_compute. reflexivity.
  - vm_compute. reflexivity.
  - vm_compute. reflexivity.
Defined.

(** Single-stack allocation: [IPv4Only] and [IPv6Only] return one address
    of a subnet of that family, free before, and mark exactly it as used, or
    return an error and leave the addresses in use as they were. *)
Theorem single_stack_allocation {P : CNIPlugins} (L : CNIPluginsLaws P) (v6 : bool) name subnets pod pns ns n :
  set_wf ns → ns !! name = Some n →
  let '(o, ns') := DualStack_Allocate (if v6 then IPv6Only else IPv4Only) name subnets pod pns ns in
  (∃ i sn x, subnet_in ns name i = Some sn ∧ Subnet_IsIPv6 sn = v6 ∧ x ∈ free sn ∧
     let c := Subnet_newIP sn x pod pns IPStatusUsing in
     o = Ret [c] ∧
     ∀ name' i', sn_UsingIPs <$> subnet_in ns' name' i' =
       if decide (name' = name ∧ i' = i) then Some (<[x := c]> (sn_UsingIPs sn))
       else sn_UsingIPs <$> subnet_in ns name' i') ∨
  (∃ e, o = Fail e ∧ used_same ns ns').
Proof.
  intros Hns E. pose proof (allocateFamily_cases v6 name subnets pod pns ns n Hns E) as H.
  by destruct v6.
Qed.

Lemma single_stack_allocation_witness :
  (∃ cs, (DualStack_Allocate IPv6Only "network1" ["subnet6"] "pod2" "default" w_set).1 = Ret cs) ∨
  used_same w_set (DualStack_Allocate IPv6Only "network1" ["subnet6"] "pod2" "default" w_set).2.
Proof.
  pose proof (single_stack_allocation cni_concrete_laws true "network1" ["subnet6"] "pod2" "default" w_set w_network
    w_set_wf eq_refl) as H. cbn [negb] in H.
  destruct (DualStack_Allocate IPv6Only "network1" ["subnet6"] "pod2" "default" w_set) as [o ns'].
  destruct H as [(i & sn & x & _ & _ & _ & E & _)|(e & _ & Hs)].
  - left. eexists. exact E.
  - right. exact Hs.
Defined.

(** [Refresh] ends with a result or an error, never with a panic, and is
    atomic per network: each network is either what it was or, completely,
    what the API server describes (removed when it is gone there, else with
    all of its subnets); without an error that holds of all networks asked
    for, and no other network changes. *)
Theorem Refresh_atomic {P : CNIPlugins} (L : CNIPluginsLaws P) g names ns :
  getters_ok g → set_wf ns →
  ∃ o ns', Refresh g names ns = (o, ns') ∧ set_wf ns' ∧
    (o = Ret tt ∧ (∀ name, name ∈ names → refreshed g name (ns' !! name)) ∨ ∃ e, o = Fail e) ∧
    (∀ name, ns' !! name = ns !! name ∨ name ∈ names ∧ refreshed g name (ns' !! name)).
Proof. intros Hg Hns. by apply Refresh_spec. Qed.

Definition w_getters : Getters := mkGetters
  (λ name, if decide (name = "network1") then Ret (Some (NewNetwork "network1" (Some 7%Z) "" "Underlay"))
           else Ret None)
  (λ _, Ret [w_fresh]) (λ _, Ret w_used).

Lemma w_getters_ok : getters_ok w_getters.
Proof.
  split; intros name; cbn.
  - case_decide; split_and!; try done; intros n [= <-]; done.
  - split_and!; try done. intros l [= <-]. split; [apply Forall_singleton, w_fresh_ok|apply NoDup_singleton].
  - split_and!; try done. intros u [= <-]. exact w_used_ok.
Qed.

Lemma Refresh_atomic_witness :
  ∃ o ns', Refresh w_getters ["network1"; "network2"] ∅ = (o, ns') ∧ set_wf ns'.
Proof.
  destruct (Refresh_atomic cni_concrete_laws w_getters ["network1"; "network2"] ∅ w_getters_ok (map_Forall_empty _))
    as (o & ns' & E & Hwf & _).
  exists o, ns'. exact (conj E Hwf).
Defined.

(** ** Dual-stack assignment is not all or nothing

    [assignDualStack] does not take the IPv4 address back when the IPv6
    address cannot be assigned: the call fails and the pod's IPv4 address
    stays in use. *)
Theorem assignDualStack_keeps_ipv4 :
  let '(o, ns') := DualStack_Assign DualStack "network1" ["subnet1"; "subnet6"] ["10.0.0.6"; "fd00::99"]
                     "pod2" "default" false w_set in
  o = Fail (Wrapf "fail to assign ip %s in subnet %s: %v" ["fd00::99"; "subnet6"] ErrNotFoundAssignedIP) ∧
  (sn ← subnet_in ns' "network1" 0; c ← sn_UsingIPs sn !! "10.0.0.6"; Some (ip_PodName c)) = Some "pod2".
Proof. vm_compute. by split. Qed.
