(* ===== verification/Transform.v ===== *)
(** * From API objects to IPAM objects (pkg/utils/transform/ipam.go) *)

From S2P Require Import Prelude GoNet CNIPlugins NetworkingV1 Kubernetes Config Utils IPAMTypes IPAMNetwork.
Local Open Scope Z_scope.

(** The [int32] pointed to, converted to [uint32]. *)
Definition int32pToUint32p (inp : option Z) : option Z := uint32 <$> inp.

(** [_, cidr, _ := net.ParseCIDR(...)]: nil when the text is not a CIDR. *)
Definition TransferSubnetForIPAM (inp : V1Subnet) : Subnet :=
  let r := ssp_Range (vs_Spec inp) in
  NewSubnet (om_Name (vs_Meta inp)) (ssp_Network (vs_Spec inp))
    (int32pToUint32p (ssp_NetID (vs_Spec inp)))
    (ParseIP (ar_Start r)) (ParseIP (ar_End r)) (ParseIP (ar_Gateway r))
    (snd <$> ParseCIDR (ar_CIDR r))
    (StringSliceToMap (ar_ReservedIPs r)) (StringSliceToMap (ar_ExcludeIPs r))
    (ParseIP (sst_LastAllocatedIP (vs_Status inp)))
    (IsPrivateSubnet (Some inp)) (IsIPv6Subnet (Some inp)).

Definition TransferNetworkForIPAM `{Settings} (inp : V1Network) : Network :=
  NewNetwork (om_Name (vn_Meta inp)) (int32pToUint32p (ns_NetID (vn_Spec inp)))
    (nst_LastAllocatedSubnet (vn_Status inp))
    (ParseNetworkTypeFromString (GetNetworkType (Some inp))).

Definition TransferIPInstanceForIPAM (inp : V1IPInstance) : outcome IP :=
  let a := is_Address (vi_Spec inp) in
  address ← StringToIPNet (ad_IP a);
  Ret (mkIP (Some address) (ParseIP (ad_Gateway a)) (int32pToUint32p (ad_NetID a))
         (is_Subnet (vi_Spec inp)) (is_Network (vi_Spec inp))
         (ist_PodName (vi_Status inp)) (ist_PodNamespace (vi_Status inp)) (ist_Phase (vi_Status inp))).

Definition TransferIPInstancesForIPAM (ips : list V1IPInstance) : outcome (list IP) :=
  for_each (λ ret ip, ip ← TransferIPInstanceForIPAM ip; Ret (ret ++ [ip])) [] ips.
