(* ===== verification/Names.v ===== *)
(** * The names of IP instances (pkg/ipam/store/store.go,
    pkg/controllers/utils/format.go)

    The name of an IPInstance is its address in the format of a DNS label;
    the controllers read the address back from the name. *)

From S2P Require Import Prelude GoNet GoStrings NetBlock NetText CNIPlugins NetworkingV1 Kubernetes Config Utils IPAMTypes.
From Stdlib Require Import Ascii.
Local Open Scope Z_scope.

(** ** store.go *)

(** [separators] starts with two elements and gets one more for each missing
    section; [strings.Join(separators, "0")]. *)
Definition unifyIPv6AddressString (ip : string) : string :=
  let maxSectionCount := 8%nat in
  let sectionCount := (Count_byte ip ":" + 1)%nat in
  if decide (sectionCount < maxSectionCount)%nat then
    let separators := [":"; ":"] ++ replicate (maxSectionCount - sectionCount) ":" in
    ReplaceAll ip "::" (join "0" separators)
  else ip.

(** The dereference of a nil [ip.Address] is a panic. *)
Definition toDNSLabelFormat (ip : IP) : outcome string :=
  a ← deref (ip_Address ip);
  Ret (if negb (IP_IsIPv6 ip) then ReplaceAll (IP_String (IPNet_IP a)) "." "-"
       else ReplaceAll (unifyIPv6AddressString (IP_String (IPNet_IP a))) ":" "-").

Definition extractIPVersion (ip : IP) : string := if IP_IsIPv6 ip then IPVersion6 else IPVersion4.

(** ** format.go *)

Definition IPv6SeparatorCount : nat := 7.

Definition ToIPFormatWithFamily (name : string) : string * bool :=
  if decide (Count_byte name "-" = IPv6SeparatorCount)
  then (IP_String (ParseIP (ReplaceAll name "-" ":")), true)
  else (ReplaceAll name "-" ".", false).

Definition ToIPFormat (name : string) : string := (ToIPFormatWithFamily name).1.

Definition ToIPFamilyMode (isIPv6 : bool) : string := if isIPv6 then IPv6Only else IPv4Only.

Definition MaxInt32 : Z := 2 ^ 31 - 1.

(** [strings.Split] never returns an empty slice. *)
Definition GetIndexFromName (name : string) : outcome Z :=
  indexStr ← deref (last (Split name "-"));
  Ret (match Atoi indexStr with Some index => index | None => MaxInt32 end).

(** ** The round trip *)

Lemma hexs_Count gs : Forall group_ok gs → (Count_byte (hexs gs) ":" = length gs - 1)%nat.
Proof.
  intros Hok. induction Hok as [|g gs Hg Hok IH]; [done|].
  assert (Count_byte (appendHex g) ":" = 0%nat) as Hz by (by apply Count_byte_nobyte, appendHex_nobyte).
  destruct gs as [|g' gs]; [exact Hz|]. rewrite hexs_cons, Count_byte_app, Hz. cbn [Count_byte].
  rewrite decide_True, IH by done. simpl. lia.
Qed.

Lemma hexs_app gs gs' : gs ≠ [] → gs' ≠ [] → hexs (gs ++ gs') = hexs gs +:+ String ":" (hexs gs').
Proof.
  induction gs as [|g gs IH]; intros Hne Hne'; [done|]. destruct gs as [|g2 gs].
  - destruct gs' as [|g' gs']; [done|]. apply hexs_cons.
  - cbn [app]. rewrite !hexs_cons, sapp_assoc, sapp_cons. cbn [app] in IH. by rewrite IH.
Qed.

(** An ellipsis does not occur in a series of groups; it is found after one. *)
Lemma replace_colon new c t :
  c ≠ ":"%char → ReplaceAll (String ":" (String c t)) "::" new = String ":" (ReplaceAll (String c t) "::" new).
Proof.
  intros Hc. unfold ReplaceAll. cbn -[ascii_dec]. destruct (ascii_dec ":" ":") as [_|]; [|done].
  by destruct (ascii_dec ":" c) as [E|_]; [subst|].
Qed.

Lemma replace_colon_hexs new g gs t :
  group_ok g →
  ReplaceAll (String ":" (hexs (g :: gs) +:+ t)) "::" new = String ":" (ReplaceAll (hexs (g :: gs) +:+ t) "::" new).
Proof.
  intros Hg. destruct (hexs_head g gs Hg) as (c & s & -> & Hc). apply hex_val_sep in Hc as [_ Hc].
  rewrite sapp_cons. by apply replace_colon.
Qed.

Lemma replace_hexs new gs : Forall group_ok gs → ReplaceAll (hexs gs) "::" new = hexs gs.
Proof.
  intros Hok. induction Hok as [|g gs Hg Hok IH]; [done|].
  destruct gs as [|g' gs]; [by apply replace_nobyte, appendHex_nobyte|].
  apply Forall_cons_1 in Hok as [Hg' Hok].
  rewrite hexs_cons, replace_skip by (by apply appendHex_nobyte).
  rewrite <-(sapp_nil_r (hexs _)) at 1. by rewrite replace_colon_hexs, sapp_nil_r, IH.
Qed.

Lemma replace_here new t : ReplaceAll (String ":" (String ":" t)) "::" new = new +:+ ReplaceAll t "::" new.
Proof. by destruct t. Qed.

Lemma replace_ellipsis new gs gs' :
  Forall group_ok gs → Forall group_ok gs' → gs ≠ [] →
  ReplaceAll (hexs gs +:+ "::" +:+ hexs gs') "::" new = hexs gs +:+ new +:+ hexs gs'.
Proof.
  intros Hok Hok' Hne. induction Hok as [|g gs Hg Hok IH]; [done|]. destruct gs as [|g2 gs].
  - rewrite hexs_single, replace_skip by (by apply appendHex_nobyte). do 2 f_equal.
    by rewrite !sapp_cons, sapp_nil, replace_here, replace_hexs.
  - apply Forall_cons_1 in Hok as [Hg2 Hok].
    rewrite hexs_cons, !sapp_assoc, replace_skip by (by apply appendHex_nobyte).
    rewrite !(sapp_cons ":" (hexs (g2 :: gs))), replace_colon_hexs by done. by rewrite IH.
Qed.

(** The separators joined with zeros are the missing groups. *)
Lemma join_separators n :
  join "0" (":" :: replicate (S n) ":") = String ":" (hexs (replicate (S n) 0) +:+ ":").
Proof.
  induction n as [|n IH]; [done|]. cbn [replicate] in *.
  by rewrite join_cons, IH, hexs_cons, !sapp_cons, !sapp_nil.
Qed.

Lemma unify_plain gs : length gs = 8%nat → Forall group_ok gs → unifyIPv6AddressString (hexs gs) = hexs gs.
Proof.
  intros Hlen Hok. unfold unifyIPv6AddressString. rewrite hexs_Count, Hlen by done.
  by rewrite decide_False by lia.
Qed.

Lemma unify_ellipsis gs gs' n :
  Forall group_ok gs → Forall group_ok gs' → gs ≠ [] → gs' ≠ [] →
  (length gs + length gs' + n = 8)%nat → (1 < n)%nat →
  unifyIPv6AddressString (hexs gs +:+ "::" +:+ hexs gs') = hexs (gs ++ replicate n 0 ++ gs').
Proof.
  intros Hok Hok' Hne Hne' Hlen Hn. unfold unifyIPv6AddressString.
  rewrite !Count_byte_app, !hexs_Count by done. change (Count_byte "::" ":") with 2%nat.
  assert (1 ≤ length gs ∧ 1 ≤ length gs')%nat as [? ?] by (destruct gs, gs'; simpl; done || lia).
  rewrite decide_True by lia.
  replace (8 - (length gs - 1 + (2 + (length gs' - 1)) + 1))%nat with (n - 1)%nat by lia.
  change ([":"; ":"] ++ replicate (n - 1) ":") with (":" :: replicate (S (n - 1)) ":").
  rewrite replace_ellipsis, join_separators by done. replace (S (n - 1)) with n by lia.
  assert (replicate n 0 ≠ []) as Hz by (destruct n; [lia|done]).
  rewrite (hexs_app gs) by (done || by destruct (replicate n 0)).
  by rewrite (hexs_app _ gs'), sapp_cons, sapp_assoc, sapp_cons, sapp_nil by done.
Qed.

(** The name of a series of eight groups reads back. *)
Lemma ToIPFormat_hexs gs ip :
  length gs = 8%nat → Forall group_ok gs → ParseIP (hexs gs) = ip →
  ToIPFormatWithFamily (ReplaceAll (hexs gs) ":" "-") = (IP_String ip, true).
Proof.
  intros Hlen Hok <-. unfold ToIPFormatWithFamily. rewrite !replace_byte.
  assert (nobyte "-" (hexs gs)) as Hno by (by apply hexs_nobyte).
  rewrite Count_map_byte, hexs_Count, Hlen by done. rewrite decide_True by done.
  by rewrite map_byte_back.
Qed.

(** The text of an IPv6 address whose ellipsis is neither at the beginning
    nor at the end. *)
Definition inner_ellipsis (t : string) : Prop :=
  String.prefix "::" t = false ∧ ¬ ∃ u, t = u +:+ "::".

Lemma prefix_app s t : String.prefix s (s +:+ t) = true.
Proof.
  induction s as [|x s IH]; [by destruct t|]. rewrite sapp_cons. cbn [String.prefix].
  by destruct (ascii_dec x x).
Qed.

Lemma unify_print_v6 gs :
  length gs = 8%nat → Forall group_ok gs → inner_ellipsis (print_v6 gs) →
  unifyIPv6AddressString (print_v6 gs) = hexs gs.
Proof.
  intros Hlen Hok [Hpre Hsuf]. unfold print_v6 in *.
  destruct (longest_run 0 gs (0, 0)%nat) as [e0 e1] eqn:Hrun.
  pose proof (longest_run_inv gs gs 0 (0, 0)%nat (drop_0 gs)) as Hinv.
  rewrite Hrun in Hinv. cbn [fst snd] in Hinv.
  destruct Hinv as [Hle Hz]; [split; [simpl; lia|done]|].
  case_decide as Hshort; [by apply unify_plain|].
  change (join ":" (appendHex <$> take e0 gs)) with (hexs (take e0 gs)) in *.
  change (join ":" (appendHex <$> drop e1 gs)) with (hexs (drop e1 gs)) in *.
  rewrite unify_ellipsis with (n := (e1 - e0)%nat).
  - f_equal. rewrite <-Hz. replace (drop e1 gs) with (drop (e1 - e0) (drop e0 gs))
      by (rewrite drop_drop; f_equal; lia).
    by rewrite take_drop, take_drop.
  - by apply Forall_take.
  - by apply Forall_drop.
  - intros E. rewrite E, hexs_nil, sapp_nil, prefix_app in Hpre. done.
  - intros E. apply Hsuf. exists (hexs (take e0 gs)). by rewrite E, hexs_nil, sapp_nil_r.
  - rewrite length_take, length_drop. lia.
  - lia.
Qed.

(** The name of an instance reads back as its address and family. *)
Lemma ToIPFormat_toDNSLabelFormat ip a name :
  ip_Address ip = Some a → valid_ip (IPNet_IP a) →
  (IP_IsIPv6 ip = true → inner_ellipsis (IP_String (IPNet_IP a))) →
  toDNSLabelFormat ip = Ret name →
  ToIPFormatWithFamily name = (IP_String (IPNet_IP a), IP_IsIPv6 ip).
Proof.
  intros Ha Hv Hell Hn. unfold toDNSLabelFormat in Hn. rewrite Ha in Hn. cbn in Hn. injection Hn as <-.
  assert (IP_IsIPv6 ip = bool_decide (To4 (IPNet_IP a) = [])) as E6.
  { unfold IP_IsIPv6. rewrite Ha. case_decide as E; [|done].
    rewrite E in Hv. by destruct Hv as [_ [H|H]]. }
  destruct (bool_decide_reflect (To4 (IPNet_IP a) = [])) as [H4|H4]; rewrite E6 in *; cbn [negb].
  - destruct (IP_String_v6 _ Hv H4) as (Hlen & Hok & Hu & Hs). rewrite Hs in *.
    rewrite unify_print_v6 by auto. rewrite (ToIPFormat_hexs _ (IPNet_IP a)), Hs; [done|done|done|].
    by rewrite ParseIP_hexs.
  - destruct (IP_String_v4 _ Hv H4) as (x & y & z & w & Hx & Hy & Hz & Hw & ->).
    unfold ToIPFormatWithFamily. rewrite !replace_byte.
    set (t := ubtoa x +:+ _).
    assert (nobyte "-" t) as Hno.
    { repeat (apply nobyte_app; [by apply ubtoa_nobyte|]; rewrite sapp_cons, sapp_nil; split; [done|]).
      by apply ubtoa_nobyte. }
    rewrite Count_map_byte by done. unfold t. rewrite !Count_byte_app.
    rewrite !(Count_byte_nobyte (ubtoa _)) by (by apply ubtoa_nobyte). rewrite decide_False by done.
    by rewrite map_byte_back.
Qed.

(** ** The two families *)

Lemma Count_map_byte_ge c d s : (Count_byte s c ≤ Count_byte (map_byte c d s) d)%nat.
Proof.
  induction s as [|x s IH]; [done|]. cbn [map_byte Count_byte].
  case_decide as H1; [rewrite decide_True by done; lia|]. case_decide; lia.
Qed.

Lemma Count_replace_ellipsis new gs gs' :
  Forall group_ok gs → Forall group_ok gs' →
  Count_byte (ReplaceAll (hexs gs +:+ "::" +:+ hexs gs') "::" new) ":" =
    (Count_byte (hexs gs) ":" + Count_byte new ":" + Count_byte (hexs gs') ":")%nat.
Proof.
  intros Hok Hok'. destruct gs as [|g gs].
  - rewrite hexs_nil, sapp_nil, !sapp_cons, sapp_nil, replace_here, replace_hexs, Count_byte_app by done. done.
  - rewrite replace_ellipsis by done. rewrite !Count_byte_app. lia.
Qed.

Lemma Count_separators n : Count_byte (join "0" (replicate n ":")) ":" = n.
Proof.
  induction n as [|[|n] IH]; [done|done|]. cbn [replicate] in *. rewrite join_cons, !Count_byte_app, IH. done.
Qed.

(** The name of an IPv6 address has seven separators, whatever its text. *)
Lemma unify_Count gs :
  length gs = 8%nat → Forall group_ok gs → Count_byte (unifyIPv6AddressString (print_v6 gs)) ":" = 7%nat.
Proof.
  intros Hlen Hok. unfold print_v6.
  destruct (longest_run 0 gs (0, 0)%nat) as [e0 e1] eqn:Hrun.
  pose proof (longest_run_inv gs gs 0 (0, 0)%nat (drop_0 gs)) as Hinv.
  rewrite Hrun in Hinv. cbn [fst snd] in Hinv. destruct Hinv as [Hle _]; [split; [simpl; lia|done]|].
  case_decide as Hshort.
  { change (join ":" (appendHex <$> gs)) with (hexs gs). by rewrite unify_plain, hexs_Count, Hlen. }
  change (join ":" (appendHex <$> take e0 gs)) with (hexs (take e0 gs)).
  change (join ":" (appendHex <$> drop e1 gs)) with (hexs (drop e1 gs)).
  assert (Forall group_ok (take e0 gs)) as Ht by by apply Forall_take.
  assert (Forall group_ok (drop e1 gs)) as Hd by by apply Forall_drop.
  pose proof (hexs_Count _ Ht) as Ct. pose proof (hexs_Count _ Hd) as Cd.
  rewrite length_take in Ct. rewrite length_drop in Cd.
  unfold unifyIPv6AddressString. rewrite !Count_byte_app, Ct, Cd. change (Count_byte "::" ":") with 2%nat.
  case_decide as Hs; [|rewrite !Count_byte_app, Ct, Cd; change (Count_byte "::" ":") with 2%nat; lia].
  rewrite Count_replace_ellipsis, Ct, Cd by done.
  set (k := (8 - _)%nat). change ([":"; ":"] ++ replicate k ":") with (replicate (2 + k) ":").
  rewrite Count_separators. unfold k. lia.
Qed.

(** Names of addresses of different families differ. *)
Lemma name_families ip ip' a a' name :
  ip_Address ip = Some a → valid_ip (IPNet_IP a) → To4 (IPNet_IP a) ≠ [] →
  ip_Address ip' = Some a' → valid_ip (IPNet_IP a') → To4 (IPNet_IP a') = [] →
  toDNSLabelFormat ip = Ret name → toDNSLabelFormat ip' ≠ Ret name.
Proof.
  intros Ha Hv H4 Ha' Hv' H6 Hn Hn'. unfold toDNSLabelFormat in Hn, Hn'. rewrite Ha in Hn. rewrite Ha' in Hn'.
  assert (∀ i x, ip_Address i = Some x → valid_ip (IPNet_IP x) → IP_IsIPv6 i = bool_decide (To4 (IPNet_IP x) = [])) as E6.
  { intros i x Hx Hvx. unfold IP_IsIPv6. rewrite Hx. case_decide as E; [|done]. rewrite E in Hvx. by destruct Hvx as [_ [?|?]]. }
  rewrite (E6 _ _ Ha Hv), bool_decide_eq_false_2 in Hn by done.
  rewrite (E6 _ _ Ha' Hv'), bool_decide_eq_true_2 in Hn' by done. cbn in Hn, Hn'. injection Hn as <-. injection Hn' as E.
  destruct (IP_String_v4 _ Hv H4) as (x & y & z & w & Hx & Hy & Hz & Hw & Es). rewrite Es in E.
  destruct (IP_String_v6 _ Hv' H6) as (Hlen & Hok & _ & Es'). rewrite Es' in E. rewrite !replace_byte in E.
  apply (f_equal (λ s, Count_byte s "-")) in E. revert E.
  pose proof (unify_Count _ Hlen Hok) as H7.
  pose proof (Count_map_byte_ge ":" "-" (unifyIPv6AddressString (print_v6 (groups (IPNet_IP a'))))) as Hge.
  rewrite (Count_map_byte "." "-").
  - rewrite !Count_byte_app, !(Count_byte_nobyte (ubtoa _)) by (by apply ubtoa_nobyte). change (Count_byte "." ".") with 1%nat. lia.
  - repeat (apply nobyte_app; [by apply ubtoa_nobyte|]; rewrite sapp_cons, sapp_nil; split; [done|]).
    by apply ubtoa_nobyte.
Qed.

(** ** Property *)

(** C19: the name of an IP instance is computed without a panic and reads back
    as the address and the family of the address it was made from, for every
    IPv4 address and every IPv6 address whose text has no ellipsis at its
    beginning or end; so two such addresses with one name are equal. *)
Theorem instance_name_roundtrip ip a :
  ip_Address ip = Some a → valid_ip (IPNet_IP a) →
  (IP_IsIPv6 ip = true → inner_ellipsis (IP_String (IPNet_IP a))) →
  ∃ name, toDNSLabelFormat ip = Ret name ∧
    ToIPFormatWithFamily name = (IP_String (IPNet_IP a), IP_IsIPv6 ip) ∧
    ToIPFormat name = IP_String (IPNet_IP a) ∧
    ∀ ip' a', ip_Address ip' = Some a' → valid_ip (IPNet_IP a') →
      (IP_IsIPv6 ip' = true → inner_ellipsis (IP_String (IPNet_IP a'))) →
      toDNSLabelFormat ip' = Ret name → To16 (IPNet_IP a') = To16 (IPNet_IP a).
Proof.
  intros Ha Hv Hell.
  destruct (toDNSLabelFormat ip) as [name|e| |] eqn:Hn; try (unfold toDNSLabelFormat in Hn; by rewrite Ha in Hn).
  exists name. pose proof (ToIPFormat_toDNSLabelFormat ip a name Ha Hv Hell Hn) as E.
  split_and!; [done|done|unfold ToIPFormat; by rewrite E|].
  intros ip' a' Ha' Hv' Hell' Hn'. pose proof (ToIPFormat_toDNSLabelFormat ip' a' name Ha' Hv' Hell' Hn') as E'.
  apply IP_String_inj; [done..|]. congruence.
Qed.

Definition w_ip (text : string) : IP :=
  mkIP (Some (mkIPNet (ParseIP text) (CIDRMask 64 128))) [] None "subnet" "network" "pod" "ns" "Using".

Lemma instance_name_roundtrip_witness :
  (∃ name, toDNSLabelFormat (w_ip "fd00:0:0:7::42") = Ret name ∧
    ToIPFormatWithFamily name = ("fd00:0:0:7::42", true)) ∧
  toDNSLabelFormat (w_ip "fd00:0:0:7::42") = Ret "fd00-0-0-7-0-0-0-42".
Proof.
  split; [|vm_compute; reflexivity].
  destruct (instance_name_roundtrip (w_ip "fd00:0:0:7::42") (mkIPNet (ParseIP "fd00:0:0:7::42") (CIDRMask 64 128)))
    as (name & Hn & Hf & _).
  - reflexivity.
  - split; [|right; reflexivity]. repeat constructor; vm_compute; done.
  - intros _. split; [vm_compute; reflexivity|]. intros [u Hu].
    change (IP_String (IPNet_IP (mkIPNet (ParseIP "fd00:0:0:7::42") (CIDRMask 64 128)))) with "fd00:0:0:7::42" in Hu.
    do 14 (destruct u as [|? u]; [discriminate Hu|]; rewrite sapp_cons in Hu; injection Hu as _ Hu).
    destruct u; discriminate Hu.
  - exists name. split; [exact Hn|]. rewrite Hf. vm_compute. reflexivity.
Defined.

(** An ellipsis at the beginning is filled without a first group: the name
    does not read back as an address (and is not a DNS label). *)
Lemma instance_name_of_leading_zeros :
  toDNSLabelFormat (w_ip "::7") = Ret "-0-0-0-0-0-0-7" ∧ ToIPFormat "-0-0-0-0-0-0-7" = "<nil>".
Proof. split; vm_compute; reflexivity. Qed.
