(* ===== verification/GoJSON.v ===== *)
(** * JSON (the Go package encoding/json, and JSON merge patches)

    [json] is the abstract syntax; [json_text] the text that [json.Marshal]
    writes.  The code builds the bodies of its patches with [fmt.Sprintf] and
    [%q]: a body is modelled by the value it denotes ([%q] writes a JSON
    string for the printable texts that names, phases and annotations are).
    The second part is the effect of a merge patch (RFC 7396) on the fields
    that the repository patches; the API server applies it. *)

From stdpp Require Import pretty.
From Stdlib Require Import Ascii.
From S2P Require Import Prelude GoNet GoStrings NetworkingV1 Kubernetes.
Local Open Scope Z_scope.

Inductive json : Type :=
  | JNull
  | JString (s : string)
  | JNumber (n : Z)
  | JArray (l : list json)
  | JObject (fields : list (string * json))
  | JText (text : string).  (* a text that already is JSON *)

(** The escapes of [encoding/json]; bytes above ASCII are copied. *)
Definition json_escape (c : ascii) : string :=
  let n := ascii_Z c in
  let hex := String "\" ("u00" +:+ String (hexdigit_ascii (n / 16)) (String (hexdigit_ascii (n mod 16)) "")) in
  if decide (n = 34 ∨ n = 92) then String "\" (String c "")
  else if n =? 10 then "\n" else if n =? 13 then "\r" else if n =? 9 then "\t"
  else if decide (n < 32 ∨ n = 60 ∨ n = 62 ∨ n = 38) then hex
  else String c "".

Definition quote_char : string := String "034" "".
Fixpoint json_escape_all (s : string) : string :=
  match s with EmptyString => "" | String c s => json_escape c +:+ json_escape_all s end.
Definition json_quote (s : string) : string := quote_char +:+ json_escape_all s +:+ quote_char.

Fixpoint json_text (j : json) : string :=
  match j with
  | JNull => "null"
  | JString s => json_quote s
  | JNumber n => pretty n
  | JArray l => "[" +:+ join "," (map json_text l) +:+ "]"
  | JObject fields => "{" +:+ join "," (map (λ f, json_quote f.1 +:+ ":" +:+ json_text f.2) fields) +:+ "}"
  | JText text => text
  end.

(** [[]byte] is written in base 64. *)
Definition base64_digit (d : Z) : ascii :=
  ascii_of_nat (Z.to_nat (if d <? 26 then 65 + d else if d <? 52 then 71 + d
                          else if d <? 62 then d - 4 else if d =? 62 then 43 else 47)).

Fixpoint base64 (l : list Z) : string :=
  match l with
  | [] => ""
  | [a] => String (base64_digit (a / 4)) (String (base64_digit (a mod 4 * 16)) "==")
  | [a; b] => String (base64_digit (a / 4)) (String (base64_digit (a mod 4 * 16 + b / 16))
                (String (base64_digit (b mod 16 * 4)) "="))
  | a :: b :: c :: l =>
      String (base64_digit (a / 4)) (String (base64_digit (a mod 4 * 16 + b / 16))
        (String (base64_digit (b mod 16 * 4 + c / 64)) (String (base64_digit (c mod 64)) (base64 l))))
  end.

(** [IP.MarshalText]: an error for a slice that is not an address. *)
Definition IP_MarshalText (ip : netIP) : option string :=
  if decide (ip = []) then Some ""
  else if decide (length ip = 4%nat ∨ length ip = 16%nat) then Some (IP_String ip) else None.

(** ** Merge patches *)

Definition json_field (j : json) (key : string) : option json :=
  match j with
  | JObject fields => snd <$> (snd <$> list_find (λ f, f.1 = key) fields)
  | _ => None
  end.

Definition json_path (j : json) (path : list string) : option json :=
  foldl (λ o key, j ← o; json_field j key) (Some j) path.

(** A map of strings: [null] deletes the key, a string sets it. *)
Definition merge_map (j : option json) (m : gmap string string) : gmap string string :=
  match j with
  | Some (JObject fields) =>
      foldl (λ m f, match f.2 with
                    | JNull => delete f.1 m
                    | JString s => <[f.1 := s]> m
                    | _ => m
                    end) m fields
  | _ => m
  end.

Definition merge_string (j : option json) (s : string) : string :=
  match j with Some JNull => "" | Some (JString s) => s | _ => s end.

Definition merge_meta (body : json) (m : ObjectMeta) : ObjectMeta :=
  let m := om_set_Labels (merge_map (json_path body ["metadata"; "labels"]) (om_Labels m)) m in
  let m := om_set_Annotations (merge_map (json_path body ["metadata"; "annotations"]) (om_Annotations m)) m in
  match json_path body ["metadata"; "finalizers"] with
  | Some JNull => om_set_Finalizers [] m
  | _ => m
  end.

Definition merge_ip_status (body : json) (s : IPInstanceStatus) : IPInstanceStatus :=
  let f key := merge_string (json_path body ["status"; key]) in
  mkIPInstanceStatus (f "nodeName" (ist_NodeName s)) (f "phase" (ist_Phase s)) (f "podName" (ist_PodName s))
    (f "podNamespace" (ist_PodNamespace s)) (f "sandboxID" (ist_SandboxID s)).
