(* ===== verification/KubeClient.v ===== *)
(** * The client of the API server

    controller-runtime's client and the API server behind it are not part of
    the repository.  [Reader] holds the reads the code makes, [Client] the
    world the client acts on and the writes; both are parameters of the
    definitions that use them.  [ClientLaws] is what the store relies on: the
    documented effect of each write on the IP instances and pods held by the
    server, with reads that are up to date and failed calls that have no
    effect.  [kube_concrete] is a server that satisfies the laws. *)

From S2P Require Import Prelude GoNet GoStrings NetworkingV1 MulticlusterV1 Kubernetes GoJSON.

(** [client.InNamespace], [client.MatchingLabels] *)
Record ListOptions := mkListOptions { lo_Namespace : option string; lo_MatchingLabels : gmap string string }.

Definition everything : ListOptions := mkListOptions None ∅.

Definition opts_match (opts : ListOptions) (m : ObjectMeta) : Prop :=
  match lo_Namespace opts with Some ns => om_Namespace m = ns | None => True end ∧
  lo_MatchingLabels opts ⊆ om_Labels m.

#[export] Instance opts_match_dec opts m : Decision (opts_match opts m).
Proof. unfold opts_match. destruct (lo_Namespace opts); apply _. Defined.

Record Reader := mkReader {
  r_GetNetwork : string → outcome V1Network;
  r_ListNetworks : outcome (list V1Network);
  (** [client.MatchingFields{IndexerFieldNode: node}] *)
  r_ListNetworksByNode : string → outcome (list V1Network);
  r_GetSubnet : string → outcome V1Subnet;
  r_ListSubnets : outcome (list V1Subnet);
  r_GetIPInstance : string → string → outcome V1IPInstance;
  r_ListIPInstances : ListOptions → outcome (list V1IPInstance);
  r_GetPod : string → string → outcome Pod;
  r_GetNode : string → outcome Node;
  r_ListNodes : ListOptions → outcome (list Node);
  r_GetNamespace : string → outcome Namespace;
  r_ListRemoteSubnets : outcome (list RemoteSubnet);
  r_ListRemoteVteps : outcome (list RemoteVtep);
  r_ListRemoteClusters : outcome (list RemoteCluster);
  r_GetRemoteCluster : string → outcome RemoteCluster
}.

Class Client : Type := {
  World : Type;
  reader : World → Reader;
  Create_IPInstance : V1IPInstance → M World unit;
  Delete_IPInstance : string → string → M World unit;
  Patch_IPInstance : string → string → json → M World unit;
  PatchStatus_IPInstance : string → string → json → M World unit;
  Patch_Pod : string → string → json → M World unit;
  PatchStatus_Network : string → json → M World unit;
  PatchStatus_Subnet : string → json → M World unit;
  (** The pod with new metadata, patched by the strategic merge patch from its
      old metadata; the result is the pod that the server returns. *)
  StrategicPatch_Pod : ObjectMeta → Pod → M World Pod;
  (** The reads that go to the server and not to the cache of the client. *)
  APIReader : World → Reader;
  (** [retry.RetryOnConflict(retry.DefaultRetry, fn)] of client-go *)
  RetryOnConflict : ∀ {A : Type}, M World A → M World A
}.

(** ** What the server holds *)

Abbreviation key := (string * string)%type.
Definition ip_key (i : V1IPInstance) : key := (om_Namespace (vi_Meta i), om_Name (vi_Meta i)).

Record View := mkView { v_ips : gmap key V1IPInstance; v_pods : gmap key ObjectMeta }.

Definition vi_set_Meta (m : ObjectMeta) (i : V1IPInstance) : V1IPInstance := mkV1IPInstance m (vi_Spec i) (vi_Status i).
Definition vi_set_Status (s : IPInstanceStatus) (i : V1IPInstance) : V1IPInstance :=
  mkV1IPInstance (vi_Meta i) (vi_Spec i) s.
Definition om_set_UID (uid : string) (m : ObjectMeta) : ObjectMeta :=
  mkObjectMeta (om_Name m) (om_Namespace m) uid (om_Labels m) (om_Annotations m) (om_Finalizers m)
    (om_OwnerReferences m) (om_DeletionTimestamp m).

Definition terminating (m : ObjectMeta) : Prop := is_Some (om_DeletionTimestamp m).

Definition create_rel (i : V1IPInstance) (v v' : View) : Prop :=
  v_ips v !! ip_key i = None ∧
  ∃ uid, v' = mkView (<[ip_key i := vi_set_Meta (om_set_UID uid (vi_Meta i)) i]> (v_ips v)) (v_pods v).

(** An object with finalizers is only marked. *)
Definition delete_rel (k : key) (v v' : View) : Prop :=
  ∃ i t, v_ips v !! k = Some i ∧
    v' = mkView (if decide (om_Finalizers (vi_Meta i) = []) then delete k (v_ips v)
                 else <[k := vi_set_Meta (om_set_DeletionTimestamp (Some t) (vi_Meta i)) i]> (v_ips v))
           (v_pods v).

(** A marked object goes with its last finalizer. *)
Definition patch_rel (k : key) (body : json) (v v' : View) : Prop :=
  ∃ i, v_ips v !! k = Some i ∧
    let m := merge_meta body (vi_Meta i) in
    v' = mkView (if decide (om_Finalizers m = [] ∧ terminating m) then delete k (v_ips v)
                 else <[k := vi_set_Meta m i]> (v_ips v)) (v_pods v).

Definition patch_status_rel (k : key) (body : json) (v v' : View) : Prop :=
  ∃ i, v_ips v !! k = Some i ∧
    v' = mkView (<[k := vi_set_Status (merge_ip_status body (vi_Status i)) i]> (v_ips v)) (v_pods v).

(** For patches that leave the finalizers alone. *)
Definition patch_pod_rel (k : key) (body : json) (v v' : View) : Prop :=
  ∃ m, v_pods v !! k = Some m ∧ v' = mkView (v_ips v) (<[k := merge_meta body m]> (v_pods v)).

(** The finalizers of a pod change, and nothing else of what is modelled: the
    ones added are there, the ones removed are not, the others stay. *)
Definition patch_finalizers_rel (k : key) (old new : list string) (p : Pod) (v v' : View) : Prop :=
  ∃ m fs, v_pods v !! k = Some m ∧ pod_Meta p = om_set_Finalizers fs m ∧
    v' = mkView (v_ips v) (<[k := pod_Meta p]> (v_pods v)) ∧
    ∀ f, f ∈ fs ↔ f ∈ new ∧ f ∉ old ∨ f ∈ om_Finalizers m ∧ (f ∈ new ∨ f ∉ old).

Inductive retried {W A} (f : M W A) : W → outcome A * W → Prop :=
  | retried_done w : retried f w (f w)
  | retried_again w w' r :
      f w = (Fail (StatusError StatusReasonConflict), w') → retried f w' r → retried f w r.

Section laws.
Context `{ApiMachinery} {C : Client}.

(** The call returns after the effect [R], or fails without an effect. *)
Definition effect (view : World → View) (R : View → View → Prop) (m : M World unit) : Prop :=
  ∀ w, post m w (λ o w', match o with
                         | Ret _ => R (view w) (view w')
                         | Fail _ => view w' = view w
                         | _ => False
                         end).

Class ClientLaws : Type := {
  view : World → View;
  view_keys w k i : v_ips (view w) !! k = Some i → ip_key i = k;
  Create_law i : effect view (create_rel i) (Create_IPInstance i);
  Delete_law ns name : effect view (delete_rel (ns, name)) (Delete_IPInstance ns name);
  Patch_law ns name body : effect view (patch_rel (ns, name) body) (Patch_IPInstance ns name body);
  PatchStatus_law ns name body :
    effect view (patch_status_rel (ns, name) body) (PatchStatus_IPInstance ns name body);
  Patch_Pod_law ns name body :
    json_path body ["metadata"; "finalizers"] = None →
    effect view (patch_pod_rel (ns, name) body) (Patch_Pod ns name body);
  StrategicPatch_Pod_law old p w :
    pod_Meta p = om_set_Finalizers (om_Finalizers (pod_Meta p)) old →
    post (StrategicPatch_Pod old p) w (λ o w', match o with
      | Ret p' => patch_finalizers_rel (om_Namespace old, om_Name old) (om_Finalizers old) (om_Finalizers (pod_Meta p)) p'
                    (view w) (view w')
      | Fail _ => view w' = view w
      | _ => False
      end);
  PatchStatus_Network_law name body : effect view eq (PatchStatus_Network name body);
  PatchStatus_Subnet_law name body : effect view eq (PatchStatus_Subnet name body);
  Get_IPInstance_law ns name w :
    match r_GetIPInstance (reader w) ns name with
    | Ret i => v_ips (view w) !! (ns, name) = Some i
    | Fail e => IsNotFound e = true → v_ips (view w) !! (ns, name) = None
    | _ => False
    end;
  List_IPInstances_law opts w :
    match r_ListIPInstances (reader w) opts with
    | Ret l => NoDup l ∧ ∀ i, i ∈ l ↔ v_ips (view w) !! ip_key i = Some i ∧ opts_match opts (vi_Meta i)
    | Fail _ => True
    | _ => False
    end;
  RetryOnConflict_law {X : Type} (f : M World X) w : retried f w (RetryOnConflict f w)
}.
End laws.

Section client.
Context `{ApiMachinery} {C : Client} {L : ClientLaws}.

(** A call that is tried again has the effect of one call. *)
Lemma effect_retry R m : effect view R m → effect view R (RetryOnConflict m).
Proof.
  intros Hm w. unfold post. induction (RetryOnConflict_law m w) as [w|w w' r Hc Hr IH]; [apply Hm|].
  pose proof (Hm w) as Hw. unfold post in Hw. rewrite Hc in Hw. cbn in Hw. by rewrite Hw in IH.
Qed.

Lemma effect_mono (R R' : View → View → Prop) m :
  (∀ v v', R v v' → R' v v') → effect view R m → effect view R' m.
Proof. intros HR Hm w. eapply post_mono; [apply Hm|]. cbn. intros [] w'; auto. Qed.
End client.

(** ** A server *)

Definition norm (v : View) : View := mkView (filter (λ kv, ip_key kv.2 = kv.1) (v_ips v)) (v_pods v).

Definition kube_update (f : View → option View) : M View unit := λ w,
  match f (norm w) with
  | Some v' => (Ret tt, v')
  | None => (Fail (StatusError StatusReasonNotFound), w)
  end.

Definition kube_instances (opts : ListOptions) (v : View) : list V1IPInstance :=
  filter (λ i, opts_match opts (vi_Meta i)) (snd <$> map_to_list (v_ips (norm v))).

Definition not_found {A} : outcome A := Fail (StatusError StatusReasonNotFound).

Definition kube_reader (v : View) : Reader := {|
  r_GetNetwork _ := not_found; r_ListNetworks := Ret []; r_ListNetworksByNode _ := Ret [];
  r_GetSubnet _ := not_found; r_ListSubnets := Ret [];
  r_GetIPInstance ns n := match v_ips (norm v) !! (ns, n) with Some i => Ret i | None => not_found end;
  r_ListIPInstances opts := Ret (kube_instances opts v);
  r_GetPod _ _ := not_found; r_GetNode _ := not_found; r_ListNodes _ := Ret []; r_GetNamespace _ := not_found;
  r_ListRemoteSubnets := Ret []; r_ListRemoteVteps := Ret []; r_ListRemoteClusters := Ret [];
  r_GetRemoteCluster _ := not_found
|}.

Definition set_ips (f : gmap key V1IPInstance → gmap key V1IPInstance) (v : View) : View :=
  mkView (f (v_ips v)) (v_pods v).

Definition kube_on (k : key) (f : V1IPInstance → View → View) : M View unit :=
  kube_update (λ v, i ← v_ips v !! k; Some (f i v)).

Definition kube_concrete : Client := {|
  World := View;
  reader := kube_reader;
  Create_IPInstance i :=
    kube_update (λ v, match v_ips v !! ip_key i with
                      | Some _ => None
                      | None => Some (set_ips <[ip_key i := vi_set_Meta (om_set_UID "uid" (vi_Meta i)) i]> v)
                      end);
  Delete_IPInstance ns n :=
    kube_on (ns, n) (λ i, set_ips (λ m,
      if decide (om_Finalizers (vi_Meta i) = []) then delete (ns, n) m
      else <[(ns, n) := vi_set_Meta (om_set_DeletionTimestamp (Some 0%Z) (vi_Meta i)) i]> m));
  Patch_IPInstance ns n body :=
    kube_on (ns, n) (λ i, set_ips (λ m,
      let meta := merge_meta body (vi_Meta i) in
      if decide (om_Finalizers meta = [] ∧ terminating meta) then delete (ns, n) m
      else <[(ns, n) := vi_set_Meta meta i]> m));
  PatchStatus_IPInstance ns n body :=
    kube_on (ns, n) (λ i, set_ips <[(ns, n) := vi_set_Status (merge_ip_status body (vi_Status i)) i]>);
  Patch_Pod ns n body :=
    kube_update (λ v, m ← v_pods v !! (ns, n); Some (mkView (v_ips v) (<[(ns, n) := merge_meta body m]> (v_pods v))));
  PatchStatus_Network _ _ := λ w, (Ret tt, w);
  PatchStatus_Subnet _ _ := λ w, (Ret tt, w);
  StrategicPatch_Pod old p := λ w,
    match v_pods (norm w) !! (om_Namespace old, om_Name old) with
    | Some m =>
        let new := om_Finalizers (pod_Meta p) in
        let fs := filter (λ f, f ∈ new ∨ f ∉ om_Finalizers old) (om_Finalizers m) ++
                  filter (λ f, f ∉ om_Finalizers old) new in
        let p' := pod_set_Meta (om_set_Finalizers fs m) p in
        let v := norm w in
        (Ret p', mkView (v_ips v) (<[(om_Namespace old, om_Name old) := pod_Meta p']> (v_pods v)))
    | None => (not_found, w)
    end;
  APIReader := kube_reader;
  RetryOnConflict _ f := f
|}.

Definition keys_ok (v : View) : Prop := ∀ k i, v_ips v !! k = Some i → ip_key i = k.

Lemma norm_ok v : keys_ok v → norm v = v.
Proof.
  intros Hk. destruct v as [ips pods]. unfold norm. cbn. f_equal. apply map_filter_id. intros k i Hi. by apply Hk.
Qed.

Lemma keys_ok_norm v : keys_ok (norm v).
Proof. intros k i Hi. by apply map_lookup_filter_Some in Hi as [_ ?]. Qed.

Lemma keys_ok_insert f v k i : keys_ok v → ip_key i = k → keys_ok (mkView (<[k := i]> (v_ips v)) f).
Proof.
  intros Hv Hi k' i'. cbn. rewrite lookup_insert_Some. intros [[<- <-]|[_ Hl]]; [done|by apply Hv].
Qed.

Lemma keys_ok_delete f v k : keys_ok v → keys_ok (mkView (delete k (v_ips v)) f).
Proof. intros Hv k' i'. cbn. rewrite lookup_delete_Some. intros [_ Hl]. by apply Hv. Qed.

Lemma ip_key_merge body i : ip_key (vi_set_Meta (merge_meta body (vi_Meta i)) i) = ip_key i.
Proof. unfold ip_key, merge_meta. cbn. by repeat case_match. Qed.

Lemma kube_update_effect R f :
  (∀ v v', keys_ok v → f v = Some v' → R v v' ∧ keys_ok v') → effect (C := kube_concrete) norm R (kube_update f).
Proof.
  intros Hf w. unfold post, kube_update. destruct (f (norm w)) as [v'|] eqn:E; cbn; [|done].
  destruct (Hf _ _ (keys_ok_norm w) E) as [HR Hk]. by rewrite (norm_ok v').
Qed.

Lemma keys_ok_NoDup v : keys_ok v → NoDup (snd <$> map_to_list (v_ips v)).
Proof.
  intros Hv. apply (NoDup_fmap_1 ip_key). rewrite <-list_fmap_compose.
  assert ((ip_key ∘ snd) <$> map_to_list (v_ips v) = fst <$> map_to_list (v_ips v)) as ->.
  { apply list_fmap_ext. intros j [k i] Hj. apply list_elem_of_lookup_2, elem_of_map_to_list in Hj. by apply Hv. }
  apply NoDup_fst_map_to_list.
Qed.

#[export] Instance kube_laws : ClientLaws (H := api_concrete) (C := kube_concrete).
Proof.
  refine {| view := norm : @World kube_concrete → View |}.
  - intros w k i. apply keys_ok_norm.
  - intros i. apply kube_update_effect. intros v v' Hv E. destruct (v_ips v !! ip_key i) as [j|] eqn:Hl; [discriminate E|].
    injection E as <-. split; [split; [done|by exists "uid"]|]. by apply keys_ok_insert.
  - intros ns n. apply kube_update_effect. intros v v' Hv E. cbn in E.
    destruct (v_ips v !! (ns, n)) as [i|] eqn:Hl; [|discriminate E].
    injection E as <-. split; [by exists i, 0%Z|].
    unfold set_ips. case_decide; [by apply keys_ok_delete|]. apply keys_ok_insert; [done|]. by apply Hv in Hl.
  - intros ns n body. apply kube_update_effect. intros v v' Hv E. cbn in E.
    destruct (v_ips v !! (ns, n)) as [i|] eqn:Hl; [|discriminate E].
    injection E as <-. split; [by exists i|].
    unfold set_ips. case_decide; [by apply keys_ok_delete|]. apply keys_ok_insert; [done|].
    rewrite ip_key_merge. by apply Hv in Hl.
  - intros ns n body. apply kube_update_effect. intros v v' Hv E. cbn in E.
    destruct (v_ips v !! (ns, n)) as [i|] eqn:Hl; [|discriminate E].
    injection E as <-. split; [by exists i|]. apply keys_ok_insert; [done|]. by apply Hv in Hl.
  - intros ns n body _. apply kube_update_effect. intros v v' Hv E. cbn in E.
    destruct (v_pods v !! (ns, n)) as [m|] eqn:Hl; [|discriminate E].
    injection E as <-. split; [by exists m|]. exact Hv.
  - intros old p w _. unfold post. cbn -[norm]. destruct (v_pods (norm w) !! _) as [m|] eqn:E; cbn -[norm]; [|done].
    exists m. eexists. split; [done|]. split; [reflexivity|]. split; [by apply norm_ok; apply keys_ok_norm|].
    intros f. rewrite elem_of_app, !list_elem_of_filter. tauto.
  - intros name body w. done.
  - intros name body w. done.
  - intros ns n w. cbn -[norm]. destruct (v_ips (norm w) !! (ns, n)) as [i|] eqn:E; [reflexivity|intros _; reflexivity].
  - intros opts w. cbn. unfold kube_instances.
    split; [apply NoDup_filter, keys_ok_NoDup, keys_ok_norm|]. intros i. rewrite list_elem_of_filter, list_elem_of_fmap.
    split.
    + intros (Hm & [k i'] & -> & Hi). apply elem_of_map_to_list in Hi. cbn in *.
      by rewrite (keys_ok_norm w k i' Hi).
    + intros [Hl Hm]. split; [done|]. exists (ip_key i, i). split; [done|]. by apply elem_of_map_to_list.
  - intros f w. constructor.
Defined.
