(* ===== verification/Store.v ===== *)
(** * The store (pkg/ipam/store, pkg/utils/mac)

    [Worker] and [DualStackWorker] write IP instances and the IP annotation of
    pods through the client.  The state is the client's world; the random
    bytes of a MAC address are an argument.  A [defer] that runs when the call
    fails is [on_error]. *)

From S2P Require Import Prelude GoNet GoStrings NetBlock NetText CNIPlugins NetworkingV1 MulticlusterV1 Kubernetes Config Utils IPAMTypes Names GoJSON KubeClient.
Local Open Scope Z_scope.

(** ** pkg/constants *)

Definition AnnotationIP : string := "networking.alibaba.com/ip".
Definition FinalizerIPAllocated : string := "networking.alibaba.com/ip-allocated".
Definition LabelSubnet : string := "networking.alibaba.com/subnet".
Definition LabelNetwork : string := "networking.alibaba.com/network".
Definition LabelNode : string := "networking.alibaba.com/node".
Definition LabelPod : string := "networking.alibaba.com/pod".

(** ** mac.go *)

Definition hybridnetOUI : list Z := [0x02; 0x12; 0x34].
Definition GenerateMAC (rand : list Z) : list Z := hybridnetOUI ++ take 3 rand.

(** [func (a HardwareAddr) String() string] *)
Definition HardwareAddr_String (a : list Z) : string := join ":" (map hex_byte a).

(** ** Text of an address *)

Definition json_of_bytes (l : list Z) : json := if decide (l = []) then JNull else JString (base64 l).

(** [json.Marshal] of an [IP]; the zero value when an address does not have a
    text. *)
Definition json_of_IP (ip : IP) : option json :=
  gateway ← IP_MarshalText (ip_Gateway ip);
  address ← match ip_Address ip with
            | None => Some JNull
            | Some a => t ← IP_MarshalText (IPNet_IP a);
                        Some (JObject [("IP", JString t); ("Mask", json_of_bytes (IPNet_Mask a))])
            end;
  Some (JObject [
    ("Address", address); ("Gateway", JString gateway);
    ("NetID", match ip_NetID ip with Some n => JNumber n | None => JNull end);
    ("Subnet", JString (ip_Subnet ip)); ("Network", JString (ip_Network ip));
    ("PodName", JString (ip_PodName ip)); ("PodNamespace", JString (ip_PodNamespace ip));
    ("Status", JString (ip_Status ip))]).

Definition marshal (ip : IP) : string :=
  match json_of_IP ip with Some j => json_text j | None => "" end.

Definition marshalIPs (IPs : list IP) : string :=
  match mapM json_of_IP IPs with Some l => json_text (JArray l) | None => "" end.

(** ** store.go *)

Definition newControllerRef (owner : ObjectMeta) (apiVersion kind : string) : OwnerReference :=
  mkOwnerReference apiVersion kind (om_Name owner) (om_UID owner) (Some true) (Some false).

(** [int32(uint32)] *)
Definition int32 (z : Z) : Z := (z + 2 ^ 31) mod 2 ^ 32 - 2 ^ 31.

(** The bodies of the patches. *)
Definition status_body (podName podNamespace nodeName phase : string) : json :=
  JObject [("status", JObject [("podName", JString podName); ("podNamespace", JString podNamespace);
                               ("nodeName", JString nodeName); ("phase", JString phase)])].
Definition annotation_body (value : json) : json :=
  JObject [("metadata", JObject [("annotations", JObject [(AnnotationIP, value)])])].
Definition labels_body (nodeName podName : string) : json :=
  JObject [("metadata", JObject [("labels", JObject [(LabelNode, JString nodeName); (LabelPod, JString podName)])])].
Definition finalizers_body : json := JObject [("metadata", JObject [("finalizers", JNull)])].
Definition usage_json (u : Usage) : json :=
  JObject [("total", JNumber (us_Total u)); ("used", JNumber (us_Used u)); ("available", JNumber (us_Available u))].

Section store.
Context `{ApiMachinery} `{Settings} `{Client}.

(** The instance that [createIPWithMAC] builds. *)
Definition build_instance (pod : Pod) (ip : IP) (macAddr : string) : outcome V1IPInstance :=
  let owner := match GetKnownOwnReference pod with
               | Some owner => owner
               | None => newControllerRef (pod_Meta pod) "v1" "Pod"
               end in
  name ← toDNSLabelFormat ip;
  address ← deref (ip_Address ip);
  netID ← deref (ip_NetID ip);
  let gateway := if decide (ip_Gateway ip = []) then "" else IP_String (ip_Gateway ip) in
  Ret (mkV1IPInstance
         (mkObjectMeta name (pod_Namespace pod) ""
            (<[LabelSubnet := ip_Subnet ip]> (<[LabelNetwork := ip_Network ip]>
               (<[LabelNode := pod_NodeName pod]> {[LabelPod := pod_Name pod]})))
            ∅ [FinalizerIPAllocated] [owner] None)
         (mkIPInstanceSpec (ip_Network ip) (ip_Subnet ip)
            (mkAddress (extractIPVersion ip) (IPNet_String address) gateway (Some (int32 netID)) macAddr))
         (mkIPInstanceStatus "" "" "" "" "")).

Definition createIPWithMAC (pod : Pod) (ip : IP) (macAddr : string) : M World V1IPInstance :=
  ipInstance ← lift (build_instance pod ip macAddr);
  Create_IPInstance ipInstance;;
  mret ipInstance.

Definition createIP (pod : Pod) (ip : IP) (rand : list Z) : M World V1IPInstance :=
  createIPWithMAC pod ip (HardwareAddr_String (GenerateMAC rand)).

Definition deleteIP (namespace name : string) : M World unit := Delete_IPInstance namespace name.

Definition getIP (namespace : string) (ip : IP) : M World V1IPInstance :=
  name ← lift (toDNSLabelFormat ip);
  w ← get;
  lift (r_GetIPInstance (reader w) namespace name).

Definition updateIPStatus (ip : V1IPInstance) (nodeName podName podNamespace phase : string) : M World unit :=
  RetryOnConflict (PatchStatus_IPInstance (om_Namespace (vi_Meta ip)) (om_Name (vi_Meta ip))
                     (status_body podName podNamespace nodeName phase)).

Definition patchIPtoPod (pod : Pod) (ip : IP) : M World unit :=
  RetryOnConflict (Patch_Pod (pod_Namespace pod) (pod_Name pod) (annotation_body (JString (marshal ip)))).

Definition releaseIPFromPod (pod : Pod) : M World unit :=
  RetryOnConflict (Patch_Pod (pod_Namespace pod) (pod_Name pod) (annotation_body JNull)).

Definition patchIPLabels (ip : V1IPInstance) (podName nodeName : string) : M World unit :=
  RetryOnConflict (Patch_IPInstance (om_Namespace (vi_Meta ip)) (om_Name (vi_Meta ip))
                     (labels_body nodeName podName)).

Definition delete_instance (ip : V1IPInstance) : M World unit :=
  deleteIP (om_Namespace (vi_Meta ip)) (om_Name (vi_Meta ip)).

Definition Worker_Couple (pod : Pod) (ip : IP) (rand : list Z) : M World unit :=
  ipInstance ← createIP pod ip rand;
  on_error (delete_instance ipInstance) (
    updateIPStatus ipInstance (pod_NodeName pod) (pod_Name pod) (pod_Namespace pod) IPPhaseUsing;;
    on_error (releaseIPFromPod pod) (patchIPtoPod pod ip)).

Definition Worker_ReCouple (pod : Pod) (ip : IP) (rand : list Z) : M World unit := λ w,
  match getIP (pod_Namespace pod) ip w with
  | (Fail e, w) => if IsNotFound e then Worker_Couple pod ip rand w else (Fail e, w)
  | (Ret ipInstance, w) =>
      (patchIPLabels ipInstance (pod_Name pod) (pod_NodeName pod);;
       updateIPStatus ipInstance (pod_NodeName pod) (pod_Name pod) (pod_Namespace pod) IPPhaseUsing;;
       patchIPtoPod pod ip) w
  | (Panic, w) => (Panic, w)
  | (Diverge, w) => (Diverge, w)
  end.

(** The instances of a pod, by label. *)
Definition pod_opts (pod : Pod) : ListOptions := mkListOptions (Some (pod_Namespace pod)) {[LabelPod := pod_Name pod]}.

Definition Worker_DeCouple (pod : Pod) : M World unit :=
  if negb (nonempty (annotation (pod_Meta pod) AnnotationIP)) then mret tt
  else
    w ← get;
    ipInstanceList ← lift (r_ListIPInstances (reader w) (pod_opts pod));
    each (λ ip, deleteIP (pod_Namespace pod) (om_Name (vi_Meta ip))) ipInstanceList;;
    releaseIPFromPod pod.

Definition Worker_IPReserve (pod : Pod) : M World unit :=
  if negb (nonempty (annotation (pod_Meta pod) AnnotationIP)) then mret tt
  else
    w ← get;
    ipInstanceList ← lift (r_ListIPInstances (reader w) (pod_opts pod));
    each (λ ip, updateIPStatus ip "" (pod_Name pod) (pod_Namespace pod) IPPhaseReserved) ipInstanceList;;
    releaseIPFromPod pod.

Definition Worker_IPRecycle (namespace : string) (ip : IP) : M World unit :=
  name ← lift (toDNSLabelFormat ip);
  deleteIP namespace name.

Definition Worker_IPUnBind (namespace ip : string) : M World unit :=
  RetryOnConflict (Patch_IPInstance namespace ip finalizers_body).

(** [nodeList] and [subnetList] are JSON texts. *)
Definition Worker_SyncNetworkStatus (name nodeList subnetList : string) : M World unit :=
  RetryOnConflict (PatchStatus_Network name
    (JObject [("status", JObject [("nodeList", JText nodeList); ("subnetList", JText subnetList)])])).

Definition Worker_SyncNetworkUsage (name : string) (usage : Usage) : M World unit :=
  RetryOnConflict (PatchStatus_Network name
    (JObject [("status", JObject [("lastAllocatedSubnet", JString (us_LastAllocation usage));
                                  ("statistics", usage_json usage)])])).

Definition Worker_SyncSubnetUsage (name : string) (usage : Usage) : M World unit :=
  RetryOnConflict (PatchStatus_Subnet name
    (JObject [("status", JObject [("lastAllocatedIP", JString (us_LastAllocation usage));
                                  ("total", JNumber (us_Total usage)); ("used", JNumber (us_Used usage));
                                  ("available", JNumber (us_Available usage))])])).

(** ** dualstack_store.go *)

Fixpoint create_all (pod : Pod) (mac : string) (ipInstances : list V1IPInstance) (IPs : list IP)
    : World → outcome unit * World * list V1IPInstance := λ w,
  match IPs with
  | [] => (Ret tt, w, ipInstances)
  | ip :: IPs =>
      match createIPWithMAC pod ip mac w with
      | (Ret ipIns, w) => create_all pod mac (ipInstances ++ [ipIns]) IPs w
      | (Fail e, w) => (Fail e, w, ipInstances)
      | (Panic, w) => (Panic, w, ipInstances)
      | (Diverge, w) => (Diverge, w, ipInstances)
      end
  end.

Definition patchIPsToPod (pod : Pod) (IPs : list IP) : M World unit :=
  RetryOnConflict (Patch_Pod (pod_Namespace pod) (pod_Name pod) (annotation_body (JString (marshalIPs IPs)))).

(** The deferred function reads the variable [ipInstances]: it deletes what
    was created up to the error. *)
Definition DualStackWorker_Couple (pod : Pod) (IPs : list IP) (rand : list Z) : M World unit := λ w,
  let globalMac := HardwareAddr_String (GenerateMAC rand) in
  let '(o, w, ipInstances) := create_all pod globalMac [] IPs w in
  on_error (each (λ ipi, ignore (delete_instance ipi)) ipInstances) (
    lift o;;
    each (λ ipi, updateIPStatus ipi (pod_NodeName pod) (pod_Name pod) (pod_Namespace pod) IPPhaseUsing) ipInstances;;
    on_error (releaseIPFromPod pod) (patchIPsToPod pod IPs)) w.

(** The first loop of [ReCouple]: the instances found, the addresses without
    one, and the MAC address. *)
Fixpoint find_all (pod : Pod) (found : list V1IPInstance) (missing : list IP) (mac : string) (IPs : list IP)
    : M World (list V1IPInstance * list IP * string) := λ w,
  match IPs with
  | [] => (Ret (found, missing, mac), w)
  | ip :: IPs =>
      match getIP (pod_Namespace pod) ip w with
      | (Ret ipIns, w) => find_all pod (found ++ [ipIns]) missing (ad_MAC (is_Address (vi_Spec ipIns))) IPs w
      | (Fail e, w) => if IsNotFound e then find_all pod found (missing ++ [ip]) mac IPs w else (Fail e, w)
      | (Panic, w) => (Panic, w)
      | (Diverge, w) => (Diverge, w)
      end
  end.

Definition DualStackWorker_ReCouple (pod : Pod) (IPs : list IP) (rand : list Z) : M World unit :=
  '(found, missingIPs, globalMac) ← find_all pod [] [] (HardwareAddr_String (GenerateMAC rand)) IPs;
  ipInstances ← (λ w, let '(o, w, created) := create_all pod globalMac found missingIPs w in
                      ((_ ← o; Ret created), w));
  each (λ ipi, patchIPLabels ipi (pod_Name pod) (pod_NodeName pod)) ipInstances;;
  each (λ ipi, updateIPStatus ipi (pod_NodeName pod) (pod_Name pod) (pod_Namespace pod) IPPhaseUsing) ipInstances;;
  patchIPsToPod pod IPs.

Definition DualStackWorker_DeCouple (pod : Pod) : M World unit := Worker_DeCouple pod.
Definition DualStackWorker_IPReserve (pod : Pod) : M World unit := Worker_IPReserve pod.
Definition DualStackWorker_IPRecycle (namespace : string) (ip : IP) : M World unit := Worker_IPRecycle namespace ip.
Definition DualStackWorker_IPUnBind (namespace ip : string) : M World unit := Worker_IPUnBind namespace ip.

Definition DualStackWorker_SyncNetworkUsage (name : string) (v4 v6 dual : Usage) : M World unit :=
  RetryOnConflict (PatchStatus_Network name
    (JObject [("status", JObject [("lastAllocatedSubnet", JString (us_LastAllocation v4));
                                  ("lastAllocatedIPv6Subnet", JString (us_LastAllocation v6));
                                  ("statistics", usage_json v4); ("ipv6Statistics", usage_json v6);
                                  ("dualStackStatistics", JObject [("available", JNumber (us_Available dual))])])])).

Definition DualStackWorker_SyncSubnetUsage (name : string) (usage : Usage) : M World unit :=
  Worker_SyncSubnetUsage name usage.
Definition DualStackWorker_SyncNetworkStatus (name nodes subnets : string) : M World unit :=
  Worker_SyncNetworkStatus name nodes subnets.
End store.
