(* ===== verification/StoreProperties.v ===== *)
(** * What the store does to IP instances and pods

    The loops of the store act on distinct instances: [post_each] lifts the
    effect of one call to the loop.  The properties say what [Couple],
    [ReCouple], [DeCouple] and [IPReserve] leave on the server. *)

From S2P Require Import Prelude GoNet GoStrings NetBlock NetText CNIPlugins NetworkingV1 MulticlusterV1 Kubernetes Config Utils IPAMTypes Names GoJSON KubeClient Store.
Local Open Scope Z_scope.

Section lemmas.
Context `{A : ApiMachinery} `{Settings} {C : Client} {L : ClientLaws}.
Implicit Types (w : World) (k : key) (i : V1IPInstance).

Definition ips w : gmap key V1IPInstance := v_ips (view w).
Definition pods w : gmap key ObjectMeta := v_pods (view w).

(** Nothing but the instances at [ks] changes. *)
Definition only (ks : list key) w w' : Prop :=
  pods w' = pods w ∧ ∀ k, k ∉ ks → ips w' !! k = ips w !! k.

Lemma only_refl ks w w' : view w' = view w → only ks w w'.
Proof. unfold only, ips, pods. by intros ->. Qed.

Lemma only_trans ks1 ks2 ks w w1 w2 :
  only ks1 w w1 → only ks2 w1 w2 → ks1 ⊆ ks → ks2 ⊆ ks → only ks w w2.
Proof.
  intros [Hp1 H1] [Hp2 H2] Hs1 Hs2. split; [congruence|]. intros k Hk.
  rewrite H2 by set_solver. apply H1. set_solver.
Qed.

Lemma only_insert k i w w' :
  view w' = mkView (<[k := i]> (v_ips (view w))) (v_pods (view w)) → only [k] w w' ∧ ips w' !! k = Some i.
Proof.
  intros E. unfold only, ips, pods. rewrite E. cbn. split; [|by rewrite lookup_insert_eq].
  split; [done|]. intros k' Hk. apply lookup_insert_ne. set_solver.
Qed.

Lemma only_delete k w w' :
  view w' = mkView (delete k (v_ips (view w))) (v_pods (view w)) → only [k] w w' ∧ ips w' !! k = None.
Proof.
  intros E. unfold only, ips, pods. rewrite E. cbn. split; [|by rewrite lookup_delete_eq].
  split; [done|]. intros k' Hk. apply lookup_delete_ne. set_solver.
Qed.

Lemma effect_post R m w (Q : outcome unit → World → Prop) :
  effect view R m → (∀ w', R (view w) (view w') → Q (Ret tt) w') →
  (∀ e w', view w' = view w → Q (Fail e) w') → post m w Q.
Proof.
  intros Hm Hr Hf. eapply post_mono; [apply Hm|]. intros [[]|e| |] w' Hw'; cbn in Hw'; auto; done.
Qed.

Lemma updateIPStatus_effect i node pod ns phase :
  effect view (patch_status_rel (ip_key i) (status_body pod ns node phase)) (updateIPStatus i node pod ns phase).
Proof. apply effect_retry, PatchStatus_law. Qed.

Lemma patchIPLabels_effect i pod node :
  effect view (patch_rel (ip_key i) (labels_body node pod)) (patchIPLabels i pod node).
Proof. apply effect_retry, Patch_law. Qed.

Lemma annotation_effect pod j :
  effect view (patch_pod_rel (pod_Namespace pod, pod_Name pod) (annotation_body j))
    (RetryOnConflict (Patch_Pod (pod_Namespace pod) (pod_Name pod) (annotation_body j))).
Proof. by apply effect_retry, Patch_Pod_law. Qed.

(** ** Loops *)

Lemma post_each (f : V1IPInstance → M World unit) (Φ Ψ : V1IPInstance → option V1IPInstance → Prop) l w :
  NoDup (ip_key <$> l) →
  (∀ i0 w, i0 ∈ l → Φ i0 (ips w !! ip_key i0) →
     post (f i0) w (λ o w', only [ip_key i0] w w' ∧
       match o with
       | Ret _ => Ψ i0 (ips w' !! ip_key i0)
       | Fail _ => Φ i0 (ips w' !! ip_key i0)
       | _ => False
       end)) →
  (∀ i0, i0 ∈ l → Φ i0 (ips w !! ip_key i0)) →
  post (each f l) w (λ o w', only (ip_key <$> l) w w' ∧
    match o with
    | Ret _ => ∀ i0, i0 ∈ l → Ψ i0 (ips w' !! ip_key i0)
    | Fail _ => ∀ i0, i0 ∈ l → Φ i0 (ips w' !! ip_key i0) ∨ Ψ i0 (ips w' !! ip_key i0)
    | _ => False
    end).
Proof.
  revert w. induction l as [|i l IH]; intros w Hnd Hf HΦ.
  { split; [by apply only_refl|]. intros i0 Hi. by apply not_elem_of_nil in Hi. }
  cbn [fmap list_fmap] in *. apply NoDup_cons in Hnd as [Hni Hnd]. cbn [each]. apply post_bind.
  assert (∀ w' i0, only [ip_key i] w w' → i0 ∈ l → ips w' !! ip_key i0 = ips w !! ip_key i0) as Hother.
  { intros w' i0 [_ Ho] Hi0. apply Ho. intros E. apply list_elem_of_singleton in E. apply Hni. rewrite <-E.
    by apply list_elem_of_fmap_2. }
  eapply post_mono; [apply Hf; [by left|apply HΦ; by left]|].
  intros o w' [Ho HQ]. destruct o as [u|e| |]; [| |done|done].
  - eapply post_mono; [apply IH; [done| |]|].
    + intros i0 w0 Hi0. apply Hf. by right.
    + intros i0 Hi0. rewrite Hother by done. apply HΦ. by right.
    + intros o2 w2 [Ho2 HQ2]. split; [eapply only_trans; [exact Ho|exact Ho2|set_solver..]|].
      assert (ips w2 !! ip_key i = ips w' !! ip_key i) as Hi by (apply Ho2, Hni).
      destruct o2 as [u2|e2| |]; try done; intros i0 [->|Hi0]%elem_of_cons; auto; rewrite Hi; auto.
  - split; [eapply only_trans; [exact Ho|by apply (only_refl [])|set_solver..]|].
    intros i0 [->|Hi0]%elem_of_cons; [by left|]. left. rewrite Hother by done. apply HΦ. by right.
Qed.

(** The effect of a patch on one instance. *)
Lemma post_patch_status body i0 w m (Q : option V1IPInstance → Prop) i :
  effect view (patch_status_rel (ip_key i0) body) m →
  ips w !! ip_key i0 = Some i →
  Q (Some (vi_set_Status (merge_ip_status body (vi_Status i)) i)) →
  post m w (λ o w', only [ip_key i0] w w' ∧
    match o with Ret _ => Q (ips w' !! ip_key i0) | Fail _ => view w' = view w | _ => False end).
Proof.
  intros Hm Hi HQ. apply (effect_post _ _ _ _ Hm).
  - intros w' (i' & Hi' & E). unfold ips in Hi. assert (i' = i) as -> by congruence.
    apply only_insert in E as [Ho E]. by rewrite E.
  - intros e w' E. split; [by apply only_refl|done].
Qed.

Lemma post_patch_labels body i0 w m (Q : option V1IPInstance → Prop) i :
  effect view (patch_rel (ip_key i0) body) m →
  ips w !! ip_key i0 = Some i → om_Finalizers (merge_meta body (vi_Meta i)) ≠ [] →
  Q (Some (vi_set_Meta (merge_meta body (vi_Meta i)) i)) →
  post m w (λ o w', only [ip_key i0] w w' ∧
    match o with Ret _ => Q (ips w' !! ip_key i0) | Fail _ => view w' = view w | _ => False end).
Proof.
  intros Hm Hi Hfin HQ. apply (effect_post _ _ _ _ Hm).
  - intros w' (i' & Hi' & E). unfold ips in Hi. assert (i' = i) as -> by congruence.
    cbv zeta in E. rewrite decide_False in E by (by intros [? _]).
    apply only_insert in E as [Ho E]. by rewrite E.
  - intros e w' E. split; [by apply only_refl|done].
Qed.

Definition marked (o : option V1IPInstance) : Prop :=
  match o with Some i => terminating (vi_Meta i) | None => True end.

Lemma post_delete i0 w :
  post (delete_instance i0) w (λ o w', only [ip_key i0] w w' ∧
    match o with Ret _ => marked (ips w' !! ip_key i0) | Fail _ => view w' = view w | _ => False end).
Proof.
  apply (effect_post _ _ _ _ (Delete_law _ _)).
  - intros w' (i & t & Hi & E). case_decide.
    + apply only_delete in E as [Ho E]. unfold ip_key in *. by rewrite E.
    + apply only_insert in E as [Ho E]. unfold ip_key in *. rewrite E. split; [exact Ho|by eexists].
  - intros e w' E. split; [by apply only_refl|done].
Qed.

(** ** Creating instances *)

(** The instance on the server after [Create]. *)
Definition created (i0 : V1IPInstance) (o : option V1IPInstance) : Prop :=
  ∃ uid, o = Some (vi_set_Meta (om_set_UID uid (vi_Meta i0)) i0).

Lemma post_create i0 w :
  post (Create_IPInstance i0) w (λ o w', only [ip_key i0] w w' ∧
    match o with
    | Ret _ => ips w !! ip_key i0 = None ∧ created i0 (ips w' !! ip_key i0)
    | Fail _ => view w' = view w
    | _ => False
    end).
Proof.
  apply (effect_post _ _ _ _ (Create_law _)).
  - intros w' (Hn & uid & E). apply only_insert in E as [Ho E]. rewrite E. split; [done|].
    split; [done|]. by exists uid.
  - intros e w' E. split; [by apply only_refl|done].
Qed.

Lemma create_all_spec pod mac acc IPs insts w :
  Forall2 (λ ip i0, build_instance pod ip mac = Ret i0) IPs insts → NoDup (ip_key <$> insts) →
  let '(o, w', res) := create_all pod mac acc IPs w in
  ∃ done rest, insts = done ++ rest ∧ res = acc ++ done ∧ only (ip_key <$> done) w w' ∧
    (∀ i0, i0 ∈ done → ips w !! ip_key i0 = None ∧ created i0 (ips w' !! ip_key i0)) ∧
    match o with Ret _ => rest = [] | Fail _ => True | _ => False end.
Proof.
  intros HF. revert acc w. induction HF as [|ip i0 IPs insts Hb HF IH]; intros acc w Hnd; cbn [create_all].
  { exists [], []. rewrite (app_nil_r acc). split_and!; [done|done|by apply only_refl| |done]. intros i0 Hi. by apply not_elem_of_nil in Hi. }
  cbn [fmap list_fmap] in Hnd. apply NoDup_cons in Hnd as [Hni Hnd].
  unfold createIPWithMAC. rewrite Hb. rewrite bind_lift_Ret.
  pose proof (post_create i0 w) as Hc. unfold post in Hc.
  unfold mbind at 1, M_bind at 1. destruct (Create_IPInstance i0 w) as [[u|e| |] w1]; cbn [fst snd] in Hc.
  - cbn. destruct Hc as (Ho & Hn & Hcr). specialize (IH (acc ++ [i0]) w1 Hnd).
    destruct (create_all pod mac (acc ++ [i0]) IPs w1) as [[o w'] res].
    destruct IH as (don & rest & -> & -> & Ho' & Hd & Hout).
    rewrite fmap_app, elem_of_app in Hni.
    exists (i0 :: don), rest. split_and!; [done|by rewrite <-app_assoc| | |done].
    + eapply only_trans; [exact Ho|exact Ho'|set_solver..].
    + intros j [->|Hj]%elem_of_cons.
      * split; [done|]. destruct Ho' as [_ Ho']. rewrite Ho'; [done|]. intros Hin. apply Hni. by left.
      * destruct (Hd j Hj) as [Hj1 Hj2]. split; [|done]. destruct Ho as [_ Ho]. rewrite <-Ho; [done|].
        intros E. apply list_elem_of_singleton in E. apply Hni. left. rewrite <-E. by apply list_elem_of_fmap_2.
  - destruct Hc as [_ E]. exists [], (i0 :: insts). rewrite app_nil_r.
    split_and!; [done|done|by apply only_refl| |done]. intros j Hj. by apply not_elem_of_nil in Hj.
  - by destruct Hc.
  - by destruct Hc.
Qed.

Lemma build_instance_key pod ip mac i0 :
  build_instance pod ip mac = Ret i0 →
  om_Namespace (vi_Meta i0) = pod_Namespace pod ∧ toDNSLabelFormat ip = Ret (om_Name (vi_Meta i0)) ∧
  om_Finalizers (vi_Meta i0) = [FinalizerIPAllocated] ∧ om_DeletionTimestamp (vi_Meta i0) = None ∧
  vi_Status i0 = mkIPInstanceStatus "" "" "" "" "".
Proof.
  unfold build_instance. intros E. destruct (toDNSLabelFormat ip) as [name|e| |]; try done.
  destruct (ip_Address ip) as [a|]; [|done]. destruct (ip_NetID ip) as [n|]; [|done]. cbn in E.
  injection E as <-. done.
Qed.

(** ** Errors *)

Lemma post_on_error {S B} (cleanup : M S unit) (m : M S B) s Q :
  post m s (λ o s', match o with
                    | Fail e => post cleanup s' (λ o2 s2, match o2 with
                                                          | Panic => Q Panic s2
                                                          | Diverge => Q Diverge s2
                                                          | _ => Q (Fail e) s2
                                                          end)
                    | _ => Q o s'
                    end) →
  post (on_error cleanup m) s Q.
Proof.
  unfold post, on_error. destruct (m s) as [[b|e| |] s']; cbn; try done.
  by destruct (cleanup s') as [[]].
Qed.

Definition never_fails {S B} (m : M S B) : Prop := ∀ s e s', m s ≠ (Fail e, s').

Lemma each_never_fails {S B} (f : B → M S unit) l : (∀ x, never_fails (f x)) → never_fails (each f l).
Proof.
  intros Hf. induction l as [|x l IH]; intros s e s'; cbn [each]; [done|].
  unfold mbind, M_bind. destruct (f x s) as [[u|e'| |] s1] eqn:E; [apply IH| |done|done].
  by apply Hf in E.
Qed.

Lemma ignore_never_fails {S} (m : M S unit) : never_fails (ignore m).
Proof. intros s e s'. unfold ignore. by destruct (m s) as [[]]. Qed.

(** The clean-up of [Couple]: every instance is deleted, errors are ignored. *)
Definition cleanup (l : list V1IPInstance) : M World unit := each (λ ipi, ignore (delete_instance ipi)) l.

(** The clean-up's deletion of the instance at [k] got an error. *)
Definition refused (l : list V1IPInstance) w (k : key) : Prop :=
  ∃ j i0 w1 e, l !! j = Some i0 ∧ ip_key i0 = k ∧ cleanup (take j l) w = (Ret tt, w1) ∧
    (delete_instance i0 w1).1 = Fail e.

Lemma ignore_delete i0 w :
  ∃ w1, ignore (delete_instance i0) w = (Ret tt, w1) ∧ only [ip_key i0] w w1 ∧
    (marked (ips w1 !! ip_key i0) ∨ ∃ e, (delete_instance i0 w).1 = Fail e).
Proof.
  pose proof (post_delete i0 w) as H0. unfold post, ignore in *.
  destruct (delete_instance i0 w) as [[[]|e| |] w1]; cbn [fst snd] in *; destruct H0 as [Ho H0]; try done; eauto 6.
Qed.

Lemma post_cleanup l w :
  NoDup (ip_key <$> l) →
  post (cleanup l) w (λ o w',
    o = Ret tt ∧ only (ip_key <$> l) w w' ∧ ∀ i0, i0 ∈ l → marked (ips w' !! ip_key i0) ∨ refused l w (ip_key i0)).
Proof.
  unfold post. revert w. induction l as [|i l IH]; intros w Hnd.
  { split; [done|]. split; [by apply only_refl|]. intros i0 Hi. by apply not_elem_of_nil in Hi. }
  cbn [fmap list_fmap] in *. apply NoDup_cons in Hnd as [Hni Hnd].
  destruct (ignore_delete i w) as (w1 & E & Ho & Hm). specialize (IH w1 Hnd).
  assert (∀ l', cleanup (i :: l') w = cleanup l' w1) as Es by (intros l'; exact (bind_Ret _ _ _ _ _ E)).
  rewrite Es. destruct (cleanup l w1) as [o w']. cbn [fst snd] in *. destruct IH as (-> & Ho' & Hm').
  split; [done|]. split; [eapply only_trans; [exact Ho|exact Ho'|set_solver..]|].
  intros i0 [->|Hi0]%elem_of_cons.
  - destruct Hm as [Hm|[e He]].
    + left. destruct Ho' as [_ Ho']. by rewrite Ho'.
    + right. exists 0%nat, i, w, e. done.
  - destruct (Hm' i0 Hi0) as [?|(j & i1 & w2 & e & Hj & Hk & Hrun & He)]; [by left|right].
    exists (S j), i1, w2, e. split; [done|]. split; [done|]. split; [|done]. cbn [take]. by rewrite Es.
Qed.

(** ** Annotations *)

Lemma merge_annotation v m :
  merge_meta (annotation_body (JString v)) m = om_set_Annotations (<[AnnotationIP := v]> (om_Annotations m)) m.
Proof. by destruct m. Qed.

Lemma merge_no_annotation m :
  merge_meta (annotation_body JNull) m = om_set_Annotations (delete AnnotationIP (om_Annotations m)) m.
Proof. by destruct m. Qed.

Definition pod_key (pod : Pod) : key := (pod_Namespace pod, pod_Name pod).

Definition annotated (pod : Pod) (v : string) w w' : Prop :=
  ips w' = ips w ∧ ∃ m, pods w !! pod_key pod = Some m ∧
    pods w' = <[pod_key pod := om_set_Annotations (<[AnnotationIP := v]> (om_Annotations m)) m]> (pods w).

Definition unannotated (pod : Pod) w w' : Prop :=
  ips w' = ips w ∧ ∃ m, pods w !! pod_key pod = Some m ∧
    pods w' = <[pod_key pod := om_set_Annotations (delete AnnotationIP (om_Annotations m)) m]> (pods w).

Lemma post_annotate pod v w :
  post (RetryOnConflict (Patch_Pod (pod_Namespace pod) (pod_Name pod) (annotation_body (JString v)))) w
    (λ o w', match o with Ret _ => annotated pod v w w' | Fail _ => view w' = view w | _ => False end).
Proof.
  apply (effect_post _ _ _ _ (annotation_effect pod (JString v))); [|done].
  intros w' (m & Hm & E). unfold annotated, ips, pods. rewrite E, merge_annotation. eauto.
Qed.

Lemma post_releaseIPFromPod pod w :
  post (releaseIPFromPod pod) w
    (λ o w', match o with Ret _ => unannotated pod w w' | Fail _ => view w' = view w | _ => False end).
Proof.
  apply (effect_post _ _ _ _ (annotation_effect pod JNull)); [|done].
  intros w' (m & Hm & E). unfold unannotated, ips, pods. rewrite E, merge_no_annotation. eauto.
Qed.

(** ** Status *)

Lemma merge_status_body s podName podNamespace nodeName phase :
  merge_ip_status (status_body podName podNamespace nodeName phase) s =
  mkIPInstanceStatus nodeName phase podName podNamespace (ist_SandboxID s).
Proof. done. Qed.

Definition using_status (pod : Pod) : IPInstanceStatus :=
  mkIPInstanceStatus (pod_NodeName pod) IPPhaseUsing (pod_Name pod) (pod_Namespace pod) "".

(** The instance after [Couple]. *)
Definition coupled (pod : Pod) (i0 : V1IPInstance) (o : option V1IPInstance) : Prop :=
  ∃ uid, o = Some (mkV1IPInstance (om_set_UID uid (vi_Meta i0)) (vi_Spec i0) (using_status pod)).

(** [o] has the spec that the instance has in [w]. *)
Definition same_spec i0 w (o : option V1IPInstance) : Prop :=
  ∃ i i', ips w !! ip_key i0 = Some i ∧ o = Some i' ∧ vi_Spec i' = vi_Spec i.

Lemma same_spec_some i0 w o : same_spec i0 w o → is_Some o.
Proof. intros (i & i' & _ & -> & _). by eexists. Qed.

Lemma post_status_all pod l w (Φ : V1IPInstance → option V1IPInstance → Prop) :
  NoDup (ip_key <$> l) →
  (∀ i0, i0 ∈ l → ∃ i, ips w !! ip_key i0 = Some i ∧
     Φ i0 (Some (mkV1IPInstance (vi_Meta i) (vi_Spec i)
       (mkIPInstanceStatus (pod_NodeName pod) IPPhaseUsing (pod_Name pod) (pod_Namespace pod)
          (ist_SandboxID (vi_Status i)))))) →
  post (each (λ ipi, updateIPStatus ipi (pod_NodeName pod) (pod_Name pod) (pod_Namespace pod) IPPhaseUsing) l) w
    (λ o w', only (ip_key <$> l) w w' ∧
      match o with
      | Ret _ => ∀ i0, i0 ∈ l → Φ i0 (ips w' !! ip_key i0)
      | Fail _ => ∀ i0, i0 ∈ l → same_spec i0 w (ips w' !! ip_key i0)
      | _ => False
      end).
Proof.
  intros Hnd Hl. eapply post_mono.
  - apply (post_each _ (λ i0 o, o = ips w !! ip_key i0) (λ i0 o, Φ i0 o ∧ same_spec i0 w o)); [done| |done].
    intros i0 w0 Hi0 E. destruct (Hl i0 Hi0) as (i & Hi & HΦ). rewrite Hi in E.
    eapply post_mono; [apply (post_patch_status _ i0 w0 _ (λ o, Φ i0 o ∧ same_spec i0 w o) i (updateIPStatus_effect _ _ _ _ _)); [done|]|].
    + rewrite merge_status_body. split; [exact HΦ|]. exists i. by eexists.
    + intros o w' [Ho HQ]. split; [done|]. destruct o as [|e| |]; [done| |done|done].
      unfold ips in *. by rewrite HQ, E, Hi.
  - intros o w' [Ho HQ]. split; [done|]. destruct o as [u|e| |]; [|intros i0 Hi0|done|done].
    + intros i0 Hi0. by apply HQ.
    + destruct (HQ i0 Hi0) as [E|[_ ?]]; [|done]. destruct (Hl i0 Hi0) as (i & Hi & _). rewrite E. by exists i, i.
Qed.

Definition ips_only (ks : list key) w w' : Prop := ∀ k, k ∉ ks → ips w' !! k = ips w !! k.

(** A failed [Couple] ends with a clean-up: what existed is as it was, and
    each instance that was made is gone or going, or its deletion was refused. *)
Definition cleaned (w w' : World) : Prop :=
  (∀ k i, ips w !! k = Some i → ips w' !! k = Some i) ∧
  ∃ made wc, cleanup made wc = (Ret tt, w') ∧
    ∀ k, ips w !! k = None → marked (ips w' !! k) ∨ refused made wc k.

Lemma post_cleanup_cleaned l w0 w :
  NoDup (ip_key <$> l) → ips_only (ip_key <$> l) w0 w →
  (∀ i0, i0 ∈ l → ips w0 !! ip_key i0 = None) →
  post (cleanup l) w (λ o w', o = Ret tt ∧ cleaned w0 w' ∧ ips_only (ip_key <$> l) w0 w').
Proof.
  intros Hnd Ho Hl. pose proof (post_cleanup l w Hnd) as Hp. unfold post in *.
  destruct (cleanup l w) as [o w'] eqn:E. cbn [fst snd] in *. destruct Hp as (-> & [_ Ho'] & Hm). split; [done|]. split; [split|].
  - intros k i Hk. assert (k ∉ ip_key <$> l) as Hnk.
    { intros (i0 & -> & Hi0)%list_elem_of_fmap. pose proof (Hl i0 Hi0). congruence. }
    by rewrite Ho', Ho.
  - exists l, w. split; [done|]. intros k Hk. destruct (decide (k ∈ ip_key <$> l)) as [Hin|Hin].
    + apply list_elem_of_fmap in Hin as (i0 & -> & Hi0). by apply Hm.
    + left. rewrite Ho', Ho, Hk by done. done.
  - intros k Hk. by rewrite Ho', Ho.
Qed.

Definition mac_text (rand : list Z) : string := HardwareAddr_String (GenerateMAC rand).

(** What [Couple] does after its first loop, which created [ipInstances]. *)
Definition couple_rest (pod : Pod) (IPs : list IP) (o : outcome unit) (ipInstances : list V1IPInstance) : M World unit :=
  on_error (cleanup ipInstances) (
    lift o;;
    each (λ ipi, updateIPStatus ipi (pod_NodeName pod) (pod_Name pod) (pod_Namespace pod) IPPhaseUsing) ipInstances;;
    on_error (releaseIPFromPod pod) (patchIPsToPod pod IPs)).

Lemma Couple_eq pod IPs rand w :
  DualStackWorker_Couple pod IPs rand w =
  let '(o, w1, res) := create_all pod (mac_text rand) [] IPs w in couple_rest pod IPs o res w1.
Proof. done. Qed.

Lemma post_annotate_or_release pod IPs w :
  post (on_error (releaseIPFromPod pod) (patchIPsToPod pod IPs)) w (λ o w', ips w' = ips w ∧
    match o with Ret _ => annotated pod (marshalIPs IPs) w w' | Fail _ => True | _ => False end).
Proof.
  apply post_on_error. eapply post_mono; [apply post_annotate|]. intros o w1 H1.
  destruct o as [u|e| |]; [split; [apply H1|done]| |done|done].
  eapply post_mono; [apply post_releaseIPFromPod|]. intros o2 w2 H2.
  assert (ips w1 = ips w) as E1 by (unfold ips; by rewrite H1).
  destruct o2 as [u2|e2| |]; try done; (split; [|done]).
  - by destruct H2 as [-> _].
  - unfold ips in *. by rewrite H2.
Qed.

Lemma post_couple_rest pod IPs o don w w1 :
  NoDup (ip_key <$> don) → only (ip_key <$> don) w w1 →
  (∀ i0, i0 ∈ don → vi_Status i0 = mkIPInstanceStatus "" "" "" "" "" ∧
     ips w !! ip_key i0 = None ∧ created i0 (ips w1 !! ip_key i0)) →
  match o with Ret _ => True | Fail _ => True | _ => False end →
  post (couple_rest pod IPs o don) w1 (λ o' w', match o' with
    | Ret _ => o = Ret tt ∧ (∀ i0, i0 ∈ don → coupled pod i0 (ips w' !! ip_key i0)) ∧
               ips_only (ip_key <$> don) w w' ∧ ∃ w1, pods w1 = pods w ∧ annotated pod (marshalIPs IPs) w1 w'
    | Fail _ => cleaned w w' ∧ ips_only (ip_key <$> don) w w'
    | _ => False
    end).
Proof.
  intros Hnd [Hp Ho] Hd Hout.
  assert (∀ w' e, ips_only (ip_key <$> don) w1 w' →
    post (cleanup don) w' (λ o2 s2, match o2 with
      | Panic => False | Diverge => False
      | _ => match Fail e : outcome unit with Fail _ => cleaned w s2 ∧ ips_only (ip_key <$> don) w s2 | _ => False end end)) as Hclean.
  { intros w' e Hw'. eapply post_mono; [apply (post_cleanup_cleaned don w); [done| |]|].
    - intros k Hk. by rewrite Hw', Ho.
    - intros i0 Hi0. by apply Hd.
    - by intros o2 s2 [-> ?]. }
  apply post_on_error, post_bind. destruct o as [[]|e| |]; [| |done|done]; unfold post at 1, lift; cbn [fst snd].
  2: by apply (Hclean w1 e).
  apply post_bind. eapply post_mono; [apply (post_status_all pod don w1 (coupled pod)); [done|]|].
  { intros i0 Hi0. destruct (Hd i0 Hi0) as (Hst & _ & uid & ->). eexists. split; [done|]. exists uid.
    cbn. by rewrite Hst. }
  intros o2 w2 [[Hp2 Ho2] HQ2]. destruct o2 as [u2|e| |]; [|exact (Hclean w2 e Ho2)|done|done].
  eapply post_mono; [apply post_annotate_or_release|]. intros o3 w3 [E3 H3].
  destruct o3 as [u3|e| |]; [| |done|done].
  - split_and!; [done| | |exists w2; split; [congruence|done]].
    + intros i0 Hi0. rewrite E3. by apply HQ2.
    + intros k Hk. by rewrite E3, Ho2, Ho.
  - apply (Hclean w3 e). intros k Hk. rewrite E3. by apply Ho2.
Qed.

Lemma post_Couple pod IPs rand w insts :
  Forall2 (λ ip i0, build_instance pod ip (mac_text rand) = Ret i0) IPs insts →
  NoDup (ip_key <$> insts) →
  post (DualStackWorker_Couple pod IPs rand) w (λ o w', match o with
    | Ret _ => (∀ i0, i0 ∈ insts → ips w !! ip_key i0 = None ∧ coupled pod i0 (ips w' !! ip_key i0)) ∧
               ips_only (ip_key <$> insts) w w' ∧ ∃ w1, pods w1 = pods w ∧ annotated pod (marshalIPs IPs) w1 w'
    | Fail _ => cleaned w w' ∧ ips_only (ip_key <$> insts) w w'
    | _ => False
    end).
Proof.
  intros HF Hnd. pose proof (create_all_spec pod (mac_text rand) [] IPs insts w HF Hnd) as Hc.
  unfold post. rewrite Couple_eq. destruct (create_all pod (mac_text rand) [] IPs w) as [[o w1] res].
  destruct Hc as (don & rest & -> & -> & Ho & Hd & Hout). cbn [app] in *.
  assert (∀ i0, i0 ∈ don → vi_Status i0 = mkIPInstanceStatus "" "" "" "" "") as Hst.
  { intros i0 Hi0. assert (i0 ∈ don ++ rest) as [j Hj]%list_elem_of_lookup by (apply elem_of_app; by left).
    destruct (Forall2_lookup_r _ _ _ _ _ HF Hj) as (ip & _ & Hb). by apply build_instance_key in Hb as (_ & _ & _ & _ & ?). }
  rewrite fmap_app in Hnd. apply NoDup_app in Hnd as (Hnd & _ & _).
  pose proof (post_couple_rest pod IPs o don w w1 Hnd Ho (λ i0 Hi0, conj (Hst i0 Hi0) (Hd i0 Hi0))
    ltac:(by destruct o)) as H'. unfold post in H'.
  destruct (couple_rest pod IPs o don w1) as [o' w']. cbn [fst snd] in *.
  destruct o' as [u|e| |]; [|split; [apply H'|]|done..].
  2: { intros k Hk. apply H'. rewrite fmap_app in Hk. set_solver. }
  destruct H' as (-> & Hcp & Hip & Hann).
  subst rest. rewrite app_nil_r. split_and!; [|done|done].
  intros i0 Hi0. split; [by apply Hd|by apply Hcp].
Qed.

(** ** ReCouple *)

Definition ready (ip : IP) : Prop := is_Some (ip_Address ip) ∧ is_Some (ip_NetID ip).

Definition name_of (ip : IP) : string := match toDNSLabelFormat ip with Ret n => n | _ => "" end.
Definition ip_key_of (pod : Pod) (ip : IP) : key := (pod_Namespace pod, name_of ip).

Lemma ready_name ip : ready ip → toDNSLabelFormat ip = Ret (name_of ip).
Proof. intros [[a Ha] _]. unfold name_of, toDNSLabelFormat. by rewrite Ha. Qed.

Lemma ready_build pod ip mac :
  ready ip → ∃ i0, build_instance pod ip mac = Ret i0 ∧ ip_key i0 = ip_key_of pod ip.
Proof.
  intros Hr. unfold build_instance. rewrite (ready_name ip Hr). destruct Hr as [[a ->] [n ->]].
  eexists. split; [done|]. done.
Qed.

Lemma ready_build_all pod IPs mac :
  Forall ready IPs → ∃ insts, Forall2 (λ ip i0, build_instance pod ip mac = Ret i0) IPs insts ∧
    ip_key <$> insts = ip_key_of pod <$> IPs.
Proof.
  intros HF. induction HF as [|ip IPs Hr HF IH]; [by exists []|]. destruct IH as (insts & IH & E).
  destruct (ready_build pod ip mac Hr) as (i0 & Hb & Hk). exists (i0 :: insts).
  split; [by constructor|]. cbn. by rewrite Hk, E.
Qed.

Definition instance_MAC (i : V1IPInstance) : string := ad_MAC (is_Address (vi_Spec i)).

(** The MAC address after the first loop: that of the last instance found. *)
Definition last_MAC (mac : string) (fs : list V1IPInstance) : string :=
  match last fs with Some i => instance_MAC i | None => mac end.

Lemma last_MAC_cons mac i fs : last_MAC (instance_MAC i) fs = last_MAC mac (i :: fs).
Proof. unfold last_MAC. rewrite last_cons. by destruct (last fs). Qed.

Lemma find_all_spec pod found missing mac IPs w :
  Forall ready IPs →
  match find_all pod found missing mac IPs w with
  | (Ret (found', missing', mac'), w') => w' = w ∧ ∃ fs ms,
      found' = found ++ fs ∧ missing' = missing ++ ms ∧ mac' = last_MAC mac fs ∧ ms ⊆ IPs ∧
      (ip_key <$> fs) ++ (ip_key_of pod <$> ms) ≡ₚ ip_key_of pod <$> IPs ∧
      (∀ i, i ∈ fs → ips w !! ip_key i = Some i) ∧ (∀ ip, ip ∈ ms → ips w !! ip_key_of pod ip = None)
  | (Fail _, w') => w' = w
  | _ => False
  end.
Proof.
  intros HF. revert found missing mac. induction HF as [|ip IPs Hr HF IH]; intros found missing mac; cbn [find_all].
  { split; [done|]. exists [], []. rewrite !app_nil_r. split_and!; try done; intros x Hx; by apply not_elem_of_nil in Hx. }
  unfold getIP. rewrite (ready_name ip Hr), bind_lift_Ret, bind_get. unfold lift.
  pose proof (Get_IPInstance_law (pod_Namespace pod) (name_of ip) w) as Hg.
  change (pod_Namespace pod, name_of ip) with (ip_key_of pod ip) in Hg.
  destruct (r_GetIPInstance (reader w) (pod_Namespace pod) (name_of ip)) as [i|e| |]; try done.
  - assert (ip_key i = ip_key_of pod ip) as Hk by (by apply (view_keys w)).
    specialize (IH (found ++ [i]) missing (instance_MAC i)). fold (instance_MAC i).
    destruct (find_all pod (found ++ [i]) missing (instance_MAC i) IPs w) as [[[[f m] c]|e| |] w']; try done.
    destruct IH as (-> & fs & ms & -> & -> & -> & Hsub & Hp & Hfs & Hms). split; [done|].
    exists (i :: fs), ms. rewrite <-app_assoc, (last_MAC_cons mac). split_and!; [done..|set_solver| | |done].
    + cbn. by rewrite Hk, Hp.
    + intros j [->|Hj]%elem_of_cons; [by rewrite Hk|auto].
  - destruct (IsNotFound e) eqn:Hnf; [|done]. specialize (IH found (missing ++ [ip]) mac).
    destruct (find_all pod found (missing ++ [ip]) mac IPs w) as [[[[f m] c]|e'| |] w']; try done.
    destruct IH as (-> & fs & ms & -> & -> & -> & Hsub & Hp & Hfs & Hms). split; [done|].
    exists fs, (ip :: ms). rewrite <-app_assoc. split_and!; [done..|set_solver| |done|].
    + cbn. by rewrite <-Permutation_middle, Hp.
    + intros j [->|Hj]%elem_of_cons; [by apply Hg|auto].
Qed.

Lemma merge_labels_body node pod m :
  merge_meta (labels_body node pod) m =
  om_set_Labels (<[LabelPod := pod]> (<[LabelNode := node]> (om_Labels m))) m.
Proof. by destruct m. Qed.

(** The labels and then the status of every instance of the list. *)
Definition recoupled (pod : Pod) (i : V1IPInstance) (o : option V1IPInstance) : Prop :=
  o = Some (mkV1IPInstance
        (om_set_Labels (<[LabelPod := pod_Name pod]> (<[LabelNode := pod_NodeName pod]> (om_Labels (vi_Meta i)))) (vi_Meta i))
        (vi_Spec i)
        (mkIPInstanceStatus (pod_NodeName pod) IPPhaseUsing (pod_Name pod) (pod_Namespace pod) (ist_SandboxID (vi_Status i)))).

Definition relabelled (pod : Pod) (i : V1IPInstance) (o : option V1IPInstance) : Prop :=
  o = Some (vi_set_Meta
        (om_set_Labels (<[LabelPod := pod_Name pod]> (<[LabelNode := pod_NodeName pod]> (om_Labels (vi_Meta i)))) (vi_Meta i)) i).

Lemma post_labels_all pod l w :
  NoDup (ip_key <$> l) →
  (∀ i0, i0 ∈ l → ∃ i, ips w !! ip_key i0 = Some i ∧ om_Finalizers (vi_Meta i) ≠ []) →
  post (each (λ ipi, patchIPLabels ipi (pod_Name pod) (pod_NodeName pod)) l) w
    (λ o w', only (ip_key <$> l) w w' ∧
      match o with
      | Ret _ => ∀ i0, i0 ∈ l → ∃ i, ips w !! ip_key i0 = Some i ∧ relabelled pod i (ips w' !! ip_key i0)
      | Fail _ => ∀ i0, i0 ∈ l → same_spec i0 w (ips w' !! ip_key i0)
      | _ => False
      end).
Proof.
  intros Hnd Hl. eapply post_mono.
  - apply (post_each _ (λ i0 o, o = ips w !! ip_key i0)
      (λ i0 o, ∃ i, ips w !! ip_key i0 = Some i ∧ relabelled pod i o)); [done| |done].
    intros i0 w0 Hi0 E. destruct (Hl i0 Hi0) as (i & Hi & Hfin). rewrite Hi in E.
    eapply post_mono; [apply (post_patch_labels _ i0 w0 _ (λ o, ∃ i, ips w !! ip_key i0 = Some i ∧ relabelled pod i o)
                         i (patchIPLabels_effect _ _ _)); [done| |]|].
    + by rewrite merge_labels_body.
    + exists i. split; [done|]. by rewrite merge_labels_body.
    + intros o w' [Ho HQ]. split; [done|]. destruct o as [|e| |]; [done| |done|done].
      unfold ips in *. by rewrite HQ, E, Hi.
  - intros o w' [Ho HQ]. split; [done|]. destruct o as [u|e| |]; [done| |done|done].
    intros i0 Hi0. destruct (Hl i0 Hi0) as (i & Hi & _). destruct (HQ i0 Hi0) as [E|(i' & Hi' & E)].
    + rewrite E. by exists i, i.
    + unfold relabelled in E. rewrite E. exists i'. by eexists.
Qed.

(** Every instance is still there with its spec. *)
Definition kept w w' : Prop := ∀ k i, ips w !! k = Some i → ∃ i', ips w' !! k = Some i' ∧ vi_Spec i' = vi_Spec i.

Lemma kept_refl w w' : ips w' = ips w → kept w w'.
Proof. intros E k i Hk. exists i. by rewrite E. Qed.

Lemma kept_trans w w1 w2 : kept w w1 → kept w1 w2 → kept w w2.
Proof.
  intros H1 H2 k i Hk. destruct (H1 k i Hk) as (i1 & Hk1 & E1). destruct (H2 k i1 Hk1) as (i2 & Hk2 & E2).
  exists i2. split; [done|congruence].
Qed.

Lemma only_kept l w w' :
  only (ip_key <$> l) w w' →
  (∀ i0, i0 ∈ l → same_spec i0 w (ips w' !! ip_key i0)) →
  kept w w'.
Proof.
  intros [_ Ho] Hl k i Hk. destruct (decide (k ∈ ip_key <$> l)) as [Hin|Hin].
  - apply list_elem_of_fmap in Hin as (i0 & -> & Hi0). destruct (Hl i0 Hi0) as (j & i' & Hj & -> & E).
    exists i'. split; [done|congruence].
  - exists i. by rewrite Ho.
Qed.

(** The two loops over the instances and the annotation. *)
Definition recouple_rest (pod : Pod) (IPs : list IP) (l : list V1IPInstance) : M World unit :=
  each (λ ipi, patchIPLabels ipi (pod_Name pod) (pod_NodeName pod)) l;;
  each (λ ipi, updateIPStatus ipi (pod_NodeName pod) (pod_Name pod) (pod_Namespace pod) IPPhaseUsing) l;;
  patchIPsToPod pod IPs.

Lemma post_recouple_rest pod IPs l w :
  NoDup (ip_key <$> l) →
  (∀ i0, i0 ∈ l → ∃ i, ips w !! ip_key i0 = Some i ∧ om_Finalizers (vi_Meta i) ≠ []) →
  post (recouple_rest pod IPs l) w (λ o w', match o with
    | Ret _ => (∀ i0, i0 ∈ l → ∃ i, ips w !! ip_key i0 = Some i ∧ recoupled pod i (ips w' !! ip_key i0)) ∧
               ips_only (ip_key <$> l) w w' ∧ ∃ w1, pods w1 = pods w ∧ annotated pod (marshalIPs IPs) w1 w'
    | Fail _ => kept w w'
    | _ => False
    end).
Proof.
  intros Hnd Hl. unfold recouple_rest. apply post_bind.
  eapply post_mono; [by apply post_labels_all|]. intros o1 w1 [[Hp1 Ho1] H1].
  destruct o1 as [u1|e| |]; [| |done|done].
  2:{ by apply (only_kept l). }
  assert (kept w w1) as K1.
  { apply (only_kept l); [done|]. intros i0 Hi0. destruct (H1 i0 Hi0) as (j & Hj & ->). exists j. by eexists. }
  apply post_bind. eapply post_mono.
  { apply (post_status_all pod l w1 (λ i0 o, ∃ i, ips w !! ip_key i0 = Some i ∧ recoupled pod i o)); [done|].
    intros i0 Hi0. destruct (H1 i0 Hi0) as (j & Hj & ->). eexists. split; [done|]. by exists j. }
  intros o2 w2 [[Hp2 Ho2] H2]. destruct o2 as [u2|e| |]; [| |done|done].
  2:{ apply (kept_trans _ w1); [done|]. by apply (only_kept l). }
  eapply post_mono; [apply post_annotate|]. intros o3 w3 H3. destruct o3 as [u3|e| |]; [| |done|done].
  - destruct H3 as [E3 H3]. rewrite E3. split_and!; [done| |exists w2; split; [congruence|done]].
    intros k Hk. by rewrite E3, Ho2, Ho1.
  - apply (kept_trans _ w2); [|apply kept_refl; unfold ips; by rewrite H3].
    apply (only_kept l); [split; [congruence|intros; by rewrite Ho2, Ho1]|].
    intros i0 Hi0. destruct (H2 i0 Hi0) as (j & Hj & ->). exists j. by eexists.
Qed.

(** The instance of an address after [ReCouple]: the one that was there, or a
    new one with the MAC address [mac], with its labels and status. *)
Definition recoupled_ip (pod : Pod) (mac : string) (ip : IP) (before after : option V1IPInstance) : Prop :=
  match before with
  | Some i => recoupled pod i after
  | None => ∃ i0 uid, build_instance pod ip mac = Ret i0 ∧
              recoupled pod (vi_set_Meta (om_set_UID uid (vi_Meta i0)) i0) after
  end.

Lemma ReCouple_eq pod IPs rand w :
  DualStackWorker_ReCouple pod IPs rand w =
  match find_all pod [] [] (mac_text rand) IPs w with
  | (Ret (found, missingIPs, globalMac), w) =>
      let '(o, w, created) := create_all pod globalMac found missingIPs w in
      match o with
      | Ret _ => recouple_rest pod IPs created w
      | Fail e => (Fail e, w)
      | Panic => (Panic, w)
      | Diverge => (Diverge, w)
      end
  | (Fail e, w) => (Fail e, w)
  | (Panic, w) => (Panic, w)
  | (Diverge, w) => (Diverge, w)
  end.
Proof.
  unfold DualStackWorker_ReCouple, mac_text. unfold mbind at 1, M_bind at 1.
  destruct (find_all _ _ _ _ _ w) as [[[[f m] c]|e| |] w1]; try done.
  unfold mbind at 1, M_bind at 1. destruct (create_all pod c f m w1) as [[[u|e| |] w2] res]; done.
Qed.

(** The instances after the creation of the missing ones. *)
Lemma recouple_list pod mac IPs fs ms insts w w1 :
  (ip_key <$> fs) ++ (ip_key_of pod <$> ms) ≡ₚ ip_key_of pod <$> IPs →
  (∀ i, i ∈ fs → ips w !! ip_key i = Some i) → (∀ ip, ip ∈ ms → ips w !! ip_key_of pod ip = None) →
  NoDup (ip_key_of pod <$> IPs) →
  Forall2 (λ ip i0, build_instance pod ip mac = Ret i0) ms insts → ip_key <$> insts = ip_key_of pod <$> ms →
  only (ip_key <$> insts) w w1 → (∀ i0, i0 ∈ insts → created i0 (ips w1 !! ip_key i0)) →
  (∀ i, i ∈ fs → om_Finalizers (vi_Meta i) ≠ []) →
  NoDup (ip_key <$> fs ++ insts) ∧
  ∀ i0, i0 ∈ fs ++ insts → ∃ i, ips w1 !! ip_key i0 = Some i ∧ om_Finalizers (vi_Meta i) ≠ [] ∧
    ((i0 ∈ fs ∧ i = i0) ∨ ∃ ip uid, ip ∈ ms ∧ build_instance pod ip mac = Ret i0 ∧
        i = vi_set_Meta (om_set_UID uid (vi_Meta i0)) i0).
Proof.
  intros Hp Hfs Hms Hnd HF Hk [_ Ho] Hcr Hfin. split.
  { by rewrite fmap_app, Hk, Hp. }
  intros i0 [Hi0|Hi0]%elem_of_app.
  - exists i0. split; [|by split; [apply Hfin|left]]. rewrite Ho; [by apply Hfs|].
    rewrite Hk. intros (ip & E & Hip)%list_elem_of_fmap. pose proof (Hms ip Hip) as Hn.
    rewrite <-E, (Hfs i0 Hi0) in Hn. done.
  - destruct (Hcr i0 Hi0) as [uid E]. eexists. split; [exact E|].
    apply list_elem_of_lookup in Hi0 as [j Hj]. destruct (Forall2_lookup_r _ _ _ _ _ HF Hj) as (ip & Hip & Hb).
    split; [|right; exists ip, uid; split; [by eapply list_elem_of_lookup_2|done]].
    apply build_instance_key in Hb as (_ & _ & Hf & _). cbn. by rewrite Hf.
Qed.

Lemma recouple_at pod mac IPs fs ms insts w w1 (P : V1IPInstance → key → Prop) ip :
  (ip_key <$> fs) ++ (ip_key_of pod <$> ms) ≡ₚ ip_key_of pod <$> IPs → ms ⊆ IPs →
  (∀ i, i ∈ fs → ips w !! ip_key i = Some i) → (∀ ip, ip ∈ ms → ips w !! ip_key_of pod ip = None) →
  NoDup (ip_key_of pod <$> IPs) →
  Forall2 (λ ip i0, build_instance pod ip mac = Ret i0) ms insts → ip_key <$> insts = ip_key_of pod <$> ms →
  (∀ i, i ∈ fs → P i (ip_key i)) →
  (∀ i0, i0 ∈ insts → ∃ uid, P (vi_set_Meta (om_set_UID uid (vi_Meta i0)) i0) (ip_key i0)) →
  ip ∈ IPs →
  match ips w !! ip_key_of pod ip with
  | Some i => P i (ip_key_of pod ip)
  | None => ∃ i0 uid, build_instance pod ip mac = Ret i0 ∧
              P (vi_set_Meta (om_set_UID uid (vi_Meta i0)) i0) (ip_key_of pod ip)
  end.
Proof.
  intros Hp Hsub Hfs Hms Hnd HF Hk Pf Pi Hip.
  assert (ip_key_of pod ip ∈ (ip_key <$> fs) ++ (ip_key_of pod <$> ms)) as Hin
    by (rewrite Hp; by apply list_elem_of_fmap_2).
  apply elem_of_app in Hin as [(i & -> & Hi)%list_elem_of_fmap|(ip' & E & Hip')%list_elem_of_fmap].
  - rewrite (Hfs i Hi). by apply Pf.
  - assert (ip = ip') as <-.
    { apply Hsub, list_elem_of_lookup in Hip' as [b Hb]. apply list_elem_of_lookup in Hip as [a Ha].
      assert (a = b) as ->; [|congruence]. eapply (NoDup_lookup _ _ _ (ip_key_of pod ip) Hnd);
        rewrite list_lookup_fmap; [by rewrite Ha|by rewrite Hb, E]. }
    rewrite (Hms ip Hip'). apply list_elem_of_lookup in Hip' as [j Hj].
    destruct (Forall2_lookup_l _ _ _ _ _ HF Hj) as (i0 & Hi0 & Hb).
    assert (ip_key i0 = ip_key_of pod ip) as <-.
    { apply (f_equal (lookup j)) in Hk. rewrite !list_lookup_fmap, Hi0, Hj in Hk. cbn in Hk. congruence. }
    destruct (Pi i0) as [uid HP]; [by eapply list_elem_of_lookup_2|]. by exists i0, uid.
Qed.

(** Where the instances found by the first loop come from. *)
Lemma found_ip pod IPs fs ms w i :
  (ip_key <$> fs) ++ (ip_key_of pod <$> ms) ≡ₚ ip_key_of pod <$> IPs →
  (∀ i, i ∈ fs → ips w !! ip_key i = Some i) → i ∈ fs →
  ∃ ip, ip ∈ IPs ∧ ips w !! ip_key_of pod ip = Some i.
Proof.
  intros Hp Hfs Hi. assert (ip_key i ∈ ip_key_of pod <$> IPs) as (ip & E & Hip)%list_elem_of_fmap
    by (rewrite <-Hp; apply elem_of_app; left; by apply list_elem_of_fmap_2).
  exists ip. split; [done|]. rewrite <-E. by apply Hfs.
Qed.

Lemma recouple_mac pod mac0 IPs fs ms w :
  (ip_key <$> fs) ++ (ip_key_of pod <$> ms) ≡ₚ ip_key_of pod <$> IPs →
  (∀ i, i ∈ fs → ips w !! ip_key i = Some i) → (∀ ip, ip ∈ ms → ips w !! ip_key_of pod ip = None) →
  last_MAC mac0 fs = mac0 ∧ (∀ ip, ip ∈ IPs → ips w !! ip_key_of pod ip = None) ∨
  ∃ ip i, ip ∈ IPs ∧ ips w !! ip_key_of pod ip = Some i ∧ last_MAC mac0 fs = instance_MAC i.
Proof.
  intros Hp Hfs Hms. unfold last_MAC. destruct (last fs) as [i|] eqn:El.
  - right. apply last_Some in El as [fs' ->].
    destruct (found_ip pod IPs (fs' ++ [i]) ms w i Hp Hfs) as (ip & Hip & E); [set_solver|]. by exists ip, i.
  - left. apply last_None in El as ->. split; [done|]. intros ip Hip.
    assert (ip_key_of pod ip ∈ ip_key_of pod <$> ms) as (ip' & -> & Hip')%list_elem_of_fmap; [|by apply Hms].
    cbn in Hp. rewrite Hp. by apply list_elem_of_fmap_2.
Qed.

Lemma recouple_each pod mac IPs fs ms insts w w1 w2 :
  Forall ready IPs → (ip_key <$> fs) ++ (ip_key_of pod <$> ms) ≡ₚ ip_key_of pod <$> IPs → ms ⊆ IPs →
  (∀ i, i ∈ fs → ips w !! ip_key i = Some i) → (∀ ip, ip ∈ ms → ips w !! ip_key_of pod ip = None) →
  NoDup (ip_key_of pod <$> IPs) →
  Forall2 (λ ip i0, build_instance pod ip mac = Ret i0) ms insts → ip_key <$> insts = ip_key_of pod <$> ms →
  only (ip_key <$> insts) w w1 → (∀ i0, i0 ∈ insts → created i0 (ips w1 !! ip_key i0)) →
  (∀ i0, i0 ∈ fs ++ insts → ∃ i, ips w1 !! ip_key i0 = Some i ∧ recoupled pod i (ips w2 !! ip_key i0)) →
  ∀ ip, ip ∈ IPs → recoupled_ip pod mac ip (ips w !! ip_key_of pod ip) (ips w2 !! ip_key_of pod ip).
Proof.
  intros HF Hp Hsub Hfs Hms Hnd HB Hk [_ Ho] Hcr Hrec ip Hip. unfold recoupled_ip.
  apply (recouple_at pod mac IPs fs ms insts w w1 (λ i k, recoupled pod i (ips w2 !! k)) ip); try done.
  - intros i Hi. destruct (Hrec i) as (j & Hj & HR); [apply elem_of_app; by left|].
    rewrite Ho, (Hfs i Hi) in Hj; [by simplify_eq|]. rewrite Hk.
    intros (ip' & E & Hip')%list_elem_of_fmap. pose proof (Hms ip' Hip') as Hn.
    rewrite <-E, (Hfs i Hi) in Hn. done.
  - intros i0 Hi0. destruct (Hrec i0) as (j & Hj & HR); [apply elem_of_app; by right|].
    destruct (Hcr i0 Hi0) as [uid Hu]. exists uid. congruence.
Qed.

Lemma post_ReCouple pod IPs rand w :
  Forall ready IPs → NoDup (ip_key_of pod <$> IPs) →
  (∀ ip i, ip ∈ IPs → ips w !! ip_key_of pod ip = Some i → om_Finalizers (vi_Meta i) ≠ []) →
  post (DualStackWorker_ReCouple pod IPs rand) w (λ o w', match o with
    | Ret _ => ∃ mac,
        (∀ ip, ip ∈ IPs → recoupled_ip pod mac ip (ips w !! ip_key_of pod ip) (ips w' !! ip_key_of pod ip)) ∧
        (mac = mac_text rand ∧ (∀ ip, ip ∈ IPs → ips w !! ip_key_of pod ip = None) ∨
         ∃ ip i, ip ∈ IPs ∧ ips w !! ip_key_of pod ip = Some i ∧ mac = instance_MAC i) ∧
        ips_only (ip_key_of pod <$> IPs) w w' ∧ ∃ w1, pods w1 = pods w ∧ annotated pod (marshalIPs IPs) w1 w'
    | Fail _ => kept w w'
    | _ => False
    end).
Proof.
  intros HF Hnd Hfin. pose proof (find_all_spec pod [] [] (mac_text rand) IPs w HF) as Hs.
  unfold post. rewrite ReCouple_eq. cbn [app] in Hs.
  destruct (find_all pod [] [] (mac_text rand) IPs w) as [[[[f m] c]|e| |] w']; [|subst; by apply kept_refl|done..].
  destruct Hs as (-> & fs & ms & -> & -> & -> & Hsub & Hp & Hfs & Hms). set (mac := last_MAC _ fs).
  destruct (ready_build_all pod ms mac) as (insts & HB & Hk).
  { rewrite Forall_forall in *. auto. }
  assert (NoDup (ip_key <$> insts)) as Hndi.
  { rewrite Hk. rewrite <-Hp in Hnd. by apply NoDup_app in Hnd as (_ & _ & ?). }
  pose proof (create_all_spec pod mac fs ms insts w HB Hndi) as Hc.
  destruct (create_all pod mac fs ms w) as [[o w1] res]. destruct Hc as (don & rest & -> & -> & Ho & Hd & Hout).
  assert (kept w w1) as K1.
  { intros k i Hki. exists i. split; [|done]. destruct Ho as [_ Ho]. rewrite Ho; [done|].
    intros (i0 & -> & Hi0)%list_elem_of_fmap. destruct (Hd i0 Hi0) as [Hn _]. congruence. }
  destruct o as [u|e| |]; [|exact K1|done|done].
  subst rest. rewrite app_nil_r in *.
  assert (∀ i, i ∈ fs → om_Finalizers (vi_Meta i) ≠ []) as Hff.
  { intros i Hi. destruct (found_ip pod IPs fs ms w i Hp Hfs Hi) as (ip & Hip & E). by apply (Hfin ip). }
  destruct (recouple_list pod mac IPs fs ms don w w1 Hp Hfs Hms Hnd HB Hk Ho (λ i0 Hi0, proj2 (Hd i0 Hi0)) Hff)
    as [Hndl Hl].
  pose proof (post_recouple_rest pod IPs (fs ++ don) w1 Hndl) as Hr. unfold post in Hr.
  destruct (recouple_rest pod IPs (fs ++ don) w1) as [o' w2]. cbn [fst snd] in *.
  specialize (Hr ltac:(intros i0 Hi0; destruct (Hl i0 Hi0) as (i & ? & ? & _); by exists i)).
  destruct o' as [u'|e| |]; [|by eapply kept_trans|done|done]. destruct Hr as (Hrec & Hio & w3 & Hp3 & Hann).
  exists mac. split_and!.
  - apply (recouple_each pod mac IPs fs ms don w w1 w2); try done. intros i0 Hi0. by apply Hd.
  - by apply (recouple_mac pod _ IPs fs ms).
  - intros k Hkn. rewrite Hio.
    + destruct Ho as [_ Ho]. apply Ho. rewrite Hk. intros Hin. apply Hkn. rewrite <-Hp. apply elem_of_app. by right.
    + rewrite fmap_app, Hk, Hp. done.
  - exists w3. split; [|done]. destruct Ho as [Hpo _]. congruence.
Qed.

(** ** DeCouple and IPReserve *)

(** The instance belongs to the pod: its namespace and label say so. *)
Definition of_pod (pod : Pod) (i : V1IPInstance) : Prop := opts_match (pod_opts pod) (vi_Meta i).

Lemma list_keys opts w l :
  r_ListIPInstances (reader w) opts = Ret l →
  NoDup (ip_key <$> l) ∧ ∀ i, i ∈ l ↔ ips w !! ip_key i = Some i ∧ opts_match opts (vi_Meta i).
Proof.
  intros E. pose proof (List_IPInstances_law opts w) as Hl. rewrite E in Hl. destruct Hl as [Hnd Hl].
  split; [|exact Hl]. apply NoDup_fmap_2_strong; [|done]. intros i j Hi Hj Hk.
  apply Hl in Hi as [Hi _]. apply Hl in Hj as [Hj _]. rewrite Hk in Hi. congruence.
Qed.

Lemma list_outcome opts w : r_ListIPInstances (reader w) opts ≠ Panic ∧ r_ListIPInstances (reader w) opts ≠ Diverge.
Proof. pose proof (List_IPInstances_law opts w) as Hl. split; intros E; by rewrite E in Hl. Qed.

(** What the loop over the pod's instances and the removal of the annotation
    leave: [Ψ] on the instances of the pod, the others as they were. *)
Definition pod_done (Ψ : V1IPInstance → option V1IPInstance → Prop) (pod : Pod) w w' : Prop :=
  (∀ k i, ips w !! k = Some i → of_pod pod i → Ψ i (ips w' !! k)) ∧
  (∀ k, (∀ i, ips w !! k = Some i → ¬ of_pod pod i) → ips w' !! k = ips w !! k).

Lemma post_pod_loop (f : V1IPInstance → M World unit) (Ψ : V1IPInstance → option V1IPInstance → Prop) pod w :
  (∀ i w0, of_pod pod i → ips w0 !! ip_key i = Some i →
     post (f i) w0 (λ o w', only [ip_key i] w0 w' ∧
       match o with Ret _ => Ψ i (ips w' !! ip_key i) | Fail _ => view w' = view w0 | _ => False end)) →
  post (w ← get; l ← lift (r_ListIPInstances (reader w) (pod_opts pod)); each f l;; releaseIPFromPod pod) w
    (λ o w', match o with
      | Ret _ => pod_done Ψ pod w w' ∧ ∃ w1, pods w1 = pods w ∧ unannotated pod w1 w'
      | Fail _ => pod_done (λ i o, o = Some i ∨ Ψ i o) pod w w' ∧ pods w' = pods w
      | _ => False
      end).
Proof.
  intros Hf. unfold post. rewrite bind_get. change (post
    (l ← lift (r_ListIPInstances (reader w) (pod_opts pod)); each f l;; releaseIPFromPod pod) w
    (λ o w', match o with
      | Ret _ => pod_done Ψ pod w w' ∧ ∃ w1, pods w1 = pods w ∧ unannotated pod w1 w'
      | Fail _ => pod_done (λ i o, o = Some i ∨ Ψ i o) pod w w' ∧ pods w' = pods w
      | _ => False end)).
  apply post_bind. destruct (list_outcome (pod_opts pod) w) as [Hn1 Hn2].
  destruct (r_ListIPInstances (reader w) (pod_opts pod)) as [l|e| |] eqn:El; try done; unfold post at 1, lift; cbn [fst snd].
  2:{ split; [|done]. split; [by left|done]. }
  destruct (list_keys _ _ _ El) as [Hnd Hl]. apply post_bind.
  assert (∀ (Ψ' : V1IPInstance → option V1IPInstance → Prop) w', ips_only (ip_key <$> l) w w' →
    (∀ i, i ∈ l → Ψ' i (ips w' !! ip_key i)) → pod_done Ψ' pod w w') as Hdone.
  { intros Ψ' w' Ho HΨ. split.
    - intros k i Hk Hi. assert (ip_key i = k) as <- by (by apply (view_keys w)). apply HΨ, Hl. by split.
    - intros k Hk. apply Ho. intros (i & -> & Hi)%list_elem_of_fmap. apply Hl in Hi as [Hi Hm]. by apply (Hk i). }
  eapply post_mono; [apply (post_each f (λ i o, o = Some i) Ψ l w Hnd)|].
  - intros i w0 Hi E. eapply post_mono; [apply Hf; [by apply Hl|done]|].
    intros o w' [Ho HQ]. split; [done|]. destruct o; try done. unfold ips in *. by rewrite HQ.
  - intros i Hi. by apply Hl.
  - intros o w1 [Ho HQ]. destruct o as [u|e| |]; [| |done|done].
    2:{ split; [exact (Hdone (λ i o, o = Some i ∨ Ψ i o) w1 (proj2 Ho) HQ)|apply Ho]. }
    eapply post_mono; [apply post_releaseIPFromPod|]. intros o2 w2 H2. destruct o2 as [u2|e| |]; [| |done|done].
    + split; [|exists w1; split; [apply Ho|done]]. destruct H2 as [E _].
      apply (Hdone Ψ); unfold ips_only; rewrite E; [exact (proj2 Ho)|done].
    + split; [|unfold pods in *; rewrite H2; apply Ho].
      apply Hdone; unfold ips_only, ips; rewrite H2; [exact (proj2 Ho)|]. intros i Hi. right. by apply HQ.
Qed.

(** The instance after [IPReserve]. *)
Definition reserved (pod : Pod) (i : V1IPInstance) (o : option V1IPInstance) : Prop :=
  o = Some (mkV1IPInstance (vi_Meta i) (vi_Spec i)
        (mkIPInstanceStatus "" IPPhaseReserved (pod_Name pod) (pod_Namespace pod) (ist_SandboxID (vi_Status i)))).

Lemma post_DeCouple pod w :
  nonempty (annotation (pod_Meta pod) AnnotationIP) = true →
  post (Worker_DeCouple pod) w (λ o w', match o with
    | Ret _ => pod_done (λ _ o, marked o) pod w w' ∧ ∃ w1, pods w1 = pods w ∧ unannotated pod w1 w'
    | Fail _ => pod_done (λ i o, o = Some i ∨ marked o) pod w w' ∧ pods w' = pods w
    | _ => False
    end).
Proof.
  intros Ha. unfold Worker_DeCouple. rewrite Ha. cbn [negb]. apply post_pod_loop.
  intros i w0 [Hns _] Hi. cbn in Hns. rewrite <-Hns. apply post_delete.
Qed.

Lemma post_IPReserve pod w :
  nonempty (annotation (pod_Meta pod) AnnotationIP) = true →
  post (Worker_IPReserve pod) w (λ o w', match o with
    | Ret _ => pod_done (reserved pod) pod w w' ∧ ∃ w1, pods w1 = pods w ∧ unannotated pod w1 w'
    | Fail _ => pod_done (λ i o, o = Some i ∨ reserved pod i o) pod w w' ∧ pods w' = pods w
    | _ => False
    end).
Proof.
  intros Ha. unfold Worker_IPReserve. rewrite Ha. cbn [negb]. apply post_pod_loop.
  intros i w0 _ Hi.
  apply (post_patch_status _ i w0 _ (reserved pod i) i (updateIPStatus_effect _ _ _ _ _)); [done|].
  unfold reserved. by rewrite merge_status_body.
Qed.
End lemmas.

(** ** Properties *)

Section properties.
Context `{A : ApiMachinery} `{Settings} {C : Client} {L : ClientLaws}.

(** C20: dual-stack [Couple] of addresses with distinct names either returns
    with one new instance per address, all with one MAC address, in use by the
    pod, with the pod annotated and nothing else changed; or it fails after
    the clean-up of the instances it made: every instance that existed before
    is as it was, no name but those of the addresses is touched, and each new
    instance is gone or terminating, unless the API server answered the
    clean-up's deletion of it by an error, which the code ignores.  It never
    panics. *)
Theorem Couple_all_or_nothing pod IPs rand w :
  Forall ready IPs → NoDup (ip_key_of pod <$> IPs) →
  post (DualStackWorker_Couple pod IPs rand) w (λ o w', match o with
    | Ret _ => (∀ ip, ip ∈ IPs → ips w !! ip_key_of pod ip = None ∧
                  ∃ i0, build_instance pod ip (mac_text rand) = Ret i0 ∧ coupled pod i0 (ips w' !! ip_key_of pod ip)) ∧
               ips_only (ip_key_of pod <$> IPs) w w' ∧
               ∃ w1, pods w1 = pods w ∧ annotated pod (marshalIPs IPs) w1 w'
    | Fail _ => (∀ k i, ips w !! k = Some i → ips w' !! k = Some i) ∧ ips_only (ip_key_of pod <$> IPs) w w' ∧
               ∃ made wc, cleanup made wc = (Ret tt, w') ∧
                 ∀ k, ips w !! k = None → marked (ips w' !! k) ∨ refused made wc k
    | _ => False
    end).
Proof.
  intros Hr Hnd. destruct (ready_build_all pod IPs (mac_text rand) Hr) as (insts & HF & Hk).
  rewrite <-Hk in Hnd. eapply post_mono; [by apply (post_Couple pod IPs rand w insts)|].
  intros o w' H'. destruct o as [u|e| |]; [|rewrite <-Hk; destruct H' as [[? ?] ?]; done|done|done]. destruct H' as (Hc & Ho & Ha).
  rewrite <-Hk. split_and!; [|done|done]. intros ip Hip.
  apply list_elem_of_lookup in Hip as [j Hj]. destruct (Forall2_lookup_l _ _ _ _ _ HF Hj) as (i0 & Hi0 & Hb).
  assert (ip_key i0 = ip_key_of pod ip) as <-.
  { apply (f_equal (lookup j)) in Hk. rewrite !list_lookup_fmap, Hi0, Hj in Hk. cbn in Hk. congruence. }
  apply list_elem_of_lookup_2 in Hi0. split; [by apply Hc|]. exists i0. split; [done|by apply Hc].
Qed.

(** C21: dual-stack [ReCouple] gives every address an instance in use by the
    pod: the one that was there, with its spec kept, or a new one; the new ones
    share the MAC address of an instance that was found, if there was one.
    When it fails, every instance is still there with its spec. *)
Theorem ReCouple_reuses pod IPs rand w :
  Forall ready IPs → NoDup (ip_key_of pod <$> IPs) →
  (∀ ip i, ip ∈ IPs → ips w !! ip_key_of pod ip = Some i → om_Finalizers (vi_Meta i) ≠ []) →
  post (DualStackWorker_ReCouple pod IPs rand) w (λ o w', match o with
    | Ret _ => ∃ mac,
        (∀ ip, ip ∈ IPs → recoupled_ip pod mac ip (ips w !! ip_key_of pod ip) (ips w' !! ip_key_of pod ip)) ∧
        (mac = mac_text rand ∧ (∀ ip, ip ∈ IPs → ips w !! ip_key_of pod ip = None) ∨
         ∃ ip i, ip ∈ IPs ∧ ips w !! ip_key_of pod ip = Some i ∧ mac = instance_MAC i) ∧
        ips_only (ip_key_of pod <$> IPs) w w' ∧ ∃ w1, pods w1 = pods w ∧ annotated pod (marshalIPs IPs) w1 w'
    | Fail _ => ∀ k i, ips w !! k = Some i → ∃ i', ips w' !! k = Some i' ∧ vi_Spec i' = vi_Spec i
    | _ => False
    end).
Proof. apply post_ReCouple. Qed.

(** C22: for a pod with the IP annotation, [DeCouple] deletes and [IPReserve]
    reserves exactly the instances labelled with the pod in its namespace and
    removes the annotation; when they fail, each of these instances is as it
    was or already dealt with.  Without the annotation they do nothing. *)
Theorem DeCouple_IPReserve_exact pod w :
  (nonempty (annotation (pod_Meta pod) AnnotationIP) = false →
   DualStackWorker_DeCouple pod w = (Ret tt, w) ∧ DualStackWorker_IPReserve pod w = (Ret tt, w)) ∧
  (nonempty (annotation (pod_Meta pod) AnnotationIP) = true →
   post (DualStackWorker_DeCouple pod) w (λ o w', match o with
     | Ret _ => pod_done (λ _ o, marked o) pod w w' ∧ ∃ w1, pods w1 = pods w ∧ unannotated pod w1 w'
     | Fail _ => pod_done (λ i o, o = Some i ∨ marked o) pod w w' ∧ pods w' = pods w
     | _ => False
     end) ∧
   post (DualStackWorker_IPReserve pod) w (λ o w', match o with
     | Ret _ => pod_done (reserved pod) pod w w' ∧ ∃ w1, pods w1 = pods w ∧ unannotated pod w1 w'
     | Fail _ => pod_done (λ i o, o = Some i ∨ reserved pod i o) pod w w' ∧ pods w' = pods w
     | _ => False
     end)).
Proof.
  split.
  - intros Ha. unfold DualStackWorker_DeCouple, DualStackWorker_IPReserve, Worker_DeCouple, Worker_IPReserve.
    by rewrite Ha.
  - intros Ha. split; [by apply post_DeCouple|by apply post_IPReserve].
Qed.
End properties.

(** ** Runs on a concrete server *)

Definition w_settings : Settings := {|
  DualStackEnabled := true; MultiClusterEnabled := false; DEFAULT_IP_FAMILY := ""; DEFAULT_NETWORK_TYPE := "";
  DefaultIPRetain := true; StatefulWorkloadKinds := ["StatefulSet"]
|}.

Definition w_meta (name : string) : ObjectMeta := mkObjectMeta name "default" "" ∅ ∅ [] [] None.
Definition w_pod : Pod := mkPod (w_meta "web-0") "node1" false None [] ["c"] "Pending" "" [].
Definition w_annotated_pod : Pod :=
  pod_set_Meta (om_set_Annotations {[AnnotationIP := "[]"]} (w_meta "web-0")) w_pod.

Definition w_coupled_ips : list IP := [
  mkIP (Some (mkIPNet (ParseIP "192.168.0.5") (CIDRMask 24 32))) (ParseIP "192.168.0.1") (Some 7) "v4" "net" "web-0" "default" "Using";
  mkIP (Some (mkIPNet (ParseIP "fd00::5") (CIDRMask 64 128))) [] (Some 7) "v6" "net" "web-0" "default" "Using"].

Definition w_world : View := mkView ∅ {[("default", "web-0") := w_meta "web-0"]}.

Definition w_couple : outcome unit * View :=
  DualStackWorker_Couple (H := api_concrete) (H0 := w_settings) (H1 := kube_concrete) w_pod w_coupled_ips [1; 2; 3] w_world.

Lemma w_ready : Forall ready w_coupled_ips.
Proof. repeat constructor; by eexists. Qed.

Lemma Couple_all_or_nothing_witness :
  w_couple.1 = Ret tt ∧ ∀ ip, ip ∈ w_coupled_ips → is_Some (ips (L := kube_laws) w_couple.2 !! ip_key_of w_pod ip).
Proof.
  assert (w_couple.1 = Ret tt) as E by (vm_compute; reflexivity). split; [exact E|].
  pose proof (Couple_all_or_nothing (A := api_concrete) (H := w_settings) (L := kube_laws) w_pod w_coupled_ips [1; 2; 3] w_world
    w_ready ltac:(apply (bool_decide_unpack _); vm_compute; exact I)) as Hp.
  apply (post_eq _ _ w_couple.1 w_couple.2 _ (surjective_pairing w_couple)) in Hp. rewrite E in Hp. destruct Hp as [Hp _].
  intros ip Hip. destruct (Hp ip Hip) as (_ & i0 & _ & uid & Hi). rewrite Hi. by eexists.
Defined.

(** One of the two instances is there, with another MAC address. *)
Definition w_half : View :=
  (DualStackWorker_Couple (H := api_concrete) (H0 := w_settings) (H1 := kube_concrete) w_pod
     (take 1 w_coupled_ips) [9; 9; 9] w_world).2.

Definition w_recouple : outcome unit * View :=
  DualStackWorker_ReCouple (H := api_concrete) (H0 := w_settings) (H1 := kube_concrete) w_pod w_coupled_ips [1; 2; 3] w_half.

Lemma ReCouple_reuses_witness :
  w_recouple.1 = Ret tt ∧ ∀ ip, ip ∈ w_coupled_ips → is_Some (ips (L := kube_laws) w_recouple.2 !! ip_key_of w_pod ip).
Proof.
  assert (w_recouple.1 = Ret tt) as E by (vm_compute; reflexivity). split; [exact E|].
  assert (map_Forall (λ _ i, om_Finalizers (vi_Meta i) ≠ []) (ips (L := kube_laws) w_half)) as Ht.
  { apply (bool_decide_unpack _). vm_compute. exact I. }
  pose proof (ReCouple_reuses (A := api_concrete) (H := w_settings) (L := kube_laws) w_pod w_coupled_ips [1; 2; 3] w_half
    w_ready ltac:(apply (bool_decide_unpack _); vm_compute; exact I) (λ ip i _ Hi, Ht _ _ Hi)) as Hp.
  apply (post_eq _ _ w_recouple.1 w_recouple.2 _ (surjective_pairing w_recouple)) in Hp. rewrite E in Hp.
  destruct Hp as (mac & Hp & _).
  intros ip Hip. specialize (Hp ip Hip). unfold recoupled_ip in Hp.
  destruct (ips (L := kube_laws) w_half !! ip_key_of w_pod ip) as [i|]; [rewrite Hp; by eexists|].
  destruct Hp as (i0 & uid & _ & Hp). rewrite Hp. by eexists.
Defined.

Definition w_release : outcome unit * View :=
  DualStackWorker_DeCouple (H1 := kube_concrete) w_annotated_pod w_couple.2.

Lemma DeCouple_IPReserve_exact_witness :
  w_release.1 = Ret tt ∧ ∀ k i, ips (L := kube_laws) w_couple.2 !! k = Some i → of_pod w_annotated_pod i →
    marked (ips (L := kube_laws) w_release.2 !! k).
Proof.
  assert (w_release.1 = Ret tt) as E by (vm_compute; reflexivity). split; [exact E|].
  destruct (DeCouple_IPReserve_exact (A := api_concrete) (L := kube_laws) w_annotated_pod w_couple.2) as [_ Hp].
  destruct Hp as [Hp _]; [vm_compute; reflexivity|]. apply (post_eq _ _ w_release.1 w_release.2 _ (surjective_pairing w_release)) in Hp. rewrite E in Hp.
  apply Hp.
Defined.
