(* ===== verification/ClientUtils.v ===== *)
(** * Reads of the API server (pkg/controllers/utils/client.go)

    Each helper reads through the client [r : Reader]. *)

From S2P Require Import Prelude GoNet GoStrings NetworkingV1 MulticlusterV1 Kubernetes Config IPAMTypes Names KubeClient.

Section client_utils.
Context `{ApiMachinery}.
Implicit Types r : Reader.

Definition ListNetworks r : outcome (list V1Network) := r_ListNetworks r.
Definition utils_GetNetwork r (name : string) : outcome V1Network := r_GetNetwork r name.
Definition ListSubnets r : outcome (list V1Subnet) := r_ListSubnets r.
Definition utils_GetSubnet r (name : string) : outcome V1Subnet := r_GetSubnet r name.
Definition ListIPInstances r (opts : ListOptions) : outcome (list V1IPInstance) := r_ListIPInstances r opts.

Definition ListNodesToNames r (opts : ListOptions) : outcome (list string) :=
  nodeList ← r_ListNodes r opts;
  Ret (map (λ n, om_Name (node_Meta n)) nodeList).

(** [opts] tells the subnets that the list options select. *)
Definition ListSubnetsToNames r (opts : V1Subnet → bool) : outcome (list string) :=
  subnetList ← ListSubnets r;
  Ret (map (λ s, om_Name (vs_Meta s)) (filter (λ s, opts s = true) subnetList)).

Definition ListRemoteSubnets r : outcome (list RemoteSubnet) := r_ListRemoteSubnets r.
Definition ListRemoteVteps r : outcome (list RemoteVtep) := r_ListRemoteVteps r.
Definition ListRemoteClusters r : outcome (list RemoteCluster) := r_ListRemoteClusters r.
Definition GetRemoteCluster r (name : string) : outcome RemoteCluster := r_GetRemoteCluster r name.

(** The loop that looks for the first element with a property. *)
Definition find_first {B} (P : B → bool) (l : list B) : option B :=
  snd <$> list_find (λ x, P x = true) l.

Definition underlay_matches (nodeLabels : gmap string string) (network : V1Network) : bool :=
  let selector := default ∅ (ns_NodeSelector (vn_Spec network)) in
  negb (bool_decide (ns_Type (vn_Spec network) = NetworkTypeOverlay)) && negb (bool_decide (selector = ∅)) &&
  SelectorMatches selector nodeLabels.

Definition FindUnderlayNetworkForNode r (nodeLabels : gmap string string) : outcome string :=
  networkList ← ListNetworks r;
  Ret (match find_first (underlay_matches nodeLabels) networkList with
       | Some network => om_Name (vn_Meta network)
       | None => ""
       end).

Definition FindUnderlayNetworkForNodeName r (nodeName : string) : outcome string :=
  node ← r_GetNode r nodeName;
  FindUnderlayNetworkForNode r (om_Labels (node_Meta node)).

Definition is_overlay (network : V1Network) : bool := bool_decide (ns_Type (vn_Spec network) = NetworkTypeOverlay).

Definition FindOverlayNetwork r : outcome string :=
  networkList ← ListNetworks r;
  Ret (match find_first is_overlay networkList with
       | Some network => om_Name (vn_Meta network)
       | None => ""
       end).

Definition FindOverlayNetworkNetID r : outcome (option Z) :=
  networkList ← ListNetworks r;
  match find_first is_overlay networkList with
  | Some network => Ret (ns_NetID (vn_Spec network))
  | None => Fail (Errorf "no overlay network found" [])
  end.

Definition DetectNetworkAttachmentOfNode r (node : Node) : outcome (bool * bool) :=
  underlayNetworkName ← FindUnderlayNetworkForNode r (om_Labels (node_Meta node));
  overlayNetworkName ← FindOverlayNetwork r;
  Ret (nonempty underlayNetworkName, nonempty overlayNetworkName).

(** The instances of a pod by status; those being deleted are skipped. *)
Definition live_of_pod (pod : Pod) (ip : V1IPInstance) : bool :=
  bool_decide (ist_PodName (vi_Status ip) = pod_Name pod) &&
  bool_decide (om_DeletionTimestamp (vi_Meta ip) = None).

Definition in_namespace (ns : string) : ListOptions := mkListOptions (Some ns) ∅.

Definition ListAllocatedIPInstancesOfPod r (pod : Pod) : outcome (list V1IPInstance) :=
  ipList ← ListIPInstances r (in_namespace (pod_Namespace pod));
  Ret (filter (λ ip, live_of_pod pod ip = true) ipList).

Definition GetIPOfPod r (pod : Pod) : outcome string :=
  ipList ← ListIPInstances r (in_namespace (pod_Namespace pod));
  Ret (match find_first (live_of_pod pod) ipList with
       | Some ip => ToIPFormat (om_Name (vi_Meta ip))
       | None => ""
       end).

(** The IPv4 addresses first, then the IPv6 addresses. *)
Definition ListIPsOfPod r (pod : Pod) : outcome (list string) :=
  ipList ← ListIPInstances r (in_namespace (pod_Namespace pod));
  let formats := map (λ ip, ToIPFormatWithFamily (om_Name (vi_Meta ip))) (filter (λ ip, live_of_pod pod ip = true) ipList) in
  Ret (map fst (filter (λ f, f.2 = false) formats) ++ map fst (filter (λ f, f.2 = true) formats)).

Definition GetClusterUUID r : outcome string :=
  namespace ← r_GetNamespace r "kube-system";
  Ret (om_UID (nsp_Meta namespace)).
End client_utils.
