(* ===== verification/UUIDMutex.v ===== *)
(** * The lock on cluster UUIDs (pkg/controllers/multicluster/uuid_mutex.go)

    Every cluster of a federation is known under one name: a UUID is locked
    by a name until it is unlocked.  The methods hold the mutex from their
    first to their last step, so each is one transition of the two maps. *)

From S2P Require Import Prelude GoNet GoStrings NetworkingV1 MulticlusterV1 Kubernetes Config IPAMTypes Names KubeClient ClientUtils.

(** ** State and methods *)

Record uuidMutex := mkUuidMutex { idNameMap : gmap string string; nameLatestIDMap : gmap string string }.

Definition Lock (UUID name : string) : M uuidMutex bool :=
  if negb (nonempty UUID) then fail (Errorf "invalid empty UUID" [])
  else
    u ← get;
    match idNameMap u !! UUID with
    | Some currentName =>
        if decide (currentName = name) then
          put (mkUuidMutex (idNameMap u) (<[name := UUID]> (nameLatestIDMap u)));;
          mret false
        else fail (Errorf "UUID %s already locked by %s" [UUID; currentName])
    | None =>
        put (mkUuidMutex (<[UUID := name]> (idNameMap u)) (<[name := UUID]> (nameLatestIDMap u)));;
        mret true
    end.

Definition Unlock (UUID : string) : M uuidMutex bool :=
  u ← get;
  match idNameMap u !! UUID with
  | Some name =>
      put (mkUuidMutex (delete UUID (idNameMap u))
             (if decide (nameLatestIDMap u !! name = Some UUID)
              then delete name (nameLatestIDMap u) else nameLatestIDMap u));;
      mret true
  | None => mret false
  end.

(** The zero value when there is none. *)
Definition GetLatestUUID (name : string) : M uuidMutex (bool * string) :=
  u ← get;
  mret (bool_decide (is_Some (nameLatestIDMap u !! name)), default "" (nameLatestIDMap u !! name)).

(** [order] holds the entries of the map in the order of the [range]
    statement, which Go leaves open. *)
Definition GetUUIDs (order : list (string * string)) (name : string) : list string :=
  fst <$> filter (λ e, e.2 = name) order.

Definition NewUUIDMutex : uuidMutex := mkUuidMutex ∅ ∅.

(** The entries that are locked for the remote clusters, in order. *)
Definition remote_locks (l : list RemoteCluster) : list (string * string) :=
  map (λ rc, (rc_UUID (rc_Status rc), om_Name (rc_Meta rc))) (filter (λ rc, nonempty (rc_UUID (rc_Status rc)) = true) l).

Fixpoint lock_all (l : list (string * string)) : M uuidMutex unit :=
  match l with
  | [] => mret tt
  | (UUID, name) :: l => Lock UUID name;; lock_all l
  end.

Definition NewUUIDMutexFromClient (c : Reader) : outcome uuidMutex :=
  localUUID ← GetClusterUUID c;
  match Lock localUUID "LocalCluster" NewUUIDMutex with
  | (Ret _, mutex) =>
      remoteClusterList ← ListRemoteClusters c;
      match lock_all (remote_locks remoteClusterList) mutex with
      | (Ret _, mutex) => Ret mutex
      | (Fail err, _) => Fail err
      | (Panic, _) => Panic
      | (Diverge, _) => Diverge
      end
  | (Fail err, _) => Fail err
  | (Panic, _) => Panic
  | (Diverge, _) => Diverge
  end.

(** ** Histories *)

Inductive mutex_op := OLock (UUID name : string) | OUnlock (UUID : string).

Definition run_mutex (op : mutex_op) (u : uuidMutex) : uuidMutex :=
  match op with OLock UUID name => (Lock UUID name u).2 | OUnlock UUID => (Unlock UUID u).2 end.

Definition run_mutexes (ops : list mutex_op) (u : uuidMutex) : uuidMutex := foldl (λ u op, run_mutex op u) u ops.

(** The latest UUID of a name is one of the UUIDs that it holds. *)
Record mutex_wf (u : uuidMutex) : Prop := {
  mw_latest name UUID : nameLatestIDMap u !! name = Some UUID → idNameMap u !! UUID = Some name;
  mw_nonempty UUID name : idNameMap u !! UUID = Some name → nonempty UUID = true
}.

Lemma mutex_wf_new : mutex_wf NewUUIDMutex.
Proof. split; cbn; intros ? ? H; by rewrite lookup_empty in H. Qed.

(** The effect of [Lock], branch by branch. *)
Lemma Lock_cases UUID name u :
  (nonempty UUID = false ∧ ∃ e, Lock UUID name u = (Fail e, u)) ∨
  nonempty UUID = true ∧
  ((∃ name', idNameMap u !! UUID = Some name' ∧ name' ≠ name ∧ ∃ e, Lock UUID name u = (Fail e, u)) ∨
   (idNameMap u !! UUID = Some name ∧
    Lock UUID name u = (Ret false, mkUuidMutex (idNameMap u) (<[name := UUID]> (nameLatestIDMap u)))) ∨
   (idNameMap u !! UUID = None ∧
    Lock UUID name u = (Ret true, mkUuidMutex (<[UUID := name]> (idNameMap u)) (<[name := UUID]> (nameLatestIDMap u))))).
Proof.
  unfold Lock. destruct (nonempty UUID); cbn [negb]; [right|left; eauto]. split; [done|].
  m_run. destruct (idNameMap u !! UUID) as [name'|] eqn:E; [|right; right; done].
  case_decide as Hd; [right; left|left]; [by subst|]. exists name'. eauto.
Qed.

Lemma mutex_wf_lock_fresh UUID name u :
  mutex_wf u → nonempty UUID = true → idNameMap u !! UUID = None ∨ idNameMap u !! UUID = Some name →
  mutex_wf (mkUuidMutex (<[UUID := name]> (idNameMap u)) (<[name := UUID]> (nameLatestIDMap u))).
Proof.
  intros [Hl Hn] Hne HU. split; cbn; intros a b.
  - intros [[<- <-]|[Hna Ha]]%lookup_insert_Some; [by rewrite lookup_insert_eq|].
    apply Hl in Ha. destruct (decide (UUID = b)) as [->|]; [|by rewrite lookup_insert_ne].
    destruct HU as [HU|HU]; congruence.
  - intros [[<- <-]|[Hna Ha]]%lookup_insert_Some; [done|]. by eapply Hn.
Qed.

Lemma run_mutex_wf op u : mutex_wf u → mutex_wf (run_mutex op u).
Proof.
  intros Hu. destruct op as [UUID name|UUID]; cbn [run_mutex].
  - destruct (Lock_cases UUID name u) as [(_ & e & ->)|(Hne & [(? & _ & _ & e & ->)|[[HU ->]|[HU ->]]])]; try done; cbn [snd].
    + pose proof (mutex_wf_lock_fresh UUID name u Hu Hne (or_intror HU)) as H. by rewrite insert_id in H.
    + apply mutex_wf_lock_fresh; auto.
  - unfold Unlock. m_run. destruct (idNameMap u !! UUID) as [name|] eqn:E; [|done]. m_run. cbn.
    destruct Hu as [Hl Hn]. split; cbn; intros a b.
    + intros Ha. assert (nameLatestIDMap u !! a = Some b ∧ b ≠ UUID) as [Hab Hne].
      { case_decide as Hd.
        - apply lookup_delete_Some in Ha as [Hna Ha]. split; [done|]. intros ->. apply Hl in Ha. congruence.
        - split; [done|]. intros ->. apply Hl in Ha as Ha'. congruence. }
      rewrite lookup_delete_ne by done. by apply Hl.
    + intros [_ Ha]%lookup_delete_Some. by eapply Hn.
Qed.

Lemma run_mutexes_wf ops u : mutex_wf u → mutex_wf (run_mutexes ops u).
Proof. revert u. induction ops as [|op ops IH]; intros u Hu; [done|]. by apply IH, run_mutex_wf. Qed.

Lemma run_mutex_holder op u UUID name :
  op ≠ OUnlock UUID → idNameMap u !! UUID = Some name → idNameMap (run_mutex op u) !! UUID = Some name.
Proof.
  intros Hop HU. destruct op as [UUID' name'|UUID']; cbn [run_mutex].
  - destruct (Lock_cases UUID' name' u) as [(_ & e & ->)|(_ & [(? & _ & _ & e & ->)|[[_ ->]|[HN ->]]])]; try done; cbn.
    rewrite lookup_insert_ne by congruence. done.
  - unfold Unlock. m_run. destruct (idNameMap u !! UUID') as [n|]; [|done]. m_run. cbn [snd mret M_ret idNameMap].
    rewrite lookup_delete_ne by congruence. done.
Qed.

Lemma run_mutexes_holder ops u UUID name :
  OUnlock UUID ∉ ops → idNameMap u !! UUID = Some name → idNameMap (run_mutexes ops u) !! UUID = Some name.
Proof.
  revert u. induction ops as [|op ops IH]; intros u Hops HU; [done|].
  apply not_elem_of_cons in Hops as [Hop Hops]. apply IH; [done|]. by apply run_mutex_holder; [congruence|].
Qed.

(** ** Building the mutex *)

(** The entries give every UUID one name. *)
Definition consistent (l : list (string * string)) : Prop :=
  ∀ UUID a b, (UUID, a) ∈ l → (UUID, b) ∈ l → a = b.

Definition holds_exactly (l : list (string * string)) (u : uuidMutex) : Prop :=
  mutex_wf u ∧ ∀ UUID name, idNameMap u !! UUID = Some name ↔ (UUID, name) ∈ l.

Lemma lock_step l UUID name u :
  holds_exactly l u →
  (nonempty UUID = true ∧ (∀ b, (UUID, b) ∈ l → b = name) ∧
   ∃ r, (Lock UUID name u).1 = Ret r ∧ holds_exactly (l ++ [(UUID, name)]) (Lock UUID name u).2) ∨
  ((nonempty UUID = false ∨ ∃ b, (UUID, b) ∈ l ∧ b ≠ name) ∧ ∃ e, Lock UUID name u = (Fail e, u)).
Proof.
  intros [Hw Hl].
  pose proof (run_mutex_wf (OLock UUID name) u Hw) as Hw'. cbn [run_mutex] in Hw'.
  destruct (Lock_cases UUID name u) as [(Hne & e & E)|(Hne & [(b & Hb & Hbn & e & E)|[[Hb E]|[Hb E]]])]; rewrite E in *.
  - right. eauto.
  - right. split; [right; exists b; split; [by apply Hl|done]|by eexists].
  - left. split; [done|]. split; [intros c Hc; apply Hl in Hc; congruence|]. eexists. split; [done|].
    split; [done|]. cbn. intros U n. rewrite elem_of_app, list_elem_of_singleton, <-Hl. naive_solver.
  - left. split; [done|]. split; [intros c Hc; apply Hl in Hc; congruence|]. eexists. split; [done|].
    split; [done|]. cbn. intros U n. rewrite elem_of_app, list_elem_of_singleton, <-Hl, lookup_insert_Some.
    destruct (decide (UUID = U)) as [->|]; naive_solver.
Qed.

Lemma lock_all_spec done_ l u :
  holds_exactly done_ u → consistent done_ → Forall (λ e, nonempty e.1 = true) l →
  (consistent (done_ ++ l) ∧ (lock_all l u).1 = Ret tt ∧ holds_exactly (done_ ++ l) (lock_all l u).2) ∨
  (¬ consistent (done_ ++ l) ∧ ∃ e, (lock_all l u).1 = Fail e).
Proof.
  revert done_ u. induction l as [|[UUID name] l IH]; intros dn u Hu Hc Hne.
  - left. by rewrite app_nil_r.
  - apply Forall_cons in Hne as [Hne Hnl]. cbn [fst] in Hne. cbn [lock_all].
    destruct (lock_step dn UUID name u Hu) as [(_ & Hb & r & E1 & E2)|[[Hn|(b & Hb & Hbn)] (e & E)]].
    + destruct (Lock UUID name u) as [o u'] eqn:EL. cbn [fst snd] in *. subst o.
      rewrite (bind_Ret _ _ _ _ _ EL).
      replace (dn ++ (UUID, name) :: l) with ((dn ++ [(UUID, name)]) ++ l) by (by rewrite <-app_assoc).
      apply IH; [done| |done]. intros U a b. rewrite !elem_of_app, !list_elem_of_singleton.
      intros [Ha|Ha] [Hb'|Hb']; simplify_eq; [by eapply Hc|by apply Hb|symmetry; by apply Hb|done].
    + congruence.
    + right. split; [|by rewrite (bind_Fail _ _ _ _ _ E); eexists].
      intros Hcon. apply Hbn. apply (Hcon UUID); rewrite elem_of_app; [by left|right; left].
Qed.

Lemma remote_locks_nonempty l : Forall (λ e, nonempty e.1 = true) (remote_locks l).
Proof.
  unfold remote_locks. apply Forall_forall. intros e (rc & -> & Hrc)%list_elem_of_fmap.
  apply list_elem_of_filter in Hrc. apply Hrc.
Qed.

(** What the server says: the local cluster and the remote ones. *)
Definition clusters (localUUID : string) (l : list RemoteCluster) : list (string * string) :=
  (localUUID, "LocalCluster") :: remote_locks l.

Section from_client.
Context `{ApiMachinery}.

Lemma NewUUIDMutexFromClient_cases c localUUID l :
  GetClusterUUID c = Ret localUUID → ListRemoteClusters c = Ret l →
  (nonempty localUUID = true ∧ consistent (clusters localUUID l) ∧
   ∃ u, NewUUIDMutexFromClient c = Ret u ∧ holds_exactly (clusters localUUID l) u) ∨
  (¬ (nonempty localUUID = true ∧ consistent (clusters localUUID l)) ∧ ∃ e, NewUUIDMutexFromClient c = Fail e).
Proof.
  intros E1 E2. unfold NewUUIDMutexFromClient. rewrite E1. cbn [mbind outcome_bind].
  assert (holds_exactly [] NewUUIDMutex) as H0.
  { split; [apply mutex_wf_new|]. intros U n. cbn. by rewrite lookup_empty, elem_of_nil. }
  destruct (lock_step [] localUUID "LocalCluster" NewUUIDMutex H0) as [(Hne & _ & r & El & Hl)|[[Hn|(b & Hb & _)] (e & E)]].
  - destruct (Lock localUUID "LocalCluster" NewUUIDMutex) as [o u]. cbn [fst snd] in *. subst o. rewrite E2. cbn [mbind outcome_bind].
    destruct (lock_all_spec _ (remote_locks l) u Hl) as [(Hc & Ea & Hu)|(Hc & e & Ea)].
    + intros U a b Ha%list_elem_of_singleton Hb%list_elem_of_singleton. congruence.
    + apply remote_locks_nonempty.
    + left. split; [done|]. split; [done|]. destruct (lock_all _ u) as [o u']. cbn [fst snd] in *. subst o. by eexists.
    + right. split; [by intros [_ ?]|]. destruct (lock_all _ u) as [o u']. cbn [fst] in Ea. subst o. by eexists.
  - right. rewrite E. split; [intros [? _]; congruence|by eexists].
  - by apply elem_of_nil in Hb.
Qed.
End from_client.

(** ** Property *)

(** C34: the mutex built from the server locks every cluster under its own
    name, and is built exactly when the local cluster has a UUID and no UUID
    is claimed under two names.  From then on, whatever is locked and
    unlocked, the latest UUID of a name is one that the name holds, and a UUID
    keeps its name until that UUID is unlocked: every attempt to lock it under
    another name is an error that changes nothing. *)
Theorem uuid_mutex_exclusive `{ApiMachinery} c localUUID l :
  GetClusterUUID c = Ret localUUID → ListRemoteClusters c = Ret l →
  ((∃ u, NewUUIDMutexFromClient c = Ret u) ↔ nonempty localUUID = true ∧ consistent (clusters localUUID l)) ∧
  ∀ u ops, NewUUIDMutexFromClient c = Ret u →
    (∀ UUID name, idNameMap u !! UUID = Some name ↔ (UUID, name) ∈ clusters localUUID l) ∧
    let u' := run_mutexes ops u in
    (∀ name UUID, nameLatestIDMap u' !! name = Some UUID → idNameMap u' !! UUID = Some name) ∧
    ∀ UUID name, (UUID, name) ∈ clusters localUUID l → OUnlock UUID ∉ ops →
      idNameMap u' !! UUID = Some name ∧
      ∀ other, other ≠ name → ∃ e, Lock UUID other u' = (Fail e, u').
Proof.
  intros E1 E2. destruct (NewUUIDMutexFromClient_cases c localUUID l E1 E2) as [(Hne & Hc & u & Eu & Hw & Hu)|(Hno & e & Ee)].
  - split; [split; eauto|]. intros u0 ops E0. rewrite Eu in E0. injection E0 as <-. split; [done|]. intros u'.
    pose proof (run_mutexes_wf ops u Hw) as Hw'. fold u' in Hw'. split; [apply (mw_latest _ Hw')|].
    intros UUID name Hin Hops. apply Hu in Hin. pose proof (run_mutexes_holder ops u UUID name Hops Hin) as Hh. fold u' in Hh.
    split; [done|]. intros other Hother. destruct (Lock_cases UUID other u') as [(_ & H')|(_ & [(_ & _ & _ & H')|[[HU _]|[HU _]]])];
      [done|done|congruence|congruence].
  - split; [split; [intros [u E]; congruence|done]|]. intros u ops E. congruence.
Qed.

(** Two clusters, of which the remote one has two UUIDs after a change. *)
Definition w_clusters : Reader :=
  let rc uuid name := mkRemoteCluster (mkObjectMeta name "" "" ∅ ∅ [] [] None) (mkRemoteClusterSpec "" [] [] [] 0)
                        (mkRemoteClusterStatus uuid "" []) in
  let r := kube_reader (mkView ∅ ∅) in
  mkReader (r_GetNetwork r) (r_ListNetworks r) (r_ListNetworksByNode r) (r_GetSubnet r) (r_ListSubnets r) (r_GetIPInstance r)
    (r_ListIPInstances r) (r_GetPod r) (r_GetNode r) (r_ListNodes r)
    (λ _, Ret (mkNamespace (mkObjectMeta "kube-system" "" "uuid-0" ∅ ∅ [] [] None)))
    (r_ListRemoteSubnets r) (r_ListRemoteVteps r) (Ret [rc "uuid-1" "east"; rc "" "west"]) (r_GetRemoteCluster r).

Lemma uuid_mutex_exclusive_witness :
  ∃ u, NewUUIDMutexFromClient w_clusters = Ret u ∧
    idNameMap (run_mutexes [OLock "uuid-2" "east"; OLock "uuid-0" "west"; OUnlock "uuid-2"] u) !! "uuid-0" = Some "LocalCluster".
Proof.
  destruct (uuid_mutex_exclusive (H := api_concrete) w_clusters "uuid-0"
    (match ListRemoteClusters w_clusters with Ret l => l | _ => [] end) eq_refl eq_refl) as [_ Hu].
  assert (∃ u, NewUUIDMutexFromClient w_clusters = Ret u) as [u E] by (eexists; vm_compute; reflexivity).
  exists u. split; [exact E|].
  destruct (Hu u [OLock "uuid-2" "east"; OLock "uuid-0" "west"; OUnlock "uuid-2"] E) as (_ & _ & Hh).
  apply (Hh "uuid-0" "LocalCluster"); [left|]. intros Hin. repeat (apply elem_of_cons in Hin as [Hin|Hin]; [discriminate Hin|]).
  by apply elem_of_nil in Hin.
Defined.
