(* ===== verification/IPAMManager.v ===== *)
(** * The IPAM manager of the controllers (pkg/controllers/networking: ipam.go,
    ipam_controller.go)

    The getters the allocators refresh from are reads of the API server; a
    manager is the set of networks of the allocator that the feature gate
    selects. *)

From S2P Require Import Prelude GoNet GoStrings NetBlock NetText CNIPlugins NetworkingV1 MulticlusterV1 Kubernetes Config Utils IPAMTypes IPAMSubnet IPAMSync IPAMCanonical IPAMSubnetProperties IPAMNetwork IPAMNetworkProperties Allocator AllocatorInvariant AllocatorProperties Transform Names GoJSON KubeClient Store StoreProperties ClientUtils.
Local Open Scope Z_scope.

Section manager.
Context `{ApiMachinery} `{Settings} `{CNIPlugins}.
Implicit Types r : Reader.

(** [return nil, client.IgnoreNotFound(err)] *)
Definition NetworkGetter_of r (networkName : string) : outcome (option Network) :=
  match utils_GetNetwork r networkName with
  | Fail err => if IsNotFound err then Ret None else Fail err
  | Ret network => Ret (Some (TransferNetworkForIPAM network))
  | Panic => Panic
  | Diverge => Diverge
  end.

Definition SubnetGetter_of r (networkName : string) : outcome (list Subnet) :=
  subnetList ← ListSubnets r;
  Ret (map TransferSubnetForIPAM (filter (λ s, ssp_Network (vs_Spec s) = networkName) subnetList)).

Definition IPSetGetter_of r (subnetName : string) : outcome IPSet :=
  ipList ← ListIPInstances r (mkListOptions None {[LabelSubnet := subnetName]});
  for_each (λ ipSet i, ip ← TransferIPInstanceForIPAM i;
                       Ret (IPSet_Add ipSet (ToIPFormat (om_Name (vi_Meta i))) ip)) NewIPSet ipList.

Definition manager_getters r : Getters := mkGetters (NetworkGetter_of r) (SubnetGetter_of r) (IPSetGetter_of r).

Definition NewIPAMManager r : outcome NetworkSet :=
  networkList ← ListNetworks r;
  NewAllocator (manager_getters r) (map (λ n, om_Name (vn_Meta n)) networkList).

(** Both allocators refresh in the same way. *)
Definition ipamManager_Refresh r (networks : list string) : M NetworkSet unit :=
  Refresh (manager_getters r) networks.

(** [IPAMReconciler.Reconcile] *)
Definition IPAM_Reconcile r (name : string) : M NetworkSet unit := ipamManager_Refresh r [name].
End manager.

(** ** An address and its instance

    [holds_ip s ip]: [ip] is an address as the allocator gives it out, in
    16-byte form, with a mask of its family, a gateway or none and a network
    ID, held by the pod that the status [s] of its instance names.  The text of
    an IPv6 address neither begins nor ends with "::" ([inner_ellipsis]): the
    name of its instance would not read back. *)

Record holds_ip (s : IPInstanceStatus) (ip : IP) : Prop := {
  hi_address : ∃ x len n, ip_Address ip = Some (mkIPNet x (cidr_bytes len n)) ∧ valid_ip x ∧ length x = 16%nat ∧
    (To4 x = [] ∧ len = 16%nat ∧ 0 ≤ n ≤ 128 ∧ inner_ellipsis (IP_String x) ∨ To4 x ≠ [] ∧ len = 4%nat ∧ 0 ≤ n ≤ 32);
  hi_gateway : ip_Gateway ip = [] ∨ valid_ip (ip_Gateway ip) ∧ length (ip_Gateway ip) = 16%nat;
  hi_netID : ∃ v, ip_NetID ip = Some v ∧ 0 ≤ v < 2 ^ 32;
  hi_pod : ip_PodName ip = ist_PodName s ∧ ip_PodNamespace ip = ist_PodNamespace s ∧ ip_Status ip = ist_Phase s
}.

(** The text under which the allocator keeps the address. *)
Definition ip_text (ip : IP) : string :=
  match ip_Address ip with Some a => IP_String (IPNet_IP a) | None => "" end.

Lemma uint32_int32 v : 0 ≤ v < 2 ^ 32 → uint32 (int32 v) = v.
Proof.
  intros Hv. unfold uint32, int32. rewrite Zminus_mod_idemp_l.
  replace (v + 2 ^ 31 - 2 ^ 31) with v by lia. by apply Z.mod_small.
Qed.

Lemma length16_To16 x : valid_ip x → length x = 16%nat → To16 x = x.
Proof. intros Hv Hl. destruct (valid_cases x Hv) as [[E _]|[_ E]]; [congruence|done]. Qed.

Lemma ParseIP_gateway g :
  g = [] ∨ valid_ip g ∧ length g = 16%nat → ParseIP (if decide (g = []) then "" else IP_String g) = g.
Proof.
  intros [->|[Hv Hl]]; [done|]. rewrite decide_False by (by intros ->).
  rewrite ParseIP_String by done. by apply length16_To16.
Qed.

Lemma StringToIPNet_IPNet x len n :
  valid_ip x → length x = 16%nat →
  To4 x = [] ∧ len = 16%nat ∧ 0 ≤ n ≤ 128 ∧ inner_ellipsis (IP_String x) ∨ To4 x ≠ [] ∧ len = 4%nat ∧ 0 ≤ n ≤ 32 →
  StringToIPNet (IPNet_String (mkIPNet x (cidr_bytes len n))) = Ret (mkIPNet x (cidr_bytes len n)).
Proof.
  intros Hv Hl [(H4 & -> & Hn & _)|(H4 & -> & Hn)]; unfold StringToIPNet.
  - by rewrite ParseCIDR_IPNet_v6.
  - rewrite ParseCIDR_IPNet_v4 by done. by rewrite length16_To16.
Qed.

Section recovery.
Context `{A : ApiMachinery} `{Settings}.

(** The instance built for an address reads back as the address. *)
Lemma Transfer_build pod ip mac i0 m s :
  holds_ip s ip → build_instance pod ip mac = Ret i0 →
  TransferIPInstanceForIPAM (mkV1IPInstance m (vi_Spec i0) s) = Ret ip.
Proof.
  intros [(x & len & n & Ha & Hv & Hl & Hx) Hg (v & Hn & Hvr) (Hp & Hns & Hst)] Hb.
  unfold build_instance in Hb. rewrite Ha, Hn in Hb. cbn in Hb.
  destruct (toDNSLabelFormat ip) as [name|e| |]; try done. cbn in Hb. injection Hb as <-.
  unfold TransferIPInstanceForIPAM. cbn -[ParseIP]. rewrite StringToIPNet_IPNet by done. cbn -[ParseIP uint32 int32].
  rewrite ParseIP_gateway by done. rewrite uint32_int32 by done.
  destruct ip; cbn in *. by subst.
Qed.

Lemma build_name pod ip mac i0 s :
  holds_ip s ip → build_instance pod ip mac = Ret i0 → ToIPFormat (om_Name (vi_Meta i0)) = ip_text ip.
Proof.
  intros [(x & len & n & Ha & Hv & Hl & Hx) _ _ _] Hb. unfold build_instance in Hb.
  destruct (toDNSLabelFormat ip) as [name|e| |] eqn:Hn; try done. rewrite Ha in Hb.
  destruct (ip_NetID ip) as [v|]; [|done]. cbn in Hb. injection Hb as <-. cbn.
  unfold ToIPFormat, ip_text. rewrite Ha.
  rewrite (ToIPFormat_toDNSLabelFormat ip (mkIPNet x (cidr_bytes len n)) name); [done|done|done| |done].
  intros H6. unfold IP_IsIPv6 in H6. rewrite Ha in H6. cbn in *.
  destruct Hx as [(_ & _ & _ & ?)|(H4 & _)]; [done|]. case_decide; [done|].
  by rewrite bool_decide_eq_false_2 in H6.
Qed.

(** The instance on the server records the address. *)
Definition recorded (i : V1IPInstance) (ip : IP) : Prop :=
  holds_ip (vi_Status i) ip ∧
  ∃ pod mac i0, build_instance pod ip mac = Ret i0 ∧ om_Name (vi_Meta i) = om_Name (vi_Meta i0) ∧ vi_Spec i = vi_Spec i0.

Lemma coupled_recorded pod ip mac i0 i :
  build_instance pod ip mac = Ret i0 → holds_ip (vi_Status i) ip →
  (∃ uid labels st, i = mkV1IPInstance (om_set_UID uid (om_set_Labels labels (vi_Meta i0))) (vi_Spec i0) st) → recorded i ip.
Proof. intros Hb Hh (uid & labels & st & ->). split; [done|]. by exists pod, mac, i0. Qed.

Definition add_ip (u : IPSet) (ip : IP) : IPSet := <[ip_text ip := ip]> u.

Lemma IPSet_fold l ips u :
  Forall2 recorded l ips →
  for_each (λ ipSet i, ip ← TransferIPInstanceForIPAM i;
                       Ret (IPSet_Add ipSet (ToIPFormat (om_Name (vi_Meta i))) ip)) u l = Ret (foldl add_ip u ips).
Proof.
  intros HF. revert u. induction HF as [|i ip l ips [Hh (pod & mac & i0 & Hb & Hn & Hs)] HF IH]; intros u; [done|].
  cbn [for_each]. assert (TransferIPInstanceForIPAM i = Ret ip) as ->.
  { destruct i as [m sp st]. cbn in Hs. subst sp. by eapply Transfer_build. }
  rewrite Hn, (build_name pod ip mac i0 (vi_Status i)) by done. cbn. apply IH.
Qed.

Lemma add_ip_lookup ips u x c :
  NoDup (ip_text <$> ips) →
  foldl add_ip u ips !! x = Some c ↔
    (∃ ip, ip ∈ ips ∧ ip_text ip = x ∧ c = ip) ∨ (x ∉ ip_text <$> ips) ∧ u !! x = Some c.
Proof.
  revert u. induction ips as [|ip ips IH]; intros u Hnd; cbn [foldl].
  { split; [intros E; right; split; [apply not_elem_of_nil|done]|].
    intros [(ip & Hip & _)|[_ ?]]; [by apply not_elem_of_nil in Hip|done]. }
  cbn [fmap list_fmap] in Hnd. apply NoDup_cons in Hnd as [Hni Hnd]. rewrite IH by done. unfold add_ip.
  cbn [fmap list_fmap]. rewrite lookup_insert_Some, not_elem_of_cons. split.
  - intros [(ip' & Hip' & E & ->)|(Hx & [[<- <-]|[Hne Hu]])].
    + left. exists ip'. split; [by right|done].
    + left. exists ip. split; [by left|done].
    + right. done.
  - intros [(ip' & [->|Hip']%elem_of_cons & E & ->)|([Hne Hx] & Hu)].
    + right. rewrite <-E. split; [done|by left].
    + left. by exists ip'.
    + right. split; [done|]. right. done.
Qed.
End recovery.

Lemma IPSet_fold_ok `{ApiMachinery} `{Settings} l ips :
  Forall2 recorded l ips → NoDup (ip_text <$> ips) →
  ipset_ok (foldl add_ip NewIPSet ips) ∧
  ∀ x c, foldl add_ip NewIPSet ips !! x = Some c ↔ c ∈ ips ∧ ip_text c = x.
Proof.
  intros HF Hnd.
  assert (∀ x c, foldl add_ip NewIPSet ips !! x = Some c ↔ c ∈ ips ∧ ip_text c = x) as Hu.
  { intros x c. rewrite add_ip_lookup by done. unfold NewIPSet. rewrite lookup_empty. naive_solver. }
  split; [|exact Hu]. intros x c Hc. apply Hu in Hc as [Hc <-].
  apply list_elem_of_lookup in Hc as [j Hj]. destruct (Forall2_lookup_r _ _ _ _ _ HF Hj) as (i & _ & Hh & _).
  destruct Hh as [(y & len & n & Ha & Hv & _) _ _ _]. exists (mkIPNet y (cidr_bytes len n)).
  split; [done|]. split; [done|]. unfold ip_text. by rewrite Ha.
Qed.

Lemma NoDup_fmap_filter {B D} (f : B → D) (P : B → Prop) `{!∀ x, Decision (P x)} l :
  NoDup (f <$> l) → NoDup (f <$> filter P l).
Proof.
  induction l as [|x l IH]; [done|]. cbn [fmap list_fmap]. intros [Hx Hl]%NoDup_cons.
  rewrite filter_cons. case_decide; [|by apply IH]. cbn [fmap list_fmap]. apply NoDup_cons. split; [|by apply IH].
  intros (y & E & [_ Hy]%list_elem_of_filter)%list_elem_of_fmap. apply Hx. rewrite E. by apply list_elem_of_fmap_2.
Qed.

(** ** Properties *)

(** C23: the addresses of a subnet that the store recorded are read back from
    the server: when the instances with the subnet's label record the
    addresses [ips], with distinct texts, the set from which the allocator is
    rebuilt has each address under its text, with its gateway, network, pod and
    status, and nothing else.  An instance records ([recorded], [holds_ip]) an
    IPv4 address, or an IPv6 address whose text neither begins nor ends with
    "::" ([inner_ellipsis]): the name of an instance does not carry the others,
    whose text would be misread. *)
Theorem IPSetGetter_recovers `{ApiMachinery} `{Settings} r subnetName l ips :
  r_ListIPInstances r (mkListOptions None {[LabelSubnet := subnetName]}) = Ret l →
  Forall2 recorded l ips → NoDup (ip_text <$> ips) →
  ∃ u, IPSetGetter_of r subnetName = Ret u ∧ ipset_ok u ∧
    ∀ x c, u !! x = Some c ↔ c ∈ ips ∧ ip_text c = x.
Proof.
  intros Hl HF Hnd. unfold IPSetGetter_of, ListIPInstances. rewrite Hl. cbn.
  rewrite (IPSet_fold l ips) by done. eexists. split; [done|]. by apply (IPSet_fold_ok l).
Qed.

(** The subnets of the server: a network away from the ends of the address
    space, and reserved addresses written as they are printed. *)
Definition subnet_object_ok (s : V1Subnet) : Prop :=
  (∃ ip n len ones, ParseCIDR (ar_CIDR (ssp_Range (vs_Spec s))) = Some (ip, n) ∧ cidr_net n len ones ∧ net_plain n len ones) ∧
  Forall canonical (ar_ReservedIPs (ssp_Range (vs_Spec s))).

(** The reads return, and what they return is well formed. *)
Record server_ok `{ApiMachinery} `{Settings} (r : Reader) : Prop := {
  so_network name : r_GetNetwork r name ≠ Panic ∧ r_GetNetwork r name ≠ Diverge;
  so_subnets : r_ListSubnets r ≠ Panic ∧ r_ListSubnets r ≠ Diverge ∧
    ∀ l, r_ListSubnets r = Ret l → Forall subnet_object_ok l ∧ NoDup ((λ s, om_Name (vs_Meta s)) <$> l);
  so_ips opts : r_ListIPInstances r opts ≠ Panic ∧ r_ListIPInstances r opts ≠ Diverge ∧
    ∀ l, r_ListIPInstances r opts = Ret l → ∃ ips, Forall2 recorded l ips ∧ NoDup (ip_text <$> ips)
}.

Lemma opt_valid_ParseIP t : opt_valid (ParseIP t).
Proof. destruct (ParseIP_ok t) as [?|[? _]]; [by left|by right]. Qed.

Lemma Transfer_spec_ok s : subnet_object_ok s → spec_ok (TransferSubnetForIPAM s).
Proof.
  intros [(ip & n & len & ones & HC & Hn & Hp) Hr]. split_and!; try apply opt_valid_ParseIP.
  - exists n, len, ones. cbn. by rewrite HC.
  - cbn. rewrite StringSliceToMap_spec. intros x Hx. apply elem_of_list_to_set in Hx.
    rewrite Forall_forall in Hr. by apply Hr.
Qed.

Lemma manager_getters_ok `{ApiMachinery} `{Settings} r : server_ok r → getters_ok (manager_getters r).
Proof.
  intros [Hn (Hs1 & Hs2 & Hs) Hi]. split; intros name; cbn.
  - unfold NetworkGetter_of, utils_GetNetwork. destruct (Hn name) as [? ?].
    destruct (r_GetNetwork r name) as [n|e| |]; try done.
    + split_and!; try done. by intros n' [= <-].
    + by destruct (IsNotFound e).
  - unfold SubnetGetter_of, ListSubnets. destruct (r_ListSubnets r) as [l|e| |]; cbn; try done.
    split_and!; [done..|]. intros l' [= <-]. destruct (Hs l eq_refl) as [HF Hnd]. split.
    + pose proof (proj1 (Forall_forall _ _) HF) as HF'. apply Forall_forall. intros sn (s & -> & [_ Hin]%list_elem_of_filter)%list_elem_of_fmap.
      by apply Transfer_spec_ok, HF'.
    + change (map TransferSubnetForIPAM) with (fmap (M := list) TransferSubnetForIPAM).
      rewrite <-list_fmap_compose. by apply (NoDup_fmap_filter (λ s, om_Name (vs_Meta s))).
  - destruct (Hi (mkListOptions None {[LabelSubnet := name]})) as (Hi1 & Hi2 & Hi3).
    unfold IPSetGetter_of, ListIPInstances.
    destruct (r_ListIPInstances r _) as [l|e| |]; cbn; try done.
    destruct (Hi3 l eq_refl) as (ips & HF & Hnd). rewrite (IPSet_fold l ips) by done.
    split_and!; [done..|]. intros u [= <-]. by apply (IPSet_fold_ok l ips HF Hnd).
Qed.

(** ** What the server says of a subnet

    The subnet [s] of the allocator follows the object [o] of a network: its
    fields are those of the object, with the bounds completed by those of the
    CIDR; the addresses that it has given out are those that the instances with
    the label of the subnet record, as far as they are its addresses, and
    otherwise its reserved ones.  By [subnet_ok] its pool is then what it
    contains and does not reserve. *)
Record follows `{ApiMachinery} `{Settings} `{CNIPlugins} (r : Reader) (net : V1Network) (o : V1Subnet) (s : Subnet) : Prop := {
  fo_ok : subnet_ok s;
  fo_name : sn_Name s = om_Name (vs_Meta o);
  fo_network : sn_ParentNetwork s = ssp_Network (vs_Spec o);
  fo_netID : sn_NetID s = match ssp_NetID (vs_Spec o), ns_NetID (vn_Spec net) with
                          | Some v, _ | None, Some v => Some (v mod 2 ^ 32)
                          | None, None => None
                          end;
  fo_gateway : sn_Gateway s = ParseIP (ar_Gateway (ssp_Range (vs_Spec o)));
  fo_bounds : ∃ ip n len ones, ParseCIDR (ar_CIDR (ssp_Range (vs_Spec o))) = Some (ip, n) ∧ sn_CIDR s = Some n ∧ cidr_net n len ones ∧
    (let t := ParseIP (ar_Start (ssp_Range (vs_Spec o))) in
     if decide (t = []) then addr (sn_Start s) = addr (IPNet_IP n) + 1 else sn_Start s = t) ∧
    (let t := ParseIP (ar_End (ssp_Range (vs_Spec o))) in
     if decide (t = []) then addr (sn_End s) = addr (IPNet_IP n) + 2 ^ host_bits len ones - (if is_v4 (IPNet_IP n) then 2 else 1)
     else sn_End s = t);
  fo_excluded x : x ∈ sn_BlackList s ↔ x ∈ ar_ExcludeIPs (ssp_Range (vs_Spec o));
  fo_reserved x : x ∈ sn_ReservedList s ↔ x ∈ ar_ReservedIPs (ssp_Range (vs_Spec o)) ∧ Subnet_Contains s (ParseIP x) = true;
  fo_last : sn_LastAllocatedIP s = ParseIP (sst_LastAllocatedIP (vs_Status o));
  fo_private : sn_Private s = IsPrivateSubnet (Some o);
  fo_v6 : sn_IPv6 s = IsIPv6Subnet (Some o);
  fo_used : ∃ l ips, r_ListIPInstances r (mkListOptions None {[LabelSubnet := om_Name (vs_Meta o)]}) = Ret l ∧
    Forall2 recorded l ips ∧ NoDup (ip_text <$> ips) ∧
    let ours c := c ∈ ips ∧ ip_Subnet c = om_Name (vs_Meta o) ∧
      Subnet_Contains s (match ip_Address c with Some a => IPNet_IP a | None => [] end) = true in
    ∀ x c, sn_UsingIPs s !! x = Some c ↔
      ours c ∧ ip_text c = x ∨
      (∀ c', ours c' → ip_text c' ≠ x) ∧ x ∈ sn_ReservedList s ∧ c = Subnet_newIP s x "" "" IPStatusReserved
}.

Lemma built_follows `{ApiMachinery} `{Settings} {P : CNIPlugins} (L : CNIPluginsLaws P) r net o s :
  server_ok r → subnet_object_ok o →
  built (manager_getters r) (int32pToUint32p (ns_NetID (vn_Spec net))) (TransferSubnetForIPAM o) s → follows r net o s.
Proof.
  intros Hr Ho [Hok (u & Hu & Hrun)]. destruct (Transfer_spec_ok o Ho) as ((n & len & ones & HC & Hn & Hp) & Hst & Hen & Hgw & Hres).
  destruct (bind_Ret_inv _ _ _ _ _ Hrun) as ([] & c & Hcan & Hsync).
  assert (Subnet_Validate (TransferSubnetForIPAM o) = Ret tt) as HV.
  { destruct (Validate_total _ n HC) as [HV|[e HV]]; [done|]. unfold Subnet_Canonicalize, mbind, M_bind, get, lift in Hcan. by rewrite HV in Hcan. }
  destruct (Canonicalize_ok _ n len ones HC Hn Hp Hst Hen Hgw HV) as [E Hc]. rewrite E in Hcan. injection Hcan as <-.
  apply (Validate_spec _ n len ones HC Hn) in HV as (_ & _ & Hh & _ & Hcs & Hce); [|done..].
  destruct (canonical_start_ok _ n len ones Hn Hp Hst Hh Hcs) as (_ & _ & Hs0).
  destruct (canonical_end_ok _ n len ones Hn Hp Hen Hh Hce) as (_ & _ & He0).
  destruct (so_ips _ Hr (mkListOptions None {[LabelSubnet := om_Name (vs_Meta o)]})) as (_ & _ & Hips).
  cbn [manager_getters IPSetGetter] in Hu. unfold IPSetGetter_of, ListIPInstances in Hu.
  change (sn_Name (TransferSubnetForIPAM o)) with (om_Name (vs_Meta o)) in Hu.
  destruct (r_ListIPInstances r _) as [l|e| |] eqn:El; try done. cbn in Hu.
  destruct (Hips l eq_refl) as (ips & HF & Hnd). rewrite (IPSet_fold l ips) in Hu by done. injection Hu as <-.
  destruct (IPSet_fold_ok l ips HF Hnd) as [Huok Hul].
  set (c := sn_set_range _ _ _) in *. destruct (Sync_spec (int32pToUint32p (ns_NetID (vn_Spec net))) _ c Hc Huok Hres) as (al & _ & _ & E' & _).
  rewrite E' in Hsync. injection Hsync as <-.
  destruct (synced_fields (int32pToUint32p (ns_NetID (vn_Spec net))) (foldl add_ip NewIPSet ips) al c) as (HR & _ & HCt & HU).
  set (s := synced _ _ _ _) in *.
  destruct (sync_prepare_fields (int32pToUint32p (ns_NetID (vn_Spec net))) c) as (F1 & F2 & F3 & F4 & F5 & F6 & F7 & _ & FR & _).
  split.
  - exact Hok.
  - exact F1.
  - unfold s, synced, sync_prepare. by destruct (sn_NetID c).
  - assert (sn_NetID c = int32pToUint32p (ssp_NetID (vs_Spec o))) as EN by done. unfold s, synced, sync_prepare.
    rewrite EN. unfold int32pToUint32p, uint32 in *. destruct (ssp_NetID (vs_Spec o)) as [v|]; [exact EN|]. by destruct (ns_NetID (vn_Spec net)).
  - exact F5.
  - pose proof (eq_trans F4 HC) as HCs. cbn in HC. destruct (ParseCIDR _) as [[ip n']|] eqn:EC; cbn in HC; [|done]. injection HC as ->. exists ip, n, len, ones.
    split; [done|]. split; [exact HCs|]. split; [done|]. change (sn_Start s) with (sn_Start (sync_prepare (int32pToUint32p (ns_NetID (vn_Spec net))) c)).
    change (sn_End s) with (sn_End (sync_prepare (int32pToUint32p (ns_NetID (vn_Spec net))) c)). rewrite F2, F3. unfold c. cbn [sn_Start sn_End sn_set_range].
    split; case_decide as Hd.
    + by apply Hs0.
    + unfold canonical_start. by rewrite bool_decide_eq_false_2.
    + by apply He0.
    + unfold canonical_end. by rewrite bool_decide_eq_false_2.
  - intros x. change (sn_BlackList s) with (sn_BlackList (sync_prepare (int32pToUint32p (ns_NetID (vn_Spec net))) c)). rewrite F6. cbn.
    by rewrite StringSliceToMap_spec, elem_of_list_to_set.
  - intros x. rewrite HR, FR, elem_of_filter, HCt. cbn. rewrite StringSliceToMap_spec, elem_of_list_to_set. tauto.
  - exact F7.
  - unfold s, synced, sync_prepare. by destruct (sn_NetID c).
  - unfold s, synced, sync_prepare. by destruct (sn_NetID c).
  - exists l, ips. split; [done|]. split; [done|]. split; [done|]. cbv zeta. intros x cc. rewrite HU.
    setoid_rewrite HCt. set (res := Subnet_newIP s x "" "" IPStatusReserved). unfold sync_keeps.
    change (sn_Name c) with (om_Name (vs_Meta o)).
    destruct (foldl add_ip NewIPSet ips !! x) as [d|] eqn:Ed.
    + apply Hul in Ed as [Hd Hdx].
      assert (∀ c', c' ∈ ips → ip_text c' = x → c' = d) as Huniq.
      { intros c' Hc' Hx. assert (foldl add_ip NewIPSet ips !! x = Some c') as E1 by (by apply Hul).
        assert (foldl add_ip NewIPSet ips !! x = Some d) as E2 by (by apply Hul). congruence. }
      case_decide as Hk; [|case_decide as Hin].
      * split; [intros [= <-]; left; tauto|]. intros [((Hc' & _) & Hx)|(Hno & _)]; [by rewrite (Huniq cc)|].
        exfalso. apply (Hno d); tauto.
      * split; [intros [= <-]; right; split; [|done]|].
        -- intros c' (Hc' & H1 & H2) Hx. apply Hk. by rewrite <-(Huniq c').
        -- intros [((Hc' & H1 & H2) & Hx)|(_ & _ & ->)]; [|done]. exfalso. apply Hk. by rewrite <-(Huniq cc).
      * split; [done|]. intros [((Hc' & H1 & H2) & Hx)|(_ & ? & _)]; [|done]. exfalso. apply Hk. by rewrite <-(Huniq cc).
    + assert (∀ c', c' ∈ ips → ip_text c' ≠ x) as Hnone.
      { intros c' Hc' Hx. assert (foldl add_ip NewIPSet ips !! x = Some c') as E1 by (by apply Hul). congruence. }
      case_decide as Hin; split; try done.
      * intros [= <-]. right. split; [|done]. intros c' (Hc' & _). by apply Hnone.
      * intros [((Hc' & _) & Hx)|(_ & _ & ->)]; [by apply Hnone in Hc'|done].
      * intros [((Hc' & _) & Hx)|(_ & ? & _)]; [by apply Hnone in Hc'|done].
Qed.

(** The network [n'] of the allocator is the one on the server, or is gone as
    it is there. *)
Definition server_network `{ApiMachinery} `{Settings} `{CNIPlugins} (r : Reader) (name : string) (n' : option Network) : Prop :=
  (∃ err, r_GetNetwork r name = Fail err ∧ IsNotFound err = true) ∧ n' = None ∨
  ∃ net listed n, r_GetNetwork r name = Ret net ∧ r_ListSubnets r = Ret listed ∧ n' = Some n ∧ net_wf n ∧
    nw_Name n = om_Name (vn_Meta net) ∧
    nw_NetID n = option_map (λ v, v mod 2 ^ 32) (ns_NetID (vn_Spec net)) ∧
    nw_LastAllocatedSubnet n = nst_LastAllocatedSubnet (vn_Status net) ∧
    nw_Type n = ParseNetworkTypeFromString (GetNetworkType (Some net)) ∧
    Forall2 (follows r net) (filter (λ o, ssp_Network (vs_Spec o) = name) listed) (ss_Subnets (nw_Subnets n)).

Lemma refreshed_server `{ApiMachinery} `{Settings} {P : CNIPlugins} (L : CNIPluginsLaws P) r name n' :
  server_ok r → refreshed (manager_getters r) name n' → server_network r name n'.
Proof.
  intros Hr [[Hn ->]|(n & l & n1 & Hn & Hl & -> & Hwf & _ & Hb & E1 & E2 & E3 & E4)];
    cbn [manager_getters NetworkGetter] in Hn; unfold NetworkGetter_of, utils_GetNetwork in Hn.
  - left. split; [|done]. destruct (r_GetNetwork r name) as [net|e| |]; try done. exists e. by destruct (IsNotFound e).
  - right. destruct (r_GetNetwork r name) as [net|e| |]; [|by destruct (IsNotFound e)|done..]. injection Hn as <-.
    cbn [manager_getters SubnetGetter] in Hl. unfold SubnetGetter_of, ListSubnets in Hl.
    destruct (so_subnets _ Hr) as (_ & _ & Hs). destruct (r_ListSubnets r) as [listed|e| |]; try done. cbn in Hl. injection Hl as <-.
    destruct (Hs listed eq_refl) as [HF _]. exists net, listed, n1. split_and!; [done..|exact E1|exact E2|exact E4|exact E3|].
    change (map TransferSubnetForIPAM) with (fmap (M := list) TransferSubnetForIPAM) in Hb.
    rewrite Forall2_fmap_l in Hb. apply Forall2_same_length_lookup in Hb as [Hlen Hb]. rewrite Forall_forall in HF.
    apply Forall2_same_length_lookup. split; [exact Hlen|]. intros i o s Hi Hs'. apply (built_follows L); [done| |by eapply Hb].
    apply HF. by apply list_elem_of_lookup_2, list_elem_of_filter in Hi as [_ Hi].
Qed.

(** C24: the IPAM controller reconciles a network name: when the server holds
    well-formed subnets (a CIDR away from the ends of the address space,
    reserved addresses as they are printed, distinct names) and instances that
    record addresses ([recorded]: IPv4, or IPv6 whose text does not begin or
    end with "::"), [Reconcile] ends with a result or an error, keeps the
    invariant of the networks, changes no other network, and leaves the network
    as it was or as the server describes it, the latter when there is no error:
    gone when it is gone there, else with its type and net ID and with exactly
    its subnets in their order, each with the network ID, CIDR, bounds,
    gateway, excluded and reserved addresses of its object and with the
    addresses that its instances record. *)
Theorem IPAM_Reconcile_refreshes `{ApiMachinery} `{Settings} {P : CNIPlugins} (L : CNIPluginsLaws P) r name ns :
  server_ok r → set_wf ns →
  ∃ o ns', IPAM_Reconcile r name ns = (o, ns') ∧ set_wf ns' ∧
    (o = Ret tt ∧ server_network r name (ns' !! name) ∨ ∃ e, o = Fail e) ∧
    (ns' !! name = ns !! name ∨ server_network r name (ns' !! name)) ∧
    (∀ other, other ≠ name → ns' !! other = ns !! other).
Proof.
  intros Hr Hns.
  destruct (Refresh_spec _ (manager_getters_ok r Hr) [name] ns Hns) as (o & ns' & E & Hwf & Ho & Hother).
  exists o, ns'. split; [exact E|]. split; [done|]. split_and!.
  - destruct Ho as [[-> Ho]|?]; [|by right]. left. split; [done|]. apply (refreshed_server L); [done|]. apply Ho. by left.
  - destruct (Hother name) as [?|[_ ?]]; [by left|right]. by apply (refreshed_server L).
  - intros other Hne. destruct (Hother other) as [?|[Hin _]]; [done|]. by apply list_elem_of_singleton in Hin.
Qed.

(** *** A concrete server: one network with one subnet and one instance *)

Definition w_ip4 : IP :=
  mkIP (Some (mkIPNet (ParseIP "10.0.0.5") (cidr_bytes 4 29))) (ParseIP "10.0.0.1") (Some 7) "subnet1" "network1"
    "web-0" "default" "Using".

Definition w_i4 : V1IPInstance :=
  match build_instance (H := api_concrete) (H0 := w_settings) w_pod w_ip4 "02:12:34:00:00:01" with
  | Ret i => vi_set_Status (using_status w_pod) i
  | _ => mkV1IPInstance (w_meta "") (mkIPInstanceSpec "" "" (mkAddress "" "" "" None "")) (using_status w_pod)
  end.

Definition w_v1subnet : V1Subnet :=
  mkV1Subnet (w_meta "subnet1")
    (mkSubnetSpec (mkAddressRange "4" "" "" "10.0.0.0/29" "10.0.0.1" [] []) (Some 7) "network1" None)
    (mkSubnetStatus (mkCount 0 0 0) "").

Definition w_v1network : V1Network :=
  mkV1Network (w_meta "network1") (mkNetworkSpec None (Some 7) "" "Underlay" "" None)
    (mkNetworkStatus "" "" [] [] None None None).

Definition w_server : Reader := {|
  r_GetNetwork name := if decide (name = "network1") then Ret w_v1network else not_found;
  r_ListNetworks := Ret [w_v1network]; r_ListNetworksByNode _ := Ret [];
  r_GetSubnet _ := not_found; r_ListSubnets := Ret [w_v1subnet];
  r_GetIPInstance _ _ := not_found;
  r_ListIPInstances opts := Ret (if decide (lo_MatchingLabels opts = {[LabelSubnet := "subnet1"]}) then [w_i4] else []);
  r_GetPod _ _ := not_found; r_GetNode _ := not_found; r_ListNodes _ := Ret []; r_GetNamespace _ := not_found;
  r_ListRemoteSubnets := Ret []; r_ListRemoteVteps := Ret []; r_ListRemoteClusters := Ret [];
  r_GetRemoteCluster _ := not_found
|}.

Lemma w_recorded : recorded (A := api_concrete) (H := w_settings) w_i4 w_ip4.
Proof.
  split.
  - split.
    + exists (ParseIP "10.0.0.5"), 4%nat, 29. split; [reflexivity|]. split; [valid_tac|]. split; [reflexivity|].
      right. split; [vm_compute; discriminate|]. split; [done|lia].
    + right. split; [valid_tac|reflexivity].
    + exists 7. split; [reflexivity|lia].
    + split_and!; vm_compute; reflexivity.
  - exists w_pod, "02:12:34:00:00:01". eexists. split; [vm_compute; reflexivity|]. split; vm_compute; reflexivity.
Qed.

Lemma IPSetGetter_recovers_witness :
  ∃ u, IPSetGetter_of w_server "subnet1" = Ret u ∧ u !! "10.0.0.5" = Some w_ip4.
Proof.
  destruct (IPSetGetter_recovers (H := api_concrete) (H0 := w_settings) w_server "subnet1" [w_i4] [w_ip4] eq_refl
    ltac:(constructor; [exact w_recorded|constructor]) (NoDup_singleton _)) as (u & E & _ & Hu).
  exists u. split; [exact E|]. apply Hu. split; [by left|vm_compute; reflexivity].
Defined.

Lemma w_server_ok : server_ok (H := api_concrete) (H0 := w_settings) w_server.
Proof.
  split.
  - intros name. cbn. by case_decide.
  - split_and!; try done. intros l [= <-]. split; [|apply NoDup_singleton]. constructor; [|constructor]. split; [|constructor].
    exists (ParseIP "10.0.0.0"), w_net, 4%nat, 29. split; [vm_compute; reflexivity|]. split; [exact w_net_ok|].
    vm_compute. discriminate.
  - intros opts. split_and!; try done. intros l [= <-]. cbn. case_decide.
    + exists [w_ip4]. split; [constructor; [exact w_recorded|constructor]|apply NoDup_singleton].
    + exists []. split; constructor.
Qed.

Lemma IPAM_Reconcile_refreshes_witness :
  ∃ o ns', IPAM_Reconcile (H := api_concrete) (H0 := w_settings) (H1 := cni_concrete) w_server "network1" ∅ = (o, ns') ∧
    o = Ret tt ∧ set_wf (P := cni_concrete) ns' ∧
    server_network (H := api_concrete) (H0 := w_settings) (H1 := cni_concrete) w_server "network1" (ns' !! "network1").
Proof.
  destruct (IPAM_Reconcile_refreshes cni_concrete_laws w_server "network1" ∅ w_server_ok (map_Forall_empty _))
    as (o & ns' & E & Hwf & Hres & _).
  assert (o = Ret tt) as Eo.
  { assert ((IPAM_Reconcile (H := api_concrete) (H0 := w_settings) (H1 := cni_concrete) w_server "network1" ∅).1 = Ret tt) as E1 by (vm_compute; reflexivity).
    rewrite E in E1. exact E1. }
  exists o, ns'. split; [exact E|]. split; [exact Eo|]. split; [exact Hwf|].
  destruct Hres as [[_ Hres]|[e He]]; [exact Hres|rewrite Eo in He; discriminate He].
Defined.
