(* ===== verification/Regexp.v ===== *)
(** * Regular expressions (the Go package regexp)

    The constructs of the expression the repository compiles, with their
    documented meaning as an inductive relation, an executable matcher by
    derivatives, and the proof that they agree. *)

From S2P Require Import Prelude GoNet GoStrings.
From Stdlib Require Import Ascii.
Local Open Scope Z_scope.

Inductive regexp : Type :=
  | RNone
  | REmpty
  | RChar (p : ascii → bool)
  | RCat (a b : regexp)
  | RAlt (a b : regexp)
  | RStar (a : regexp).

(** [x+], [x?], [x{n,m}], a literal. *)
Definition RPlus (a : regexp) : regexp := RCat a (RStar a).
Definition ROpt (a : regexp) : regexp := RAlt a REmpty.
Fixpoint RUpTo (n : nat) (a : regexp) : regexp :=
  match n with O => REmpty | S n => ROpt (RCat a (RUpTo n a)) end.
Fixpoint RLit (s : string) : regexp :=
  match s with
  | EmptyString => REmpty
  | String c s => RCat (RChar (λ x, bool_decide (x = c))) (RLit s)
  end.

Inductive matches : regexp → string → Prop :=
  | m_empty : matches REmpty ""
  | m_char p c : p c = true → matches (RChar p) (String c "")
  | m_cat a b s t : matches a s → matches b t → matches (RCat a b) (s +:+ t)
  | m_alt_l a b s : matches a s → matches (RAlt a b) s
  | m_alt_r a b s : matches b s → matches (RAlt a b) s
  | m_star_nil a : matches (RStar a) ""
  | m_star_app a s t : matches a s → matches (RStar a) t → matches (RStar a) (s +:+ t).

(** ** Matching by derivatives *)

Fixpoint nullable (r : regexp) : bool :=
  match r with
  | RNone | RChar _ => false
  | REmpty | RStar _ => true
  | RCat a b => nullable a && nullable b
  | RAlt a b => nullable a || nullable b
  end.

Fixpoint derive (c : ascii) (r : regexp) : regexp :=
  match r with
  | RNone | REmpty => RNone
  | RChar p => if p c then REmpty else RNone
  | RCat a b => if nullable a then RAlt (RCat (derive c a) b) (derive c b) else RCat (derive c a) b
  | RAlt a b => RAlt (derive c a) (derive c b)
  | RStar a => RCat (derive c a) (RStar a)
  end.

(** [regexp.Match] of an expression anchored at both ends. *)
Fixpoint Match (r : regexp) (s : string) : bool :=
  match s with
  | EmptyString => nullable r
  | String c s => Match (derive c r) s
  end.

Lemma sapp_eq_nil (s t : string) : s +:+ t = "" → s = "" ∧ t = "".
Proof. destruct s; [|discriminate]. done. Qed.

Lemma nullable_spec r : nullable r = true ↔ matches r "".
Proof.
  induction r as [| |p|a IHa b IHb|a IHa b IHb|a IHa]; cbn.
  - split; [done|inversion 1].
  - split; [constructor|done].
  - split; [done|inversion 1].
  - rewrite andb_true_iff, IHa, IHb. split.
    + intros [Ha Hb]. exact (m_cat _ _ _ _ Ha Hb).
    + inversion 1 as [| |? ? s t Ha Hb Hr E| | | |]; subst. by apply sapp_eq_nil in E as [-> ->].
  - rewrite orb_true_iff, IHa, IHb. split.
    + intros [Ha|Hb]; [by apply m_alt_l|by apply m_alt_r].
    + inversion 1; subst; auto.
  - split; [constructor|done].
Qed.

Lemma derive_sound r c s : matches (derive c r) s → matches r (String c s).
Proof.
  revert s. induction r as [| |p|a IHa b IHb|a IHa b IHb|a IHa]; cbn; intros s.
  1, 2: inversion 1.
  - destruct (p c) eqn:Hp; inversion 1; subst. by constructor.
  - assert (∀ s, matches (RCat (derive c a) b) s → matches (RCat a b) (String c s)) as Hcat.
    { intros u Hu. inversion Hu as [| |? ? x y Hx Hy Hr E| | | |]; subst. rewrite <-sapp_cons. constructor; auto. }
    destruct (nullable a) eqn:Hn; [|apply Hcat].
    inversion 1; subst; [by apply Hcat|]. rewrite <-(sapp_nil (String c s)). constructor; [by apply nullable_spec|auto].
  - inversion 1; subst; [apply m_alt_l|apply m_alt_r]; auto.
  - inversion 1 as [| |? ? x y Hx Hy Hr E| | | |]; subst. rewrite <-sapp_cons. constructor; auto.
Qed.

Lemma derive_complete r c u : matches r u → ∀ s, u = String c s → matches (derive c r) s.
Proof.
  intros Hm. induction Hm as [|p x Hp|a b s t Hs IHs Ht IHt|a b s Hs IHs|a b s Hs IHs|a|a s t Hs IHs Ht IHt];
    intros v E; cbn.
  - discriminate E.
  - injection E as -> <-. rewrite Hp. constructor.
  - destruct s as [|x s]; cbn in E.
    + assert (nullable a = true) as -> by (by apply nullable_spec). apply m_alt_r. auto.
    + injection E as -> <-. assert (matches (RCat (derive c a) b) (s +:+ t)) by (constructor; auto).
      destruct (nullable a); [by apply m_alt_l|done].
  - apply m_alt_l. auto.
  - apply m_alt_r. auto.
  - discriminate E.
  - destruct s as [|x s]; cbn in E; [auto|]. injection E as -> <-. constructor; auto.
Qed.

Lemma Match_spec r s : Match r s = true ↔ matches r s.
Proof.
  revert r. induction s as [|c s IH]; intros r; cbn; [apply nullable_spec|]. rewrite IH. split.
  - apply derive_sound.
  - intros Hm. by eapply derive_complete.
Qed.

(** ** What the derived constructs match *)

(** Every byte of [s] satisfies [p]. *)
Fixpoint string_forall (p : ascii → bool) (s : string) : bool :=
  match s with EmptyString => true | String c s => p c && string_forall p s end.

Lemma matches_lit s t : matches (RLit s) t ↔ t = s.
Proof.
  revert t. induction s as [|c s IH]; intros t; cbn.
  - split; [by inversion 1|]. intros ->. constructor.
  - split.
    + inversion 1 as [| |? ? x y Hx Hy Hr E| | | |]; subst. apply IH in Hy as ->.
      inversion Hx as [|? d Hd| | | | |]; subst. by apply bool_decide_eq_true in Hd as ->.
    + intros ->. change (String c s) with (String c "" +:+ s). constructor; [|by apply IH].
      constructor. by apply bool_decide_eq_true.
Qed.

Lemma matches_cat a b s : matches (RCat a b) s ↔ ∃ x y, s = x +:+ y ∧ matches a x ∧ matches b y.
Proof.
  split.
  - inversion 1; subst; eauto.
  - intros (x & y & -> & ? & ?). by constructor.
Qed.

Lemma matches_alt a b s : matches (RAlt a b) s ↔ matches a s ∨ matches b s.
Proof. split; [inversion 1; auto|]. intros [?|?]; [by apply m_alt_l|by apply m_alt_r]. Qed.

Lemma matches_star_char p s : matches (RStar (RChar p)) s ↔ string_forall p s = true.
Proof.
  split.
  - remember (RStar (RChar p)) as r eqn:Er. induction 1 as [| | | | |a|a s t Hs IHs Ht IHt]; try discriminate Er; [done|].
    injection Er as ->. inversion Hs as [|? c Hc| | | | |]; subst. rewrite sapp_cons, sapp_nil. cbn. by rewrite Hc, IHt.
  - induction s as [|c s IH]; cbn; [constructor|]. rewrite andb_true_iff. intros [Hc Hs].
    change (String c s) with (String c "" +:+ s). apply m_star_app; [by constructor|auto].
Qed.

Lemma matches_plus_char p s : matches (RPlus (RChar p)) s ↔ s ≠ "" ∧ string_forall p s = true.
Proof.
  unfold RPlus. rewrite matches_cat. split.
  - intros (x & y & -> & Hx & Hy). apply matches_star_char in Hy. inversion Hx as [|? c Hc| | | | |]; subst.
    rewrite sapp_cons, sapp_nil. cbn. by rewrite Hc, Hy.
  - destruct s as [|c s]; [naive_solver|]. cbn. rewrite andb_true_iff. intros [_ [Hc Hs]].
    exists (String c ""), s. split_and!; [done|by constructor|by apply matches_star_char].
Qed.

Lemma matches_upto_char n p s :
  matches (RUpTo n (RChar p)) s ↔ (String.length s ≤ n)%nat ∧ string_forall p s = true.
Proof.
  revert s. induction n as [|n IH]; intros s; cbn [RUpTo].
  - split; [by inversion 1|]. destruct s; cbn; [constructor|lia].
  - unfold ROpt. rewrite matches_alt, matches_cat. split.
    + intros [(x & y & -> & Hx & Hy)|Hs]; [|inversion Hs; subst; cbn; split; [lia|done]].
      apply IH in Hy as [Hl Hy]. inversion Hx as [|? c Hc| | | | |]; subst.
      rewrite sapp_cons, sapp_nil. cbn. rewrite Hc, Hy. split; [lia|done].
    + destruct s as [|c s]; [right; constructor|]. cbn. rewrite andb_true_iff. intros [Hl [Hc Hs]]. left.
      exists (String c ""), s. split_and!; [done|by constructor|]. apply IH. split; [lia|done].
Qed.
