(* ===== verification/Admission.v ===== *)
(** * Admission requests and their handlers (pkg/webhook/utils, the handler.go
    of pkg/webhook/validating and of pkg/webhook/mutating)

    A handler reads the API server and answers the admission request; the
    answer may come from any statement, so a handler is a computation of type
    [handling], in which [Done] is an early return.  What the decoder makes of
    the request is an argument ([Fail] when it cannot decode). *)

From Stdlib Require Import Ascii.
From S2P Require Import Prelude GoNet GoStrings NetworkingV1 MulticlusterV1 Kubernetes Config Utils KubeClient Names Store.
Local Open Scope Z_scope.

(** ** Responses (sigs.k8s.io/controller-runtime/pkg/webhook/admission); the
    text of a message is not computed. *)

Inductive Response : Type :=
  | Allowed (reason : string)
  | Denied (reason : error)
  | Errored (code : Z) (err : error)
  (** [PatchResponseFromRaw]: the patch from the object of the request to the
      JSON of the pod *)
  | Patched (pod : Pod).

Inductive handling (A : Type) : Type :=
  | Done (r : Response)
  | Next (a : A)
  | HPanic
  | HDiverge.
Arguments Done {A} r.
Arguments Next {A} a.
Arguments HPanic {A}.
Arguments HDiverge {A}.

#[export] Instance handling_ret : MRet handling := λ A a, Next a.
#[export] Instance handling_bind : MBind handling := λ A B f m,
  match m with
  | Done r => Done r
  | Next a => f a
  | HPanic => HPanic
  | HDiverge => HDiverge
  end.

Definition respond (h : handling Response) : outcome Response :=
  match h with
  | Done r | Next r => Ret r
  | HPanic => Panic
  | HDiverge => Diverge
  end.

(** [if cond { return r }] *)
Definition when (cond : bool) (r : Response) : handling unit := if cond then Done r else Next tt.

(** [if err != nil { return k(err) }] *)
Definition attempt {A} (o : outcome A) (k : error → Response) : handling A :=
  match o with
  | Ret a => Next a
  | Fail err => Done (k err)
  | Panic => HPanic
  | Diverge => HDiverge
  end.

(** A call without an error result. *)
Definition call {A} (o : outcome A) : handling A :=
  match o with
  | Ret a => Next a
  | Diverge => HDiverge
  | _ => HPanic
  end.

Fixpoint for_all {A} (f : A → handling unit) (l : list A) : handling unit :=
  match l with
  | [] => Next tt
  | x :: l => f x;; for_all f l
  end.

Definition StatusBadRequest : Z := 400.
Definition StatusInternalServerError : Z := 500.

Definition AdmissionErroredWithLog (code : Z) (err : error) : Response := Errored code err.
Definition AdmissionDeniedWithLog (reason : error) : Response := Denied reason.

(** A reason without arguments. *)
Definition because (text : string) : Response := Denied (errors_New text).

Definition bad_request : error → Response := AdmissionErroredWithLog StatusBadRequest.
Definition internal_error : error → Response := AdmissionErroredWithLog StatusInternalServerError.

(** ** Annotations and labels (pkg/constants) *)

Definition AnnotationIPPool : string := "networking.alibaba.com/ip-pool".
Definition AnnotationIPFamily : string := "networking.alibaba.com/ip-family".
Definition AnnotationIPRetain : string := "networking.alibaba.com/ip-retain".
Definition AnnotationSpecifiedNetwork : string := "networking.alibaba.com/specified-network".
Definition AnnotationSpecifiedSubnet : string := "networking.alibaba.com/specified-subnet".
Definition AnnotationNetworkType : string := "networking.alibaba.com/network-type".
Definition LabelSpecifiedNetwork : string := "networking.alibaba.com/specified-network".
Definition LabelSpecifiedSubnet : string := "networking.alibaba.com/specified-subnet".
Definition LabelNetworkType : string := "networking.alibaba.com/network-type".
Definition LabelAddressQuota : string := "networking.alibaba.com/address-quota".
Definition LabelIPv4AddressQuota : string := "networking.alibaba.com/ipv4-address-quota".
Definition LabelIPv6AddressQuota : string := "networking.alibaba.com/ipv6-address-quota".
Definition LabelDualStackAddressQuota : string := "networking.alibaba.com/dualstack-address-quota".
Definition LabelUnderlayNetworkAttachment : string := "networking.alibaba.com/underlay-network-attachment".
Definition LabelOverlayNetworkAttachment : string := "networking.alibaba.com/overlay-network-attachment".
Definition QuotaNonEmpty : string := "nonempty".
Definition QuotaEmpty : string := "empty".
Definition Attached : string := "true".
Definition Unattached : string := "false".

(** ** Requests *)

Record GroupVersionKind := mkGVK { gvk_Group : string; gvk_Version : string; gvk_Kind : string }.

#[export] Instance GroupVersionKind_eq_dec : EqDecision GroupVersionKind.
Proof. solve_decision. Defined.

(** What the decoder returns for an object of the request, by the type the
    handler asks for. *)
Record Decoded := mkDecoded {
  as_Network : outcome V1Network;
  as_Subnet : outcome V1Subnet;
  as_RemoteSubnet : outcome RemoteSubnet;
  as_RemoteCluster : outcome RemoteCluster;
  as_Pod : outcome Pod
}.

Record Request := mkRequest {
  rq_Operation : string;
  rq_Kind : GroupVersionKind;
  rq_Namespace : string;
  rq_Name : string;
  rq_Object : Decoded;
  rq_OldObject : Decoded
}.

Definition OpCreate : string := "CREATE".
Definition OpUpdate : string := "UPDATE".
Definition OpDelete : string := "DELETE".

Definition podGVK : GroupVersionKind := mkGVK "" "v1" "Pod".
Definition networkGVK : GroupVersionKind := mkGVK "networking.alibaba.com" "v1" "Network".
Definition subnetGVK : GroupVersionKind := mkGVK "networking.alibaba.com" "v1" "Subnet".
Definition ipInstanceGVK : GroupVersionKind := mkGVK "networking.alibaba.com" "v1" "IPInstance".
Definition remoteClusterGVK : GroupVersionKind := mkGVK "multicluster.alibaba.com" "v1" "RemoteCluster".
Definition remoteSubnetGVK : GroupVersionKind := mkGVK "multicluster.alibaba.com" "v1" "RemoteSubnet".

(** The handlers registered for each operation; [Handler.Handle] of both
    webhooks, with the response type of the webhook. *)
Abbreviation handlers R := (list (GroupVersionKind * outcome R)).

Definition handle_with {R} (by_pass : R) (createHandlers updateHandlers deleteHandlers : handlers R) (req : Request) :
    outcome R :=
  let lookup (table : handlers R) :=
    match snd <$> (snd <$> list_find (λ h, h.1 = rq_Kind req) table) with Some h => h | None => Ret by_pass end in
  if decide (rq_Operation req = OpCreate) then lookup createHandlers
  else if decide (rq_Operation req = OpUpdate) then lookup updateHandlers
  else if decide (rq_Operation req = OpDelete) then lookup deleteHandlers
  else Ret by_pass.

(** ** pkg/webhook/utils *)

Section webhookutils.
Context `{Settings}.

Definition specifiedSubnetStrToSubnetNames (specifiedSubnetString : string) : list string :=
  if nonempty specifiedSubnetString
  then if DualStackEnabled then Split specifiedSubnetString "/"%char else [specifiedSubnetString]
  else [].

Definition SubnetNameBelongsToSpecifiedSubnets (subnetName specifiedSubnetString : string) : bool :=
  bool_decide (subnetName ∈ specifiedSubnetStrToSubnetNames specifiedSubnetString).

(** One turn of the loop over the names, at index [index]. *)
Definition check_specified (r : Reader) (count : nat) (state : nat * string) (subnetName : string) :
    outcome (nat * string) :=
  let '(index, networkNameFromSubnet) := state in
  match r_GetSubnet r subnetName with
  | Ret subnet =>
      let version := ar_Version (ssp_Range (vs_Spec subnet)) in
      if decide (count = 2%nat ∧ index = 0%nat ∧ version ≠ IPVersion4) then
        Fail (Errorf "when both ipv4/ipv6 subnets are specified, the subnet name in front of the '/' should be an ipv4 subnet" [])
      else if decide (count = 2%nat ∧ index ≠ 0%nat ∧ version ≠ IPVersion6) then
        Fail (Errorf "when both ipv4/ipv6 subnets are specified, the subnet name after the '/' should be an ipv6 subnet" [])
      else if decide (networkNameFromSubnet = "") then Ret (S index, ssp_Network (vs_Spec subnet))
      else if decide (networkNameFromSubnet = ssp_Network (vs_Spec subnet)) then Ret (S index, networkNameFromSubnet)
      else Fail (Errorf "the networks of ipv4/ipv6 subnets need to be the same" [])
  | Fail _ => Fail (Errorf "specified subnet %s not found" [subnetName])
  | Panic => Panic
  | Diverge => Diverge
  end.

Definition SelectNetworkAndSubnetFromObject (r : Reader) (obj : ObjectMeta) : outcome (string * string) :=
  let networkName := PickFirstNonEmptyString [annotation obj AnnotationSpecifiedNetwork; label obj LabelSpecifiedNetwork] in
  let subnetNameStr := PickFirstNonEmptyString [annotation obj AnnotationSpecifiedSubnet; label obj LabelSpecifiedSubnet] in
  let subnetNames := specifiedSubnetStrToSubnetNames subnetNameStr in
  if decide (2 < length subnetNames)%nat then Fail (Errorf "cannot have more than two specified subnet in dualstack" [])
  else
    st ← for_each (check_specified r (length subnetNames)) (0%nat, "") subnetNames;
    let networkNameFromSubnet := st.2 in
    if nonempty networkNameFromSubnet then
      let networkName := if nonempty networkName then networkName else networkNameFromSubnet in
      if decide (networkName = networkNameFromSubnet) then Ret (networkName, subnetNameStr)
      else Fail (Errorf "specified network and subnet conflict in %s %s/%s" [om_Namespace obj; om_Name obj])
    else Ret (networkName, subnetNameStr).
End webhookutils.

(** ** Reasoning about handlers *)

(** The computation ends a handler only to refuse the request. *)
Definition refuses {A} (h : handling A) : Prop := ∀ reason, h ≠ Done (Allowed reason).

(** It neither panics nor runs for ever. *)
Definition safe {A} (h : handling A) : Prop := match h with HPanic | HDiverge => False | _ => True end.

Lemma refuses_when cond r : (∀ reason, r ≠ Allowed reason) → refuses (when cond r).
Proof. intros Hr reason. unfold when. destruct cond; naive_solver. Qed.

Lemma refuses_attempt {A} (o : outcome A) k : (∀ e reason, k e ≠ Allowed reason) → refuses (attempt o k).
Proof. intros Hk reason. unfold attempt. destruct o; naive_solver. Qed.

Lemma refuses_call {A} (o : outcome A) : refuses (call o).
Proof. intros reason. unfold call. by destruct o. Qed.

Lemma refuses_Next {A} (a : A) : refuses (Next a).
Proof. done. Qed.

Lemma refuses_Done {A} r : (∀ reason, r ≠ Allowed reason) → refuses (A := A) (Done r).
Proof. intros Hr reason. naive_solver. Qed.

Lemma refuses_bind {A B} (h : handling A) (f : A → handling B) :
  refuses h → (∀ a, refuses (f a)) → refuses (h ≫= f).
Proof. intros Hh Hf reason. specialize (Hh reason). destruct h as [r|a| |]; cbn; [naive_solver|apply Hf|done..]. Qed.

Lemma refuses_for_all {A} (f : A → handling unit) l : (∀ x, refuses (f x)) → refuses (for_all f l).
Proof. intros Hf. induction l as [|x l IH]; cbn; [apply refuses_Next|]. by apply refuses_bind. Qed.

Lemma when_Next cond r u : when cond r = Next u ↔ cond = false.
Proof. destruct u, cond; done. Qed.

Lemma bind_Next {A B} (h : handling A) (f : A → handling B) b :
  (h ≫= f) = Next b ↔ ∃ a, h = Next a ∧ f a = Next b.
Proof. destruct h; cbn; naive_solver. Qed.

Lemma seq_Next {B} (h : handling unit) (f : handling B) b : (h;; f) = Next b ↔ h = Next tt ∧ f = Next b.
Proof. destruct h as [|[]| |]; cbn; naive_solver. Qed.

Lemma for_all_Next {A} (f : A → handling unit) l u : for_all f l = Next u ↔ ∀ x, x ∈ l → f x = Next tt.
Proof.
  destruct u. induction l as [|x l IH]; cbn; [by split; [inversion 2|]|].
  rewrite seq_Next, IH. setoid_rewrite elem_of_cons. naive_solver.
Qed.

Lemma allowed_bind {A} (h : handling A) (f : A → handling Response) reason :
  refuses h → respond (h ≫= f) = Ret (Allowed reason) ↔ ∃ a, h = Next a ∧ respond (f a) = Ret (Allowed reason).
Proof.
  intros Hh. specialize (Hh reason). destruct h as [r|a| |]; cbn; [|naive_solver..].
  split; [|naive_solver]. intros E. by simplify_eq.
Qed.

Lemma allowed_seq (h : handling unit) (f : handling Response) reason :
  refuses h → respond (h;; f) = Ret (Allowed reason) ↔ h = Next tt ∧ respond f = Ret (Allowed reason).
Proof. intros Hh. rewrite allowed_bind by done. split; [intros ([] & ? & ?); done|]. intros [? ?]. by exists tt. Qed.

Lemma safe_bind {A B} (h : handling A) (f : A → handling B) :
  safe h → (∀ a, h = Next a → safe (f a)) → safe (h ≫= f).
Proof. destruct h; cbn; auto. Qed.

Lemma safe_for_all {A} (f : A → handling unit) l : (∀ x, x ∈ l → safe (f x)) → safe (for_all f l).
Proof.
  induction l as [|x l IH]; cbn; [done|]. intros Hf. apply safe_bind; [apply Hf; by left|].
  intros _ _. apply IH. intros y Hy. apply Hf. by right.
Qed.

Lemma safe_when cond r : safe (when cond r).
Proof. by destruct cond. Qed.

Lemma safe_attempt {A} (o : outcome A) k : o ≠ Panic → o ≠ Diverge → safe (attempt o k).
Proof. destruct o; naive_solver. Qed.

Lemma respond_safe h : safe h → ∃ r, respond h = Ret r.
Proof. destruct h; cbn; naive_solver. Qed.


(** A handler, or a part of it, written with branches, only refuses. *)
Ltac refuses :=
  repeat first
    [ apply refuses_Next | apply refuses_call | (intros ?; discriminate)
    | apply refuses_when; intros ?; discriminate
    | apply refuses_Done; intros ?; discriminate
    | apply refuses_attempt; intros ? ?; try case_match; discriminate
    | apply refuses_bind; [|intros ?]
    | apply refuses_for_all; intros ?
    | case_match ].

(** The same for [safe]. *)
Ltac safe :=
  repeat first
    [ exact I | apply safe_when | apply safe_bind; [|intros ? ?] | apply safe_for_all; intros ? ? | case_match ].
