(* ===== verification/Validating.v ===== *)
(** * The validating webhooks (pkg/webhook/validating)

    One definition per registered handler; [Handle] dispatches a request to
    them.  The client's reads go through the cache, but the two are separate
    arguments where a handler uses both. *)

From Stdlib Require Import Ascii.
From S2P Require Import Prelude GoNet GoStrings Regexp NetBlock NetText CNIPlugins NetworkingV1 MulticlusterV1 Kubernetes Config Utils IPAMTypes Transform Names GoJSON KubeClient Store Admission.
Local Open Scope Z_scope.

(** ** network.go *)

Definition node_selector (network : V1Network) : gmap string string :=
  default ∅ (ns_NodeSelector (vn_Spec network)).
Definition has_selector (network : V1Network) : bool := negb (bool_decide (node_selector network = ∅)).

Definition peer_address_ok (peer : BGPPeer) : handling unit :=
  when (bool_decide (ParseIP (bp_Address peer) = []))
    (Denied (Errorf "invalid bgp peer ip address %v" [bp_Address peer])).

Definition BGPPeers_of (network : V1Network) : list BGPPeer :=
  match ns_Config (vn_Spec network) with Some c => nc_BGPPeers c | None => [] end.

(** The switch over the mode in [NetworkCreateValidation]. *)
Definition create_mode (network : V1Network) : handling unit :=
  let networkType := GetNetworkType (Some network) in
  mode ← call (GetNetworkMode (Some network));
  if decide (mode = NetworkModeBGP) then
    when (negb (bool_decide (networkType = NetworkTypeUnderlay))) (because "BGP mode can only be used for underlay network");;
    when (bool_decide (ns_NetID (vn_Spec network) = None)) (because "must assign net ID for bgp network");;
    when (negb (bool_decide (length (BGPPeers_of network) = 1%nat))) (because "one and only one bgp router need to be set");;
    for_all (λ peer, peer_address_ok peer;;
                     when (bp_ASN peer =? 0) (Denied (Errorf "bgp peer %v's AS number need to be set" [bp_Address peer])))
      (BGPPeers_of network)
  else if decide (mode = NetworkModeVlan) then
    when (negb (bool_decide (networkType = NetworkTypeUnderlay))) (because "VLAN mode can only be used for underlay network")
  else if decide (mode = NetworkModeVxlan) then
    when (negb (bool_decide (networkType = NetworkTypeOverlay))) (because "VXLAN mode can only be used for overlay network")
  else Done (Denied (Errorf "unknown network mode %s" [mode])).

Definition NetworkCreateValidation (r : Reader) (obj : outcome V1Network) : outcome Response := respond (
  network ← attempt obj bad_request;
  let networkType := GetNetworkType (Some network) in
  (if decide (networkType = NetworkTypeUnderlay) then
     when (negb (has_selector network)) (because "must have node selector for underlay network")
   else if decide (networkType = NetworkTypeOverlay) then
     networks ← attempt (r_ListNetworks r) internal_error;
     for_all (λ n, when (bool_decide (GetNetworkType (Some n) = NetworkTypeOverlay))
                     (because "must have one overlay network at most")) networks;;
     when (has_selector network) (because "must not assign node selector for overlay network");;
     when (bool_decide (ns_NetID (vn_Spec network) = None)) (because "must assign net ID for overlay network")
   else Done (Denied (Errorf "unknown network type %s" [networkType])));;
  create_mode network;;
  Done (Allowed "validation pass")).

(** The [len] of the peers of a nil [Config] is a nil dereference here. *)
Definition update_mode (newN : V1Network) : handling unit :=
  mode ← call (GetNetworkMode (Some newN));
  if decide (mode = NetworkModeBGP) then
    config ← call (deref (ns_Config (vn_Spec newN)));
    when (negb (bool_decide (length (nc_BGPPeers config) = 1%nat))) (because "one and only one bgp router need to be set");;
    for_all peer_address_ok (nc_BGPPeers config)
  else if decide (mode = NetworkModeVlan ∨ mode = NetworkModeVxlan) then Next tt
  else Done (Denied (Errorf "unknown network mode %s" [mode])).

Definition NetworkUpdateValidation (newObj oldObj : outcome V1Network) : outcome Response := respond (
  newN ← attempt newObj bad_request;
  oldN ← attempt oldObj bad_request;
  when (negb (bool_decide (GetNetworkType (Some oldN) = GetNetworkType (Some newN))))
    (because "network type must not be changed");;
  (if decide (GetNetworkType (Some newN) = NetworkTypeUnderlay) then
     when (negb (has_selector newN)) (because "must have node selector for underlay network")
   else if decide (GetNetworkType (Some newN) = NetworkTypeOverlay) then
     when (has_selector newN) (because "node selector must not be assigned for overlay network")
   else Done (Denied (Errorf "unknown network type %s" [GetNetworkType (Some newN)])));;
  when (negb (bool_decide (ns_Mode (vn_Spec oldN) = ns_Mode (vn_Spec newN)))) (because "network mode must not be changed");;
  update_mode newN;;
  when (negb (bool_decide (ns_NetID (vn_Spec oldN) = ns_NetID (vn_Spec newN)))) (because "net ID must not be changed");;
  Done (Allowed "validation pass")).

Section validating.
Context `{ApiMachinery} `{Settings}.
Implicit Types r : Reader.

Definition NetworkDeleteValidation r (name : string) : outcome Response := respond (
  network ← attempt (r_GetNetwork r name) bad_request;
  subnetList ← attempt (r_ListSubnets r) internal_error;
  for_all (λ subnet, when (bool_decide (ssp_Network (vs_Spec subnet) = om_Name (vn_Meta network)))
                       (Denied (Errorf "still have child subnet %s" [om_Name (vs_Meta subnet)]))) subnetList;;
  (if bool_decide (ns_Type (vn_Spec network) = NetworkTypeOverlay) && MultiClusterEnabled then
     remoteClusterList ← attempt (r_ListRemoteClusters r) internal_error;
     when (negb (bool_decide (length remoteClusterList = 0%nat)))
       (Denied (Errorf "still have remote cluster. number=%v" []))
   else Next tt);;
  Done (Allowed "validation pass")).

(** ** subnet.go *)

Definition MaxSubnetCapacity : Z := Z.shiftl 1 16.

Definition AutoNatOutgoing_set (subnet : V1Subnet) : bool :=
  match ssp_Config (vs_Spec subnet) with
  | Some c => match sc_AutoNatOutgoing c with Some _ => true | None => false end
  | None => false
  end.

(** The switch over the mode of the parent network. *)
Definition create_netID (network : V1Network) (subnet : V1Subnet) : handling unit :=
  let netID := ssp_NetID (vs_Spec subnet) in
  let parentNetID := ns_NetID (vn_Spec network) in
  mode ← call (GetNetworkMode (Some network));
  if decide (mode = NetworkModeVlan) then
    (match netID with
     | None => when (bool_decide (parentNetID = None)) (because "must have valid Net ID")
     | Some n => when (match parentNetID with Some p => negb (n =? p) | None => false end)
                   (because "have inconsistent Net ID with network")
     end);;
    when (AutoNatOutgoing_set subnet) (because "must not set autoNatOutgoing with underlay subnet");;
    when (negb (nonempty (ar_Gateway (ssp_Range (vs_Spec subnet))))) (because "must assign gateway for a vlan subnet")
  else if decide (mode = NetworkModeBGP) then
    when (negb (bool_decide (netID = None))) (because "must not assign net ID for bgp subnet");;
    when (AutoNatOutgoing_set subnet) (because "must not set autoNatOutgoing with underlay subnet")
  else if decide (mode = NetworkModeVxlan) then
    when (negb (bool_decide (netID = None))) (because "must not assign net ID for overlay subnet")
  else Next tt.

Section subnet.
Context `{CNIPlugins} `{StrSets}.

(** [Canonicalize] on an object of its own. *)
Definition canonicalize (subnet : Subnet) : outcome Subnet :=
  match Subnet_Canonicalize subnet with
  | (Ret _, s) => Ret s
  | (Fail e, _) => Fail e
  | (Panic, _) => Panic
  | (Diverge, _) => Diverge
  end.

(** A listed subnet that cannot be canonicalized is passed over. *)
Definition no_overlap (ipamSubnet : Subnet) (listed : V1Subnet) : handling unit :=
  match canonicalize (TransferSubnetForIPAM listed) with
  | Ret comparedSubnet =>
      when (Subnet_Overlap comparedSubnet ipamSubnet)
        (Denied (Errorf "overlap with existing subnet %s" [sn_Name comparedSubnet]))
  | Fail _ => Next tt
  | Panic => HPanic
  | Diverge => HDiverge
  end.

Definition no_intersection (what : string) (range : AddressRange) (listed : AddressRange) (name : string) : handling unit :=
  b ← call (Intersect range listed);
  when b (Denied (Errorf what [name])).

Definition SubnetCreateValidation r (obj : outcome V1Subnet) : outcome Response := respond (
  subnet ← attempt obj bad_request;
  let parent := ssp_Network (vs_Spec subnet) in
  let range := ssp_Range (vs_Spec subnet) in
  when (negb (nonempty parent)) (because "must have parent network");;
  network ← attempt (r_GetNetwork r parent)
    (λ err, if IsNotFound err then Denied (Errorf "parent network %s does not exist" [parent]) else internal_error err);
  create_netID network subnet;;
  attempt (ValidateAddressRange range) Denied;;
  when (negb DualStackEnabled && IsIPv6Subnet (Some subnet)) (because "ipv6 subnet non-supported if dualstack not enabled");;
  when (MaxSubnetCapacity <? CalculateCapacity range) (Denied (Errorf "subnet contains more than %d IPs" []));;
  ipamSubnet ← attempt (canonicalize (TransferSubnetForIPAM subnet))
    (λ err, Denied (Wrapf "canonicalize subnet failed: %v" [] err));
  subnetList ← attempt (r_ListSubnets r) internal_error;
  for_all (no_overlap ipamSubnet) subnetList;;
  (if MultiClusterEnabled then
     rcSubnetList ← attempt (r_ListRemoteSubnets r) internal_error;
     for_all (λ rcSubnet, no_intersection "overlap with existing RemoteSubnet %s" range (rs_Range (rs_Spec rcSubnet))
                            (om_Name (rs_Meta rcSubnet))) rcSubnetList
   else Next tt);;
  Done (Allowed "validation pass")).

Definition update_netID (network : V1Network) (oldS newS : V1Subnet) : handling unit :=
  if decide (GetNetworkType (Some network) = NetworkTypeUnderlay) then
    when (negb (bool_decide (ssp_NetID (vs_Spec oldS) = ssp_NetID (vs_Spec newS)))) (because "must not change net ID");;
    when (AutoNatOutgoing_set newS) (because "must not set autoNatOutgoing with underlay subnet")
  else if decide (GetNetworkType (Some network) = NetworkTypeOverlay) then
    when (negb (bool_decide (ssp_NetID (vs_Spec newS) = None))) (because "must not assign net ID for overlay subnet")
  else Next tt.

Definition SubnetUpdateValidation r (newObj oldObj : outcome V1Subnet) : outcome Response := respond (
  newS ← attempt newObj bad_request;
  oldS ← attempt oldObj bad_request;
  when (negb (bool_decide (ssp_Network (vs_Spec oldS) = ssp_Network (vs_Spec newS)))) (because "must not change parent network");;
  network ← attempt (r_GetNetwork r (ssp_Network (vs_Spec newS))) internal_error;
  update_netID network oldS newS;;
  let oldR := ssp_Range (vs_Spec oldS) in
  let newR := ssp_Range (vs_Spec newS) in
  attempt (ValidateAddressRange newR) Denied;;
  when (negb (bool_decide (ar_Start oldR = ar_Start newR))) (because "must not change range start");;
  when (negb (bool_decide (ar_End oldR = ar_End newR))) (because "must not change range end");;
  when (negb (bool_decide (ar_Gateway oldR = ar_Gateway newR))) (because "must not change range gateway");;
  when (negb (bool_decide (ar_CIDR oldR = ar_CIDR newR))) (because "must not change range CIDR");;
  when (negb (DeepEqualStringSlice (ar_ExcludeIPs oldR) (ar_ExcludeIPs newR))) (because "must not change excluded IPs");;
  Done (Allowed "validation pass")).

Definition SubnetDeleteValidation r (name : string) : outcome Response := respond (
  subnet ← attempt (r_GetSubnet r name) bad_request;
  ipList ← attempt (r_ListIPInstances r (mkListOptions None {[LabelSubnet := om_Name (vs_Meta subnet)]})) internal_error;
  (* the addresses are read for the message *)
  when (negb (bool_decide (length ipList = 0%nat)))
    (Denied (Errorf "still have using ips %v"
       (map (λ ip, default "" (head (Split (ad_IP (is_Address (vi_Spec ip))) "/"%char))) ipList)));;
  Done (Allowed "validation pass")).

(** ** remotesubnet.go *)

Definition RemoteSubnetCreateValidation r (obj : outcome RemoteSubnet) : outcome Response := respond (
  remoteSubnet ← attempt obj bad_request;
  let range := rs_Range (rs_Spec remoteSubnet) in
  localSubnetList ← attempt (r_ListSubnets r) internal_error;
  for_all (λ localSubnet, no_intersection "overlay with existing subnet %s" range (ssp_Range (vs_Spec localSubnet))
                            (om_Name (vs_Meta localSubnet))) localSubnetList;;
  remoteSubnetList ← attempt (r_ListRemoteSubnets r) internal_error;
  for_all (λ compared, no_intersection "overlay with existing remote subnet %s" range (rs_Range (rs_Spec compared))
                         (om_Name (rs_Meta compared))) remoteSubnetList;;
  Done (Allowed "validation pass")).
End subnet.

Definition RemoteSubnetUpdateValidation : outcome Response := Ret (Allowed "validation pass").
Definition RemoteSubnetDeleteValidation : outcome Response := Ret (Allowed "validation pass").
End validating.

(** ** ip.go *)

Definition IPInstanceCreateValidation : outcome Response := Ret (Allowed "no validation").
Definition IPInstanceUpdateValidation : outcome Response := Ret (Allowed "no validation").
Definition IPInstanceDeleteValidation : outcome Response := Ret (Allowed "no validation").

(** ** pod.go *)

Definition stringEqualCaseInsensitive (a b : string) : bool := EqualFold a b.

(** The access of a counter through a nil pointer is a panic. *)
Definition overlay_capacity (what : string) (c : option Count) : handling unit :=
  counter ← call (deref c);
  when (ct_Available counter <=? 0) (because what).

Section pod.
Context `{ApiMachinery} `{Settings}.

Definition networkTypeFromPod (m : ObjectMeta) : string :=
  PickFirstNonEmptyString [annotation m AnnotationNetworkType; label m LabelNetworkType].

(** The check of the parent network; it returns the network type of the pod. *)
Definition pod_network_type (network : V1Network) (m : ObjectMeta) : handling string :=
  let networkType := ParseNetworkTypeFromString (networkTypeFromPod m) in
  if nonempty (networkTypeFromPod m) then
    when (negb (stringEqualCaseInsensitive (GetNetworkType (Some network)) networkType))
      (internal_error (Errorf "specified network type mismatch, network-type %s, network %s" [networkType; om_Name (vn_Meta network)]));;
    Next networkType
  else Next (ParseNetworkTypeFromString (GetNetworkType (Some network))).

(** The instances the pod already has; those being deleted are ignored. *)
Definition existing_instance_ok (specifiedNetwork specifiedSubnetStr : string) (ip : V1IPInstance) : handling unit :=
  if decide (om_DeletionTimestamp (vi_Meta ip) = None) then
    if decide (is_Network (vi_Spec ip) ≠ specifiedNetwork) then
      Done (Denied (Errorf "pod has assigned ip %s of network %s, cannot assign to another network %s"
                      [ad_IP (is_Address (vi_Spec ip)); is_Network (vi_Spec ip); specifiedNetwork]))
    else when (nonempty specifiedSubnetStr && negb (SubnetNameBelongsToSpecifiedSubnets (is_Subnet (vi_Spec ip)) specifiedSubnetStr))
      (Denied (Errorf "pod has assigend ip %s of subnet %s, cannot assign to another subnet by specified string %s"
                 [ad_IP (is_Address (vi_Spec ip)); is_Subnet (vi_Spec ip); specifiedSubnetStr]))
  else Next tt.

Definition pool_ip_ok (ip : string) : handling unit :=
  when (negb (bool_decide (NormalizedIP ip = ip))) (Denied (Errorf "ip pool has invalid ip %s" [ip])).

Definition overlay_network_ok (m : ObjectMeta) (network : V1Network) : handling unit :=
  if decide (ns_Type (vn_Spec network) = NetworkTypeOverlay) then
    let family := ParseIPFamilyFromString (annotation m AnnotationIPFamily) in
    let status := vn_Status network in
    if decide (family = IPv4Only) then overlay_capacity "lacking ipv4 addresses for overlay mode" (nst_Statistics status)
    else if decide (family = IPv6Only) then overlay_capacity "lacking ipv6 addresses for overlay mode" (nst_IPv6Statistics status)
    else if decide (family = DualStack) then overlay_capacity "lacking dual stack addresses for overlay mode" (nst_DualStackStatistics status)
    else Next tt
  else Next tt.

Definition PodCreateValidation (cache client : Reader) (obj : outcome Pod) : outcome Response := respond (
  pod ← attempt obj bad_request;
  let m := pod_Meta pod in
  when (pod_HostNetwork pod) (Allowed "skip validation on host-networking pod");;
  selected ← attempt (SelectNetworkAndSubnetFromObject cache m) Denied;
  let '(specifiedNetwork, specifiedSubnetStr) := selected in
  networkType ←
    (if nonempty specifiedNetwork then
       network ← attempt (r_GetNetwork cache specifiedNetwork)
         (λ err, if IsNotFound err then Denied (Errorf "specified network %s not found" [specifiedNetwork]) else internal_error err);
       networkType ← pod_network_type network m;
       ipList ← attempt (r_ListIPInstances client (pod_opts pod)) internal_error;
       for_all (existing_instance_ok specifiedNetwork specifiedSubnetStr) ipList;;
       Next networkType
     else Next (ParseNetworkTypeFromString (networkTypeFromPod m)));
  let ipPool := annotation m AnnotationIPPool in
  (if nonempty ipPool then
     when (negb (nonempty specifiedNetwork)) (because "ip pool and network(subnet) must be specified at the same time");;
     for_all pool_ip_ok (Split ipPool ","%char)
   else Next tt);;
  (if DualStackEnabled && bool_decide (networkType = Overlay) then
     networkList ← attempt (r_ListNetworks client) internal_error;
     for_all (overlay_network_ok m) networkList
   else Next tt);;
  Done (Allowed "validation pass")).
End pod.

(** ** remotecluster.go *)

Definition word_char (c : ascii) : bool :=
  let n := ascii_Z c in
  ((48 <=? n) && (n <=? 57)) || ((65 <=? n) && (n <=? 90)) || ((97 <=? n) && (n <=? 122)) || (n =? 95) || (n =? 45).
Definition digit_char (c : ascii) : bool := let n := ascii_Z c in (48 <=? n) && (n <=? 57).

Definition validEndpoint : regexp :=
  RCat (RCat (RLit "http") (RCat (ROpt (RLit "s")) (RLit "://")))
    (RCat (RPlus (RChar word_char))
      (RCat (RPlus (RCat (RLit ".") (RPlus (RChar word_char))))
        (RCat (RLit ":") (RCat (RChar digit_char) (RUpTo 4 (RChar digit_char)))))).

(** The lock of [validate] only serializes the calls. *)
Definition validate (rc : RemoteCluster) : handling Response :=
  let spec := rc_Spec rc in
  when (bool_decide (rc_APIEndpoint spec = "")) (because "invalid empty endpoint");;
  when (bool_decide (rc_CAData spec = [] ∨ rc_CertData spec = [] ∨ rc_KeyData spec = []))
    (because "invalid empty certificate info");;
  when (negb (Match validEndpoint (rc_APIEndpoint spec))) (because "endpoint format: https://server:address, please check");;
  Done (Allowed "validation pass").

Definition RCCreateValidation (obj : outcome RemoteCluster) : outcome Response := respond (
  rc ← attempt obj bad_request; validate rc).
Definition RCUpdateValidation (newObj : outcome RemoteCluster) : outcome Response := respond (
  newRC ← attempt newObj bad_request; validate newRC).
Definition RCDeleteValidation : outcome Response := Ret (Allowed "validation pass").

(** ** handler.go *)

Section handler.
Context `{ApiMachinery} `{Settings} `{CNIPlugins} `{StrSets}.

Definition createHandlers (cache client : Reader) (req : Request) : handlers Response :=
  let obj := rq_Object req in [
  (networkGVK, NetworkCreateValidation client (as_Network obj));
  (subnetGVK, SubnetCreateValidation client (as_Subnet obj));
  (ipInstanceGVK, IPInstanceCreateValidation);
  (remoteClusterGVK, RCCreateValidation (as_RemoteCluster obj));
  (remoteSubnetGVK, RemoteSubnetCreateValidation client (as_RemoteSubnet obj));
  (podGVK, PodCreateValidation cache client (as_Pod obj))].

Definition updateHandlers (client : Reader) (req : Request) : handlers Response :=
  let obj := rq_Object req in let old := rq_OldObject req in [
  (networkGVK, NetworkUpdateValidation (as_Network obj) (as_Network old));
  (subnetGVK, SubnetUpdateValidation client (as_Subnet obj) (as_Subnet old));
  (ipInstanceGVK, IPInstanceUpdateValidation);
  (remoteClusterGVK, RCUpdateValidation (as_RemoteCluster obj));
  (remoteSubnetGVK, RemoteSubnetUpdateValidation)].

Definition deleteHandlers (client : Reader) (req : Request) : handlers Response := [
  (networkGVK, NetworkDeleteValidation client (rq_Name req));
  (subnetGVK, SubnetDeleteValidation client (rq_Name req));
  (ipInstanceGVK, IPInstanceDeleteValidation);
  (remoteClusterGVK, RCDeleteValidation);
  (remoteSubnetGVK, RemoteSubnetDeleteValidation)].

Definition Handle (cache client : Reader) (req : Request) : outcome Response :=
  handle_with (Allowed "by pass") (createHandlers cache client req) (updateHandlers client req)
    (deleteHandlers client req) req.
End handler.
