(* ===== verification/ValidatingNetworks.v ===== *)
(** * What the validating webhook guarantees of networks

    An admitted network is well formed, there is at most one overlay network,
    and updates keep the identity of a network. *)

From Stdlib Require Import Ascii.
From S2P Require Import Prelude GoNet GoStrings Regexp NetBlock NetText CNIPlugins NetworkingV1 MulticlusterV1 Kubernetes Config Utils IPAMTypes IPAMSubnet IPAMSync IPAMCanonical Transform Names GoJSON KubeClient Store Admission Validating.
Local Open Scope Z_scope.

(** ** Networks *)

Definition network_mode (n : V1Network) : string :=
  match GetNetworkMode (Some n) with Ret m => m | _ => "" end.

Lemma GetNetworkMode_ret n : GetNetworkMode (Some n) = Ret (network_mode n).
Proof. unfold network_mode, GetNetworkMode. repeat case_decide; cbn; by repeat case_match. Qed.

Definition selector_fits (n : V1Network) : Prop :=
  GetNetworkType (Some n) = NetworkTypeUnderlay ∧ node_selector n ≠ ∅ ∨
  GetNetworkType (Some n) = NetworkTypeOverlay ∧ node_selector n = ∅.

Definition is_bgp (n : V1Network) : Prop := network_mode n = NetworkModeBGP.

(** One BGP router with an address. *)
Definition one_router (n : V1Network) (Q : BGPPeer → Prop) : Prop :=
  ∃ peer, BGPPeers_of n = [peer] ∧ ParseIP (bp_Address peer) ≠ [] ∧ Q peer.

(** What stays true of an admitted network. *)
Record network_sound (n : V1Network) : Prop := {
  nso_selector : selector_fits n;
  nso_mode : network_mode n = NetworkModeVxlan ↔ GetNetworkType (Some n) = NetworkTypeOverlay;
  nso_modes : is_bgp n ∨ network_mode n = NetworkModeVlan ∨ network_mode n = NetworkModeVxlan;
  nso_netID : is_bgp n ∨ GetNetworkType (Some n) = NetworkTypeOverlay → ns_NetID (vn_Spec n) ≠ None;
  nso_router : is_bgp n → one_router n (λ _, True)
}.

(** What [NetworkCreateValidation] asks for besides: the AS number. *)
Definition network_admissible (n : V1Network) : Prop :=
  network_sound n ∧ (is_bgp n → one_router n (λ peer, bp_ASN peer ≠ 0)).

Definition overlay (n : V1Network) : Prop := GetNetworkType (Some n) = NetworkTypeOverlay.
#[export] Instance overlay_dec n : Decision (overlay n).
Proof. unfold overlay. apply _. Defined.

Lemma has_selector_spec n : has_selector n = true ↔ node_selector n ≠ ∅.
Proof. unfold has_selector. rewrite negb_true_iff. apply bool_decide_eq_false. Qed.

Lemma has_selector_false n : has_selector n = false ↔ node_selector n = ∅.
Proof. unfold has_selector. rewrite negb_false_iff. apply bool_decide_eq_true. Qed.

Lemma not_bool_decide (P : Prop) `{Decision P} : negb (bool_decide P) = false ↔ P.
Proof. rewrite negb_false_iff. apply bool_decide_eq_true. Qed.

Lemma peer_address_ok_Next peer u : peer_address_ok peer = Next u ↔ ParseIP (bp_Address peer) ≠ [].
Proof. unfold peer_address_ok. rewrite when_Next. apply bool_decide_eq_false. Qed.

(** The rules that turn a sequence of checks into a conjunction. *)
Ltac checks := repeat first
  [ rewrite seq_Next | rewrite when_Next | rewrite for_all_Next | rewrite not_bool_decide
  | rewrite bool_decide_eq_false | rewrite negb_involutive | rewrite negb_false_iff
  | rewrite has_selector_spec | rewrite has_selector_false ].

Lemma one_router_checks n (Q : BGPPeer → Prop) :
  length (BGPPeers_of n) = 1%nat ∧ (∀ peer, peer ∈ BGPPeers_of n → ParseIP (bp_Address peer) ≠ [] ∧ Q peer) ↔
  one_router n Q.
Proof.
  unfold one_router. split.
  - intros [Hl Hp]. destruct (BGPPeers_of n) as [|peer [|]]; try discriminate. exists peer. split; [done|].
    apply Hp. by left.
  - intros (peer & -> & Ha & HQ). split; [done|]. by intros ? ->%list_elem_of_singleton.
Qed.

Lemma create_mode_Next n u :
  create_mode n = Next u ↔
    is_bgp n ∧ GetNetworkType (Some n) = NetworkTypeUnderlay ∧ ns_NetID (vn_Spec n) ≠ None ∧
      one_router n (λ peer, bp_ASN peer ≠ 0) ∨
    network_mode n = NetworkModeVlan ∧ GetNetworkType (Some n) = NetworkTypeUnderlay ∨
    network_mode n = NetworkModeVxlan ∧ GetNetworkType (Some n) = NetworkTypeOverlay.
Proof.
  unfold create_mode, is_bgp. rewrite GetNetworkMode_ret. cbn [call mbind handling_bind].
  case_decide as Hb; [|case_decide as Hl; [|case_decide as Hx]].
  - checks. rewrite <-one_router_checks, Hb. setoid_rewrite seq_Next. setoid_rewrite peer_address_ok_Next.
    setoid_rewrite when_Next. setoid_rewrite Z.eqb_neq. intuition discriminate.
  - checks. rewrite Hl. intuition discriminate.
  - checks. tauto.
  - split; [done|]. tauto.
Qed.

Lemma network_type_cases n :
  selector_fits n → GetNetworkType (Some n) = NetworkTypeUnderlay ∨ GetNetworkType (Some n) = NetworkTypeOverlay.
Proof. unfold selector_fits. tauto. Qed.

Lemma mode_of_type n m :
  network_mode n = m → m ≠ NetworkModeVxlan → GetNetworkType (Some n) = NetworkTypeUnderlay →
  (network_mode n = NetworkModeVxlan ↔ overlay n).
Proof. unfold overlay. intros -> Hm ->. split; [done|discriminate]. Qed.

Lemma admissible_spec n :
  network_admissible n ↔
    selector_fits n ∧ (overlay n → ns_NetID (vn_Spec n) ≠ None) ∧ create_mode n = Next tt.
Proof.
  rewrite create_mode_Next. unfold network_admissible, overlay. split.
  - intros [[Hs Hm Hms Hn Hr] Ha]. split; [done|]. split; [auto|].
    destruct Hms as [Hb|[Hl|Hx]]; [left|right; left|right; right; tauto].
    + assert (network_mode n ≠ NetworkModeVxlan) by (unfold is_bgp in Hb; rewrite Hb; discriminate).
      destruct (network_type_cases n Hs); [|tauto]. split_and!; auto.
    + assert (network_mode n ≠ NetworkModeVxlan) by (rewrite Hl; discriminate).
      destruct (network_type_cases n Hs); tauto.
  - intros (Hs & Hn & Hc). unfold is_bgp in *.
    destruct Hc as [(Hb & Ht & Hi & Hr)|[[Hl Ht]|[Hx Ht]]].
    + split; [|done]. split; [done|by eapply mode_of_type|by left|done|].
      intros _. destruct Hr as (peer & ? & ? & _). by exists peer.
    + split; [|unfold is_bgp; rewrite Hl; discriminate].
      split; [done|by eapply mode_of_type|by right; left| |]; unfold is_bgp; rewrite Hl, ?Ht; [|discriminate].
      by intros [?|?].
    + split; [|unfold is_bgp; rewrite Hx; discriminate].
      split; [done|tauto|by right; right| |unfold is_bgp; rewrite Hx; discriminate]. intros _. auto.
Qed.

Lemma create_mode_safe n : safe (create_mode n).
Proof.
  unfold create_mode. rewrite GetNetworkMode_ret. cbn [call mbind handling_bind]. unfold peer_address_ok. safe.
Qed.

Lemma create_mode_refuses n : refuses (create_mode n).
Proof. unfold create_mode, peer_address_ok. refuses. Qed.

Lemma overlay_unique networks :
  (∀ n, n ∈ networks → when (bool_decide (GetNetworkType (Some n) = NetworkTypeOverlay))
     (because "must have one overlay network at most") = Next tt) ↔ filter overlay networks = [].
Proof.
  setoid_rewrite when_Next. setoid_rewrite bool_decide_eq_false. split.
  - intros Hn. apply elem_of_nil_inv. intros n. rewrite list_elem_of_filter. intros [Ho Hi]. by apply (Hn n).
  - intros Hf n Hi Ho. by apply (filter_nil_not_elem_of _ _ _ Hf Ho).
Qed.

Lemma NetworkCreate_admits r network networks :
  r_ListNetworks r = Ret networks →
  NetworkCreateValidation r (Ret network) = Ret (Allowed "validation pass") ↔
    network_admissible network ∧ (overlay network → filter overlay networks = []).
Proof.
  intros Hl. unfold NetworkCreateValidation. cbn [attempt mbind handling_bind].
  rewrite admissible_spec, Hl. cbn [attempt mbind handling_bind].
  rewrite allowed_seq by refuses. rewrite allowed_seq by apply create_mode_refuses.
  unfold selector_fits, overlay. cbn [respond].
  case_decide as Hu; [|case_decide as Ho].
  - checks. rewrite Hu. intuition discriminate.
  - checks. rewrite overlay_unique. rewrite Ho. intuition discriminate.
  - intuition discriminate.
Qed.

(** C25. Creation of a network.  The webhook always answers; it admits a
    network exactly when the network is well formed (the type, the mode, the
    node selector, the net ID and the BGP router fit together) and, for an
    overlay network, no other overlay network is listed; so there never is
    more than one. *)
Theorem NetworkCreateValidation_exact r network networks :
  r_ListNetworks r = Ret networks →
  let admitted := NetworkCreateValidation r (Ret network) = Ret (Allowed "validation pass") in
  (∃ resp, NetworkCreateValidation r (Ret network) = Ret resp) ∧
  (admitted ↔ network_admissible network ∧ (overlay network → filter overlay networks = [])) ∧
  (admitted → (length (filter overlay networks) ≤ 1)%nat → (length (filter overlay (network :: networks)) ≤ 1)%nat).
Proof.
  intros Hl admitted. pose proof (NetworkCreate_admits r network networks Hl) as Hiff. split; [|split; [exact Hiff|]].
  - unfold NetworkCreateValidation. rewrite Hl. apply respond_safe. cbn [attempt mbind handling_bind].
    apply safe_bind; [safe|]. intros _ _. apply safe_bind; [apply create_mode_safe|done].
  - intros [_ Hu]%Hiff Hn. rewrite filter_cons. case_decide as Ho; [|done]. by rewrite (Hu Ho).
Qed.

Definition w_spec (type mode : string) (netID : option Z) (sel : gmap string string) : NetworkSpec :=
  mkNetworkSpec (Some sel) netID "" type mode (Some (mkNetworkConfig [mkBGPPeer 65001 "10.0.0.1" 0 ""])).
Definition w_net_status : NetworkStatus := mkNetworkStatus "" "" [] [] None None None.
Definition w_overlay : V1Network :=
  mkV1Network (mkObjectMeta "overlay" "" "" ∅ ∅ [] [] None) (w_spec "Overlay" "" (Some 4%Z) ∅) w_net_status.
Definition w_bgp : V1Network :=
  mkV1Network (mkObjectMeta "bgp" "" "" ∅ ∅ [] [] None) (w_spec "Underlay" "BGP" (Some 4%Z) {["rack" := "r1"]}) w_net_status.

(** A server that has the given networks and subnets. *)
Definition w_reader (networks : list V1Network) (subnets : list V1Subnet) : Reader :=
  mkReader
    (λ name, match find (λ n, bool_decide (om_Name (vn_Meta n) = name)) networks with Some n => Ret n | None => not_found end)
    (Ret networks) (λ _, Ret networks)
    (λ name, match find (λ s, bool_decide (om_Name (vs_Meta s) = name)) subnets with Some s => Ret s | None => not_found end)
    (Ret subnets) (λ _ _, not_found) (λ _, Ret []) (λ _ _, not_found) (λ _, not_found) (λ _, Ret []) (λ _, not_found)
    (Ret []) (Ret []) (Ret []) (λ _, not_found).

Lemma NetworkCreateValidation_exact_witness :
  NetworkCreateValidation (w_reader [w_bgp] []) (Ret w_overlay) = Ret (Allowed "validation pass") ∧
  network_admissible w_overlay ∧ (length (filter overlay [w_overlay; w_bgp]) ≤ 1)%nat ∧
  ¬ (network_admissible w_overlay ∧ (overlay w_overlay → filter overlay [w_overlay] = [])).
Proof.
  assert (NetworkCreateValidation (w_reader [w_bgp] []) (Ret w_overlay) = Ret (Allowed "validation pass")) as E
    by (vm_compute; reflexivity).
  destruct (NetworkCreateValidation_exact (w_reader [w_bgp] []) w_overlay [w_bgp] eq_refl) as (_ & Hiff & Hone).
  split; [exact E|]. split; [exact (proj1 (proj1 Hiff E))|]. split.
  - apply (Hone E). vm_compute. lia.
  - intros H. apply (NetworkCreateValidation_exact (w_reader [w_overlay] []) w_overlay [w_overlay] eq_refl) in H.
    vm_compute in H. discriminate H.
Defined.

(** What [NetworkUpdateValidation] does with the mode of the new network. *)
Lemma update_mode_bgp n :
  is_bgp n → update_mode n = Next tt ↔ one_router n (λ _, True).
Proof.
  unfold update_mode, is_bgp, one_router, BGPPeers_of. rewrite GetNetworkMode_ret. cbn [call mbind handling_bind]. intros Hb.
  rewrite decide_True by done. destruct (ns_Config (vn_Spec n)) as [c|]; cbn [deref call mbind handling_bind].
  - rewrite seq_Next, when_Next, for_all_Next, not_bool_decide. setoid_rewrite peer_address_ok_Next. split.
    + intros [Hl Hp]. destruct (nc_BGPPeers c) as [|peer [|]]; try discriminate. exists peer. split_and!; [done| |done].
      apply Hp. by left.
    + intros (peer & -> & Ha & _). split; [done|]. by intros ? ->%list_elem_of_singleton.
  - split; [discriminate|]. by intros (? & ? & _).
Qed.

Lemma update_mode_other n :
  ¬ is_bgp n → update_mode n = Next tt ↔ network_mode n = NetworkModeVlan ∨ network_mode n = NetworkModeVxlan.
Proof.
  unfold update_mode, is_bgp. rewrite GetNetworkMode_ret. cbn [call mbind handling_bind]. intros Hb.
  rewrite decide_False by done. case_decide; naive_solver.
Qed.

Lemma update_mode_refuses n : refuses (update_mode n).
Proof. unfold update_mode, peer_address_ok. refuses. Qed.

Lemma update_mode_cases n :
  let panics := is_bgp n ∧ ns_Config (vn_Spec n) = None in
  safe (update_mode n) ∧ ¬ panics ∨ update_mode n = HPanic ∧ panics.
Proof.
  unfold update_mode, is_bgp. rewrite GetNetworkMode_ret. cbn [call mbind handling_bind].
  case_decide as Hb; [|left; split; [case_decide; done|tauto]].
  destruct (ns_Config (vn_Spec n)) as [c|]; cbn [deref call mbind handling_bind]; [left|by right].
  split; [unfold peer_address_ok; safe|naive_solver].
Qed.

Record same_network (old new : V1Network) : Prop := {
  sn_type : GetNetworkType (Some old) = GetNetworkType (Some new);
  sn_mode : ns_Mode (vn_Spec old) = ns_Mode (vn_Spec new);
  sn_netID : ns_NetID (vn_Spec old) = ns_NetID (vn_Spec new)
}.

Lemma same_network_mode old new : same_network old new → network_mode old = network_mode new.
Proof. intros [Ht Hm _]. unfold network_mode, GetNetworkMode. by rewrite Ht, Hm. Qed.

(** The checks of the update before the switch over the mode. *)
Definition update_prefix (new old : V1Network) : handling unit :=
  when (negb (bool_decide (GetNetworkType (Some old) = GetNetworkType (Some new))))
    (because "network type must not be changed");;
  (if decide (GetNetworkType (Some new) = NetworkTypeUnderlay) then
     when (negb (has_selector new)) (because "must have node selector for underlay network")
   else if decide (GetNetworkType (Some new) = NetworkTypeOverlay) then
     when (has_selector new) (because "node selector must not be assigned for overlay network")
   else Done (Denied (Errorf "unknown network type %s" [GetNetworkType (Some new)])));;
  when (negb (bool_decide (ns_Mode (vn_Spec old) = ns_Mode (vn_Spec new)))) (because "network mode must not be changed").

Lemma update_prefix_Next new old :
  update_prefix new old = Next tt ↔
    GetNetworkType (Some old) = GetNetworkType (Some new) ∧ selector_fits new ∧
    ns_Mode (vn_Spec old) = ns_Mode (vn_Spec new).
Proof.
  unfold update_prefix, selector_fits. rewrite seq_Next, when_Next, not_bool_decide, seq_Next, (when_Next (negb (bool_decide _))), not_bool_decide.
  case_decide as Hu; [|case_decide as Ho]; checks.
  - rewrite Hu. intuition discriminate.
  - rewrite Ho. intuition discriminate.
  - intuition discriminate.
Qed.

Lemma update_prefix_refuses new old : refuses (update_prefix new old).
Proof. unfold update_prefix. refuses. Qed.

Lemma update_prefix_safe new old : safe (update_prefix new old).
Proof. unfold update_prefix. safe. Qed.

Lemma handling_assoc {A B C} (h : handling A) (f : A → handling B) (g : B → handling C) :
  ((h ≫= f) ≫= g) = (h ≫= λ a, f a ≫= g).
Proof. by destruct h. Qed.

Lemma update_split new old :
  NetworkUpdateValidation (Ret new) (Ret old) = respond (
    update_prefix new old;; update_mode new;;
    when (negb (bool_decide (ns_NetID (vn_Spec old) = ns_NetID (vn_Spec new)))) (because "net ID must not be changed");;
    Done (Allowed "validation pass")).
Proof. unfold NetworkUpdateValidation, update_prefix. by rewrite !handling_assoc. Qed.

(** C26. Update of a network.  An update is admitted exactly when it keeps the
    type, the mode and the net ID, and the node selector and the BGP router
    still fit; so it keeps a network well formed.  The webhook answers every
    update but one: BGP mode without a [config] is a nil dereference. *)
Theorem NetworkUpdateValidation_exact new old :
  let result := NetworkUpdateValidation (Ret new) (Ret old) in
  let admitted := result = Ret (Allowed "validation pass") in
  (admitted ↔ same_network old new ∧ selector_fits new ∧
     (is_bgp new ∧ one_router new (λ _, True) ∨ network_mode new = NetworkModeVlan ∨ network_mode new = NetworkModeVxlan)) ∧
  (admitted → network_sound old → network_sound new) ∧
  (result = Panic ↔ GetNetworkType (Some old) = GetNetworkType (Some new) ∧ selector_fits new ∧
     ns_Mode (vn_Spec old) = ns_Mode (vn_Spec new) ∧ is_bgp new ∧ ns_Config (vn_Spec new) = None) ∧
  (result ≠ Panic → ∃ resp, result = Ret resp).
Proof.
  intros result admitted.
  assert (admitted ↔ same_network old new ∧ selector_fits new ∧
     (is_bgp new ∧ one_router new (λ _, True) ∨ network_mode new = NetworkModeVlan ∨ network_mode new = NetworkModeVxlan)) as Hiff.
  { unfold admitted, result. rewrite update_split, allowed_seq by apply update_prefix_refuses.
    rewrite update_prefix_Next, allowed_seq by apply update_mode_refuses.
    rewrite allowed_seq, when_Next, not_bool_decide by refuses.
    assert (update_mode new = Next tt ↔ (is_bgp new ∧ one_router new (λ _, True) ∨
      network_mode new = NetworkModeVlan ∨ network_mode new = NetworkModeVxlan)) as ->.
    { destruct (decide (network_mode new = NetworkModeBGP)) as [Hb|Hb].
      - rewrite update_mode_bgp by done. unfold is_bgp. rewrite Hb. intuition discriminate.
      - rewrite update_mode_other by done. unfold is_bgp. tauto. }
    split; [intros ((? & ? & ?) & ? & ? & _); split_and!; [by split|done..]|].
    intros ([] & ? & ?). done. }
  split; [exact Hiff|]. split; [|].
  - intros (Hs & Hf & Hm)%Hiff [_ Hx _ Hn _]. pose proof (same_network_mode _ _ Hs) as Em. destruct Hs as [Ht _ Hi].
    unfold is_bgp in *. rewrite Em, Ht in *. rewrite Hi in *. split; [done..|tauto|done|]. intros Hb. destruct Hm as [[_ ?]|Hm]; [done|].
    unfold is_bgp in Hb. rewrite Hb in Hm. by destruct Hm.
  - unfold result. rewrite update_split. pose proof (update_prefix_safe new old) as Hps.
    pose proof (update_prefix_Next new old) as Hpn. pose proof (update_mode_cases new) as Hmp. cbv zeta in Hmp.
    destruct (update_prefix new old) as [|[]| |]; cbn in Hps |- *; try done.
    + split; [|eauto]. split; [done|]. intros (? & ? & ? & _). exfalso. assert (Done r = Next tt) by tauto. done.
    + destruct Hmp as [[Hs Hn]|[-> Hp]]; [|cbn; tauto].
      assert (safe (update_mode new;;
        when (negb (bool_decide (ns_NetID (vn_Spec old) = ns_NetID (vn_Spec new)))) (because "net ID must not be changed");;
        Done (A := Response) (Allowed "validation pass"))) as [resp E]%respond_safe
        by (apply safe_bind; [exact Hs|intros ? ?; safe]).
      rewrite E. split; [|eauto]. split; [done|]. tauto.
Qed.

Definition w_bgp2 (config : option NetworkConfig) : V1Network :=
  mkV1Network (vn_Meta w_bgp) (mkNetworkSpec (Some {["rack" := "r2"]}) (Some 4%Z) "" "Underlay" "BGP" config) w_net_status.

Lemma NetworkUpdateValidation_exact_witness :
  network_sound (w_bgp2 (Some (mkNetworkConfig [mkBGPPeer 0 "10.0.0.2" 0 ""]))) ∧
  NetworkUpdateValidation (Ret (w_bgp2 None)) (Ret w_bgp) = Panic.
Proof.
  assert (network_sound w_bgp) as Hs.
  { assert (NetworkCreateValidation (w_reader [] []) (Ret w_bgp) = Ret (Allowed "validation pass")) as E
      by (vm_compute; reflexivity).
    exact (proj1 (proj1 (proj1 (NetworkCreate_admits (w_reader [] []) w_bgp [] eq_refl) E))). }
  split.
  - apply (NetworkUpdateValidation_exact _ w_bgp); [vm_compute; reflexivity|exact Hs].
  - vm_compute. reflexivity.
Defined.
