(* ===== verification/ValidatingSubnets.v ===== *)
(** * What the validating webhook guarantees of subnets

    A subnet is admitted exactly when its texts are those of a valid range
    that meets no other subnet, as far as the ends of the ranges tell; the
    allocator accepts it; an update keeps the addresses.  The conditions are
    stated on addresses, and what the checks let through is at the end. *)

From Stdlib Require Import Ascii.
From S2P Require Import Prelude GoNet GoStrings NetBlock NetText CNIPlugins NetworkingV1 MulticlusterV1 Kubernetes Config Utils IPAMTypes IPAMSubnet IPAMSync IPAMCanonical IPAMSubnetProperties IPAMNetwork IPAMNetworkProperties Transform Names GoJSON KubeClient Store StoreProperties ClientUtils IPAMManager Admission Validating ValidatingNetworks.
Local Open Scope Z_scope.

(** The net ID that the parent network and the subnet have together. *)
Definition netID_fits (network : V1Network) (subnet : V1Subnet) : Prop :=
  let own := ssp_NetID (vs_Spec subnet) in
  let parent := ns_NetID (vn_Spec network) in
  (network_mode network = NetworkModeVlan →
     (own ≠ None ∨ parent ≠ None) ∧ (∀ a b, own = Some a → parent = Some b → a = b) ∧
     AutoNatOutgoing_set subnet = false ∧ ar_Gateway (ssp_Range (vs_Spec subnet)) ≠ "") ∧
  (network_mode network = NetworkModeBGP → own = None ∧ AutoNatOutgoing_set subnet = false) ∧
  (network_mode network = NetworkModeVxlan → own = None).

Lemma nonempty_spec t : nonempty t = true ↔ t ≠ "".
Proof. unfold nonempty. rewrite negb_true_iff. apply bool_decide_eq_false. Qed.

Lemma nonempty_false t : negb (nonempty t) = false ↔ t ≠ "".
Proof. rewrite negb_false_iff. apply nonempty_spec. Qed.

Lemma create_netID_Next network subnet : create_netID network subnet = Next tt ↔ netID_fits network subnet.
Proof.
  unfold create_netID, netID_fits. rewrite GetNetworkMode_ret. cbn [call mbind handling_bind].
  case_decide as Hv; [|case_decide as Hb; [|case_decide as Hx]].
  - rewrite Hv, !seq_Next, !when_Next, nonempty_false.
    assert ((match ssp_NetID (vs_Spec subnet) with
             | Some n => when (match ns_NetID (vn_Spec network) with Some p => negb (n =? p) | None => false end)
                           (because "have inconsistent Net ID with network")
             | None => when (bool_decide (ns_NetID (vn_Spec network) = None)) (because "must have valid Net ID")
             end) = Next tt ↔
      (ssp_NetID (vs_Spec subnet) ≠ None ∨ ns_NetID (vn_Spec network) ≠ None) ∧
      (∀ a b, ssp_NetID (vs_Spec subnet) = Some a → ns_NetID (vn_Spec network) = Some b → a = b)) as ->.
    { destruct (ssp_NetID (vs_Spec subnet)) as [n|], (ns_NetID (vn_Spec network)) as [p|]; rewrite when_Next;
        rewrite ?negb_false_iff, ?Z.eqb_eq; naive_solver. }
    intuition discriminate.
  - rewrite Hb, !seq_Next, !when_Next, not_bool_decide. intuition discriminate.
  - rewrite Hx, !when_Next, not_bool_decide. intuition discriminate.
  - split; [|done]. tauto.
Qed.

Lemma create_netID_refuses network subnet : refuses (create_netID network subnet).
Proof. unfold create_netID. refuses. Qed.

Section subnets.
Context `{A : ApiMachinery} {S : Settings} {P : CNIPlugins} {T : StrSets}.
Implicit Types r : Reader.

Lemma attempt_Next {X} (o : outcome X) k x : attempt o k = Next x ↔ o = Ret x.
Proof. destruct o; cbn; naive_solver. Qed.

Lemma call_Next {X} (o : outcome X) x : call o = Next x ↔ o = Ret x.
Proof. destruct o; cbn; naive_solver. Qed.

(** No subnet of the list, once canonicalized, overlaps the new one. *)
Definition no_overlaps (s : Subnet) (listed : list V1Subnet) : Prop :=
  ∀ l, l ∈ listed → match canonicalize (TransferSubnetForIPAM l) with
                    | Ret s' => Subnet_Overlap s' s = false
                    | Fail _ => True
                    | _ => False
                    end.

Lemma no_overlap_Next s l :
  no_overlap s l = Next tt ↔ match canonicalize (TransferSubnetForIPAM l) with
                             | Ret s' => Subnet_Overlap s' s = false
                             | Fail _ => True
                             | _ => False
                             end.
Proof. unfold no_overlap. destruct (canonicalize _); rewrite ?when_Next; naive_solver. Qed.

Definition no_remote_overlaps r (range : AddressRange) : Prop :=
  MultiClusterEnabled = true →
  ∃ remotes, r_ListRemoteSubnets r = Ret remotes ∧
    ∀ rc, rc ∈ remotes → Intersect range (rs_Range (rs_Spec rc)) = Ret false.

Lemma remote_Next r range :
  (if MultiClusterEnabled then
     rcSubnetList ← attempt (r_ListRemoteSubnets r) internal_error;
     for_all (λ rcSubnet, no_intersection "overlap with existing RemoteSubnet %s" range (rs_Range (rs_Spec rcSubnet))
                            (om_Name (rs_Meta rcSubnet))) rcSubnetList
   else Next tt) = Next tt ↔ no_remote_overlaps r range.
Proof.
  unfold no_remote_overlaps. destruct MultiClusterEnabled; [|by split].
  rewrite bind_Next. setoid_rewrite attempt_Next. setoid_rewrite for_all_Next. unfold no_intersection.
  setoid_rewrite bind_Next. setoid_rewrite call_Next. setoid_rewrite when_Next. naive_solver.
Qed.

Lemma SubnetCreate_admits r subnet network subnets :
  let range := ssp_Range (vs_Spec subnet) in
  r_GetNetwork r (ssp_Network (vs_Spec subnet)) = Ret network → r_ListSubnets r = Ret subnets →
  SubnetCreateValidation r (Ret subnet) = Ret (Allowed "validation pass") ↔
    ssp_Network (vs_Spec subnet) ≠ "" ∧ netID_fits network subnet ∧ ValidateAddressRange range = Ret tt ∧
    (DualStackEnabled = true ∨ IsIPv6Subnet (Some subnet) = false) ∧ CalculateCapacity range ≤ 65536 ∧
    (∃ s, canonicalize (TransferSubnetForIPAM subnet) = Ret s ∧ no_overlaps s subnets) ∧
    no_remote_overlaps r range.
Proof.
  intros range Hn Hl. unfold SubnetCreateValidation. cbn [attempt mbind handling_bind].
  rewrite allowed_seq, when_Next, nonempty_false by refuses. rewrite Hn. cbn [attempt mbind handling_bind].
  rewrite allowed_seq, create_netID_Next by apply create_netID_refuses.
  rewrite allowed_seq, attempt_Next by refuses. rewrite !allowed_seq, !when_Next by refuses.
  unfold MaxSubnetCapacity. rewrite Z.ltb_ge.
  assert (negb DualStackEnabled && IsIPv6Subnet (Some subnet) = false ↔
          (DualStackEnabled = true ∨ IsIPv6Subnet (Some subnet) = false)) as ->
    by (rewrite andb_false_iff, negb_false_iff; done).
  assert ((∃ s, canonicalize (TransferSubnetForIPAM subnet) = Ret s ∧ no_overlaps s subnets) ∧ no_remote_overlaps r (ssp_Range (vs_Spec subnet)) ↔
    respond (
      ipamSubnet ← attempt (canonicalize (TransferSubnetForIPAM subnet)) (λ err, Denied (Wrapf "canonicalize subnet failed: %v" [] err));
      subnetList ← attempt (r_ListSubnets r) internal_error;
      for_all (no_overlap ipamSubnet) subnetList;;
      (if MultiClusterEnabled then
         rcSubnetList ← attempt (r_ListRemoteSubnets r) internal_error;
         for_all (λ rcSubnet, no_intersection "overlap with existing RemoteSubnet %s" (ssp_Range (vs_Spec subnet)) (rs_Range (rs_Spec rcSubnet))
                                (om_Name (rs_Meta rcSubnet))) rcSubnetList
       else Next tt);;
      Done (Allowed "validation pass")) = Ret (Allowed "validation pass")) as Hend.
  { rewrite Hl. destruct (canonicalize (TransferSubnetForIPAM subnet)) as [s|e| |]; cbn [attempt mbind handling_bind].
    2-4: (split; [intros [(? & ? & _) _]; discriminate|cbn; discriminate]).
    rewrite allowed_seq by (unfold no_overlap; refuses). rewrite allowed_seq by (unfold no_intersection; refuses).
    rewrite remote_Next, for_all_Next. setoid_rewrite no_overlap_Next. unfold no_overlaps.
    split; [intros [(? & [= <-] & ?) ?]; done|]. intros (? & ? & _). split; [|done]. by exists s. }
  unfold range. rewrite <-Hend. tauto.
Qed.

End subnets.

(** ** What the conditions say of the addresses

    [valid_range], [size_of] and [in_range] read the texts of a range as
    numbers; so do the following for the subnets of the allocator. *)

Abbreviation range_of o := (ssp_Range (vs_Spec o)).

(** The family that the allocator takes the subnet for. *)
Definition v6_range (r : AddressRange) : bool :=
  bool_decide (ar_Version r = IPVersion6) || negb (is_v4 (IPNet_IP (net_of r))).

(** The allocator accepts the subnet. *)
Record usable (o : V1Subnet) : Prop := {
  us_name : om_Name (vs_Meta o) ≠ "";
  us_parent : ssp_Network (vs_Spec o) ≠ "";
  us_hosts : 2 ≤ host_of (range_of o);
  us_gateway : ParseIP (ar_Gateway (range_of o)) = [] ∨ in_cidr (range_of o) (ParseIP (ar_Gateway (range_of o)));
  us_start : ParseIP (ar_Start (range_of o)) = [] ∨ in_cidr (range_of o) (ParseIP (ar_Start (range_of o)));
  us_end : ParseIP (ar_End (range_of o)) = [] ∨ in_cidr (range_of o) (ParseIP (ar_End (range_of o)))
}.

(** The allocator can give out the address. *)
Definition pool_has (r : AddressRange) (z : Z) : Prop :=
  in_range r z ∧ (ParseIP (ar_Gateway r) ≠ [] → addr (ParseIP (ar_Gateway r)) ≠ z).

(** An end of one of the two is an address that the other can give out. *)
Definition overlapping (l o : V1Subnet) : Prop :=
  v6_range (range_of l) = v6_range (range_of o) ∧
  (pool_has (range_of l) (first_addr (range_of o)) ∨ pool_has (range_of l) (last_addr (range_of o)) ∨
   pool_has (range_of o) (first_addr (range_of l)) ∨ pool_has (range_of o) (last_addr (range_of l))).

(** The two ranges have an address in common. *)
Definition ranges_meet (r r' : AddressRange) : Prop :=
  ar_Version r = ar_Version r' ∧ ∃ z, in_range r z ∧ in_range r' z.

(** Its CIDR is one of a network that the loops can walk over. *)
Definition listed_ok (r : AddressRange) : Prop := is_Some (ParseCIDR (ar_CIDR r)) ∧ plain_cidr r.

Section meaning.
Context {P : CNIPlugins} {L : CNIPluginsLaws P}.

Lemma IsIPv6Subnet_v6 o : is_Some (ParseCIDR (ar_CIDR (range_of o))) → IsIPv6Subnet (Some o) = v6_range (range_of o).
Proof.
  intros [[ip n] HC]. unfold IsIPv6Subnet, v6_range, net_of, is_v4. rewrite HC. cbn.
  destruct (decide (ar_Version (range_of o) = IPVersion6)); [by rewrite (bool_decide_eq_true_2 (ar_Version _ = _))|].
  rewrite (bool_decide_eq_false_2 (ar_Version _ = _)) by done. cbn [orb]. by rewrite bool_decide_not, negb_involutive.
Qed.

Lemma canonicalize_fails o : is_Some (ParseCIDR (ar_CIDR (range_of o))) →
  Subnet_Validate (TransferSubnetForIPAM o) ≠ Ret tt → ∃ e, canonicalize (TransferSubnetForIPAM o) = Fail e.
Proof.
  intros [[ip n] HC] HV. destruct (Validate_total (TransferSubnetForIPAM o) n) as [?|[e E]]; [cbn; by rewrite HC|done|].
  exists e. unfold canonicalize, Subnet_Canonicalize. m_run. by rewrite E.
Qed.

Lemma opt_contained r ip n len ones t : ParseCIDR (ar_CIDR r) = Some (ip, n) → cidr_net n len ones →
  ParseIP t = [] ∨ IPNet_Contains n (ParseIP t) = true ↔ ParseIP t = [] ∨ in_cidr r (ParseIP t).
Proof.
  intros HC Hn. destruct (ParseIP_ok t) as [E|[Hv _]]; [tauto|]. by rewrite (in_cidr_Contains r ip n len ones).
Qed.

Lemma Validate_usable o : listed_ok (range_of o) → Subnet_Validate (TransferSubnetForIPAM o) = Ret tt ↔ usable o.
Proof.
  intros [[[ip n] HC] Hp]. destruct (Hp ip n HC) as (len & ones & Hn & Hpl). destruct (host_of_net _ ip n len ones HC Hn) as [En Eh].
  rewrite (Validate_spec (TransferSubnetForIPAM o) n len ones) by (done || cbn; by rewrite HC). cbn.
  rewrite !(opt_contained (range_of o) ip n len ones _ HC Hn), <-Eh. split; [intros (?&?&?&?&?&?)|intros []]; by split_and?.
Qed.

(** The canonicalized subnet has the addresses that the object says. *)
Lemma canonical_pool o : listed_ok (range_of o) → usable o →
  ∃ s, canonicalize (TransferSubnetForIPAM o) = Ret s ∧ canonicalized s ∧ sn_IPv6 s = v6_range (range_of o) ∧
    addr (sn_Start s) = first_addr (range_of o) ∧ addr (sn_End s) = last_addr (range_of o) ∧
    ∀ a, valid_ip a → Subnet_Contains s a = true ↔ pool_has (range_of o) (addr a).
Proof.
  intros Ho Hu. pose proof (proj2 (Validate_usable o Ho) Hu) as HV. destruct Ho as [[[ip n] HC] Hp].
  destruct (Hp ip n HC) as (len & ones & Hn & Hpl). destruct (host_of_net _ ip n len ones HC Hn) as [En Eh].
  set (t := TransferSubnetForIPAM o) in *.
  assert (sn_CIDR t = Some n) as HC' by (cbn; by rewrite HC).
  assert (opt_valid (sn_Start t)) as Hst by apply opt_valid_ParseIP. assert (opt_valid (sn_End t)) as Hen by apply opt_valid_ParseIP.
  assert (opt_valid (sn_Gateway t)) as Hgw by apply opt_valid_ParseIP.
  destruct (Canonicalize_ok t n len ones HC' Hn Hpl Hst Hen Hgw HV) as [E Hcan].
  exists (sn_set_range (canonical_start t n) (canonical_end t n) t). split; [unfold canonicalize; by rewrite E|].
  split; [done|]. split; [apply IsIPv6Subnet_v6; by eexists|].
  destruct Hu as [_ _ Hh _ Hs He]. rewrite Eh in Hh. apply (opt_contained (range_of o) ip n len ones _ HC Hn) in Hs, He.
  destruct (canonical_start_ok t n len ones Hn Hpl Hst Hh Hs) as (Hvs & Hcs & Hs0).
  destruct (canonical_end_ok t n len ones Hn Hpl Hen Hh He) as (Hve & Hce & He0).
  assert (addr (canonical_start t n) = first_addr (range_of o)) as E1.
  { unfold first_addr, base_of. rewrite En. case_decide as H0; [by apply Hs0|].
    unfold canonical_start. by rewrite bool_decide_eq_false_2. }
  assert (addr (canonical_end t n) = last_addr (range_of o)) as E2.
  { unfold last_addr, base_of. rewrite En, Eh. case_decide as H0; [by apply He0|].
    unfold canonical_end. by rewrite bool_decide_eq_false_2. }
  split; [done|]. split; [done|]. intros a Ha. rewrite (Subnet_Contains_spec _ a Hcan Ha). unfold pool_has, in_range.
  unfold sn_cidr. cbn [sn_set_range sn_CIDR sn_Start sn_End sn_Gateway sn_BlackList]. rewrite HC'. cbn [default].
  rewrite E1, E2, (text_of_addr a Ha), (Contains_block n len ones Hn a Ha).
  apply (Contains_block n len ones Hn) in Hcs as [_ Hcs], Hce as [_ Hce]; [|done..].
  change (sn_BlackList t) with (StringSliceToMap (ar_ExcludeIPs (range_of o))). rewrite StringSliceToMap_spec, elem_of_list_to_set.
  change (sn_Gateway t) with (ParseIP (ar_Gateway (range_of o))). unfold text_of. split; [tauto|]. intros [[Hin Hx] Hg].
  split; [|tauto]. assert (addr (IPNet_IP n) ≤ addr a < addr (IPNet_IP n) + 2 ^ host_bits len ones) as Hb by lia.
  split; [|done]. by apply (block_family n len ones).
Qed.

Lemma Overlap_spec l o s s' :
  canonicalized s → canonicalized s' → sn_IPv6 s = v6_range (range_of l) → sn_IPv6 s' = v6_range (range_of o) →
  addr (sn_Start s) = first_addr (range_of l) → addr (sn_End s) = last_addr (range_of l) →
  addr (sn_Start s') = first_addr (range_of o) → addr (sn_End s') = last_addr (range_of o) →
  (∀ a, valid_ip a → Subnet_Contains s a = true ↔ pool_has (range_of l) (addr a)) →
  (∀ a, valid_ip a → Subnet_Contains s' a = true ↔ pool_has (range_of o) (addr a)) →
  Subnet_Overlap s s' = false ↔ ¬ overlapping l o.
Proof.
  intros (_ & (Hvs & Hve & _) & _) (_ & (Hvs' & Hve' & _) & _) E6 E6' E1 E2 E3 E4 Hc Hc'.
  rewrite <-not_true_iff_false. unfold overlapping, Subnet_Overlap, Subnet_IsIPv6. rewrite E6, E6', <-E1, <-E2, <-E3, <-E4.
  rewrite <-(Hc _ Hvs'), <-(Hc _ Hve'), <-(Hc' _ Hvs), <-(Hc' _ Hve).
  destruct (Bool.eqb (v6_range (range_of l)) (v6_range (range_of o))) eqn:Ef; cbn [negb].
  - apply Bool.eqb_prop in Ef. rewrite !orb_true_iff. tauto.
  - apply Bool.eqb_false_iff in Ef. split; [by intros _ [? _]|done].
Qed.
End meaning.

Section creation.
Context `{A : ApiMachinery} {S : Settings} {P : CNIPlugins} {L : CNIPluginsLaws P} {T : StrSets} {TL : StrSetsLaws T}.

Lemma bound_opt r t : bound_in r t → ParseIP t = [] ∨ in_cidr r (ParseIP t).
Proof. intros [->|[_ ?]]; [by left|by right]. Qed.

(** A subnet with a valid range is usable when it has a name, a network and
    two host bits. *)
Lemma valid_usable o : valid_range (range_of o) →
  usable o ↔ om_Name (vs_Meta o) ≠ "" ∧ ssp_Network (vs_Spec o) ≠ "" ∧ 2 ≤ host_of (range_of o).
Proof.
  intros [_ _ _ Hs He _ [Hg _] _ _]. apply bound_opt in Hs, He, Hg. split; [intros []; by split_and?|].
  intros (? & ? & ?). by split.
Qed.

Lemma canonicalize_usable o s : listed_ok (range_of o) → canonicalize (TransferSubnetForIPAM o) = Ret s → usable o.
Proof.
  intros Ho Hc. apply Validate_usable; [done|]. destruct (Subnet_Validate (TransferSubnetForIPAM o)) as [[]|e| |] eqn:HV; [done|exfalso..].
  all: destruct (canonicalize_fails o (proj1 Ho)) as [? ?]; [by rewrite HV|congruence].
Qed.

Lemma canonicalize_total o : listed_ok (range_of o) →
  (∃ s, canonicalize (TransferSubnetForIPAM o) = Ret s) ∨ ∃ e, canonicalize (TransferSubnetForIPAM o) = Fail e.
Proof.
  intros Ho. pose proof Ho as [[[ip n] HC] _]. destruct (Validate_total (TransferSubnetForIPAM o) n) as [HV|[e HV]]; [cbn; by rewrite HC|left|right].
  - apply Validate_usable, canonical_pool in HV as (s & ? & _); eauto.
  - apply canonicalize_fails; [apply Ho|congruence].
Qed.

(** The allocator's checks, as conditions on the objects. *)
Lemma no_overlaps_spec o subnets : listed_ok (range_of o) → Forall (λ l, listed_ok (range_of l)) subnets →
  (∃ s, canonicalize (TransferSubnetForIPAM o) = Ret s ∧ no_overlaps s subnets) ↔
  usable o ∧ ∀ l, l ∈ subnets → usable l → ¬ overlapping l o.
Proof.
  intros Ho Hl. rewrite Forall_forall in Hl. split.
  - intros (s' & Hs' & Hno). pose proof (canonicalize_usable o s' Ho Hs') as Hu. split; [done|]. intros l Hin Hul.
    destruct (canonical_pool o Ho Hu) as (s1 & E1 & Hc1 & ?). rewrite Hs' in E1. injection E1 as <-.
    destruct (canonical_pool l (Hl l Hin) Hul) as (s & E & Hc & ?). specialize (Hno l Hin). rewrite E in Hno.
    by apply (Overlap_spec l o s s'); try tauto.
  - intros [Hu Hno]. destruct (canonical_pool o Ho Hu) as (s' & E' & Hc' & ?). exists s'. split; [done|]. intros l Hin.
    destruct (canonicalize (TransferSubnetForIPAM l)) as [s|e| |] eqn:E; [|done|..].
    + pose proof (canonicalize_usable l s (Hl l Hin) E) as Hul. destruct (canonical_pool l (Hl l Hin) Hul) as (s1 & E1 & Hc & ?).
      rewrite E in E1. injection E1 as <-. apply (Overlap_spec l o s s'); try tauto. by apply Hno.
    + destruct (canonicalize_total l (Hl l Hin)) as [[? ?]|[? ?]]; congruence.
    + destruct (canonicalize_total l (Hl l Hin)) as [[? ?]|[? ?]]; congruence.
Qed.

Definition remote_range (rc : RemoteSubnet) : AddressRange := rs_Range (rs_Spec rc).

Lemma no_remote_spec r range remotes : plain_cidr range → valid_range range →
  (MultiClusterEnabled = true → r_ListRemoteSubnets r = Ret remotes) →
  Forall (λ rc, plain_cidr (remote_range rc) ∧ valid_range (remote_range rc)) remotes →
  no_remote_overlaps r range ↔ (MultiClusterEnabled = true → ∀ rc, rc ∈ remotes → ¬ ranges_meet range (remote_range rc)).
Proof.
  intros Hp Hv Hr Hok. rewrite Forall_forall in Hok. unfold no_remote_overlaps, ranges_meet.
  assert (∀ rc, rc ∈ remotes → Intersect range (remote_range rc) = Ret false ↔
    ¬ (ar_Version range = ar_Version (remote_range rc) ∧ ∃ z, in_range range z ∧ in_range (remote_range rc) z)) as Hspec.
  { intros rc Hin. destruct (Hok rc Hin). rewrite Intersect_spec by done.
    destruct (decide (ar_Version range = ar_Version (remote_range rc))); naive_solver. }
  split.
  - intros H HM. destruct (H HM) as (l & El & Hl). rewrite Hr in El by done. injection El as <-.
    intros rc Hin. by apply Hspec, Hl.
  - intros H HM. exists remotes. split; [by apply Hr|]. intros rc Hin. by apply Hspec, H.
Qed.

(** C27. Creation of a subnet.  Once its parent network, the subnets and, with
    several clusters, the remote subnets are read, a subnet is admitted exactly
    when it has a name and a parent that its net ID fits; its range is valid
    ([valid_range]: a version, the CIDR of a network, the start, end, gateway,
    reserved and excluded texts addresses of that network, the start not after
    the end), of at most 65536 addresses and at least two host bits; it is an
    IPv4 range or the dual stack is enabled; no end of its range can be given
    out by a listed subnet of its family, nor the other way round; and it
    shares no address with a remote subnet of its version.  The number of
    addresses is in 64 bits, as in the code: an IPv6 /64, of 2 ^ 64 - 1
    addresses, counts as -1 and passes.  The networks are those that the
    allocator can walk over ([plain_cidr]: away from the ends of the address
    space, no IPv4-mapped ones), one that the range begins with does not begin
    with a zero byte, the remote ranges are valid themselves. *)
Theorem SubnetCreateValidation_exact r subnet network subnets remotes :
  let range := range_of subnet in
  r_GetNetwork r (ssp_Network (vs_Spec subnet)) = Ret network → r_ListSubnets r = Ret subnets →
  (MultiClusterEnabled = true → r_ListRemoteSubnets r = Ret remotes) →
  plain_cidr range → leading range → Forall (λ l, listed_ok (range_of l)) subnets →
  Forall (λ rc, plain_cidr (remote_range rc) ∧ valid_range (remote_range rc)) remotes →
  SubnetCreateValidation r (Ret subnet) = Ret (Allowed "validation pass") ↔
    om_Name (vs_Meta subnet) ≠ "" ∧ ssp_Network (vs_Spec subnet) ≠ "" ∧ netID_fits network subnet ∧
    valid_range range ∧ int64 (size_of range) ≤ 65536 ∧ 2 ≤ host_of range ∧
    (DualStackEnabled = true ∨ v6_range range = false) ∧
    (∀ l, l ∈ subnets → usable l → ¬ overlapping l subnet) ∧
    (MultiClusterEnabled = true → ∀ rc, rc ∈ remotes → ¬ ranges_meet range (remote_range rc)).
Proof.
  intros range Hn Hl Hr Hp Hlead Hls Hrs. rewrite (SubnetCreate_admits r subnet network subnets Hn Hl).
  fold range. rewrite (ValidateAddressRange_spec range Hp).
  assert (valid_range range → CalculateCapacity range = int64 (size_of range) ∧ listed_ok range ∧
    IsIPv6Subnet (Some subnet) = v6_range range) as Hv.
  { intros Hv. split; [by apply CalculateCapacity_spec|].
    assert (is_Some (ParseCIDR (ar_CIDR range))) as HC by (destruct Hv as [_ (? & ? & -> & _)]; by eexists).
    split; [done|]. by apply IsIPv6Subnet_v6. }
  split.
  - intros (H1 & H2 & H3 & H4 & H5 & H6 & H7). destruct (Hv H3) as (E1 & Hok & E2). rewrite E1 in H5. rewrite E2 in H4.
    apply (no_overlaps_spec subnet subnets) in H6 as [Hu Hno]; [|done..]. apply (valid_usable subnet H3) in Hu as (? & _ & ?).
    rewrite (no_remote_spec r range remotes) in H7 by done. by split_and?.
  - intros (H0 & H1 & H2 & H3 & H4 & H5 & H6 & H7 & H8). destruct (Hv H3) as (E1 & Hok & E2).
    rewrite E1, E2, (no_overlaps_spec subnet subnets), (no_remote_spec r range remotes), (valid_usable subnet H3) by done.
    by split_and?.
Qed.
End creation.
Definition w_subnet2 : V1Subnet :=
  mkV1Subnet (w_meta "subnet2")
    (mkSubnetSpec (mkAddressRange "4" "" "" "10.0.0.8/29" "10.0.0.9" [] []) None "network1" None)
    (mkSubnetStatus (mkCount 0 0 0) "").

Definition w_net2 : IPNet := mkIPNet [10; 0; 0; 8] [255; 255; 255; 248].

Lemma w_net2_ok : cidr_net w_net2 4 29.
Proof. apply (cidr_net_v4 [10; 0; 0; 8] 29); [repeat constructor; unfold byte_ok; lia|done|lia]. Qed.

Lemma w_plain n r : ParseCIDR (ar_CIDR r) = Some (v4InV6Prefix ++ IPNet_IP n, n) → cidr_net n 4 29 → net_plain n 4 29 → plain_cidr r.
Proof. intros HC Hn Hp ip n' E. rewrite HC in E. injection E as <- <-. eauto. Qed.

Lemma w_subnet_plain : plain_cidr (range_of w_v1subnet).
Proof. apply (w_plain w_net); [vm_compute; reflexivity|exact w_net_ok|vm_compute; discriminate]. Qed.

Lemma w_subnet2_plain : plain_cidr (range_of w_subnet2).
Proof. apply (w_plain w_net2); [vm_compute; reflexivity|exact w_net2_ok|vm_compute; discriminate]. Qed.

Lemma SubnetCreateValidation_exact_witness :
  let r := w_reader [w_v1network] [w_v1subnet] in
  SubnetCreateValidation (H := api_concrete) (H0 := w_settings) (H1 := cni_concrete) (H2 := strsets_concrete) r (Ret w_subnet2)
    = Ret (Allowed "validation pass").
Proof.
  intros r. apply (SubnetCreateValidation_exact (L := cni_concrete_laws) (TL := strsets_concrete_laws) r w_subnet2 w_v1network [w_v1subnet] []).
  - reflexivity.
  - reflexivity.
  - discriminate.
  - exact w_subnet2_plain.
  - intros _. exists 10, [0; 0; 8]. split; [vm_compute; reflexivity|discriminate].
  - constructor; [|constructor]. split; [|exact w_subnet_plain]. eexists. vm_compute. reflexivity.
  - constructor.
  - split; [discriminate|]. split; [discriminate|]. split; [apply create_netID_Next; vm_compute; reflexivity|].
    split; [apply (ValidateAddressRange_spec (L := cni_concrete_laws) _ w_subnet2_plain); vm_compute; reflexivity|].
    split; [vm_compute; discriminate|]. split; [vm_compute; discriminate|]. split; [left; reflexivity|].
    split; [|discriminate]. intros l ->%list_elem_of_singleton _ [_ H].
    destruct H as [[[[H H'] _] _]|[[[[H H'] _] _]|[[[[H H'] _] _]|[[[H H'] _] _]]]]; vm_compute in H, H'; congruence.
Defined.

(** ** Disjointness *)

(** The address is neither the gateway of the subnet nor excluded from it. *)
Definition free_in (s : Subnet) (x : list Z) : Prop :=
  (sn_Gateway s ≠ [] → addr (sn_Gateway s) ≠ addr x) ∧ IP_String x ∉ sn_BlackList s.

(** The first address of each range is free in the other subnet, or the last
    address of each is. *)
Definition ends_free (s s' : Subnet) : Prop :=
  free_in s (sn_Start s') ∧ free_in s' (sn_Start s) ∨ free_in s (sn_End s') ∧ free_in s' (sn_End s).

Definition disjoint_pools `{CNIPlugins} (s s' : Subnet) : Prop :=
  ∀ a, valid_ip a → Subnet_Contains s a = true → Subnet_Contains s' a = true → False.

Section overlap.
Context {P : CNIPlugins} {L : CNIPluginsLaws P}.

Lemma contained_between s len ones x :
  canonicalized s → cidr_net (sn_cidr s) len ones → valid_ip x → is_v4 x = is_v4 (sn_Start s) →
  addr (sn_Start s) ≤ addr x ≤ addr (sn_End s) → free_in s x → Subnet_Contains s x = true.
Proof.
  intros Hs Hn Hx Hf Hb Hfree. pose proof Hs as (_ & (Hvs & Hve & _) & Hcs & Hce & _).
  apply Subnet_Contains_spec; [done|done|]. split; [|split; [lia|done]].
  apply (Contains_block _ len ones Hn) in Hcs as [Hfs Hbs]; [|done].
  apply (Contains_block _ len ones Hn) in Hce as [_ Hbe]; [|done].
  apply (Contains_block _ len ones Hn); [done|]. split; [congruence|lia].
Qed.

Lemma Overlap_complete s s' len ones len' ones' :
  canonicalized s → canonicalized s' → cidr_net (sn_cidr s) len ones → cidr_net (sn_cidr s') len' ones' →
  Subnet_IsIPv6 s = Subnet_IsIPv6 s' → ends_free s s' → Subnet_Overlap s s' = false → disjoint_pools s s'.
Proof.
  intros Hs Hs' Hn Hn' H6 He Ho a Ha Hc Hc'. unfold Subnet_Overlap in Ho. rewrite H6, Bool.eqb_reflx in Ho. cbn [negb] in Ho.
  rewrite !orb_false_iff in Ho. destruct Ho as [[[H1 H2] H3] H4].
  apply (Subnet_Contains_spec s a Hs Ha) in Hc as (Hin & Hr & _).
  apply (Subnet_Contains_spec s' a Hs' Ha) in Hc' as (Hin' & Hr' & _).
  pose proof Hs as (_ & (Hvs & Hve & Hf & _) & Hcs & _). pose proof Hs' as (_ & (Hvs' & Hve' & Hf' & _) & Hcs' & _).
  assert (is_v4 a = is_v4 (sn_Start s)) as Ef by (by apply (Contains_same_family (sn_cidr s))).
  assert (is_v4 a = is_v4 (sn_Start s')) as Ef' by (by apply (Contains_same_family (sn_cidr s'))).
  destruct He as [[Hx Hx']|[Hx Hx']].
  - destruct (Z.le_ge_cases (addr (sn_Start s)) (addr (sn_Start s'))).
    + rewrite (contained_between s len ones) in H1; [discriminate|done..|congruence|lia|done].
    + rewrite (contained_between s' len' ones') in H3; [discriminate|done..|congruence|lia|done].
  - destruct (Z.le_ge_cases (addr (sn_End s)) (addr (sn_End s'))).
    + rewrite (contained_between s' len' ones') in H4; [discriminate|done..|congruence|lia|done].
    + rewrite (contained_between s len ones) in H2; [discriminate|done..|congruence|lia|done].
Qed.
End overlap.

(** ** From the webhook to the allocator *)

Section admission.
Context `{A : ApiMachinery} {S : Settings} {P : CNIPlugins} {L : CNIPluginsLaws P} {T : StrSets}.

Lemma canonicalize_Ret s s' : canonicalize s = Ret s' → Subnet_Canonicalize s = (Ret tt, s').
Proof. unfold canonicalize. destruct (Subnet_Canonicalize s) as [[[]|e| |] s'']; naive_solver. Qed.

(** The object's subnet, when the webhook could canonicalize it. *)
Lemma canonicalize_object o s :
  subnet_object_ok o → canonicalize (TransferSubnetForIPAM o) = Ret s →
  canonicalized s ∧ (∃ len ones, cidr_net (sn_cidr s) len ones) ∧ Subnet_IsIPv6 s = IsIPv6Subnet (Some o) ∧
  Subnet_Validate (TransferSubnetForIPAM o) = Ret tt.
Proof.
  intros Ho Hc. apply canonicalize_Ret in Hc. destruct (Transfer_spec_ok o Ho) as ((n & len & ones & HC & Hn & Hp) & Hst & Hen & Hgw & _).
  assert (Subnet_Validate (TransferSubnetForIPAM o) = Ret tt) as HV.
  { unfold Subnet_Canonicalize in Hc. revert Hc. m_run. unfold lift, mbind, M_bind.
    destruct (Subnet_Validate _) as [[]|e| |]; intros Hc; [done|discriminate Hc..]. }
  destruct (Canonicalize_ok _ n len ones HC Hn Hp Hst Hen Hgw HV) as [E Hcan]. rewrite E in Hc. injection Hc as <-.
  split; [done|]. split; [|done]. exists len, ones. unfold sn_cidr, sn_set_range. cbn in HC |- *. by rewrite HC.
Qed.

Lemma admitted_conditions r subnet network subnets :
  r_GetNetwork r (ssp_Network (vs_Spec subnet)) = Ret network → r_ListSubnets r = Ret subnets →
  SubnetCreateValidation r (Ret subnet) = Ret (Allowed "validation pass") →
  ∃ s, canonicalize (TransferSubnetForIPAM subnet) = Ret s ∧ no_overlaps s subnets.
Proof. intros Hn Hl Hadm. by apply (SubnetCreate_admits r subnet network subnets Hn Hl) in Hadm as (_ & _ & _ & _ & _ & ? & _). Qed.

(** C28. An admitted subnet is one that the allocator accepts: added to a
    well-formed slice in which its name is not used, it is allocated from.
    The addresses that the allocator can give out from it are those of no
    other subnet of its family, unless a gateway or an excluded address of one is an
    end of the other's range. *)
Theorem SubnetCreate_allocatable r subnet network subnets :
  r_GetNetwork r (ssp_Network (vs_Spec subnet)) = Ret network → r_ListSubnets r = Ret subnets →
  subnet_object_ok subnet →
  SubnetCreateValidation r (Ret subnet) = Ret (Allowed "validation pass") →
  ∃ s, canonicalize (TransferSubnetForIPAM subnet) = Ret s ∧
    (∀ ss parent u d, slice_wf ss → ss_SubnetIndexMap ss !! om_Name (vs_Meta subnet) = None → ipset_ok u →
       ∃ ss', SubnetSlice_AddSubnet (TransferSubnetForIPAM subnet) parent u d ss = (Ret tt, ss') ∧ slice_wf ss') ∧
    (∀ l sl, l ∈ subnets → subnet_object_ok l → canonicalize (TransferSubnetForIPAM l) = Ret sl →
       IsIPv6Subnet (Some l) = IsIPv6Subnet (Some subnet) → ends_free sl s → disjoint_pools sl s).
Proof.
  intros Hn Hl Ho Hadm. destruct (admitted_conditions r subnet network subnets Hn Hl Hadm) as (s & Hc & Hno).
  destruct (canonicalize_object subnet s Ho Hc) as (Hcan & (len & ones & Hnet) & H6 & HV).
  exists s. split; [done|]. split.
  - intros ss parent u d Hss Hname Hu.
    pose proof (AddSubnet_spec ss (TransferSubnetForIPAM subnet) parent u d Hss Hname (Transfer_spec_ok _ Ho) Hu) as H.
    destruct (SubnetSlice_AddSubnet _ _ _ _ _) as [[[]|e| |] ss']; [exists ss'; naive_solver| |done..].
    destruct H as [_ H]. congruence.
  - intros l sl Hin Hol Hcl Hfam Hends. specialize (Hno l Hin). rewrite Hcl in Hno.
    destruct (canonicalize_object l sl Hol Hcl) as (Hcanl & (lenl & onesl & Hnetl) & H6l & _).
    apply (Overlap_complete sl s lenl onesl len ones); try done. congruence.
Qed.
End admission.

Lemma w_subnet_object n (o : V1Subnet) :
  ParseCIDR (ar_CIDR (ssp_Range (vs_Spec o))) = Some (IPNet_IP n, n) ∨
    ParseCIDR (ar_CIDR (ssp_Range (vs_Spec o))) = Some (v4InV6Prefix ++ IPNet_IP n, n) →
  ar_ReservedIPs (ssp_Range (vs_Spec o)) = [] → cidr_net n 4 29 → net_plain n 4 29 → subnet_object_ok o.
Proof.
  intros HC Hr Hn Hp. split; [|rewrite Hr; constructor]. destruct HC as [HC|HC]; eauto 10.
Qed.

Lemma SubnetCreate_allocatable_witness :
  ∃ s ss', canonicalize (H1 := cni_concrete) (TransferSubnetForIPAM w_subnet2) = Ret s ∧
    SubnetSlice_AddSubnet (H := cni_concrete) (TransferSubnetForIPAM w_subnet2) (Some 7) ∅ false NewSubnetSlice = (Ret tt, ss') ∧
    ∃ sl, canonicalize (H1 := cni_concrete) (TransferSubnetForIPAM w_v1subnet) = Ret sl ∧ disjoint_pools (H := cni_concrete) sl s.
Proof.
  destruct (SubnetCreate_allocatable (A := api_concrete) (S := w_settings) (P := cni_concrete) (L := cni_concrete_laws)
    (T := strsets_concrete) (w_reader [w_v1network] [w_v1subnet]) w_subnet2 w_v1network [w_v1subnet])
    as (s & Hs & Hadd & Hdis).
  - reflexivity.
  - reflexivity.
  - apply (w_subnet_object w_net2); [right; vm_compute; reflexivity|reflexivity|exact w_net2_ok|vm_compute; discriminate].
  - vm_compute. reflexivity.
  - destruct (Hadd NewSubnetSlice (Some 7) ∅ false slice_wf_new eq_refl) as (ss' & Hss & _); [apply map_Forall_empty|].
    exists s, ss'. split; [exact Hs|]. split; [exact Hss|].
    eexists. split; [vm_compute; reflexivity|].
    apply (Hdis w_v1subnet); [by left| |vm_compute; reflexivity|vm_compute; reflexivity|].
    + apply (w_subnet_object w_net); [right; vm_compute; reflexivity|reflexivity|exact w_net_ok|vm_compute; discriminate].
    + left. clear Hadd Hdis. assert (canonicalize (H1 := cni_concrete) (TransferSubnetForIPAM w_subnet2) = Ret s) as E by exact Hs.
      vm_compute in E. injection E as <-. split; (split; [intros _; vm_compute; discriminate|refine (bool_decide_eq_false_1 _ _); vm_compute; reflexivity]).
Defined.

(** ** Updates *)

(** The fields of a subnet that decide which addresses it has. *)
Record same_range (old new : V1Subnet) : Prop := {
  sr_start : ar_Start (ssp_Range (vs_Spec old)) = ar_Start (ssp_Range (vs_Spec new));
  sr_end : ar_End (ssp_Range (vs_Spec old)) = ar_End (ssp_Range (vs_Spec new));
  sr_gateway : ar_Gateway (ssp_Range (vs_Spec old)) = ar_Gateway (ssp_Range (vs_Spec new));
  sr_cidr : ar_CIDR (ssp_Range (vs_Spec old)) = ar_CIDR (ssp_Range (vs_Spec new));
  sr_excluded : ar_ExcludeIPs (ssp_Range (vs_Spec old)) ≡ₚ ar_ExcludeIPs (ssp_Range (vs_Spec new))
}.

(** What an update may do with the net ID and the NAT setting. *)
Definition update_netID_fits (network : V1Network) (old new : V1Subnet) : Prop :=
  (GetNetworkType (Some network) = NetworkTypeUnderlay →
     ssp_NetID (vs_Spec old) = ssp_NetID (vs_Spec new) ∧ AutoNatOutgoing_set new = false) ∧
  (GetNetworkType (Some network) = NetworkTypeOverlay → ssp_NetID (vs_Spec new) = None).

Lemma update_netID_Next network old new : update_netID network old new = Next tt ↔ update_netID_fits network old new.
Proof.
  unfold update_netID, update_netID_fits. case_decide as Hu; [|case_decide as Ho].
  - rewrite seq_Next, !when_Next, not_bool_decide, Hu. intuition discriminate.
  - rewrite when_Next, not_bool_decide, Ho. intuition discriminate.
  - split; [tauto|done].
Qed.

Lemma update_netID_refuses network old new : refuses (update_netID network old new).
Proof. unfold update_netID. refuses. Qed.

Lemma DeepEqualStringSlice_spec a b : DeepEqualStringSlice a b = true ↔ a ≡ₚ b.
Proof.
  unfold DeepEqualStringSlice. case_bool_decide as Hl; cbn [negb].
  - rewrite equal_elements_spec; [apply sort_Strings_eq|]. by rewrite !sort_Strings_Permutation.
  - split; [done|]. intros E. by destruct Hl; rewrite E.
Qed.

Section update.
Context {P : CNIPlugins}.

Lemma SubnetUpdate_admits r new old network :
  r_GetNetwork r (ssp_Network (vs_Spec new)) = Ret network →
  SubnetUpdateValidation r (Ret new) (Ret old) = Ret (Allowed "validation pass") ↔
    ssp_Network (vs_Spec old) = ssp_Network (vs_Spec new) ∧ update_netID_fits network old new ∧
    ValidateAddressRange (ssp_Range (vs_Spec new)) = Ret tt ∧ same_range old new.
Proof.
  intros Hn. unfold SubnetUpdateValidation. cbn [attempt mbind handling_bind].
  rewrite allowed_seq, when_Next, not_bool_decide by refuses. rewrite Hn. cbn [attempt mbind handling_bind].
  rewrite allowed_seq, update_netID_Next by apply update_netID_refuses.
  rewrite allowed_seq, attempt_Next by refuses. rewrite !allowed_seq, !when_Next, !not_bool_decide by refuses.
  rewrite negb_false_iff, DeepEqualStringSlice_spec. split.
  - intros (? & ? & ? & ? & ? & ? & ? & ? & _). by split_and!.
  - intros (? & ? & ? & []). by split_and!.
Qed.

(** The allocator's subnet: what an update keeps of it.  The reserved list,
    the family flag and the private flag are not among it. *)
Record same_pool (s s' : Subnet) : Prop := {
  sp_name : sn_Name s' = sn_Name s;
  sp_parent : sn_ParentNetwork s' = sn_ParentNetwork s;
  sp_start : sn_Start s' = sn_Start s;
  sp_end : sn_End s' = sn_End s;
  sp_cidr : sn_CIDR s' = sn_CIDR s;
  sp_gateway : sn_Gateway s' = sn_Gateway s;
  sp_excluded : sn_BlackList s' = sn_BlackList s;
  sp_contains a : Subnet_Contains s' a = Subnet_Contains s a
}.

Lemma canonicalize_reserved o s : canonicalize (TransferSubnetForIPAM o) = Ret s →
  sn_ReservedList s = list_to_set (ar_ReservedIPs (range_of o)).
Proof.
  intros Hc. apply canonicalize_Ret in Hc. revert Hc. unfold Subnet_Canonicalize. m_run.
  unfold lift, mbind, M_bind. destruct (Subnet_Validate _); intros Hc; try discriminate Hc. injection Hc as <-.
  unfold put. cbn. apply StringSliceToMap_spec.
Qed.

(** The same fields give the same pool. *)
Lemma same_range_pool old new s :
  om_Name (vs_Meta new) = om_Name (vs_Meta old) → ssp_Network (vs_Spec old) = ssp_Network (vs_Spec new) →
  same_range old new → canonicalize (TransferSubnetForIPAM old) = Ret s →
  ∃ s', canonicalize (TransferSubnetForIPAM new) = Ret s' ∧ same_pool s s'.
Proof.
  intros Hname Hnet [Hst Hen Hgw HC Hex] Hc. apply canonicalize_Ret in Hc. revert Hc.
  unfold canonicalize, Subnet_Canonicalize. m_run.
  assert (Subnet_Validate (TransferSubnetForIPAM new) = Subnet_Validate (TransferSubnetForIPAM old)) as ->.
  { unfold Subnet_Validate. cbn. by rewrite Hname, Hnet, Hst, Hen, Hgw, HC. }
  unfold lift, mbind, M_bind. destruct (Subnet_Validate _); intros Hc; try discriminate Hc. injection Hc as <-.
  assert ((list_to_set (ar_ExcludeIPs (ssp_Range (vs_Spec new))) : gset string) =
          list_to_set (ar_ExcludeIPs (ssp_Range (vs_Spec old)))) as E by (apply list_to_set_perm_L; by symmetry).
  eexists. split; [reflexivity|]. split; unfold Subnet_Contains, sn_cidr, Subnet_IsBlackIP, put; cbn;
    intros; rewrite <-?Hst, <-?Hen, <-?Hgw, <-?HC, ?StringSliceToMap_spec, ?E; done.
Qed.
End update.

(** C29. Update of a subnet.  An update is admitted exactly when it keeps the
    parent network; on an Underlay network it keeps the net ID and sets no
    NAT, on an Overlay network it has no net ID; its range is valid; and the
    start, end, gateway and CIDR are the same texts and the excluded addresses
    the same in any order.  The subnet that the allocator makes of an admitted
    update then has the name, parent, bounds, CIDR, gateway and excluded
    addresses of the one before, and contains the same addresses.  The
    reserved addresses may change, and are those that the new object lists;
    so may the version, which the webhook does not compare.  The two objects
    have the same name, as two versions of an object do; the CIDR, when it is
    one, is as in C27. *)
Theorem SubnetUpdate_keeps_pool {P : CNIPlugins} {L : CNIPluginsLaws P} r new old network :
  r_GetNetwork r (ssp_Network (vs_Spec new)) = Ret network → om_Name (vs_Meta new) = om_Name (vs_Meta old) →
  plain_cidr (range_of new) →
  let admitted := SubnetUpdateValidation r (Ret new) (Ret old) = Ret (Allowed "validation pass") in
  (admitted ↔ ssp_Network (vs_Spec old) = ssp_Network (vs_Spec new) ∧ update_netID_fits network old new ∧
     valid_range (range_of new) ∧ same_range old new) ∧
  (admitted → ∀ s, canonicalize (TransferSubnetForIPAM old) = Ret s →
     ∃ s', canonicalize (TransferSubnetForIPAM new) = Ret s' ∧ same_pool s s' ∧
       sn_ReservedList s' = list_to_set (ar_ReservedIPs (range_of new))).
Proof.
  intros Hn Hname Hp admitted. pose proof (SubnetUpdate_admits r new old network Hn) as Hiff.
  rewrite (ValidateAddressRange_spec _ Hp) in Hiff. split; [exact Hiff|].
  intros (Hpa & _ & _ & Hr)%Hiff s Hs. destruct (same_range_pool old new s Hname Hpa Hr Hs) as (s' & Hs' & Hsame).
  exists s'. split; [done|]. split; [done|]. by apply canonicalize_reserved.
Qed.

(** The reserved addresses may change. *)
Definition w_subnet2' : V1Subnet :=
  mkV1Subnet (w_meta "subnet2")
    (mkSubnetSpec (mkAddressRange "4" "" "" "10.0.0.8/29" "10.0.0.9" ["10.0.0.10"] []) None "network1" None)
    (mkSubnetStatus (mkCount 0 0 0) "").

Lemma SubnetUpdate_keeps_pool_witness :
  ∃ s s', canonicalize (H1 := cni_concrete) (TransferSubnetForIPAM w_subnet2) = Ret s ∧
    canonicalize (H1 := cni_concrete) (TransferSubnetForIPAM w_subnet2') = Ret s' ∧
    same_pool (P := cni_concrete) s s' ∧ sn_ReservedList s' = {["10.0.0.10"]}.
Proof.
  destruct (SubnetUpdate_keeps_pool (P := cni_concrete) (L := cni_concrete_laws)
    (w_reader [w_v1network] [w_v1subnet]) w_subnet2' w_subnet2 w_v1network eq_refl eq_refl) as [_ H].
  - apply (w_plain w_net2); [vm_compute; reflexivity|exact w_net2_ok|vm_compute; discriminate].
  - eexists. edestruct H as (s' & Hs' & Ha & Hr); [vm_compute; reflexivity|vm_compute; reflexivity|].
    exists s'. split; [vm_compute; reflexivity|]. split; [exact Hs'|]. split; [exact Ha|].
    rewrite Hr. vm_compute. reflexivity.
Defined.

(** ** What the checks let through *)

(** The capacity is computed in 64 bits: the one of a network with more than
    2 ^ 63 addresses is negative, and passes the limit. *)
Lemma CalculateCapacity_wraps : CalculateCapacity (mkAddressRange "6" "" "" "fd00::/64" "" [] []) = -1.
Proof. vm_compute. reflexivity. Qed.

(** A network that begins with a zero byte: its first address loses the byte
    and counts as zero, so a range of 65535 addresses is refused. *)
Lemma CalculateCapacity_leading :
  let r := mkAddressRange "6" "" "" "64:ff9b:0:0:1::/112" "" [] [] in
  size_of r = 65535 ∧ CalculateCapacity r = 2 ^ 48 + 65536.
Proof. split; vm_compute; reflexivity. Qed.

(** Without a gateway nothing compares the version and the family of the CIDR. *)
Lemma version_mismatch_valid : ValidateAddressRange (H := cni_concrete) (mkAddressRange "4" "" "" "fd00::/120" "" [] []) = Ret tt.
Proof. vm_compute. reflexivity. Qed.

(** An update may change the version of a range without a gateway. *)
Lemma version_update_admitted :
  let object version := mkV1Subnet (w_meta "subnet2")
    (mkSubnetSpec (mkAddressRange version "" "" "10.0.0.8/29" "" [] []) None "network1" None) (mkSubnetStatus (mkCount 0 0 0) "") in
  SubnetUpdateValidation (H1 := cni_concrete) (w_reader [w_v1network] [w_v1subnet]) (Ret (object "6")) (Ret (object "4"))
    = Ret (Allowed "validation pass").
Proof. vm_compute. reflexivity. Qed.
