(* ===== verification/ValidatingPods.v ===== *)
(** * What the validating webhook guarantees of remote clusters and pods *)

From Stdlib Require Import Ascii.
From S2P Require Import Prelude GoNet GoStrings Regexp NetBlock NetText CNIPlugins NetworkingV1 MulticlusterV1 Kubernetes Config Utils IPAMTypes Transform Names GoJSON KubeClient Store StoreProperties ClientUtils IPAMManager Admission Validating ValidatingNetworks ValidatingSubnets.
Local Open Scope Z_scope.

(** ** Remote clusters *)

Definition word (s : string) : Prop := s ≠ "" ∧ string_forall word_char s = true.
Definition port_number (s : string) : Prop := s ≠ "" ∧ (String.length s ≤ 5)%nat ∧ string_forall digit_char s = true.

(** Words, each after a dot. *)
Fixpoint dotted (ws : list string) : string :=
  match ws with [] => "" | w :: ws => ("." +:+ w) +:+ dotted ws end.

Lemma dotted_cons w ws : dotted (w :: ws) = ("." +:+ w) +:+ dotted ws.
Proof. done. Qed.

Lemma join_dotted w ws : join "." (w :: ws) = w +:+ dotted ws.
Proof.
  revert w. induction ws as [|x ws IH]; intros w; [by rewrite sapp_nil_r|].
  rewrite join_cons, IH, dotted_cons. done.
Qed.

Lemma matches_dotted s :
  matches (RStar (RCat (RLit ".") (RPlus (RChar word_char)))) s ↔ ∃ ws, Forall word ws ∧ s = dotted ws.
Proof.
  split.
  - remember (RStar _) as r eqn:Er. induction 1 as [| | | | |a|a s t Hs IHs Ht IHt]; try discriminate Er.
    { exists []. split; [constructor|done]. }
    injection Er as ->. destruct IHt as (ws & Hws & ->); [done|]. apply matches_cat in Hs as (x & w & -> & Hx & Hw).
    apply (matches_lit ".") in Hx as ->. apply matches_plus_char in Hw. exists (w :: ws). split; [by constructor|].
    by rewrite dotted_cons.
  - intros (ws & Hws & ->). induction Hws as [|w ws Hw Hws IH]; [constructor|]. rewrite dotted_cons.
    apply m_star_app; [|done]. apply matches_cat. exists ".", w. split; [done|]. split; [by apply (matches_lit ".")|].
    by apply matches_plus_char.
Qed.

Lemma matches_port s :
  matches (RCat (RChar digit_char) (RUpTo 4 (RChar digit_char))) s ↔ port_number s.
Proof.
  rewrite matches_cat. unfold port_number. split.
  - intros (x & y & -> & Hx & Hy). apply (matches_upto_char 4) in Hy as [Hl Hy].
    inversion Hx as [|? c Hc| | | | |]; subst. rewrite sapp_cons, sapp_nil. cbn. rewrite Hc, Hy.
    split; [discriminate|]. split; [lia|done].
  - destruct s as [|c s]; [by intros [? _]|]. cbn. rewrite andb_true_iff. intros (_ & Hl & Hc & Hs).
    exists (String c ""), s. split; [done|]. split; [by constructor|]. apply (matches_upto_char 4). split; [lia|done].
Qed.

Lemma matches_scheme s :
  matches (RCat (RLit "http") (RCat (ROpt (RLit "s")) (RLit "://"))) s ↔ s = "http://" ∨ s = "https://".
Proof.
  split.
  - intros Hm. apply matches_cat in Hm as (x & y & -> & Hx & Hy). apply (matches_lit "http") in Hx as ->.
    apply matches_cat in Hy as (z & t & -> & Hz & Ht). apply (matches_lit "://") in Ht as ->.
    apply matches_alt in Hz as [Hz|Hz]; [apply (matches_lit "s") in Hz as ->; by right|].
    inversion Hz; subst. by left.
  - assert (∀ z, matches (ROpt (RLit "s")) z →
      matches (RCat (RLit "http") (RCat (ROpt (RLit "s")) (RLit "://"))) ("http" +:+ z +:+ "://")) as Hm.
    { intros z Hz. apply m_cat; [by apply (matches_lit "http")|]. apply m_cat; [done|]. by apply (matches_lit "://"). }
    intros [->| ->]; [apply (Hm "")|apply (Hm "s")]; apply matches_alt; [right; constructor|left].
    by apply (matches_lit "s").
Qed.

(** An endpoint: [http] or [https], at least two words between dots, a port. *)
Definition endpoint (s : string) : Prop :=
  ∃ scheme ws port, scheme ∈ ["http"; "https"] ∧ (2 ≤ length ws)%nat ∧ Forall word ws ∧ port_number port ∧
    s = scheme +:+ "://" +:+ join "." ws +:+ ":" +:+ port.

Lemma validEndpoint_spec s : Match validEndpoint s = true ↔ endpoint s.
Proof.
  rewrite Match_spec. unfold validEndpoint, endpoint. split.
  - intros Hm. apply matches_cat in Hm as (x & y & -> & Hx & Hy). apply matches_scheme in Hx.
    apply matches_cat in Hy as (w & y1 & -> & Hw & Hy1). apply matches_plus_char in Hw.
    apply matches_cat in Hy1 as (y2 & y3 & -> & Hy2 & Hy3).
    apply matches_cat in Hy3 as (y4 & port & -> & Hc & Hport).
    apply (matches_lit ":") in Hc as ->. apply matches_port in Hport. unfold RPlus in Hy2.
    apply matches_cat in Hy2 as (d & e & -> & Hd & He). apply matches_cat in Hd as (dot & w2 & -> & Hdot & Hw2).
    apply (matches_lit ".") in Hdot as ->. apply matches_plus_char in Hw2. apply matches_dotted in He as (ws & Hws & ->).
    exists (if decide (x = "http://") then "http" else "https"), (w :: w2 :: ws), port.
    split; [case_decide; set_solver|]. split; [cbn; lia|]. split; [constructor; [exact Hw|constructor; [exact Hw2|exact Hws]]|]. split; [done|].
    rewrite join_cons, join_dotted, !sapp_assoc. destruct Hx as [->| ->]; done.
  - intros (scheme & ws & port & Hs & Hl & Hws & Hp & ->). destruct ws as [|w [|w2 ws]]; [cbn in Hl; lia..|].
    apply Forall_cons in Hws as [Hw Hws]. apply Forall_cons in Hws as [Hw2 Hws].
    replace (scheme +:+ "://" +:+ join "." (w :: w2 :: ws) +:+ ":" +:+ port)
      with ((scheme +:+ "://") +:+ w +:+ dotted (w2 :: ws) +:+ ":" +:+ port) by (by rewrite join_dotted, !sapp_assoc).
    apply m_cat; [apply matches_scheme; apply elem_of_cons in Hs as [->|Hs]; [by left|]; right; set_solver|].
    apply m_cat; [by apply matches_plus_char|]. apply m_cat.
    + rewrite dotted_cons. apply m_cat; [|apply matches_dotted; by exists ws].
      apply m_cat; [by apply (matches_lit ".")|by apply matches_plus_char].
    + apply m_cat; [by apply (matches_lit ":")|by apply matches_port].
Qed.

(** Remote clusters: on creation and on update a remote cluster is
    admitted exactly when it has certificates and its endpoint is a URL of the
    documented form; every other request is answered by a refusal. *)
Theorem RemoteCluster_admitted rc :
  let spec := rc_Spec rc in
  let result := RCCreateValidation (Ret rc) in
  RCUpdateValidation (Ret rc) = result ∧
  (result = Ret (Allowed "validation pass") ↔
     rc_CAData spec ≠ [] ∧ rc_CertData spec ≠ [] ∧ rc_KeyData spec ≠ [] ∧ endpoint (rc_APIEndpoint spec)) ∧
  (∃ resp, result = Ret resp).
Proof.
  intros spec result. split; [done|]. split.
  - unfold result, RCCreateValidation, validate. cbn [attempt mbind handling_bind]. fold spec.
    rewrite !allowed_seq, !when_Next, !bool_decide_eq_false, negb_false_iff, validEndpoint_spec by refuses.
    split; [naive_solver|]. intros (? & ? & ? & He). split_and!; [|naive_solver..].
    intros E. destruct He as (scheme & ws & port & Hs & _ & _ & _ & He). rewrite E in He.
    symmetry in He. apply sapp_eq_nil in He as [-> _]. set_solver.
  - apply respond_safe. unfold validate. cbn [attempt mbind handling_bind]. safe.
Qed.

(** ** Pods *)

Section select.
Context `{Settings}.
Implicit Types r : Reader.

(** The subnet named exists and is one of the network, or of no network. *)
Definition subnet_of r (net name : string) : Prop :=
  ∃ subnet, r_GetSubnet r name = Ret subnet ∧ (ssp_Network (vs_Spec subnet) = net ∨ ssp_Network (vs_Spec subnet) = "").

Lemma check_specified_Ret r count index nn name index' nn' :
  check_specified r count (index, nn) name = Ret (index', nn') →
  index' = S index ∧ subnet_of r nn' name ∧ (nn = "" ∨ nn' = nn) ∧
  (∀ subnet, r_GetSubnet r name = Ret subnet → count = 2%nat →
     ar_Version (ssp_Range (vs_Spec subnet)) = if decide (index = 0%nat) then IPVersion4 else IPVersion6).
Proof.
  unfold check_specified. destruct (r_GetSubnet r name) as [subnet|e| |] eqn:Hg; try discriminate.
  case_decide as H1; [discriminate|]. case_decide as H2; [discriminate|].
  assert (∀ subnet0, Ret subnet = Ret subnet0 → count = 2%nat →
     ar_Version (ssp_Range (vs_Spec subnet0)) = if decide (index = 0%nat) then IPVersion4 else IPVersion6) as Hv.
  { intros s [= <-] Hc. case_decide as Hi; apply dec_stable; tauto. }
  destruct (decide (nn = "")) as [Hn|Hn]; [|destruct (decide (nn = ssp_Network (vs_Spec subnet))) as [Hn'|Hn']; [|discriminate]];
    intros [= <- <-]; (split_and!; [done|exists subnet; rewrite Hg; auto|auto|done]).
Qed.

Lemma check_all_Ret r count names index nn index' nn' :
  for_each (check_specified r count) (index, nn) names = Ret (index', nn') →
  (nn = "" ∨ nn' = nn) ∧ (∀ name, name ∈ names → subnet_of r nn' name).
Proof.
  revert index nn. induction names as [|name names IH]; intros index nn; cbn [for_each].
  { intros [= <- <-]. split; [by right|]. intros name Hin. by apply not_elem_of_nil in Hin. }
  destruct (check_specified r count (index, nn) name) as [[i1 n1]|e| |] eqn:Hc; cbn; try discriminate.
  intros Hr. apply check_specified_Ret in Hc as (_ & (subnet & Hg & Hs) & Hn & _). apply IH in Hr as [Hn' Hall].
  split; [naive_solver|]. intros name' [->|Hin]%elem_of_cons; [|auto]. exists subnet. split; [done|].
  destruct Hs as [Hs|Hs]; [|by right]. destruct Hn' as [Hn'|Hn']; [|left; congruence]. right. congruence.
Qed.

(** The network and the subnets an object asks for fit together. *)
Lemma Select_sound r obj net subnetStr :
  SelectNetworkAndSubnetFromObject r obj = Ret (net, subnetStr) →
  let names := specifiedSubnetStrToSubnetNames subnetStr in
  (length names ≤ 2)%nat ∧ (∀ name, name ∈ names → subnet_of r net name) ∧
  let asked := PickFirstNonEmptyString [annotation obj AnnotationSpecifiedNetwork; label obj LabelSpecifiedNetwork] in
  (asked ≠ "" → net = asked).
Proof.
  unfold SelectNetworkAndSubnetFromObject.
  set (asked := PickFirstNonEmptyString [annotation obj AnnotationSpecifiedNetwork; label obj LabelSpecifiedNetwork]).
  set (str := PickFirstNonEmptyString _). case_decide as Hl; [discriminate|].
  destruct (for_each _ _ _) as [[i nn]|e| |] eqn:Hf; cbn [mbind outcome_bind]; try discriminate.
  apply check_all_Ret in Hf as [_ Hall]. cbn [snd]. unfold nonempty. case_bool_decide as Hn; cbn [negb].
  - intros [= <- <-]. split; [lia|]. split; [|done]. intros name Hin. destruct (Hall name Hin) as (subnet & Hg & Hs).
    exists subnet. split; [done|]. right. destruct Hs; congruence.
  - case_decide as Hc; [|discriminate]. intros [= <- <-]. case_bool_decide as Ha; cbn [negb] in *.
    + split; [lia|]. split; [done|]. by intros [].
    + split; [lia|]. split; [|done]. by rewrite Hc.
Qed.
End select.

Section pods.
Context `{A : ApiMachinery} {S : Settings}.
Implicit Types r cache client : Reader.

Definition live (i : V1IPInstance) : Prop := om_DeletionTimestamp (vi_Meta i) = None.

Lemma existing_Next net str i :
  existing_instance_ok net str i = Next tt ↔
    (live i → is_Network (vi_Spec i) = net ∧
       (str ≠ "" → is_Subnet (vi_Spec i) ∈ specifiedSubnetStrToSubnetNames str)).
Proof.
  unfold existing_instance_ok, live. case_decide as Hd; [|naive_solver].
  case_decide as Hn; [split; [done|]; naive_solver|].
  rewrite when_Next, andb_false_iff, negb_false_iff. unfold SubnetNameBelongsToSpecifiedSubnets.
  rewrite bool_decide_eq_true. unfold nonempty. rewrite negb_false_iff, bool_decide_eq_true.
  destruct (decide (str = "")); naive_solver.
Qed.

Lemma pool_ip_Next ip : pool_ip_ok ip = Next tt ↔ ip = "" ∨ ParseIP ip ≠ [].
Proof.
  unfold pool_ip_ok. rewrite when_Next, not_bool_decide. unfold NormalizedIP. case_decide; naive_solver.
Qed.

(** The network type of a pod, given its network if it names one. *)
Definition pod_type (m : ObjectMeta) (network : option V1Network) : string :=
  match network with
  | Some n => if decide (networkTypeFromPod m = "") then ParseNetworkTypeFromString (GetNetworkType (Some n))
              else ParseNetworkTypeFromString (networkTypeFromPod m)
  | None => ParseNetworkTypeFromString (networkTypeFromPod m)
  end.

Lemma pod_network_type_Next n m t :
  pod_network_type n m = Next t ↔ t = pod_type m (Some n) ∧
    (networkTypeFromPod m ≠ "" → EqualFold (GetNetworkType (Some n)) (ParseNetworkTypeFromString (networkTypeFromPod m)) = true).
Proof.
  unfold pod_network_type, pod_type, nonempty, stringEqualCaseInsensitive. case_decide as He.
  - rewrite bool_decide_eq_true_2 by done. cbn [negb]. naive_solver.
  - rewrite bool_decide_eq_false_2 by done. cbn [negb]. rewrite seq_Next, when_Next, negb_false_iff. naive_solver.
Qed.

Lemma pod_network_type_refuses n m : refuses (pod_network_type n m).
Proof. unfold pod_network_type. refuses. Qed.

(** The instances of the pod agree with the network and subnets it names. *)
Definition network_fits cache client (pod : Pod) (net str : string) (network : V1Network) : Prop :=
  let m := pod_Meta pod in
  r_GetNetwork cache net = Ret network ∧
  (networkTypeFromPod m ≠ "" → EqualFold (GetNetworkType (Some network)) (ParseNetworkTypeFromString (networkTypeFromPod m)) = true) ∧
  ∃ l, r_ListIPInstances client (pod_opts pod) = Ret l ∧
    ∀ i, i ∈ l → live i → is_Network (vi_Spec i) = net ∧ (str ≠ "" → is_Subnet (vi_Spec i) ∈ specifiedSubnetStrToSubnetNames str).

Definition pool_fits (pod : Pod) (net : string) : Prop :=
  let pool := annotation (pod_Meta pod) AnnotationIPPool in
  pool ≠ "" → net ≠ "" ∧ ∀ ip, ip ∈ Split pool ","%char → ip = "" ∨ ParseIP ip ≠ [].

(** The counter of the family of the pod, for a pod of one of the three
    families. *)
Definition family_count (m : ObjectMeta) (n : V1Network) : option (option Count) :=
  let family := ParseIPFamilyFromString (annotation m AnnotationIPFamily) in
  if decide (family = IPv4Only) then Some (nst_Statistics (vn_Status n))
  else if decide (family = IPv6Only) then Some (nst_IPv6Statistics (vn_Status n))
  else if decide (family = DualStack) then Some (nst_DualStackStatistics (vn_Status n))
  else None.

(** The overlay networks have an address left. *)
Definition capacity_left client (m : ObjectMeta) : Prop :=
  ∃ networks, r_ListNetworks client = Ret networks ∧
    ∀ n o, n ∈ networks → ns_Type (vn_Spec n) = NetworkTypeOverlay → family_count m n = Some o →
      ∃ c, o = Some c ∧ 0 < ct_Available c.

Lemma overlay_capacity_Next what o : overlay_capacity what o = Next tt ↔ ∃ c, o = Some c ∧ 0 < ct_Available c.
Proof.
  unfold overlay_capacity. rewrite bind_Next. setoid_rewrite call_Next. setoid_rewrite when_Next.
  setoid_rewrite Z.leb_gt. destruct o; cbn; naive_solver.
Qed.

Lemma overlay_network_Next m n :
  overlay_network_ok m n = Next tt ↔
    (ns_Type (vn_Spec n) = NetworkTypeOverlay → ∀ o, family_count m n = Some o → ∃ c, o = Some c ∧ 0 < ct_Available c).
Proof.
  unfold overlay_network_ok, family_count. repeat case_decide; rewrite ?overlay_capacity_Next; naive_solver.
Qed.

(** The network that the pod names, if it names one. *)
Definition named_network cache client (pod : Pod) (net str : string) (network : option V1Network) : Prop :=
  match network with
  | Some n => net ≠ "" ∧ network_fits cache client pod net str n
  | None => net = ""
  end.

(** What the second part of the handler returns: the network type. *)
Lemma pod_network_part cache client pod net str t :
  (if nonempty net then
     network ← attempt (r_GetNetwork cache net)
       (λ err, if IsNotFound err then Denied (Errorf "specified network %s not found" [net]) else internal_error err);
     networkType ← pod_network_type network (pod_Meta pod);
     ipList ← attempt (r_ListIPInstances client (pod_opts pod)) internal_error;
     for_all (existing_instance_ok net str) ipList;;
     Next networkType
   else Next (ParseNetworkTypeFromString (networkTypeFromPod (pod_Meta pod)))) = Next t ↔
  ∃ network, named_network cache client pod net str network ∧ t = pod_type (pod_Meta pod) network.
Proof.
  unfold nonempty. case_bool_decide as He; cbn [negb].
  { split; [intros [= <-]; by exists None|]. intros ([n|] & Hn & ->); [by destruct Hn|done]. }
  repeat setoid_rewrite bind_Next. repeat setoid_rewrite attempt_Next.
  setoid_rewrite pod_network_type_Next. setoid_rewrite for_all_Next. setoid_rewrite existing_Next. split.
  - intros (n & Hn & t' & [-> Hf] & l & Hl & [] & Hall & [= <-]). exists (Some n).
    split; [|done]. split; [done|]. split; [done|]. split; [done|]. by exists l.
  - intros ([n|] & Hn & ->); [|done]. destruct Hn as (_ & Hn & Hf & l & Hl & Hall).
    exists n. split; [done|]. eexists. split; [done|]. exists l. split; [done|]. by exists tt.
Qed.

Lemma pool_part pod net :
  (if nonempty (annotation (pod_Meta pod) AnnotationIPPool) then
     when (negb (nonempty net)) (because "ip pool and network(subnet) must be specified at the same time");;
     for_all pool_ip_ok (Split (annotation (pod_Meta pod) AnnotationIPPool) ","%char)
   else Next tt) = Next tt ↔ pool_fits pod net.
Proof.
  unfold pool_fits. destruct (nonempty (annotation _ _)) eqn:E.
  - apply nonempty_spec in E. rewrite seq_Next, when_Next, nonempty_false, for_all_Next. setoid_rewrite pool_ip_Next. naive_solver.
  - unfold nonempty in E. apply negb_false_iff, bool_decide_eq_true in E. split; done.
Qed.

Lemma capacity_part client m t :
  (if DualStackEnabled && bool_decide (t = Overlay) then
     networkList ← attempt (r_ListNetworks client) internal_error;
     for_all (overlay_network_ok m) networkList
   else Next tt) = Next tt ↔ (DualStackEnabled = true → t = Overlay → capacity_left client m).
Proof.
  destruct DualStackEnabled; [|by split]. case_bool_decide as Ht; cbn [andb]; [|by split; [intros _ _ ?|]].
  rewrite bind_Next. setoid_rewrite attempt_Next. setoid_rewrite for_all_Next. setoid_rewrite overlay_network_Next.
  unfold capacity_left. naive_solver.
Qed.

(** C31. Creation of a pod.  Host-network pods are admitted.  Another pod is
    admitted exactly when the network and the subnets it asks for are selected
    (then there are at most two subnets, they exist and are of that network or
    of none, and a network that is named is the one selected); the network, if
    there is one, exists, its type is the one the pod names if it names one,
    and the instances the pod still has are of that network and of those
    subnets; its IP pool, if it has one, comes with a network and each of its
    elements is an address or empty; and, when the dual stack is enabled and
    the pod is of the overlay network, the counter of the pod's family of
    every overlay network shows an address left.  Without dual stack the
    counters are not looked at. *)
Theorem PodCreateValidation_sound cache client pod :
  let m := pod_Meta pod in
  let result := PodCreateValidation cache client (Ret pod) in
  let asked := PickFirstNonEmptyString [annotation m AnnotationSpecifiedNetwork; label m LabelSpecifiedNetwork] in
  (pod_HostNetwork pod = true → result = Ret (Allowed "skip validation on host-networking pod")) ∧
  (pod_HostNetwork pod = false →
   result = Ret (Allowed "validation pass") ↔
   ∃ net str network, SelectNetworkAndSubnetFromObject cache m = Ret (net, str) ∧
     named_network cache client pod net str network ∧ pool_fits pod net ∧
     (DualStackEnabled = true → pod_type m network = Overlay → capacity_left client m)) ∧
  (∀ net str, SelectNetworkAndSubnetFromObject cache m = Ret (net, str) →
     (length (specifiedSubnetStrToSubnetNames str) ≤ 2)%nat ∧
     (∀ name, name ∈ specifiedSubnetStrToSubnetNames str → subnet_of cache net name) ∧ (asked ≠ "" → net = asked)).
Proof.
  intros m result asked. unfold result, PodCreateValidation. cbn [attempt mbind handling_bind].
  split; [by intros ->|]. split; [|intros net str; apply Select_sound]. intros ->.
  cbn [when mbind handling_bind]. fold m. rewrite allowed_bind by refuses. setoid_rewrite attempt_Next. split.
  - intros ((net & str) & Hsel & Ha).
    apply allowed_bind in Ha as (t & (network & Hnet & ->)%pod_network_part & Ha); [|unfold pod_network_type, existing_instance_ok; refuses].
    apply allowed_seq in Ha as [Hpool%pool_part Ha]; [|unfold pool_ip_ok; refuses].
    apply allowed_seq in Ha as [Hcap _]; [|unfold overlay_network_ok, overlay_capacity; refuses].
    exists net, str, network. split; [done|]. split; [done|]. split; [done|]. by apply capacity_part.
  - intros (net & str & network & Hsel & Hnet & Hpool & Hcap). exists (net, str). split; [done|].
    apply allowed_bind; [unfold pod_network_type, existing_instance_ok; refuses|]. exists (pod_type m network).
    split; [apply pod_network_part; by exists network|].
    apply allowed_seq; [unfold pool_ip_ok; refuses|]. split; [by apply pool_part|].
    apply allowed_seq; [unfold overlay_network_ok, overlay_capacity; refuses|]. split; [by apply capacity_part|done].
Qed.
End pods.

Definition w_overlay_with (c : option Count) : V1Network :=
  mkV1Network (vn_Meta w_overlay) (vn_Spec w_overlay) (mkNetworkStatus "" "" [] [] c None None).

Definition w_overlay_pod : Pod :=
  pod_set_Meta (om_set_Annotations
    (list_to_map [(AnnotationSpecifiedNetwork, "overlay"); (AnnotationIPPool, "10.0.0.5,10.0.0.6")]) (w_meta "web-0")) w_pod.

Abbreviation w_validate networks :=
  (PodCreateValidation (H := api_concrete) (H0 := w_settings) (w_reader networks []) (w_reader networks []) (Ret w_overlay_pod)).

Lemma PodCreateValidation_sound_witness :
  ∃ net str network,
    SelectNetworkAndSubnetFromObject (H := w_settings) (w_reader [w_overlay_with (Some (mkCount 8 1 7))] []) (pod_Meta w_overlay_pod)
      = Ret (net, str) ∧
    pool_fits w_overlay_pod net ∧
    (pod_type (S := w_settings) (pod_Meta w_overlay_pod) network = Overlay →
     capacity_left (S := w_settings) (w_reader [w_overlay_with (Some (mkCount 8 1 7))] []) (pod_Meta w_overlay_pod)).
Proof.
  destruct (proj1 (proj1 (proj2 (PodCreateValidation_sound (A := api_concrete) (S := w_settings)
    (w_reader [w_overlay_with (Some (mkCount 8 1 7))] []) (w_reader [w_overlay_with (Some (mkCount 8 1 7))] []) w_overlay_pod))
    eq_refl) ltac:(vm_compute; reflexivity)) as (net & str & network & Hsel & _ & Hpool & Hcap).
  exists net, str, network. exact (conj Hsel (conj Hpool (Hcap eq_refl))).
Defined.

(** A new overlay network, whose counters are not set yet, makes the webhook
    panic. *)
Lemma PodCreateValidation_panics : w_validate [w_overlay_with None] = Panic.
Proof. vm_compute. reflexivity. Qed.

(** An empty element of the IP pool is taken for an address. *)
Lemma pool_with_empty_address : pool_ip_ok "" = Next tt.
Proof. apply pool_ip_Next. by left. Qed.
