(* ===== verification/Mutating.v ===== *)
(** * The mutating webhook of pods (pkg/webhook/mutating)

    [PodCreateMutation] decides which network a pod will use, writes the
    decision into its annotations and selects the nodes that can run it. *)

From S2P Require Import Prelude GoNet GoStrings CNIPlugins NetworkingV1 MulticlusterV1 Kubernetes Config Utils Transform Names GoJSON KubeClient Store StoreProperties ClientUtils IPAMManager Admission Validating ValidatingNetworks ValidatingSubnets ValidatingPods.
Local Open Scope Z_scope.

Definition TaintNodeNetworkUnavailable : string := "node.kubernetes.io/network-unavailable".
Definition TolerationOpExists : string := "Exists".
Definition TaintEffectNoSchedule : string := "NoSchedule".

(** [json.Marshal] of a pod does not fail. *)
Definition generatePatchResponseFromPod (pod : Pod) : Response := Patched pod.

(** The keys of [selector] go into the pod's selector, which is [selector]
    itself when the pod has none. *)
Definition patchSelectorToPod (pod : Pod) (selector : option (gmap string string)) : Pod :=
  match pod_NodeSelector pod with
  | None => pod_set_NodeSelector selector pod
  | Some ns => pod_set_NodeSelector (Some (default ∅ selector ∪ ns)) pod
  end.

Definition patchAnnotationToPod (pod : Pod) (key value : string) : Pod :=
  if negb (nonempty value) then pod
  else pod_set_Meta (om_set_Annotations (<[key := value]> (om_Annotations (pod_Meta pod))) (pod_Meta pod)) pod.

Definition tolerationMatch (orig diff : Toleration) : bool :=
  bool_decide (to_Key orig = to_Key diff) && bool_decide (to_Effect orig = to_Effect diff) &&
  bool_decide (to_Operator orig = to_Operator diff) && bool_decide (to_Value orig = to_Value diff).

Definition ensureTolerationInPod (pod : Pod) (tolerations : list Toleration) : Pod :=
  foldl (λ pod toleration,
    let found := existsb (λ t, tolerationMatch t toleration) (pod_Tolerations pod) in
    if negb found then pod_set_Tolerations (pod_Tolerations pod ++ [toleration]) pod else pod) pod tolerations.

Definition unavailable_toleration : Toleration :=
  mkToleration TaintNodeNetworkUnavailable TolerationOpExists "" TaintEffectNoSchedule.

(** The four networking configs. *)
Record NetConfig := mkNetConfig {
  networkNameStr : string; subnetNameStr : string; networkTypeStr : string; ipFamilyStr : string
}.

Definition elected (c : NetConfig) : bool :=
  nonempty (networkNameStr c) || nonempty (subnetNameStr c) || nonempty (networkTypeStr c) || nonempty (ipFamilyStr c).

Section mutating.
Context `{ApiMachinery} `{Settings}.
Implicit Types cache client : Reader.

Definition fetchFromObject cache (obj : ObjectMeta) : outcome NetConfig :=
  selected ← wrap_outcome (Wrapf "unable to select network and subnet from object %s/%s/%s: %v" [om_Namespace obj; om_Name obj])
               (SelectNetworkAndSubnetFromObject cache obj);
  Ret (mkNetConfig selected.1 selected.2
         (PickFirstNonEmptyString [annotation obj AnnotationNetworkType; label obj LabelNetworkType])
         (annotation obj AnnotationIPFamily)).

Definition no_config : NetConfig := mkNetConfig "" "" "" "".

(** Priority level 1: a stateful pod goes back to the network of an instance
    it still has. *)
Definition reuse_network client (pod : Pod) : handling NetConfig :=
  let shouldReuse := ParseBoolOrDefault (annotation (pod_Meta pod) AnnotationIPRetain) DefaultIPRetain in
  if OwnByStatefulWorkload pod && shouldReuse then
    ipList ← attempt (r_ListIPInstances client (pod_opts pod)) internal_error;
    Next (match find_first (λ i, bool_decide (om_DeletionTimestamp (vi_Meta i) = None)) ipList with
          | Some i => mkNetConfig (is_Network (vi_Spec i)) "" "" ""
          | None => no_config
          end)
  else Next no_config.

(** Priority levels 2 and 3: the pod, then its namespace. *)
Definition fetch_pod cache (req : Request) (pod : Pod) (c : NetConfig) : handling (Pod * NetConfig) :=
  if elected c then Next (pod, c)
  else
    let pod := pod_set_Meta (om_set_Name (rq_Namespace req) (rq_Name req) (pod_Meta pod)) pod in
    c ← attempt (fetchFromObject cache (pod_Meta pod)) bad_request;
    Next (pod, c).

Definition fetch_namespace cache (req : Request) (c : NetConfig) : handling NetConfig :=
  if elected c then Next c
  else
    ns ← attempt (r_GetNamespace cache (rq_Namespace req))
           (λ err, internal_error (Wrapf "unable to get namespace of pod %s/%s: %v" [rq_Namespace req; rq_Name req] err));
    attempt (fetchFromObject cache (nsp_Meta ns)) bad_request.

(** The network type, and the node selector of the network. *)
Definition network_of_config client (c : NetConfig) : handling (string * option (gmap string string)) :=
  let networkType := ParseNetworkTypeFromString (networkTypeStr c) in
  if nonempty (networkNameStr c) then
    network ← attempt (r_GetNetwork client (networkNameStr c)) internal_error;
    Next (if negb (nonempty (networkTypeStr c)) then ParseNetworkTypeFromString (GetNetworkType (Some network)) else networkType,
          ns_NodeSelector (vn_Spec network))
  else Next (networkType, None).

Definition annotate (pod : Pod) (c : NetConfig) (networkType : string) : Pod :=
  let pod := patchAnnotationToPod pod AnnotationSpecifiedNetwork (networkNameStr c) in
  let pod := patchAnnotationToPod pod AnnotationSpecifiedSubnet (subnetNameStr c) in
  let pod := patchAnnotationToPod pod AnnotationNetworkType networkType in
  patchAnnotationToPod pod AnnotationIPFamily (ipFamilyStr c).

Definition quota_selector (pod : Pod) : option (gmap string string) :=
  if DualStackEnabled then
    let family := ParseIPFamilyFromString (annotation (pod_Meta pod) AnnotationIPFamily) in
    if decide (family = IPv4Only) then Some {[LabelIPv4AddressQuota := QuotaNonEmpty]}
    else if decide (family = IPv6Only) then Some {[LabelIPv6AddressQuota := QuotaNonEmpty]}
    else if decide (family = DualStack) then Some {[LabelDualStackAddressQuota := QuotaNonEmpty]}
    else None
  else Some {[LabelAddressQuota := QuotaNonEmpty]}.

Definition select_nodes (pod : Pod) (c : NetConfig) (networkType : string) (nodeSelector : option (gmap string string)) :
    handling Pod :=
  if decide (networkType = Underlay) then
    let pod := patchSelectorToPod pod (if nonempty (networkNameStr c) then nodeSelector
                                       else Some {[LabelUnderlayNetworkAttachment := Attached]}) in
    Next (match quota_selector pod with Some s => patchSelectorToPod pod (Some s) | None => pod end)
  else if decide (networkType = Overlay) then
    Next (patchSelectorToPod pod (Some {[LabelOverlayNetworkAttachment := Attached]}))
  else Done (bad_request (Errorf "unknown network type %s" [networkType])).

Definition PodCreateMutation cache client (req : Request) : outcome Response := respond (
  pod ← attempt (as_Pod (rq_Object req)) bad_request;
  if pod_HostNetwork pod then Done (generatePatchResponseFromPod (ensureTolerationInPod pod [unavailable_toleration]))
  else
    let pod := pod_set_Meta (om_set_Annotations (delete AnnotationIP (om_Annotations (pod_Meta pod))) (pod_Meta pod)) pod in
    c ← reuse_network client pod;
    fetched ← fetch_pod cache req pod c;
    let '(pod, c) := fetched in
    c ← fetch_namespace cache req c;
    typed ← network_of_config client c;
    let '(networkType, networkNodeSelector) := typed in
    pod ← select_nodes (annotate pod c networkType) c networkType networkNodeSelector;
    Done (generatePatchResponseFromPod pod)).

(** [Handler.Handle] *)
Definition Mutating_Handle cache client (req : Request) : outcome Response :=
  handle_with (Allowed "by pass") [(podGVK, PodCreateMutation cache client req)] [] [] req.
End mutating.

(** ** What the patched pod asks for *)

Definition selector_of (p : Pod) : gmap string string := default ∅ (pod_NodeSelector p).

Lemma selector_patch p s : selector_of (patchSelectorToPod p s) = default ∅ s ∪ selector_of p.
Proof. unfold selector_of, patchSelectorToPod. destruct (pod_NodeSelector p); [done|]. cbn. by rewrite (right_id_L ∅ (∪)). Qed.

Lemma meta_patch p s : pod_Meta (patchSelectorToPod p s) = pod_Meta p.
Proof. unfold patchSelectorToPod. by destruct (pod_NodeSelector p). Qed.

Lemma annotations_patch p key value :
  om_Annotations (pod_Meta (patchAnnotationToPod p key value)) =
    if negb (nonempty value) then om_Annotations (pod_Meta p) else <[key := value]> (om_Annotations (pod_Meta p)).
Proof. unfold patchAnnotationToPod. by destruct (nonempty value). Qed.

Lemma selector_annotate p key value : pod_NodeSelector (patchAnnotationToPod p key value) = pod_NodeSelector p.
Proof. unfold patchAnnotationToPod. by destruct (nonempty value). Qed.

(** ** What is decided for a pod

    The configuration of an object, the one that has priority, and what it
    writes, each said anew: nothing of the webhook's own functions is in it. *)

Definition first_of (m : ObjectMeta) (annotated labelled : string) : string :=
  if decide (annotation m annotated = "") then label m labelled else annotation m annotated.

Lemma first_of_pick m a l : PickFirstNonEmptyString [annotation m a; label m l] = first_of m a l.
Proof.
  unfold first_of. cbn [PickFirstNonEmptyString]. unfold nonempty. case_bool_decide as Ha; cbn [negb].
  - rewrite decide_True by done. by case_bool_decide.
  - by rewrite decide_False.
Qed.

Section properties.
Context `{A : ApiMachinery} {S : Settings}.
Implicit Types cache client : Reader.

(** The object asks for the configuration: an annotation counts before the
    label, a network that is not named is the one of the named subnets. *)
Record asks_for cache (m : ObjectMeta) (c : NetConfig) : Prop := {
  af_network : first_of m AnnotationSpecifiedNetwork LabelSpecifiedNetwork ≠ "" →
    networkNameStr c = first_of m AnnotationSpecifiedNetwork LabelSpecifiedNetwork;
  af_none : first_of m AnnotationSpecifiedNetwork LabelSpecifiedNetwork = "" →
    specifiedSubnetStrToSubnetNames (subnetNameStr c) = [] → networkNameStr c = "";
  af_subnets name : name ∈ specifiedSubnetStrToSubnetNames (subnetNameStr c) → subnet_of cache (networkNameStr c) name;
  af_subnet : subnetNameStr c = first_of m AnnotationSpecifiedSubnet LabelSpecifiedSubnet;
  af_type : networkTypeStr c = first_of m AnnotationNetworkType LabelNetworkType;
  af_family : ipFamilyStr c = annotation m AnnotationIPFamily
}.

Definition asks_nothing (c : NetConfig) : Prop := c = no_config.

(** The instance whose network a stateful pod keeps: the first one that is not
    being deleted. *)
Definition keeps_instance client (pod : Pod) (i : V1IPInstance) : Prop :=
  OwnByStatefulWorkload pod = true ∧ ParseBoolOrDefault (annotation (pod_Meta pod) AnnotationIPRetain) DefaultIPRetain = true ∧
  ∃ l1 l2, r_ListIPInstances client (pod_opts pod) = Ret (l1 ++ i :: l2) ∧
    om_DeletionTimestamp (vi_Meta i) = None ∧ ∀ x, x ∈ l1 → om_DeletionTimestamp (vi_Meta x) ≠ None.

(** The network of an instance, then the pod, then its namespace. *)
Definition decided cache client (req : Request) (pod : Pod) (c : NetConfig) : Prop :=
  (∃ i, keeps_instance client pod i ∧ is_Network (vi_Spec i) ≠ "" ∧ c = mkNetConfig (is_Network (vi_Spec i)) "" "" "") ∨
  (∀ i, keeps_instance client pod i → is_Network (vi_Spec i) = "") ∧
  ∃ own, asks_for cache (om_set_Name (rq_Namespace req) (rq_Name req) (pod_Meta pod)) own ∧
    (¬ asks_nothing own ∧ c = own ∨
     asks_nothing own ∧ ∃ ns, r_GetNamespace cache (rq_Namespace req) = Ret ns ∧ asks_for cache (nsp_Meta ns) c).

(** The type, and the labels of the nodes of the network. *)
Definition typed_as client (c : NetConfig) (t : string) (labels : gmap string string) : Prop :=
  (t = Underlay ∨ t = Overlay) ∧
  (networkNameStr c = "" → t = ParseNetworkTypeFromString (networkTypeStr c) ∧ labels = ∅) ∧
  (networkNameStr c ≠ "" → ∃ network, r_GetNetwork client (networkNameStr c) = Ret network ∧
     labels = default ∅ (ns_NodeSelector (vn_Spec network)) ∧
     t = ParseNetworkTypeFromString (if decide (networkTypeStr c = "") then GetNetworkType (Some network) else networkTypeStr c)).

(** The labels of the nodes that have addresses left for the family. *)
Definition quota_labels (family : string) : gmap string string :=
  if DualStackEnabled then
    if decide (family = IPv4Only) then {[LabelIPv4AddressQuota := QuotaNonEmpty]}
    else if decide (family = IPv6Only) then {[LabelIPv6AddressQuota := QuotaNonEmpty]}
    else if decide (family = DualStack) then {[LabelDualStackAddressQuota := QuotaNonEmpty]} else ∅
  else {[LabelAddressQuota := QuotaNonEmpty]}.

(** The labels of the nodes for the pod: an underlay pod needs addresses and
    the nodes of its network, or of any. *)
Definition required (c : NetConfig) (t family : string) (labels : gmap string string) : gmap string string :=
  if decide (t = Overlay) then {[LabelOverlayNetworkAttachment := Attached]}
  else quota_labels family ∪ (if decide (networkNameStr c = "") then {[LabelUnderlayNetworkAttachment := Attached]} else labels).

(** The annotation of the key: what is decided, when it is not empty. *)
Definition annotated (c : NetConfig) (t : string) (before : gmap string string) (key : string) : option string :=
  let write value := if decide (value = "") then before !! key else Some value in
  if decide (key = AnnotationSpecifiedNetwork) then write (networkNameStr c)
  else if decide (key = AnnotationSpecifiedSubnet) then write (subnetNameStr c)
  else if decide (key = AnnotationNetworkType) then Some t
  else if decide (key = AnnotationIPFamily) then write (ipFamilyStr c)
  else if decide (key = AnnotationIP) then None
  else before !! key.

(** *** The steps *)

Lemma elected_spec c : elected c = false ↔ asks_nothing c.
Proof.
  unfold elected, asks_nothing, no_config, nonempty. destruct c as [a b d e]. cbn.
  rewrite !orb_false_iff, !negb_false_iff, !bool_decide_eq_true. naive_solver.
Qed.

Lemma fetch_asks cache m c : fetchFromObject cache m = Ret c → asks_for cache m c.
Proof.
  unfold fetchFromObject. destruct (SelectNetworkAndSubnetFromObject cache m) as [[net str]|e| |] eqn:E; try done. cbn [wrap_outcome mbind outcome_bind fst snd].
  intros [= <-]. pose proof (Select_sound _ _ _ _ E) as (_ & Hsub & Hask). rewrite first_of_pick in Hask.
  unfold SelectNetworkAndSubnetFromObject in E. rewrite !first_of_pick in E. set (str' := first_of m AnnotationSpecifiedSubnet _) in *.
  destruct (decide (2 < _)%nat) as [Hl|Hl]; [done|].
  destruct (for_each _ _ _) as [[i nn]|e| |] eqn:Hf; cbn [mbind outcome_bind snd] in E; try done.
  assert (str = str') as ->.
  { destruct (nonempty nn); [|congruence]. case_decide; [|done]. congruence. }
  split; cbn [networkNameStr subnetNameStr networkTypeStr ipFamilyStr]; try done; [|apply first_of_pick].
  intros Hno Hnames. rewrite Hnames in Hf. injection Hf as <- <-. change (nonempty "") with false in E. congruence.
Qed.

Lemma reuse_decides client p c :
  reuse_network client p = Next c →
  (∃ i, keeps_instance client p i ∧ c = mkNetConfig (is_Network (vi_Spec i)) "" "" "") ∨
  c = no_config ∧ ∀ i, ¬ keeps_instance client p i.
Proof.
  unfold reuse_network, keeps_instance. destruct (OwnByStatefulWorkload p && _) eqn:Eb; [apply andb_true_iff in Eb as [-> ->]|].
  - intros (l & Hl%attempt_Next & Hc)%bind_Next. rewrite Hl. injection Hc as <-. unfold find_first.
    destruct (list_find _ l) as [[n i]|] eqn:Ef; cbn.
    + left. exists i. split; [|done]. split; [done|]. split; [done|]. apply list_find_Some in Ef as (Hi & Hd & Hb).
      apply bool_decide_eq_true in Hd. exists (take n l), (drop (Datatypes.S n) l).
      split; [f_equal; symmetry; by apply take_drop_middle|]. split; [done|]. intros x Hx Hdx.
      apply list_elem_of_lookup in Hx as [m Hm]. apply lookup_take_Some in Hm as [Hm Hlt]. apply (Hb m x Hm Hlt). by apply bool_decide_eq_true.
    + right. split; [done|]. intros i (_ & _ & l1 & l2 & [= ->] & Hd & _). apply list_find_None in Ef. rewrite Forall_forall in Ef.
      apply (Ef i); [set_solver|by apply bool_decide_eq_true].
  - intros [= <-]. right. split; [done|]. intros i (H1 & H2 & _). by rewrite H1, H2 in Eb.
Qed.

Lemma keeps_unique client p i j : keeps_instance client p i → keeps_instance client p j → i = j.
Proof.
  intros (_ & _ & l1 & l2 & E & Hi & Hl) (_ & _ & m1 & m2 & E' & Hj & Hm). rewrite E in E'. injection E' as E'.
  clear E. revert m1 E' Hm. induction l1 as [|x l1 IH]; intros [|y m1] E' Hm; injection E' as E1 E2; [done| | |].
  - subst y. exfalso. apply (Hm i); [by left|done].
  - subst x. exfalso. apply (Hl j); [by left|done].
  - apply (IH (λ z Hz, Hl z (list_elem_of_further _ _ _ Hz)) m1 E2). intros z Hz. apply Hm. by right.
Qed.

Lemma network_of_config_Next client c t sel :
  network_of_config client c = Next (t, sel) → t = Underlay ∨ t = Overlay → typed_as client c t (default ∅ sel).
Proof.
  intros H Ht. split; [done|]. unfold network_of_config in H. unfold nonempty in H. case_bool_decide as Hn; cbn [negb] in H.
  - injection H as <- <-. split; [done|]. by intros [].
  - apply bind_Next in H as (network & Hg%attempt_Next & H). injection H as <- <-. split; [done|]. intros _. exists network.
    split; [done|]. split; [done|]. case_bool_decide as Hs; cbn [negb]; [by rewrite decide_True|by rewrite decide_False].
Qed.

Lemma annotate_lookup p c t key :
  t ≠ "" → om_Annotations (pod_Meta p) !! AnnotationIP = None →
  om_Annotations (pod_Meta (annotate p c t)) !! key = annotated c t (om_Annotations (pod_Meta p)) key.
Proof.
  intros Ht Hip. unfold annotate, annotated. rewrite !annotations_patch.
  assert (∀ (v k : string) (m : gmap string string), (if negb (nonempty v) then m else <[k := v]> m) !! key =
    if decide (key = k) then (if decide (v = "") then m !! key else Some v) else m !! key) as E.
  { intros v k m. unfold nonempty. case_bool_decide as Hv; cbn [negb].
    - rewrite (decide_True _ _ Hv). by case_decide.
    - rewrite (decide_False _ _ Hv). destruct (decide (key = k)) as [->|Hne]; [by rewrite lookup_insert_eq|by rewrite lookup_insert_ne]. }
  rewrite !E. rewrite (decide_False (P := t = "")) by done.
  destruct (decide (key = AnnotationSpecifiedNetwork)) as [->|H1].
  { do 3 (rewrite (decide_False (P := AnnotationSpecifiedNetwork = _)) by (vm_compute; discriminate)). done. }
  destruct (decide (key = AnnotationSpecifiedSubnet)) as [->|H2].
  { do 2 (rewrite (decide_False (P := AnnotationSpecifiedSubnet = _)) by (vm_compute; discriminate)). done. }
  destruct (decide (key = AnnotationNetworkType)) as [->|H3].
  { by rewrite (decide_False (P := AnnotationNetworkType = _)) by (vm_compute; discriminate). }
  destruct (decide (key = AnnotationIPFamily)) as [->|H4]; [done|]. destruct (decide (key = AnnotationIP)) as [->|H5]; done.
Qed.

Lemma patch_meta p key value :
  patchAnnotationToPod p key value =
  pod_set_Meta (om_set_Annotations (om_Annotations (pod_Meta (patchAnnotationToPod p key value))) (pod_Meta p)) p.
Proof. unfold patchAnnotationToPod. destruct (negb _); by destruct p as [[] ? ? ? ? ? ? ? ?]. Qed.

(** Only annotations and the selector change. *)
Lemma annotate_meta p c t :
  annotate p c t = pod_set_Meta (om_set_Annotations (om_Annotations (pod_Meta (annotate p c t))) (pod_Meta p)) p.
Proof.
  unfold annotate. cbv zeta. rewrite (patch_meta _ AnnotationIPFamily). rewrite (patch_meta _ AnnotationNetworkType).
  rewrite (patch_meta _ AnnotationSpecifiedSubnet). rewrite (patch_meta p AnnotationSpecifiedNetwork). by destruct p as [[] ? ? ? ? ? ? ? ?].
Qed.

Lemma patch_selector p s : patchSelectorToPod p s = pod_set_NodeSelector (pod_NodeSelector (patchSelectorToPod p s)) p.
Proof. unfold patchSelectorToPod. by destruct (pod_NodeSelector p). Qed.

Lemma quota_selector_labels p :
  default ∅ (quota_selector p) = quota_labels (ParseIPFamilyFromString (annotation (pod_Meta p) AnnotationIPFamily)).
Proof. unfold quota_selector, quota_labels. destruct DualStackEnabled; [|done]. by repeat case_decide. Qed.

Lemma select_nodes_Next p c t sel p' :
  select_nodes p c t sel = Next p' →
  (t = Underlay ∨ t = Overlay) ∧ p' = pod_set_NodeSelector (pod_NodeSelector p') p ∧
  selector_of p' = required c t (ParseIPFamilyFromString (annotation (pod_Meta p) AnnotationIPFamily)) (default ∅ sel) ∪ selector_of p.
Proof.
  assert (Underlay ≠ Overlay) as Hne by (vm_compute; discriminate).
  unfold select_nodes, required. case_decide as Hu; [|case_decide as Ho; [|discriminate]]; intros [= <-]; subst t.
  - split; [by left|]. rewrite (decide_False (P := Underlay = Overlay)) by done.
    set (s := if nonempty (networkNameStr c) then _ else _). set (p1 := patchSelectorToPod p s).
    assert (default ∅ s = if decide (networkNameStr c = "") then {[LabelUnderlayNetworkAttachment := Attached]} else default ∅ sel) as Es.
    { unfold s, nonempty. destruct (decide (networkNameStr c = "")); [by rewrite bool_decide_eq_true_2|by rewrite bool_decide_eq_false_2]. }
    assert (p1 = pod_set_NodeSelector (pod_NodeSelector p1) p) as E1 by apply patch_selector.
    assert (pod_Meta p1 = pod_Meta p) as Em by apply meta_patch. rewrite <-Em, <-quota_selector_labels.
    rewrite <-Es, <-(assoc_L (∪)), <-selector_patch. fold p1.
    destruct (quota_selector p1) as [q|].
    + split; [|apply (selector_patch p1 (Some q))]. rewrite patch_selector at 1. by rewrite E1 at 2.
    + split; [exact E1|]. cbn. by rewrite (left_id_L ∅ (∪)).
  - split; [by right|]. split; [apply patch_selector|]. apply selector_patch.
Qed.

Lemma fetch_pod_Next cache req p c p' c' :
  fetch_pod cache req p c = Next (p', c') →
  ¬ asks_nothing c ∧ p' = p ∧ c' = c ∨
  asks_nothing c ∧ p' = pod_set_Meta (om_set_Name (rq_Namespace req) (rq_Name req) (pod_Meta p)) p ∧ asks_for cache (pod_Meta p') c'.
Proof.
  unfold fetch_pod. destruct (elected c) eqn:E.
  - intros [= <- <-]. left. split; [|done]. rewrite <-elected_spec. by rewrite E.
  - apply elected_spec in E. intros (c1 & Hc%attempt_Next & [= <- <-])%bind_Next. right. split; [done|]. split; [done|]. by apply fetch_asks.
Qed.

Lemma fetch_namespace_Next cache req c c' :
  fetch_namespace cache req c = Next c' →
  ¬ asks_nothing c ∧ c' = c ∨
  asks_nothing c ∧ ∃ ns, r_GetNamespace cache (rq_Namespace req) = Ret ns ∧ asks_for cache (nsp_Meta ns) c'.
Proof.
  unfold fetch_namespace. destruct (elected c) eqn:E.
  - intros [= <-]. left. split; [|done]. rewrite <-elected_spec. by rewrite E.
  - apply elected_spec in E. intros (ns & Hn%attempt_Next & Hc%attempt_Next)%bind_Next. right. split; [done|]. exists ns.
    split; [done|]. by apply fetch_asks.
Qed.

Lemma Mutation_patched cache client req pod pod' :
  as_Pod (rq_Object req) = Ret pod → pod_HostNetwork pod = false →
  PodCreateMutation cache client req = Ret (Patched pod') →
  let p0 := pod_set_Meta (om_set_Annotations (delete AnnotationIP (om_Annotations (pod_Meta pod))) (pod_Meta pod)) pod in
  ∃ c0 p c1 c t sel, reuse_network client p0 = Next c0 ∧ fetch_pod cache req p0 c0 = Next (p, c1) ∧
    fetch_namespace cache req c1 = Next c ∧ network_of_config client c = Next (t, sel) ∧
    select_nodes (annotate p c t) c t sel = Next pod'.
Proof.
  intros Hp Hh. unfold PodCreateMutation. rewrite Hp. cbn [attempt mbind handling_bind]. rewrite Hh. cbv zeta.
  set (p0 := pod_set_Meta _ pod).
  destruct (reuse_network client p0) as [r|c0| |] eqn:Hr; cbn [mbind handling_bind respond]; try discriminate.
  { intros [= ->]. unfold reuse_network in Hr. repeat case_match; try discriminate.
    unfold attempt in Hr. destruct (r_ListIPInstances _ _); cbn in Hr; discriminate. }
  destruct (fetch_pod cache req p0 c0) as [r|[p c]| |] eqn:Hf; cbn [mbind handling_bind respond]; try discriminate.
  { intros [= ->]. unfold fetch_pod in Hf. case_match; [discriminate|]. unfold attempt in Hf.
    destruct (fetchFromObject _ _); cbn in Hf; discriminate. }
  destruct (fetch_namespace cache req c) as [r|c1| |] eqn:Hn; cbn [mbind handling_bind respond]; try discriminate.
  { intros [= ->]. unfold fetch_namespace, attempt in Hn. repeat (case_match; cbn in Hn); discriminate. }
  destruct (network_of_config client c1) as [r|[t sel]| |] eqn:Hc; cbn [mbind handling_bind respond]; try discriminate.
  { intros [= ->]. unfold network_of_config, attempt in Hc. repeat (case_match; cbn in Hc); discriminate. }
  destruct (select_nodes (annotate p c1 t) c1 t sel) as [r|p'| |] eqn:Hs; cbn [mbind handling_bind respond]; try discriminate.
  { intros [= ->]. unfold select_nodes in Hs. repeat case_match; discriminate. }
  intros [= <-]. by exists c0, p, c, c1, t, sel.
Qed.

Lemma annotated_delete c t before key : annotated c t (delete AnnotationIP before) key = annotated c t before key.
Proof.
  unfold annotated. repeat (case_decide; [subst key; rewrite ?lookup_delete_ne by (vm_compute; discriminate); done|]).
  by rewrite lookup_delete_ne.
Qed.

(** C32. Mutation of a pod.  The response to the creation of a pod that does
    not use the host's network is decided by a configuration [c]: that of the
    network of the first instance that a stateful pod keeps, else the one that
    the pod itself asks for, else the one that its namespace asks for
    ([decided]), with the type that is asked for or else the one of the network
    ([typed_as]).  The patched pod is the pod, under the name of the request,
    but for its annotations and its node selector; its labels stay.  Its
    annotations name the network, the subnets, the type and the family as
    decided, it has none for addresses of its own making, and keeps all others
    ([annotated]).  Its selector asks for the nodes of the overlay, or for
    those with addresses left of the family that are of the network, or of any
    underlay network ([required]), and otherwise for what the pod asked for.
    If a network is decided, the validating webhook will select no other. *)
Theorem PodCreateMutation_pod cache client req pod pod' :
  as_Pod (rq_Object req) = Ret pod → pod_HostNetwork pod = false →
  PodCreateMutation cache client req = Ret (Patched pod') →
  let unmarked := pod_set_Meta (om_set_Annotations (delete AnnotationIP (om_Annotations (pod_Meta pod))) (pod_Meta pod)) pod in
  let family := ParseIPFamilyFromString (annotation (pod_Meta pod') AnnotationIPFamily) in
  ∃ c t labels m, decided cache client req unmarked c ∧ typed_as client c t labels ∧
    (m = pod_Meta pod ∨ m = om_set_Name (rq_Namespace req) (rq_Name req) (pod_Meta pod)) ∧
    pod' = pod_set_NodeSelector (pod_NodeSelector pod') (pod_set_Meta (om_set_Annotations (om_Annotations (pod_Meta pod')) m) pod) ∧
    (∀ key, om_Annotations (pod_Meta pod') !! key = annotated c t (om_Annotations (pod_Meta pod)) key) ∧
    selector_of pod' = required c t family labels ∪ selector_of pod ∧
    (networkNameStr c ≠ "" → ∀ r net str, SelectNetworkAndSubnetFromObject r (pod_Meta pod') = Ret (net, str) → net = networkNameStr c).
Proof.
  intros Hp Hh Hm unmarked family. destruct (Mutation_patched cache client req pod pod' Hp Hh Hm) as (c0 & p & c1 & c & t & sel & H1 & H2 & H3 & H4 & H5).
  fold unmarked in H1, H2. apply select_nodes_Next in H5 as (Ht & E5 & Hsel).
  assert (t ≠ "") as Ht0 by (by destruct Ht as [->| ->]).
  assert (∃ m, (m = pod_Meta pod ∨ m = om_set_Name (rq_Namespace req) (rq_Name req) (pod_Meta pod)) ∧
    p = pod_set_Meta (om_set_Annotations (delete AnnotationIP (om_Annotations (pod_Meta pod))) m) pod ∧
    decided cache client req unmarked c) as (m & Hmeta & Ep & Hd).
  { apply reuse_decides in H1. apply fetch_pod_Next in H2. apply fetch_namespace_Next in H3.
    assert (∀ i, keeps_instance client unmarked i → c0 = mkNetConfig (is_Network (vi_Spec i)) "" "" "") as Hi.
    { intros i Hi. destruct H1 as [(j & Hj & ->)|[_ Hno]]; [|by apply Hno in Hi]. by rewrite (keeps_unique _ _ _ _ Hi Hj). }
    destruct H2 as [(Hn & -> & ->)|(Hn & -> & Hown)].
    - exists (pod_Meta pod). split; [by left|]. split; [done|]. left. destruct H3 as [[_ ->]|[? _]]; [|done].
      destruct H1 as [(i & Hi' & E)|[? _]]; [|done]. exists i. split; [done|]. split; [|done]. intros E0. apply Hn. by rewrite E, E0.
    - exists (om_set_Name (rq_Namespace req) (rq_Name req) (pod_Meta pod)). split; [by right|]. split; [done|]. right.
      split; [intros i Hi'; rewrite (Hi i Hi') in Hn; by injection Hn|]. exists c1. split; [done|].
      destruct H3 as [[? ->]|[? H3]]; [by left|by right]. }
  apply network_of_config_Next in H4; [|done]. exists c, t, (default ∅ sel), m.
  assert (pod_Meta pod' = pod_Meta (annotate p c t)) as Em by (rewrite E5; done).
  assert (∀ key, om_Annotations (pod_Meta pod') !! key = annotated c t (om_Annotations (pod_Meta pod)) key) as Hann.
  { intros key. rewrite Em, annotate_lookup by (rewrite ?Ep; cbn; rewrite ?lookup_delete_eq; done).
    rewrite Ep. apply annotated_delete. }
  split; [done|]. split; [done|]. split; [done|]. split.
  { rewrite E5 at 1. rewrite Em, annotate_meta at 1. f_equal. rewrite Ep. by destruct pod. }
  split; [done|]. split.
  { unfold family. rewrite Em, Hsel. f_equal. rewrite annotate_meta, Ep. done. }
  intros Hn r net str Hs. apply Select_sound in Hs as (_ & _ & Hask). rewrite first_of_pick in Hask. unfold first_of, annotation in Hask.
  assert (om_Annotations (pod_Meta pod') !! AnnotationSpecifiedNetwork = Some (networkNameStr c)) as E1.
  { rewrite Hann. unfold annotated. by rewrite decide_True, decide_False. }
  rewrite E1 in Hask. cbv zeta in Hask. cbn [default from_option id] in Hask. rewrite decide_False in Hask by done. by apply Hask.
Qed.
End properties.

Definition w_asked : Pod := pod_set_Meta (om_set_Annotations {[AnnotationIP := "forged"]} (w_meta "web-0")) w_pod.

Definition w_request : Request :=
  let bad {A} : outcome A := Fail (errors_New "decode") in
  mkRequest OpCreate podGVK "default" "web-0"
    (mkDecoded bad bad bad bad (Ret w_asked))
    (mkDecoded bad bad bad bad bad).

(** A namespace that asks for the overlay network. *)
Definition w_ns_reader : Reader :=
  let r := w_reader [w_overlay] [] in
  mkReader (r_GetNetwork r) (r_ListNetworks r) (r_ListNetworksByNode r) (r_GetSubnet r) (r_ListSubnets r)
    (r_GetIPInstance r) (r_ListIPInstances r) (r_GetPod r) (r_GetNode r) (r_ListNodes r)
    (λ name, Ret (mkNamespace (om_set_Annotations {[AnnotationSpecifiedNetwork := "overlay"]} (w_meta name))))
    (r_ListRemoteSubnets r) (r_ListRemoteVteps r) (r_ListRemoteClusters r) (r_GetRemoteCluster r).

Definition w_mutated : Pod :=
  match PodCreateMutation (H := api_concrete) (H0 := w_settings) w_ns_reader w_ns_reader w_request with
  | Ret (Patched pod') => pod'
  | _ => w_pod
  end.

Lemma w_mutated_run :
  PodCreateMutation (H := api_concrete) (H0 := w_settings) w_ns_reader w_ns_reader w_request = Ret (Patched w_mutated).
Proof. vm_compute. reflexivity. Qed.

Lemma PodCreateMutation_pod_witness :
  om_Annotations (pod_Meta w_mutated) !! AnnotationIP = None ∧
  om_Annotations (pod_Meta w_mutated) !! AnnotationSpecifiedNetwork = Some "overlay" ∧
  om_Annotations (pod_Meta w_mutated) !! AnnotationNetworkType = Some Overlay ∧
  selector_of w_mutated = {[LabelOverlayNetworkAttachment := Attached]}.
Proof.
  destruct (PodCreateMutation_pod (A := api_concrete) (S := w_settings) w_ns_reader w_ns_reader w_request)
    with (pod := w_asked) (pod' := w_mutated)
    as (c & t & labels & m & _ & _ & _ & _ & Hann & _ & _);
    [reflexivity|vm_compute; reflexivity|exact w_mutated_run|].
  split; [|split; [vm_compute; reflexivity|split; vm_compute; reflexivity]].
  rewrite (Hann AnnotationIP). reflexivity.
Defined.

(** Host-network pods: exactly the toleration is added, once. *)
Lemma ensureToleration_spec pod t :
  let pod' := ensureTolerationInPod pod [t] in
  t ∈ pod_Tolerations pod' ∧ ensureTolerationInPod pod' [t] = pod' ∧
  (pod' = pod ∨ pod' = pod_set_Tolerations (pod_Tolerations pod ++ [t]) pod).
Proof.
  assert (∀ a b, tolerationMatch a b = true ↔ a = b) as Hm.
  { intros [] []. unfold tolerationMatch. cbn. rewrite !andb_true_iff, !bool_decide_eq_true. naive_solver. }
  assert (∀ l, existsb (λ x, tolerationMatch x t) l = true ↔ t ∈ l) as He.
  { intros l. rewrite existsb_exists. setoid_rewrite Hm. setoid_rewrite <-list_elem_of_In. naive_solver. }
  unfold ensureTolerationInPod. cbn [foldl]. destruct (existsb _ (pod_Tolerations pod)) eqn:E; cbn [negb].
  - rewrite E. split; [by apply He|]. split; [done|by left].
  - assert (t ∈ pod_Tolerations pod ++ [t]) as Hin by (apply elem_of_app; right; by left).
    split; [exact Hin|]. split; [|by right]. cbn [pod_set_Tolerations pod_Tolerations]. by rewrite (proj2 (He _) Hin).
Qed.
