(* ===== verification/PodController.v ===== *)
(** * The pod controller (pkg/controllers/networking/pod_controller.go)

    [PodReconciler] keeps no state of its own: it acts on the API server
    through its client and on the allocator.  A step of the controller is a
    transition of both.  Events and metrics are left out; the random bytes of
    a new MAC address are an argument. *)

From Stdlib Require Import Ascii.
From S2P Require Import Prelude GoNet GoStrings CNIPlugins NetworkingV1 Kubernetes Config Utils IPAMTypes IPAMNetwork Allocator Transform Names GoJSON KubeClient Store ClientUtils Admission.
Local Open Scope Z_scope.

Definition OverlayNodeName : string := "c3e6699d28e7".

(** [wrapError]: nil stays nil. *)
Definition wrapError {S A} (wrapMessage : string) (m : M S A) : M S A := wrap (Wrapf "%s: %v" [wrapMessage]) m.

(** Neither dereferences a nil [ip] (the caller does), but its address. *)
Definition squashIPSliceToIPs (ips : list IP) : outcome (list string) := mapM candidate_text ips.
Definition squashIPSliceToSubnets (ips : list IP) : list string := map ip_Subnet ips.

Section controller.
Context `{ApiMachinery} `{Settings} `{CNIPlugins} `{Client}.

Record Cluster := mkCluster { cl_world : World; cl_ipam : NetworkSet }.

Definition on_world {A} (m : M World A) : M Cluster A :=
  zoom (λ c, Some (cl_world c)) (λ w c, mkCluster w (cl_ipam c)) m.
Definition on_ipam {A} (m : M NetworkSet A) : M Cluster A :=
  zoom (λ c, Some (cl_ipam c)) (λ ns c, mkCluster (cl_world c) ns) m.

(** A read through the client. *)
Definition reading {A} (f : Reader → outcome A) : M Cluster A := c ← get; lift (f (reader (cl_world c))).

Definition decouple (pod : Pod) : M Cluster unit :=
  wrap (Wrapf "unable to decouple ips for pod %s: %v" [pod_Namespace pod; pod_Name pod])
    (on_world (if DualStackEnabled then DualStackWorker_DeCouple pod else Worker_DeCouple pod)).

Definition reserve (pod : Pod) : M Cluster unit :=
  wrap (Wrapf "unable to reserve ips for pod: %v" [])
    (on_world (if DualStackEnabled then DualStackWorker_IPReserve pod else Worker_IPReserve pod)).

(** Both allocators match in the same way. *)
Definition matchNetworkTypeInManager (ns : NetworkSet) (networkName networkType : string) : bool :=
  (DualStackEnabled && MatchNetworkType ns networkName networkType) ||
  (negb DualStackEnabled && MatchNetworkType ns networkName networkType).

(** The part of [selectNetwork] common to both types: the network that the
    indexer has for the node, or the one [find] returns. *)
Definition network_on (nodeName : string) (networkType : string) (listError : error → error)
    (findError noneError : error) (find : Reader → outcome string) : M Cluster string :=
  networkList ← wrap listError (reading (λ r, r_ListNetworksByNode r nodeName));
  match networkList with
  | network :: _ => mret (om_Name (vn_Meta network))
  | [] =>
      name ← wrap (λ _, findError) (reading find);
      if negb (nonempty name) then fail noneError
      else
        c ← get;
        if negb (matchNetworkTypeInManager (cl_ipam c) name networkType)
        then fail (Errorf "network %s does not match type %q in manager" [name; networkType])
        else mret name
  end.

Definition specified_network (m : ObjectMeta) : string :=
  PickFirstNonEmptyString [annotation m AnnotationSpecifiedNetwork; label m LabelSpecifiedNetwork].

Definition selectNetwork (pod : Pod) : M Cluster string :=
  let m := pod_Meta pod in
  let node := pod_NodeName pod in
  if nonempty (specified_network m) then mret (specified_network m)
  else
    let networkType := ParseNetworkTypeFromString
      (PickFirstNonEmptyString [annotation m AnnotationNetworkType; label m LabelNetworkType]) in
    if decide (networkType = Underlay) then
      network_on node Underlay (Wrapf "unable to list underlay network by indexer node: %v" [])
        (Errorf "unable to find underlay network for node %s" [node])
        (Errorf "no underlay network match node %s" [node])
        (λ r, FindUnderlayNetworkForNodeName r node)
    else if decide (networkType = Overlay) then
      network_on OverlayNodeName Overlay (Wrapf "unable to list overlay network by indexer node: %v" [])
        (Errorf "unable to find overlay network" [])
        (Errorf "no overlay network found" [])
        FindOverlayNetwork
    else fail (Errorf "unknown network type %s from pod" [networkType]).

(** The finalizer is patched on a copy taken before; the pod is then what the
    server returns. *)
Definition addFinalizer (pod : Pod) : M Cluster Pod :=
  if ContainsFinalizer (pod_Meta pod) FinalizerIPAllocated then mret pod
  else on_world (RetryOnConflict
         (StrategicPatch_Pod (pod_Meta pod) (pod_set_Meta (AddFinalizer (pod_Meta pod) FinalizerIPAllocated) pod))).

Definition removeFinalizer (pod : Pod) : M Cluster unit :=
  if negb (ContainsFinalizer (pod_Meta pod) FinalizerIPAllocated) then mret tt
  else
    on_world (RetryOnConflict
      (StrategicPatch_Pod (pod_Meta pod) (pod_set_Meta (RemoveFinalizer (pod_Meta pod) FinalizerIPAllocated) pod)));;
    mret tt.

Definition release (pod : Pod) (allocatedIPs : list IP) : M Cluster unit :=
  each (λ ip, wrap (Wrapf "unable to recycle ip %v: %v" [])
                (on_world (if DualStackEnabled then DualStackWorker_IPRecycle (pod_Namespace pod) ip
                           else Worker_IPRecycle (pod_Namespace pod) ip))) allocatedIPs.

(** The deferred releases. *)
Definition release_ips (family networkName : string) (ips : list IP) : M Cluster unit :=
  texts ← lift (squashIPSliceToIPs ips);
  on_ipam (DualStack_Release family networkName (squashIPSliceToSubnets ips) texts).

Definition release_ip (ip : IP) : M Cluster unit :=
  text ← lift (candidate_text ip);
  on_ipam (Allocator_Release (ip_Network ip) (ip_Subnet ip) text).

Definition specified_subnet (m : ObjectMeta) : string :=
  PickFirstNonEmptyString [annotation m AnnotationSpecifiedSubnet; label m LabelSpecifiedSubnet].

Definition pod_family (pod : Pod) : string := ParseIPFamilyFromString (annotation (pod_Meta pod) AnnotationIPFamily).

Definition allocate (pod : Pod) (networkName : string) (rand : list Z) : M Cluster unit :=
  let subnetNameStr := specified_subnet (pod_Meta pod) in
  if DualStackEnabled then
    let subnetNames := if nonempty subnetNameStr then Split subnetNameStr "/"%char else [] in
    ips ← wrap (Wrapf "unable to allocate %s ip: %v" [pod_family pod])
            (on_ipam (DualStack_Allocate (pod_family pod) networkName subnetNames (pod_Name pod) (pod_Namespace pod)));
    on_error (release_ips (pod_family pod) networkName ips)
      (wrap (Wrapf "unable to couple IPs with pod: %v" []) (on_world (DualStackWorker_Couple pod ips rand)))
  else
    ip ← wrap (Wrapf "unable to allocate ip: %v" [])
           (on_ipam (Allocator_Allocate networkName subnetNameStr (pod_Name pod) (pod_Namespace pod)));
    on_error (release_ip ip)
      (wrap (Wrapf "unable to couple ip with pod: %v" []) (on_world (Worker_Couple pod ip rand))).

Definition assign (pod : Pod) (networkName ipCandidate : string) (forced : bool) (rand : list Z) : M Cluster unit :=
  ip ← on_ipam (Allocator_Assign networkName "" (pod_Name pod) (pod_Namespace pod) ipCandidate forced);
  ip ← lift (deref ip);
  on_error (release_ip ip)
    (wrap (Wrapf "unable to force-couple ip with pod: %v" []) (on_world (Worker_ReCouple pod ip rand))).

Definition multiAssign (pod : Pod) (networkName ipFamily : string) (ipCandidates : list string) (forced : bool)
    (rand : list Z) : M Cluster unit :=
  IPs ← on_ipam (DualStack_Assign ipFamily networkName [] ipCandidates (pod_Name pod) (pod_Namespace pod) forced);
  IPs ← lift (mapM deref IPs);
  on_error (release_ips ipFamily networkName IPs)
    (wrap (Wrapf "fail to force-couple ips %+v with pod: %v" []) (on_world (DualStackWorker_ReCouple pod IPs rand))).

(** The release of what the pod has before a new allocation. *)
Definition reallocate (pod : Pod) (networkName : string) (rand : list Z) : M Cluster unit :=
  allocatedIPs ← reading (λ r, ListAllocatedIPInstancesOfPod r pod);
  (match allocatedIPs with
   | [] => mret tt
   | _ => ips ← lift (TransferIPInstancesForIPAM allocatedIPs);
          wrapError "unable to release before reallocate" (release pod ips)
   end);;
  wrapError "unable to reallocate" (allocate pod networkName rand).

(** The element of the IP pool at the index in the name of the pod; nothing
    past the end of the pool. *)
Definition pool_element (pod : Pod) : outcome (option string) :=
  let ipPool := Split (annotation (pod_Meta pod) AnnotationIPPool) ","%char in
  idx ← GetIndexFromName (pod_Name pod);
  if idx <? Z.of_nat (length ipPool) then element ← index ipPool idx; Ret (Some element) else Ret None.

Definition no_ip_in_pool {A} (pod : Pod) : M Cluster A :=
  fail (Errorf "no available ip in ip-pool %s" [annotation (pod_Meta pod) AnnotationIPPool]).

(** The two settings are read from the pod before the finalizer is added. *)
Definition statefulAllocate (pod : Pod) (networkName : string) (rand : list Z) : M Cluster unit :=
  let preAssign := nonempty (annotation (pod_Meta pod) AnnotationIPPool) in
  let shouldReallocate := negb (ParseBoolOrDefault (annotation (pod_Meta pod) AnnotationIPRetain) DefaultIPRetain) in
  pod ← wrapError "unable to add finalizer for stateful pod" (addFinalizer pod);
  if DualStackEnabled then
    if preAssign then
      element ← lift (pool_element pod);
      match element with
      | Some element =>
          wrapError "unable to multi-assign"
            (multiAssign pod networkName (pod_family pod) (map NormalizedIP (Split element "/"%char)) true rand)
      | None => no_ip_in_pool pod
      end
    else if shouldReallocate then reallocate pod networkName rand
    else
      ipCandidates ← reading (λ r, ListIPsOfPod r pod);
      match ipCandidates with
      | [] => wrapError "unable to allocate" (allocate pod networkName rand)
      | _ => wrapError "unable to multi-assign" (multiAssign pod networkName (pod_family pod) ipCandidates true rand)
      end
  else
    if preAssign then
      element ← lift (pool_element pod);
      let ipCandidate := match element with Some element => NormalizedIP element | None => "" end in
      if negb (nonempty ipCandidate) then no_ip_in_pool pod
      else wrapError "unable to assign" (assign pod networkName ipCandidate true rand)
    else if shouldReallocate then reallocate pod networkName rand
    else
      ipCandidate ← reading (λ r, GetIPOfPod r pod);
      if negb (nonempty ipCandidate) then wrapError "unable to allocate" (allocate pod networkName rand)
      else wrapError "unable to assign" (assign pod networkName ipCandidate true rand).

(** What [Reconcile] does with a pod that exists. *)
Definition reconcile_pod (pod : Pod) (rand : list Z) : M Cluster unit :=
  let m := pod_Meta pod in
  if decide (om_DeletionTimestamp m ≠ None) then
    if OwnByStatefulWorkload pod then
      wrapError "unable to reserve pod" (reserve pod);;
      wrapError "unable to remote finalizer" (removeFinalizer pod)
    else mret tt
  else if PodIsEvicted pod || PodIsCompleted pod then wrapError "unable to decouple pod" (decouple pod)
  else if HasAnnotation m AnnotationIP then mret tt
  else
    networkName ← wrap (Wrapf "unable to select network: %v" []) (selectNetwork pod);
    if OwnByStatefulWorkload pod
    then wrapError "unable to stateful allocate" (statefulAllocate pod networkName rand)
    else wrapError "unable to allocate" (allocate pod networkName rand).

Definition Pod_Reconcile (namespace name : string) (rand : list Z) : M Cluster unit :=
  c ← get;
  match r_GetPod (APIReader (cl_world c)) namespace name with
  | Ret pod => reconcile_pod pod rand
  | Fail err => if IsNotFound err then mret tt else fail (Wrapf "unable to fetch Pod: %v" [] err)
  | Panic => panic
  | Diverge => lift Diverge
  end.

(** The predicate of [SetupWithManager]: the pods that are reconciled. *)
Definition pod_predicate (pod : Pod) : bool :=
  if pod_HostNetwork pod then false
  else if decide (om_DeletionTimestamp (pod_Meta pod) = None)
  then nonempty (pod_NodeName pod) && negb (HasAnnotation (pod_Meta pod) AnnotationIP)
  else OwnByStatefulWorkload pod.
End controller.
