(* ===== verification/PodAllocation.v ===== *)
(** * Allocation for a pod: the allocator and the server together

    [PodReconciler.allocate] takes addresses from the allocator and couples
    them with the pod on the server; when the second step fails, the first is
    undone.  A grant is one address given by the allocator.  The first part
    is about the allocator alone: allocations are grants, and releasing the
    grants restores what was in use.  The second part composes this with the
    properties of the store. *)

From S2P Require Import Prelude GoNet GoStrings NetBlock NetText CNIPlugins NetworkingV1 MulticlusterV1 Kubernetes Config Utils IPAMTypes IPAMSubnet IPAMSync IPAMCanonical IPAMPool IPAMSubnetProperties IPAMNetwork IPAMNetworkProperties Allocator AllocatorInvariant AllocatorProperties Transform Names GoJSON KubeClient Store StoreProperties ClientUtils Admission PodController.

(** ** Grants *)

Record grant := mkGrant { g_index : nat; g_subnet : Subnet; g_text : string }.

Section grants.
Context {P : CNIPlugins} {L : CNIPluginsLaws P}.
Context (pod pns : string).

Definition grant_ip (g : grant) : IP := Subnet_newIP (g_subnet g) (g_text g) pod pns IPStatusUsing.

(** The addresses in use once the grants of the network [name] are made. *)
Fixpoint used_after (name : string) (ns : NetworkSet) (gs : list grant) (name' : string) (i : nat) : option IPSet :=
  match gs with
  | [] => sn_UsingIPs <$> subnet_in ns name' i
  | g :: gs =>
      if decide (name' = name ∧ i = g_index g)
      then Some (<[g_text g := grant_ip g]> (sn_UsingIPs (g_subnet g)))
      else used_after name ns gs name' i
  end.

(** The families of the addresses that a mode gives, IPv6 being true. *)
Definition mode_families (mode : string) : list bool :=
  if decide (mode = DualStack) then [false; true] else [bool_decide (mode = IPv6Only)].

Definition supported (mode : string) : Prop := mode = IPv4Only ∨ mode = IPv6Only ∨ mode = DualStack.

Record granted (mode name : string) (ns : NetworkSet) (gs : list grant) (ns' : NetworkSet) : Prop := {
  gr_mode : supported mode;
  gr_families : map (λ g, Subnet_IsIPv6 (g_subnet g)) gs = mode_families mode;
  gr_subnet g : g ∈ gs → subnet_in ns name (g_index g) = Some (g_subnet g) ∧ g_text g ∈ free (g_subnet g);
  gr_distinct : NoDup (g_index <$> gs);
  gr_used name' i : sn_UsingIPs <$> subnet_in ns' name' i = used_after name ns gs name' i
}.

Lemma DualStack_Allocate_cases mode name subnets ns :
  set_wf ns →
  let '(o, ns') := DualStack_Allocate mode name subnets pod pns ns in
  (∃ gs, o = Ret (map grant_ip gs) ∧ granted mode name ns gs ns') ∨ (∃ e, o = Fail e ∧ used_same ns ns').
Proof.
  intros Hns. destruct (decide (supported mode)) as [Hm|Hm].
  2:{ unfold DualStack_Allocate, supported in *. rewrite !decide_False by tauto.
      unfold unsupported, fail. right. eexists. split; [done|apply used_same_refl]. }
  assert ((∃ v6 : bool, bool_decide (mode = IPv6Only) = v6 ∧ mode ≠ DualStack ∧
    DualStack_Allocate mode name subnets pod pns = allocateFamily v6 name subnets pod pns) ∨
    (mode = DualStack ∧ DualStack_Allocate mode name subnets pod pns = allocateDualStack name subnets pod pns)) as Hcase.
  { unfold DualStack_Allocate. destruct Hm as [->|[->| ->]]; [left; exists false|left; exists true|right]; done. }
  destruct (ns !! name) as [n|] eqn:E.
  2:{ assert (find_network name ns = (Fail ErrNotFoundNetwork, ns)) as Ef.
      { unfold find_network, GetNetwork. m_run. by rewrite E. }
      assert (DualStack_Allocate mode name subnets pod pns ns = (Fail ErrNotFoundNetwork, ns)) as ->.
      { destruct Hcase as [([|] & _ & _ & ->)|[_ ->]]; by apply bind_Fail. }
      right. eexists. split; [done|apply used_same_refl]. }
  destruct Hcase as [(v6 & Hv & Hne & ->)|[-> ->]].
  - pose proof (allocateFamily_cases v6 name subnets pod pns ns n Hns E) as H.
    destruct (allocateFamily v6 name subnets pod pns ns) as [o ns'].
    destruct H as [(i & sn & x & Hi & F & Hx & -> & Hu)|H]; [left|by right].
    exists [mkGrant i sn x]. split; [done|]. split; [done| | |by apply NoDup_singleton|done].
    + unfold mode_families. rewrite decide_False, Hv by done. cbn. by rewrite F.
    + intros g ->%list_elem_of_singleton. done.
  - pose proof (allocateDualStack_cases name subnets pod pns ns n Hns E) as H.
    destruct (allocateDualStack name subnets pod pns ns) as [o ns'].
    destruct H as [(i4 & i6 & sn4 & sn6 & x4 & x6 & H4 & H6 & F4 & F6 & _ & Hx4 & Hx6 & -> & Hu)|H]; [left|by right].
    exists [mkGrant i4 sn4 x4; mkGrant i6 sn6 x6]. split; [done|]. split; [by right; right| | | |done].
    + cbn. by rewrite F4, F6.
    + intros g [->| ->%list_elem_of_singleton]%elem_of_cons; done.
    + cbn. apply NoDup_cons. split; [|apply NoDup_singleton]. intros ->%list_elem_of_singleton. congruence.
Qed.

(** ** Taking grants back *)

(** The text of an allocated address. *)
Lemma grant_text g : subnet_ok (g_subnet g) → g_text g ∈ free (g_subnet g) → candidate_text (grant_ip g) = Ret (g_text g).
Proof.
  intros Hok [Hx _]%free_elem_of. apply (ok_avail _ Hok) in Hx as ([_ E] & _). unfold candidate_text. cbn. by rewrite E.
Qed.

Lemma grant_texts gs :
  (∀ g, g ∈ gs → subnet_ok (g_subnet g) ∧ g_text g ∈ free (g_subnet g)) →
  mapM candidate_text (map grant_ip gs) = Ret (map g_text gs).
Proof.
  induction gs as [|g gs IH]; intros H; [done|]. cbn [map mapM].
  destruct (H g ltac:(left)) as [? ?]. rewrite grant_text by done. cbn. rewrite IH; [done|]. intros ??. apply H. by right.
Qed.

Definition holds (g : grant) (n : Network) : Prop :=
  ∃ s1, ss_Subnets (nw_Subnets n) !! g_index g = Some s1 ∧ sub_rel true (g_subnet g) s1 ∧
        sn_UsingIPs s1 = <[g_text g := grant_ip g]> (sn_UsingIPs (g_subnet g)).

Definition undoable (n : Network) (g : grant) : Prop :=
  subnet_ok (g_subnet g) ∧ g_text g ∈ free (g_subnet g) ∧ nonempty (sn_Name (g_subnet g)) = true ∧ holds g n.

(** The release of one address through the name of its subnet. *)
Definition release_at (g : grant) : M Network unit :=
  subnet ← errf "fail to get subnet %s: %v" [sn_Name (g_subnet g)] (Network_GetSubnet (sn_Name (g_subnet g)));
  on_subnet subnet (Subnet_Release (g_text g)).

Lemma release_at_run g n :
  net_wf n → undoable n g →
  ∃ s2, release_at g n = (Ret tt, set_subnet (g_index g) s2 n) ∧ sn_UsingIPs s2 = sn_UsingIPs (g_subnet g) ∧
    net_wf (set_subnet (g_index g) s2 n).
Proof.
  intros Hn (Hok & Hfree & Hname & s1 & Hs1 & Hr & HU).
  destruct (Subnet_Release (g_text g) s1) as [o s2] eqn:ER.
  assert (o = Ret tt) as -> by (unfold Subnet_Release, modify in ER; by simplify_eq).
  destruct (Release_undo _ _ _ _ _ Hok Hfree Hr HU ER) as [_ HU2].
  exists s2. split; [|split; [done|]].
  - assert (Network_GetSubnet (sn_Name (g_subnet g)) n = (Ret (g_index g), n)) as Eg.
    { unfold Network_GetSubnet. rewrite Hname. m_run. rewrite GetSubnet_spec by done.
      assert (ss_SubnetIndexMap (nw_Subnets n) !! sn_Name (g_subnet g) = Some (g_index g)) as ->; [|done].
      apply (wf_map _ Hn). exists s1. split; [done|]. by apply (sub_rel_name _ _ _ Hr). }
    unfold release_at, errf. rewrite (bind_Ret _ _ _ _ _ (wrap_Ret _ _ _ _ _ Eg)). by apply on_subnet_run with s1.
  - eapply (frame_wf net_wf (net_rel false)); [exact Hn|]. eapply net_rel_set_subnet; [done..|].
    pose proof (frame_wf subnet_ok (sub_rel true) _ _ Hok Hr) as Hok1.
    pose proof (acts_Release (g_text g) s1 Hok1) as Ha. by rewrite ER in Ha.
Qed.

Lemma release_each_at g gs n :
  release_each (zip (map (λ g, sn_Name (g_subnet g)) (g :: gs)) (map g_text (g :: gs))) n =
  (release_at g;; release_each (zip (map (λ g, sn_Name (g_subnet g)) gs) (map g_text gs))) n.
Proof.
  cbn [map zip zip_with release_each]. unfold release_at, mbind, M_bind. by destruct (errf _ _ _ n) as [[]].
Qed.

Lemma release_each_run gs n :
  net_wf n → (∀ g, g ∈ gs → undoable n g) → NoDup (g_index <$> gs) →
  ∃ n2, release_each (zip (map (λ g, sn_Name (g_subnet g)) gs) (map g_text gs)) n = (Ret tt, n2) ∧
    (∀ g, g ∈ gs → sn_UsingIPs <$> ss_Subnets (nw_Subnets n2) !! g_index g = Some (sn_UsingIPs (g_subnet g))) ∧
    ∀ i, i ∉ g_index <$> gs → ss_Subnets (nw_Subnets n2) !! i = ss_Subnets (nw_Subnets n) !! i.
Proof.
  revert n. induction gs as [|g gs IH]; intros n Hn Hg Hnd.
  - exists n. split; [done|]. split; [by intros g ?%elem_of_nil|done].
  - cbn [fmap list_fmap] in *. apply NoDup_cons in Hnd as [Hni Hnd].
    pose proof (Hg g ltac:(left)) as Hu.
    destruct (release_at_run g n Hn Hu) as (s2 & E & HU & Hn').
    rewrite release_each_at, (bind_Ret _ _ _ _ _ E).
    destruct (IH (set_subnet (g_index g) s2 n)) as (n2 & E2 & H2 & H3); [done| |done|].
    + intros g' Hg'. destruct (Hg g' ltac:(by right)) as (H1 & H2 & H3 & s1 & Hs1 & H4).
      split_and!; [done..|]. exists s1. split; [|done]. rewrite set_subnet_ne; [done|].
      intros Ei. apply Hni. rewrite Ei. by apply list_elem_of_fmap_2.
    + exists n2. split; [done|]. split.
      * intros g' [->|Hg']%elem_of_cons; [|by apply H2]. rewrite H3 by done.
        destruct Hu as (_ & _ & _ & s1 & Hs1 & _). rewrite set_subnet_eq by done. cbn. by rewrite HU.
      * intros i [Hi1 Hi2]%not_elem_of_cons. rewrite H3 by done. by rewrite set_subnet_ne.
Qed.

Lemma used_after_out name ns gs name' i :
  ¬ (name' = name ∧ i ∈ g_index <$> gs) → used_after name ns gs name' i = sn_UsingIPs <$> subnet_in ns name' i.
Proof.
  induction gs as [|g gs IH]; intros H; [done|]. cbn [used_after]. cbn [fmap list_fmap] in H. rewrite elem_of_cons in H.
  rewrite decide_False by naive_solver. apply IH. naive_solver.
Qed.

Lemma used_after_in name ns gs g :
  NoDup (g_index <$> gs) → g ∈ gs →
  used_after name ns gs name (g_index g) = Some (<[g_text g := grant_ip g]> (sn_UsingIPs (g_subnet g))).
Proof.
  induction gs as [|g' gs IH]; intros Hnd Hg; [by apply elem_of_nil in Hg|]. cbn [used_after].
  cbn [fmap list_fmap] in Hnd. apply NoDup_cons in Hnd as [Hni Hnd].
  apply elem_of_cons in Hg as [->|Hg]; [by rewrite decide_True|].
  rewrite decide_False; [by apply IH|]. intros [_ Ei]. apply Hni. rewrite <-Ei. by apply list_elem_of_fmap_2.
Qed.

(** Releasing the grants restores what was in use. *)
Lemma Release_granted mode name ns gs ns1 :
  set_wf ns → set_rel true ns ns1 → granted mode name ns gs ns1 →
  (∀ g, g ∈ gs → nonempty (sn_Name (g_subnet g)) = true) →
  ∃ ns2, DualStack_Release mode name (map (λ g, sn_Name (g_subnet g)) gs) (map g_text gs) ns1 = (Ret tt, ns2) ∧
    used_same ns ns2.
Proof.
  intros Hns Hrel [Hm Hf Hg Hnd Hu] Hname.
  assert (∃ g gs', gs = g :: gs') as (g0 & gs' & Egs).
  { destruct gs as [|g gs']; [|by eexists _, _]. unfold mode_families in Hf. by case_decide. }
  destruct (Hg g0 ltac:(subst; left)) as [H0 _]. unfold subnet_in in H0.
  destruct (ns !! name) as [n|] eqn:En; [|done]. clear H0.
  destruct (set_rel_lookup _ _ _ _ _ Hrel En) as (n1 & En1 & Hnr).
  pose proof (frame_wf set_wf (set_rel true) _ _ Hns Hrel name n1 En1) as Hn1.
  assert (∀ g, g ∈ gs → undoable n1 g) as Hund.
  { intros g Hgg. destruct (Hg g Hgg) as [Hi Hfree]. pose proof Hi as Hi0. unfold subnet_in in Hi0. rewrite En in Hi0. cbn in Hi0.
    split; [by apply (Forall_lookup_1 _ _ _ _ (wf_subnets _ (Hns name n En)) Hi0)|]. split; [done|]. split; [by apply Hname|].
    destruct (set_rel_subnet _ _ _ _ _ _ Hrel Hi) as (s1 & Hs1 & Hr). exists s1.
    pose proof (Hu name (g_index g)) as Hug. rewrite used_after_in, Hs1 in Hug by done. cbn in Hug.
    unfold subnet_in in Hs1. rewrite En1 in Hs1. split; [done|]. split; [done|congruence]. }
  destruct (release_each_run gs n1 Hn1 Hund Hnd) as (n2 & E & H2 & H3).
  exists (<[name := n2]> ns1). split.
  - assert (length gs = 1%nat ∧ (mode = IPv4Only ∨ mode = IPv6Only) ∨ mode = DualStack) as [[Hl Hm1]| ->].
    { apply (f_equal length) in Hf. rewrite length_map in Hf. unfold mode_families in Hf.
      destruct Hm as [->|[->| ->]]; auto. }
    + unfold DualStack_Release, releaseIP, errf. rewrite decide_True by done.
      rewrite (bind_Ret _ _ _ _ _ (wrap_Ret _ _ _ _ _ (find_network_run _ _ _ En1))).
      destruct gs as [|g [|]]; try done. cbn [map]. apply on_network_run with n1; [done|].
      rewrite release_each_at in E. change (release_at g n1 = (Ret tt, n2)).
      unfold mbind, M_bind in E. destruct (release_at g n1) as [[[]| | |] m]; by simplify_eq/=.
    + unfold DualStack_Release, releaseIPs, errf. rewrite decide_False by (by intros [?|?]). rewrite decide_True by done.
      rewrite (bind_Ret _ _ _ _ _ (wrap_Ret _ _ _ _ _ (find_network_run _ _ _ En1))).
      rewrite bool_decide_eq_true_2 by (by rewrite !length_map). by apply on_network_run with n1.
  - intros name' i. rewrite subnet_in_insert. destruct (decide (name = name')) as [<-|Hne].
    + destruct (decide (i ∈ g_index <$> gs)) as [(g & -> & Hgg)%list_elem_of_fmap|Hi].
      * rewrite H2 by done. by rewrite (proj1 (Hg g Hgg)).
      * rewrite H3 by done. pose proof (Hu name i) as Hui. rewrite used_after_out in Hui by naive_solver.
        rewrite <-Hui. unfold subnet_in. by rewrite En1.
    + by rewrite Hu, used_after_out by naive_solver.
Qed.
End grants.

(** ** The steps of the controller *)

Section rules.
Context `{ApiMachinery} `{Settings} `{CNIPlugins} `{Client}.

Lemma post_on_world {A} (m : M World A) c Q :
  post m (cl_world c) (λ o w, Q o (mkCluster w (cl_ipam c))) → post (on_world m) c Q.
Proof. unfold post, on_world, zoom. by destruct (m (cl_world c)). Qed.

Lemma post_on_ipam {A} (m : M NetworkSet A) c Q :
  post m (cl_ipam c) (λ o ns, Q o (mkCluster (cl_world c) ns)) → post (on_ipam m) c Q.
Proof. unfold post, on_ipam, zoom. by destruct (m (cl_ipam c)). Qed.
End rules.

(** ** Coupling what was granted *)

(** What an instance needs of a subnet, and what [AddSubnet] sets up: a
    name, a net ID, and the flag of the family. *)
Definition coupling_ok (sn : Subnet) : Prop :=
  nonempty (sn_Name sn) = true ∧ is_Some (sn_NetID sn) ∧ sn_IPv6 sn = negb (is_v4 (sn_Start sn)).

#[export] Instance coupling_ok_dec sn : Decision (coupling_ok sn).
Proof. unfold coupling_ok. apply _. Defined.

Section coupling.
Context {CN : CNIPlugins} {CL : CNIPluginsLaws CN}.

Lemma grant_address pod pns g :
  subnet_ok (g_subnet g) → coupling_ok (g_subnet g) → g_text g ∈ free (g_subnet g) →
  ∃ a, ip_Address (grant_ip pod pns g) = Some a ∧ valid_ip (IPNet_IP a) ∧
    is_v4 (IPNet_IP a) = negb (Subnet_IsIPv6 (g_subnet g)).
Proof.
  intros Hok (_ & _ & Hf) [Hx _]%free_elem_of. apply (ok_avail _ Hok) in Hx as ([Hv _] & Hc & _).
  eexists. split; [done|]. split; [done|]. cbn [IPNet_IP]. unfold Subnet_IsIPv6. rewrite Hf, negb_involutive.
  destruct (ok_canonicalized _ Hok) as (_ & (Hs & _) & HC & _).
  apply (Contains_same_family (sn_cidr (g_subnet g))); [done..| |done].
  unfold Subnet_Contains in Hc. by destruct (IPNet_Contains _ _).
Qed.

Lemma grant_ready pod pns g :
  subnet_ok (g_subnet g) → coupling_ok (g_subnet g) → g_text g ∈ free (g_subnet g) → ready (grant_ip pod pns g).
Proof.
  intros Hok Hc Hx. destruct (grant_address pod pns g Hok Hc Hx) as (a & Ha & _). split; [by eexists|]. apply Hc.
Qed.

Lemma grants_names pod gs mode :
  map (λ g, Subnet_IsIPv6 (g_subnet g)) gs = mode_families mode →
  (∀ g, g ∈ gs → subnet_ok (g_subnet g) ∧ coupling_ok (g_subnet g) ∧ g_text g ∈ free (g_subnet g)) →
  NoDup (ip_key_of pod <$> map (grant_ip (pod_Name pod) (pod_Namespace pod)) gs).
Proof.
  unfold mode_families. intros Hf Hg. destruct (decide (mode = DualStack)).
  - destruct gs as [|g4 [|g6 [|]]]; try done. injection Hf as F4 F6. cbn. apply NoDup_cons. split; [|apply NoDup_singleton].
    intros E%list_elem_of_singleton. injection E as E.
    destruct (Hg g4 ltac:(left)) as (Ho4 & Hc4 & Hx4). destruct (Hg g6 ltac:(right; left)) as (Ho6 & Hc6 & Hx6).
    set (P := pod_Name pod) in *. set (N := pod_Namespace pod) in *.
    pose proof (ready_name _ (grant_ready P N g4 Ho4 Hc4 Hx4)) as N4.
    pose proof (ready_name _ (grant_ready P N g6 Ho6 Hc6 Hx6)) as N6.
    destruct (grant_address P N g4 Ho4 Hc4 Hx4) as (a & Ha & Hv & V4). rewrite F4 in V4.
    destruct (grant_address P N g6 Ho6 Hc6 Hx6) as (a' & Ha' & Hv' & V6). rewrite F6 in V6.
    apply (name_families _ _ a a' _ Ha Hv (bool_decide_eq_true_1 _ V4) Ha' Hv'
      (dec_stable (bool_decide_eq_false_1 _ V6)) N4). rewrite N6. by f_equal.
  - destruct gs as [|g [|]]; try done. apply NoDup_singleton.
Qed.

End coupling.

Section allocate.
Context {A : ApiMachinery} {S : Settings} {P : CNIPlugins} {C : Client} {L : ClientLaws}.

Definition pod_grant (pod : Pod) : grant → IP := grant_ip (pod_Name pod) (pod_Namespace pod).

(** The subnets of a set of networks. *)
Definition every_subnet (ns : NetworkSet) (Φ : Subnet → Prop) : Prop :=
  ∀ name i sn, subnet_in ns name i = Some sn → Φ sn.

Lemma set_wf_subnet ns : set_wf ns → every_subnet ns subnet_ok.
Proof.
  intros Hns name i sn Hsn. unfold subnet_in in Hsn. destruct (ns !! name) as [n|] eqn:E; [|done].
  exact (Forall_lookup_1 _ _ _ _ (wf_subnets _ (Hns name n E)) Hsn).
Qed.

Lemma post_allocate pod networkName rand c :
  set_wf (cl_ipam c) → every_subnet (cl_ipam c) coupling_ok → DualStackEnabled = true →
  post (allocate pod networkName rand) c (λ o c', match o with
    | Ret _ => ∃ gs,
        granted (pod_Name pod) (pod_Namespace pod) (pod_family pod) networkName (cl_ipam c) gs (cl_ipam c') ∧
        (∀ g, g ∈ gs → ips (cl_world c) !! ip_key_of pod (pod_grant pod g) = None ∧
           ∃ i0, build_instance pod (pod_grant pod g) (mac_text rand) = Ret i0 ∧
                 coupled pod i0 (ips (cl_world c') !! ip_key_of pod (pod_grant pod g))) ∧
        ips_only (ip_key_of pod <$> map (pod_grant pod) gs) (cl_world c) (cl_world c') ∧
        ∃ w1, pods w1 = pods (cl_world c) ∧ annotated pod (marshalIPs (map (pod_grant pod) gs)) w1 (cl_world c')
    | Fail _ => used_same (cl_ipam c) (cl_ipam c') ∧ cleaned (cl_world c) (cl_world c')
    | _ => False
    end).
Proof.
  intros Hns Hco HDS. unfold allocate. rewrite HDS.
  apply post_bind, post_wrap, post_on_ipam. unfold post at 1.
  set (subnets := if nonempty _ then _ else _). clearbody subnets.
  pose proof (DualStack_Allocate_cases (pod_Name pod) (pod_Namespace pod) (pod_family pod) networkName subnets _ Hns) as Hcase.
  pose proof (acts_DualStack_Allocate (pod_family pod) networkName subnets (pod_Name pod) (pod_Namespace pod) _ Hns) as Hrel.
  destruct (DualStack_Allocate _ networkName subnets _ _ (cl_ipam c)) as [o ns1]. cbn [fst snd] in *.
  destruct Hcase as [(gs & -> & Hgr)|(e & -> & Hu)]; [|split; [done|split; [done|exists [], (cl_world c); split; [done|intros k Hk; left; cbn; by rewrite Hk]]]].
  assert (∀ g, g ∈ gs → subnet_ok (g_subnet g) ∧ coupling_ok (g_subnet g) ∧ g_text g ∈ free (g_subnet g)) as Hg.
  { intros g Hg. destruct (gr_subnet _ _ _ _ _ _ _ Hgr g Hg) as [Hi Hx].
    split; [by apply (set_wf_subnet _ Hns) in Hi|]. split; [by apply Hco in Hi|done]. }
  apply post_on_error, post_wrap, post_on_world. cbn [cl_world cl_ipam].
  destruct (ready_build_all pod (map (pod_grant pod) gs) (mac_text rand)) as (insts & HF & Hk).
  { apply Forall_forall. intros ip (g & -> & Hgg)%list_elem_of_fmap. destruct (Hg g Hgg) as (? & ? & ?). by apply grant_ready. }
  pose proof (grants_names pod gs _ (gr_families _ _ _ _ _ _ _ Hgr) Hg) as Hnd. fold (pod_grant pod) in Hnd. rewrite <-Hk in Hnd.
  eapply post_mono; [by apply (post_Couple pod _ rand _ insts)|]. intros o w' Ho.
  destruct o as [[]|e| |]; [| |done|done].
  - destruct Ho as (Hc & Hi & Ha). exists gs. split; [done|]. rewrite <-Hk. split_and!; [|done|done].
    intros g Hgg. apply list_elem_of_lookup in Hgg as [j Hj].
    assert (map (pod_grant pod) gs !! j = Some (pod_grant pod g)) as Hj'.
    { change (map (pod_grant pod) gs) with (pod_grant pod <$> gs). by rewrite list_lookup_fmap, Hj. }
    destruct (Forall2_lookup_l _ _ _ _ _ HF Hj') as (i0 & Hi0 & Hb).
    assert (ip_key i0 = ip_key_of pod (pod_grant pod g)) as <-.
    { apply (f_equal (lookup j)) in Hk. rewrite (list_lookup_fmap ip_key), (list_lookup_fmap (ip_key_of pod)), Hi0, Hj' in Hk. cbn in Hk. congruence. }
    apply list_elem_of_lookup_2 in Hi0. split; [by apply Hc|]. exists i0. split; [done|by apply Hc].
  - destruct (Release_granted _ _ _ _ _ _ _ Hns Hrel Hgr) as (ns2 & E2 & Hs2).
    { intros g Hgg. by destruct (Hg g Hgg) as (_ & [? _] & _). }
    unfold release_ips, squashIPSliceToIPs.
    assert (mapM candidate_text (map (pod_grant pod) gs) = Ret (map g_text gs)) as Et.
    { apply grant_texts. intros g Hgg. by destruct (Hg g Hgg) as (? & _ & ?). }
    apply post_bind. unfold post at 1, lift. rewrite (Et : mapM candidate_text (map (grant_ip (pod_Name pod) (pod_Namespace pod)) gs) = _). cbn [fst snd].
    apply post_on_ipam. cbn [cl_world cl_ipam]. unfold post, squashIPSliceToSubnets. rewrite map_map.
    change (map (λ x, ip_Subnet (grant_ip (pod_Name pod) (pod_Namespace pod) x)) gs) with (map (λ g, sn_Name (g_subnet g)) gs).
    rewrite E2. cbn [fst snd]. split; [done|exact (proj1 Ho)].
Qed.
End allocate.

(** ** Property *)

Section property.
Context {A : ApiMachinery} {S : Settings} {P : CNIPlugins} {C : Client} {L : ClientLaws}.

(** C33: with the dual stack enabled (it is not by default), [allocate] is all
    or nothing over the allocator and the server.  When it returns, there are
    addresses of the families that the pod asks for that were free, exactly
    these have become used, each has a new instance on the server that is in
    use by the pod, and the pod is annotated with them.  When it fails, at
    whatever step, the addresses in use are what they were, every instance
    that existed is unchanged, and every other one is gone or terminating,
    unless the API server answered the clean-up's deletion of it by an error,
    which the code ignores: then it stays, while its address is free again.
    It never panics.  The subnets of the allocator have a name, a net ID and,
    as their family, that of their first address ([coupling_ok]). *)
Theorem allocate_all_or_nothing pod networkName rand c :
  set_wf (cl_ipam c) → every_subnet (cl_ipam c) coupling_ok → DualStackEnabled = true →
  post (allocate pod networkName rand) c (λ o c', match o with
    | Ret _ => ∃ gs,
        granted (pod_Name pod) (pod_Namespace pod) (pod_family pod) networkName (cl_ipam c) gs (cl_ipam c') ∧
        (∀ g, g ∈ gs → ips (cl_world c) !! ip_key_of pod (pod_grant pod g) = None ∧
           ∃ i0, build_instance pod (pod_grant pod g) (mac_text rand) = Ret i0 ∧
                 coupled pod i0 (ips (cl_world c') !! ip_key_of pod (pod_grant pod g))) ∧
        ips_only (ip_key_of pod <$> map (pod_grant pod) gs) (cl_world c) (cl_world c') ∧
        ∃ w1, pods w1 = pods (cl_world c) ∧ annotated pod (marshalIPs (map (pod_grant pod) gs)) w1 (cl_world c')
    | Fail _ =>
        used_same (cl_ipam c) (cl_ipam c') ∧
        (∀ k i, ips (cl_world c) !! k = Some i → ips (cl_world c') !! k = Some i) ∧
        ∃ made wc, cleanup made wc = (Ret tt, cl_world c') ∧
          ∀ k, ips (cl_world c) !! k = None → marked (ips (cl_world c') !! k) ∨ refused made wc k
    | _ => False
    end).
Proof. apply post_allocate. Qed.
End property.

(** ** A concrete cluster *)

Definition w_dual_pod : Pod :=
  pod_set_Meta (om_set_Annotations {[AnnotationIPFamily := "DualStack"]} (w_meta "web-0")) w_pod.

Definition w_cluster (w : View) : Cluster (H2 := kube_concrete) := mkCluster (H2 := kube_concrete) w w_set.

Definition w_allocate (w : View) : outcome unit * Cluster (H2 := kube_concrete) :=
  allocate (H := api_concrete) (H0 := w_settings) (H2 := kube_concrete) w_dual_pod "network1" [1; 2; 3]%Z (w_cluster w).

Lemma w_set_coupling : every_subnet w_set coupling_ok.
Proof.
  intros name i sn Hsn. unfold subnet_in, w_set in Hsn. rewrite lookup_singleton in Hsn. case_decide; [|done].
  cbn [mbind option_bind] in Hsn. apply list_elem_of_lookup_2 in Hsn. revert sn Hsn. apply Forall_forall.
  apply (bool_decide_unpack _). vm_compute. exact I.
Qed.

(** The pod is on the server or not: the allocation succeeds or is undone. *)
Lemma allocate_all_or_nothing_witness :
  (∃ gs, length gs = 2%nat ∧
    granted "web-0" "default" "DualStack" "network1" w_set gs (cl_ipam (H2 := kube_concrete) (w_allocate w_world).2)) ∧
  used_same w_set (cl_ipam (H2 := kube_concrete) (w_allocate (mkView ∅ ∅)).2).
Proof.
  pose proof (λ w, allocate_all_or_nothing (A := api_concrete) (S := w_settings) (P := cni_concrete) (L := kube_laws)
    w_dual_pod "network1" [1; 2; 3]%Z (w_cluster w) w_set_wf w_set_coupling eq_refl) as Hp.
  split.
  - specialize (Hp w_world).
    apply (post_eq _ _ (w_allocate w_world).1 (w_allocate w_world).2 _ (surjective_pairing (w_allocate w_world))) in Hp.
    assert ((w_allocate w_world).1 = Ret tt) as E by (vm_compute; reflexivity). rewrite E in Hp.
    destruct Hp as (gs & Hgs & _). exists gs. split; [|exact Hgs].
    pose proof (gr_families _ _ _ _ _ _ _ Hgs) as Hf. apply (f_equal length) in Hf. by rewrite length_map in Hf.
  - specialize (Hp (mkView ∅ ∅)).
    apply (post_eq _ _ (w_allocate (mkView ∅ ∅)).1 (w_allocate (mkView ∅ ∅)).2 _
      (surjective_pairing (w_allocate (mkView ∅ ∅)))) in Hp.
    assert (∃ e, (w_allocate (mkView ∅ ∅)).1 = Fail e) as [e E] by (eexists; vm_compute; reflexivity).
    rewrite E in Hp. exact (proj1 Hp).
Defined.

(** ** A retained address is lost when [ReCouple] fails

    A stateful pod comes back and gets its retained addresses assigned, but
    the pod is deleted before it is annotated: the addresses are released in
    the allocator, and any pod may get them, while their IP instances stay. *)

Definition w_using (c : Cluster (H2 := kube_concrete)) (x : string) : option IP :=
  sn ← subnet_in (cl_ipam (H2 := kube_concrete) c) "network1" 0; sn_UsingIPs sn !! x.

Definition w_retained : Cluster (H2 := kube_concrete) :=
  let c := (w_allocate w_world).2 in
  mkCluster (H2 := kube_concrete) (mkView (v_ips (cl_world (H2 := kube_concrete) c)) ∅) (cl_ipam (H2 := kube_concrete) c).

Definition w_return : outcome unit * Cluster (H2 := kube_concrete) :=
  multiAssign (H := api_concrete) (H0 := w_settings) (H1 := cni_concrete) (H2 := kube_concrete)
    w_dual_pod "network1" "DualStack" ["10.0.0.6"; "fd00::2"] true [1; 2; 3]%Z w_retained.

Lemma multiAssign_failure_frees :
  (∃ e, w_return.1 = Fail e) ∧ is_Some (w_using w_retained "10.0.0.6") ∧ w_using w_return.2 "10.0.0.6" = None ∧
  is_Some (v_ips (cl_world (H2 := kube_concrete) w_return.2) !! ("default", "10-0-0-6")).
Proof. split_and!; [eexists; vm_compute; reflexivity|eexists; vm_compute; reflexivity|vm_compute; reflexivity|eexists; vm_compute; reflexivity]. Qed.
