(* ===== verification/Predicates.v ===== *)
(** * Event filters, callback sets, concurrency of the controllers
      (pkg/controllers/utils/predicates.go, pkg/controllers/utils/sets,
      pkg/controllers/concurrency)

    A predicate embeds [predicate.Funcs] of controller-runtime, which lets
    every event pass, and overrides one or two of its methods; the definitions
    are the methods that it overrides. *)

From S2P Require Import Prelude GoNet GoStrings NetworkingV1 MulticlusterV1 Kubernetes Config Admission KubeClient ClientUtils.

(** ** predicates.go *)

(** A [client.Object], by its dynamic type. *)
Inductive Object : Type :=
  | ObjNetwork (o : V1Network)
  | ObjSubnet (o : V1Subnet)
  | ObjIPInstance (o : V1IPInstance)
  | ObjPod (o : Pod)
  | ObjNode (o : Node)
  | ObjRemoteCluster (o : RemoteCluster).

Definition Object_Meta (o : Object) : ObjectMeta :=
  match o with
  | ObjNetwork o => vn_Meta o
  | ObjSubnet o => vs_Meta o
  | ObjIPInstance o => vi_Meta o
  | ObjPod o => pod_Meta o
  | ObjNode o => node_Meta o
  | ObjRemoteCluster o => rc_Meta o
  end.

(** The objects of an update may be nil. *)
Record UpdateEvent := mkUpdateEvent { ev_ObjectOld : option Object; ev_ObjectNew : option Object }.

Definition IgnoreDelete_Delete (e : option Object) : bool := false.
Definition IgnoreUpdate_Update (e : UpdateEvent) : bool := false.

Definition NetworkSpecChange_Update (e : UpdateEvent) : bool :=
  match ev_ObjectOld e, ev_ObjectNew e with
  | Some (ObjNetwork old), Some (ObjNetwork new) =>
      negb (bool_decide (ns_NetID (vn_Spec old) = ns_NetID (vn_Spec new))) ||
      negb (bool_decide (ns_NodeSelector (vn_Spec old) = ns_NodeSelector (vn_Spec new)))
  | _, _ => false
  end.

Definition NetworkStatusChange_Update (e : UpdateEvent) : bool :=
  match ev_ObjectOld e, ev_ObjectNew e with
  | Some (ObjNetwork old), Some (ObjNetwork new) =>
      let changed f := negb (Bool.eqb (NetworkingV1.IsAvailable (f (vn_Status old))) (NetworkingV1.IsAvailable (f (vn_Status new)))) in
      if negb (bool_decide (nst_NodeList (vn_Status old) = nst_NodeList (vn_Status new))) then true
      else if changed nst_Statistics then true
      else if changed nst_IPv6Statistics then true
      else changed nst_DualStackStatistics
  | _, _ => false
  end.

Definition SubnetSpecChange_Update (e : UpdateEvent) : bool :=
  match ev_ObjectOld e, ev_ObjectNew e with
  | Some (ObjSubnet old), Some (ObjSubnet new) =>
      negb (bool_decide (ssp_Range (vs_Spec old) = ssp_Range (vs_Spec new))) ||
      negb (Bool.eqb (IsPrivateSubnet (Some old)) (IsPrivateSubnet (Some new)))
  | _, _ => false
  end.

(** The loops over the annotation and label keys. *)
Definition differs (f : ObjectMeta → string → string) (keys : list string) (e : UpdateEvent) : bool :=
  match ev_ObjectOld e, ev_ObjectNew e with
  | Some old, Some new =>
      existsb (λ k, negb (bool_decide (f (Object_Meta new) k = f (Object_Meta old) k))) keys
  | _, _ => false
  end.

Definition SpecifiedAnnotationChanged_Update (AnnotationKeys : list string) : UpdateEvent → bool :=
  differs annotation AnnotationKeys.
Definition SpecifiedLabelChanged_Update (LabelKeys : list string) : UpdateEvent → bool := differs label LabelKeys.

Definition IPInstancePhaseChange_Update (e : UpdateEvent) : bool :=
  match ev_ObjectOld e, ev_ObjectNew e with
  | Some (ObjIPInstance old), Some (ObjIPInstance new) =>
      negb (bool_decide (ist_Phase (vi_Status old) = ist_Phase (vi_Status new)))
  | _, _ => false
  end.

Definition RemoteClusterUUIDChange_Update (e : UpdateEvent) : bool :=
  match ev_ObjectOld e, ev_ObjectNew e with
  | Some (ObjRemoteCluster old), Some (ObjRemoteCluster new) =>
      negb (bool_decide (rc_UUID (rc_Status old) = rc_UUID (rc_Status new)))
  | _, _ => false
  end.

Definition terminating_b (o : Object) : bool := bool_decide (om_DeletionTimestamp (Object_Meta o) ≠ None).

(** Neither event may have a nil object. *)
Definition Terminating_Create (object : option Object) : outcome bool := o ← deref object; Ret (terminating_b o).
Definition Terminating_Update (e : UpdateEvent) : outcome bool := o ← deref (ev_ObjectNew e); Ret (terminating_b o).

Section predicates.
Context `{ApiMachinery}.

(** The underlay network of the node; an error counts as a change. *)
Definition NetworkOfNodeChange_Update (r : Reader) (e : UpdateEvent) : outcome bool :=
  old ← deref (ev_ObjectOld e);
  match FindUnderlayNetworkForNode r (om_Labels (Object_Meta old)) with
  | Ret oldNetwork =>
      new ← deref (ev_ObjectNew e);
      match FindUnderlayNetworkForNode r (om_Labels (Object_Meta new)) with
      | Ret newNetwork => Ret (negb (bool_decide (newNetwork = oldNetwork)))
      | Fail _ => Ret true
      | o => mbind (λ _, Ret true) o
      end
  | Fail _ => Ret true
  | o => mbind (λ _, Ret true) o
  end.
End predicates.

(** ** sets.go: a set that calls back when it changes

    The callback acts on a state [W] of its own while the set is locked. *)

Record callbackSet (W : Type) := mkCallbackSet { cs_sets : gset string; cs_callbackFunc : option (M W unit) }.
Arguments mkCallbackSet {W} _ _.
Arguments cs_sets {W} _.
Arguments cs_callbackFunc {W} _.

Section sets.
Context {W : Type}.

Definition NewCallbackSet : callbackSet W := mkCallbackSet ∅ None.

Definition set_and_call (f : gset string → gset string) : M (callbackSet W * W) unit :=
  s ← get;
  let c := s.1 in
  put (mkCallbackSet (f (cs_sets c)) (cs_callbackFunc c), s.2);;
  match cs_callbackFunc c with
  | Some callbackFunc => zoom (λ s, Some s.2) (λ w s, (s.1, w)) callbackFunc
  | None => mret tt
  end.

Definition set_Insert (item : string) : M (callbackSet W * W) unit :=
  s ← get;
  if decide (item ∈ cs_sets s.1) then mret tt else set_and_call (λ x, {[item]} ∪ x).

Definition set_Delete (item : string) : M (callbackSet W * W) unit :=
  s ← get;
  if decide (item ∈ cs_sets s.1) then set_and_call (λ x, x ∖ {[item]}) else mret tt.

Definition set_Has (item : string) (c : callbackSet W) : bool := bool_decide (item ∈ cs_sets c).

Definition WithCallback (callbackFunc : M W unit) (c : callbackSet W) : callbackSet W :=
  mkCallbackSet (cs_sets c) (Some callbackFunc).
End sets.

(** ** concurrency.go *)

Definition MaxControllerConcurrency : Z := 100.
Definition Max (c : Z) : Z :=
  if (MaxControllerConcurrency <? c)%Z then MaxControllerConcurrency else if (0 <? c)%Z then c else 1.
Definition Min (c : Z) : Z := 1.

(** ** The events that pass *)

Lemma Max_bounds c : (1 ≤ Max c ≤ 100)%Z.
Proof. unfold Max, MaxControllerConcurrency. destruct (Z.ltb_spec 100 c), (Z.ltb_spec 0 c); lia. Qed.

Lemma differs_spec f keys old new :
  differs f keys (mkUpdateEvent (Some old) (Some new)) = true ↔
  ∃ k, k ∈ keys ∧ f (Object_Meta new) k ≠ f (Object_Meta old) k.
Proof.
  unfold differs. cbn [ev_ObjectOld ev_ObjectNew]. rewrite existsb_exists.
  split; intros (k & Hk & Hd); exists k.
  - split; [by apply list_elem_of_In|]. by apply negb_true_iff, bool_decide_eq_false in Hd.
  - split; [by apply list_elem_of_In|]. by apply negb_true_iff, bool_decide_eq_false.
Qed.

(** The set after a change, whatever the callback does. *)
Lemma set_and_call_sets {W} f (s : callbackSet W * W) :
  cs_sets (set_and_call f s).2.1 = f (cs_sets s.1) ∧ cs_callbackFunc (set_and_call f s).2.1 = cs_callbackFunc s.1.
Proof.
  destruct s as [[x [g|]] w]; [|done]. unfold set_and_call. cbn. unfold mbind, M_bind, zoom. cbn. destruct (g w) as [o w']. by destruct o.
Qed.

Lemma set_Insert_sets {W} item (s : callbackSet W * W) :
  cs_sets (set_Insert item s).2.1 = {[item]} ∪ cs_sets s.1 ∧ cs_callbackFunc (set_Insert item s).2.1 = cs_callbackFunc s.1.
Proof.
  unfold set_Insert. m_run. case_decide; [|exact (set_and_call_sets (λ x, {[item]} ∪ x) s)]. cbn. split; [set_solver|done].
Qed.

Lemma set_Delete_sets {W} item (s : callbackSet W * W) :
  cs_sets (set_Delete item s).2.1 = cs_sets s.1 ∖ {[item]} ∧ cs_callbackFunc (set_Delete item s).2.1 = cs_callbackFunc s.1.
Proof.
  unfold set_Delete. m_run. case_decide; [exact (set_and_call_sets (λ x, x ∖ {[item]}) s)|]. cbn. split; [set_solver|done].
Qed.
