(* ===== verification/StatusControllers.v ===== *)
(** * The controllers of networks, subnets, IP instances and nodes
      (pkg/controllers/networking: networkstatus_controller.go,
      subnetstatus_controller.go, ipinstance_controller.go,
      quota_controller.go, node_controller.go; the indexers of
      cmd/manager/main.go)

    A controller acts on the API server and on the allocator, as the pod
    controller does.  Logs, events and gauges are left out.  The writes that
    only these controllers make are the class [StatusClient]. *)

From stdpp Require Import sorting.
From S2P Require Import Prelude GoNet GoStrings CNIPlugins NetworkingV1 Kubernetes Config Utils IPAMTypes IPAMNetwork Allocator Names GoJSON KubeClient Store ClientUtils Admission PodController.
Local Open Scope Z_scope.

Definition count_of (u : Usage) : Count := mkCount (int32 (us_Total u)) (int32 (us_Used u)) (int32 (us_Available u)).

Definition vn_set_Status (s : NetworkStatus) (n : V1Network) : V1Network := mkV1Network (vn_Meta n) (vn_Spec n) s.
Definition vs_set_Status (s : SubnetStatus) (n : V1Subnet) : V1Subnet := mkV1Subnet (vs_Meta n) (vs_Spec n) s.

(** ** Indexers: the values under which an object is found *)

Definition index_node (network : V1Network) : list string :=
  let type := GetNetworkType (Some network) in
  if decide (type = NetworkTypeUnderlay) then DeepCopyStringSlice (nst_NodeList (vn_Status network))
  else if decide (type = NetworkTypeOverlay) then [OverlayNodeName]
  else [].

Definition index_network (subnet : V1Subnet) : list string :=
  let networkName := ssp_Network (vs_Spec subnet) in
  if nonempty networkName then [networkName] else [].

(** [client.MatchingFields{IndexerFieldNetwork: network}] *)
Definition in_network (network : string) (subnet : V1Subnet) : bool := bool_decide (network ∈ index_network subnet).

(** ** Requests for other objects *)

Definition subnet_to_network (subnet : V1Subnet) : list string := [ssp_Network (vs_Spec subnet)].
Definition ipinstance_to_network (ipInstance : V1IPInstance) : list string := [is_Network (vi_Spec ipInstance)].
Definition ipinstance_to_subnet (ipInstance : V1IPInstance) : list string := [is_Subnet (vi_Spec ipInstance)].
Definition nodeNamesToReconcileRequests (nodeNames : list string) : list string := nodeNames.

(** ** The writes *)

Class StatusClient `{Client} : Type := {
  (** [Status().Patch(ctx, new, MergeFrom(old))] *)
  StatusPatch_Network : V1Network → V1Network → M World unit;
  StatusPatch_Subnet : V1Subnet → V1Subnet → M World unit;
  (** a merge patch with the given body *)
  Patch_Node : string → json → M World unit;
  (** [Patch(ctx, new, MergeFrom(old))] *)
  MergePatch_Node : Node → Node → M World unit;
  (** [errors.NewAggregate] of k8s.io/apimachinery *)
  NewAggregate : list error → error
}.

(** [errors.AggregateGoroutines]: the functions run one after the other, in
    the order of their calls on the server. *)
Fixpoint run_all {W} (funcs : list (M W unit)) : M W (list error) :=
  match funcs with
  | [] => mret []
  | f :: funcs => λ w,
      match f w with
      | (Ret _, w) => run_all funcs w
      | (Fail err, w) => (errs ← run_all funcs; mret (err :: errs)) w
      | (Panic, w) => (Panic, w)
      | (Diverge, w) => (Diverge, w)
      end
  end.

Section controllers.
Context `{ApiMachinery} `{Settings} `{CNIPlugins} `{SC : StatusClient}.

Definition AggregateGoroutines (funcs : list (M World unit)) : M World unit :=
  errs ← run_all funcs;
  match errs with [] => mret tt | _ => fail (NewAggregate errs) end.

(** The object of a request; an object that is gone needs no work. *)
Definition fetch {B} (get_object : Reader → outcome B) (wrapping : error → error) (f : B → M Cluster unit) : M Cluster unit :=
  c ← get;
  match get_object (reader (cl_world c)) with
  | Ret object => f object
  | Fail err => if IsNotFound err then mret tt else fail (wrapping err)
  | Panic => panic
  | Diverge => lift Diverge
  end.

Definition node_to_network (r : Reader) (node : Node) : outcome (list string) :=
  match FindUnderlayNetworkForNode r (om_Labels (node_Meta node)) with
  | Ret underlayNetworkName => Ret (if nonempty underlayNetworkName then [underlayNetworkName] else [])
  | Fail _ => Ret []
  | Panic => Panic
  | Diverge => Diverge
  end.

(** The nodes to reconcile when a network changes; a failed read gives none. *)
Definition network_to_nodes (r : Reader) : outcome (list string) :=
  match ListNodesToNames r everything with
  | Ret nodeNames => Ret (nodeNamesToReconcileRequests nodeNames)
  | Fail _ => Ret (nodeNamesToReconcileRequests [])
  | Panic => Panic
  | Diverge => Diverge
  end.

(** ** networkstatus_controller.go *)

Definition node_list (network : V1Network) : M Cluster (list string) :=
  nodes ← wrapError "unable to update node list"
    (reading (λ r, ListNodesToNames r (mkListOptions None (default ∅ (ns_NodeSelector (vn_Spec network))))));
  mret (sort_Strings nodes).

Definition subnet_list (network : V1Network) : M Cluster (list string) :=
  subnets ← wrapError "unable to update subnet list"
    (reading (λ r, ListSubnetsToNames r (in_network (om_Name (vn_Meta network)))));
  mret (sort_Strings subnets).

Definition network_usage (network : V1Network) (nodes subnets : list string) : M Cluster NetworkStatus :=
  let name := om_Name (vn_Meta network) in
  if DualStackEnabled then
    usages ← wrapError "unable to fetch usages on dual stack" (on_ipam (DualStack_Usage name));
    let '(v4, v6, dual, _) := usages in
    mret (mkNetworkStatus (us_LastAllocation v4) (us_LastAllocation v6) subnets nodes
            (Some (count_of v4)) (Some (count_of v6)) (Some (mkCount 0 0 (int32 (us_Available dual)))))
  else
    usage ← wrapError "unable to fetch usage" (on_ipam (Allocator_Usage name));
    mret (mkNetworkStatus (us_LastAllocation usage.1) "" subnets nodes (Some (count_of usage.1)) None None).

(** The values of [IPUsageGauge] that an update sets, by network, family and
    type; the gauge itself is left out, the values are dropped. *)
Definition IPTotalUsageType : string := "total".
Definition IPUsedUsageType : string := "used".
Definition IPAvailableUsageType : string := "available".

Definition family_metrics (networkName family : string) (statistics : option Count) : outcome (list (string * string * string * Z)) :=
  c ← deref statistics;
  Ret [(networkName, family, IPTotalUsageType, ct_Total c); (networkName, family, IPUsedUsageType, ct_Used c);
       (networkName, family, IPAvailableUsageType, ct_Available c)].

Definition updateUsageMetrics (networkName : string) (networkStatus : NetworkStatus) : outcome (list (string * string * string * Z)) :=
  v4 ← family_metrics networkName "ipv4" (nst_Statistics networkStatus);
  if DualStackEnabled then
    v6 ← family_metrics networkName "ipv6" (nst_IPv6Statistics networkStatus);
    dual ← deref (nst_DualStackStatistics networkStatus);
    Ret (v4 ++ v6 ++ [(networkName, "dualstack", IPAvailableUsageType, ct_Available dual)])
  else Ret v4.

(** The lists that are compared are never nil: the controller writes both. *)
Definition update_network (network : V1Network) : M Cluster unit :=
  nodes ← node_list network;
  subnets ← subnet_list network;
  networkStatus ← network_usage network nodes subnets;
  if decide (vn_Status network = networkStatus) then mret tt
  else
    _ ← lift (updateUsageMetrics (om_Name (vn_Meta network)) networkStatus);
    wrapError "unable to update network status"
      (on_world (RetryOnConflict (StatusPatch_Network network (vn_set_Status networkStatus network)))).

Definition NetworkStatus_Reconcile (name : string) : M Cluster unit :=
  fetch (λ r, r_GetNetwork r name) (Wrapf "%s: %v" ["unable to fetch Network"]) update_network.

(** ** subnetstatus_controller.go *)

Definition update_subnet (subnet : V1Subnet) : M Cluster unit :=
  let network := ssp_Network (vs_Spec subnet) in
  let name := om_Name (vs_Meta subnet) in
  usage ← wrapError "unable to fetch subnet usage"
    (on_ipam (if DualStackEnabled then DualStack_SubnetUsage network name else Allocator_SubnetUsage network name));
  let subnetStatus := mkSubnetStatus (count_of usage) (us_LastAllocation usage) in
  if decide (vs_Status subnet = subnetStatus) then mret tt
  else
    wrapError "unable to update subnet status"
      (on_world (RetryOnConflict (StatusPatch_Subnet subnet (vs_set_Status subnetStatus subnet)))).

Definition SubnetStatus_Reconcile (name : string) : M Cluster unit :=
  fetch (λ r, r_GetSubnet r name) (Wrapf "%s: %v" ["unable to fetch Subnet"]) update_subnet.

(** ** ipinstance_controller.go *)

Definition releaseIP (ipInstance : V1IPInstance) : M Cluster unit :=
  let network := is_Network (vi_Spec ipInstance) in
  let subnet := is_Subnet (vi_Spec ipInstance) in
  let ip := ToIPFormat (om_Name (vi_Meta ipInstance)) in
  if DualStackEnabled then
    on_ipam (DualStack_Release (ToIPFamilyMode (IsIPv6IPInstance (Some ipInstance))) network [subnet] [ip]);;
    on_world (DualStackWorker_IPUnBind (om_Namespace (vi_Meta ipInstance)) (om_Name (vi_Meta ipInstance)))
  else
    on_ipam (Allocator_Release network subnet ip);;
    on_world (Worker_IPUnBind (om_Namespace (vi_Meta ipInstance)) (om_Name (vi_Meta ipInstance))).

Definition IPInstance_Reconcile (namespace name : string) : M Cluster unit :=
  fetch (λ r, r_GetIPInstance r namespace name) (Wrapf "%s: %v" ["unable to fetch IPInstance"]) (λ ip,
    if decide (om_DeletionTimestamp (vi_Meta ip) = None) then mret tt
    else wrapError "unable to release IPInstance" (releaseIP ip)).

(** ** quota_controller.go *)

Definition quota_of (available : bool) : string := if available then QuotaNonEmpty else QuotaEmpty.

Definition quotaLabels (network : V1Network) : list (string * string) :=
  let quota f := quota_of (NetworkingV1.IsAvailable (f (vn_Status network))) in
  if DualStackEnabled then
    [(LabelIPv4AddressQuota, quota nst_Statistics); (LabelIPv6AddressQuota, quota nst_IPv6Statistics);
     (LabelDualStackAddressQuota, quota nst_DualStackStatistics)]
  else [(LabelAddressQuota, quota nst_Statistics)].

Definition patchNodeLabels (nodeName : string) (labels : list (string * string)) : M World unit :=
  match labels with
  | [] => mret tt
  | _ => RetryOnConflict (Patch_Node nodeName
           (JObject [("metadata", JObject [("labels", JObject (map (λ l, (l.1, JString l.2)) labels))])]))
  end.

(** The functions share the variable of the [range] statement and run after
    it: each patches the node that the variable holds at the end. *)
Definition quota_patches (network : V1Network) : list (M World unit) :=
  let nodes := nst_NodeList (vn_Status network) in
  map (λ _, patchNodeLabels (default "" (last nodes)) (quotaLabels network)) nodes.

Definition Quota_Reconcile (name : string) : M Cluster unit :=
  fetch (λ r, r_GetNetwork r name) (Wrapf "%s: %v" ["unable to fetch Network"]) (λ network,
    if decide (GetNetworkType (Some network) = NetworkTypeUnderlay)
    then wrapError "unable to update quota labels" (on_world (AggregateGoroutines (quota_patches network)))
    else mret tt).

(** ** node_controller.go *)

Definition attachedToString (attached : bool) : string := if attached then Attached else Unattached.

Definition attachment_labels (attached : bool * bool) (node : Node) : Node :=
  let m := node_Meta node in
  mkNode (om_set_Labels (<[LabelOverlayNetworkAttachment := attachedToString attached.2]>
                         (<[LabelUnderlayNetworkAttachment := attachedToString attached.1]> (om_Labels m))) m) (node_Addresses node).

(** A node without labels has a nil map: the assignment panics. *)
Definition Node_Reconcile (name : string) : M Cluster unit :=
  fetch (λ r, r_GetNode r name) (λ err, err) (λ node,
    attached ← reading (λ r, DetectNetworkAttachmentOfNode r node);
    if decide (om_Labels (node_Meta node) = ∅) then panic
    else on_world (MergePatch_Node node (attachment_labels attached node))).
End controllers.
