(* ===== verification/StatusProperties.v ===== *)
(** * The status of a network (networkstatus_controller.go)

    The counters that the allocator reports are sums over the subnets, and
    the controller writes exactly these to the server, unless they are there
    already. *)

From stdpp Require Import sorting.
From S2P Require Import Prelude GoNet GoStrings CNIPlugins NetworkingV1 Kubernetes Config Utils IPAMTypes IPAMSubnet IPAMSync IPAMCanonical IPAMSubnetProperties IPAMNetwork IPAMNetworkProperties Allocator AllocatorInvariant AllocatorProperties Names GoJSON KubeClient Store StoreProperties ClientUtils Admission PodController StatusControllers.
Local Open Scope Z_scope.

(** ** Sums *)

Definition sumZ {A} (f : A → Z) (l : list A) : Z := foldr (λ x n, f x + n) 0 l.

Lemma sumZ_app {A} (f : A → Z) l l' : sumZ f (l ++ l') = sumZ f l + sumZ f l'.
Proof. induction l as [|x l IH]; cbn; [done|]. unfold sumZ in *. cbn. rewrite IH. lia. Qed.

Lemma sumZ_snoc {A} (f : A → Z) l x : sumZ f (l ++ [x]) = sumZ f l + f x.
Proof. rewrite sumZ_app. unfold sumZ at 2. cbn. lia. Qed.

#[export] Instance sumZ_perm {A} (f : A → Z) : Proper ((≡ₚ) ==> eq) (sumZ f).
Proof. induction 1; unfold sumZ in *; cbn; lia. Qed.

Lemma sumZ_ext {A} (f g : A → Z) l : (∀ x, x ∈ l → f x = g x) → sumZ f l = sumZ g l.
Proof.
  induction l as [|x l IH]; intros H; [done|]. unfold sumZ in *. cbn. rewrite H by (by left). rewrite IH; [done|].
  intros y Hy. apply H. by right.
Qed.

Lemma sumZ_map {A B} (f : B → Z) (g : A → B) l : sumZ f (g <$> l) = sumZ (λ x, f (g x)) l.
Proof. induction l as [|x l IH]; [done|]. unfold sumZ in *. cbn. by rewrite IH. Qed.

Lemma uint32_add a b : uint32 (uint32 a + uint32 b) = uint32 (a + b).
Proof. unfold uint32. by rewrite <-Z.add_mod. Qed.

Lemma uint32_add_l a b : uint32 (uint32 a + b) = uint32 (a + b).
Proof. unfold uint32. by rewrite Zplus_mod_idemp_l. Qed.

Lemma int32_bounds z : - 2 ^ 31 ≤ int32 z < 2 ^ 31.
Proof. unfold int32. zdiv_lia. Qed.

Lemma int32_small z : - 2 ^ 31 ≤ z < 2 ^ 31 → int32 z = z.
Proof. intros H. unfold int32. rewrite Z.mod_small; lia. Qed.

Lemma int32_uint32 z : int32 (uint32 z) = int32 z.
Proof. unfold int32, uint32. by rewrite Zplus_mod_idemp_l. Qed.

Lemma int32_add_idemp a b : int32 (int32 a + int32 b) = int32 (a + b).
Proof.
  unfold int32. f_equal.
  replace ((a + 2 ^ 31) mod 2 ^ 32 - 2 ^ 31 + ((b + 2 ^ 31) mod 2 ^ 32 - 2 ^ 31) + 2 ^ 31)
    with ((a + 2 ^ 31) mod 2 ^ 32 + ((b + 2 ^ 31) mod 2 ^ 32 - 2 ^ 31)) by lia.
  rewrite Zplus_mod_idemp_l.
  replace (a + 2 ^ 31 + ((b + 2 ^ 31) mod 2 ^ 32 - 2 ^ 31)) with ((b + 2 ^ 31) mod 2 ^ 32 + a) by lia.
  rewrite Zplus_mod_idemp_l. f_equal. lia.
Qed.

(** ** What the allocator reports *)

(** The addresses of a subnet, and those of them in use. *)
Definition addresses (sn : Subnet) : Z := IPSlice_Count (sn_AvailableIPs sn).
Definition in_use (sn : Subnet) : Z := Subnet_UsingIPCount sn.

Definition usage_of (last : string) (l : list Subnet) : Usage :=
  mkUsage (uint32 (sumZ addresses l)) (uint32 (sumZ in_use l)) (uint32 (sumZ (λ sn, addresses sn - in_use sn) l)) last.

(** The last address given out of a subnet, and of the first subnet that has
    given out one. *)
Definition current (sn : Subnet) : string := match IPSlice_Current (sn_AvailableIPs sn) with Ret x => x | _ => "" end.
Definition first_current (l : list Subnet) : string := PickFirstNonEmptyString (map current l).

Definition of_family (v6 : bool) (l : list Subnet) : list Subnet := filter (λ sn, Subnet_IsIPv6 sn = v6) l.
Definition of_netID (id : Z) (l : list Subnet) : list Subnet := filter (λ sn, unifyNetID (sn_NetID sn) = id) l.

(** The addresses of a net ID that can be given out in pairs. *)
Definition pairs (l : list Subnet) (id : Z) : Z :=
  let available v6 := uint32 (sumZ (λ sn, addresses sn - in_use sn) (of_family v6 (of_netID id l))) in
  Z.min (available false) (available true).

Section usage.
Context {P : CNIPlugins}.

Lemma Subnet_Usage_of sn : subnet_ok sn → Subnet_Usage sn = Ret (usage_of (current sn) [sn]).
Proof.
  intros Hok. destruct (IPSlice_Current_ret _ (ok_slice sn Hok)) as [x Hx].
  unfold Subnet_Usage, current. rewrite Hx. unfold usage_of, sumZ, addresses, in_use. cbn. by rewrite !Z.add_0_r.
Qed.

Lemma first_current_snoc l sn :
  first_current (l ++ [sn]) = if nonempty (first_current l) then first_current l else current sn.
Proof.
  unfold first_current. rewrite map_app. cbn [map]. induction (map current l) as [|x xs IH]; cbn [PickFirstNonEmptyString app].
  - by destruct (nonempty (current sn)) eqn:E; [|unfold nonempty in E; cbn; case_bool_decide].
  - destruct (nonempty x) eqn:E; [by rewrite E|]. exact IH.
Qed.

Lemma Usage_Add_of l sn :
  Usage_Add (usage_of (first_current l) l) (usage_of (current sn) [sn]) = usage_of (first_current (l ++ [sn])) (l ++ [sn]).
Proof.
  unfold Usage_Add, usage_of. cbn [us_Total us_Used us_Available us_LastAllocation].
  rewrite !uint32_add, first_current_snoc, <-!sumZ_app. done.
Qed.

(** What the loop of [DualStackUsage] has computed for the subnets [l]. *)
Definition usage_inv (l : list Subnet) (d : DualUsage) : Prop :=
  du_v4 d = usage_of (first_current (of_family false l)) (of_family false l) ∧
  du_v6 d = usage_of (first_current (of_family true l)) (of_family true l) ∧
  ∀ id, du_paired d !! id =
    if decide (of_netID id l = []) then None
    else let u v6 := usage_of (first_current (of_family v6 (of_netID id l))) (of_family v6 (of_netID id l)) in
         Some (u false, u true).

Lemma of_family_snoc v6 l sn :
  of_family v6 (l ++ [sn]) = if decide (Subnet_IsIPv6 sn = v6) then of_family v6 l ++ [sn] else of_family v6 l.
Proof. unfold of_family. rewrite filter_app, filter_cons, filter_nil. case_decide; by rewrite ?app_nil_r. Qed.

Lemma of_netID_snoc id l sn :
  of_netID id (l ++ [sn]) = if decide (unifyNetID (sn_NetID sn) = id) then of_netID id l ++ [sn] else of_netID id l.
Proof. unfold of_netID. rewrite filter_app, filter_cons, filter_nil. case_decide; by rewrite ?app_nil_r. Qed.

Lemma of_family_nil v6 l : l = [] → of_family v6 l = [].
Proof. by intros ->. Qed.

Lemma dualstack_step_inv l sn d :
  subnet_ok sn → usage_inv l d → ∃ d', dualstack_step d sn = Ret d' ∧ usage_inv (l ++ [sn]) d'.
Proof.
  intros Hok (H4 & H6 & Hp). unfold dualstack_step. rewrite (Subnet_Usage_of sn Hok). cbn [mbind outcome_bind].
  set (id := unifyNetID (sn_NetID sn)).
  assert (default (Usage_zero, Usage_zero) (du_paired d !! id) =
          (usage_of (first_current (of_family false (of_netID id l))) (of_family false (of_netID id l)),
           usage_of (first_current (of_family true (of_netID id l))) (of_family true (of_netID id l)))) as ->.
  { rewrite Hp. case_decide as E; [|done]. by rewrite E. }
  eexists. split; [reflexivity|].
  assert (∀ id', of_netID id' (l ++ [sn]) = if decide (id' = id) then of_netID id l ++ [sn] else of_netID id' l) as Hid.
  { intros id'. rewrite of_netID_snoc. fold id. repeat case_decide; congruence. }
  assert (∀ v6 x, of_family v6 (x ++ [sn]) = if decide (Subnet_IsIPv6 sn = v6) then of_family v6 x ++ [sn] else of_family v6 x)
    as Hf by (intros; apply of_family_snoc).
  destruct (Subnet_IsIPv6 sn) eqn:E6; (split; [|split]); cbn [du_v4 du_v6 du_paired].
  all: rewrite ?(Hf true), ?(Hf false); cbn [decide bool_eq_dec]; rewrite ?H4, ?H6, ?Usage_Add_of; try reflexivity.
  all: intros id'; rewrite Hid; destruct (decide (id' = id)) as [->|Hne].
  2, 4: rewrite lookup_insert_ne by done; apply Hp.
  all: rewrite lookup_insert_eq, decide_False by (by destruct (of_netID id l)); rewrite ?(Hf true), ?(Hf false).
  all: reflexivity.
Qed.

Lemma dualstack_loop_inv l0 l d :
  Forall subnet_ok l → usage_inv l0 d → ∃ d', for_each dualstack_step d l = Ret d' ∧ usage_inv (l0 ++ l) d'.
Proof.
  intros Hl. revert l0 d. induction Hl as [|sn l Hsn _ IH]; intros l0 d Hd; cbn [for_each].
  - exists d. by rewrite app_nil_r.
  - destruct (dualstack_step_inv l0 sn d Hsn Hd) as (d1 & -> & H1). cbn [mbind outcome_bind].
    destruct (IH _ _ H1) as (d2 & E & H2). exists d2. by rewrite <-app_assoc in H2.
Qed.

Lemma fold_choose (m : gmap Z (Usage * Usage)) :
  map_fold (λ _ u n, uint32 (n + chooseAvailable u)) 0 m = uint32 (sumZ (λ kv, chooseAvailable kv.2) (map_to_list m)).
Proof.
  rewrite map_fold_foldr. induction (map_to_list m) as [|[id u] l IH]; [done|].
  cbn [foldr uncurry]. rewrite IH, uint32_add_l. unfold sumZ. cbn. f_equal. lia.
Qed.

(** The usages of a network: the sums over the subnets of each family, and
    over the net IDs for the pairs. *)
Lemma Network_DualStackUsage_spec n :
  net_wf n →
  let l := rotation (nw_Subnets n) in
  ∃ ids usages, NoDup ids ∧ (∀ id, id ∈ ids ↔ ∃ sn, sn ∈ ss_Subnets (nw_Subnets n) ∧ unifyNetID (sn_NetID sn) = id) ∧
    Network_DualStackUsage n =
      Ret (usage_of (first_current (of_family false l)) (of_family false l),
           usage_of (first_current (of_family true l)) (of_family true l),
           mkUsage 0 0 (uint32 (sumZ (pairs l) ids)) "", usages).
Proof.
  intros Hn l. unfold Network_DualStackUsage, SubnetSlice_DualStackUsage.
  rewrite (for_each_rotation dualstack_step) by done. fold l.
  destruct (dualstack_loop_inv [] l (mkDualUsage Usage_zero Usage_zero ∅ ∅)) as (d & -> & H4 & H6 & Hp).
  { apply Forall_forall. intros sn Hsn. apply rotation_elem_of in Hsn. pose proof (wf_subnets _ Hn) as Hw.
    rewrite Forall_forall in Hw. by apply Hw. }
  { split_and!; [done..|]. intros id. cbn [du_paired]. by rewrite lookup_empty. }
  cbn [mbind outcome_bind app] in *. rewrite H4, H6.
  exists (map_to_list (du_paired d)).*1, (du_subnets d). split_and!; [apply NoDup_fst_map_to_list| |].
  - intros id. rewrite list_elem_of_fmap. setoid_rewrite <-rotation_elem_of. fold l. split.
    + intros ([id' u] & -> & Hu). apply elem_of_map_to_list in Hu. cbn. rewrite Hp in Hu. case_decide as E; [done|].
      destruct (of_netID id' l) as [|sn t] eqn:El; [done|]. exists sn.
      assert (sn ∈ of_netID id' l) as Hin by (rewrite El; by left). by apply list_elem_of_filter in Hin as [? ?].
    + intros (sn & Hsn & Hid). assert (sn ∈ of_netID id l) as Hin by (by apply list_elem_of_filter).
      pose proof (Hp id) as Hl. rewrite decide_False in Hl by (intros E; rewrite E in Hin; by apply elem_of_nil in Hin).
      eexists (id, _). split; [done|]. by apply elem_of_map_to_list.
  - rewrite fold_choose. do 6 f_equal. rewrite sumZ_map. apply sumZ_ext. intros [id u] Hu. apply elem_of_map_to_list in Hu. cbn. rewrite Hp in Hu. case_decide; [done|].
    simplify_eq. unfold chooseAvailable, pairs. cbn. destruct (Z.ltb_spec (uint32 (sumZ (λ sn, addresses sn - in_use sn) (of_family false (of_netID id l))))
      (uint32 (sumZ (λ sn, addresses sn - in_use sn) (of_family true (of_netID id l))))); lia.
Qed.

Lemma usage_sum_of l sn :
  usage_sum (usage_of "" l) (usage_of (current sn) [sn]) = usage_of "" (l ++ [sn]).
Proof. unfold usage_sum, usage_of. cbn [us_Total us_Used us_Available us_LastAllocation]. by rewrite !uint32_add, <-!sumZ_app. Qed.

Lemma usage_sum_comm u a b : usage_sum (usage_sum u a) b = usage_sum (usage_sum u b) a.
Proof. unfold usage_sum. cbn. rewrite !uint32_add_l. f_equal; f_equal; lia. Qed.

Lemma usage_loop l0 l (m : gmap string Usage) :
  Forall subnet_ok l → NoDup (sn_Name <$> l0 ++ l) →
  (∀ name, is_Some (m !! name) → name ∈ sn_Name <$> l0) →
  map_fold (λ _ su u, usage_sum u su) Usage_zero m = usage_of "" l0 →
  ∃ m' : gmap string Usage, for_each (λ usages subnet, u ← Subnet_Usage subnet; Ret (<[sn_Name subnet := u]> usages)) m l = Ret m' ∧
    map_fold (λ _ su u, usage_sum u su) Usage_zero m' = usage_of "" (l0 ++ l).
Proof.
  intros Hl. revert l0 m. induction Hl as [|sn l Hsn _ IH]; intros l0 m Hnd Hm Hf; cbn [for_each].
  - exists m. by rewrite app_nil_r.
  - rewrite (Subnet_Usage_of sn Hsn). cbn [mbind outcome_bind].
    replace (l0 ++ sn :: l) with ((l0 ++ [sn]) ++ l) in * by (by rewrite <-app_assoc).
    assert (m !! sn_Name sn = None) as Hfresh.
    { destruct (m !! sn_Name sn) eqn:E; [|done]. exfalso.
      assert (sn_Name sn ∈ sn_Name <$> l0) as Hin by (apply Hm; eauto).
      rewrite !fmap_app in Hnd. apply NoDup_app in Hnd as [Hnd _]. apply NoDup_app in Hnd as (_ & Hd & _).
      apply (Hd _ Hin). by left. }
    apply IH; [done| |].
    + intros name [u Hu]. rewrite fmap_app, elem_of_app. apply lookup_insert_Some in Hu as [[<- _]|[_ Hu]]; [right; by left|].
      left. apply Hm. eauto.
    + rewrite map_fold_insert_L; [by rewrite Hf, usage_sum_of| |done]. intros. apply usage_sum_comm.
Qed.

Lemma wf_names_NoDup s : slice_wf s → NoDup (sn_Name <$> ss_Subnets s).
Proof.
  intros Hs. apply NoDup_alt. intros i j x Hi Hj. rewrite list_lookup_fmap in Hi, Hj.
  apply fmap_Some in Hi as (sn & Hi & ->). apply fmap_Some in Hj as (sn' & Hj & E). by eapply wf_names.
Qed.

(** The name of the subnet the cursor points at. *)
Definition current_name (s : SubnetSlice) : string := default "" (sn_Name <$> ss_Subnets s !! ss_SubnetIndex s).

Lemma Network_Usage_spec n :
  net_wf n →
  ∃ usages, Network_Usage n = Ret (usage_of (current_name (nw_Subnets n)) (ss_Subnets (nw_Subnets n)), usages).
Proof.
  intros Hn. unfold Network_Usage, SubnetSlice_Usage. set (s := nw_Subnets n).
  destruct (usage_loop [] (ss_Subnets s) ∅) as (m & -> & Hm); [by apply (wf_subnets _ Hn)| | |done|].
  { by apply wf_names_NoDup. }
  { intros name [u Hu]. by rewrite lookup_empty in Hu. }
  cbn [mbind outcome_bind].
  assert (SubnetSlice_CurrentSubnet s = Ret (current_name s)) as ->.
  { unfold SubnetSlice_CurrentSubnet, current_name. pose proof (wf_count _ Hn) as Hc. fold s in Hc.
    pose proof (wf_index _ Hn) as Hi. fold s in Hi. case_decide as E.
    - rewrite E in Hc. symmetry in Hc. apply length_zero_iff_nil in Hc. by rewrite Hc, lookup_nil.
    - destruct (lookup_lt_is_Some_2 (ss_Subnets s) (ss_SubnetIndex s)) as [sn Hsn]; [lia|].
      by rewrite (subnet_at_lookup s _ sn Hsn), Hsn. }
  cbn [mbind outcome_bind]. rewrite Hm. by exists m.
Qed.
End usage.

(** ** The status that the controller writes *)

(** What the controller relies on: reads return, and a patch of the status of
    a network, against the object as it was read, sets it and nothing else
    that the controller reads. *)
Definition returns {A} (o : outcome A) : Prop := match o with Ret _ | Fail _ => True | _ => False end.

Definition status_patched `{Client} (old new : V1Network) (w : World) (o : outcome unit) (w' : World) : Prop :=
  match o with
  | Ret _ => (∀ name, r_GetNetwork (reader w') name =
                if decide (name = om_Name (vn_Meta old)) then Ret new else r_GetNetwork (reader w) name) ∧
             r_ListNodes (reader w') = r_ListNodes (reader w) ∧ r_ListSubnets (reader w') = r_ListSubnets (reader w)
  | Fail _ => reader w' = reader w
  | _ => False
  end.

Class StatusClientLaws `{SC : StatusClient} : Prop := {
  ListNodes_returns w opts : returns (r_ListNodes (reader w) opts);
  ListSubnets_returns w : returns (r_ListSubnets (reader w));
  status_retry {X : Type} (f : M World X) w : retried f w (RetryOnConflict f w);
  StatusPatch_Network_law old new w :
    r_GetNetwork (reader w) (om_Name (vn_Meta old)) = Ret old →
    vn_Meta new = vn_Meta old → vn_Spec new = vn_Spec old →
    post (StatusPatch_Network old new) w (status_patched old new w)
}.

(** A counter of 32 bits in which the addresses are accounted for. *)
Definition count_ok (c : Count) : Prop :=
  (∀ z, z ∈ [ct_Total c; ct_Used c; ct_Available c] → - 2 ^ 31 ≤ z < 2 ^ 31) ∧
  ct_Total c = int32 (ct_Used c + ct_Available c).

Definition counts (l : list Subnet) : Count := count_of (usage_of "" l).

Lemma counts_ok l : count_ok (counts l).
Proof.
  unfold counts, count_of, usage_of. cbn. rewrite !int32_uint32. split.
  - cbn. intros z Hz. rewrite !elem_of_cons in Hz. destruct Hz as [->|[->|[->|Hz]]]; [apply int32_bounds..|].
    by apply elem_of_nil in Hz.
  - cbn. rewrite int32_add_idemp. f_equal. induction l as [|sn l IH]; [done|]. unfold sumZ in *. cbn. lia.
Qed.

Section network_status.
Context {A : ApiMachinery} {S : Settings} {P : CNIPlugins} {C : Client} {SC : StatusClient}.
Implicit Types (network : V1Network) (c : Cluster).

(** The status of [network] when the server has these nodes and subnets and
    the allocator holds [n]. *)
Record exact_status network (nodes : list Node) (subnets : list V1Subnet) (n : Network) (st : NetworkStatus) : Prop := {
  es_nodes : nst_NodeList st ≡ₚ map (λ n, om_Name (node_Meta n)) nodes ∧ StronglySorted String.le (nst_NodeList st);
  es_subnets :
    nst_SubnetList st ≡ₚ map (λ s, om_Name (vs_Meta s))
                           (filter (λ s, nonempty (om_Name (vn_Meta network)) = true ∧
                                         ssp_Network (vs_Spec s) = om_Name (vn_Meta network)) subnets) ∧
    StronglySorted String.le (nst_SubnetList st);
  es_dual : DualStackEnabled = true →
    let l := rotation (nw_Subnets n) in
    nst_LastAllocatedSubnet st = first_current (of_family false l) ∧
    nst_LastAllocatedIPv6Subnet st = first_current (of_family true l) ∧
    nst_Statistics st = Some (counts (of_family false l)) ∧ nst_IPv6Statistics st = Some (counts (of_family true l)) ∧
    ∃ ids, NoDup ids ∧ (∀ id, id ∈ ids ↔ ∃ sn, sn ∈ ss_Subnets (nw_Subnets n) ∧ unifyNetID (sn_NetID sn) = id) ∧
      nst_DualStackStatistics st = Some (mkCount 0 0 (int32 (sumZ (pairs l) ids)));
  es_single : DualStackEnabled = false →
    nst_LastAllocatedSubnet st = current_name (nw_Subnets n) ∧ nst_LastAllocatedIPv6Subnet st = "" ∧
    nst_Statistics st = Some (counts (ss_Subnets (nw_Subnets n))) ∧
    nst_IPv6Statistics st = None ∧ nst_DualStackStatistics st = None
}.

(** The value that the code computes. *)
Definition status_value network (nodes subnets : list string) (n : Network) : NetworkStatus :=
  if DualStackEnabled then
    match Network_DualStackUsage n with
    | Ret (v4, v6, dual, _) =>
        mkNetworkStatus (us_LastAllocation v4) (us_LastAllocation v6) subnets nodes
          (Some (count_of v4)) (Some (count_of v6)) (Some (mkCount 0 0 (int32 (us_Available dual))))
    | _ => vn_Status network
    end
  else
    match Network_Usage n with
    | Ret (usage, _) => mkNetworkStatus (us_LastAllocation usage) "" subnets nodes (Some (count_of usage)) None None
    | _ => vn_Status network
    end.

Definition node_names (nodes : list Node) : list string := sort_Strings (map (λ n, om_Name (node_Meta n)) nodes).
Definition subnet_names network (subnets : list V1Subnet) : list string :=
  sort_Strings (map (λ s, om_Name (vs_Meta s)) (filter (λ s, in_network (om_Name (vn_Meta network)) s = true) subnets)).

Lemma in_network_spec name s : in_network name s = true ↔ nonempty name = true ∧ ssp_Network (vs_Spec s) = name.
Proof.
  unfold in_network, index_network. rewrite bool_decide_eq_true. destruct (nonempty (ssp_Network (vs_Spec s))) eqn:E.
  - rewrite list_elem_of_singleton. split; [intros ->; by rewrite E|by intros [_ ->]].
  - rewrite elem_of_nil. split; [done|]. intros [Hn <-]. congruence.
Qed.

Lemma sort_Strings_spec l : sort_Strings l ≡ₚ l ∧ StronglySorted String.le (sort_Strings l).
Proof. split; [apply merge_sort_Permutation|]. apply (StronglySorted_merge_sort String.le). Qed.

Lemma status_value_exact network nodes subnets n :
  net_wf n →
  exact_status network nodes subnets n (status_value network (node_names nodes) (subnet_names network subnets) n).
Proof.
  intros Hn. unfold status_value.
  assert (subnet_names network subnets ≡ₚ map (λ s, om_Name (vs_Meta s))
            (filter (λ s, nonempty (om_Name (vn_Meta network)) = true ∧ ssp_Network (vs_Spec s) = om_Name (vn_Meta network)) subnets)) as Hs.
  { unfold subnet_names. rewrite (proj1 (sort_Strings_spec _)). apply fmap_Permutation.
    erewrite list_filter_iff; [done|]. intros s. by rewrite in_network_spec. }
  destruct (sort_Strings_spec (map (λ n, om_Name (node_Meta n)) nodes)) as [Hn1 Hn2].
  assert (StronglySorted String.le (subnet_names network subnets)) as Hs2 by apply sort_Strings_spec.
  destruct DualStackEnabled eqn:ED.
  - destruct (Network_DualStackUsage_spec n Hn) as (ids & usages & Hids & Hin & ->).
    split; cbn; [done..| |congruence]. intros _. split_and!; [done..|]. exists ids. by rewrite int32_uint32.
  - destruct (Network_Usage_spec n Hn) as (usages & ->). split; cbn; [done..|congruence|done].
Qed.

Lemma cluster_eta c : mkCluster (cl_world c) (cl_ipam c) = c.
Proof. by destruct c. Qed.

(** A read of the allocator leaves the cluster as it is. *)
Lemma on_ipam_read {B} (m : M NetworkSet B) c o : m (cl_ipam c) = (o, cl_ipam c) → on_ipam m c = (o, c).
Proof. intros E. unfold on_ipam, zoom. by rewrite E, cluster_eta. Qed.

Lemma usage_run network nodes subnets n c :
  cl_ipam c !! om_Name (vn_Meta network) = Some n → net_wf n →
  network_usage network nodes subnets c = (Ret (status_value network nodes subnets n), c).
Proof.
  intros Hn Hwf. unfold network_usage, status_value.
  assert (∀ B (f : Network → outcome B),
            (errf "fail to get network %s: %v" [om_Name (vn_Meta network)] (find_network (om_Name (vn_Meta network)));;
             on_network (om_Name (vn_Meta network)) (n ← get; lift (f n))) (cl_ipam c) = (f n, cl_ipam c)) as Hr.
  { intros B f. unfold errf. rewrite (bind_Ret _ _ _ _ _ (wrap_Ret _ _ _ _ _ (find_network_run _ _ _ Hn))).
    rewrite (on_network_run _ _ _ n (f n) n); [by rewrite insert_id|done|done]. }
  destruct DualStackEnabled.
  - destruct (Network_DualStackUsage_spec n Hwf) as (ids & usages & _ & _ & E).
    pose proof (on_ipam_read (DualStack_Usage (om_Name (vn_Meta network))) c _ (Hr _ Network_DualStackUsage)) as Hu.
    rewrite E in Hu. unfold wrapError. rewrite (bind_Ret _ _ _ _ _ (wrap_Ret _ _ _ _ _ Hu)). by rewrite E.
  - destruct (Network_Usage_spec n Hwf) as (usages & E).
    pose proof (on_ipam_read (Allocator_Usage (om_Name (vn_Meta network))) c _ (Hr _ Network_Usage)) as Hu.
    rewrite E in Hu. unfold wrapError. rewrite (bind_Ret _ _ _ _ _ (wrap_Ret _ _ _ _ _ Hu)). by rewrite E.
Qed.

Lemma usage_missing network nodes subnets c :
  cl_ipam c !! om_Name (vn_Meta network) = None → ∃ e, network_usage network nodes subnets c = (Fail e, c).
Proof.
  intros Hn. unfold network_usage.
  assert (∀ B (m : M NetworkSet B), (errf "fail to get network %s: %v" [om_Name (vn_Meta network)]
            (find_network (om_Name (vn_Meta network)));; m) (cl_ipam c)
          = (Fail (Wrapf "fail to get network %s: %v" [om_Name (vn_Meta network)] ErrNotFoundNetwork), cl_ipam c)) as Hr.
  { intros B m. apply bind_Fail, wrap_Fail. unfold find_network, GetNetwork. m_run. by rewrite Hn. }
  destruct DualStackEnabled; eexists; apply bind_Fail, wrap_Fail, on_ipam_read, Hr.
Qed.

(** Unfolds the reads of the controller. *)
Ltac run_reads :=
  unfold node_list, subnet_list, wrapError, reading, ListNodesToNames, ListSubnetsToNames, ListSubnets, wrap, mbind, M_bind,
    lift, get; cbn.

Lemma node_list_run network nodes c :
  r_ListNodes (reader (cl_world c)) (mkListOptions None (default ∅ (ns_NodeSelector (vn_Spec network)))) = Ret nodes →
  node_list network c = (Ret (node_names nodes), c).
Proof. intros Hn. run_reads. by rewrite Hn. Qed.

Lemma subnet_list_run network subnets c :
  r_ListSubnets (reader (cl_world c)) = Ret subnets → subnet_list network c = (Ret (subnet_names network subnets), c).
Proof. intros Hs. run_reads. by rewrite Hs. Qed.

(** The metrics of a status that the controller made never meet a nil count. *)
Lemma updateUsageMetrics_returns name network nodes subnets c c' st :
  network_usage network nodes subnets c = (Ret st, c') → ∃ l, updateUsageMetrics name st = Ret l.
Proof.
  unfold network_usage, updateUsageMetrics. destruct DualStackEnabled; intros Hu; apply bind_Ret_inv in Hu as (u & c1 & _ & Hu).
  - destruct u as [[[v4 v6] dual] subnet_usages]. injection Hu as <- _. by eexists.
  - injection Hu as <- _. by eexists.
Qed.

(** The steps of [update_network] once the reads have returned. *)
Lemma update_network_run network nodes subnets n c :
  r_ListNodes (reader (cl_world c)) (mkListOptions None (default ∅ (ns_NodeSelector (vn_Spec network)))) = Ret nodes →
  r_ListSubnets (reader (cl_world c)) = Ret subnets →
  cl_ipam c !! om_Name (vn_Meta network) = Some n → net_wf n →
  update_network network c =
    let st := status_value network (node_names nodes) (subnet_names network subnets) n in
    (if decide (vn_Status network = st) then mret tt
     else wrapError "unable to update network status"
            (on_world (RetryOnConflict (StatusPatch_Network network (vn_set_Status st network))))) c.
Proof.
  intros Hnodes Hsubnets Hn Hwf. unfold update_network.
  pose proof (usage_run network (node_names nodes) (subnet_names network subnets) _ _ Hn Hwf) as Hu.
  rewrite (bind_Ret _ _ _ _ _ (node_list_run _ _ _ Hnodes)),
    (bind_Ret _ _ _ _ _ (subnet_list_run _ _ _ Hsubnets)), (bind_Ret _ _ _ _ _ Hu).
  cbv zeta. case_decide; [done|].
  destruct (updateUsageMetrics_returns (om_Name (vn_Meta network)) _ _ _ _ _ _ Hu) as [l E]. by rewrite E, bind_lift_Ret.
Qed.

Lemma update_network_fails network c :
  set_wf (cl_ipam c) →
  returns (r_ListNodes (reader (cl_world c)) (mkListOptions None (default ∅ (ns_NodeSelector (vn_Spec network))))) →
  returns (r_ListSubnets (reader (cl_world c))) →
  (∃ nodes subnets n,
     r_ListNodes (reader (cl_world c)) (mkListOptions None (default ∅ (ns_NodeSelector (vn_Spec network)))) = Ret nodes ∧
     r_ListSubnets (reader (cl_world c)) = Ret subnets ∧ cl_ipam c !! om_Name (vn_Meta network) = Some n ∧ net_wf n) ∨
  (∃ e, update_network network c = (Fail e, c)).
Proof.
  intros Hwf Hn Hs.
  destruct (r_ListNodes _ _) as [nodes|e| |] eqn:En; try done.
  2: { right. eexists. apply bind_Fail. run_reads. by rewrite En. }
  destruct (r_ListSubnets _) as [subnets|e| |] eqn:Es; try done.
  2: { right. eexists. unfold update_network. rewrite (bind_Ret _ _ _ _ _ (node_list_run _ _ _ En)). apply bind_Fail.
       run_reads. by rewrite Es. }
  destruct (cl_ipam c !! om_Name (vn_Meta network)) as [n|] eqn:Ei.
  { left. exists nodes, subnets, n. split_and!; [done..|]. by eapply Hwf. }
  right. destruct (usage_missing network (node_names nodes) (subnet_names network subnets) c Ei) as [e He].
  exists e. unfold update_network.
  by rewrite (bind_Ret _ _ _ _ _ (node_list_run _ _ _ En)), (bind_Ret _ _ _ _ _ (subnet_list_run _ _ _ Es)),
    (bind_Fail _ _ _ _ _ He).
Qed.

(** A patch that is tried again. *)
Lemma patch_retried {L : StatusClientLaws} old new w :
  r_GetNetwork (reader w) (om_Name (vn_Meta old)) = Ret old → vn_Meta new = vn_Meta old → vn_Spec new = vn_Spec old →
  post (RetryOnConflict (StatusPatch_Network old new)) w (status_patched old new w).
Proof.
  intros Hr Hm Hs. unfold post. pose proof (status_retry (StatusPatch_Network old new) w) as H.
  remember (RetryOnConflict (StatusPatch_Network old new) w) as res eqn:E. clear E.
  induction H as [w|w w' r Hc _ IH]; [by apply StatusPatch_Network_law|].
  pose proof (StatusPatch_Network_law old new w Hr Hm Hs) as Hw. unfold post in Hw. rewrite Hc in Hw. cbn in Hw.
  rewrite Hw in IH. specialize (IH Hr). unfold status_patched in *. by rewrite Hw in IH.
Qed.

Lemma update_network_spec {L : StatusClientLaws} network c :
  set_wf (cl_ipam c) →
  r_GetNetwork (reader (cl_world c)) (om_Name (vn_Meta network)) = Ret network →
  post (update_network network) c (λ o c', cl_ipam c' = cl_ipam c ∧ match o with
    | Ret _ => ∃ st nodes subnets n,
        r_ListNodes (reader (cl_world c)) (mkListOptions None (default ∅ (ns_NodeSelector (vn_Spec network)))) = Ret nodes ∧
        r_ListSubnets (reader (cl_world c)) = Ret subnets ∧ cl_ipam c !! om_Name (vn_Meta network) = Some n ∧
        exact_status network nodes subnets n st ∧
        (∀ name, r_GetNetwork (reader (cl_world c')) name =
           if decide (name = om_Name (vn_Meta network)) then Ret (vn_set_Status st network)
           else r_GetNetwork (reader (cl_world c)) name) ∧
        update_network (vn_set_Status st network) c' = (Ret tt, c')
    | Fail _ => reader (cl_world c') = reader (cl_world c)
    | _ => False
    end).
Proof.
  intros Hwf Hr.
  destruct (update_network_fails network c Hwf (ListNodes_returns _ _) (ListSubnets_returns _))
    as [(nodes & subnets & n & Hnodes & Hsubnets & Hn & Hnw)|(e & He)]; [|unfold post; by rewrite He].
  unfold post. rewrite (update_network_run network nodes subnets n c) by done. cbv zeta.
  pose proof (status_value_exact network nodes subnets n Hnw) as Hex.
  set (st := status_value network (node_names nodes) (subnet_names network subnets) n) in *.
  assert (∀ c', r_ListNodes (reader (cl_world c')) = r_ListNodes (reader (cl_world c)) →
            r_ListSubnets (reader (cl_world c')) = r_ListSubnets (reader (cl_world c)) → cl_ipam c' = cl_ipam c →
            update_network (vn_set_Status st network) c' = (Ret tt, c')) as Hagain.
  { intros c' E1 E2 E3. rewrite (update_network_run _ nodes subnets n) by (cbn; congruence).
    cbv zeta. rewrite decide_True; [done|]. unfold st, status_value. cbn.
    destruct DualStackEnabled; [destruct (Network_DualStackUsage_spec n Hnw) as (? & ? & _ & _ & ->)|
                                destruct (Network_Usage_spec n Hnw) as (? & ->)]; done. }
  case_decide as Hst.
  - cbn. split; [done|]. exists st, nodes, subnets, n. split_and!; [done..| |by apply Hagain].
    intros name. case_decide as E; [|done]. subst name. rewrite Hr, <-Hst. by destruct network.
  - pose proof (patch_retried network (vn_set_Status st network) (cl_world c) Hr eq_refl eq_refl) as Hp.
    unfold wrapError, wrap, on_world, zoom. unfold post in Hp.
    destruct (RetryOnConflict _ (cl_world c)) as [[[]|e| |] w']; cbn in *; try done.
    destruct Hp as (Hg & E1 & E2). split; [done|]. exists st, nodes, subnets, n. split_and!; [done..|].
    by apply Hagain.
Qed.
End network_status.

(** ** The property *)

(** C38. The controller of network statuses is exact: when it returns without
    an error, the status on the server has the nodes of the selector and the
    subnets of the network, sorted, the sums over the subnets as counters of
    32 bits in which every address is used or available, and, on dual stack,
    the addresses that can be given out in pairs; every other network and the
    allocator are what they were, and doing it again changes nothing.  When it
    returns an error nothing has changed, and it never panics. *)
Theorem NetworkStatus_exact {A : ApiMachinery} {S : Settings} {P : CNIPlugins} {C : Client} {SC : StatusClient}
    {L : StatusClientLaws} name network c :
  set_wf (cl_ipam c) →
  r_GetNetwork (reader (cl_world c)) name = Ret network → om_Name (vn_Meta network) = name →
  post (NetworkStatus_Reconcile name) c (λ o c', cl_ipam c' = cl_ipam c ∧ match o with
    | Ret _ => ∃ st nodes subnets n,
        r_ListNodes (reader (cl_world c)) (mkListOptions None (default ∅ (ns_NodeSelector (vn_Spec network)))) = Ret nodes ∧
        r_ListSubnets (reader (cl_world c)) = Ret subnets ∧ cl_ipam c !! name = Some n ∧
        exact_status network nodes subnets n st ∧
        (∀ count, nst_Statistics st = Some count ∨ nst_IPv6Statistics st = Some count → count_ok count) ∧
        (∀ name', r_GetNetwork (reader (cl_world c')) name' =
           if decide (name' = name) then Ret (vn_set_Status st network) else r_GetNetwork (reader (cl_world c)) name') ∧
        NetworkStatus_Reconcile name c' = (Ret tt, c')
    | Fail _ => reader (cl_world c') = reader (cl_world c)
    | _ => False
    end).
Proof.
  intros Hwf Hr Hname. subst name. unfold NetworkStatus_Reconcile, fetch, post. m_run. rewrite Hr.
  pose proof (update_network_spec network c Hwf Hr) as H. unfold post in H.
  destruct (update_network network c) as [[[]|e| |] c']; cbn in *; try done.
  destruct H as (Hi & st & nodes & subnets & n & H1 & H2 & H3 & Hex & Hg & Hagain). split; [done|].
  exists st, nodes, subnets, n. split_and!; [done..| |done|].
  - intros count Hc. destruct DualStackEnabled eqn:ED.
    + destruct (es_dual _ _ _ _ _ Hex ED) as (_ & _ & E4 & E6 & _). rewrite E4, E6 in Hc.
      destruct Hc as [[= <-]|[= <-]]; apply counts_ok.
    + destruct (es_single _ _ _ _ _ Hex ED) as (_ & _ & E4 & E6 & _). rewrite E4, E6 in Hc.
      destruct Hc as [[= <-]|[=]]; apply counts_ok.
  - rewrite Hg, decide_True by done. exact Hagain.
Qed.

(** ** A server with networks, nodes and subnets *)

Record Server := mkServer { sv_networks : gmap string V1Network; sv_nodes : list Node; sv_subnets : list V1Subnet }.

Definition server_reader (v : Server) : Reader := {|
  r_GetNetwork name := match sv_networks v !! name with Some n => Ret n | None => not_found end;
  r_ListNetworks := Ret (snd <$> map_to_list (sv_networks v)); r_ListNetworksByNode _ := Ret [];
  r_GetSubnet _ := not_found; r_ListSubnets := Ret (sv_subnets v);
  r_GetIPInstance _ _ := not_found; r_ListIPInstances _ := Ret []; r_GetPod _ _ := not_found;
  r_GetNode _ := not_found; r_ListNodes opts := Ret (filter (λ n, opts_match opts (node_Meta n)) (sv_nodes v));
  r_GetNamespace _ := not_found; r_ListRemoteSubnets := Ret []; r_ListRemoteVteps := Ret []; r_ListRemoteClusters := Ret [];
  r_GetRemoteCluster _ := not_found
|}.

Definition server_client : Client :=
  let refused {W A} : M W A := fail (StatusError StatusReasonOther) in {|
  World := Server; reader := server_reader; APIReader := server_reader; RetryOnConflict _ f := f;
  Create_IPInstance _ := refused; Delete_IPInstance _ _ := refused; Patch_IPInstance _ _ _ := refused;
  PatchStatus_IPInstance _ _ _ := refused; Patch_Pod _ _ _ := refused; PatchStatus_Network _ _ := refused;
  PatchStatus_Subnet _ _ := refused; StrategicPatch_Pod _ _ := refused
|}.

Definition set_node (name : string) (f : ObjectMeta → ObjectMeta) (v : Server) : Server :=
  mkServer (sv_networks v)
    (map (λ n, if decide (om_Name (node_Meta n) = name) then mkNode (f (node_Meta n)) (node_Addresses n) else n) (sv_nodes v)) (sv_subnets v).

Definition server_writes : StatusClient (H := server_client) := Build_StatusClient server_client
  (λ old new v, match sv_networks v !! om_Name (vn_Meta old) with
     | Some _ => (Ret tt, mkServer (<[om_Name (vn_Meta old) := new]> (sv_networks v)) (sv_nodes v) (sv_subnets v))
     | None => (not_found, v)
     end)
  (λ old new, fail (StatusError StatusReasonOther))
  (λ name body v, (Ret tt, set_node name (merge_meta body) v))
  (λ old new v, (Ret tt, set_node (om_Name (node_Meta old)) (λ _, node_Meta new) v))
  (λ errs, errors_New "errors").

Lemma server_writes_laws : StatusClientLaws (SC := server_writes).
Proof.
  split; try done.
  - intros X f w. constructor.
  - intros old new w Hr Hm Hs. unfold post. cbn in *.
    destruct (sv_networks w !! om_Name (vn_Meta old)) as [n|] eqn:E; cbn; [|done]. split; [|done].
    intros name. case_decide as Hn.
    + subst name. by rewrite lookup_insert_eq.
    + by rewrite lookup_insert_ne.
Qed.

Definition w_node (name rack : string) : Node := mkNode (mkObjectMeta name "" "" {["rack" := rack]} ∅ [] [] None) [].
Definition w_racked : V1Network :=
  mkV1Network (mkObjectMeta "network1" "" "" ∅ ∅ [] [] None) (mkNetworkSpec (Some {["rack" := "r1"]}) (Some 7) "" "Underlay" "" None)
    (mkNetworkStatus "" "" [] [] None None None).
Definition w_cluster : Cluster (H2 := server_client) :=
  mkCluster (H2 := server_client) (mkServer {["network1" := w_racked]} [w_node "node-b" "r1"; w_node "node-c" "r2"; w_node "node-a" "r1"] []) w_set.

Lemma NetworkStatus_exact_witness :
  ∃ st nodes n, cl_ipam w_cluster !! "network1" = Some n ∧ exact_status (S := w_settings) w_racked nodes [] n st ∧
    nst_NodeList st ≡ₚ ["node-a"; "node-b"] ∧
    r_GetNetwork (reader (cl_world (NetworkStatus_Reconcile (H := api_concrete) (H0 := w_settings) (SC := server_writes)
                                      "network1" w_cluster).2)) "network1" = Ret (vn_set_Status st w_racked).
Proof.
  pose proof (NetworkStatus_exact (A := api_concrete) (S := w_settings) (P := cni_concrete) (L := server_writes_laws)
    "network1" w_racked w_cluster w_set_wf ltac:(vm_compute; reflexivity) eq_refl) as H.
  unfold post in H.
  assert ((NetworkStatus_Reconcile (H := api_concrete) (H0 := w_settings) (SC := server_writes) "network1" w_cluster).1 = Ret tt)
    as E by (vm_compute; reflexivity).
  rewrite E in H. destruct H as (_ & st & nodes & subnets & n & Hn & Hs & Hi & Hex & _ & Hg & _).
  assert (subnets = []) as -> by (vm_compute in Hs; by injection Hs).
  exists st, nodes, n. split; [done|]. split; [exact Hex|]. split.
  - rewrite (proj1 (es_nodes _ _ _ _ _ Hex)).
    assert (nodes = [w_node "node-b" "r1"; w_node "node-a" "r1"]) as -> by (vm_compute in Hn; injection Hn as <-; vm_compute; reflexivity).
    cbn. by rewrite perm_swap.
  - rewrite Hg. by rewrite decide_True.
Defined.

(** On dual stack the field for the last allocated subnet holds an address. *)
Lemma LastAllocatedSubnet_is_address :
  nst_LastAllocatedSubnet (default (vn_Status w_racked) (match
    r_GetNetwork (reader (cl_world (NetworkStatus_Reconcile (H := api_concrete) (H0 := w_settings) (SC := server_writes)
      "network1" (mkCluster (H2 := server_client) (cl_world w_cluster)
                    (DualStack_Allocate DualStack "network1" [] "pod2" "default" w_set).2)).2)) "network1"
    with Ret n => Some (vn_Status n) | _ => None end)) = "10.0.0.6".
Proof. vm_compute. reflexivity. Qed.

(** The controller of quotas patches the last node of the list, once for
    every node; the others keep their labels. *)
Definition w_full : V1Network :=
  vn_set_Status (mkNetworkStatus "" "" [] ["node-a"; "node-b"] (Some (mkCount 4 4 0)) None None) w_racked.

Lemma Quota_patches_last_node :
  (λ n, om_Labels (node_Meta n) !! LabelIPv4AddressQuota) <$>
    sv_nodes (cl_world (Quota_Reconcile (H := api_concrete) (H0 := w_settings) (SC := server_writes) "network1"
      (mkCluster (H2 := server_client) (mkServer {["network1" := w_full]} [w_node "node-a" "r1"; w_node "node-b" "r1"] []) w_set)).2)
  = [None; Some QuotaEmpty].
Proof. vm_compute. reflexivity. Qed.
