(* ===== verification/ManagerRuntime.v ===== *)
(** * Daemons and the hub that guards them (pkg/managerruntime)

    [Daemon] is the interface of the hub to what it guards; its laws are what
    the hub promises with.  [managerRuntime], a controller manager for a remote
    cluster, implements it.  The lock of a runtime is part of its state,
    because one method keeps it; what happens under the lock of the hub is one
    transition of the hub.  controller-runtime's managers are a type [Mgr]. *)

From S2P Require Import Prelude GoNet GoStrings.
Local Open Scope Z_scope.

(** ** interface.go, daemon.go *)

Record daemonStatus := mkDaemonStatus { running : bool; restartCount : Z; terminationMessage : string }.

Class Daemon (D : Type) : Type := {
  Run : M D unit;
  Stop : M D unit;
  Status : D → outcome daemonStatus
}.

(** A daemon that is free answers; [Run] of one that does not run makes it
    run, [Stop] ends it. *)
Class DaemonLaws (D : Type) `{Daemon D} : Type := {
  free_daemon : D → Prop;
  Status_law d : free_daemon d → ∃ s, Status d = Ret s;
  Run_law d s : free_daemon d → Status d = Ret s → running s = false →
    ∃ d' s', Run d = (Ret tt, d') ∧ free_daemon d' ∧ Status d' = Ret s' ∧ running s' = true;
  Stop_law d : free_daemon d →
    ∃ d' s', Stop d = (Ret tt, d') ∧ free_daemon d' ∧ Status d' = Ret s' ∧ running s' = false
}.

(** ** daemonhub.go *)

(** The hub: its daemons by their IDs. *)
Abbreviation daemonHub D := (gmap string D).

Section hub.
Context {D : Type} `{Daemon D}.

Definition NewDaemonHub : daemonHub D := ∅.

(** A nil daemon is [None]. *)
Definition Register (id : string) (daemon : option D) : M (daemonHub D) unit :=
  match daemon with
  | None => fail (Errorf "invalid nil daemon" [])
  | Some daemon =>
      d ← get;
      match d !! id with
      | Some _ => fail (Errorf "daemon %s has been registered" [id])
      | None => put (<[id := daemon]> d)
      end
  end.

Definition IsRegistered (id : string) (d : daemonHub D) : bool := bool_decide (is_Some (d !! id)).

Definition Unregister (id : string) : M (daemonHub D) unit :=
  d ← get;
  match (d : daemonHub D) !! id with
  | None => mret tt
  | Some daemon =>
      status ← lift (Status daemon);
      if running status then fail (Errorf "daemon is running, can not be unregistered" [])
      else put (delete id d)
  end.

Definition Get (id : string) (d : daemonHub D) : option D := d !! id.

Definition on_daemon {A} (id : string) (m : M D A) : M (daemonHub D) A :=
  d ← get;
  match (d : daemonHub D) !! id with
  | None => fail (Errorf "daemon %s not found" [id])
  | Some _ => zoom (λ d, d !! id) (λ daemon d, <[id := daemon]> d) m
  end.

Definition hub_Run (id : string) : M (daemonHub D) unit := on_daemon id Run.
Definition hub_Stop (id : string) : M (daemonHub D) unit := on_daemon id Stop.
End hub.

(** ** manager_runtime.go *)

Section runtime.
Context {Mgr : Type}.

(** [mr_locked]: a call returned without releasing the lock. *)
Record managerRuntime := mkManagerRuntime {
  mr_name : string;
  mr_mgr : Mgr;
  mr_status : daemonStatus;
  mr_locked : bool
}.

Definition mr_set_mgr (v : Mgr) (m : managerRuntime) : managerRuntime :=
  mkManagerRuntime (mr_name m) v (mr_status m) (mr_locked m).
Definition mr_set_status (v : daemonStatus) (m : managerRuntime) : managerRuntime :=
  mkManagerRuntime (mr_name m) (mr_mgr m) v (mr_locked m).
Definition mr_set_locked (v : bool) (m : managerRuntime) : managerRuntime :=
  mkManagerRuntime (mr_name m) (mr_mgr m) (mr_status m) v.

(** [m.Lock()] and [m.RLock()] wait for ever when the lock is not released. *)
Definition mr_Lock : M managerRuntime unit := m ← get; if mr_locked m then lift Diverge else put (mr_set_locked true m).

(** [m.Unlock()] of a lock that nobody holds is a fatal error. *)
Definition mr_Unlock : M managerRuntime unit := m ← get; if mr_locked m then put (mr_set_locked false m) else panic.

Definition mr_RLocked {A} (f : managerRuntime → A) (m : managerRuntime) : outcome A :=
  if mr_locked m then Diverge else Ret (f m).

Definition mr_Manager : managerRuntime → outcome Mgr := mr_RLocked mr_mgr.
Definition mr_Name (m : managerRuntime) : string := mr_name m.
Definition mr_Status : managerRuntime → outcome daemonStatus := mr_RLocked mr_status.

(** The goroutine that is started is [iteration_begin] and [iteration_end],
    again and again, until the context is cancelled by [Stop]. *)
Definition mr_Run : M managerRuntime unit :=
  mr_Lock;;
  m ← get;
  if running (mr_status m) then fail (Errorf "runtime is running, can not run again" [])
  else modify (mr_set_status (mkDaemonStatus true 0 ""));; mr_Unlock.

Definition mr_Stop : M managerRuntime unit :=
  mr_Lock;;
  m ← get;
  (if running (mr_status m) then modify (mr_set_status (mkDaemonStatus false 0 "")) else mret tt);;
  mr_Unlock.

Definition add_restart (message : error → string) (err : error) : M managerRuntime unit :=
  modify (λ m, mr_set_status (mkDaemonStatus (running (mr_status m))
    ((restartCount (mr_status m) + 1 + 2 ^ 31) mod 2 ^ 32 - 2 ^ 31) (message err)) m).

(** The iteration up to [m.mgr.Start(ctx)]: [newManager] is the result of
    [manager.New], [init] the one of [initFunc], [message] the text of an
    error.  It returns whether the manager is started. *)
Definition iteration_begin (message : error → string) (newManager : outcome Mgr) (init : Mgr → outcome unit)
    : M managerRuntime bool :=
  match newManager with
  | Fail err => add_restart message err;; mr_Unlock;; mret false
  | Panic => panic
  | Diverge => lift Diverge
  | Ret newManager =>
      match init newManager with
      | Fail err => add_restart message err;; mr_Unlock;; mret false
      | Panic => panic
      | Diverge => lift Diverge
      | Ret _ => mr_Lock;; modify (mr_set_mgr newManager);; mr_Unlock;; mret true
      end
  end.

(** What follows when [Start] has returned. *)
Definition iteration_end (message : error → string) (started : outcome unit) : M managerRuntime unit :=
  match started with
  | Fail err => mr_Lock;; add_restart message err;; mr_Unlock
  | Ret _ => mret tt
  | Panic => panic
  | Diverge => lift Diverge
  end.

Definition NewManagerRuntime (name : string) (newManager : outcome Mgr) (init : Mgr → outcome unit) : outcome managerRuntime :=
  mgr ← wrap_outcome (Wrapf "unable to create manger: %v" []) newManager;
  wrap_outcome (Wrapf "unable to init manager: %v" []) (init mgr);;
  Ret (mkManagerRuntime name mgr (mkDaemonStatus false 0 "") false).

#[export] Instance managerRuntime_Daemon : Daemon managerRuntime := {| Run := mr_Run; Stop := mr_Stop; Status := mr_Status |}.

(** ** Properties *)

Lemma mr_Run_free m :
  mr_locked m = false →
  mr_Run m = if running (mr_status m) then (Fail (Errorf "runtime is running, can not run again" []), mr_set_locked true m)
             else (Ret tt, mr_set_status (mkDaemonStatus true 0 "") m).
Proof.
  destruct m as [name mgr [r c t] l]. cbn. intros ->. unfold mr_Run, mr_Lock, mr_Unlock. by destruct r.
Qed.

Lemma mr_Stop_free m :
  mr_locked m = false →
  mr_Stop m = (Ret tt, if running (mr_status m) then mr_set_status (mkDaemonStatus false 0 "") m else m).
Proof.
  destruct m as [name mgr [r c t] l]. cbn. intros ->. unfold mr_Stop, mr_Lock, mr_Unlock. by destruct r.
Qed.

#[export] Instance managerRuntime_laws : DaemonLaws managerRuntime.
Proof.
  refine {| free_daemon m := mr_locked m = false |}; cbn; unfold mr_Status, mr_RLocked.
  - intros m ->. eauto.
  - intros m s Hl. rewrite Hl. intros [= <-] Hr. rewrite (mr_Run_free m Hl), Hr.
    eexists _, _. split; [reflexivity|]. cbn. by rewrite Hl.
  - intros m Hl. rewrite (mr_Stop_free m Hl). destruct (running (mr_status m)) eqn:Hr;
      eexists _, _; (split; [reflexivity|]); cbn; by rewrite Hl.
Defined.

(** [Run] of a runtime that runs keeps the lock: every later call waits for
    ever. *)
Lemma Run_twice_locks m :
  mr_locked m = false → running (mr_status m) = true →
  let m' := (mr_Run m).2 in
  (∃ e, (mr_Run m).1 = Fail e) ∧ mr_Status m' = Diverge ∧ mr_Manager m' = Diverge ∧ (mr_Stop m').1 = Diverge ∧
  (mr_Run m').1 = Diverge.
Proof.
  intros Hl Hr. rewrite (mr_Run_free m Hl), Hr. cbn. split; [eauto|]. by destruct m.
Qed.

(** A manager that cannot be created again, or not initialised, ends the
    process: the goroutine unlocks a lock that it does not hold. *)
Lemma iteration_failure_is_fatal m message newManager init err :
  mr_locked m = false → (newManager = Fail err ∨ ∃ mgr, newManager = Ret mgr ∧ init mgr = Fail err) →
  (iteration_begin message newManager init m).1 = Panic.
Proof.
  destruct m as [name mgr0 [r c t] l]. cbn. intros -> [->|(mgr & -> & Hi)]; unfold iteration_begin; rewrite ?Hi; done.
Qed.
End runtime.
Arguments managerRuntime : clear implicits.

Section hub_properties.
Context {D : Type} `{DL : DaemonLaws D}.
Implicit Types (d : daemonHub D) (id : string).

Definition hub_free d : Prop := map_Forall (λ _ daemon, free_daemon daemon) d.

Lemma Stop_registered d id x :
  hub_free d → d !! id = Some x →
  ∃ x' s', hub_Stop id d = (Ret tt, <[id := x']> d) ∧ free_daemon x' ∧ Status x' = Ret s' ∧ running s' = false.
Proof.
  intros Hd Hx. destruct (Stop_law x (Hd _ _ Hx)) as (x' & s' & E & Hf & Hs & Hr). exists x', s'. split; [|done].
  unfold hub_Stop, on_daemon. m_run. rewrite Hx. unfold zoom. by rewrite Hx, E.
Qed.

Lemma Unregister_stopped d id x s :
  d !! id = Some x → Status x = Ret s → running s = false → Unregister id d = (Ret tt, delete id d).
Proof. intros Hx Hs Hr. unfold Unregister. m_run. rewrite Hx. m_run. by rewrite Hs, bind_lift_Ret, Hr. Qed.

(** A daemon leaves the hub only when it does not run. *)
Lemma Unregister_running d id x s :
  d !! id = Some x → Status x = Ret s → running s = true → ∃ e, Unregister id d = (Fail e, d).
Proof. intros Hx Hs Hr. unfold Unregister. m_run. rewrite Hx. m_run. rewrite Hs, bind_lift_Ret, Hr. by eexists. Qed.

Lemma Register_cases d id x :
  Register id (Some x) d = match d !! id with
                           | Some _ => (Fail (Errorf "daemon %s has been registered" [id]), d)
                           | None => (Ret tt, <[id := x]> d)
                           end.
Proof. unfold Register. m_run. by destruct (d !! id). Qed.

Lemma hub_free_insert d id x : hub_free d → free_daemon x → hub_free (<[id := x]> d).
Proof. intros Hd Hx. by apply map_Forall_insert_2. Qed.

Lemma hub_free_delete d id : hub_free d → hub_free (delete id d).
Proof. intros Hd. by apply map_Forall_delete. Qed.
End hub_properties.
