(* ===== verification/Mirror.v ===== *)
(** * The mirror of a remote cluster
      (pkg/controllers/multicluster: remotesubnet_controller.go,
      remotevtep_controller.go, garbagecollection.go)

    For every cluster of a federation, two controllers copy its subnets and
    the tunnel end points of its nodes to the parent cluster, and garbage
    collectors trigger a reconciliation for the copies whose original is gone.
    The controllers read the remote cluster through [r : Reader] and act on
    the parent through [ObjectClient]; the set of the subnets that are known
    to be copied, with its callback, is state that both share.  Logs are left
    out; the present time is an argument. *)

From Stdlib Require Import Ascii.
From S2P Require Import Prelude GoNet GoStrings NetworkingV1 MulticlusterV1 Kubernetes Utils IPAMTypes KubeClient Store ClientUtils PodController Predicates.

Definition LabelCluster : string := "networking.alibaba.com/cluster".
Definition AnnotationNodeVtepIP : string := "networking.alibaba.com/vtep-ip".
Definition AnnotationNodeVtepMac : string := "networking.alibaba.com/vtep-mac".
Definition AnnotationNodeLocalVxlanIPList : string := "networking.alibaba.com/local-vxlan-ip-list".

(** ** Names of the copies *)

Definition generateRemoteSubnetName (clusterName subnetName : string) : string := clusterName +:+ "." +:+ subnetName.
Definition generateVTEPName (clusterName nodeName : string) : string := clusterName +:+ "." +:+ nodeName.

(** [s[strings.Index(s, ".")+1:]]: all of [s] when it has no dot. *)
Fixpoint after_dot (s : string) : option string :=
  match s with
  | EmptyString => None
  | String c s => if decide (c = "."%char) then Some s else after_dot s
  end.

Definition splitSubnetNameFromRemoteSubnetName (remoteSubnetName : string) : string :=
  default remoteSubnetName (after_dot remoteSubnetName).
Definition splitNodeNameFromRemoteVTEPName (remoteVTEPName : string) : string :=
  default remoteVTEPName (after_dot remoteVTEPName).

(** ** The parent cluster *)

Inductive OperationResult := ResultNone | ResultCreated | ResultUpdated.

(** The objects of type [T] on a server [W]; [CreateOrPatch] is the one of
    controllerutil: the function maps the object on the server, or the one
    given when there is none, to the object wanted. *)
Class ObjectClient (W T : Type) : Type := {
  oc_List : W → ListOptions → outcome (list T);
  oc_CreateOrPatch : T → (T → outcome T) → M W (OperationResult * T);
  oc_Delete : string → M W unit;
  (** [Status().Patch(ctx, new, MergeFrom(old))] *)
  oc_StatusPatch : T → T → M W unit
}.

(** [metav1.IsControlledBy], [controllerutil.SetOwnerReference]; the owner is
    the remote cluster, in the scheme of the parent. *)
Class Ownership : Type := {
  IsControlledBy : ObjectMeta → RemoteCluster → bool;
  SetOwnerReference : RemoteCluster → ObjectMeta → outcome ObjectMeta
}.

Definition blank_meta (name : string) : ObjectMeta := mkObjectMeta name "" "" ∅ ∅ [] [] None.

Section mirror.
Context `{ApiMachinery} `{Ownership} {W : Type} `{ObjectClient W RemoteSubnet} `{ObjectClient W RemoteVtep}.

(** The state of both controllers: the parent, the set of copied subnets and
    the nodes in the channel of events. *)
Record Mirror := mkMirror { mi_parent : W; mi_subnets : callbackSet (list string); mi_events : list string }.

Definition on_parent {A} (m : M W A) : M Mirror A :=
  zoom (λ s, Some (mi_parent s)) (λ w s, mkMirror w (mi_subnets s) (mi_events s)) m.
Definition on_subnets {A} (m : M (callbackSet (list string) * list string) A) : M Mirror A :=
  zoom (λ s, Some (mi_subnets s, mi_events s)) (λ c s, mkMirror (mi_parent s) c.1 c.2) m.

Context (ClusterName : string) (ParentClusterObject : RemoteCluster).

(** What the function given to [CreateOrPatch] does first with the metadata. *)
Definition own (terminating : string) (m : ObjectMeta) : outcome ObjectMeta :=
  if decide (om_DeletionTimestamp m ≠ None) then Fail (Errorf terminating [om_Name m])
  else if IsControlledBy m ParentClusterObject then Ret m
  else wrap_outcome (Wrapf "%s: %v" ["unable to set owner reference"]) (SetOwnerReference ParentClusterObject m).

(** ** remotesubnet_controller.go *)

Definition cleanRemoteSubnet (subnetName : string) : M Mirror unit :=
  on_subnets (set_Delete subnetName);;
  s ← get;
  match oc_Delete (T := RemoteSubnet) (generateRemoteSubnetName ClusterName subnetName) (mi_parent s) with
  | (o, w) => put (mkMirror w (mi_subnets s) (mi_events s));; lift (IgnoreNotFound tt o)
  end.

Definition mutate_subnet (subnet : V1Subnet) (network : V1Network) (remoteSubnet : RemoteSubnet) : outcome RemoteSubnet :=
  m ← own "remote subnet %s is terminating, can not be updated" (rs_Meta remoteSubnet);
  Ret (mkRemoteSubnet
    (om_set_Labels (<[LabelSubnet := om_Name (vs_Meta subnet)]> (<[LabelCluster := ClusterName]> (om_Labels m))) m)
    (mkRemoteSubnetSpec (ssp_Range (vs_Spec subnet)) (ns_Type (vn_Spec network)) ClusterName)
    (rs_LastModifyTime remoteSubnet)).

Definition rs_set_LastModifyTime (t : option Z) (rs : RemoteSubnet) : RemoteSubnet := mkRemoteSubnet (rs_Meta rs) (rs_Spec rs) t.

Definition copy_subnet (r : Reader) (now : Z) (name : string) (subnet : V1Subnet) : M Mirror unit :=
  network ← wrapError "unable to get network" (lift (r_GetNetwork r (ssp_Network (vs_Spec subnet))));
  let blank := mkRemoteSubnet (blank_meta (generateRemoteSubnetName ClusterName name))
                 (mkRemoteSubnetSpec (mkAddressRange "" "" "" "" "" [] []) "" "") None in
  result ← wrapError "unable to update remote subnet" (on_parent (oc_CreateOrPatch blank (mutate_subnet subnet network)));
  on_subnets (set_Insert name);;
  match result.1 with
  | ResultNone => mret tt
  | _ => ignore (on_parent (oc_StatusPatch result.2 (rs_set_LastModifyTime (Some now) result.2)))
  end.

Definition RemoteSubnet_Reconcile (r : Reader) (now : Z) (name : string) : M Mirror unit :=
  match r_GetSubnet r name with
  | Ret subnet =>
      if decide (om_DeletionTimestamp (vs_Meta subnet) ≠ None) then ignore (cleanRemoteSubnet name)
      else copy_subnet r now name subnet
  | Fail err =>
      if IsNotFound err then wrapError "unable to clean remote subnet" (cleanRemoteSubnet name)
      else fail (Wrapf "%s: %v" ["unable to get subnet"] err)
  | Panic => panic
  | Diverge => lift Diverge
  end.

(** ** remotevtep_controller.go *)

Definition cleanVTEPForNode (nodeName : string) : M Mirror unit :=
  s ← get;
  match oc_Delete (T := RemoteVtep) (generateVTEPName ClusterName nodeName) (mi_parent s) with
  | (o, w) => put (mkMirror w (mi_subnets s) (mi_events s));; lift (IgnoreNotFound tt o)
  end.

(** The indexer of IP instances: the node is a label. *)
Definition index_instance_node (ip : V1IPInstance) : list string :=
  let nodeName := label (vi_Meta ip) LabelNode in if nonempty nodeName then [nodeName] else [].

Definition endpoint_address (ip : V1IPInstance) : string :=
  IP_String (match ParseCIDR (ad_IP (is_Address (vi_Spec ip))) with Some (a, _) => a | None => [] end).

Definition is_endpoint (subnets : callbackSet (list string)) (ip : V1IPInstance) : bool :=
  set_Has (is_Subnet (vi_Spec ip)) subnets && bool_decide (ist_Phase (vi_Status ip) = IPPhaseUsing).

Definition pickEndpointIPListForNode (r : Reader) (subnets : callbackSet (list string)) (nodeName : string) : outcome (list string) :=
  ipInstanceList ← ListIPInstances r everything;
  let ofNode := filter (λ ip, nodeName ∈ index_instance_node ip) ipInstanceList in
  Ret (sort_Strings (map endpoint_address (filter (λ ip, is_endpoint subnets ip = true) ofNode))).

Definition mutate_vtep (node : Node) (nodeName : string) (endpointIPList : list string) (remoteVTEP : RemoteVtep)
    : outcome RemoteVtep :=
  let of_node := annotation (node_Meta node) in
  m ← own "remote VTEP %s is terminating, can not be updated" (rv_Meta remoteVTEP);
  Ret (mkRemoteVtep
    (om_set_Annotations (<[AnnotationNodeLocalVxlanIPList := of_node AnnotationNodeLocalVxlanIPList]> (om_Annotations m))
       (om_set_Labels (<[LabelNode := om_Name (node_Meta node)]> (<[LabelCluster := ClusterName]> (om_Labels m))) m))
    (mkRemoteVtepSpec ClusterName nodeName (mkVTEPInfo (of_node AnnotationNodeVtepIP) (of_node AnnotationNodeVtepMac)) endpointIPList)
    (rv_LastModifyTime remoteVTEP)).

Definition rv_set_LastModifyTime (t : option Z) (rv : RemoteVtep) : RemoteVtep := mkRemoteVtep (rv_Meta rv) (rv_Spec rv) t.

Definition copy_vtep (r : Reader) (now : Z) (name : string) (node : Node) : M Mirror unit :=
  if negb (nonempty (annotation (node_Meta node) AnnotationNodeVtepIP)) ||
     negb (nonempty (annotation (node_Meta node) AnnotationNodeVtepMac)) then mret tt
  else
    s ← get;
    endpointIPList ← wrapError "unable to pick endpoint IP list for node" (lift (pickEndpointIPListForNode r (mi_subnets s) name));
    let blank := mkRemoteVtep (blank_meta (generateVTEPName ClusterName name)) (mkRemoteVtepSpec "" "" (mkVTEPInfo "" "") []) None in
    result ← wrapError "unable to update VTEP" (on_parent (oc_CreateOrPatch blank (mutate_vtep node name endpointIPList)));
    match result.1 with
    | ResultNone => mret tt
    | _ => ignore (on_parent (oc_StatusPatch result.2 (rv_set_LastModifyTime (Some now) result.2)))
    end.

Definition RemoteVtep_Reconcile (r : Reader) (now : Z) (name : string) : M Mirror unit :=
  match r_GetNode r name with
  | Ret node =>
      if decide (om_DeletionTimestamp (node_Meta node) ≠ None) then ignore (cleanVTEPForNode name)
      else copy_vtep r now name node
  | Fail err =>
      if IsNotFound err then wrapError "unable to clean VTEP for node" (cleanVTEPForNode name)
      else fail (Wrapf "%s: %v" ["unable to get node"] err)
  | Panic => panic
  | Diverge => lift Diverge
  end.

(** The callback of the set: an event for every node; a failed read gives
    none. *)
Definition RefreshAll (r : Reader) : M (list string) unit :=
  match ListNodesToNames r everything with
  | Ret nodeNames => modify (λ events, events ++ nodeNames)
  | Fail _ => mret tt
  | Panic => panic
  | Diverge => lift Diverge
  end.

(** The nodes to reconcile for an IP instance, and the instances that count. *)
Definition instance_to_node (ip : V1IPInstance) : list string := index_instance_node ip.
Definition has_phase (ip : V1IPInstance) : bool := nonempty (ist_Phase (vi_Status ip)).

(** ** garbagecollection.go

    One round of each collector: the events it sends, in some order. *)

Definition copies : ListOptions := mkListOptions None {[LabelCluster := ClusterName]}.

Definition events_of (split : string → string) (expected current : list string) : list string :=
  map split (elements (list_to_set current ∖ list_to_set expected : gset string)).

(** Errors are logged. *)
Definition logged (o : outcome (list string)) : outcome (list string) := match o with Fail _ => Ret [] | o => o end.

Definition RemoteSubnetGarbageCollection (r : Reader) (parent : W) : outcome (list string) := logged (
  subnetList ← ListSubnets r;
  remoteSubnets ← oc_List parent copies;
  Ret (events_of splitSubnetNameFromRemoteSubnetName
         (map (λ s, generateRemoteSubnetName ClusterName (om_Name (vs_Meta s))) subnetList)
         (map (λ rs : RemoteSubnet, om_Name (rs_Meta rs)) remoteSubnets))).

Definition RemoteVTEPGarbageCollection (r : Reader) (parent : W) : outcome (list string) := logged (
  nodeNames ← ListNodesToNames r everything;
  remoteVteps ← oc_List parent copies;
  Ret (events_of splitNodeNameFromRemoteVTEPName
         (map (λ nodeName, generateRemoteSubnetName ClusterName nodeName) nodeNames)
         (map (λ rv : RemoteVtep, om_Name (rv_Meta rv)) remoteVteps))).
End mirror.
