(* ===== verification/MirrorProperties.v ===== *)
(** * The copies of a remote cluster follow the originals *)

From Stdlib Require Import Ascii.
From S2P Require Import Prelude GoNet GoStrings NetworkingV1 MulticlusterV1 Kubernetes Utils IPAMTypes KubeClient Store ClientUtils PodController Predicates Mirror.

(** ** What the mirror relies on *)

Definition rs_set_UID (uid : string) (rs : RemoteSubnet) : RemoteSubnet :=
  mkRemoteSubnet (om_set_UID uid (rs_Meta rs)) (rs_Spec rs) (rs_LastModifyTime rs).
Definition rs_Name (rs : RemoteSubnet) : string := om_Name (rs_Meta rs).

(** The documented effect of the calls on the remote subnets of the parent:
    an object written may get a UID, an object with finalizers is only marked
    by its deletion, calls that fail have no effect. *)
Class RemoteSubnetLaws `{ApiMachinery} (W : Type) {OC : ObjectClient W RemoteSubnet} : Type := {
  rs_view : W → gmap string RemoteSubnet;
  rs_keys w k rs : rs_view w !! k = Some rs → rs_Name rs = k;
  rs_List_law w opts : match oc_List w opts with
    | Ret l => ∀ rs, rs ∈ l ↔ rs_view w !! rs_Name rs = Some rs ∧ opts_match opts (rs_Meta rs)
    | Fail _ => True
    | _ => False
    end;
  rs_CreateOrPatch_law blank f w :
    (∀ rs, match f rs with Ret rs' => rs_Name rs' = rs_Name rs | Fail _ => True | _ => False end) →
    post (oc_CreateOrPatch blank f) w (λ o w', match o with
      | Ret (_, rs) => ∃ rs' uid, f (default blank (rs_view w !! rs_Name blank)) = Ret rs' ∧ rs = rs_set_UID uid rs' ∧
                         rs_view w' = <[rs_Name blank := rs]> (rs_view w)
      | Fail _ => rs_view w' = rs_view w
      | _ => False
      end);
  rs_Delete_law name w :
    post (oc_Delete (T := RemoteSubnet) name) w (λ o w', match o with
      | Ret _ => ∃ rs t, rs_view w !! name = Some rs ∧
          rs_view w' = (if decide (om_Finalizers (rs_Meta rs) = []) then delete name (rs_view w)
                        else <[name := mkRemoteSubnet (om_set_DeletionTimestamp (Some t) (rs_Meta rs)) (rs_Spec rs)
                                        (rs_LastModifyTime rs)]> (rs_view w))
      | Fail e => rs_view w' = rs_view w ∧ (IsNotFound e = true → rs_view w !! name = None)
      | _ => False
      end);
  rs_StatusPatch_law old new w :
    post (oc_StatusPatch old new) w (λ o w', match o with
      | Ret _ => ∃ rs, rs_view w !! rs_Name old = Some rs ∧
                   rs_view w' = <[rs_Name old := rs_set_LastModifyTime (rs_LastModifyTime new) rs]> (rs_view w)
      | Fail _ => rs_view w' = rs_view w
      | _ => False
      end)
}.

(** An owner reference changes nothing but the owners. *)
Class OwnershipLaws `{Ownership} : Prop := {
  SetOwnerReference_law o m : match SetOwnerReference o m with
    | Ret m' => ∃ refs, m' = mkObjectMeta (om_Name m) (om_Namespace m) (om_UID m) (om_Labels m) (om_Annotations m)
                               (om_Finalizers m) refs (om_DeletionTimestamp m)
    | Fail _ => True
    | _ => False
    end
}.

(** ** Names *)

Fixpoint dotless (s : string) : bool :=
  match s with EmptyString => true | String c s => negb (bool_decide (c = "."%char)) && dotless s end.

Lemma after_dot_app c s : dotless c = true → after_dot (c +:+ "." +:+ s) = Some s.
Proof.
  induction c as [|x c IH]; intros H; [done|]. cbn [dotless] in H. apply andb_true_iff in H as [Hx H].
  apply negb_true_iff, bool_decide_eq_false in Hx. change ((String x c +:+ "." +:+ s)) with (String x (c +:+ "." +:+ s)).
  cbn [after_dot]. by rewrite decide_False, IH.
Qed.

Lemma split_generate c s :
  dotless c = true → splitSubnetNameFromRemoteSubnetName (generateRemoteSubnetName c s) = s.
Proof. intros H. unfold splitSubnetNameFromRemoteSubnetName, generateRemoteSubnetName. by rewrite after_dot_app. Qed.

Lemma generate_inj c s s' :
  generateRemoteSubnetName c s = generateRemoteSubnetName c s' → s = s'.
Proof. unfold generateRemoteSubnetName. intros H. by do 2 apply String.app_inj in H. Qed.

(** A cluster with a dot in its name: the event of the collector is for
    another subnet. *)
Lemma split_generate_dot :
  splitSubnetNameFromRemoteSubnetName (generateRemoteSubnetName "east.example" "subnet1") = "example.subnet1".
Proof. reflexivity. Qed.

(** ** The set of copied subnets *)

(** The callback returns: it always does for [RefreshAll]. *)
Definition callback_returns {W} (c : callbackSet W) : Prop :=
  match cs_callbackFunc c with Some f => ∀ w, (f w).1 = Ret tt | None => True end.

Lemma RefreshAll_returns r w :
  match r_ListNodes r everything with Ret _ | Fail _ => True | _ => False end → (RefreshAll r w).1 = Ret tt.
Proof. unfold RefreshAll, ListNodesToNames. by destruct (r_ListNodes r everything). Qed.

Lemma set_and_call_returns {W} f (s : callbackSet W * W) :
  callback_returns s.1 → (set_and_call f s).1 = Ret tt ∧ callback_returns (set_and_call f s).2.1.
Proof.
  destruct s as [[x [g|]] w]; [|done]. unfold callback_returns. cbn. intros Hg.
  unfold set_and_call, mbind, M_bind, zoom. cbn. specialize (Hg w) as Hw. destruct (g w) as [o w']. cbn in *. by subst.
Qed.

Lemma set_Insert_returns {W} x (s : callbackSet W * W) :
  callback_returns s.1 → (set_Insert x s).1 = Ret tt ∧ callback_returns (set_Insert x s).2.1.
Proof. intros Hs. unfold set_Insert. m_run. case_decide; [done|]. exact (set_and_call_returns (λ y, {[x]} ∪ y) s Hs). Qed.

Lemma set_Delete_returns {W} x (s : callbackSet W * W) :
  callback_returns s.1 → (set_Delete x s).1 = Ret tt ∧ callback_returns (set_Delete x s).2.1.
Proof. intros Hs. unfold set_Delete. m_run. case_decide; [|done]. exact (set_and_call_returns (λ y, y ∖ {[x]}) s Hs). Qed.

(** ** The controller of subnets *)

Section mirror_properties.
Context {A : ApiMachinery} {O : Ownership} {W : Type} {OC : ObjectClient W RemoteSubnet} {OL : OwnershipLaws}
  {RL : RemoteSubnetLaws W}.
Context (cluster : string) (owner : RemoteCluster).
Implicit Types (s : Mirror (W := W)) (r : Reader).

Definition view_of s : gmap string RemoteSubnet := rs_view (mi_parent s).
Definition known s : gset string := cs_sets (mi_subnets s).
Definition copy_name (name : string) : string := generateRemoteSubnetName cluster name.

Lemma on_subnets_run (m : M (callbackSet (list string) * list string) unit) s c' :
  m (mi_subnets s, mi_events s) = (Ret tt, c') → on_subnets m s = (Ret tt, mkMirror (mi_parent s) c'.1 c'.2).
Proof. intros E. unfold on_subnets, zoom. by rewrite E. Qed.

Lemma insert_known name s :
  callback_returns (mi_subnets s) →
  ∃ s', on_subnets (set_Insert name) s = (Ret tt, s') ∧ mi_parent s' = mi_parent s ∧
    known s' = {[name]} ∪ known s ∧ callback_returns (mi_subnets s').
Proof.
  intros Hs. destruct (set_Insert_returns name (mi_subnets s, mi_events s) Hs) as [E Hc].
  destruct (set_Insert_sets name (mi_subnets s, mi_events s)) as [Hk _].
  destruct (set_Insert name (mi_subnets s, mi_events s)) as [o c'] eqn:Er. cbn in *. subst o.
  eexists. split; [by apply on_subnets_run|]. done.
Qed.

Lemma delete_known name s :
  callback_returns (mi_subnets s) →
  ∃ s', on_subnets (set_Delete name) s = (Ret tt, s') ∧ mi_parent s' = mi_parent s ∧
    known s' = known s ∖ {[name]} ∧ callback_returns (mi_subnets s').
Proof.
  intros Hs. destruct (set_Delete_returns name (mi_subnets s, mi_events s) Hs) as [E Hc].
  destruct (set_Delete_sets name (mi_subnets s, mi_events s)) as [Hk _].
  destruct (set_Delete name (mi_subnets s, mi_events s)) as [o c'] eqn:Er. cbn in *. subst o.
  eexists. split; [by apply on_subnets_run|]. done.
Qed.

(** What cleaning does to the copies on the parent. *)
Definition cleaned (name : string) (v v' : gmap string RemoteSubnet) : Prop :=
  (v !! name = None ∧ v' = v) ∨
  ∃ rs, v !! name = Some rs ∧
    (om_Finalizers (rs_Meta rs) = [] → v' = delete name v) ∧
    ∀ k, k ≠ name → v' !! k = v !! k.

Lemma clean_spec name s :
  callback_returns (mi_subnets s) →
  post (cleanRemoteSubnet cluster name) s (λ o s', known s' = known s ∖ {[name]} ∧ callback_returns (mi_subnets s') ∧
    match o with
    | Ret _ => cleaned (copy_name name) (view_of s) (view_of s')
    | Fail _ => view_of s' = view_of s
    | _ => False
    end).
Proof.
  intros Hs. unfold cleanRemoteSubnet, post. destruct (delete_known name s Hs) as (s1 & E & Hp & Hk & Hc).
  rewrite (bind_Ret _ _ _ _ _ E). m_run.
  pose proof (rs_Delete_law (copy_name name) (mi_parent s1)) as Hd. unfold post in Hd. fold (copy_name name).
  destruct (oc_Delete (copy_name name) (mi_parent s1)) as [o w'] eqn:Ed. cbn in Hd. rewrite bind_put. unfold view_of, known.
  destruct o as [[]|e| |]; cbn in Hd; try done; cbn.
  - split; [done|]. split; [done|]. rewrite Hp in Hd. destruct Hd as (rs & t & Hrs & Hv). right. exists rs. split; [done|].
    rewrite Hv. case_decide as Hf; split; [done| |by intros Hf'; rewrite Hf' in Hf|]; intros k Hk'.
    + by rewrite lookup_delete_ne.
    + by rewrite lookup_insert_ne.
  - destruct Hd as [Hv Hn]. rewrite Hp in Hv, Hn. destruct (IsNotFound e) eqn:Ee; cbn; split; try done.
    split; [done|]. left. by split; [apply Hn|].
Qed.

(** The copy that the controller makes of a subnet. *)
Definition copied (name : string) (subnet : V1Subnet) (network : V1Network) (rs : RemoteSubnet) : Prop :=
  rs_Name rs = copy_name name ∧
  rs_Spec rs = mkRemoteSubnetSpec (ssp_Range (vs_Spec subnet)) (ns_Type (vn_Spec network)) cluster ∧
  om_Labels (rs_Meta rs) !! LabelCluster = Some cluster ∧
  om_Labels (rs_Meta rs) !! LabelSubnet = Some (om_Name (vs_Meta subnet)) ∧
  om_DeletionTimestamp (rs_Meta rs) = None.

Lemma own_spec text m :
  match own owner text m with
  | Ret m' => om_DeletionTimestamp m = None ∧ om_DeletionTimestamp m' = None ∧ om_Name m' = om_Name m ∧
              om_Labels m' = om_Labels m ∧ om_Finalizers m' = om_Finalizers m
  | Fail _ => True
  | _ => False
  end.
Proof.
  unfold own. case_decide as Hd; [done|]. assert (om_DeletionTimestamp m = None) as Hn by (by destruct (om_DeletionTimestamp m)).
  destruct (IsControlledBy m owner); [done|]. pose proof (SetOwnerReference_law owner m) as H.
  destruct (SetOwnerReference owner m) as [m'|e| |]; cbn; [|done..]. by destruct H as [refs ->].
Qed.

Lemma mutate_spec subnet network rs :
  match mutate_subnet cluster owner subnet network rs with
  | Ret rs' => rs_Name rs' = rs_Name rs ∧
      rs_Spec rs' = mkRemoteSubnetSpec (ssp_Range (vs_Spec subnet)) (ns_Type (vn_Spec network)) cluster ∧
      om_Labels (rs_Meta rs') = <[LabelSubnet := om_Name (vs_Meta subnet)]> (<[LabelCluster := cluster]> (om_Labels (rs_Meta rs))) ∧
      om_DeletionTimestamp (rs_Meta rs') = None
  | Fail _ => True
  | _ => False
  end.
Proof.
  unfold mutate_subnet. pose proof (own_spec "remote subnet %s is terminating, can not be updated" (rs_Meta rs)) as H.
  destruct (own _ _ _) as [m|e| |]; cbn; [|done..]. destruct H as (_ & Hd & Hn & Hl & _). unfold rs_Name. cbn.
  by rewrite Hl.
Qed.

Lemma copy_spec r now name subnet s :
  callback_returns (mi_subnets s) → (match r_GetNetwork r (ssp_Network (vs_Spec subnet)) with Ret _ | Fail _ => True | _ => False end) →
  post (copy_subnet cluster owner r now name subnet) s (λ o s', callback_returns (mi_subnets s') ∧ match o with
    | Ret _ => ∃ network rs, r_GetNetwork r (ssp_Network (vs_Spec subnet)) = Ret network ∧ copied name subnet network rs ∧
        view_of s' = <[copy_name name := rs]> (view_of s) ∧ known s' = {[name]} ∪ known s
    | Fail _ => view_of s' = view_of s ∧ known s' = known s
    | _ => False
    end).
Proof.
  intros Hs Hr. unfold copy_subnet, post. set (blank := mkRemoteSubnet _ _ _).
  destruct (r_GetNetwork r (ssp_Network (vs_Spec subnet))) as [network|e| |] eqn:En; [|by cbn|done..].
  assert (wrapError "unable to get network" (lift (Ret network)) s = (Ret network, s)) as E0 by done.
  rewrite (bind_Ret _ _ _ _ _ E0).
  assert (∀ rs, match mutate_subnet cluster owner subnet network rs with
                | Ret rs' => rs_Name rs' = rs_Name rs | Fail _ => True | _ => False end) as Hkeep.
  { intros rs. pose proof (mutate_spec subnet network rs) as Hm.
    destruct (mutate_subnet _ _ _ _ rs); [|done..]. by destruct Hm. }
  pose proof (rs_CreateOrPatch_law blank (mutate_subnet cluster owner subnet network) (mi_parent s) Hkeep) as Hc.
  unfold post in Hc. destruct (oc_CreateOrPatch blank _ (mi_parent s)) as [o w'] eqn:Ec. cbn [fst snd] in Hc.
  assert (on_parent (oc_CreateOrPatch blank (mutate_subnet cluster owner subnet network)) s
          = (o, mkMirror w' (mi_subnets s) (mi_events s))) as Er by (unfold on_parent, zoom; by rewrite Ec).
  destruct o as [[res rs]|e| |]; [| |done..].
  2: { unfold wrapError. rewrite (bind_Fail _ _ _ _ _ (wrap_Fail _ _ _ _ _ Er)). cbn. split; [done|]. by split. }
  unfold wrapError. rewrite (bind_Ret _ _ _ _ _ (wrap_Ret _ _ _ _ _ Er)).
  destruct Hc as (rs' & uid & Hf & -> & Hv).
  pose proof (mutate_spec subnet network (default blank (rs_view (mi_parent s) !! rs_Name blank))) as Hm.
  rewrite Hf in Hm. destruct Hm as (Hn & Hspec & Hl & Hd).
  assert (rs_Name (default blank (rs_view (mi_parent s) !! rs_Name blank)) = copy_name name) as Hbase.
  { destruct (rs_view (mi_parent s) !! rs_Name blank) as [b|] eqn:Eb; [|done]. cbn. by apply rs_keys in Eb. }
  assert (∀ t, copied name subnet network (rs_set_LastModifyTime t (rs_set_UID uid rs'))) as Hcopied.
  { intros t. split_and!; cbn; [unfold rs_Name in *; cbn; congruence|done|..|done].
    - rewrite Hl, lookup_insert_ne by done. by rewrite lookup_insert_eq.
    - by rewrite Hl, lookup_insert_eq. }
  destruct (insert_known name (mkMirror w' (mi_subnets s) (mi_events s)) Hs) as (s1 & E1 & Hp1 & Hk1 & Hc1).
  cbn [fst snd]. rewrite (bind_Ret _ _ _ _ _ E1). cbn in Hp1. change (rs_Name blank) with (copy_name name) in *.
  assert (∃ rs2, copied name subnet network rs2 ∧ rs_view (mi_parent s1) = <[copy_name name := rs2]> (view_of s)) as H2.
  { exists (rs_set_UID uid rs'). split; [|by rewrite Hp1].
    pose proof (Hcopied (rs_LastModifyTime (rs_set_UID uid rs'))) as H. by destruct rs'. }
  assert (post (ignore (on_parent (oc_StatusPatch (rs_set_UID uid rs') (rs_set_LastModifyTime (Some now) (rs_set_UID uid rs'))))) s1
            (λ o s', callback_returns (mi_subnets s') ∧ o = Ret tt ∧ known s' = {[name]} ∪ known s ∧
               ∃ rs2, copied name subnet network rs2 ∧ view_of s' = <[copy_name name := rs2]> (view_of s))) as Hpatch.
  { unfold post, ignore, on_parent, zoom.
    pose proof (rs_StatusPatch_law (rs_set_UID uid rs') (rs_set_LastModifyTime (Some now) (rs_set_UID uid rs')) (mi_parent s1)) as Hp.
    unfold post in Hp. destruct (oc_StatusPatch _ _ (mi_parent s1)) as [[[]|e| |] w2]; cbn [fst snd] in Hp; try done; cbn; (split; [done|]);
      (split; [done|]); (split; [exact Hk1|]); unfold view_of in *; cbn.
    - destruct Hp as (rs2 & Hrs2 & Hv2). unfold view_of in *. rewrite Hp1, Hv in Hrs2, Hv2.
      assert (rs_Name (rs_set_UID uid rs') = copy_name name) as Hname by (unfold rs_Name in *; cbn; congruence).
      rewrite Hname in Hrs2, Hv2. rewrite lookup_insert_eq in Hrs2. injection Hrs2 as <-.
      eexists. split; [apply (Hcopied (Some now))|]. rewrite Hv2. by rewrite insert_insert_eq.
    - rewrite Hp. exact H2. }
  destruct res; cbn.
  - destruct H2 as (rs2 & H2 & H3). split; [done|]. by exists network, rs2.
  - unfold post in Hpatch. destruct (ignore _ s1) as [o2 s2]. cbn in *. destruct Hpatch as (Hcb & -> & Hk2 & rs2 & H4 & H5).
    split; [done|]. by exists network, rs2.
  - unfold post in Hpatch. destruct (ignore _ s1) as [o2 s2]. cbn in *. destruct Hpatch as (Hcb & -> & Hk2 & rs2 & H4 & H5).
    split; [done|]. by exists network, rs2.
Qed.

(** ** Garbage collection *)

(** The reads of the remote cluster agree with each other. *)
Definition coherent r (subnets : list V1Subnet) : Prop :=
  r_ListSubnets r = Ret subnets ∧
  ∀ name, match r_GetSubnet r name with
          | Ret subnet => subnet ∈ subnets ∧ om_Name (vs_Meta subnet) = name
          | Fail _ => True
          | _ => False
          end.

Definition originals (subnets : list V1Subnet) : list string := map (λ sn, om_Name (vs_Meta sn)) subnets.

Lemma gone_spec r now name subnets s :
  coherent r subnets → name ∉ originals subnets → callback_returns (mi_subnets s) →
  post (RemoteSubnet_Reconcile cluster owner r now name) s (λ o s', callback_returns (mi_subnets s') ∧ match o with
    | Ret _ => cleaned (copy_name name) (view_of s) (view_of s') ∧ known s' = known s ∖ {[name]}
    | Fail _ => view_of s' = view_of s
    | _ => False
    end).
Proof.
  intros [Hl Hg] Hn Hs. specialize (Hg name). unfold RemoteSubnet_Reconcile, post.
  destruct (r_GetSubnet r name) as [subnet|e| |]; try done.
  - exfalso. apply Hn. destruct Hg as [Hin <-]. unfold originals. by apply (list_elem_of_fmap_2 (λ sn, om_Name (vs_Meta sn))).
  - destruct (IsNotFound e); [|done]. pose proof (clean_spec name s Hs) as H. unfold post in H. unfold wrapError, wrap.
    destruct (cleanRemoteSubnet cluster name s) as [[[]|e'| |] s']; cbn in *; naive_solver.
Qed.

(** The reconciliations of the events, one after the other. *)
Lemma collect_spec r now subnets events s s' :
  coherent r subnets → (∀ name, name ∈ events → name ∉ originals subnets) → callback_returns (mi_subnets s) →
  (∀ name rs, name ∈ events → view_of s !! copy_name name = Some rs → om_Finalizers (rs_Meta rs) = []) →
  each (RemoteSubnet_Reconcile cluster owner r now) events s = (Ret tt, s') →
  (∀ name, name ∈ events → view_of s' !! copy_name name = None ∧ name ∉ known s') ∧
  (∀ k, (∀ name, name ∈ events → k ≠ copy_name name) → view_of s' !! k = view_of s !! k).
Proof.
  intros Hr. revert s. induction events as [|x events IH]; intros s Hn Hs Hf E; cbn [each] in E.
  { injection E as <-. split; [by intros name ?%elem_of_nil|done]. }
  apply bind_Ret_inv in E as ([] & s1 & E1 & E).
  pose proof (gone_spec r now x subnets s Hr (Hn x ltac:(left)) Hs) as H1. unfold post in H1. rewrite E1 in H1. cbn in H1.
  destruct H1 as (Hs1 & Hc & Hk).
  assert (∀ k, k ≠ copy_name x → view_of s1 !! k = view_of s !! k) as Hother.
  { intros k Hkx. destruct Hc as [[_ ->]|(rs & _ & _ & Ho)]; [done|by apply Ho]. }
  assert (view_of s1 !! copy_name x = None) as Hx.
  { destruct Hc as [[Hx ->]|(rs & Hx & Hd & _)]; [done|]. rewrite Hd by (by eapply Hf; [left|]). by rewrite lookup_delete_eq. }
  destruct (IH s1) as [Ha Hb]; [naive_solver set_solver|done| |done|].
  { intros name rs Hin Hrs. destruct (decide (copy_name name = copy_name x)) as [Ex|Hne]; [by rewrite Ex, Hx in Hrs|].
    rewrite Hother in Hrs by done. eapply Hf; [by right|done]. }
  assert (∀ y s2 s3, callback_returns (mi_subnets s2) → y ∉ known s2 → (∀ z, z ∈ events → z ∉ originals subnets) →
            each (RemoteSubnet_Reconcile cluster owner r now) events s2 = (Ret tt, s3) → y ∉ known s3) as Hgone.
  { clear -Hr OL RL. induction events as [|z events IH]; intros y s2 s3 Hs Hy Hn E; cbn [each] in E; [by injection E as <-|].
    apply bind_Ret_inv in E as ([] & s4 & E4 & E).
    pose proof (gone_spec r now z subnets s2 Hr (Hn z ltac:(left)) Hs) as H. unfold post in H. rewrite E4 in H.
    destruct H as (Hs4 & _ & Hk). eapply IH; [exact Hs4|rewrite Hk; set_solver|set_solver|done]. }
  split.
  - intros name [->|Hin]%elem_of_cons; [|by apply Ha].
    split; [|eapply Hgone; [exact Hs1|rewrite Hk; set_solver|set_solver|done]].
    destruct (decide (x ∈ events)) as [Hin|Hni]; [by apply Ha|]. rewrite Hb; [done|].
    intros name Hin Ex. apply generate_inj in Ex. by subst.
  - intros k Hkn. rewrite Hb by (intros; apply Hkn; by right). apply Hother. apply Hkn. left.
Qed.

(** The events are the copies without an original. *)
Lemma events_spec expected current :
  dotless cluster = true →
  (∀ k, k ∈ current → ∃ name, k = copy_name name) →
  ∀ name, name ∈ events_of splitSubnetNameFromRemoteSubnetName (map copy_name expected) current ↔
          copy_name name ∈ current ∧ name ∉ expected.
Proof.
  intros Hd Hc name. unfold events_of. rewrite list_elem_of_fmap. split.
  - intros (k & -> & Hk). rewrite elem_of_elements, elem_of_difference, !elem_of_list_to_set in Hk. destruct Hk as [Hk Hn].
    destruct (Hc k Hk) as [name ->]. unfold copy_name in *. rewrite split_generate by done. split; [done|].
    intros He. apply Hn. by apply (list_elem_of_fmap_2 (generateRemoteSubnetName cluster)).
  - intros [Hk Hn]. exists (copy_name name). unfold copy_name. rewrite split_generate by done. split; [done|].
    rewrite elem_of_elements, elem_of_difference, !elem_of_list_to_set. split; [done|].
    intros (name' & E & Hin)%list_elem_of_fmap. apply generate_inj in E. by subst.
Qed.

Lemma gc_spec r subnets s :
  dotless cluster = true → r_ListSubnets r = Ret subnets →
  (∀ k rs, view_of s !! k = Some rs → om_Labels (rs_Meta rs) !! LabelCluster = Some cluster → ∃ name, k = copy_name name) →
  ∃ events, RemoteSubnetGarbageCollection cluster r (mi_parent s) = Ret events ∧
    ((∃ e, oc_List (T := RemoteSubnet) (mi_parent s) (copies cluster) = Fail e) ∨
     (∀ name, name ∈ events ↔ ((name ∉ originals subnets) ∧
        ∃ rs, view_of s !! copy_name name = Some rs ∧ om_Labels (rs_Meta rs) !! LabelCluster = Some cluster))).
Proof.
  intros Hd Hl Hc. unfold RemoteSubnetGarbageCollection, ListSubnets. rewrite Hl. cbn [mbind outcome_bind].
  pose proof (rs_List_law (mi_parent s) (copies cluster)) as H.
  destruct (oc_List (mi_parent s) (copies cluster)) as [l|e| |]; try done; cbn.
  2: { exists []. split; [done|left; eauto]. }
  assert (∀ rs, opts_match (copies cluster) (rs_Meta rs) ↔ om_Labels (rs_Meta rs) !! LabelCluster = Some cluster) as Hm.
  { intros rs. unfold opts_match, copies. cbn [lo_Namespace lo_MatchingLabels]. rewrite map_singleton_subseteq_l. tauto. }
  eexists. split; [reflexivity|]. right. intros name.
  assert (map (λ sn, generateRemoteSubnetName cluster (om_Name (vs_Meta sn))) subnets = map copy_name (originals subnets)) as ->.
  { unfold originals. by rewrite map_map. }
  rewrite events_spec; [|done|].
  - rewrite list_elem_of_fmap. split.
    + intros [(rs & E & Hrs) Hn]. split; [done|]. apply H in Hrs as [Hrs Hlab]. exists rs. rewrite E. by rewrite <-Hm.
    + intros [Hn (rs & Hrs & Hlab)]. split; [|done]. exists rs. pose proof (rs_keys _ _ _ Hrs) as E. unfold rs_Name in E.
      split; [done|]. apply H. rewrite Hm. unfold rs_Name. by rewrite E.
  - intros k (rs & -> & Hrs)%list_elem_of_fmap. apply H in Hrs as [Hrs Hlab]. apply Hm in Hlab. by apply (Hc _ _ Hrs).
Qed.
End mirror_properties.

(** ** The property *)

(** A copy of the cluster, by its label, whose original is gone. *)
Definition orphan (cluster : string) (subnets : list V1Subnet) (v : gmap string RemoteSubnet) (k : string) : Prop :=
  ∃ name rs, k = copy_name cluster name ∧ (name ∉ originals subnets) ∧ v !! k = Some rs ∧
    om_Labels (rs_Meta rs) !! LabelCluster = Some cluster.

(** C39. The copies of a remote cluster follow the originals.  When the
    reconciliation of a subnet that exists and is not being deleted returns,
    the parent has its copy with the range, the type of its network and the
    labels, no other remote subnet has changed and the subnet is known to be
    copied; when it fails nothing has changed.  The garbage collector's round
    always returns events; when it could list the copies and the
    reconciliations of these events all return, the copies whose subnet is
    gone have been removed and every other remote subnet of the parent, of
    whatever cluster, is as it was.  This is for a cluster whose name has no
    dot, whose label only its copies have, none of them with finalizers; the
    reads of the remote cluster return, and its list and its lookups of
    subnets agree ([coherent]). *)
Theorem mirror_follows {A : ApiMachinery} {O : Ownership} {W : Type} {OC : ObjectClient W RemoteSubnet} {OL : OwnershipLaws}
    {RL : RemoteSubnetLaws W} cluster owner r now subnets (s : Mirror (W := W)) :
  dotless cluster = true → coherent r subnets → (∀ name, match r_GetNetwork r name with Ret _ | Fail _ => True | _ => False end) →
  callback_returns (mi_subnets s) →
  (∀ k rs, view_of s !! k = Some rs → om_Labels (rs_Meta rs) !! LabelCluster = Some cluster →
     (∃ name, k = copy_name cluster name) ∧ om_Finalizers (rs_Meta rs) = []) →
  (∀ name subnet, r_GetSubnet r name = Ret subnet → om_DeletionTimestamp (vs_Meta subnet) = None →
     post (RemoteSubnet_Reconcile cluster owner r now name) s (λ o s', match o with
       | Ret _ => ∃ network rs, r_GetNetwork r (ssp_Network (vs_Spec subnet)) = Ret network ∧
           copied cluster name subnet network rs ∧
           view_of s' = <[copy_name cluster name := rs]> (view_of s) ∧ known s' = {[name]} ∪ known s
       | Fail _ => view_of s' = view_of s ∧ known s' = known s
       | _ => False
       end)) ∧
  ∃ events, RemoteSubnetGarbageCollection cluster r (mi_parent s) = Ret events ∧
    ∀ l s', oc_List (T := RemoteSubnet) (mi_parent s) (copies cluster) = Ret l →
      each (RemoteSubnet_Reconcile cluster owner r now) events s = (Ret tt, s') →
      ∀ k, (orphan cluster subnets (view_of s) k → view_of s' !! k = None) ∧
           (¬ orphan cluster subnets (view_of s) k → view_of s' !! k = view_of s !! k).
Proof.
  intros Hd Hr Hnet Hs Hcopies. split.
  - intros name subnet Hg Ht. unfold RemoteSubnet_Reconcile, post. rewrite Hg, decide_False by (by intros H; apply H).
    pose proof (copy_spec cluster owner r now name subnet s Hs (Hnet _)) as H. unfold post in H.
    destruct (copy_subnet cluster owner r now name subnet s) as [[[]|e| |] s']; cbn in *; naive_solver.
  - destruct (gc_spec cluster r subnets s Hd (proj1 Hr)) as (events & E & He).
    { intros k rs Hk Hlab. by apply (Hcopies k rs). }
    exists events. split; [done|]. intros l s' Hlist Hrun k. destruct He as [[e He]|He]; [congruence|].
    destruct (collect_spec cluster owner r now subnets events s s' Hr) as [Hgone Hkeep]; [|done| |done|].
    { intros name Hin. by apply He. }
    { intros name rs (_ & rs' & Hrs' & Hlab)%He Hrs. rewrite Hrs in Hrs'. injection Hrs' as <-. by apply (Hcopies _ rs Hrs). }
    split.
    + intros (name & rs & -> & Hn & Hk & Hlab). apply Hgone, He. eauto.
    + intros Hno. apply Hkeep. intros name (Hn & rs & Hrs & Hlab)%He ->. apply Hno. by exists name, rs.
Qed.

(** ** A parent that satisfies the laws *)

Definition parent_view (w : gmap string RemoteSubnet) : gmap string RemoteSubnet := filter (λ kv, rs_Name kv.2 = kv.1) w.

Definition parent_client : ObjectClient (gmap string RemoteSubnet) RemoteSubnet := {|
  oc_List w opts := Ret (filter (λ rs, opts_match opts (rs_Meta rs)) (snd <$> map_to_list (parent_view w)));
  oc_CreateOrPatch blank f w :=
    match f (default blank (parent_view w !! rs_Name blank)) with
    | Ret rs => (Ret (ResultUpdated, rs), <[rs_Name blank := rs]> (parent_view w))
    | Fail e => (Fail e, w)
    | Panic => (Panic, w)
    | Diverge => (Diverge, w)
    end;
  oc_Delete name w :=
    match parent_view w !! name with
    | Some rs => (Ret tt, if decide (om_Finalizers (rs_Meta rs) = []) then delete name (parent_view w)
                          else <[name := mkRemoteSubnet (om_set_DeletionTimestamp (Some 0%Z) (rs_Meta rs)) (rs_Spec rs)
                                          (rs_LastModifyTime rs)]> (parent_view w))
    | None => (not_found, w)
    end;
  oc_StatusPatch old new w :=
    match parent_view w !! rs_Name old with
    | Some rs => (Ret tt, <[rs_Name old := rs_set_LastModifyTime (rs_LastModifyTime new) rs]> (parent_view w))
    | None => (not_found, w)
    end
|}.

Lemma parent_view_lookup w k rs : parent_view w !! k = Some rs ↔ w !! k = Some rs ∧ rs_Name rs = k.
Proof. unfold parent_view. by rewrite map_lookup_filter_Some. Qed.

Lemma parent_view_idem w : parent_view (parent_view w) = parent_view w.
Proof. apply map_filter_id. intros k rs H. by apply parent_view_lookup in H as [_ ?]. Qed.

Lemma parent_view_insert w k rs : rs_Name rs = k → parent_view (<[k := rs]> (parent_view w)) = <[k := rs]> (parent_view w).
Proof. intros H. unfold parent_view at 1. rewrite map_filter_insert_True by done. fold (parent_view (parent_view w)). by rewrite parent_view_idem. Qed.

Lemma parent_view_delete w k : parent_view (delete k (parent_view w)) = delete k (parent_view w).
Proof. unfold parent_view at 1. rewrite map_filter_delete. fold (parent_view (parent_view w)). by rewrite parent_view_idem. Qed.

#[export] Instance parent_laws : RemoteSubnetLaws (H := api_concrete) (gmap string RemoteSubnet) (OC := parent_client).
Proof.
  refine {| rs_view := parent_view : gmap string RemoteSubnet → _ |}.
  - intros w k rs H. by apply parent_view_lookup in H as [_ ?].
  - intros w opts. cbn. intros rs. rewrite list_elem_of_filter, list_elem_of_fmap. split.
    + intros (Hm & [k rs'] & -> & Hin). apply elem_of_map_to_list in Hin. cbn in *.
      pose proof (proj2 (proj1 (parent_view_lookup _ _ _) Hin)) as E. by rewrite E.
    + intros [Hl Hm]. split; [done|]. exists (rs_Name rs, rs). split; [done|]. by apply elem_of_map_to_list.
  - intros blank f w Hf. unfold post. cbn.
    assert (rs_Name (default blank (parent_view w !! rs_Name blank)) = rs_Name blank) as Hn.
    { destruct (parent_view w !! rs_Name blank) as [b|] eqn:E; [|done]. by apply parent_view_lookup in E as [_ ?]. }
    specialize (Hf (default blank (parent_view w !! rs_Name blank))).
    destruct (f _) as [rs|e| |] eqn:E; cbn; try done.
    exists rs, (om_UID (rs_Meta rs)). split; [done|]. split; [by destruct rs as [[] ? ?]|].
    apply parent_view_insert. congruence.
  - intros name w. unfold post. cbn. destruct (parent_view w !! name) as [rs|] eqn:E; cbn; [|done].
    exists rs, 0%Z. split; [done|]. case_decide; [apply parent_view_delete|]. apply parent_view_insert.
    by apply parent_view_lookup in E as [_ ?].
  - intros old new w. unfold post. cbn. destruct (parent_view w !! rs_Name old) as [rs|] eqn:E; cbn; [|done].
    exists rs. split; [done|]. apply parent_view_insert. by apply parent_view_lookup in E as [_ ?].
Defined.

Definition owner_concrete : Ownership := {|
  IsControlledBy m o := bool_decide (Exists (λ r, or_UID r = om_UID (rc_Meta o) ∧ or_Controller r = Some true) (om_OwnerReferences m));
  SetOwnerReference o m := Ret (mkObjectMeta (om_Name m) (om_Namespace m) (om_UID m) (om_Labels m) (om_Annotations m)
    (om_Finalizers m)
    (mkOwnerReference "multicluster.alibaba.com/v1" "RemoteCluster" (om_Name (rc_Meta o)) (om_UID (rc_Meta o)) None None
       :: om_OwnerReferences m) (om_DeletionTimestamp m))
|}.

Lemma owner_concrete_laws : OwnershipLaws (H := owner_concrete).
Proof. split. intros o m. cbn. eauto. Qed.

(** ** A cluster with one subnet, and a copy of another one that is gone *)

Definition w_range : AddressRange := mkAddressRange "4" "" "" "10.0.0.0/24" "10.0.0.1" [] [].
Definition w_original : V1Subnet :=
  mkV1Subnet (blank_meta "subnet1") (mkSubnetSpec w_range None "network1" None) (mkSubnetStatus (mkCount 0 0 0) "").
Definition w_original_network : V1Network :=
  mkV1Network (blank_meta "network1") (mkNetworkSpec None None "" "Underlay" "" None) (mkNetworkStatus "" "" [] [] None None None).

Definition w_remote : Reader := {|
  r_GetNetwork name := if decide (name = "network1") then Ret w_original_network else not_found;
  r_ListNetworks := Ret [w_original_network]; r_ListNetworksByNode _ := Ret [];
  r_GetSubnet name := if decide (name = "subnet1") then Ret w_original else not_found; r_ListSubnets := Ret [w_original];
  r_GetIPInstance _ _ := not_found; r_ListIPInstances _ := Ret []; r_GetPod _ _ := not_found;
  r_GetNode _ := not_found; r_ListNodes _ := Ret []; r_GetNamespace _ := not_found;
  r_ListRemoteSubnets := Ret []; r_ListRemoteVteps := Ret []; r_ListRemoteClusters := Ret []; r_GetRemoteCluster _ := not_found
|}.

Definition w_orphan : RemoteSubnet :=
  mkRemoteSubnet (om_set_Labels {[LabelCluster := "east"]} (blank_meta "east.old")) (mkRemoteSubnetSpec w_range "Underlay" "east") None.
(** A copy of another cluster. *)
Definition w_west : RemoteSubnet :=
  mkRemoteSubnet (om_set_Labels {[LabelCluster := "west"]} (blank_meta "west.old")) (mkRemoteSubnetSpec w_range "Underlay" "west") None.
Definition w_owner : RemoteCluster :=
  mkRemoteCluster (blank_meta "east") (mkRemoteClusterSpec "" [] [] [] 0) (mkRemoteClusterStatus "uuid-1" "" []).
Definition w_mirror : Mirror (W := gmap string RemoteSubnet) :=
  mkMirror (<["west.old" := w_west]> {["east.old" := w_orphan]}) (WithCallback (RefreshAll w_remote) NewCallbackSet) [].

Definition w_reconcile (name : string) : M (Mirror (W := gmap string RemoteSubnet)) unit :=
  RemoteSubnet_Reconcile (H := api_concrete) (H0 := owner_concrete) (H1 := parent_client) "east" w_owner w_remote 5%Z name.

Lemma w_coherent : coherent w_remote [w_original].
Proof. split; [done|]. intros name. cbn. case_decide; [|done]. subst. split; [by left|done]. Qed.

Lemma w_mirror_view k rs : view_of (RL := parent_laws) w_mirror !! k = Some rs →
  (k = "west.old" ∧ rs = w_west) ∨ (k = "east.old" ∧ rs = w_orphan).
Proof.
  intros [Hk _]%parent_view_lookup.
  change ((<["west.old" := w_west]> {["east.old" := w_orphan]} : gmap string RemoteSubnet) !! k = Some rs) in Hk.
  apply lookup_insert_Some in Hk as [[<- <-]|[_ Hk]]; [by left|right].
  by apply lookup_singleton_Some in Hk as [<- <-].
Qed.

Lemma mirror_follows_witness :
  (∃ rs, view_of (RL := parent_laws) (w_reconcile "subnet1" w_mirror).2 !! "east.subnet1" = Some rs ∧
     copied "east" "subnet1" w_original w_original_network rs) ∧
  view_of (RL := parent_laws) (each w_reconcile ["old"] w_mirror).2 !! "east.old" = None ∧
  view_of (RL := parent_laws) (each w_reconcile ["old"] w_mirror).2 !! "west.old" = Some w_west.
Proof.
  destruct (mirror_follows (A := api_concrete) (O := owner_concrete) (OL := owner_concrete_laws) (RL := parent_laws)
    "east" w_owner w_remote 5%Z [w_original] w_mirror) as [Hcopy (events & Hev & Hgc)].
  - reflexivity.
  - exact w_coherent.
  - intros name. cbn. by case_decide.
  - intros w. cbn. reflexivity.
  - intros k rs [[-> ->]|[-> ->]]%w_mirror_view Hlab; [discriminate|]. split; [by exists "old"|reflexivity].
  - split.
    + pose proof (Hcopy "subnet1" w_original eq_refl eq_refl) as H. unfold post in H.
      assert ((w_reconcile "subnet1" w_mirror).1 = Ret tt) as E by (vm_compute; reflexivity).
      unfold w_reconcile in E. rewrite E in H. destruct H as (network & rs & Hn & Hc & Hv & _).
      exists rs. split; [unfold w_reconcile; rewrite Hv; by rewrite lookup_insert_eq|]. injection Hn as <-. exact Hc.
    + assert (events = ["old"]) as -> by (vm_compute in Hev; by injection Hev).
      pose proof (λ l Hl, Hgc l (each w_reconcile ["old"] w_mirror).2 Hl) as H.
      specialize (H _ eq_refl). lapply H; clear H; [intros H|].
      * split; [apply H|etrans; [apply H|]].
        -- exists "old", w_orphan. split; [reflexivity|]. split; [by apply not_elem_of_cons; split; [|apply not_elem_of_nil]|].
           split; reflexivity.
        -- intros (name & rs & E & _). discriminate.
        -- reflexivity.
      * assert ((each w_reconcile ["old"] w_mirror).1 = Ret tt) as E by (vm_compute; reflexivity).
        rewrite <-E. apply surjective_pairing.
Defined.
