(* ===== verification/ClusterChecker.v ===== *)
(** * The checks of a remote cluster (pkg/controllers/multicluster/clusterchecker)

    A check reads the remote cluster through its manager, and the local one.
    What the manager answers is [ClusterManager]: its reader, and the body of
    a request of /healthz by the discovery client.  The time of a result is an
    argument. *)

From S2P Require Import Prelude GoNet GoStrings CNIPlugins Allocator NetworkingV1 MulticlusterV1 Kubernetes Utils KubeClient Store ClientUtils Mirror.

Record ClusterManager := mkClusterManager { cm_APIReader : Reader; cm_healthz : outcome string }.

(** ** result.go, options.go *)

Record CheckResult := mkCheckResult { result_err : option error; result_timeStamp : Z }.

Definition NewResult (now : Z) (err : option error) : CheckResult := mkCheckResult err now.
Definition Succeed (r : CheckResult) : bool := bool_decide (result_err r = None).
Definition TimeStamp (r : CheckResult) : Z := result_timeStamp r.

Record Options := mkOptions { o_ClusterName : string }.

(** The two kinds of options, and their effect. *)
Inductive Option_ := ClusterName (c : string) | RawOptions (o : Options).
Definition ApplyToOptions (opt : Option_) (o : Options) : Options :=
  match opt with ClusterName c => mkOptions c | RawOptions r => r end.
Definition ToOptions (opts : list Option_) : Options := foldl (λ o opt, ApplyToOptions opt o) (mkOptions "") opts.

Definition Check : Type := ClusterManager → list Option_ → outcome CheckResult.

Section checks.
Context `{CNIPlugins} `{StrSets} (now : Z).

(** An error of a read is the result of the check. *)
Definition with_read {B} (o : outcome B) (wrapping : error → error) (f : B → outcome CheckResult) : outcome CheckResult :=
  match o with
  | Ret b => f b
  | Fail err => Ret (NewResult now (Some (wrapping err)))
  | Panic => Panic
  | Diverge => Diverge
  end.

(** ** healthz.go *)

Definition Healthz_Check : Check := λ clusterManager _,
  with_read (cm_healthz clusterManager) id (λ body,
    Ret (NewResult now (if EqualFold body "ok" then None else Some (Errorf "unexpected body %s" [body])))).

(** ** bidirection.go *)

Definition Bidirection_Check (LocalUUID : string) : Check := λ clusterManager _,
  with_read (ListRemoteClusters (cm_APIReader clusterManager)) id (λ remoteClusterList,
    let peered := existsb (λ rc, bool_decide (rc_UUID (rc_Status rc) = LocalUUID)) remoteClusterList in
    Ret (NewResult now (if peered then None
      else Some (errors_New "remote cluster has no bidrectional connection peered with local cluster")))).

(** ** overlaynetid.go *)

(** A net ID that is not set is a nil pointer. *)
Definition OverlayNetID_Check (LocalClient : Reader) : Check := λ clusterManager _,
  with_read (FindOverlayNetworkNetID LocalClient) (Wrapf "unable to find overlay net ID of local cluster: %v" []) (λ local,
  with_read (FindOverlayNetworkNetID (cm_APIReader clusterManager)) (Wrapf "unable to find overlay net ID of remote cluster: %v" [])
    (λ remote,
      localOverlayNetID ← deref local;
      remoteOverlayNetID ← deref remote;
      Ret (NewResult now (if decide (localOverlayNetID = remoteOverlayNetID) then None
        else Some (Errorf "overlay net id must match between local cluster %d and remote cluster %d" []))))).

(** ** subnet.go *)

(** The first element with a conflict ends the loop. *)
Fixpoint first_conflict {B} (f : B → outcome (option error)) (l : list B) : outcome (option error) :=
  match l with
  | [] => Ret None
  | x :: l => found ← f x; match found with Some err => Ret (Some err) | None => first_conflict f l end
  end.

Definition loopback (cluster : string) (subnetOfCluster : V1Subnet) (localRemoteSubnet : RemoteSubnet) : bool :=
  bool_decide (label (rs_Meta localRemoteSubnet) LabelCluster = cluster) &&
  bool_decide (label (rs_Meta localRemoteSubnet) LabelSubnet = om_Name (vs_Meta subnetOfCluster)).

Definition subnet_conflict (cluster : string) (localSubnets : list V1Subnet) (localRemoteSubnets : list RemoteSubnet)
    (subnetOfCluster : V1Subnet) : outcome (option error) :=
  let range := ssp_Range (vs_Spec subnetOfCluster) in
  let name := om_Name (vs_Meta subnetOfCluster) in
  found ← first_conflict (λ localSubnet,
    crossed ← Intersect range (ssp_Range (vs_Spec localSubnet));
    Ret (if crossed : bool
         then Some (Errorf "subnet %s in cluster intersect with local subnet %s" [name; om_Name (vs_Meta localSubnet)])
         else None)) localSubnets;
  match found with
  | Some err => Ret (Some err)
  | None =>
      first_conflict (λ localRemoteSubnet,
        if loopback cluster subnetOfCluster localRemoteSubnet then Ret None
        else
          crossed ← Intersect range (rs_Range (rs_Spec localRemoteSubnet));
          Ret (if crossed : bool
               then Some (Errorf "subnet %s in cluster intersect with local remote subnet %s" [name; om_Name (rs_Meta localRemoteSubnet)])
               else None)) localRemoteSubnets
  end.

Definition Subnet_Check (LocalClient : Reader) : Check := λ clusterManager opts,
  let options := ToOptions opts in
  with_read (ListSubnets (cm_APIReader clusterManager)) id (λ subnetsOfCluster,
  with_read (ListSubnets LocalClient) id (λ localSubnets,
  with_read (ListRemoteSubnets LocalClient) id (λ localRemoteSubnets,
    found ← first_conflict (subnet_conflict (o_ClusterName options) localSubnets localRemoteSubnets) subnetsOfCluster;
    Ret (NewResult now found)))).
End checks.

(** ** checker.go *)

Definition NewChecker : gmap string Check := ∅.

(** A nil check is [None]. *)
Definition checker_Register (name : string) (check : option Check) : M (gmap string Check) unit :=
  match check with
  | None => fail (Errorf "check can not be null" [])
  | Some check =>
      c ← get;
      match c !! name with
      | Some _ => fail (Errorf "check %s has been registered" [name])
      | None => put (<[name := check]> c)
      end
  end.

Definition checker_Unregister (name : string) : M (gmap string Check) unit := modify (delete name).

(** The checks are independent of each other. *)
Definition CheckAll (checkMap : gmap string Check) (clusterManager : option ClusterManager) (opts : list Option_)
    : outcome (gmap string CheckResult) :=
  match clusterManager with
  | None => Fail (Errorf "cluster manager can not be null" [])
  | Some clusterManager =>
      for_each (λ ret kv, result ← kv.2 clusterManager [RawOptions (ToOptions opts)]; Ret (<[kv.1 := result]> ret)) ∅
        (map_to_list checkMap)
  end.

Definition checker_Check (checkMap : gmap string Check) (name : string) (clusterManager : ClusterManager) (opts : list Option_)
    : outcome CheckResult :=
  match checkMap !! name with
  | Some check => check clusterManager opts
  | None => Fail (Errorf "check %s not found" [name])
  end.

(** *** The checker of the manager (cmd/manager/main.go) *)

Definition HealthzCheckName : string := "HealthProbe".
Definition BidirectionCheckName : string := "BidirectionalConnection".
Definition OverlayNetIDCheckName : string := "OverlayNetIDMatch".
Definition SubnetCheckName : string := "SubnetNonCross".

(** [client] is the cached client of the local manager. *)
Definition initClusterStatusChecker `{CNIPlugins} `{StrSets} (now : Z) (client : Reader) : outcome (gmap string Check) :=
  clusterUUID ← wrap_outcome (Wrapf "unable to get cluster UUID: %v" []) (GetClusterUUID client);
  run_local (
    checker_Register HealthzCheckName (Some (Healthz_Check now));;
    checker_Register BidirectionCheckName (Some (Bidirection_Check now clusterUUID));;
    checker_Register OverlayNetIDCheckName (Some (OverlayNetID_Check now client));;
    checker_Register SubnetCheckName (Some (Subnet_Check now client))) NewChecker.

(** ** Properties *)

(** With a UUID all four checks are registered. *)
Lemma initClusterStatusChecker_checks `{CNIPlugins} `{StrSets} now client uuid :
  GetClusterUUID client = Ret uuid →
  initClusterStatusChecker now client = Ret (<[SubnetCheckName := Subnet_Check now client]>
    (<[OverlayNetIDCheckName := OverlayNetID_Check now client]> (<[BidirectionCheckName := Bidirection_Check now uuid]>
      (<[HealthzCheckName := Healthz_Check now]> ∅)))).
Proof. unfold initClusterStatusChecker. by intros ->. Qed.

(** The registered results are the results of the checks. *)
Lemma CheckAll_spec checkMap cm opts results :
  CheckAll checkMap (Some cm) opts = Ret results →
  ∀ name, match checkMap !! name with
          | Some check => ∃ r, results !! name = Some r ∧ check cm [RawOptions (ToOptions opts)] = Ret r
          | None => results !! name = None
          end.
Proof.
  unfold CheckAll. set (f := λ ret kv, _).
  assert (∀ l ret, NoDup l.*1 → (∀ k, is_Some (ret !! k) → k ∉ l.*1) → for_each f ret l = Ret results →
            ∀ name, (∀ check, (name, check) ∈ l → ∃ r, results !! name = Some r ∧ check cm [RawOptions (ToOptions opts)] = Ret r) ∧
                    (name ∉ l.*1 → results !! name = ret !! name)) as H.
  { intros l. induction l as [|[k check] l IH]; intros ret Hnd Hk E name; cbn [for_each] in E.
    - injection E as ->. split; [by intros ? ?%elem_of_nil|done].
    - assert (f ret (k, check) = (result ← check cm [RawOptions (ToOptions opts)]; Ret (<[k := result]> ret))) as Ef by done.
      rewrite Ef in E. destruct (check cm [RawOptions (ToOptions opts)]) as [r|e| |] eqn:Ec; cbn [mbind outcome_bind] in E; try done.
      rewrite fmap_cons in Hnd. apply NoDup_cons in Hnd as [Hni Hnd]. cbn [fst] in Hni.
      destruct (IH (<[k := r]> ret) Hnd) with (name := name) as [H1 H2]; [|done|].
      { intros k' [x Hx]. apply lookup_insert_Some in Hx as [[<- _]|[Hne Hx]]; [done|].
        specialize (Hk k' (mk_is_Some _ _ Hx)). cbn in Hk. by apply not_elem_of_cons in Hk as [_ ?]. }
      split.
      + intros check' [[= -> ->]|Hin]%elem_of_cons; [|by apply H1]. exists r. rewrite H2 by done. by rewrite lookup_insert_eq.
      + intros Hn. cbn in Hn. apply not_elem_of_cons in Hn as [Hne Hn]. rewrite H2 by done. by rewrite lookup_insert_ne. }
  intros E name. destruct (H (map_to_list checkMap) ∅ (NoDup_fst_map_to_list _) ltac:(intros k [x Hx]; by rewrite lookup_empty in Hx) E name)
    as [H1 H2].
  destruct (checkMap !! name) as [check|] eqn:Hc; [by apply H1, elem_of_map_to_list|].
  rewrite H2; [by rewrite lookup_empty|]. intros ([k c] & -> & Hin)%list_elem_of_fmap. apply elem_of_map_to_list in Hin.
  pose proof (eq_trans (eq_sym Hc) Hin) as E2. discriminate E2.
Qed.

(** The subnets check passes exactly when no subnet of the cluster crosses a
    local one, or a copy that is not its own. *)
Lemma first_conflict_None {B} (f : B → outcome (option error)) l :
  first_conflict f l = Ret None ↔ ∀ x, x ∈ l → f x = Ret None.
Proof.
  induction l as [|x l IH]; cbn [first_conflict]; [split; [by intros _ ? ?%elem_of_nil|done]|].
  split.
  - intros H. destruct (f x) as [[e|]| | |] eqn:E; cbn in H; try done.
    intros y [->|Hy]%elem_of_cons; [done|by apply IH].
  - intros H. rewrite (H x) by (by left). cbn. apply IH. intros y Hy. apply H. by right.
Qed.

Lemma Subnet_Check_passes `{CNIPlugins} `{StrSets} now local cm opts subnets localSubnets localRemotes :
  ListSubnets (cm_APIReader cm) = Ret subnets → ListSubnets local = Ret localSubnets → ListRemoteSubnets local = Ret localRemotes →
  (∃ r, Subnet_Check now local cm opts = Ret r ∧ Succeed r = true) ↔
  ∀ sn, sn ∈ subnets →
    (∀ l, l ∈ localSubnets → Intersect (ssp_Range (vs_Spec sn)) (ssp_Range (vs_Spec l)) = Ret false) ∧
    (∀ l, l ∈ localRemotes → loopback (o_ClusterName (ToOptions opts)) sn l = false →
       Intersect (ssp_Range (vs_Spec sn)) (rs_Range (rs_Spec l)) = Ret false).
Proof.
  intros H1 H2 H3. unfold Subnet_Check. rewrite H1, H2, H3. cbn [with_read]. set (cluster := o_ClusterName _).
  assert ((∃ r, (found ← first_conflict (subnet_conflict cluster localSubnets localRemotes) subnets; Ret (NewResult now found)) = Ret r ∧
             Succeed r = true) ↔ first_conflict (subnet_conflict cluster localSubnets localRemotes) subnets = Ret None) as ->.
  { destruct (first_conflict _ subnets) as [[e|]| | |]; cbn; split; try (by intros (? & ? & ?)); try done.
    - intros (r & [= <-] & Hs). by apply bool_decide_eq_true in Hs.
    - by eexists. }
  rewrite first_conflict_None. apply forall_proper. intros sn. apply forall_proper. intros _.
  assert (∀ (P Q : Prop) (o1 o2 : outcome (option error)), (o1 = Ret None ↔ P) → (o2 = Ret None ↔ Q) →
            (found ← o1; match found with Some e => Ret (Some e) | None => o2 end) = Ret None ↔ P ∧ Q) as Hand.
  { intros P Q o1 o2 HP HQ. rewrite <-HP, <-HQ. destruct o1 as [[e|]| | |]; cbn; naive_solver. }
  unfold subnet_conflict. apply Hand; rewrite first_conflict_None; apply forall_proper; intros l; apply forall_proper; intros _.
  - destruct (Intersect _ _) as [[]| | |]; cbn; naive_solver.
  - destruct (loopback cluster sn l); [naive_solver|]. destruct (Intersect _ _) as [[]| | |]; cbn; naive_solver.
Qed.
