(* ===== verification/RemoteClusters.v ===== *)
(** * Remote clusters (pkg/controllers/multicluster: remotecluster_controller.go,
      remoteclusteruuid_controller.go, remoteclusterstatus_checker.go;
      pkg/controllers/utils/restconfig.go)

    Three components share the lock on UUIDs and the hub of daemons: the
    controller of UUIDs locks the UUID of a remote cluster, the controller of
    remote clusters registers a daemon for it, the status checker runs and
    stops the daemon.  What client-go and controller-runtime do with a
    configuration is the class [ClusterLib].  Events, logs and metrics are left
    out; the order in which a map is visited and the time are arguments. *)

From S2P Require Import Prelude GoNet GoStrings CNIPlugins NetworkingV1 MulticlusterV1 Kubernetes Utils GoJSON KubeClient Store ClientUtils UUIDMutex PodController Predicates ManagerRuntime Mirror ClusterChecker.
Local Open Scope Z_scope.

Definition FinalizerManagerRuntimeRegistered : string := "multicluster.alibaba.com/manager-runtime-registered".
Definition ConditionDaemonRegistered : string := "DaemonRegistered".
Definition ConditionCheckerExecuted : string := "CheckerExecuted".

(** ** restconfig.go *)

(** [rest.Config]: what [BuildConfigFromFlags] makes, and the fields set. *)
Record restConfig (Base : Type) := mkRestConfig {
  rest_Base : Base;
  rest_CAData : list Z; rest_CertData : list Z; rest_KeyData : list Z;
  rest_Timeout : Z;  (* nanoseconds, an int64 *)
  rest_QPS : Z; rest_Burst : Z
}.
Arguments mkRestConfig {Base} _ _ _ _ _ _ _.

Class ClusterLib : Type := {
  BaseConfig : Type;
  Mgr : Type;
  BuildConfigFromFlags : string → string → outcome BaseConfig;
  (** [manager.New], [client.New] *)
  manager_New : restConfig BaseConfig → outcome Mgr;
  client_New : restConfig BaseConfig → outcome Reader;
  (** The set-up of both controllers of the mirror with a manager, given the
      cluster and the subnets that are known to be copied. *)
  SetupWithManager : Mgr → string → gset string → outcome unit;
  (** What the manager answers to the checks. *)
  cluster_of : Mgr → ClusterManager;
  (** [err.Error()] *)
  Error_text : error → string
}.

Definition NewRestConfigFromRemoteCluster `{ClusterLib} (remoteCluster : RemoteCluster) : outcome (restConfig BaseConfig) :=
  let spec := rc_Spec remoteCluster in
  clusterConfig ← BuildConfigFromFlags (rc_APIEndpoint spec) "";
  Ret (mkRestConfig clusterConfig (rc_CAData spec) (rc_CertData spec) (rc_KeyData spec)
         (rc_Timeout spec * 10 ^ 9) 20 30).

(** ** The writes to remote clusters *)

Definition rc_set_Meta (m : ObjectMeta) (rc : RemoteCluster) : RemoteCluster := mkRemoteCluster m (rc_Spec rc) (rc_Status rc).
Definition rc_set_Status (s : RemoteClusterStatus) (rc : RemoteCluster) : RemoteCluster := mkRemoteCluster (rc_Meta rc) (rc_Spec rc) s.

Class RemoteClusterClient `{Client} : Type := {
  (** [Patch(ctx, new, MergeFrom(old))] *)
  MergePatch_RemoteCluster : RemoteCluster → RemoteCluster → M World unit;
  (** a merge patch of the status with the given body *)
  PatchStatus_RemoteCluster : string → json → M World unit;
  (** [controllerutil.CreateOrPatch]: the function acts on the state [S] *)
  CreateOrPatch_RemoteCluster {S : Type} : RemoteCluster → (RemoteCluster → M S RemoteCluster) → M (World * S) unit
}.

Section remote_clusters.
Context `{ApiMachinery} `{CL : ClusterLib} `{RC : RemoteClusterClient}.

(** The state that the components share; [mc_events] is the channel of the
    checks that are asked for. *)
Record MultiCluster := mkMultiCluster {
  mc_world : World; mc_mutex : uuidMutex; mc_hub : daemonHub (managerRuntime Mgr); mc_events : list (string * string)
}.

Definition on_server {A} (m : M World A) : M MultiCluster A :=
  zoom (λ s, Some (mc_world s)) (λ w s, mkMultiCluster w (mc_mutex s) (mc_hub s) (mc_events s)) m.
Definition on_mutex {A} (m : M uuidMutex A) : M MultiCluster A :=
  zoom (λ s, Some (mc_mutex s)) (λ u s, mkMultiCluster (mc_world s) u (mc_hub s) (mc_events s)) m.
Definition on_hub {A} (m : M (daemonHub (managerRuntime Mgr)) A) : M MultiCluster A :=
  zoom (λ s, Some (mc_hub s)) (λ h s, mkMultiCluster (mc_world s) (mc_mutex s) h (mc_events s)) m.
Definition send_event (e : string * string) : M MultiCluster unit :=
  modify (λ s, mkMultiCluster (mc_world s) (mc_mutex s) (mc_hub s) (mc_events s ++ [e])).

(** The object of a request; an object that is gone needs no work. *)
Definition fetch_cluster (name : string) (f : RemoteCluster → M MultiCluster unit) : M MultiCluster unit :=
  s ← get;
  match r_GetRemoteCluster (reader (mc_world s)) name with
  | Ret remoteCluster => f remoteCluster
  | Fail err => if IsNotFound err then mret tt else fail (Wrapf "%s: %v" ["unable to fetch remote cluster"] err)
  | Panic => panic
  | Diverge => lift Diverge
  end.

(** ** remotecluster_controller.go *)

Definition killDaemon (daemonID : string) : M MultiCluster unit :=
  s ← get;
  if negb (IsRegistered daemonID (mc_hub s)) then mret tt
  else
    wrapError "unable to stop mr daemon" (on_hub (hub_Stop daemonID));;
    wrapError "unable to unregister mr daemon" (on_hub (Unregister daemonID)).

Definition guardDaemon (name daemonID : string) (daemon : managerRuntime Mgr) : M MultiCluster unit :=
  killDaemon daemonID;;
  wrapError "unable to register mr daemon" (on_hub (Register daemonID (Some daemon)));;
  send_event (name, daemonID).

Definition addFinalizer (remoteCluster : RemoteCluster) : M MultiCluster unit :=
  if ContainsFinalizer (rc_Meta remoteCluster) FinalizerManagerRuntimeRegistered then mret tt
  else on_server (RetryOnConflict (MergePatch_RemoteCluster remoteCluster
         (rc_set_Meta (AddFinalizer (rc_Meta remoteCluster) FinalizerManagerRuntimeRegistered) remoteCluster))).

Definition removeFinalizer (remoteCluster : RemoteCluster) : M MultiCluster unit :=
  if negb (ContainsFinalizer (rc_Meta remoteCluster) FinalizerManagerRuntimeRegistered) then mret tt
  else on_server (RetryOnConflict (MergePatch_RemoteCluster remoteCluster
         (rc_set_Meta (RemoveFinalizer (rc_Meta remoteCluster) FinalizerManagerRuntimeRegistered) remoteCluster))).

(** The subnets whose copies are on the local server and are not terminating. *)
Definition recognized_subnets (r : Reader) (cluster : string) : outcome (gset string) :=
  remoteSubnetList ← ListRemoteSubnets r;
  let ofCluster := filter (λ rs, opts_match (copies cluster) (rs_Meta rs)) remoteSubnetList in
  Ret (foldl (λ subnetSet rs,
         if decide (om_DeletionTimestamp (rs_Meta rs) = None)
         then {[splitSubnetNameFromRemoteSubnetName (om_Name (rs_Meta rs))]} ∪ subnetSet else subnetSet) ∅ ofCluster).

(** The function that initialises a manager. *)
Definition init_manager (r : Reader) (cluster : string) (mgr : Mgr) : outcome unit :=
  subnetSet ← recognized_subnets r cluster;
  SetupWithManager mgr cluster subnetSet.

Definition constructClusterManagerRuntime (r : Reader) (remoteCluster : RemoteCluster) (config : restConfig BaseConfig)
    : outcome (managerRuntime Mgr) :=
  let name := om_Name (rc_Meta remoteCluster) in
  NewManagerRuntime name (manager_New config) (init_manager r name).

(** The daemons of UUIDs that are no longer used are killed. *)
Definition recycle (orphanUUIDs : list string) : M MultiCluster unit :=
  each (λ orphanUUID,
    wrapError "unable to kill daemon" (killDaemon orphanUUID);;
    on_mutex (Unlock orphanUUID);;
    mret tt) orphanUUIDs.

(** The order in which a map of strings is visited. *)
Context (range_order : gmap string string → list (string * string)).

Definition uuids (name : string) : M MultiCluster (list string) :=
  s ← get; mret (GetUUIDs (range_order (idNameMap (mc_mutex s))) name).

(** What is left to do when the cluster has the lock on its UUID. *)
Definition guard_cluster (remoteCluster : RemoteCluster) (latestUUID : string) : M MultiCluster unit :=
  let name := om_Name (rc_Meta remoteCluster) in
  restConfig ← wrapError "unable to get rest config" (lift (NewRestConfigFromRemoteCluster remoteCluster));
  s ← get;
  managerRuntime ← wrapError "unable to create manager runtime"
    (lift (constructClusterManagerRuntime (reader (mc_world s)) remoteCluster restConfig));
  wrapError "unable to add finalzier" (addFinalizer remoteCluster);;
  wrapError "unable to guard mr daemon" (guardDaemon name latestUUID managerRuntime).

Definition reconcile_cluster (remoteCluster : RemoteCluster) : M MultiCluster unit :=
  let name := om_Name (rc_Meta remoteCluster) in
  let UUID := rc_UUID (rc_Status remoteCluster) in
  if decide (om_DeletionTimestamp (rc_Meta remoteCluster) ≠ None ∨ UUID = "") then
    orphans ← uuids name;
    recycle orphans;;
    wrapError "unable to remove finalizer" (removeFinalizer remoteCluster)
  else
    latest ← on_mutex (GetLatestUUID name);
    if negb latest.1 then fail (Errorf "remote cluster %s is not owning one UUID" [name])
    else if negb (bool_decide (latest.2 = UUID)) then fail (Errorf "uuid locked by remote cluster %s is out-of-date" [name])
    else
      all ← uuids name;
      recycle (filter (.≠ latest.2) all);;
      guard_cluster remoteCluster latest.2.

Definition RemoteCluster_Reconcile (name : string) : M MultiCluster unit := fetch_cluster name reconcile_cluster.

(** ** remoteclusteruuid_controller.go *)

Definition offline_body : json :=
  JObject [("status", JObject [("uuid", JString ""); ("state", JString ClusterOffline); ("conditions", JNull)])].
Definition uuid_body (uuid : string) : json := JObject [("status", JObject [("uuid", JString uuid)])].

(** A failure that takes the cluster offline. *)
Definition or_offline {B} (name message : string) (o : outcome B) (f : B → M MultiCluster unit) : M MultiCluster unit :=
  match o with
  | Ret b => f b
  | Fail err =>
      ignore (on_server (RetryOnConflict (PatchStatus_RemoteCluster name offline_body)));;
      fail (Wrapf "%s: %v" [message] err)
  | Panic => panic
  | Diverge => lift Diverge
  end.

Definition reconcile_uuid (remoteCluster : RemoteCluster) : M MultiCluster unit :=
  let name := om_Name (rc_Meta remoteCluster) in
  if decide (om_DeletionTimestamp (rc_Meta remoteCluster) ≠ None) then mret tt
  else
    or_offline name "unable to get rest config" (NewRestConfigFromRemoteCluster remoteCluster) (λ restConfig,
    or_offline name "unable to get cluster client" (client_New restConfig) (λ remoteClusterClient,
      clusterUUID ← wrapError "unable to get UUID of remote cluster" (lift (GetClusterUUID remoteClusterClient));
      if decide (rc_UUID (rc_Status remoteCluster) = clusterUUID) then mret tt
      else
        wrapError "unable to lock UUID for remote cluster" (on_mutex (Lock clusterUUID name));;
        wrapError "unable to update uuid"
          (on_server (RetryOnConflict (PatchStatus_RemoteCluster name (uuid_body clusterUUID)))))).

Definition RemoteClusterUUID_Reconcile (name : string) : M MultiCluster unit := fetch_cluster name reconcile_uuid.

(** ** remoteclusterstatus_checker.go *)

(** The first condition of the type is replaced, or the condition appended. *)
Definition fillCondition (condition : Condition) (conditions : list Condition) : list Condition :=
  let conditions := match conditions with [] => [condition] | _ => conditions end in
  match list_find (λ c, cd_Type c = cd_Type condition) conditions with
  | Some (idx, _) => <[idx := condition]> conditions
  | None => conditions ++ [condition]
  end.

Definition fill (now : Z) (type status reason message : string) (rc : RemoteCluster) : RemoteCluster :=
  let s := rc_Status rc in
  rc_set_Status (mkRemoteClusterStatus (rc_UUID s) (rc_State s)
    (fillCondition (mkCondition type status now reason message) (rc_Conditions s))) rc.

Definition set_State (state : string) (rc : RemoteCluster) : RemoteCluster :=
  let s := rc_Status rc in rc_set_Status (mkRemoteClusterStatus (rc_UUID s) state (rc_Conditions s)) rc.

(** Every daemon of the hub is a manager runtime. *)
Definition getManagerRuntimeByDaemonID (daemonID : string) (hub : daemonHub (managerRuntime Mgr)) : outcome (managerRuntime Mgr) :=
  match Get daemonID hub with
  | Some d => Ret d
  | None => Fail (Errorf "daemon %s not registered in hub" [daemonID])
  end.

(** The conditions of the results, in the order in which they are visited. *)
Definition fill_results (results : list (string * CheckResult)) (rc : RemoteCluster) : RemoteCluster :=
  foldl (λ rc nr, match result_err nr.2 with
                  | None => fill (TimeStamp nr.2) nr.1 ConditionTrue "CheckPass" "" rc
                  | Some err => fill (TimeStamp nr.2) nr.1 ConditionFalse "CheckFail" (Error_text err) rc
                  end) rc results.

(** The deferred function: the daemon follows the state of the cluster. *)
Definition follow_state (daemonID : string) (rc : RemoteCluster) : M (daemonHub (managerRuntime Mgr)) RemoteCluster :=
  let state := rc_State (rc_Status rc) in
  if decide (state = ClusterReady) then
    hub ← get;
    status ← lift (d ← getManagerRuntimeByDaemonID daemonID hub; mr_Status d);
    if running status then mret rc else wrapError "unable to run cluster daemon" (hub_Run daemonID);; mret rc
  else if decide (state = ClusterNotReady) then
    hub ← get;
    status ← lift (d ← getManagerRuntimeByDaemonID daemonID hub; mr_Status d);
    if running status then wrapError "unable to stop cluster daemon" (hub_Stop daemonID);; mret rc else mret rc
  else mret rc.

(** The function given to [CreateOrPatch]; [range_results] is the order of the
    results. *)
Definition check_cluster (now : Z) (checkMap : gmap string Check) (range_results : gmap string CheckResult → list (string * CheckResult))
    (name daemonID : string) (rc : RemoteCluster) : M (daemonHub (managerRuntime Mgr)) RemoteCluster :=
  hub ← get;
  match getManagerRuntimeByDaemonID daemonID hub with
  | Fail err => mret (fill now ConditionDaemonRegistered ConditionFalse "NotFound" (Error_text err) (set_State ClusterOffline rc))
  | Panic => panic
  | Diverge => lift Diverge
  | Ret managerRuntime =>
      let rc := fill now ConditionDaemonRegistered ConditionTrue "Registered" "" rc in
      mgr ← lift (mr_Manager managerRuntime);
      match CheckAll checkMap (Some (cluster_of mgr)) [ClusterName name] with
      | Fail err =>
          follow_state daemonID
            (fill now ConditionCheckerExecuted ConditionFalse "CheckerRunFail" (Error_text err) (set_State ClusterNotReady rc))
      | Panic => panic
      | Diverge => lift Diverge
      | Ret results =>
          let rc := fill_results (range_results results) (fill now ConditionCheckerExecuted ConditionTrue "CheckerRunSucceed" "" rc) in
          let allCheckPass := forallb (λ nr, Succeed nr.2) (range_results results) in
          follow_state daemonID (set_State (if allCheckPass then ClusterReady else ClusterNotReady) rc)
      end
  end.

(** Errors are recorded as events. *)
Definition checkClusterStatus (now : Z) (checkMap : gmap string Check)
    (range_results : gmap string CheckResult → list (string * CheckResult)) (name daemonID : string) : M MultiCluster unit :=
  s ← get;
  match r_GetRemoteCluster (reader (mc_world s)) name with
  | Ret remoteCluster =>
      ignore (zoom (λ s, Some (mc_world s, mc_hub s)) (λ wh s, mkMultiCluster wh.1 (mc_mutex s) wh.2 (mc_events s))
        (CreateOrPatch_RemoteCluster remoteCluster (check_cluster now checkMap range_results name daemonID)))
  | Fail _ => mret tt
  | Panic => panic
  | Diverge => lift Diverge
  end.

(** The clusters that have a UUID; a later one of the same name replaces an
    earlier one. *)
Definition nameDaemonIDMap (l : list RemoteCluster) : gmap string string :=
  foldl (λ m rc, if nonempty (rc_UUID (rc_Status rc)) then <[om_Name (rc_Meta rc) := rc_UUID (rc_Status rc)]> m else m) ∅ l.

Definition crontab (now : Z) (checkMap : gmap string Check)
    (range_results : gmap string CheckResult → list (string * CheckResult)) : M MultiCluster unit :=
  s ← get;
  match ListRemoteClusters (reader (mc_world s)) with
  | Ret remoteClusterList =>
      each (λ ni, checkClusterStatus now checkMap range_results ni.1 ni.2) (range_order (nameDaemonIDMap remoteClusterList))
  | Fail _ => mret tt
  | Panic => panic
  | Diverge => lift Diverge
  end.

(** One turn of the loop of [Start]: a tick, or an event of the channel. *)
Definition checker_turn (now : Z) (checkMap : gmap string Check)
    (range_results : gmap string CheckResult → list (string * CheckResult)) (tick : bool) : M MultiCluster unit :=
  if tick then crontab now checkMap range_results
  else
    s ← get;
    match mc_events s with
    | [] => mret tt
    | event :: events =>
        put (mkMultiCluster (mc_world s) (mc_mutex s) (mc_hub s) events);;
        checkClusterStatus now checkMap range_results event.1 event.2
    end.
End remote_clusters.
