(* ===== verification/RemoteClustersProperties.v ===== *)
(** * Daemons and UUIDs of remote clusters *)

From S2P Require Import Prelude GoNet GoStrings CNIPlugins NetworkingV1 MulticlusterV1 Kubernetes Utils GoJSON KubeClient Store ClientUtils UUIDMutex PodController Predicates ManagerRuntime Mirror ClusterChecker RemoteClusters.
Local Open Scope Z_scope.

Definition returned {A} (o : outcome A) : Prop := match o with Ret _ | Fail _ => True | _ => False end.

(** The calls of the libraries return. *)
Class ClusterLibLaws `{CL : ClusterLib} `{RC : RemoteClusterClient} : Prop := {
  BuildConfig_returns e p : returned (BuildConfigFromFlags e p);
  manager_New_returns c : returned (manager_New c);
  Setup_returns m c subnets : returned (SetupWithManager m c subnets);
  MergePatch_returns old new w : returned (MergePatch_RemoteCluster old new w).1;
  ListRemoteSubnets_returns w : returned (r_ListRemoteSubnets (reader w));
  cluster_retry {X : Type} (f : M World X) w : retried f w (RetryOnConflict f w)
}.

Section properties.
Context {A : ApiMachinery} {CL : ClusterLib} {C : Client} {RC : RemoteClusterClient}.
Implicit Types (s : MultiCluster) (name u : string).

Definition same_but_hub s s' : Prop :=
  mc_world s' = mc_world s ∧ mc_mutex s' = mc_mutex s ∧ mc_events s' = mc_events s.

Lemma on_hub_run {B} (m : M (daemonHub (managerRuntime Mgr)) B) s o h' :
  m (mc_hub s) = (o, h') → on_hub m s = (o, mkMultiCluster (mc_world s) (mc_mutex s) h' (mc_events s)).
Proof. intros E. unfold on_hub, zoom. by rewrite E. Qed.

(** A daemon is stopped and taken out of the hub. *)
Lemma killDaemon_spec u s :
  hub_free (mc_hub s) →
  killDaemon u s = (Ret tt, mkMultiCluster (mc_world s) (mc_mutex s) (delete u (mc_hub s)) (mc_events s)).
Proof.
  intros Hf. unfold killDaemon, IsRegistered. m_run. destruct (mc_hub s !! u) as [d|] eqn:Hd; cbn [is_Some].
  - rewrite bool_decide_eq_true_2 by eauto. cbn [negb].
    destruct (Stop_registered (mc_hub s) u d Hf Hd) as (d' & st & E & _ & Hst & Hr).
    unfold wrapError. rewrite (bind_Ret _ _ _ _ _ (wrap_Ret _ _ _ _ _ (on_hub_run _ _ _ _ E))).
    erewrite wrap_Ret; [reflexivity|]. erewrite on_hub_run; [reflexivity|]. cbn [mc_hub].
    rewrite (Unregister_stopped _ u d' st); [by rewrite delete_insert_eq|by rewrite lookup_insert_eq|done|done].
  - rewrite bool_decide_eq_false_2 by (by intros [? ?]). cbn [negb]. rewrite delete_id by done. by destruct s.
Qed.

Lemma Unlock_run u m :
  ∃ b, Unlock u m = (Ret b, run_mutex (OUnlock u) m).
Proof. cbn. unfold Unlock. m_run. destruct (idNameMap m !! u); eauto. Qed.

Lemma Unlock_ids u m v : idNameMap (run_mutex (OUnlock u) m) !! v = if decide (v = u) then None else idNameMap m !! v.
Proof.
  cbn. unfold Unlock. m_run. destruct (idNameMap m !! u) as [name|] eqn:E; m_run; cbn.
  - destruct (decide (v = u)) as [->|H]; [by rewrite lookup_delete_eq|by rewrite lookup_delete_ne].
  - case_decide as H; [by subst|done].
Qed.

Lemma Unlock_latest u m name v :
  nameLatestIDMap m !! name = Some v → v ≠ u → nameLatestIDMap (run_mutex (OUnlock u) m) !! name = Some v.
Proof.
  intros Hl Hne. cbn. unfold Unlock. m_run. destruct (idNameMap m !! u) as [name'|]; m_run; cbn; [|done].
  case_decide as H; [|done]. rewrite lookup_delete_ne; [done|]. intros ->. congruence.
Qed.

(** What recycling leaves. *)
Record recycled (ids : list string) s s' : Prop := {
  re_world : mc_world s' = mc_world s;
  re_events : mc_events s' = mc_events s;
  re_hub u : mc_hub s' !! u = if decide (u ∈ ids) then None else mc_hub s !! u;
  re_ids u : idNameMap (mc_mutex s') !! u = if decide (u ∈ ids) then None else idNameMap (mc_mutex s) !! u;
  re_latest name u : u ∉ ids → nameLatestIDMap (mc_mutex s) !! name = Some u → nameLatestIDMap (mc_mutex s') !! name = Some u;
  re_wf : mutex_wf (mc_mutex s) → mutex_wf (mc_mutex s');
  re_free : hub_free (mc_hub s')
}.

Lemma recycle_spec ids s : hub_free (mc_hub s) → ∃ s', recycle ids s = (Ret tt, s') ∧ recycled ids s s'.
Proof.
  unfold recycle. revert s. induction ids as [|u ids IH]; intros s Hf; cbn [each].
  - exists s. split; [done|]. split; try done; intros v; by rewrite decide_False by apply not_elem_of_nil.
  - pose proof (killDaemon_spec u s Hf) as Ek. set (s1 := mkMultiCluster _ _ _ _) in Ek.
    destruct (Unlock_run u (mc_mutex s1)) as [b Eu].
    set (s2 := mkMultiCluster (mc_world s1) (run_mutex (OUnlock u) (mc_mutex s1)) (mc_hub s1) (mc_events s1)).
    assert ((wrapError "unable to kill daemon" (killDaemon u);; on_mutex (Unlock u);; mret tt) s = (Ret tt, s2)) as E1.
    { unfold wrapError. rewrite (bind_Ret _ _ _ _ _ (wrap_Ret _ _ _ _ _ Ek)).
      assert (on_mutex (Unlock u) s1 = (Ret b, s2)) as Em by (unfold on_mutex, zoom; by rewrite Eu).
      by rewrite (bind_Ret _ _ _ _ _ Em). }
    destruct (IH s2) as (s' & E2 & [Hw He Hh Hi Hl Hwf Hfr]); [by apply hub_free_delete|].
    exists s'. rewrite (bind_Ret _ _ _ _ _ E1). split; [exact E2|].
    split; [by rewrite Hw|by rewrite He|..].
    + intros v. rewrite Hh. cbn. destruct (decide (v ∈ ids)) as [H|H].
      * by rewrite decide_True by (by right).
      * destruct (decide (v = u)) as [->|Hne]; [rewrite lookup_delete_eq, decide_True by (by left); done|].
        rewrite lookup_delete_ne by done. rewrite decide_False; [done|]. rewrite elem_of_cons. tauto.
    + intros v. rewrite Hi. cbn [mc_mutex s2]. destruct (decide (v ∈ ids)) as [H|H].
      * by rewrite decide_True by (by right).
      * rewrite Unlock_ids. destruct (decide (v = u)) as [->|Hne]; [by rewrite decide_True by (by left)|].
        rewrite decide_False; [done|]. rewrite elem_of_cons. tauto.
    + intros name v Hv Hlat. apply not_elem_of_cons in Hv as [Hne Hv]. apply Hl; [done|]. by apply Unlock_latest.
    + intros H. apply Hwf. by apply (run_mutex_wf (OUnlock u)).
    + done.
Qed.

Context (range_order : gmap string string → list (string * string)) (Hrange : ∀ m, range_order m ≡ₚ map_to_list m).

Lemma uuids_spec name s :
  ∃ l, uuids range_order name s = (Ret l, s) ∧ ∀ u, u ∈ l ↔ idNameMap (mc_mutex s) !! u = Some name.
Proof.
  eexists. split; [reflexivity|]. intros u. unfold GetUUIDs. rewrite list_elem_of_fmap. setoid_rewrite list_elem_of_filter.
  setoid_rewrite Hrange. setoid_rewrite elem_of_map_to_list'. split.
  - intros ([u' n] & -> & Hn & Hl). cbn in *. by subst.
  - intros H. by exists (u, name).
Qed.

Context {LL : ClusterLibLaws}.

(** A write to the server leaves the rest of the state. *)
Lemma on_server_patch old new s :
  ∃ o w', on_server (RetryOnConflict (MergePatch_RemoteCluster old new)) s
          = (o, mkMultiCluster w' (mc_mutex s) (mc_hub s) (mc_events s)) ∧ returned o.
Proof.
  unfold on_server, zoom. pose proof (cluster_retry (MergePatch_RemoteCluster old new) (mc_world s)) as H.
  destruct (RetryOnConflict _ (mc_world s)) as [o w'] eqn:E. clear E. exists o, w'. split; [done|].
  remember (o, w') as r eqn:Er. revert o w' Er. induction H as [w|w w2 r _ _ IH]; intros o w' Er; [|by eapply IH].
  pose proof (MergePatch_returns old new w) as Hp. by rewrite Er in Hp.
Qed.

Lemma finalizer_step (b : bool) old new s :
  ∃ o w', (if b then mret tt else on_server (RetryOnConflict (MergePatch_RemoteCluster old new))) s
          = (o, mkMultiCluster w' (mc_mutex s) (mc_hub s) (mc_events s)) ∧ returned o.
Proof.
  destruct b; [|apply on_server_patch]. exists (Ret tt), (mc_world s). by destruct s.
Qed.

Lemma construct_returns w rc config :
  match constructClusterManagerRuntime (reader w) rc config with
  | Ret d => mr_Name d = om_Name (rc_Meta rc) ∧ mr_Status d = Ret (mkDaemonStatus false 0 "") ∧ mr_locked d = false
  | Fail _ => True
  | _ => False
  end.
Proof.
  unfold constructClusterManagerRuntime, NewManagerRuntime. pose proof (manager_New_returns config) as Hm.
  destruct (manager_New config) as [mgr|e| |]; [|done..]. cbn. unfold init_manager, recognized_subnets, ListRemoteSubnets.
  pose proof (ListRemoteSubnets_returns w) as Hl. destruct (r_ListRemoteSubnets (reader w)) as [l|e| |]; [|done..]. cbn.
  pose proof (Setup_returns mgr (om_Name (rc_Meta rc))) as Hs. set (subnets := foldl _ _ _). specialize (Hs subnets).
  by destruct (SetupWithManager mgr _ subnets).
Qed.

(** The end of a reconciliation: a fresh daemon, or an error without effect on
    the daemons. *)
Lemma guard_cluster_spec rc u s :
  hub_free (mc_hub s) →
  post (guard_cluster rc u) s (λ o s', mc_mutex s' = mc_mutex s ∧ match o with
    | Ret _ => ∃ d, mc_hub s' = <[u := d]> (mc_hub s) ∧ mr_Name d = om_Name (rc_Meta rc) ∧
                 mr_Status d = Ret (mkDaemonStatus false 0 "") ∧ mr_locked d = false ∧
                 mc_events s' = mc_events s ++ [(om_Name (rc_Meta rc), u)]
    | Fail _ => mc_hub s' = mc_hub s ∧ mc_events s' = mc_events s
    | _ => False
    end).
Proof.
  intros Hf. unfold guard_cluster, post, NewRestConfigFromRemoteCluster.
  pose proof (BuildConfig_returns (rc_APIEndpoint (rc_Spec rc)) "") as Hb.
  destruct (BuildConfigFromFlags _ _) as [base|e| |]; [|done..]. cbn [mbind outcome_bind].
  set (config := mkRestConfig _ _ _ _ _ _ _).
  assert (wrapError "unable to get rest config" (lift (Ret config)) s = (Ret config, s)) as E0 by done.
  rewrite (bind_Ret _ _ _ _ _ E0). m_run. pose proof (construct_returns (mc_world s) rc config) as Hd.
  destruct (constructClusterManagerRuntime (reader (mc_world s)) rc config) as [d|e| |]; [|done..].
  assert (wrapError "unable to create manager runtime" (lift (Ret d)) s = (Ret d, s)) as E1 by done.
  rewrite (bind_Ret _ _ _ _ _ E1). unfold addFinalizer.
  destruct (finalizer_step (ContainsFinalizer (rc_Meta rc) FinalizerManagerRuntimeRegistered) rc
    (rc_set_Meta (AddFinalizer (rc_Meta rc) FinalizerManagerRuntimeRegistered) rc) s) as (o & w' & E2 & Ho).
  unfold wrapError. destruct o as [[]|e| |]; [| |done..].
  2: { rewrite (bind_Fail _ _ _ _ _ (wrap_Fail _ _ _ _ _ E2)). done. }
  rewrite (bind_Ret _ _ _ _ _ (wrap_Ret _ _ _ _ _ E2)). set (s1 := mkMultiCluster _ _ _ _).
  pose proof (killDaemon_spec u s1 Hf) as E3. set (s2 := mkMultiCluster _ _ _ _) in E3.
  assert (on_hub (Register u (Some d)) s2 = (Ret tt, mkMultiCluster w' (mc_mutex s) (<[u := d]> (mc_hub s)) (mc_events s))) as E4.
  { erewrite on_hub_run; [reflexivity|]. rewrite Register_cases. cbn. by rewrite lookup_delete_eq, insert_delete_eq. }
  erewrite wrap_Ret.
  2: { unfold guardDaemon, wrapError. rewrite (bind_Ret _ _ _ _ _ E3), (bind_Ret _ _ _ _ _ (wrap_Ret _ _ _ _ _ E4)). reflexivity. }
  cbn. split; [done|]. exists d. naive_solver.
Qed.

(** What no reconciliation of [name] changes. *)
Record frame name s s' : Prop := {
  fr_wf : mutex_wf (mc_mutex s');
  fr_free : hub_free (mc_hub s');
  fr_ids u name' : name' ≠ name → (idNameMap (mc_mutex s') !! u = Some name' ↔ idNameMap (mc_mutex s) !! u = Some name');
  fr_hub u : idNameMap (mc_mutex s) !! u ≠ Some name → mc_hub s' !! u = mc_hub s !! u
}.

Lemma recycled_frame name ids s s' :
  (∀ u, u ∈ ids → idNameMap (mc_mutex s) !! u = Some name) → mutex_wf (mc_mutex s) → recycled ids s s' → frame name s s'.
Proof.
  intros Hids Hwf [_ _ Hh Hi _ Hw Hf]. split; [by apply Hw|done|..].
  - intros u name' Hne. rewrite Hi. case_decide as H; [|done]. split; [done|]. rewrite (Hids u H). congruence.
  - intros u Hu. rewrite Hh. rewrite decide_False; [done|]. intros H. by apply Hu, Hids.
Qed.

(** Nothing but the server has changed. *)
Lemma frame_world name s w' : mutex_wf (mc_mutex s) → hub_free (mc_hub s) →
  frame name s (mkMultiCluster w' (mc_mutex s) (mc_hub s) (mc_events s)).
Proof. intros Hw Hf. by split. Qed.

(** The cluster is leaving, or has no UUID. *)
Definition leaving (rc : RemoteCluster) : Prop :=
  om_DeletionTimestamp (rc_Meta rc) ≠ None ∨ rc_UUID (rc_Status rc) = "".

#[export] Instance leaving_dec rc : Decision (leaving rc).
Proof. unfold leaving. apply _. Defined.

(** What a reconciliation that returns leaves. *)
Definition forgotten name s s' : Prop :=
  (∀ u, idNameMap (mc_mutex s') !! u ≠ Some name) ∧
  (∀ u, idNameMap (mc_mutex s) !! u = Some name → mc_hub s' !! u = None) ∧ mc_events s' = mc_events s.

Definition guarded name u s s' : Prop :=
  idNameMap (mc_mutex s) !! u = Some name ∧ nameLatestIDMap (mc_mutex s) !! name = Some u ∧
  (∀ v, idNameMap (mc_mutex s') !! v = Some name ↔ v = u) ∧
  (∀ v, v ≠ u → idNameMap (mc_mutex s) !! v = Some name → mc_hub s' !! v = None) ∧
  (∃ d, mc_hub s' !! u = Some d ∧ mr_Name d = name ∧ mr_Status d = Ret (mkDaemonStatus false 0 "")) ∧
  mc_events s' = mc_events s ++ [(name, u)].

Lemma leaving_spec rc s :
  let name := om_Name (rc_Meta rc) in
  mutex_wf (mc_mutex s) → hub_free (mc_hub s) → leaving rc →
  post (reconcile_cluster range_order rc) s (λ o s', frame name s s' ∧ match o with
    | Ret _ => forgotten name s s'
    | Fail _ => mc_events s' = mc_events s
    | _ => False
    end).
Proof.
  intros name Hwf Hf Hl. unfold post, reconcile_cluster. rewrite decide_True by done.
  destruct (uuids_spec name s) as (l & E1 & Hin). fold name. rewrite (bind_Ret _ _ _ _ _ E1).
  destruct (recycle_spec l s Hf) as (s1 & E2 & Hre). rewrite (bind_Ret _ _ _ _ _ E2). unfold removeFinalizer.
  destruct (finalizer_step (negb (ContainsFinalizer (rc_Meta rc) FinalizerManagerRuntimeRegistered)) rc
    (rc_set_Meta (RemoveFinalizer (rc_Meta rc) FinalizerManagerRuntimeRegistered) rc) s1) as (o & w' & E3 & Ho).
  unfold wrapError, wrap. rewrite E3.
  pose proof (recycled_frame name l s s1 ltac:(intros; by apply Hin) Hwf Hre) as [F1 F2 F3 F4].
  destruct o as [[]|e| |]; [| |done..]; cbn.
  - split; [by split|]. split_and!.
    + intros u. cbn. rewrite (re_ids _ _ _ Hre). case_decide as H; [done|]. by rewrite <-Hin.
    + intros u Hu. cbn. rewrite (re_hub _ _ _ Hre). rewrite decide_True; [done|]. by apply Hin.
    + apply (re_events _ _ _ Hre).
  - split; [by split|]. apply (re_events _ _ _ Hre).
Qed.

Lemma staying_spec rc s :
  let name := om_Name (rc_Meta rc) in
  let UUID := rc_UUID (rc_Status rc) in
  mutex_wf (mc_mutex s) → hub_free (mc_hub s) → ¬ leaving rc →
  post (reconcile_cluster range_order rc) s (λ o s', frame name s s' ∧ match o with
    | Ret _ => guarded name UUID s s'
    | Fail _ => mc_events s' = mc_events s
    | _ => False
    end).
Proof.
  intros name UUID Hwf Hf Hl. unfold post, reconcile_cluster. rewrite decide_False by done. fold name. fold UUID.
  assert (frame name s s) as Hsame by (by split).
  assert (on_mutex (GetLatestUUID name) s =
    (Ret (bool_decide (is_Some (nameLatestIDMap (mc_mutex s) !! name)), default "" (nameLatestIDMap (mc_mutex s) !! name)), s)) as E0.
  { unfold on_mutex, zoom, GetLatestUUID. cbn. by destruct s. }
  rewrite (bind_Ret _ _ _ _ _ E0). cbn [fst snd].
  destruct (nameLatestIDMap (mc_mutex s) !! name) as [latest|] eqn:El.
  2: { rewrite bool_decide_eq_false_2 by (by intros [? ?]). done. }
  rewrite bool_decide_eq_true_2 by eauto. cbn [negb default from_option]. unfold id.
  destruct (decide (latest = UUID)) as [->|Hne]; [|by rewrite bool_decide_eq_false_2].
  rewrite bool_decide_eq_true_2 by done. cbn [negb].
  destruct (uuids_spec name s) as (l & E1 & Hin). rewrite (bind_Ret _ _ _ _ _ E1).
  destruct (recycle_spec (filter (.≠ UUID) l) s Hf) as (s1 & E2 & Hre). rewrite (bind_Ret _ _ _ _ _ E2).
  assert (∀ u, u ∈ filter (.≠ UUID) l ↔ u ≠ UUID ∧ idNameMap (mc_mutex s) !! u = Some name) as Hin'.
  { intros u. by rewrite list_elem_of_filter, Hin. }
  pose proof (mw_latest _ Hwf _ _ El) as Hlat.
  pose proof (recycled_frame name _ s s1 ltac:(intros; by apply Hin') Hwf Hre) as [F1 F2 F3 F4].
  pose proof (guard_cluster_spec rc UUID s1 F2) as Hg. unfold post in Hg.
  destruct (guard_cluster rc UUID s1) as [[[]|e| |] s2]; cbn [fst snd] in *; [| |by destruct Hg..].
  - destruct Hg as (Hm & d & Hh & Hn & Hst & Hlk & He). split.
    + split; [by rewrite Hm|rewrite Hh; by apply hub_free_insert|intros u name' Hne; rewrite Hm; by apply F3|].
      intros u Hu. rewrite Hh, lookup_insert_ne by congruence. by apply F4.
    + split_and!; [done|done|..].
      * intros v. rewrite Hm, (re_ids _ _ _ Hre). case_decide as H; rewrite Hin' in H; [naive_solver|].
        split; [|by intros ->]. intros Hv. destruct (decide (v = UUID)); [done|]. naive_solver.
      * intros v Hv Hid. rewrite Hh, lookup_insert_ne by done. rewrite (re_hub _ _ _ Hre). rewrite decide_True; [done|].
        by apply Hin'.
      * exists d. by rewrite Hh, lookup_insert_eq.
      * by rewrite He, (re_events _ _ _ Hre).
  - destruct Hg as (Hm & Hh & He). split; [|by rewrite He, (re_events _ _ _ Hre)].
    split; [by rewrite Hm|by rewrite Hh|intros u name' Hne; rewrite Hm; by apply F3|intros u Hu; rewrite Hh; by apply F4].
Qed.
End properties.

(** C40. The controller of remote clusters keeps daemons and locks together.
    When the reconciliation of a cluster that leaves, or has no UUID, returns,
    no UUID is locked by its name and none of its daemons is registered; for
    another one the UUID of its status is its latest one, it alone is locked
    by the name, and a fresh daemon is registered for it and a check asked
    for.  No other cluster's locks and daemons change, whatever the outcome,
    nothing waits for ever and nothing panics. *)
Theorem RemoteCluster_exact {A : ApiMachinery} {CL : ClusterLib} {C : Client} {RC : RemoteClusterClient} {LL : ClusterLibLaws}
    range_order (Hrange : ∀ m : gmap string string, range_order m ≡ₚ map_to_list m) name rc s :
  mutex_wf (mc_mutex s) → hub_free (mc_hub s) →
  r_GetRemoteCluster (reader (mc_world s)) name = Ret rc → om_Name (rc_Meta rc) = name →
  post (RemoteCluster_Reconcile range_order name) s (λ o s', frame name s s' ∧ match o with
    | Ret _ => if decide (leaving rc) then forgotten name s s' else guarded name (rc_UUID (rc_Status rc)) s s'
    | Fail _ => mc_events s' = mc_events s
    | _ => False
    end).
Proof.
  intros Hwf Hf Hr Hn. unfold RemoteCluster_Reconcile, fetch_cluster, post. m_run. rewrite Hr. subst name.
  case_decide as Hl; [by apply leaving_spec|by apply staying_spec].
Qed.

(** ** A server and libraries that satisfy the laws *)

Definition cluster_reader (w : gmap string RemoteCluster) : Reader := {|
  r_GetNetwork _ := not_found; r_ListNetworks := Ret []; r_ListNetworksByNode _ := Ret [];
  r_GetSubnet _ := not_found; r_ListSubnets := Ret []; r_GetIPInstance _ _ := not_found; r_ListIPInstances _ := Ret [];
  r_GetPod _ _ := not_found; r_GetNode _ := not_found; r_ListNodes _ := Ret []; r_GetNamespace _ := not_found;
  r_ListRemoteSubnets := Ret []; r_ListRemoteVteps := Ret [];
  r_ListRemoteClusters := Ret (snd <$> map_to_list w);
  r_GetRemoteCluster name := match w !! name with Some rc => Ret rc | None => not_found end
|}.

Definition cluster_server : Client := {|
  World := gmap string RemoteCluster;
  reader := cluster_reader; APIReader := cluster_reader;
  Create_IPInstance _ := fail (StatusError StatusReasonNotFound); Delete_IPInstance _ _ := fail (StatusError StatusReasonNotFound);
  Patch_IPInstance _ _ _ := fail (StatusError StatusReasonNotFound);
  PatchStatus_IPInstance _ _ _ := fail (StatusError StatusReasonNotFound);
  Patch_Pod _ _ _ := fail (StatusError StatusReasonNotFound);
  PatchStatus_Network _ _ := fail (StatusError StatusReasonNotFound);
  PatchStatus_Subnet _ _ := fail (StatusError StatusReasonNotFound);
  StrategicPatch_Pod _ _ := fail (StatusError StatusReasonNotFound);
  RetryOnConflict _ f := f
|}.

(** The patches of the finalizers; the other writes fail. *)
Definition cluster_writes : RemoteClusterClient (H := cluster_server) := {|
  MergePatch_RemoteCluster old new := λ w : @World cluster_server,
    let name := om_Name (rc_Meta old) in
    match (w : gmap string RemoteCluster) !! name with
    | Some rc => (Ret tt, <[name := rc_set_Meta (om_set_Finalizers (om_Finalizers (rc_Meta new)) (rc_Meta rc)) rc]> w : @World cluster_server)
    | None => (not_found, w)
    end;
  PatchStatus_RemoteCluster _ _ := fail (StatusError StatusReasonNotFound);
  CreateOrPatch_RemoteCluster _ _ _ := fail (StatusError StatusReasonNotFound)
|}.

Definition cluster_libs : ClusterLib := {|
  BaseConfig := string; Mgr := ClusterManager;
  BuildConfigFromFlags endpoint _ := Ret endpoint;
  manager_New _ := Ret (mkClusterManager (cluster_reader ∅) (Ret "ok"));
  client_New _ := Ret (cluster_reader ∅);
  SetupWithManager _ _ _ := Ret tt;
  cluster_of m := m;
  Error_text _ := "error"
|}.

Lemma cluster_libs_laws : ClusterLibLaws (CL := cluster_libs) (RC := cluster_writes).
Proof.
  split; [done..| |done|].
  - intros old new w. cbn. by destruct (_ !! _).
  - intros X f w. constructor.
Qed.

Definition w_cluster (name uuid : string) (deleted : option Z) : RemoteCluster :=
  mkRemoteCluster (om_set_DeletionTimestamp deleted (blank_meta name)) (mkRemoteClusterSpec "https://10.0.0.1:6443" [] [] [] 10)
    (mkRemoteClusterStatus uuid ClusterReady []).

Definition w_daemon (name : string) (b : bool) : managerRuntime ClusterManager :=
  mkManagerRuntime name (mkClusterManager (cluster_reader ∅) (Ret "ok")) (mkDaemonStatus b 0 "") false.

(** East has moved from its first to its second UUID; west is leaving. *)
Definition w_state : MultiCluster (CL := cluster_libs) (H0 := cluster_server) :=
  @mkMultiCluster cluster_libs cluster_server
    ({["east" := w_cluster "east" "uuid-2" None; "west" := w_cluster "west" "uuid-3" (Some 0)]} : gmap string RemoteCluster)
    (mkUuidMutex {["uuid-1" := "east"; "uuid-2" := "east"; "uuid-3" := "west"]} {["east" := "uuid-2"; "west" := "uuid-3"]})
    ({["uuid-1" := w_daemon "east" true; "uuid-3" := w_daemon "west" true]} : gmap string (managerRuntime ClusterManager)) [].

Definition w_cluster_run (name : string) : outcome unit * MultiCluster (CL := cluster_libs) (H0 := cluster_server) :=
  RemoteCluster_Reconcile (H := api_concrete) (RC := cluster_writes) map_to_list name w_state.

Lemma w_state_wf : mutex_wf (mc_mutex w_state) ∧ hub_free (mc_hub w_state).
Proof.
  split.
  - split; cbn.
    + intros name u [[<- <-]|[Hne [<- <-]%lookup_singleton_Some]]%lookup_insert_Some; done.
    + intros u name [[<- <-]|[_ [[<- <-]|[_ [<- <-]%lookup_singleton_Some]]%lookup_insert_Some]]%lookup_insert_Some; done.
  - intros u d. cbn. intros [[<- <-]|[_ [<- <-]%lookup_singleton_Some]]%lookup_insert_Some; done.
Qed.

Lemma RemoteCluster_exact_witness :
  (guarded "east" "uuid-2" w_state (w_cluster_run "east").2 ∧ mc_hub (w_cluster_run "east").2 !! "uuid-1" = None) ∧
  forgotten "west" w_state (w_cluster_run "west").2.
Proof.
  destruct w_state_wf as [Hwf Hf].
  split.
  - assert ((w_cluster_run "east").1 = Ret tt) as E by (vm_compute; reflexivity).
    pose proof (RemoteCluster_exact (A := api_concrete) (LL := cluster_libs_laws) map_to_list (λ m, reflexivity _)
      "east" (w_cluster "east" "uuid-2" None) w_state Hwf Hf eq_refl eq_refl) as H.
    unfold post in H. unfold w_cluster_run in E. rewrite E in H. destruct H as [_ H].
    rewrite decide_False in H by (intros [[]|H']; [reflexivity|discriminate H']). split; [exact H|].
    destruct H as (_ & _ & _ & Hgone & _). apply Hgone; [discriminate|reflexivity].
  - assert ((w_cluster_run "west").1 = Ret tt) as E by (vm_compute; reflexivity).
    pose proof (RemoteCluster_exact (A := api_concrete) (LL := cluster_libs_laws) map_to_list (λ m, reflexivity _)
      "west" (w_cluster "west" "uuid-3" (Some 0)) w_state Hwf Hf eq_refl eq_refl) as H.
    unfold post in H. unfold w_cluster_run in E. rewrite E in H. destruct H as [_ H].
    rewrite decide_True in H by (left; discriminate). exact H.
Defined.
