(* ===== verification/IPRange.v ===== *)
(** * Address blocks outside a subnet's ranges (pkg/daemon/utils/ip_range.go)

    The node daemon routes the addresses of a subnet that are not to be used
    as blocks: [FindSubnetExcludeIPBlocks] computes the complement of the
    ranges of a subnet, the gateway and the excluded addresses, as a list of
    CIDR blocks.  The last address of a network comes from
    github.com/mikioh/ipaddr, the class [IPAddrLib]. *)

From S2P Require Import Prelude GoNet NetBlock CNIPlugins.
Local Open Scope Z_scope.

Class IPAddrLib : Type := {
  (** [ipaddr.NewCursor([]ipaddr.Prefix{*ipaddr.NewPrefix(cidr)}).Last().IP] *)
  cursor_last : IPNet → list Z
}.

Record IPRange := mkIPRange { ir_start : list Z; ir_end : list Z }.

Section ip_range.
Context `{CNIPlugins} `{IPAddrLib}.

Definition daemon_LastIP (cidr : IPNet) : list Z := cursor_last cidr.

(** [None] is the nil range. *)
Definition CreateIPRange (start stop : list Z) : outcome (option IPRange) :=
  if decide (start = [] ∨ stop = []) then Fail (Errorf "start and end should not be nil" [])
  else if 0 <? Cmp start stop then Ret None
  else Ret (Some (mkIPRange start stop)).

Definition TryAddIP (ipAddr : list Z) : M IPRange bool :=
  ir ← get;
  if IP_Equal ipAddr (PrevIP (ir_start ir)) then put (mkIPRange ipAddr (ir_end ir));; mret true
  else if IP_Equal ipAddr (NextIP (ir_end ir)) then put (mkIPRange (ir_start ir) ipAddr);; mret true
  else mret ((0 <=? Cmp ipAddr (ir_start ir)) && (Cmp ipAddr (ir_end ir) <=? 0)).

(** [sort.Slice] by the start; equal starts, of which the order is open, end
    in an error. *)
Fixpoint insert_range (r : IPRange) (l : list IPRange) : list IPRange :=
  match l with
  | [] => [r]
  | x :: l' => if Cmp (ir_start x) (ir_start r) <? 0 then x :: insert_range r l' else r :: l
  end.

Definition sort_ranges (l : list IPRange) : list IPRange := foldr insert_range [] l.

Definition add_range (ranges : list IPRange) (start stop : list Z) : outcome (list IPRange) :=
  ipRange ← wrap_outcome (Wrapf "failed to create ip range for %v~%v: %v" [IP_String start; IP_String stop]) (CreateIPRange start stop);
  match ipRange with Some ipRange => Ret (ranges ++ [ipRange]) | None => Ret ranges end.

(** The loop over the sorted ranges: the gaps of the network. *)
Fixpoint exclude_gaps (cidrStart cidrEnd : list Z) (first : bool) (ranges included : list IPRange)
    : outcome (list IPRange) :=
  match included with
  | [] => Ret ranges
  | current :: rest =>
      if (Cmp (ir_start current) cidrStart <? 0) || (0 <? Cmp (ir_end current) cidrEnd)
      then Fail (Errorf "ip range %v~%v is out of cidr %v" [])
      else if match rest with next :: _ => 0 <=? Cmp (ir_end current) (ir_start next) | [] => false end
      then Fail (Errorf "ip range is overlapped for range %v~%v and %v~%v" [])
      else
        ranges ← if first then add_range ranges cidrStart (PrevIP (ir_start current)) else Ret ranges;
        let nextRangeStartPrev := match rest with next :: _ => PrevIP (ir_start next) | [] => cidrEnd end in
        ranges ← add_range ranges (NextIP (ir_end current)) nextRangeStartPrev;
        exclude_gaps cidrStart cidrEnd false ranges rest
  end.

(** The first range that takes the address in, if there is one. *)
Fixpoint try_add (ipAddr : list Z) (ranges : list IPRange) : option (list IPRange) :=
  match ranges with
  | [] => None
  | r :: ranges =>
      match TryAddIP ipAddr r with
      | (Ret true, r') => Some (r' :: ranges)
      | (_, r') => (λ l, r' :: l) <$> try_add ipAddr ranges
      end
  end.

Definition add_excluded (ranges : list IPRange) (ipAddr : list Z) : outcome (list IPRange) :=
  match try_add ipAddr ranges with
  | Some ranges => Ret ranges
  | None =>
      singleIPRange ← wrap_outcome (Wrapf "failed to create ip range for ip %v: %v" [IP_String ipAddr]) (CreateIPRange ipAddr ipAddr);
      match singleIPRange with
      | Some singleIPRange => Ret (ranges ++ [singleIPRange])
      | None => Panic
      end
  end.

(** [net.IPv4len * 8], [net.IPv6len * 8] *)
Definition ip_bits (ip : list Z) : nat := if decide (To4 ip = []) then 128 else 32.

(** The first prefix length that keeps the address. *)
Fixpoint zero_bits_loop (fuel : nat) (ip : list Z) (zeroBits : Z) : outcome Z :=
  match fuel with
  | O => Diverge
  | S fuel =>
      if IP_Equal (IP_Mask ip (CIDRMask zeroBits (Z.of_nat (ip_bits ip)))) ip then Ret zeroBits
      else zero_bits_loop fuel ip (zeroBits + 1)
  end.

Definition calculateIPLastZeroBits (ip : list Z) : outcome Z :=
  zeroBits ← zero_bits_loop 129 ip 0;
  Ret (Z.of_nat (ip_bits ip) - zeroBits).

Fixpoint first_cidr_loop (fuel : nat) (start stop : list Z) (maxValidCidrPrefixLen : Z)
    : outcome (IPNet * option (list Z)) :=
  match fuel with
  | O => Diverge
  | S fuel =>
      let tmpCidr := mkIPNet start (CIDRMask maxValidCidrPrefixLen (Z.of_nat (ip_bits start))) in
      let tmpCidrEnd := daemon_LastIP tmpCidr in
      if IP_Equal tmpCidrEnd stop then Ret (tmpCidr, None)
      else if IPNet_Contains tmpCidr stop then first_cidr_loop fuel start stop (maxValidCidrPrefixLen + 1)
      else Ret (tmpCidr, Some (NextIP tmpCidrEnd))
  end.

(** The second component is the nil address when the range is used up. *)
Definition findTheFirstLargestCidr (start stop : list Z) : outcome (IPNet * option (list Z)) :=
  zeroBits ← calculateIPLastZeroBits start;
  first_cidr_loop 130 start stop (Z.of_nat (ip_bits start) - zeroBits).

Fixpoint split_loop (fuel : nat) (nextRangeStart rangeEnd : list Z) : outcome (list IPNet) :=
  match fuel with
  | O => Diverge
  | S fuel =>
      '(newBlock, nextRangeStart) ← findTheFirstLargestCidr nextRangeStart rangeEnd;
      match nextRangeStart with
      | None => Ret [newBlock]
      | Some nextRangeStart => blocks ← split_loop fuel nextRangeStart rangeEnd; Ret (newBlock :: blocks)
      end
  end.

(** At most [2 * 128 + 1] blocks, see [split_loop_spec]. *)
Definition splitIPRangeToIPBlocks (ir : IPRange) : outcome (list IPNet) :=
  if decide (ir_start ir = []) then Ret [] else split_loop 257 (ir_start ir) (ir_end ir).

Definition split_all (ranges : list IPRange) : outcome (list IPNet) :=
  for_each (λ blocks ipRange, l ← splitIPRangeToIPBlocks ipRange; Ret (blocks ++ l)) [] ranges.

(** A nil gateway is the empty slice. *)
Definition all_excluded (gateway : list Z) (excludeIPs : list (list Z)) : list (list Z) :=
  if decide (gateway = []) then excludeIPs else excludeIPs ++ [gateway].

Definition FindSubnetExcludeIPBlocks (cidr : IPNet) (includedRanges : list IPRange) (gateway : list Z)
    (excludeIPs : list (list Z)) : outcome (list IPNet) :=
  excludeIPRanges ← exclude_gaps (IPNet_IP cidr) (daemon_LastIP cidr) true [] (sort_ranges includedRanges);
  excludeIPRanges ← for_each add_excluded excludeIPRanges (all_excluded gateway excludeIPs);
  split_all excludeIPRanges.
End ip_range.

(** ** A concrete reading of [Cursor.Last] *)

Definition ipaddr_concrete : IPAddrLib := {|
  cursor_last n := let '(nn, m) := networkNumberAndMask n in last_bytes (and_bytes nn m) m
|}.

Definition w_blocks (cidr : string) (included : list (string * string)) (gateway : string) (excluded : list string)
    : outcome (list (string * Z)) :=
  match ParseCIDR cidr with
  | None => Panic
  | Some (_, n) =>
      l ← FindSubnetExcludeIPBlocks (H := cni_concrete) (H0 := ipaddr_concrete) n
            (map (λ r, mkIPRange (ParseIP r.1) (ParseIP r.2)) included) (ParseIP gateway) (map ParseIP excluded);
      Ret (map (λ b, (IP_String (IPNet_IP b), fst (Mask_Size (IPNet_Mask b)))) l)
  end.

(** The expectations of the repository's own test. *)
Example blocks_of_two_ranges :
  w_blocks "192.168.3.0/24" [("192.168.3.151", "192.168.3.200"); ("192.168.3.100", "192.168.3.150")] "192.168.3.1" [] =
  Ret [("192.168.3.0", 26); ("192.168.3.64", 27); ("192.168.3.96", 30); ("192.168.3.201", 32); ("192.168.3.202", 31);
       ("192.168.3.204", 30); ("192.168.3.208", 28); ("192.168.3.224", 27)].
Proof. vm_compute. reflexivity. Qed.
