(* ===== verification/IPRangeProperties.v ===== *)
(** * The excluded blocks are the complement of the ranges

    Blocks and ranges are read as intervals of numbers ([addr]).  The greedy
    splitting of a range covers exactly the range with at most 257 aligned
    blocks; the gaps between the sorted ranges are exactly the addresses of
    the network in none of them. *)

From Stdlib Require Import Sorted.
From S2P Require Import Prelude GoNet NetBlock CNIPlugins IPRange.
Local Open Scope Z_scope.

(** ** The bytes that a mask applies to *)

Definition raw (ip : list Z) : list Z := if decide (To4 ip = []) then ip else To4 ip.

(** Both families at once: an address is a base, a multiple of the size of
    its space, and the number of its bytes. *)
Record raw_form (ip : list Z) (len : nat) (base : Z) : Prop := {
  rf_len : len = 4%nat ∨ len = 16%nat;
  rf_bits : ip_bits ip = (8 * len)%nat;
  rf_raw : bytes_ok (raw ip) ∧ length (raw ip) = len;
  rf_addr : addr ip = base + be (raw ip);
  rf_base : (2 ^ (8 * Z.of_nat len) | base);
  rf_same m : bytes_ok m → length m = len → valid_ip m ∧ addr m = base + be m;
  rf_mask z : IP_Mask ip (cidr_bytes len z) = and_bytes (raw ip) (cidr_bytes len z);
  rf_v6 : len = 16%nat → To4 ip = []
}.

Lemma addr_4 m : bytes_ok m → length m = 4%nat → addr m = v4_first + be m.
Proof. intros Hb Hl. unfold addr, To16. rewrite decide_True, be_app_gen, Hl by done. done. Qed.

Lemma addr_16 m : length m = 16%nat → addr m = be m.
Proof. intros Hl. unfold addr, To16. by rewrite decide_False, decide_True by lia. Qed.

Lemma raw_form_of ip : valid_ip ip → ∃ len base, raw_form ip len base.
Proof.
  intros Hv. destruct (decide (To4 ip = [])) as [H4|H4].
  - assert (length ip = 16%nat) as Hl.
    { destruct Hv as [_ [Hl|Hl]]; [|done]. unfold To4 in H4. rewrite decide_True in H4 by done. by rewrite H4 in Hl. }
    exists 16%nat, 0. split; unfold raw, ip_bits; rewrite ?decide_True by done; try done.
    + by right.
    + split; [apply Hv|done].
    + by rewrite addr_16.
    + apply Z.divide_0_r.
    + intros m Hm Hml. rewrite addr_16 by done. split; [split; [done|by right]|lia].
    + intros z. by apply IP_Mask_v6.
  - destruct (To4_length ip Hv) as [?|Hl]; [done|]. pose proof (To4_bytes ip Hv) as Hb.
    exists 4%nat, v4_first. split; unfold raw, ip_bits; rewrite ?decide_False by done; try done.
    + by left.
    + rewrite <-addr_4 by done. unfold addr. rewrite (To16_v4 ip) by done. unfold To16. by rewrite decide_True.
    + by exists 65535.
    + intros m Hm Hml. split; [split; [done|by left]|by apply addr_4].
    + intros z. pose proof Hv as [_ [Hi|Hi]].
      * assert (To4 ip = ip) as -> by (unfold To4; by rewrite decide_True).
        unfold IP_Mask. rewrite !(decide_False (P := _ ∧ _)) by (rewrite ?cidr_bytes_length, ?Hi; lia).
        by rewrite decide_True by (by rewrite cidr_bytes_length).
      * assert (ip = v4InV6Prefix ++ To4 ip) as E.
        { rewrite <-(To16_v4 ip) by done. unfold To16. by rewrite decide_False, decide_True by lia. }
        rewrite E at 1. by apply IP_Mask_v4.
Qed.

Lemma ip_bits_pos ip : valid_ip ip → (0 < ip_bits ip)%nat ∧ (ip_bits ip ≤ 128)%nat.
Proof. unfold ip_bits. case_decide; lia. Qed.

Lemma divide_clear h z : 0 ≤ h → (2 ^ h | z) ↔ clear h z = z.
Proof. intros Hh. by rewrite clear_mult. Qed.

Lemma divide_pow h h' z : 0 ≤ h' ≤ h → (2 ^ h | z) → (2 ^ h' | z).
Proof.
  intros Hh Hd. etrans; [|exact Hd]. exists (2 ^ (h - h')). rewrite <-Z.pow_add_r by lia. f_equal. lia.
Qed.

Lemma raw_clear ip len base h :
  raw_form ip len base → 0 ≤ h ≤ 8 * Z.of_nat len →
  (2 ^ h | addr ip) ↔ and_bytes (raw ip) (cidr_bytes len (8 * Z.of_nat len - h)) = raw ip.
Proof.
  intros [Hlen _ [Hb Hl] Ha Hbase _ _ _] Hh.
  assert (be (and_bytes (raw ip) (cidr_bytes len (8 * Z.of_nat len - h))) = clear h (be (raw ip))) as E.
  { rewrite and_bytes_cidr by (done || lia). f_equal. lia. }
  assert ((2 ^ h | addr ip) ↔ clear h (be (raw ip)) = be (raw ip)) as ->.
  { rewrite Ha, <-divide_clear by lia. apply (divide_pow _ h) in Hbase; [|lia].
    split; intros Hd; [by apply (Z.divide_add_cancel_r _ base)|by apply Z.divide_add_r]. }
  split; intros H'; [|by rewrite <-E, H'].
  apply be_inj; [apply and_bytes_ok; [done|apply cidr_bytes_ok; lia]|done| |congruence].
  unfold and_bytes. rewrite length_zip_with, cidr_bytes_length. lia.
Qed.

Lemma mask_equal ip z :
  valid_ip ip → 0 ≤ z ≤ Z.of_nat (ip_bits ip) →
  IP_Equal (IP_Mask ip (CIDRMask z (Z.of_nat (ip_bits ip)))) ip = true ↔ (2 ^ (Z.of_nat (ip_bits ip) - z) | addr ip).
Proof.
  intros Hv Hz. destruct (raw_form_of ip Hv) as (len & base & Hf). pose proof Hf as [Hlen Hbits [Hb Hl] Ha _ Hs Hm _].
  rewrite Hbits in *. replace (Z.of_nat (8 * len)) with (8 * Z.of_nat len) in * by lia.
  rewrite CIDRMask_bytes, Hm by (done || lia).
  assert (bytes_ok (and_bytes (raw ip) (cidr_bytes len z))) as Hbm by (apply and_bytes_ok; [done|apply cidr_bytes_ok; lia]).
  assert (length (and_bytes (raw ip) (cidr_bytes len z)) = len) as Hlm.
  { unfold and_bytes. rewrite length_zip_with, cidr_bytes_length. lia. }
  destruct (Hs _ Hbm Hlm) as [Hvm Ham]. rewrite IP_Equal_addr, Ham by done.
  rewrite (raw_clear ip len base) by (done || lia).
  replace (8 * Z.of_nat len - (8 * Z.of_nat len - z)) with z by lia. rewrite Ha. split.
  - intros E. apply be_inj; [done|done|congruence|lia].
  - intros ->. done.
Qed.

(** ** Blocks *)

(** [n] is the block of [2 ^ k] addresses that starts with its address. *)
Definition is_block (n : IPNet) (k : Z) : Prop :=
  valid_ip (IPNet_IP n) ∧ ∃ len, cidr_net (mkIPNet (raw (IPNet_IP n)) (IPNet_Mask n)) len (8 * Z.of_nat len - k).

Lemma To4_raw ip : To4 (raw ip) = To4 ip.
Proof.
  unfold raw. case_decide as H4; [done|]. assert (length (To4 ip) = 4%nat) as Hl.
  { unfold To4 in *. repeat case_decide; try done. rewrite length_drop. lia. }
  unfold To4 at 1. by rewrite decide_True.
Qed.

Lemma Contains_raw n a : IPNet_Contains (mkIPNet (raw (IPNet_IP n)) (IPNet_Mask n)) a = IPNet_Contains n a.
Proof.
  unfold IPNet_Contains, networkNumberAndMask. cbn [IPNet_IP IPNet_Mask]. rewrite To4_raw.
  unfold raw. by case_decide.
Qed.

Lemma addr_raw ip : valid_ip ip → valid_ip (raw ip) ∧ addr (raw ip) = addr ip ∧ is_v4 (raw ip) = is_v4 ip.
Proof.
  intros Hv. destruct (raw_form_of ip Hv) as (len & base & [_ _ [Hb Hl] Ha _ Hs _ _]).
  destruct (Hs (raw ip) Hb Hl) as [Hvr Har]. split; [done|]. split; [congruence|]. unfold is_v4. by rewrite To4_raw.
Qed.

Lemma block_contains n k a :
  is_block n k → valid_ip a →
  IPNet_Contains n a = true ↔ is_v4 a = is_v4 (IPNet_IP n) ∧ addr (IPNet_IP n) ≤ addr a < addr (IPNet_IP n) + 2 ^ k.
Proof.
  intros [Hv [len Hn]] Ha. rewrite <-Contains_raw, (Contains_block _ _ _ Hn) by done. cbn [IPNet_IP].
  destruct (addr_raw _ Hv) as (_ & -> & ->). unfold host_bits. replace (8 * Z.of_nat len - _) with k by lia. done.
Qed.

Lemma block_size n k : is_block n k → 0 ≤ k.
Proof. intros [_ [len [_ Ho _ _ _]]]. lia. Qed.

Lemma block_make start k :
  valid_ip start → 0 ≤ k ≤ Z.of_nat (ip_bits start) → (2 ^ k | addr start) →
  is_block (mkIPNet start (CIDRMask (Z.of_nat (ip_bits start) - k) (Z.of_nat (ip_bits start)))) k.
Proof.
  intros Hv Hk Hd. split; [done|]. cbn [IPNet_IP IPNet_Mask].
  destruct (raw_form_of start Hv) as (len & base & Hf). pose proof Hf as [Hlen Hbits [Hb Hl] _ _ _ _ H6].
  rewrite Hbits in *. replace (Z.of_nat (8 * len)) with (8 * Z.of_nat len) in * by lia. exists len.
  split; cbn [IPNet_IP IPNet_Mask]; [done|lia|by apply CIDRMask_bytes; [done|lia]| |].
  - exists (raw start). split; [done|]. split; [done|]. symmetry. by apply (raw_clear start len base).
  - intros Hl16. rewrite To4_raw. by apply H6.
Qed.

(** ** The first block of a range *)

(** Away from the ends of the address space and of the IPv4-mapped block. *)
Definition inner (z : Z) : Prop := has_prev z ∧ has_next z.

Class IPAddrLibLaws (A : IPAddrLib) : Prop := {
  cursor_last_law n k : is_block n k → valid_ip (cursor_last n) ∧ addr (cursor_last n) = addr (IPNet_IP n) + 2 ^ k - 1
}.

Section blocks.
Context {P : CNIPlugins} {L : CNIPluginsLaws P} {A : IPAddrLib} {AL : IPAddrLibLaws A}.

(** The largest [k] with [2 ^ k] dividing the address. *)
Definition zero_bits (start : list Z) (k : Z) : Prop :=
  0 ≤ k ≤ Z.of_nat (ip_bits start) ∧ (2 ^ k | addr start) ∧
  (k = Z.of_nat (ip_bits start) ∨ ¬ (2 ^ (k + 1) | addr start)).

Lemma zero_bits_loop_spec fuel ip z :
  valid_ip ip → 0 ≤ z ≤ Z.of_nat (ip_bits ip) → Z.of_nat (ip_bits ip) - z < Z.of_nat fuel →
  (z = 0 ∨ ¬ (2 ^ (Z.of_nat (ip_bits ip) - z + 1) | addr ip)) →
  ∃ z0, zero_bits_loop fuel ip z = Ret z0 ∧ zero_bits ip (Z.of_nat (ip_bits ip) - z0).
Proof.
  revert z. induction fuel as [|fuel IH]; intros z Hv Hz Hf Hprev; [lia|]. cbn [zero_bits_loop].
  pose proof (mask_equal ip z Hv Hz) as Hm. set (B := Z.of_nat (ip_bits ip)) in *.
  destruct (IP_Equal _ ip).
  - exists z. split; [done|]. split; [fold B; lia|]. split; [by apply Hm|]. fold B.
    destruct Hprev as [->|Hp]; [left; lia|right; done].
  - destruct (decide (z = B)) as [->|Hne].
    + exfalso. assert (false = true) by (apply Hm; replace (B - B) with 0 by lia; apply Z.divide_1_l). done.
    + apply IH; [done|lia|lia|]. right. replace (B - (z + 1) + 1) with (B - z) by lia. intros Hd. by apply Hm in Hd.
Qed.

Lemma calculateIPLastZeroBits_spec ip :
  valid_ip ip → ∃ k, calculateIPLastZeroBits ip = Ret k ∧ zero_bits ip k.
Proof.
  intros Hv. destruct (zero_bits_loop_spec 129 ip 0 Hv) as (z0 & E & Hk).
  - lia.
  - pose proof (ip_bits_pos ip Hv). lia.
  - by left.
  - unfold calculateIPLastZeroBits. rewrite E. by eexists.
Qed.

(** ** Intervals of one family *)

Definition all_inner (lo hi : Z) : Prop := ∀ z, lo ≤ z ≤ hi → inner z.

Lemma inner_family a b lo hi :
  valid_ip a → valid_ip b → all_inner lo hi → lo ≤ addr a ≤ hi → lo ≤ addr b ≤ hi → is_v4 a = is_v4 b.
Proof.
  intros Ha Hb Hi Hla Hlb. apply is_v4_same; [done..|].
  pose proof (Hi v4_first) as H1. pose proof (Hi v4_last) as H2. unfold inner, has_prev, has_next in *.
  split; intros; lia.
Qed.

(** The block of a round: aligned, inside the range, and the largest such. *)
Definition greedy (start : list Z) (stop k : Z) : Prop :=
  0 ≤ k ≤ Z.of_nat (ip_bits start) ∧ (2 ^ k | addr start) ∧ addr start + 2 ^ k ≤ stop + 1 ∧
  (k = Z.of_nat (ip_bits start) ∨ ¬ (2 ^ (k + 1) | addr start) ∨ stop + 1 < addr start + 2 ^ (k + 1)).

(** What is left after it. *)
Definition rest_of (start stop : list Z) (k : Z) (next : option (list Z)) : Prop :=
  match next with
  | None => addr start + 2 ^ k = addr stop + 1
  | Some a => valid_ip a ∧ addr a = addr start + 2 ^ k ∧ addr a ≤ addr stop ∧ is_v4 a = is_v4 start
  end.

Lemma first_cidr_loop_spec fuel start stop k :
  valid_ip start → valid_ip stop → is_v4 start = is_v4 stop → addr start ≤ addr stop →
  all_inner (addr start) (addr stop) →
  (Z.to_nat k < fuel)%nat → 0 ≤ k ≤ Z.of_nat (ip_bits start) → (2 ^ k | addr start) →
  (k = Z.of_nat (ip_bits start) ∨ ¬ (2 ^ (k + 1) | addr start) ∨ addr stop + 1 < addr start + 2 ^ (k + 1)) →
  ∃ n next k', first_cidr_loop fuel start stop (Z.of_nat (ip_bits start) - k) = Ret (n, next) ∧
    IPNet_IP n = start ∧ is_block n k' ∧ greedy start (addr stop) k' ∧ rest_of start stop k' next.
Proof.
  intros Hs He Hf Hle Hi. revert k. induction fuel as [|fuel IH]; intros k Hfuel Hk Hd Hmax; [lia|].
  cbn [first_cidr_loop]. pose proof (block_make start k Hs Hk Hd) as Hb.
  set (n := mkIPNet start (CIDRMask (Z.of_nat (ip_bits start) - k) (Z.of_nat (ip_bits start)))) in *.
  destruct (cursor_last_law n k Hb) as [Hvl Hal]. fold (daemon_LastIP n) in Hvl, Hal. change (IPNet_IP n) with start in Hal.
  pose proof (Z.pow_pos_nonneg 2 k ltac:(lia) ltac:(lia)) as Hp.
  pose proof (IP_Equal_addr (daemon_LastIP n) stop Hvl He) as Heq.
  destruct (IP_Equal (daemon_LastIP n) stop).
  { apply proj1 in Heq. specialize (Heq eq_refl). exists n, None, k. split; [done|]. split; [done|]. split; [done|].
    split; [|cbn; lia]. split; [done|]. split; [done|]. split; [lia|done]. }
  assert (addr (daemon_LastIP n) ≠ addr stop) as Hne by (intros E; apply Heq in E; done).
  pose proof (block_contains n k stop Hb He) as Hc. change (IPNet_IP n) with start in Hc.
  destruct (IPNet_Contains n stop).
  - apply proj1 in Hc. specialize (Hc eq_refl) as [_ Hc].
    assert (k ≠ 0) as Hk0 by (intros ->; change (2 ^ 0) with 1 in *; lia).
    replace (Z.of_nat (ip_bits start) - k + 1) with (Z.of_nat (ip_bits start) - (k - 1)) by lia.
    apply IH; [lia|lia| |].
    + apply (divide_pow k); [lia|done].
    + right. right. replace (k - 1 + 1) with k by lia. lia.
  - assert (addr start + 2 ^ k ≤ addr stop) as Hlt.
    { apply Z.nlt_ge. intros Hlt. assert (false = true); [|done]. apply Hc. split; [by rewrite Hf|lia]. }
    assert (has_next (addr (daemon_LastIP n))) as Hn by (apply Hi; lia).
    destruct (NextIP_law _ Hvl Hn) as [Hvn Han].
    exists n, (Some (NextIP (daemon_LastIP n))), k. split; [done|]. split; [done|]. split; [done|].
    split; [split; [done|split; [done|split; [lia|done]]]|]. cbn. split; [done|]. split; [lia|]. split; [lia|].
    apply (inner_family _ _ (addr start) (addr stop)); [done..|lia|lia].
Qed.

Lemma findTheFirstLargestCidr_spec start stop :
  valid_ip start → valid_ip stop → is_v4 start = is_v4 stop → addr start ≤ addr stop →
  all_inner (addr start) (addr stop) →
  ∃ n next k, findTheFirstLargestCidr start stop = Ret (n, next) ∧
    IPNet_IP n = start ∧ is_block n k ∧ greedy start (addr stop) k ∧ rest_of start stop k next.
Proof.
  intros Hs He Hf Hle Hi. destruct (calculateIPLastZeroBits_spec start Hs) as (k & E & Hk & Hd & Hmax).
  unfold findTheFirstLargestCidr. rewrite E. cbn [mbind outcome_bind]. pose proof (ip_bits_pos start Hs).
  apply first_cidr_loop_spec; try done; [lia|]. destruct Hmax; auto.
Qed.

(** ** Splitting a range *)

Definition covered (blocks : list IPNet) (a : list Z) : Prop := Exists (λ b, IPNet_Contains b a = true) blocks.

Definition splits (start stop : list Z) (blocks : list IPNet) : Prop :=
  Forall (λ b, ∃ k, is_block b k) blocks ∧
  ∀ a, valid_ip a → covered blocks a ↔ is_v4 a = is_v4 start ∧ addr start ≤ addr a ≤ addr stop.

(** The two phases of the greedy algorithm: first the alignment of the start
    grows with every block, then the size of the rest shrinks below the size
    of the last block. *)
Definition shrinking (start : list Z) (stop m : Z) : Prop := (2 ^ m | addr start) ∧ stop + 1 < addr start + 2 ^ m.

Lemma greedy_size start stop k m :
  greedy start stop k → shrinking start stop m → 0 ≤ m ≤ Z.of_nat (ip_bits start) → k < m ∧ stop + 1 < addr start + 2 ^ (k + 1).
Proof.
  intros (Hk & Hd & Hle & Hmax) [Hm Hlt] Hm0.
  assert (k < m) as Hkm.
  { apply Z.nle_gt. intros Hmk. pose proof (Z.pow_le_mono_r 2 m k). lia. }
  split; [done|]. destruct Hmax as [->|[Hnd|?]]; [lia| |done]. exfalso. apply Hnd. apply (divide_pow m); [lia|done].
Qed.

Lemma splits_cons start stop n k a l :
  valid_ip start → IPNet_IP n = start → is_block n k → addr a = addr start + 2 ^ k → is_v4 a = is_v4 start →
  addr a ≤ addr stop → splits a stop l → splits start stop (n :: l).
Proof.
  intros Hs En Hb Ha Hf Hle [HF Hl]. split; [constructor; [by exists k|done]|]. intros x Hx. unfold covered.
  rewrite Exists_cons. fold (covered l x). rewrite Hl, (block_contains n k), En, Ha, Hf by done.
  pose proof (block_size _ _ Hb). pose proof (Z.pow_pos_nonneg 2 k ltac:(lia) ltac:(done)).
  split; [intros [[? ?]|[? ?]]; (split; [done|lia])|intros [? ?]].
  destruct (Z.lt_ge_cases (addr x) (addr start + 2 ^ k)); [left|right]; (split; [done|lia]).
Qed.

Lemma splits_one start stop n k :
  IPNet_IP n = start → is_block n k → addr start + 2 ^ k = addr stop + 1 → splits start stop [n].
Proof.
  intros En Hb Hk. split; [constructor; [by exists k|constructor]|]. intros x Hx. unfold covered.
  rewrite Exists_cons, Exists_nil, (block_contains n k), En by done. intuition lia.
Qed.

Lemma ip_bits_family a b : is_v4 a = is_v4 b → ip_bits a = ip_bits b.
Proof. unfold is_v4, ip_bits. intros E. do 2 case_bool_decide; do 2 case_decide; done || tauto. Qed.

Lemma all_inner_sub lo hi lo' hi' : lo ≤ lo' → hi' ≤ hi → all_inner lo hi → all_inner lo' hi'.
Proof. intros H1 H2 Hi z Hz. apply Hi. lia. Qed.

(** The hypotheses on a range, in one place. *)
Record range_in (start stop : list Z) : Prop := {
  ri_start : valid_ip start;
  ri_stop : valid_ip stop;
  ri_family : is_v4 start = is_v4 stop;
  ri_le : addr start ≤ addr stop;
  ri_inner : all_inner (addr start) (addr stop)
}.

Lemma range_in_rest start stop k a :
  0 ≤ k → range_in start stop → rest_of start stop k (Some a) → range_in a stop ∧ ip_bits a = ip_bits start.
Proof.
  intros Hk [Hs He Hf Hle Hi] (Ha & Ea & Hle' & Hfa). pose proof (Z.pow_pos_nonneg 2 k ltac:(lia) Hk).
  split; [|by apply ip_bits_family]. split; [done|done|congruence|done|].
  apply (all_inner_sub (addr start) (addr stop)); [lia|lia|done].
Qed.

Lemma split_round fuel start stop :
  range_in start stop →
  ∃ n next k, findTheFirstLargestCidr start stop = Ret (n, next) ∧ greedy start (addr stop) k ∧ rest_of start stop k next ∧
    (next = None → ∃ l, split_loop (S fuel) start stop = Ret l ∧ splits start stop l) ∧
    (∀ a l, next = Some a → split_loop fuel a stop = Ret l → splits a stop l →
       ∃ l, split_loop (S fuel) start stop = Ret l ∧ splits start stop l).
Proof.
  intros [Hs He Hf Hle Hi]. destruct (findTheFirstLargestCidr_spec start stop) as (n & next & k & E & En & Hb & Hg & Hr); [done..|].
  exists n, next, k. split; [done|]. split; [done|]. split; [done|]. cbn [split_loop]. rewrite E. cbn [mbind outcome_bind]. split.
  - intros ->. eexists. split; [done|]. by apply (splits_one start stop n k).
  - intros a l -> El Hl. rewrite El. cbn [mbind outcome_bind]. eexists. split; [done|]. destruct Hr as (Ha & Ea & Hla & Hfa).
    by apply (splits_cons start stop n k a).
Qed.

Lemma split_shrinking fuel start stop m :
  range_in start stop → shrinking start (addr stop) m → 0 ≤ m ≤ Z.of_nat (ip_bits start) → (Z.to_nat m ≤ fuel)%nat →
  ∃ l, split_loop fuel start stop = Ret l ∧ splits start stop l.
Proof.
  revert start m. induction fuel as [|fuel IH]; intros start m Hr Hm Hm0 Hf.
  - exfalso. destruct Hm as [_ Hm]. replace m with 0 in Hm by lia. pose proof (ri_le _ _ Hr). lia.
  - destruct (split_round fuel start stop Hr) as (n & next & k & _ & Hg & Hrest & Hnone & Hsome).
    destruct next as [a|]; [|by apply Hnone].
    destruct (greedy_size _ _ _ _ Hg Hm Hm0) as [Hkm Hsize]. destruct Hg as (Hk & Hd & _).
    destruct (range_in_rest _ _ _ _ (proj1 Hk) Hr Hrest) as [Hra Hba]. destruct Hrest as (_ & Ea & _ & _).
    destruct (IH a k) as (l & El & Hl); [done| |rewrite Hba; lia|lia|].
    + split; [rewrite Ea; by apply Z.divide_add_r, Z.divide_refl|]. rewrite Z.pow_add_r in Hsize by lia. lia.
    + by apply (Hsome a l).
Qed.

Lemma next_aligned z k : 0 ≤ k → (2 ^ k | z) → ¬ (2 ^ (k + 1) | z) → (2 ^ (k + 1) | z + 2 ^ k).
Proof.
  intros Hk [q ->] Hn. rewrite Z.pow_add_r in * by lia. change (2 ^ 1) with 2 in *.
  destruct (Z.Even_or_Odd q) as [[r ->]|[r ->]]; [exfalso; apply Hn; exists r; lia|]. exists (r + 1). lia.
Qed.

(** A whole address space is not inside an inner range. *)
Lemma range_in_proper start stop : range_in start stop → addr stop + 1 < addr start + 2 ^ Z.of_nat (ip_bits start).
Proof.
  intros [Hs He Hf Hle Hi]. pose proof (Hi (addr start) ltac:(lia)) as [[Hp1 [Hp2 Hp3]] _].
  pose proof (Hi (addr stop) ltac:(lia)) as [_ [Hn1 [Hn2 Hn3]]].
  destruct (is_v4 start) eqn:Hv.
  - assert (ip_bits start = 32%nat) as ->.
    { apply bool_decide_eq_true_1 in Hv. unfold ip_bits. by rewrite decide_False. }
    apply is_v4_addr in Hv; [|done]. symmetry in Hf. apply is_v4_addr in Hf; [|done]. unfold v4_first, v4_last in *. lia.
  - assert (ip_bits start = 128%nat) as ->.
    { apply bool_decide_eq_false_1, dec_stable in Hv. unfold ip_bits. by rewrite decide_True. }
    pose proof (addr_bounds _ He). change (Z.of_nat 128) with 128. lia.
Qed.

Lemma split_growing fuel start stop j :
  range_in start stop → (2 ^ j | addr start) → 0 ≤ j ≤ Z.of_nat (ip_bits start) →
  (2 * Z.of_nat (ip_bits start) + 1 - j ≤ Z.of_nat fuel) →
  ∃ l, split_loop fuel start stop = Ret l ∧ splits start stop l.
Proof.
  revert start j. induction fuel as [|fuel IH]; intros start j Hr Hd Hj Hf; [lia|].
  destruct (split_round fuel start stop Hr) as (n & next & k & _ & (Hk & Hdk & Hle & Hmax) & Hrest & Hnone & Hsome).
  destruct next as [a|]; [|by apply Hnone].
  destruct (range_in_rest _ _ _ _ (proj1 Hk) Hr Hrest) as [Hra Hba]. destruct Hrest as (_ & Ea & _ & _).
  destruct Hmax as [->|[Hnd|Hs]].
  - pose proof (range_in_proper _ _ Hr). lia.
  - assert (j ≤ k) as Hjk by (apply Z.nlt_ge; intros Hlt; apply Hnd, (divide_pow j); [lia|done]).
    destruct (decide (k = Z.of_nat (ip_bits start))) as [->|]; [pose proof (range_in_proper _ _ Hr); lia|].
    destruct (IH a (k + 1)) as (l & El & Hl); [done|rewrite Ea; by apply next_aligned; [lia|..]|rewrite Hba; lia|rewrite Hba; lia|].
    by apply (Hsome a l).
  - destruct (split_shrinking fuel a stop k) as (l & El & Hl); [done| |rewrite Hba; lia|lia|].
    + split; [rewrite Ea; by apply Z.divide_add_r, Z.divide_refl|]. rewrite Z.pow_add_r in Hs by lia. lia.
    + by apply (Hsome a l).
Qed.

Lemma splitIPRangeToIPBlocks_spec start stop :
  range_in start stop → ∃ l, splitIPRangeToIPBlocks (mkIPRange start stop) = Ret l ∧ splits start stop l.
Proof.
  intros Hr. unfold splitIPRangeToIPBlocks. cbn [ir_start ir_end].
  rewrite decide_False by (intros ->; pose proof (ri_start _ _ Hr) as [_ [?|?]]; done).
  apply (split_growing 257 start stop 0); [done|apply Z.divide_1_l|lia|].
  pose proof (ip_bits_pos start (ri_start _ _ Hr)). lia.
Qed.

(** ** Lists of ranges *)

Definition in_range (r : IPRange) (z : Z) : Prop := addr (ir_start r) ≤ z ≤ addr (ir_end r).
Definition in_ranges (rs : list IPRange) (z : Z) : Prop := Exists (λ r, in_range r z) rs.

#[export] Instance in_ranges_dec rs z : Decision (in_ranges rs z).
Proof. unfold in_ranges, in_range. apply _. Defined.

Definition range_wf (f : bool) (r : IPRange) : Prop := range_in (ir_start r) (ir_end r) ∧ is_v4 (ir_start r) = f.

Lemma in_ranges_cons r rs z : in_ranges (r :: rs) z ↔ in_range r z ∨ in_ranges rs z.
Proof. unfold in_ranges. by rewrite Exists_cons. Qed.

Lemma in_ranges_nil z : in_ranges [] z ↔ False.
Proof. unfold in_ranges. by rewrite Exists_nil. Qed.

Lemma in_ranges_snoc rs r z : in_ranges (rs ++ [r]) z ↔ in_ranges rs z ∨ in_range r z.
Proof. unfold in_ranges. by rewrite Exists_app, Exists_cons, Exists_nil, (right_id False or). Qed.

Lemma valid_not_nil ip : valid_ip ip → ip ≠ [].
Proof. intros [_ [H|H]]; by intros ->. Qed.

Lemma PrevIP_family a : valid_ip a → has_prev (addr a) → is_v4 (PrevIP a) = is_v4 a.
Proof.
  intros Ha Hn. destruct (PrevIP_law a Ha Hn) as [Hv Hz]. apply is_v4_same; [done..|]. rewrite Hz. unfold has_prev in Hn. lia.
Qed.

Lemma add_range_spec f ranges a b :
  Forall (range_wf f) ranges → valid_ip a → valid_ip b → is_v4 a = f → is_v4 b = f → all_inner (addr a) (addr b) →
  ∃ ranges', add_range ranges a b = Ret ranges' ∧ Forall (range_wf f) ranges' ∧
    ∀ z, in_ranges ranges' z ↔ in_ranges ranges z ∨ addr a ≤ z ≤ addr b.
Proof.
  intros Hr Ha Hb Fa Fb Hi. unfold add_range, CreateIPRange.
  rewrite decide_False by (intros [E|E]; [by apply (valid_not_nil a)|by apply (valid_not_nil b)]).
  rewrite Cmp_gt by congruence. destruct (Z.ltb_spec (addr b) (addr a)); cbn [wrap_outcome mbind outcome_bind].
  - exists ranges. split; [done|]. split; [done|]. intros z. split; [auto|intros [?|?]; [done|lia]].
  - eexists. split; [done|]. split; [|by intros z; rewrite in_ranges_snoc].
    apply Forall_app. split; [done|]. apply Forall_singleton. split; [|done]. split; cbn; done || congruence.
Qed.

Lemma add_range_total ranges a b : (∃ r, add_range ranges a b = Ret r) ∨ (∃ e, add_range ranges a b = Fail e).
Proof. unfold add_range, CreateIPRange. case_decide; [by eauto|]. destruct (0 <? Cmp a b); cbn; eauto. Qed.

(** ** The gaps *)

Section gaps.
Context (f : bool) (cs ce : list Z) (Hcs : valid_ip cs) (Hce : valid_ip ce) (Fcs : is_v4 cs = f) (Fce : is_v4 ce = f)
  (Hin : all_inner (addr cs) (addr ce)).

(** A range as [CreateIPRange] makes it, of the family of the network. *)
Definition given (r : IPRange) : Prop :=
  valid_ip (ir_start r) ∧ valid_ip (ir_end r) ∧ is_v4 (ir_start r) = f ∧ is_v4 (ir_end r) = f ∧
  addr (ir_start r) ≤ addr (ir_end r).

Definition within (r : IPRange) : Prop := addr cs ≤ addr (ir_start r) ∧ addr (ir_end r) ≤ addr ce.
#[local] Instance within_dec r : Decision (within r).
Proof. unfold within. apply _. Defined.
Definition apart (r s : IPRange) : Prop := addr (ir_end r) < addr (ir_start s) ∨ addr (ir_end s) < addr (ir_start r).
Definition starts_before (r s : IPRange) : Prop := addr (ir_start r) ≤ addr (ir_start s).

(** The two checks of a round. *)
Lemma outside_spec r : given r →
  (Cmp (ir_start r) cs <? 0) || (0 <? Cmp (ir_end r) ce) = false ↔ within r.
Proof.
  intros (Hs & He & Fs & Fe & _). rewrite Cmp_lt, Cmp_gt, orb_false_iff, !Z.ltb_ge by congruence. done.
Qed.

Lemma overlap_spec r s : given r → given s →
  (0 <=? Cmp (ir_end r) (ir_start s)) = false ↔ addr (ir_end r) < addr (ir_start s).
Proof.
  intros (_ & He & _ & Fe & _) (Hs & _ & Fs & _). rewrite Z.leb_antisym, Cmp_lt, negb_false_iff by congruence.
  apply Z.ltb_lt.
Qed.

Definition lower (first : bool) (included : list IPRange) : Z :=
  if first then addr cs else match included with c :: _ => addr (ir_start c) | [] => addr ce + 1 end.

Definition gaps (first : bool) (included : list IPRange) (z : Z) : Prop :=
  included ≠ [] ∧ lower first included ≤ z ≤ addr ce ∧ ¬ in_ranges included z.

Lemma exclude_gaps_outside first ranges c rest :
  given c → ¬ within c → ∃ e, exclude_gaps cs ce first ranges (c :: rest) = Fail e.
Proof.
  intros Hc Hw. cbn [exclude_gaps]. pose proof (outside_spec c Hc) as Ho.
  destruct (_ || _); [by eexists|]. exfalso. by apply Hw, Ho.
Qed.

Lemma before_rest c rest z :
  StronglySorted starts_before (c :: rest) → z < addr (ir_start c) → ¬ in_ranges (c :: rest) z.
Proof.
  intros Hs Hz. apply StronglySorted_inv in Hs as [_ Hs]. rewrite in_ranges_cons. unfold in_range. intros [?|Hr]; [lia|].
  apply Exists_exists in Hr as (r & Hr & Hrz). rewrite Forall_forall in Hs. specialize (Hs r Hr).
  unfold starts_before, in_range in *. lia.
Qed.

(** The gap after the range [c]. *)
Lemma gap_after c rest z first :
  given c → within c → StronglySorted starts_before (c :: rest) →
  match rest with n :: _ => addr (ir_end c) < addr (ir_start n) | [] => True end →
  gaps first (c :: rest) z ↔
    (first = true ∧ addr cs ≤ z < addr (ir_start c)) ∨
    (addr (ir_end c) < z ∧ z ≤ match rest with n :: _ => addr (ir_start n) - 1 | [] => addr ce end ∧ z ≤ addr ce) ∨
    gaps false rest z.
Proof.
  intros (_ & _ & _ & _ & Hle) [Hw1 Hw2] Hs Hnext. unfold gaps, lower. rewrite in_ranges_cons. unfold in_range at 1.
  pose proof (before_rest c rest z Hs) as Hb. rewrite in_ranges_cons in Hb. unfold in_range at 1 in Hb.
  apply StronglySorted_inv in Hs as [Hs _].
  assert ((c :: rest ≠ []) ↔ True) as -> by done. assert ((true = true) ↔ True) as Ht by done.
  assert ((false = true) ↔ False) as Hf by done. destruct rest as [|n rest].
  - rewrite in_ranges_nil in *. assert (([] : list IPRange) ≠ [] ↔ False) as -> by tauto.
    destruct first; rewrite ?Ht, ?Hf; lia.
  - pose proof (before_rest n rest z Hs) as Hn. assert ((n :: rest ≠ []) ↔ True) as -> by done.
    destruct (decide (in_ranges (n :: rest) z)) as [Hr|Hr].
    + assert (in_ranges (n :: rest) z ↔ True) as E by done. rewrite E in *. destruct first; rewrite ?Ht, ?Hf; lia.
    + assert (in_ranges (n :: rest) z ↔ False) as E by done. rewrite E in *. destruct first; rewrite ?Ht, ?Hf; lia.
Qed.

Lemma first_gap (first : bool) ranges c :
  given c → within c → Forall (range_wf f) ranges →
  ∃ ranges', (if first then add_range ranges cs (PrevIP (ir_start c)) else Ret ranges) = Ret ranges' ∧
    Forall (range_wf f) ranges' ∧
    ∀ z, in_ranges ranges' z ↔ in_ranges ranges z ∨ (first = true ∧ addr cs ≤ z < addr (ir_start c)).
Proof.
  intros (Hs & _ & Fs & _ & Hle) [Hw1 Hw2] Hr. destruct first.
  - assert (has_prev (addr (ir_start c))) as Hp by (apply Hin; lia).
    destruct (PrevIP_law _ Hs Hp) as [Hv Ha].
    destruct (add_range_spec f ranges cs (PrevIP (ir_start c)) Hr Hcs Hv Fcs) as (r & E & Hwf & Hz).
    + by rewrite PrevIP_family.
    + apply (all_inner_sub (addr cs) (addr ce)); [lia|lia|done].
    + exists r. split; [done|]. split; [done|]. intros z. rewrite Hz, Ha. intuition lia.
  - exists ranges. split; [done|]. split; [done|]. intros z. intuition congruence.
Qed.

Lemma next_gap ranges c rest :
  given c → within c → Forall (range_wf f) ranges →
  match rest with n :: _ => given n ∧ within n | [] => True end →
  ∃ ranges', add_range ranges (NextIP (ir_end c)) (match rest with next :: _ => PrevIP (ir_start next) | [] => ce end) = Ret ranges' ∧
    Forall (range_wf f) ranges' ∧
    ∀ z, in_ranges ranges' z ↔ in_ranges ranges z ∨
      (addr (ir_end c) < z ∧ z ≤ match rest with n :: _ => addr (ir_start n) - 1 | [] => addr ce end ∧ z ≤ addr ce).
Proof.
  intros (_ & He & _ & Fe & Hle) [Hw1 Hw2] Hr Hn.
  assert (has_next (addr (ir_end c))) as Hx by (apply Hin; lia).
  destruct (NextIP_law _ He Hx) as [Hv Ha]. pose proof (NextIP_family _ He Hx) as Hfam. rewrite Fe in Hfam.
  destruct rest as [|n rest].
  - destruct (add_range_spec f ranges (NextIP (ir_end c)) ce Hr Hv Hce Hfam Fce) as (r & E & Hwf & Hz).
    { apply (all_inner_sub (addr cs) (addr ce)); [lia|lia|done]. }
    exists r. split; [done|]. split; [done|]. intros z. rewrite Hz, Ha. intuition lia.
  - destruct Hn as [(Hs & _ & Fs & _ & Hle') [Hw1' Hw2']].
    assert (has_prev (addr (ir_start n))) as Hp by (apply Hin; lia). destruct (PrevIP_law _ Hs Hp) as [Hv' Ha'].
    destruct (add_range_spec f ranges (NextIP (ir_end c)) (PrevIP (ir_start n)) Hr Hv Hv' Hfam) as (r & E & Hwf & Hz).
    { by rewrite PrevIP_family. }
    { apply (all_inner_sub (addr cs) (addr ce)); [lia|lia|done]. }
    exists r. split; [done|]. split; [done|]. intros z. rewrite Hz, Ha, Ha'. intuition lia.
Qed.

Lemma apart_rest c rest :
  StronglySorted starts_before (c :: rest) → match rest with n :: _ => addr (ir_end c) < addr (ir_start n) | [] => True end →
  Forall (apart c) rest.
Proof.
  intros Hs Hn. apply StronglySorted_inv in Hs as [Hs _]. destruct rest as [|n rest]; [constructor|].
  apply StronglySorted_inv in Hs as [_ Hs]. constructor; [by left|]. eapply Forall_impl; [exact Hs|].
  intros r Hr. left. unfold starts_before in Hr. lia.
Qed.

Lemma exclude_gaps_spec first ranges included :
  Forall given included → StronglySorted starts_before included → Forall (range_wf f) ranges →
  match exclude_gaps cs ce first ranges included with
  | Ret ranges' => Forall within included ∧ ForallOrdPairs apart included ∧ Forall (range_wf f) ranges' ∧
      ∀ z, in_ranges ranges' z ↔ in_ranges ranges z ∨ gaps first included z
  | Fail _ => ¬ (Forall within included ∧ ForallOrdPairs apart included)
  | _ => False
  end.
Proof.
  revert first ranges. induction included as [|c rest IH]; intros first ranges Hg Hs Hr.
  { cbn [exclude_gaps]. split; [constructor|]. split; [constructor|]. split; [done|]. unfold gaps. intuition. }
  apply Forall_cons in Hg as [Hc Hg]. destruct (decide (within c)) as [Hw|Hw].
  2:{ destruct (exclude_gaps_outside first ranges c rest Hc Hw) as [e ->]. rewrite Forall_cons. tauto. }
  cbn [exclude_gaps]. rewrite (proj2 (outside_spec c Hc) Hw).
  destruct (match rest with next :: _ => 0 <=? Cmp (ir_end c) (ir_start next) | [] => false end) eqn:Eo.
  { destruct rest as [|n rest]; [done|]. intros [_ Ha]. inversion Ha as [|? ? Hca _]; subst.
    apply Forall_cons in Hca as [Hca _]. apply Forall_cons in Hg as [Hn _]. pose proof (overlap_spec c n Hc Hn) as Ho.
    apply StronglySorted_inv in Hs as [_ Hs]. apply Forall_cons in Hs as [Hs _].
    assert (¬ addr (ir_end c) < addr (ir_start n)) as Hno by (intros Hlt; apply Ho in Hlt; congruence).
    destruct Hn as (_ & _ & _ & _ & Hle). unfold apart, starts_before in *. lia. }
  assert (match rest with n :: _ => addr (ir_end c) < addr (ir_start n) | [] => True end) as Hlt.
  { destruct rest as [|n rest]; [done|]. apply Forall_cons in Hg as [Hn _]. by apply (overlap_spec c n Hc Hn). }
  destruct (first_gap first ranges c Hc Hw Hr) as (r1 & -> & Hr1 & Hz1). cbn [mbind outcome_bind].
  pose proof Hs as Hs0. apply StronglySorted_inv in Hs as [Hs _].
  assert ((match rest with n :: _ => within n | [] => True end) ∨ ¬ match rest with n :: _ => within n | [] => True end) as [Hwn|Hwn].
  { destruct rest as [|n ?]; [by left|]. destruct (decide (within n)); auto. }
  - destruct (next_gap r1 c rest Hc Hw Hr1) as (r2 & -> & Hr2 & Hz2).
    { destruct rest; [done|]. apply Forall_cons in Hg as [? _]. done. }
    cbn [mbind outcome_bind]. specialize (IH false r2 Hg Hs Hr2). destruct (exclude_gaps cs ce false r2 rest) as [r'|e| |]; [| |done|done].
    + destruct IH as (Hwr & Har & Hr' & Hz). split; [by constructor|].
      split; [constructor; [by apply apart_rest|done]|]. split; [done|].
      intros z. rewrite Hz, Hz2, Hz1, (gap_after c rest z first) by done. tauto.
    + intros [Hwa Haa]. apply IH. apply Forall_cons in Hwa as [_ ?]. by inversion Haa.
  - destruct rest as [|n rest]; [done|]. apply Forall_cons in Hg as [Hn Hg].
    destruct (add_range_total r1 (NextIP (ir_end c)) (PrevIP (ir_start n))) as [[r2 ->]|[e ->]]; cbn [mbind outcome_bind].
    + destruct (exclude_gaps_outside false r2 n rest Hn Hwn) as [e ->]. rewrite !Forall_cons. tauto.
    + rewrite !Forall_cons. tauto.
Qed.
End gaps.

(** ** Sorting *)

Section sorting.
Context (f : bool).

Lemma insert_range_perm r l : insert_range r l ≡ₚ r :: l.
Proof.
  induction l as [|x l IH]; [done|]. cbn [insert_range]. destruct (_ <? 0); [|done]. rewrite IH. constructor.
Qed.

Lemma sort_ranges_perm l : sort_ranges l ≡ₚ l.
Proof. induction l as [|r l IH]; [done|]. cbn [sort_ranges foldr]. by rewrite insert_range_perm, IH. Qed.

Lemma insert_range_sorted r l :
  given f r → Forall (given f) l → StronglySorted starts_before l → StronglySorted starts_before (insert_range r l).
Proof.
  intros Hr Hl. induction Hl as [|x l Hx Hl IH]; intros Hs; [by repeat constructor|].
  apply StronglySorted_inv in Hs as [Hs Hf]. cbn [insert_range].
  pose proof Hr as (Vr & _ & Fr & _). pose proof Hx as (Vx & _ & Fx & _).
  rewrite Cmp_lt by congruence. destruct (Z.ltb_spec (addr (ir_start x)) (addr (ir_start r))) as [Hlt|Hge].
  - constructor; [by apply IH|]. rewrite insert_range_perm. constructor; [unfold starts_before; lia|done].
  - constructor; [by constructor|]. constructor; [done|]. eapply Forall_impl; [exact Hf|].
    unfold starts_before. intros y Hy. lia.
Qed.

Lemma sort_ranges_sorted l : Forall (given f) l → StronglySorted starts_before (sort_ranges l).
Proof.
  induction 1 as [|r l Hr Hl IH]; [constructor|]. cbn [sort_ranges foldr]. apply insert_range_sorted; [done| |done].
  change (Forall (given f) (sort_ranges l)). by rewrite sort_ranges_perm.
Qed.

Lemma apart_perm l l' : l ≡ₚ l' → ForallOrdPairs apart l → ForallOrdPairs apart l'.
Proof.
  induction 1 as [|x l l' Hp IH|x y l|l l' l'' _ IH1 _ IH2]; intros Ha; [done| | |by auto].
  - inversion Ha as [|? ? Hx Hl]; subst. constructor; [by rewrite <-Hp|by apply IH].
  - inversion Ha as [|? ? Hx Hl]; subst. inversion Hl as [|? ? Hy Hl']; subst. apply Forall_cons in Hx as [Hyx Hx].
    constructor; [constructor; [unfold apart in *; lia|done]|by constructor].
Qed.

Lemma in_ranges_perm l l' z : l ≡ₚ l' → in_ranges l z ↔ in_ranges l' z.
Proof. intros Hp. unfold in_ranges. by rewrite Hp. Qed.

(** ** The excluded addresses *)

Definition addr_ok (ip : list Z) : Prop := valid_ip ip ∧ is_v4 ip = f ∧ inner (addr ip).

Lemma range_wf_given r : range_wf f r → given f r.
Proof. intros [[] E]. unfold given. split_and!; congruence || done. Qed.

(** One range takes the address in when it is next to it or inside it. *)
Lemma TryAddIP_spec ip r :
  addr_ok ip → range_wf f r →
  ∃ r', (TryAddIP ip r = (Ret true, r') ∧ range_wf f r' ∧ (∀ z, in_range r' z ↔ in_range r z ∨ z = addr ip)) ∨
        (TryAddIP ip r = (Ret false, r') ∧ r' = r).
Proof.
  intros (Hv & Fi & Hi) [[Hs He Hf Hle Hin] Fr].
  destruct (Hin (addr (ir_start r)) ltac:(lia)) as [Hp _]. destruct (Hin (addr (ir_end r)) ltac:(lia)) as [_ Hn].
  destruct (PrevIP_law _ Hs Hp) as [Hvp Hap]. destruct (NextIP_law _ He Hn) as [Hvn Han].
  pose proof (IP_Equal_addr ip _ Hv Hvp) as Eq1. pose proof (IP_Equal_addr ip _ Hv Hvn) as Eq2. unfold TryAddIP. m_run.
  destruct (IP_Equal ip (PrevIP (ir_start r))).
  { apply proj1 in Eq1. specialize (Eq1 eq_refl). eexists. left. split; [done|]. split.
    - split; [|done]. split; cbn; [done..|congruence|lia|]. intros z Hz.
      destruct (decide (z = addr ip)) as [->|]; [done|apply Hin; lia].
    - intros z. unfold in_range. cbn [ir_start ir_end]. lia. }
  destruct (IP_Equal ip (NextIP (ir_end r))).
  { apply proj1 in Eq2. specialize (Eq2 eq_refl). eexists. left. split; [done|]. split.
    - split; [|done]. split; cbn; [done..|congruence|lia|]. intros z Hz.
      destruct (decide (z = addr ip)) as [->|]; [done|apply Hin; lia].
    - intros z. unfold in_range. cbn [ir_start ir_end]. lia. }
  exists r. rewrite Z.leb_antisym, Cmp_lt, Cmp_le by congruence.
  destruct (Z.ltb_spec (addr ip) (addr (ir_start r))), (Z.leb_spec (addr ip) (addr (ir_end r))); cbn [negb andb];
    [by right|by right| |by right]. left. split; [done|]. split; [by split|]. intros z. unfold in_range. lia.
Qed.

Lemma try_add_spec ip ranges :
  addr_ok ip → Forall (range_wf f) ranges →
  match try_add ip ranges with
  | Some ranges' => Forall (range_wf f) ranges' ∧ ∀ z, in_ranges ranges' z ↔ in_ranges ranges z ∨ z = addr ip
  | None => True
  end.
Proof.
  intros Hip. induction 1 as [|r ranges Hr Hrs IH]; [done|]. cbn [try_add].
  destruct (TryAddIP_spec ip r Hip Hr) as [r' [(-> & Hr' & Hz)|[-> ->]]].
  - split; [by constructor|]. intros z. rewrite !in_ranges_cons, Hz. tauto.
  - destruct (try_add ip ranges) as [rs'|]; [|done]. cbn. destruct IH as [Hwf Hz]. split; [by constructor|].
    intros z. rewrite !in_ranges_cons, Hz. tauto.
Qed.

Lemma add_excluded_spec ip ranges :
  addr_ok ip → Forall (range_wf f) ranges →
  ∃ ranges', add_excluded ranges ip = Ret ranges' ∧ Forall (range_wf f) ranges' ∧
    ∀ z, in_ranges ranges' z ↔ in_ranges ranges z ∨ z = addr ip.
Proof.
  intros Hip Hr. pose proof (try_add_spec ip ranges Hip Hr) as Ht. unfold add_excluded.
  destruct (try_add ip ranges) as [rs'|]; [by exists rs'|]. destruct Hip as (Hv & Fi & Hi). unfold CreateIPRange.
  rewrite decide_False by (intros [E|E]; by apply (valid_not_nil ip)). rewrite Cmp_gt by done.
  rewrite Z.ltb_irrefl. cbn [wrap_outcome mbind outcome_bind]. eexists. split; [done|]. split.
  - apply Forall_app. split; [done|]. apply Forall_singleton. split; [|done]. split; cbn; [done..|lia|].
    intros z Hz. by replace z with (addr ip) by lia.
  - intros z. rewrite in_ranges_snoc. unfold in_range. cbn [ir_start ir_end]. intuition lia.
Qed.

Lemma add_all_spec ips ranges :
  Forall addr_ok ips → Forall (range_wf f) ranges →
  ∃ ranges', for_each add_excluded ranges ips = Ret ranges' ∧ Forall (range_wf f) ranges' ∧
    ∀ z, in_ranges ranges' z ↔ in_ranges ranges z ∨ z ∈ addr <$> ips.
Proof.
  intros Hips. revert ranges. induction Hips as [|ip ips Hip _ IH]; intros ranges Hr.
  - exists ranges. split; [done|]. split; [done|]. intros z. cbn. rewrite elem_of_nil. tauto.
  - cbn [for_each]. destruct (add_excluded_spec ip ranges Hip Hr) as (r1 & -> & Hr1 & Hz1). cbn [mbind outcome_bind].
    destruct (IH r1 Hr1) as (r2 & E & Hr2 & Hz2). exists r2. split; [done|]. split; [done|].
    intros z. rewrite Hz2, Hz1, fmap_cons, elem_of_cons. tauto.
Qed.

(** ** All blocks *)

Lemma split_each_spec ranges blocks :
  Forall (range_wf f) ranges → Forall (λ b, ∃ k, is_block b k) blocks →
  ∃ l, for_each (λ blocks ipRange, l ← splitIPRangeToIPBlocks ipRange; Ret (blocks ++ l)) blocks ranges = Ret l ∧
    Forall (λ b, ∃ k, is_block b k) l ∧
    ∀ a, valid_ip a → covered l a ↔ covered blocks a ∨ is_v4 a = f ∧ in_ranges ranges (addr a).
Proof.
  intros Hr. revert blocks. induction Hr as [|[s e] ranges [Hin Hfam] _ IH]; intros blocks Hb.
  - exists blocks. split; [done|]. split; [done|]. intros a _. rewrite in_ranges_nil. tauto.
  - cbn [for_each ir_start ir_end] in *. destruct (splitIPRangeToIPBlocks_spec s e Hin) as (l1 & -> & Hl1 & Hc1).
    cbn [mbind outcome_bind]. destruct (IH (blocks ++ l1)) as (l & E & Hl & Hc); [by apply Forall_app|].
    exists l. split; [done|]. split; [done|]. intros a Ha. rewrite Hc, in_ranges_cons by done. unfold covered at 1.
    rewrite Exists_app. fold (covered blocks a) (covered l1 a). rewrite Hc1 by done. unfold in_range. cbn [ir_start ir_end].
    rewrite Hfam. tauto.
Qed.
End sorting.

(** ** The excluded blocks of a subnet *)

(** The network is away from the ends of the address space and of the
    IPv4-mapped block, like every network that can hold pods. *)
Definition inner_block (n : IPNet) (k : Z) : Prop :=
  is_block n k ∧ all_inner (addr (IPNet_IP n)) (addr (IPNet_IP n) + 2 ^ k - 1).

Definition inside (n : IPNet) (k : Z) (r : IPRange) : Prop :=
  addr (IPNet_IP n) ≤ addr (ir_start r) ∧ addr (ir_end r) < addr (IPNet_IP n) + 2 ^ k.

Lemma FindSubnetExcludeIPBlocks_spec cidr k included gateway excluded :
  inner_block cidr k →
  Forall (given (is_v4 (IPNet_IP cidr))) included → Forall (addr_ok (is_v4 (IPNet_IP cidr))) (all_excluded gateway excluded) →
  match FindSubnetExcludeIPBlocks cidr included gateway excluded with
  | Ret blocks =>
      Forall (inside cidr k) included ∧ ForallOrdPairs apart included ∧ Forall (λ b, ∃ k, is_block b k) blocks ∧
      ∀ a, valid_ip a → covered blocks a ↔ is_v4 a = is_v4 (IPNet_IP cidr) ∧
        ((included ≠ [] ∧ IPNet_Contains cidr a = true ∧ ¬ in_ranges included (addr a)) ∨
         addr a ∈ addr <$> all_excluded gateway excluded)
  | Fail _ => ¬ (Forall (inside cidr k) included ∧ ForallOrdPairs apart included)
  | _ => False
  end.
Proof.
  intros [Hb Hin] Hg He. set (f := is_v4 (IPNet_IP cidr)) in *.
  pose proof (proj1 Hb) as Hv. pose proof (block_size _ _ Hb) as Hk. pose proof (Z.pow_pos_nonneg 2 k ltac:(lia) Hk) as Hp.
  destruct (cursor_last_law cidr k Hb) as [Hvl Hal]. fold (daemon_LastIP cidr) in Hvl, Hal.
  set (cs := IPNet_IP cidr) in *. set (ce := daemon_LastIP cidr) in *. rewrite <-Hal in Hin.
  assert (is_v4 ce = f) as Fce by (symmetry; apply (inner_family cs ce (addr cs) (addr ce)); [done..|lia|lia]).
  pose proof (sort_ranges_perm included) as Hperm.
  assert (∀ l, Forall (within cs ce) l ↔ Forall (inside cidr k) l) as Hwi.
  { intros l. rewrite !Forall_forall. unfold within, inside. fold cs. split; intros H' r Hr; specialize (H' r Hr); lia. }
  unfold FindSubnetExcludeIPBlocks. fold cs ce.
  pose proof (exclude_gaps_spec f cs ce Hv Hvl eq_refl Fce Hin true [] (sort_ranges included)) as Hgaps.
  assert (Forall (given f) (sort_ranges included)) as Hg' by (by rewrite Hperm).
  specialize (Hgaps Hg' (sort_ranges_sorted f included Hg) (Forall_nil_2 _)).
  destruct (exclude_gaps cs ce true [] (sort_ranges included)) as [r1|e| |]; [| |done|done].
  2:{ cbn [mbind outcome_bind]. intros [Hi Ha]. apply Hgaps. split; [rewrite Hperm; by apply Hwi|]. by apply (apart_perm included). }
  destruct Hgaps as (Hw & Ha & Hr1 & Hz1). cbn [mbind outcome_bind].
  destruct (add_all_spec f _ r1 He Hr1) as (r2 & -> & Hr2 & Hz2). cbn [mbind outcome_bind].
  destruct (split_each_spec f r2 [] Hr2 (Forall_nil_2 _)) as (l & El & Hl & Hc). unfold split_all. rewrite El.
  rewrite Hperm in Hw. split; [by apply Hwi|]. split; [by apply (apart_perm (sort_ranges included))|]. split; [done|].
  intros a Hva. rewrite Hc, Hz2, Hz1, in_ranges_nil by done. unfold covered. rewrite Exists_nil.
  unfold gaps, lower. rewrite (in_ranges_perm _ _ _ Hperm), (block_contains cidr k a) by done. fold cs f.
  assert (sort_ranges included ≠ [] ↔ included ≠ []) as ->.
  { split; intros Hne E; apply Hne; [by rewrite E|]. rewrite E in Hperm. by apply Permutation_nil in Hperm. }
  split.
  - intros [[]|[Hfa [[[]|(Hne & Hlo & Hno)]|Hx]]]; (split; [done|]); [left|by right]. split; [done|]. split; [split; [done|lia]|done].
  - intros [Hfa [(Hne & [_ Hlo] & Hno)|Hx]]; right; (split; [done|]); [left; right|by right]. split; [done|]. split; [lia|done].
Qed.
End blocks.

(** ** Property *)

(** C37: given ranges as [CreateIPRange] makes them and addresses of the
    family of the network, [FindSubnetExcludeIPBlocks] ends with blocks or an
    error, and fails exactly when a range leaves the network or two ranges
    overlap.  The blocks are aligned, and together they are exactly the
    excluded addresses, the gateway and, when there are ranges, the addresses
    of the network in no range. *)
Theorem FindSubnetExcludeIPBlocks_exact {P : CNIPlugins} (L : CNIPluginsLaws P) {A : IPAddrLib} (AL : IPAddrLibLaws A)
    cidr k included gateway excluded :
  inner_block cidr k →
  Forall (given (is_v4 (IPNet_IP cidr))) included → Forall (addr_ok (is_v4 (IPNet_IP cidr))) (all_excluded gateway excluded) →
  match FindSubnetExcludeIPBlocks cidr included gateway excluded with
  | Ret blocks =>
      Forall (inside cidr k) included ∧ ForallOrdPairs apart included ∧ Forall (λ b, ∃ k, is_block b k) blocks ∧
      ∀ a, valid_ip a → covered blocks a ↔ is_v4 a = is_v4 (IPNet_IP cidr) ∧
        ((included ≠ [] ∧ IPNet_Contains cidr a = true ∧ ¬ in_ranges included (addr a)) ∨
         addr a ∈ addr <$> all_excluded gateway excluded)
  | Fail _ => ¬ (Forall (inside cidr k) included ∧ ForallOrdPairs apart included)
  | _ => False
  end.
Proof. apply FindSubnetExcludeIPBlocks_spec. Qed.

Lemma ipaddr_concrete_laws : IPAddrLibLaws ipaddr_concrete.
Proof.
  split. intros n k [Hv [len Hn]]. cbn [cursor_last ipaddr_concrete].
  pose proof (net_numberAndMask _ _ _ Hn) as Enm.
  assert (networkNumberAndMask n = (raw (IPNet_IP n), IPNet_Mask n)) as ->.
  { cbn [IPNet_IP IPNet_Mask] in Enm. rewrite <-Enm. unfold networkNumberAndMask. cbn [IPNet_IP IPNet_Mask]. rewrite To4_raw. unfold raw. by case_decide. }
  pose proof (last_bytes_spec _ _ _ Hn) as Hlast. cbn [IPNet_IP IPNet_Mask] in Hlast.
  destruct (net_ip_ok _ _ _ Hn) as (Hb & Hl & _). cbn [IPNet_IP] in Hb, Hl.
  assert (and_bytes (raw (IPNet_IP n)) (IPNet_Mask n) = raw (IPNet_IP n)) as ->.
  { destruct (raw_form_of _ Hv) as (len' & base & Hf). pose proof (rf_raw _ _ _ Hf) as [_ Hl']. assert (len' = len) as -> by congruence.
    pose proof Hn as [_ Ho Hm _ _]. cbn [IPNet_Mask] in Hm. rewrite Hm.
    replace (8 * Z.of_nat len - k) with (8 * Z.of_nat len - k) by lia. apply (raw_clear (IPNet_IP n) len base); [done|lia|].
    pose proof (net_ip_ok _ _ _ Hn) as (_ & _ & Hc). cbn [IPNet_IP] in Hc. unfold host_bits in Hc.
    replace (8 * Z.of_nat len - (8 * Z.of_nat len - k)) with k in Hc by lia. rewrite (rf_addr _ _ _ Hf).
    apply Z.divide_add_r; [apply (divide_pow (8 * Z.of_nat len)); [lia|apply (rf_base _ _ _ Hf)]|]. by apply divide_clear; [lia|]. }
  destruct Hlast as (Hlb & Hll & Hlbe). destruct (raw_form_of _ Hv) as (len' & base & Hf).
  pose proof (rf_raw _ _ _ Hf) as [_ Hl']. assert (len' = len) as -> by congruence.
  destruct (rf_same _ _ _ Hf _ Hlb Hll) as [Hvl ->]. split; [done|]. rewrite (rf_addr _ _ _ Hf), Hlbe. unfold host_bits.
  replace (8 * Z.of_nat len - (8 * Z.of_nat len - k)) with k by lia. lia.
Qed.

Definition w_cidr : IPNet := mkIPNet [192; 168; 3; 0] (CIDRMask 24 32).
Definition w_included : list IPRange := [mkIPRange (ParseIP "192.168.3.100") (ParseIP "192.168.3.200")].

Lemma w_cidr_block : inner_block w_cidr 8.
Proof.
  assert (valid_ip [192; 168; 3; 0]) as Hv by (split; [repeat constructor; done|by left]).
  split.
  - change w_cidr with (mkIPNet [192; 168; 3; 0] (CIDRMask (Z.of_nat (ip_bits [192; 168; 3; 0]) - 8) (Z.of_nat (ip_bits [192; 168; 3; 0])))).
    apply block_make; [done|vm_compute; split; discriminate|]. by exists 1099507476483.
  - change (addr (IPNet_IP w_cidr)) with 281473913979648. intros z Hz. unfold inner, has_prev, has_next, v4_first, v4_last. lia.
Qed.

Lemma FindSubnetExcludeIPBlocks_exact_witness :
  match FindSubnetExcludeIPBlocks (H := cni_concrete) (H0 := ipaddr_concrete) w_cidr w_included (ParseIP "192.168.3.1") [] with
  | Ret blocks => length blocks = 8%nat ∧ covered blocks (ParseIP "192.168.3.1") ∧ ¬ covered blocks (ParseIP "192.168.3.150")
  | _ => False
  end.
Proof.
  pose proof (FindSubnetExcludeIPBlocks_exact cni_concrete_laws ipaddr_concrete_laws w_cidr 8 w_included
    (ParseIP "192.168.3.1") [] w_cidr_block) as Hp.
  assert (∀ s, ParseIP s ≠ [] → valid_ip (ParseIP s)) as Hv by exact ParseIP_valid.
  destruct (FindSubnetExcludeIPBlocks w_cidr w_included (ParseIP "192.168.3.1") []) as [blocks|e| |] eqn:E.
  - destruct Hp as (_ & _ & _ & Hc).
    + apply Forall_singleton. split_and!; [by apply Hv|by apply Hv|done|done|vm_compute; discriminate].
    + apply Forall_singleton. split; [by apply Hv|]. split; [done|].
      change (addr (ParseIP "192.168.3.1")) with 281473913979649. unfold inner, has_prev, has_next, v4_first, v4_last. lia.
    + split; [|split].
      * apply (f_equal (λ o, match o with Ret l => length l | _ => 0%nat end)) in E. vm_compute in E. by symmetry.
      * apply Hc; [by apply Hv|]. split; [done|]. right. by left.
      * rewrite Hc by (by apply Hv). intros [_ [(_ & _ & Hn)|Hin]].
        -- apply Hn. left. split; vm_compute; discriminate.
        -- apply list_elem_of_singleton in Hin. discriminate Hin.
  - exfalso. apply (f_equal (λ o, match o with Fail _ => true | _ => false end)) in E. vm_compute in E. discriminate E.
  - apply (f_equal (λ o, match o with Panic => true | _ => false end)) in E. vm_compute in E. discriminate E.
  - apply (f_equal (λ o, match o with Diverge => true | _ => false end)) in E. vm_compute in E. discriminate E.
Defined.
