(* ===== verification/ARP.v ===== *)
(** * ARP packets and the ARP client (pkg/daemon/arp)

    [packet.go]: a packet and its binary form, with Go's slice bounds and
    8-bit arithmetic.  [client.go] and [arp.go]: requests over a raw socket
    and the check of a new pod address.  A socket is the list of what will be
    read from it and the list of what was written to it.  The Ethernet frames
    of github.com/mdlayher/ethernet are the class [Ethernet]. *)

From S2P Require Import Prelude GoNet GoStrings Names Store.
Local Open Scope Z_scope.

(** ** Integers and slices of bytes *)

Definition uint8 (z : Z) : Z := z mod 2 ^ 8.

(** [binary.BigEndian] *)
Definition BigEndian_Uint16 (b0 b1 : Z) : Z := Z.lor b1 (Z.shiftl b0 8).
Definition BigEndian_bytes (v : Z) : list Z := [uint8 (Z.shiftr v 8); uint8 v].

(** [b[lo:hi]], a panic when it is out of range. *)
Definition slice (b : list Z) (lo hi : nat) : outcome (list Z) :=
  if decide ((lo ≤ hi ∧ hi ≤ length b)%nat) then Ret (take (hi - lo) (drop lo b)) else Panic.

(** [copy(b[lo:hi], src)] *)
Definition copy_to (b : list Z) (lo hi : nat) (src : list Z) : outcome (list Z) :=
  old ← slice b lo hi;
  Ret (take lo b ++ take (hi - lo) src ++ drop (length (take (hi - lo) src)) old ++ drop hi b).

(** [b[i] = v] *)
Definition set_byte (b : list Z) (i : nat) (v : Z) : outcome (list Z) :=
  if decide (i < length b)%nat then Ret (<[i := v]> b) else Panic.

(** [b[i]] *)
Definition get_byte (b : list Z) (i : nat) : outcome Z := deref (b !! i).

(** ** Packets *)

Definition ErrInvalidHardwareAddr : error := Errorf "invalid hardware address" [].
Definition ErrInvalidIP : error := Errorf "invalid IPv4 address" [].
Definition errInvalidARPPacket : error := Errorf "invalid ARP packet" [].
Definition ErrUnexpectedEOF : error := Errorf "unexpected EOF" [].

Definition OperationRequest : Z := 1.
Definition OperationReply : Z := 2.

Record Packet := mkPacket {
  HardwareType : Z; ProtocolType : Z; HardwareAddrLength : Z; IPLength : Z; p_Operation : Z;
  SenderHardwareAddr : list Z; SenderIP : list Z; TargetHardwareAddr : list Z; TargetIP : list Z
}.

Record Frame := mkFrame { f_Destination : list Z; f_Source : list Z; f_EtherType : Z; f_Payload : list Z }.

Class Ethernet : Type := {
  Broadcast : list Z;
  EtherTypeIPv4 : Z;
  EtherTypeARP : Z;
  Frame_MarshalBinary : Frame → outcome (list Z);
  Frame_UnmarshalBinary : list Z → outcome Frame
}.

(** The documented behaviour: the constants are those of IEEE 802, a frame
    with 6-byte addresses has a binary form, which reads back as the frame
    with its payload padded with zeros. *)
Class EthernetLaws (E : Ethernet) : Prop := {
  Broadcast_law : Broadcast = [255; 255; 255; 255; 255; 255];
  EtherTypeIPv4_law : EtherTypeIPv4 = 0x0800;
  EtherTypeARP_law : EtherTypeARP = 0x0806;
  Frame_law f : length (f_Destination f) = 6%nat → length (f_Source f) = 6%nat →
    0x0600 ≤ f_EtherType f < 2 ^ 16 →
    ∃ b n, Frame_MarshalBinary f = Ret b ∧
      Frame_UnmarshalBinary b = Ret (mkFrame (f_Destination f) (f_Source f) (f_EtherType f) (f_Payload f ++ replicate n 0))
}.

Section packet.
Context `{Ethernet}.

Definition NewPacket (op : Z) (srcHW srcIP dstHW dstIP : list Z) : outcome Packet :=
  if decide (length srcHW < 6)%nat then Fail ErrInvalidHardwareAddr
  else if decide (length dstHW < 6)%nat then Fail ErrInvalidHardwareAddr
  else if decide (Broadcast ≠ dstHW ∧ length srcHW ≠ length dstHW) then Fail ErrInvalidHardwareAddr
  else
    let srcIP := To4 srcIP in
    if decide (srcIP = []) then Fail ErrInvalidIP
    else
      let dstIP := To4 dstIP in
      if decide (dstIP = []) then Fail ErrInvalidIP
      else Ret (mkPacket 1 EtherTypeIPv4 (uint8 (Z.of_nat (length srcHW))) (uint8 (Z.of_nat (length srcIP))) op
                  srcHW srcIP dstHW dstIP).

(** The length is computed in [uint8]. *)
Definition marshal_size (p : Packet) : Z :=
  uint8 (uint8 (2 + 2 + 1 + 1 + 2 + uint8 (IPLength p * 2)) + uint8 (HardwareAddrLength p * 2)).

Definition Packet_MarshalBinary (p : Packet) : outcome (list Z) :=
  let b := replicate (Z.to_nat (marshal_size p)) 0 in
  b ← copy_to b 0 2 (BigEndian_bytes (HardwareType p));
  b ← copy_to b 2 4 (BigEndian_bytes (ProtocolType p));
  b ← set_byte b 4 (HardwareAddrLength p);
  b ← set_byte b 5 (IPLength p);
  b ← copy_to b 6 8 (BigEndian_bytes (p_Operation p));
  let n := 8%nat in
  let hal := Z.to_nat (HardwareAddrLength p) in
  let pl := Z.to_nat (IPLength p) in
  b ← copy_to b n (n + hal) (SenderHardwareAddr p);
  let n := (n + hal)%nat in
  b ← copy_to b n (n + pl) (SenderIP p);
  let n := (n + pl)%nat in
  b ← copy_to b n (n + hal) (TargetHardwareAddr p);
  let n := (n + hal)%nat in
  copy_to b n (n + pl) (TargetIP p).

(** [binary.BigEndian.Uint16(b[lo:lo+2])] *)
Definition get_uint16 (b : list Z) (lo : nat) : outcome Z :=
  s ← slice b lo (lo + 2);
  b0 ← get_byte s 0; b1 ← get_byte s 1; Ret (BigEndian_Uint16 b0 b1).

(** The fixed part is stored in the receiver before the second check. *)
Definition Packet_UnmarshalBinary (b : list Z) : M Packet unit :=
  if decide (length b < 8)%nat then fail ErrUnexpectedEOF
  else
    ht ← lift (get_uint16 b 0);
    pt ← lift (get_uint16 b 2);
    mlb ← lift (get_byte b 4);
    ilb ← lift (get_byte b 5);
    op ← lift (get_uint16 b 6);
    modify (λ p, mkPacket ht pt mlb ilb op (SenderHardwareAddr p) (SenderIP p) (TargetHardwareAddr p) (TargetIP p));;
    let n := 8%nat in
    let ml := Z.to_nat mlb in
    let il := Z.to_nat ilb in
    if decide (length b < n + ml * 2 + il * 2)%nat then fail ErrUnexpectedEOF
    else
      sha ← lift (slice b n (n + ml));
      let n := (n + ml)%nat in
      sip ← lift (slice b n (n + il));
      let n := (n + il)%nat in
      tha ← lift (slice b n (n + ml));
      let n := (n + ml)%nat in
      tip ← lift (slice b n (n + il));
      put (mkPacket ht pt mlb ilb op sha sip tha tip).

Definition zero_packet : Packet := mkPacket 0 0 0 0 0 [] [] [] [].

Definition parsePacket (buf : list Z) : outcome (Packet * Frame) :=
  f ← Frame_UnmarshalBinary buf;
  if decide (f_EtherType f ≠ EtherTypeARP) then Fail errInvalidARPPacket
  else
    match Packet_UnmarshalBinary (f_Payload f) zero_packet with
    | (Ret _, p) => Ret (p, f)
    | (Fail err, _) => Fail err
    | (Panic, _) => Panic
    | (Diverge, _) => Diverge
    end.
End packet.

(** ** The client *)

(** A raw socket: what the next reads return, what was written (the frame and
    the address of the socket), what a write returns and what [SetDeadline]
    returns. *)
Record Conn := mkConn {
  c_inbox : list (outcome (list Z)); c_outbox : list (list Z * list Z); c_write : list Z → list Z → outcome unit;
  c_deadline : outcome unit
}.

(** A read without a datagram or a timeout blocks. *)
Definition ReadFrom : M Conn (list Z) := λ c,
  match c_inbox c with
  | [] => (Diverge, c)
  | r :: inbox => (r, mkConn inbox (c_outbox c) (c_write c) (c_deadline c))
  end.

Definition SetDeadline : M Conn unit := λ c, (c_deadline c, c).

Definition conn_WriteTo (fb addr : list Z) : M Conn unit := λ c,
  match c_write c fb addr with
  | Ret _ => (Ret tt, mkConn (c_inbox c) (c_outbox c ++ [(fb, addr)]) (c_write c) (c_deadline c))
  | o => (o, c)
  end.

Definition errNoIPv4Addr : error := Errorf "no IPv4 address available for interface" [].

Record ARPClient := mkARPClient { ac_ifi : list Z; ac_ip : list Z }.

Section client.
Context `{Ethernet}.

Definition WriteTo (p : Packet) (addr : list Z) : M Conn unit :=
  pb ← lift (Packet_MarshalBinary p);
  fb ← lift (Frame_MarshalBinary (mkFrame addr (SenderHardwareAddr p) EtherTypeARP pb));
  conn_WriteTo fb addr.

Definition Request (c : ARPClient) (ip : list Z) : M Conn unit :=
  if decide (ac_ip c = []) then fail errNoIPv4Addr
  else
    arp ← lift (NewPacket OperationRequest (ac_ifi c) (ac_ip c) Broadcast ip);
    WriteTo arp Broadcast.

(** The loop takes one datagram a round; the datagram is cut at the length
    of the buffer. *)
Fixpoint read_loop (fuel : nat) : M Conn (Packet * Frame) :=
  match fuel with
  | O => lift Diverge
  | S fuel =>
      buf ← ReadFrom;
      match parsePacket (take 128 buf) with
      | Fail err => if decide (err = errInvalidARPPacket) then read_loop fuel else fail err
      | o => lift o
      end
  end.

(** One round more than there is to read: the last one blocks. *)
Definition Read : M Conn (Packet * Frame) := λ c, read_loop (S (length (c_inbox c))) c.

Fixpoint resolve_loop (fuel : nat) (ip : list Z) : M Conn (list Z) :=
  match fuel with
  | O => lift Diverge
  | S fuel =>
      '(arp, _) ← Read;
      if decide (p_Operation arp ≠ OperationReply) then resolve_loop fuel ip
      else if negb (IP_Equal (SenderIP arp) ip) then resolve_loop fuel ip
      else mret (SenderHardwareAddr arp)
  end.

(** As many rounds as there are datagrams, and the one that blocks. *)
Definition await_reply (ip : list Z) : M Conn (list Z) := λ s, resolve_loop (S (length (c_inbox s))) ip s.

Definition Resolve (c : ARPClient) (ip : list Z) : M Conn (list Z) := Request c ip;; await_reply ip.

Definition Reply (req : Packet) (hwAddr ip : list Z) : M Conn unit :=
  p ← lift (NewPacket OperationReply hwAddr ip (SenderHardwareAddr req) (SenderIP req));
  WriteTo p (SenderHardwareAddr req).

(** ** arp.go *)

(** [Dial] takes the next socket of the environment, or the error in its
    place, and leaves the used one behind; a deadline shows as a failed read. *)
Record Link := mkLink { l_next : list (outcome Conn); l_used : list Conn }.

Definition with_socket {A} (dialError : error → error) (m : M Conn A) : M Link A := λ l,
  match l_next l with
  | [] => (Diverge, l)
  | Ret c :: next => let '(o, c') := m c in (o, mkLink next (l_used l ++ [c']))
  | Fail e :: next => (Fail (dialError e), mkLink next (l_used l))
  | Panic :: next => (Panic, mkLink next (l_used l))
  | Diverge :: next => (Diverge, mkLink next (l_used l))
  end.

Definition pingOverInterface (ifi srcIP dstIP : list Z) : M Link (list Z) :=
  with_socket (Wrapf "failed to init client with ip %v interface %v: %v" [IP_String srcIP])
    (wrap (Wrapf "set arp client dead line error: %v" []) SetDeadline;;
     wrap (Wrapf "failed to resolve dst ip %v: %v" [IP_String dstIP]) (Resolve (mkARPClient ifi srcIP) dstIP)).

Definition gratuitous_one (c : ARPClient) (ip : list Z) (op : Z) : M Conn unit :=
  arp ← wrap (Wrapf "failed create arp packet: %v" []) (lift (NewPacket op (ac_ifi c) (ac_ip c) Broadcast ip));
  wrap (Wrapf "failed to send gratuitous packet: %v" []) (WriteTo arp Broadcast).

Definition gratuitousOverInterface (ip ifi : list Z) : M Link unit :=
  with_socket (Wrapf "failed to init client with ip %v interface %v: %v" [IP_String ip])
    (each (gratuitous_one (mkARPClient ifi ip) ip) [OperationRequest; OperationReply]).

(** An answer is an error, an error is what is hoped for. *)
Definition check_duplicate (ifi srcPod : list Z) : M Link unit := λ l,
  match pingOverInterface ifi (ParseIP "0.0.0.0") srcPod l with
  | (Ret duplicatedHw, l) =>
      (Fail (Errorf "pod ip %v duplicated, please check if ip %v is occupied by other machines or containers, another hw addr is %v"
               [IP_String srcPod; IP_String srcPod; HardwareAddr_String duplicatedHw]), l)
  | (Fail _, l) => (Ret tt, l)
  | (Panic, l) => (Panic, l)
  | (Diverge, l) => (Diverge, l)
  end.

Definition CheckWithTimeout (ifi srcPod gateway : list Z) : M Link unit :=
  wrap (Wrapf "failed to resolve arp from pod %v to gateway %v: %v, vlan network seems not working, please check the setting of %v's upper physical switch port first" [IP_String srcPod; IP_String gateway])
    (pingOverInterface ifi srcPod gateway);;
  check_duplicate ifi srcPod;;
  wrap (Wrapf "failed to send gratuitous arp for pod %v: %v" [IP_String srcPod])
    (gratuitousOverInterface srcPod ifi).
End client.

(** ** A concrete reading of the frame format: addresses, type, payload *)

Definition ethernet_concrete : Ethernet := {|
  Broadcast := [255; 255; 255; 255; 255; 255];
  EtherTypeIPv4 := 0x0800;
  EtherTypeARP := 0x0806;
  Frame_MarshalBinary f := Ret (f_Destination f ++ f_Source f ++ BigEndian_bytes (f_EtherType f) ++ f_Payload f);
  Frame_UnmarshalBinary b :=
    match drop 12 b with
    | t0 :: t1 :: payload => Ret (mkFrame (take 6 b) (take 6 (drop 6 b)) (BigEndian_Uint16 t0 t1) payload)
    | _ => Fail ErrUnexpectedEOF
    end
|}.
