(* ===== verification/ARPProperties.v ===== *)
(** * What the ARP code does

    The binary form of a packet reads back as the packet, as long as its
    length fits a byte; decoding never panics.  The client returns the first
    reply that matters, which is what the check of a new address rests on. *)

From S2P Require Import Prelude GoNet GoStrings Names Store ARP.
Local Open Scope Z_scope.

(** ** Slices *)

Lemma slice_at b pre mid post lo hi :
  b = pre ++ mid ++ post → lo = length pre → hi = (lo + length mid)%nat → slice b lo hi = Ret mid.
Proof.
  intros -> -> ->. unfold slice. rewrite decide_True by (rewrite !length_app; lia).
  rewrite drop_app_length. f_equal. rewrite take_app_le by lia. apply take_ge. lia.
Qed.

Lemma copy_to_at b pre old post lo hi src :
  b = pre ++ old ++ post → lo = length pre → hi = (lo + length old)%nat → length src = length old →
  copy_to b lo hi src = Ret (pre ++ src ++ post).
Proof.
  intros Hb Hlo Hhi Hsrc. unfold copy_to. rewrite (slice_at b pre old post lo hi) by done.
  cbn [mbind outcome_bind]. f_equal. subst b lo hi. rewrite take_app_length.
  rewrite (take_ge src) by lia. rewrite drop_ge by lia. rewrite app_nil_l.
  do 2 f_equal. rewrite app_assoc, drop_app_ge by (rewrite length_app; lia).
  rewrite length_app. replace (_ - _)%nat with 0%nat by lia. done.
Qed.

Lemma set_byte_at b pre x post i v :
  b = pre ++ x :: post → i = length pre → set_byte b i v = Ret (pre ++ v :: post).
Proof.
  intros -> ->. unfold set_byte. rewrite decide_True by (rewrite length_app; cbn; lia).
  by rewrite insert_app_r_alt, Nat.sub_diag by lia.
Qed.

(** A write in range keeps the length, one out of range is a panic. *)
Definition keeps_length (b : list Z) (o : outcome (list Z)) : Prop := ∃ b', o = Ret b' ∧ length b' = length b.

Lemma copy_to_cases b lo hi src :
  (lo ≤ hi)%nat →
  if decide (hi ≤ length b)%nat then keeps_length b (copy_to b lo hi src) else copy_to b lo hi src = Panic.
Proof.
  intros Hle. unfold copy_to, slice. case_decide.
  - rewrite decide_True by lia. eexists. split; [done|].
    rewrite !length_app, !length_drop, !length_take, length_drop. lia.
  - by rewrite decide_False by lia.
Qed.

Lemma set_byte_cases b i v :
  if decide (i < length b)%nat then keeps_length b (set_byte b i v) else set_byte b i v = Panic.
Proof. unfold set_byte. case_decide; [|done]. eexists. split; [done|]. by rewrite length_insert. Qed.

(** ** 16-bit integers *)

Definition uint16_ok (v : Z) : Prop := 0 ≤ v < 2 ^ 16.

Lemma BigEndian_Uint16_add b0 b1 : byte_ok b1 → BigEndian_Uint16 b0 b1 = 256 * b0 + b1.
Proof.
  intros Hb. unfold BigEndian_Uint16. assert (Z.land b1 (Z.shiftl b0 8) = 0) as H0.
  { apply Z.bits_inj'. intros n Hn. rewrite Z.land_spec, Z.shiftl_spec, Z.bits_0 by done.
    destruct (Z.ltb_spec n 8); [rewrite (Z.testbit_neg_r b0) by lia; apply andb_false_r|].
    rewrite Z.bits_above_log2; [done|apply Hb|]. unfold byte_ok in Hb.
    destruct (decide (b1 = 0)) as [->|]; [cbn; lia|]. assert (Z.log2 b1 < 8) by (apply Z.log2_lt_pow2; lia). lia. }
  rewrite <-Z.lxor_lor, <-Z.add_nocarry_lxor, Z.shiftl_mul_pow2 by (done || lia). lia.
Qed.

Lemma uint8_ok z : byte_ok (uint8 z).
Proof. unfold byte_ok, uint8. apply Z.mod_pos_bound. lia. Qed.

Lemma BigEndian_Uint16_bytes v : uint16_ok v → BigEndian_Uint16 (uint8 (Z.shiftr v 8)) (uint8 v) = v.
Proof.
  unfold uint16_ok. intros Hv. rewrite BigEndian_Uint16_add by apply uint8_ok. unfold uint8.
  rewrite Z.shiftr_div_pow2 by lia. change (2 ^ 8) with 256. Z.div_mod_to_equations; lia.
Qed.

Lemma BigEndian_bytes_Uint16 b0 b1 : byte_ok b0 → byte_ok b1 → BigEndian_bytes (BigEndian_Uint16 b0 b1) = [b0; b1].
Proof.
  unfold byte_ok. intros H0 H1. rewrite BigEndian_Uint16_add by done. unfold BigEndian_bytes, uint8.
  rewrite Z.shiftr_div_pow2 by lia. change (2 ^ 8) with 256. f_equal; [|f_equal]; Z.div_mod_to_equations; lia.
Qed.

(** ** The binary form *)

Record packet_wf (p : Packet) : Prop := {
  pw_type : uint16_ok (HardwareType p);
  pw_protocol : uint16_ok (ProtocolType p);
  pw_operation : uint16_ok (p_Operation p);
  pw_hal : byte_ok (HardwareAddrLength p);
  pw_pl : byte_ok (IPLength p);
  pw_sha : Z.of_nat (length (SenderHardwareAddr p)) = HardwareAddrLength p;
  pw_sip : Z.of_nat (length (SenderIP p)) = IPLength p;
  pw_tha : Z.of_nat (length (TargetHardwareAddr p)) = HardwareAddrLength p;
  pw_tip : Z.of_nat (length (TargetIP p)) = IPLength p
}.

(** The length that the fields announce. *)
Definition wire_length (p : Packet) : Z := 8 + 2 * IPLength p + 2 * HardwareAddrLength p.

Definition wire (p : Packet) : list Z :=
  BigEndian_bytes (HardwareType p) ++ BigEndian_bytes (ProtocolType p) ++
  [HardwareAddrLength p; IPLength p] ++ BigEndian_bytes (p_Operation p) ++
  SenderHardwareAddr p ++ SenderIP p ++ TargetHardwareAddr p ++ TargetIP p.

Section packet.
Context `{Ethernet}.

Lemma marshal_size_mod p : marshal_size p = wire_length p mod 256.
Proof.
  unfold marshal_size, wire_length, uint8. change (2 ^ 8) with 256.
  rewrite <-Zplus_mod.
  replace (2 + 2 + 1 + 1 + 2 + (IPLength p * 2) mod 256 + HardwareAddrLength p * 2)
    with (8 + HardwareAddrLength p * 2 + (IPLength p * 2) mod 256) by lia.
  rewrite Zplus_mod_idemp_r. f_equal. lia.
Qed.

Lemma Marshal_wire p : packet_wf p → wire_length p < 256 → Packet_MarshalBinary p = Ret (wire p).
Proof.
  intros [_ _ _ Hh Hp Lsh Lsi Lth Lti] Hlen. unfold byte_ok in *. unfold Packet_MarshalBinary.
  rewrite marshal_size_mod, Z.mod_small by (unfold wire_length in *; lia).
  set (hal := Z.to_nat (HardwareAddrLength p)). set (pl := Z.to_nat (IPLength p)).
  assert (length (SenderHardwareAddr p) = hal ∧ length (SenderIP p) = pl ∧
          length (TargetHardwareAddr p) = hal ∧ length (TargetIP p) = pl) as (E1 & E2 & E3 & E4) by lia.
  assert (replicate (Z.to_nat (wire_length p)) 0 =
    [0; 0] ++ [0; 0] ++ [0] ++ [0] ++ [0; 0] ++ replicate hal 0 ++ replicate pl 0 ++ replicate hal 0 ++ replicate pl 0) as ->.
  { change [0; 0] with (replicate 2 0). change [0] with (replicate 1 0). rewrite <-!replicate_add. f_equal.
    unfold wire_length in *. lia. }
  set (tl := replicate hal 0 ++ replicate pl 0 ++ replicate hal 0 ++ replicate pl 0).
  rewrite (copy_to_at _ [] [0; 0] ([0; 0] ++ [0] ++ [0] ++ [0; 0] ++ tl) 0 2) by done. cbn [mbind outcome_bind].
  rewrite (copy_to_at _ (BigEndian_bytes (HardwareType p)) [0; 0] ([0] ++ [0] ++ [0; 0] ++ tl) 2 4) by done.
  cbn [mbind outcome_bind]. set (fixed := BigEndian_bytes (HardwareType p) ++ BigEndian_bytes (ProtocolType p)).
  rewrite (set_byte_at _ fixed 0 ([0] ++ [0; 0] ++ tl) 4) by (unfold fixed; by rewrite <-?app_assoc).
  cbn [mbind outcome_bind].
  rewrite (set_byte_at _ (fixed ++ [HardwareAddrLength p]) 0 ([0; 0] ++ tl) 5) by (by rewrite <-?app_assoc).
  cbn [mbind outcome_bind].
  rewrite (copy_to_at _ (fixed ++ [HardwareAddrLength p; IPLength p]) [0; 0] tl 6 8) by (by rewrite <-?app_assoc).
  cbn [mbind outcome_bind]. rewrite app_assoc.
  set (pre := (fixed ++ [HardwareAddrLength p; IPLength p]) ++ BigEndian_bytes (p_Operation p)).
  rewrite (copy_to_at _ pre (replicate hal 0) (replicate pl 0 ++ replicate hal 0 ++ replicate pl 0)) 
    by (rewrite ?length_replicate; done).
  cbn [mbind outcome_bind].
  rewrite (copy_to_at _ (pre ++ SenderHardwareAddr p) (replicate pl 0) (replicate hal 0 ++ replicate pl 0))
    by (rewrite ?length_app, ?length_replicate, <-?app_assoc, ?E1; done).
  cbn [mbind outcome_bind].
  rewrite (copy_to_at _ (pre ++ SenderHardwareAddr p ++ SenderIP p) (replicate hal 0) (replicate pl 0))
    by (rewrite ?length_app, ?length_replicate, <-?app_assoc, ?E1, ?E2; cbn; lia || done).
  cbn [mbind outcome_bind].
  rewrite (copy_to_at _ (pre ++ SenderHardwareAddr p ++ SenderIP p ++ TargetHardwareAddr p) (replicate pl 0) [])
    by (rewrite ?length_app, ?length_replicate, <-?app_assoc, ?E1, ?E2, ?E3, ?app_nil_r; cbn; lia || done).
  f_equal. unfold wire, pre, fixed. by rewrite <-!app_assoc, app_nil_r.
Qed.

(** The last write is past the end when the length does not fit a byte. *)
Lemma bind_keeps_length b (m : outcome (list Z)) (f : list Z → outcome (list Z)) :
  keeps_length b m ∨ m = Panic → (∀ b', length b' = length b → f b' = Panic) → (m ≫= f) = Panic.
Proof. intros [(b' & -> & Hb)| ->] Hf; [|done]. by apply Hf. Qed.

Lemma copy_to_keeps b b0 lo hi src :
  length b = length b0 → (lo ≤ hi)%nat → keeps_length b0 (copy_to b lo hi src) ∨ copy_to b lo hi src = Panic.
Proof.
  intros Hb Hle. pose proof (copy_to_cases b lo hi src Hle) as H'. unfold keeps_length in *. rewrite Hb in H'.
  case_decide; auto.
Qed.

Lemma set_byte_keeps b b0 i v :
  length b = length b0 → keeps_length b0 (set_byte b i v) ∨ set_byte b i v = Panic.
Proof.
  intros Hb. pose proof (set_byte_cases b i v) as H'. unfold keeps_length in *. rewrite Hb in H'. case_decide; auto.
Qed.

Lemma Marshal_panics p :
  byte_ok (HardwareAddrLength p) → byte_ok (IPLength p) → 256 ≤ wire_length p → Packet_MarshalBinary p = Panic.
Proof.
  intros Hh Hp Hlen. unfold Packet_MarshalBinary. rewrite marshal_size_mod. unfold byte_ok in *.
  set (b := replicate _ 0). assert (Z.of_nat (length b) < 256) as Hb.
  { unfold b. rewrite length_replicate. pose proof (Z.mod_pos_bound (wire_length p) 256). lia. }
  repeat (apply (bind_keeps_length b); [first [apply copy_to_keeps; [done|lia] | by apply set_byte_keeps]|intros ? ?]).
  match goal with |- copy_to ?b' ?lo ?hi ?src = _ => pose proof (copy_to_cases b' lo hi src ltac:(lia)) as H' end.
  case_decide; [|done]. unfold wire_length in *. lia.
Qed.

(** ** Decoding *)

Lemma Unmarshal_short b p0 : (length b < 8)%nat → Packet_UnmarshalBinary b p0 = (Fail ErrUnexpectedEOF, p0).
Proof. intros Hb. unfold Packet_UnmarshalBinary. by rewrite decide_True. Qed.

Definition decoded (h0 h1 q0 q1 m i o0 o1 : Z) (rest : list Z) : Packet :=
  let ml := Z.to_nat m in
  let il := Z.to_nat i in
  mkPacket (BigEndian_Uint16 h0 h1) (BigEndian_Uint16 q0 q1) m i (BigEndian_Uint16 o0 o1)
    (take ml rest) (take il (drop ml rest)) (take ml (drop (ml + il) rest)) (take il (drop (ml + il + ml) rest)).

Lemma slice_rest l rest k n : length l = 8%nat → (k + n ≤ length rest)%nat →
  slice (l ++ rest) (8 + k) (8 + k + n) = Ret (take n (drop k rest)).
Proof.
  intros Hl Hk. unfold slice. rewrite decide_True by (rewrite length_app; lia). f_equal.
  replace (8 + k + n - (8 + k))%nat with n by lia. rewrite <-drop_drop, <-Hl, drop_app_length. done.
Qed.

Lemma Unmarshal_long h0 h1 q0 q1 m i o0 o1 rest p0 :
  ∃ p', Packet_UnmarshalBinary ([h0; h1; q0; q1; m; i; o0; o1] ++ rest) p0 =
    if decide (length rest < Z.to_nat m * 2 + Z.to_nat i * 2)%nat then (Fail ErrUnexpectedEOF, p')
    else (Ret tt, decoded h0 h1 q0 q1 m i o0 o1 rest).
Proof.
  eexists. unfold Packet_UnmarshalBinary. rewrite decide_False by (rewrite length_app; cbn; lia).
  set (hd := [h0; h1; q0; q1; m; i; o0; o1]). set (b := hd ++ rest).
  assert (get_uint16 b 0 = Ret (BigEndian_Uint16 h0 h1)) as -> by done.
  assert (get_uint16 b 2 = Ret (BigEndian_Uint16 q0 q1)) as -> by done.
  assert (get_byte b 4 = Ret m) as -> by done. assert (get_byte b 5 = Ret i) as -> by done.
  assert (get_uint16 b 6 = Ret (BigEndian_Uint16 o0 o1)) as -> by done.
  m_run. set (ml := Z.to_nat m). set (il := Z.to_nat i).
  assert (length b = (8 + length rest)%nat) as Hb by done. rewrite Hb.
  destruct (decide (length rest < ml * 2 + il * 2)%nat) as [Hs|Hs].
  - rewrite decide_True by lia. reflexivity.
  - rewrite decide_False by lia. unfold b.
    replace (slice _ 8 (8 + ml)) with (slice (hd ++ rest) (8 + 0) (8 + 0 + ml)) by done.
    rewrite (slice_rest hd rest 0 ml) by (done || lia).
    rewrite (slice_rest hd rest ml il) by (done || lia).
    replace (8 + ml + il)%nat with (8 + (ml + il))%nat by lia. rewrite (slice_rest hd rest (ml + il) ml) by (done || lia).
    replace (8 + (ml + il) + ml)%nat with (8 + (ml + il + ml))%nat by lia.
    rewrite (slice_rest hd rest (ml + il + ml) il) by (done || lia).
    m_run. unfold put, decoded. rewrite drop_0. done.
Qed.

Lemma Unmarshal_wire p tail p0 : packet_wf p → Packet_UnmarshalBinary (wire p ++ tail) p0 = (Ret tt, p).
Proof.
  intros [Ht Hp Ho Hhal Hpl Lsh Lsi Lth Lti]. unfold wire, BigEndian_bytes. rewrite <-!app_assoc. cbn [app].
  set (rest := SenderHardwareAddr p ++ _).
  match goal with |- Packet_UnmarshalBinary (?a :: ?b :: ?c :: ?d :: ?e :: ?f :: ?g :: ?h :: rest) _ = _ =>
    destruct (Unmarshal_long a b c d e f g h rest p0) as [p' E]; cbn [app] in E; rewrite E end.
  assert (Z.to_nat (HardwareAddrLength p) = length (SenderHardwareAddr p)) as E1 by lia.
  assert (Z.to_nat (IPLength p) = length (SenderIP p)) as E2 by lia.
  rewrite decide_False by (unfold rest; rewrite !length_app; lia).
  unfold decoded. rewrite !BigEndian_Uint16_bytes, E1, E2 by done.
  assert (length (TargetHardwareAddr p) = length (SenderHardwareAddr p)) as E3 by lia.
  assert (length (TargetIP p) = length (SenderIP p)) as E4 by lia.
  unfold rest. rewrite <-!drop_drop, take_app_length, drop_app_length, take_app_length, drop_app_length.
  rewrite <-E3, take_app_length, drop_app_length, <-E4, take_app_length. by destruct p.
Qed.

(** Encoding what was decoded gives the bytes it was decoded from. *)
Lemma wire_decoded h0 h1 q0 q1 m i o0 o1 rest :
  bytes_ok [h0; h1; q0; q1; m; i; o0; o1] → (Z.to_nat m * 2 + Z.to_nat i * 2 ≤ length rest)%nat →
  packet_wf (decoded h0 h1 q0 q1 m i o0 o1 rest) ∧
  wire (decoded h0 h1 q0 q1 m i o0 o1 rest) ++ drop (Z.to_nat m * 2 + Z.to_nat i * 2) rest =
    [h0; h1; q0; q1; m; i; o0; o1] ++ rest.
Proof.
  intros Hb Hlen. unfold bytes_ok in Hb. rewrite !Forall_cons in Hb.
  destruct Hb as (H0 & H1 & H2 & H3 & H4 & H5 & H6 & H7 & _).
  assert (∀ a b, byte_ok a → byte_ok b → uint16_ok (BigEndian_Uint16 a b)) as Hu.
  { intros a b Ha Hb. rewrite BigEndian_Uint16_add by done. unfold uint16_ok, byte_ok in *. lia. }
  split.
  - split; cbn -[BigEndian_Uint16]; rewrite ?length_take, ?length_drop; try (by apply Hu); unfold byte_ok in *; lia.
  - unfold wire, decoded. cbn [HardwareType ProtocolType HardwareAddrLength IPLength p_Operation SenderHardwareAddr SenderIP
      TargetHardwareAddr TargetIP]. rewrite !BigEndian_bytes_Uint16, <-!app_assoc by done. cbn [app]. do 8 f_equal.
    set (ml := Z.to_nat m) in *. set (il := Z.to_nat i) in *.
    replace (ml * 2 + il * 2)%nat with (ml + il + ml + il)%nat by lia.
    rewrite <-!(drop_drop rest), !take_drop. done.
Qed.
End packet.

(** ** Frames *)

Section frames.
Context `{E : Ethernet} {L : EthernetLaws E}.

Lemma parse_frame p addr :
  packet_wf p → wire_length p < 256 → length addr = 6%nat → length (SenderHardwareAddr p) = 6%nat →
  ∃ fb f, Frame_MarshalBinary (mkFrame addr (SenderHardwareAddr p) EtherTypeARP (wire p)) = Ret fb ∧
    parsePacket fb = Ret (p, f) ∧ f_Destination f = addr.
Proof.
  intros Hw Hlen Ha Hs.
  destruct (Frame_law (mkFrame addr (SenderHardwareAddr p) EtherTypeARP (wire p)) Ha Hs) as (b & n & Eb & Ef).
  { cbn. rewrite EtherTypeARP_law. lia. }
  cbn [f_Destination f_Source f_EtherType f_Payload] in Ef. exists b, (mkFrame addr (SenderHardwareAddr p) EtherTypeARP (wire p ++ replicate n 0)). split; [done|]. split; [|done]. unfold parsePacket. rewrite Ef. cbn [mbind outcome_bind f_EtherType f_Payload].
  rewrite decide_False by (intros Hn; by apply Hn). by rewrite Unmarshal_wire.
Qed.

Lemma WriteTo_frame p addr c :
  packet_wf p → wire_length p < 256 → length addr = 6%nat → length (SenderHardwareAddr p) = 6%nat →
  (∀ fb a, c_write c fb a = Ret tt) →
  ∃ fb f, WriteTo p addr c = (Ret tt, mkConn (c_inbox c) (c_outbox c ++ [(fb, addr)]) (c_write c) (c_deadline c)) ∧
    parsePacket fb = Ret (p, f) ∧ f_Destination f = addr.
Proof.
  intros Hw Hlen Ha Hs Hwr. destruct (parse_frame p addr Hw Hlen Ha Hs) as (fb & f & Eb & Ep & Ed).
  exists fb, f. split; [|done]. unfold WriteTo. rewrite Marshal_wire by done. m_run. rewrite Eb. m_run.
  unfold conn_WriteTo. by rewrite Hwr.
Qed.

(** ** Waiting for a reply *)

(** What one pass over the datagrams says: the sender of the first reply from
    [ip], or the first error on the way.  Frames that are not ARP and other
    ARP packets are passed over. *)
Fixpoint answer (ip : list Z) (inbox : list (outcome (list Z))) : outcome (list Z) :=
  match inbox with
  | [] => Diverge
  | r :: inbox =>
      buf ← r;
      match parsePacket (take 128 buf) with
      | Ret (p, _) =>
          if bool_decide (p_Operation p = OperationReply) && IP_Equal (SenderIP p) ip
          then Ret (SenderHardwareAddr p) else answer ip inbox
      | Fail err => if decide (err = errInvalidARPPacket) then answer ip inbox else Fail err
      | Panic => Panic
      | Diverge => Diverge
      end
  end.

(** The first ARP packet and what is left after it. *)
Fixpoint next_packet (inbox : list (outcome (list Z))) : outcome (Packet * Frame) * list (outcome (list Z)) :=
  match inbox with
  | [] => (Diverge, [])
  | Ret buf :: inbox =>
      match parsePacket (take 128 buf) with
      | Fail err => if decide (err = errInvalidARPPacket) then next_packet inbox else (Fail err, inbox)
      | o => (o, inbox)
      end
  | Fail e :: inbox => (Fail e, inbox)
  | Panic :: inbox => (Panic, inbox)
  | Diverge :: inbox => (Diverge, inbox)
  end.

Lemma read_loop_next fuel inbox ob wr dl :
  (length inbox < fuel)%nat →
  read_loop fuel (mkConn inbox ob wr dl) = ((next_packet inbox).1, mkConn (next_packet inbox).2 ob wr dl).
Proof.
  revert fuel. induction inbox as [|r inbox IH]; intros [|fuel] Hf; try (cbn in Hf; lia); [done|].
  cbn [read_loop next_packet]. unfold ReadFrom, mbind, M_bind. cbn [c_inbox c_outbox c_write].
  destruct r as [buf|e| |]; try done.
  destruct (parsePacket (take 128 buf)) as [[p f]|err| |]; try done.
  case_decide; [|done]. apply IH. cbn in Hf. lia.
Qed.

Lemma next_packet_shorter inbox p : (next_packet inbox).1 = Ret p → (length (next_packet inbox).2 < length inbox)%nat.
Proof.
  induction inbox as [|r inbox IH]; [done|]. cbn [next_packet]. destruct r as [buf|e| |]; try done.
  destruct (parsePacket (take 128 buf)) as [q|err| |]; try done; [cbn; lia|].
  case_decide; [|done]. intros Hp. specialize (IH Hp). cbn. lia.
Qed.

Lemma answer_next ip inbox :
  answer ip inbox =
    match next_packet inbox with
    | (Ret (p, _), rest) =>
        if bool_decide (p_Operation p = OperationReply) && IP_Equal (SenderIP p) ip
        then Ret (SenderHardwareAddr p) else answer ip rest
    | (Fail e, _) => Fail e
    | (Panic, _) => Panic
    | (Diverge, _) => Diverge
    end.
Proof.
  induction inbox as [|r inbox IH]; [done|]. cbn [answer next_packet]. destruct r as [buf|e| |]; try done.
  cbn [mbind outcome_bind]. destruct (parsePacket (take 128 buf)) as [[p f]|err| |]; try done.
  by case_decide.
Qed.

Lemma resolve_loop_answer ip fuel inbox ob wr dl :
  (length inbox < fuel)%nat →
  ∃ rest, resolve_loop fuel ip (mkConn inbox ob wr dl) = (answer ip inbox, mkConn rest ob wr dl).
Proof.
  revert inbox. induction fuel as [|fuel IH]; intros inbox Hf; [lia|].
  cbn [resolve_loop]. unfold Read at 1. unfold mbind, M_bind. cbn [c_inbox].
  rewrite read_loop_next by lia. rewrite answer_next. pose proof (next_packet_shorter inbox) as Hs.
  destruct (next_packet inbox) as [o rest]. cbn [fst snd] in *.
  destruct o as [[p f]|e| |]; [|by exists rest..]. specialize (Hs _ eq_refl).
  destruct (decide (p_Operation p = OperationReply)) as [Ho|Ho].
  - rewrite decide_False, bool_decide_eq_true_2 by auto. cbn [andb].
    destruct (IP_Equal (SenderIP p) ip); cbn [negb]; [by exists rest|]. apply IH. lia.
  - rewrite decide_True, bool_decide_eq_false_2 by done. cbn [andb]. apply IH. lia.
Qed.

Lemma await_reply_answer ip c :
  ∃ rest, await_reply ip c = (answer ip (c_inbox c), mkConn rest (c_outbox c) (c_write c) (c_deadline c)).
Proof. unfold await_reply. destruct c as [inbox ob wr dl]. apply resolve_loop_answer. cbn. lia. Qed.

(** ** The check of a new address *)

Definition arp_packet (op : Z) (ifi sip tip : list Z) : Packet :=
  mkPacket 1 EtherTypeIPv4 6 4 op ifi (To4 sip) Broadcast (To4 tip).

(** A fresh socket that takes a deadline and on which writes succeed. *)
Definition quiet (c : Conn) : Prop := c_outbox c = [] ∧ c_deadline c = Ret tt ∧ ∀ fb a, c_write c fb a = Ret tt.

(** The frame and the address that it was sent to. *)
Definition carries (x : list Z * list Z) (p : Packet) : Prop := (∃ f, parsePacket x.1 = Ret (p, f)) ∧ x.2 = Broadcast.

Lemma To4_len ip : To4 ip ≠ [] → length (To4 ip) = 4%nat.
Proof.
  unfold To4. repeat case_decide; [done| |done]. intros _. rewrite length_drop. lia.
Qed.

Lemma Broadcast_len : length Broadcast = 6%nat.
Proof. by rewrite Broadcast_law. Qed.

Lemma NewPacket_arp op ifi sip tip :
  length ifi = 6%nat → To4 sip ≠ [] → To4 tip ≠ [] → NewPacket op ifi sip Broadcast tip = Ret (arp_packet op ifi sip tip).
Proof.
  intros Hl Hs Ht. unfold NewPacket. rewrite Broadcast_len, Hl, (To4_len sip) by done.
  repeat (rewrite decide_False by (lia || done || by intros [])). done.
Qed.

Lemma arp_packet_wf op ifi sip tip :
  uint16_ok op → length ifi = 6%nat → To4 sip ≠ [] → To4 tip ≠ [] → packet_wf (arp_packet op ifi sip tip).
Proof.
  intros Ho Hl Hs Ht. split; cbn -[To4]; rewrite ?EtherTypeIPv4_law, ?Broadcast_len, ?Hl, ?To4_len by done;
    unfold uint16_ok, byte_ok in *; lia.
Qed.

Lemma send_arp op ifi sip tip c :
  uint16_ok op → length ifi = 6%nat → To4 sip ≠ [] → To4 tip ≠ [] → (∀ fb a, c_write c fb a = Ret tt) →
  ∃ x, carries x (arp_packet op ifi sip tip) ∧
    WriteTo (arp_packet op ifi sip tip) Broadcast c = (Ret tt, mkConn (c_inbox c) (c_outbox c ++ [x]) (c_write c) (c_deadline c)).
Proof.
  intros Ho Hl Hs Ht Hwr.
  destruct (WriteTo_frame (arp_packet op ifi sip tip) Broadcast c) as (fb & f & E1 & E2 & _);
    [by apply arp_packet_wf|done|apply Broadcast_len|done|done|].
  exists (fb, Broadcast). split; [|done]. split; [by exists f|done].
Qed.

Lemma ping_run ifi sip tip c next used :
  length ifi = 6%nat → To4 sip ≠ [] → To4 tip ≠ [] → quiet c →
  ∃ x c' msg, carries x (arp_packet OperationRequest ifi sip tip) ∧ c_outbox c' = [x] ∧
    pingOverInterface ifi sip tip (mkLink (Ret c :: next) used) =
      (wrap_outcome msg (answer tip (c_inbox c)), mkLink next (used ++ [c'])).
Proof.
  intros Hl Hs Ht (Hob & Hdl & Hwr).
  destruct (send_arp OperationRequest ifi sip tip c) as (x & Hx & Ew); [done..|].
  destruct (await_reply_answer tip (mkConn (c_inbox c) (c_outbox c ++ [x]) (c_write c) (c_deadline c))) as [rest Ea].
  exists x. eexists (mkConn rest (c_outbox c ++ [x]) (c_write c) (c_deadline c)), _. split; [done|]. split; [cbn; by rewrite Hob|].
  unfold pingOverInterface, with_socket. cbn [l_next].
  assert (SetDeadline c = (Ret tt, c)) as Ed by (unfold SetDeadline; by rewrite Hdl).
  rewrite (bind_Ret _ _ _ _ _ (wrap_Ret _ _ _ _ _ Ed)). unfold Resolve, Request.
  rewrite decide_False by (cbn; by intros ->). cbn [ac_ifi ac_ip].
  rewrite NewPacket_arp by done. unfold wrap. unfold mbind at 1, M_bind at 1. rewrite bind_lift_Ret, Ew, Ea.
  cbn [c_inbox c_outbox c_write]. by destruct (answer tip (c_inbox c)).
Qed.

Lemma gratuitous_run ifi ip c next used :
  length ifi = 6%nat → To4 ip ≠ [] → quiet c →
  ∃ x y c', carries x (arp_packet OperationRequest ifi ip ip) ∧ carries y (arp_packet OperationReply ifi ip ip) ∧
    c_outbox c' = [x; y] ∧
    gratuitousOverInterface ip ifi (mkLink (Ret c :: next) used) = (Ret tt, mkLink next (used ++ [c'])).
Proof.
  intros Hl Hi (Hob & Hdl & Hwr).
  destruct (send_arp OperationRequest ifi ip ip c) as (x & Hx & Ex); [done..|].
  destruct (send_arp OperationReply ifi ip ip (mkConn (c_inbox c) (c_outbox c ++ [x]) (c_write c) (c_deadline c))) as (y & Hy & Ey); [done..|].
  exists x, y. eexists. split; [done|]. split; [done|].
  split; [|unfold gratuitousOverInterface, with_socket; cbn [l_next each]; unfold gratuitous_one, wrap; cbn [ac_ifi ac_ip];
    rewrite !NewPacket_arp by done; unfold mbind, M_bind, lift; rewrite Ex, Ey; reflexivity].
  cbn. by rewrite Hob.
Qed.

Lemma CheckWithTimeout_run ifi srcPod gateway c1 c2 c3 :
  length ifi = 6%nat → To4 srcPod ≠ [] → To4 gateway ≠ [] → Forall quiet [c1; c2; c3] →
  let r := CheckWithTimeout ifi srcPod gateway (mkLink [Ret c1; Ret c2; Ret c3] []) in
  (r.1 = Ret tt ↔ (∃ hw, answer gateway (c_inbox c1) = Ret hw) ∧ (∃ e, answer srcPod (c_inbox c2) = Fail e)) ∧
  (r.1 = Ret tt → Forall2 carries (concat (map c_outbox (l_used r.2)))
     [arp_packet OperationRequest ifi srcPod gateway; arp_packet OperationRequest ifi (ParseIP "0.0.0.0") srcPod;
      arp_packet OperationRequest ifi srcPod srcPod; arp_packet OperationReply ifi srcPod srcPod]).
Proof.
  intros Hl Hs Hg Hq r. rewrite !Forall_cons in Hq. destruct Hq as (Q1 & Q2 & Q3 & _).
  destruct (ping_run ifi srcPod gateway c1 [Ret c2; Ret c3] []) as (x1 & d1 & m1 & X1 & D1 & P1); [done..|].
  destruct (ping_run ifi (ParseIP "0.0.0.0") srcPod c2 [Ret c3] [d1]) as (x2 & d2 & m2 & X2 & D2 & P2); [done|by vm_compute|done|done|].
  destruct (gratuitous_run ifi srcPod c3 [] [d1; d2]) as (x3 & x4 & d3 & X3 & X4 & D3 & P3); [done..|].
  unfold r, CheckWithTimeout. unfold mbind at 1 3 5, M_bind at 1 3 5. unfold wrap at 1 3 5. rewrite P1.
  destruct (answer gateway (c_inbox c1)) as [hw|e| |]; cbn [wrap_outcome fst snd];
    [|split; [split; [done|by intros [[? [=]] _]]|done]..].
  unfold mbind, M_bind, check_duplicate. cbn [app]. rewrite P2.
  destruct (answer srcPod (c_inbox c2)) as [hw2|e2| |]; cbn [wrap_outcome fst snd];
    [split; [split; [done|by intros [_ [? [=]]]]|done]| |split; [split; [done|by intros [_ [? [=]]]]|done]..].
  unfold wrap. cbn [app]. rewrite P3. cbn [fst snd l_used app map concat]. rewrite D1, D2, D3.
  split; [by split; [intros _; split; eexists|]|].
  intros _. cbn [app]. do 4 (constructor; [done|]). constructor.
Qed.
End frames.

Lemma ethernet_concrete_laws : EthernetLaws ethernet_concrete.
Proof.
  split; [done..|]. intros f Hd Hs Ht. eexists _, 0%nat. split; [done|].
  destruct f as [dst src t payload]. cbn [f_Destination f_Source f_EtherType f_Payload replicate] in *. rewrite app_nil_r.
  cbn [Frame_UnmarshalBinary ethernet_concrete]. set (b := dst ++ src ++ BigEndian_bytes t ++ payload).
  assert (drop 12 b = BigEndian_bytes t ++ payload) as ->.
  { unfold b. rewrite app_assoc. apply drop_app_length'. rewrite length_app. lia. }
  assert (take 6 b = dst) as -> by (apply take_app_length'; lia).
  assert (drop 6 b = src ++ BigEndian_bytes t ++ payload) as -> by (apply drop_app_length'; lia).
  rewrite take_app_length' by lia. unfold BigEndian_bytes. cbn [app].
  by rewrite BigEndian_Uint16_bytes by (unfold uint16_ok; lia).
Qed.

(** ** Properties *)

(** C35: an ARP packet whose length fits a byte is encoded, in that many bytes,
    and decodes to itself whatever follows and whatever the receiver held; a
    longer one makes the encoder panic, since the size of its buffer wraps
    around.  Decoding never panics: it fails exactly on input that is shorter
    than its own fields say, and otherwise gives a well-formed packet whose
    encoding is the prefix that was read. *)
Theorem packet_roundtrip `{Ethernet} :
  (∀ p, packet_wf p →
     if decide (wire_length p < 256)
     then ∃ b, Packet_MarshalBinary p = Ret b ∧ Z.of_nat (length b) = wire_length p ∧
            ∀ tail p0, Packet_UnmarshalBinary (b ++ tail) p0 = (Ret tt, p)
     else Packet_MarshalBinary p = Panic) ∧
  (∀ b p0, bytes_ok b →
     match Packet_UnmarshalBinary b p0 with
     | (Ret _, p) => packet_wf p ∧ wire_length p ≤ Z.of_nat (length b) ∧
         (wire_length p < 256 → Packet_MarshalBinary p = Ret (take (Z.to_nat (wire_length p)) b))
     | (Fail e, _) => e = ErrUnexpectedEOF ∧
         ((length b < 8)%nat ∨ ∃ m i, b !! 4%nat = Some m ∧ b !! 5%nat = Some i ∧ Z.of_nat (length b) < 8 + 2 * m + 2 * i)
     | _ => False
     end).
Proof.
  split.
  - intros p Hp. case_decide as Hlen.
    + exists (wire p). split; [by apply Marshal_wire|]. split; [|intros; by apply Unmarshal_wire].
      unfold wire, wire_length. destruct Hp. rewrite !length_app. cbn [length BigEndian_bytes]. lia.
    + apply Marshal_panics; [apply Hp..|lia].
  - intros b p0 Hb. destruct (decide (length b < 8)%nat) as [Hs|Hs]; [rewrite Unmarshal_short by done; auto|].
    destruct b as [|h0 [|h1 [|q0 [|q1 [|m [|i [|o0 [|o1 rest]]]]]]]]; try (cbn in Hs; lia).
    change (h0 :: h1 :: q0 :: q1 :: m :: i :: o0 :: o1 :: rest) with ([h0; h1; q0; q1; m; i; o0; o1] ++ rest) in *.
    apply Forall_app in Hb as [Hb _]. pose proof Hb as Hb0. rewrite !Forall_cons in Hb0. destruct Hb0 as (_ & _ & _ & _ & Hm & Hi & _).
    unfold byte_ok in Hm, Hi. destruct (Unmarshal_long h0 h1 q0 q1 m i o0 o1 rest p0) as [p' ->]. case_decide as Hr.
    + split; [done|]. right. exists m, i. split; [done|]. split; [done|]. rewrite length_app. cbn [length]. lia.
    + destruct (wire_decoded h0 h1 q0 q1 m i o0 o1 rest Hb ltac:(lia)) as [Hw Ew]. split; [done|]. split.
      { rewrite length_app. unfold wire_length, decoded. cbn [length IPLength HardwareAddrLength]. lia. }
      intros Hlen. rewrite Marshal_wire, <-Ew by done. f_equal. symmetry. rewrite take_app_le; [apply take_ge|];
        (unfold wire, wire_length in *; destruct Hw; rewrite !length_app; cbn [length BigEndian_bytes]; lia).
Qed.

Definition w_mac : list Z := [2; 18; 52; 1; 2; 3].
Definition w_arp : Packet := mkPacket 1 0x0800 6 4 OperationRequest w_mac [192; 168; 0; 5] [255; 255; 255; 255; 255; 255] [192; 168; 0; 1].

Lemma packet_roundtrip_witness :
  (∃ b, Packet_MarshalBinary w_arp = Ret b ∧ Z.of_nat (length b) = 28 ∧
     Packet_UnmarshalBinary (b ++ [0; 0]) zero_packet = (Ret tt, w_arp)) ∧
  Packet_MarshalBinary (mkPacket 1 0x0800 124 4 1 (replicate 124 7) [1; 2; 3; 4] (replicate 124 7) [1; 2; 3; 4]) = Panic.
Proof.
  destruct (packet_roundtrip (H := ethernet_concrete)) as [Hr _]. split.
  - assert (packet_wf w_arp) as Hw by (by split).
    destruct (Hr w_arp Hw) as (b & Eb & El & Eu). exists b. split; [exact Eb|]. split; [exact El|]. apply Eu.
  - assert (packet_wf (mkPacket 1 0x0800 124 4 1 (replicate 124 7) [1; 2; 3; 4] (replicate 124 7) [1; 2; 3; 4])) as Hw by (by split).
    exact (Hr _ Hw).
Defined.

(** C36: over sockets that take a deadline and can be written, the check of a new pod address
    succeeds exactly when the gateway answers and nobody answers for the
    address of the pod, where the answer of a socket is what one pass over the
    received datagrams finds.  On success exactly four packets were broadcast:
    the request for the gateway, the probe from 0.0.0.0, and the announcement
    of the address as a request and as a reply. *)
Theorem CheckWithTimeout_exact `{E : Ethernet} (L : EthernetLaws E) ifi srcPod gateway c1 c2 c3 :
  length ifi = 6%nat → To4 srcPod ≠ [] → To4 gateway ≠ [] → Forall quiet [c1; c2; c3] →
  let r := CheckWithTimeout ifi srcPod gateway (mkLink [Ret c1; Ret c2; Ret c3] []) in
  (r.1 = Ret tt ↔ (∃ hw, answer gateway (c_inbox c1) = Ret hw) ∧ (∃ e, answer srcPod (c_inbox c2) = Fail e)) ∧
  (r.1 = Ret tt → Forall2 carries (concat (map c_outbox (l_used r.2)))
     [arp_packet OperationRequest ifi srcPod gateway; arp_packet OperationRequest ifi (ParseIP "0.0.0.0") srcPod;
      arp_packet OperationRequest ifi srcPod srcPod; arp_packet OperationReply ifi srcPod srcPod]).
Proof. apply CheckWithTimeout_run. Qed.

(** The gateway answers after an unrelated reply; for the pod nobody does. *)
Definition w_reply (hw sip : list Z) : outcome (list Z) :=
  b ← Packet_MarshalBinary (mkPacket 1 0x0800 6 4 OperationReply hw sip w_mac [192; 168; 0; 5]);
  Frame_MarshalBinary (Ethernet := ethernet_concrete) (mkFrame w_mac hw 0x0806 b).

Definition w_socket (inbox : list (outcome (list Z))) : Conn := mkConn inbox [] (λ _ _, Ret tt) (Ret tt).

Lemma CheckWithTimeout_exact_witness :
  let gw := w_socket [w_reply [2; 0; 0; 0; 0; 9] [192; 168; 0; 9]; w_reply [2; 0; 0; 0; 0; 1] [192; 168; 0; 1]] in
  let timeout := w_socket [Fail (Errorf "i/o timeout" [])] in
  (CheckWithTimeout (H := ethernet_concrete) w_mac (ParseIP "192.168.0.5") (ParseIP "192.168.0.1")
     (mkLink [Ret gw; Ret timeout; Ret (w_socket [])] [])).1 = Ret tt ∧
  ∃ hw, answer (E := ethernet_concrete) (ParseIP "192.168.0.1") (c_inbox gw) = Ret hw.
Proof.
  intros gw timeout.
  destruct (CheckWithTimeout_exact ethernet_concrete_laws w_mac (ParseIP "192.168.0.5") (ParseIP "192.168.0.1")
    gw timeout (w_socket []) eq_refl ltac:(vm_compute; discriminate) ltac:(vm_compute; discriminate)
    ltac:(repeat constructor)) as [Hiff _].
  assert ((∃ hw, answer (E := ethernet_concrete) (ParseIP "192.168.0.1") (c_inbox gw) = Ret hw) ∧
          ∃ e, answer (E := ethernet_concrete) (ParseIP "192.168.0.5") (c_inbox timeout) = Fail e) as Ha.
  { split; eexists; vm_compute; reflexivity. }
  split; [exact (proj2 Hiff Ha)|exact (proj1 Ha)].
Defined.
