(* ===== verification/IPSet.v ===== *)
(** * ipset (pkg/daemon/ipset/ipset.go)

    The package runs the command ipset and keeps what it knows of the sets in
    objects that refer to each other by pointers: an [IPSet] has sets by name,
    a set has entries, and an entry its set.  Sets are the elements of a heap,
    pointers are indices into it; every set has the same parent, the state of
    the monad together with the state [K] of the system.  What the command
    does is the class [IPSetCmd]. *)

From Stdlib Require Import Ascii.
From S2P Require Import Prelude GoNet GoStrings Utils.

Definition TypeHashIP : string := "hash:ip".
Definition TypeHashNet : string := "hash:net".
Definition OptionTimeout : string := "timeout".
Definition tmpIPSetPrefix : string := "TMP-".
Definition errIpsetNotFound : error := errors_New "ipset utility not found".

(** [exec.Cmd.Run] of the command: its arguments, its standard input; standard
    output, or standard error when it fails.  [digest] is
    [base32(sha1(text)[:10])]. *)
Class IPSetCmd (K : Type) : Type := {
  LookPath : outcome string;
  exec_run : list string → option string → K → (string + string) * K;
  digest : string → string
}.

(** Entries and sets; the pointer of an entry to its set is an index. *)
Record Entry := mkEntry { en_Set : nat; en_Options : list string }.
Record Set_ := mkSet { set_Name : string; set_Entries : list Entry; set_Options : list string }.
Record IPSetObj := mkIPSetObj { obj_heap : list Set_; obj_Sets : gmap string nat; obj_isIpv6 : bool }.

(** [strings.Contains] *)
Fixpoint Contains (s sub : string) : bool :=
  String.prefix sub s || match s with EmptyString => false | String _ s => Contains s sub end.

Definition line_feed : string := String "010" "".
Definition words (l : list string) : string := join " " l.

Section ipset.
Context {K : Type} `{IPSetCmd K}.
Abbreviation State := (IPSetObj * K)%type.

Definition on_system {A} (m : M K A) : M State A := zoom (λ s, Some s.2) (λ k s, (s.1, k)) m.
Definition obj : M State IPSetObj := gets fst.
Definition put_obj (o : IPSetObj) : M State unit := modify (λ s, (o, s.2)).

(** The set behind a pointer, and a write through it. *)
Definition set_at (p : nat) : M State Set_ := o ← obj; lift (deref (obj_heap o !! p)).
Definition store_set (p : nat) (set : Set_) : M State unit :=
  o ← obj; put_obj (mkIPSetObj (<[p := set]> (obj_heap o)) (obj_Sets o) (obj_isIpv6 o)).
Definition new_set (set : Set_) : M State nat :=
  o ← obj; put_obj (mkIPSetObj (obj_heap o ++ [set]) (obj_Sets o) (obj_isIpv6 o));; mret (length (obj_heap o)).
Definition put_Sets (f : gmap string nat → gmap string nat) : M State unit :=
  o ← obj; put_obj (mkIPSetObj (obj_heap o) (f (obj_Sets o)) (obj_isIpv6 o)).

Definition run (args : list string) : M State string :=
  result ← on_system (λ k, let '(r, k) := exec_run args None k in (Ret r, k));
  match result with inl stdout => mret stdout | inr stderr => fail (errors_New stderr) end.

Definition runWithStdin (stdin : string) (args : list string) : M State unit :=
  result ← on_system (λ k, let '(r, k) := exec_run args (Some stdin) k in (Ret r, k));
  match result with inl _ => mret tt | inr stderr => fail (errors_New stderr) end.

Definition getIPSetPath : outcome string :=
  match LookPath with Fail _ => Fail errIpsetNotFound | o => o end.

Definition NewIPSet (isIpv6 : bool) : outcome IPSetObj :=
  _ ← getIPSetPath;
  Ret (mkIPSetObj [] ∅ isIpv6).

Definition IPSet_Get (setName : string) (o : IPSetObj) : option nat := obj_Sets o !! setName.

Definition set_name (o : IPSetObj) (set : Set_) : string :=
  if obj_isIpv6 o then "inet6:" +:+ set_Name set else set_Name set.
Definition name (p : nat) : M State string := set ← set_at p; gets (λ s, set_name s.1 set).
Definition GetNameWithProtocol (p : nat) : M State string := name p.

(** The error of the command is known by its text. *)
Definition listed (m : M State string) : M State bool := λ s,
  match m s with
  | (Ret _, s) => (Ret true, s)
  | (Fail (errors_New stderr), s) =>
      if Contains stderr "name does not exist" then (Ret false, s) else (Fail (errors_New stderr), s)
  | (Fail err, s) => (Fail err, s)
  | (Panic, s) => (Panic, s)
  | (Diverge, s) => (Diverge, s)
  end.

Definition IsActive (p : nat) : M State bool := n ← name p; listed (run ["list"; n]).

Definition Create (setName : string) (createOptions : list string) : M State nat :=
  o ← obj;
  (match IPSet_Get setName o with
   | None => p ← new_set (mkSet setName [] createOptions); put_Sets <[setName := p]>
   | Some _ => mret tt
   end);;
  o ← obj;
  p ← lift (deref (obj_Sets o !! setName));
  setIsActive ← wrap (Wrapf "failed to determine if ipset set %s exists: %s" [setName]) (IsActive p);
  (if setIsActive : bool then mret tt
   else
     n ← name p;
     wrap (Wrapf "failed to create ipset set on system: %s" [])
       (if obj_isIpv6 o then run (["create"; "-exist"; n] ++ createOptions ++ ["family"; "inet6"])
        else run (["create"; "-exist"; setName] ++ createOptions));;
     mret tt);;
  mret p.

Definition add_line (n : string) (options : list string) : string := words (["add"; "-exist"; n] ++ options) +:+ line_feed.

Definition BatchAdd (p : nat) (addOptions : list (list string)) : M State unit :=
  set ← set_at p;
  store_set p (mkSet (set_Name set) (set_Entries set ++ map (mkEntry p) addOptions) (set_Options set));;
  n ← name p;
  runWithStdin (String.concat "" (map (add_line n) addOptions)) ["restore"].

Definition IPSet_Add (p : nat) : M State unit :=
  set ← set_at p;
  Create (set_Name set) (set_Options set);;
  set ← set_at p;
  o ← obj;
  q ← lift (deref (IPSet_Get (set_Name set) o));
  BatchAdd q (map en_Options (set_Entries set)).

Definition RefreshSet (setName : string) (entriesWithOptions : list (list string)) (setType : string) : M State unit :=
  o ← obj;
  (match IPSet_Get setName o with
   | None => p ← new_set (mkSet setName [] [setType; OptionTimeout; "0"]); put_Sets <[setName := p]>
   | Some _ => mret tt
   end);;
  o ← obj;
  p ← lift (deref (IPSet_Get setName o));
  set ← set_at p;
  store_set p (mkSet (set_Name set) (map (mkEntry p) entriesWithOptions) (set_Options set)).

(** The entry that is returned is the last one of the set. *)
Definition Set_Add (p : nat) (addOptions : list string) : M State Entry :=
  set ← set_at p;
  store_set p (mkSet (set_Name set) (set_Entries set ++ [mkEntry p addOptions]) (set_Options set));;
  n ← name p;
  run (["add"; "-exist"; n] ++ addOptions);;
  mret (mkEntry p addOptions).

Definition Set_Test (p : nat) (testOptions : list string) : M State bool :=
  n ← name p; run (["test"; n] ++ testOptions);; mret true.

Definition Set_Destroy (p : nat) : M State unit :=
  n ← name p;
  run ["destroy"; n];;
  set ← set_at p;
  put_Sets (delete (set_Name set)).

Definition IPSet_Destroy (setName : string) : M State unit :=
  o ← obj;
  match IPSet_Get setName o with
  | None => mret tt
  | Some p => Set_Destroy p
  end.

(** [range_order] is the order in which the map is visited. *)
Definition DestroyAllWithin (range_order : gmap string nat → list (string * nat)) : M State unit :=
  o ← obj; each (λ kv, Set_Destroy kv.2) (range_order (obj_Sets o)).

(** ** The text of a save, and of a restore *)

(** A line that is too short, or adds to an unknown set, panics. *)
Definition parse_line (st : list Set_ * gmap string nat) (line : string) : outcome (list Set_ * gmap string nat) :=
  let '(heap, sets) := st in
  match Split line " " with
  | "create" :: rest =>
      match rest with
      | n :: options => Ret (heap ++ [mkSet n [] options], <[n := length heap]> sets)
      | [] => Panic
      end
  | "add" :: rest =>
      match rest with
      | n :: options =>
          p ← deref (sets !! n);
          set ← deref (heap !! p);
          Ret (<[p := mkSet (set_Name set) (set_Entries set ++ [mkEntry p options]) (set_Options set)]> heap, sets)
      | [] => Panic
      end
  | _ => Ret st
  end.

(** The sets are new objects; the old ones stay where they are. *)
Definition parseIPSetSave (heap : list Set_) (result : string) : outcome (list Set_ * gmap string nat) :=
  for_each parse_line (heap, ∅) (Split result "010").

Definition Save : M State unit :=
  stdout ← run ["save"];
  o ← obj;
  parsed ← lift (parseIPSetSave (obj_heap o) stdout);
  put_obj (mkIPSetObj parsed.1 parsed.2 (obj_isIpv6 o)).

Definition Entry_Del (e : Entry) : M State unit :=
  n ← name (en_Set e);
  run (["del"; n] ++ en_Options e);;
  Save.

Definition tmp_name (setOptions : string) : string := tmpIPSetPrefix +:+ digest ("tmp:" +:+ setOptions).

(** The commands for one set; [tmpSets] are the temporary sets made so far. *)
Definition restore_set (o : IPSetObj) (st : gmap string string * string) (setName : string) : outcome (gmap string string * string) :=
  let '(tmpSets, text) := st in
  p ← deref (obj_Sets o !! setName);
  set ← deref (obj_heap o !! p);
  let setOptions := words (set_Options set) in
  let known := default "" (tmpSets !! setOptions) in
  let fresh := bool_decide (known = "") in
  let tmpSetName := if fresh then tmp_name setOptions else known in
  let text := if fresh
              then text +:+ words ["create"; tmpSetName; setOptions] +:+ line_feed
                        +:+ words ["flush"; tmpSetName] +:+ line_feed
              else text in
  let tmpSets := if fresh then <[setOptions := tmpSetName]> tmpSets else tmpSets in
  Ret (tmpSets, text +:+ String.concat "" (map (λ e, words ["add"; tmpSetName; words (en_Options e)] +:+ line_feed) (set_Entries set))
    +:+ words ["create"; set_Name set; setOptions] +:+ line_feed
    +:+ words ["swap"; tmpSetName; set_Name set] +:+ line_feed
    +:+ words ["flush"; tmpSetName] +:+ line_feed).

Definition buildIPSetRestore (o : IPSetObj) : outcome string :=
  let setNames := sort_Strings (elements (dom (obj_Sets o))) in
  st ← for_each (restore_set o) (∅, "") setNames;
  let setsToDestroy := sort_Strings (snd <$> map_to_list st.1) in
  Ret (st.2 +:+ String.concat "" (map (λ n, words ["destroy"; n] +:+ line_feed) setsToDestroy)).

Definition Restore_ : M State unit :=
  o ← obj;
  stdin ← lift (buildIPSetRestore o);
  runWithStdin stdin ["restore"; "-exist"].

Definition Set_Flush (p : nat) : M State unit := set ← set_at p; run ["flush"; set_Name set];; mret tt.
Definition IPSet_Flush : M State unit := run ["flush"];; mret tt.

Definition Rename (p : nat) (newName : string) : M State unit :=
  o ← obj;
  let newName := if obj_isIpv6 o then "ipv6:" +:+ newName else newName in
  n ← name p;
  run ["rename"; n; newName];;
  mret tt.

Definition Swap (p setTo : nat) : M State unit :=
  n ← name p;
  m ← name setTo;
  run ["swap"; n; m];;
  mret tt.

(** The new members go to a set of another name, which is swapped with the
    set and destroyed; [newSet] itself is not in the map of the parent. *)
Definition RefreshWithBuiltinOptions (p : nat) (entries : list (list string)) : M State unit :=
  set ← set_at p;
  let tempName := set_Name set +:+ "-" in
  newSet ← new_set (mkSet tempName [] (set_Options set));
  IPSet_Add newSet;;
  BatchAdd newSet entries;;
  Swap p newSet;;
  IPSet_Destroy tempName.

Definition Refresh (p : nat) (entries extraOptions : list string) : M State unit :=
  RefreshWithBuiltinOptions p (map (λ entry, entry :: extraOptions) entries).
End ipset.
