(* ===== verification/IPSetProperties.v ===== *)
(** * A refresh replaces the members of an ipset at once *)

From Stdlib Require Import Ascii.
From S2P Require Import Prelude GoNet GoStrings Utils IPSet.

(** ** What the command does

    The system has sets by name, each with the options of its creation and its
    members; [element] is what the command stores for the words of an entry. *)

Record KSet (Elem : Type) `{Countable Elem} := mkKSet { ks_options : list string; ks_members : gset Elem }.
Arguments mkKSet {Elem _ _} _ _.
Arguments ks_options {Elem _ _} _.
Arguments ks_members {Elem _ _} _.

(** Texts that are one word of a line. *)
Definition word (s : string) : Prop := nobyte " " s ∧ nobyte "010" s.

Definition text_of (r : string + string) : option string := match r with inl _ => None | inr e => Some e end.

(** A set that is there is created again without an effect. *)
Definition ensure {Elem} `{Countable Elem} (n : string) (options : list string) (v : gmap string (KSet Elem)) : gmap string (KSet Elem) :=
  match v !! n with Some _ => v | None => <[n := mkKSet options ∅]> v end.

Section laws.
Context {K : Type} {C : IPSetCmd K}.

(** A command has its effect, or fails without one; a restore stops at the
    first line that fails. *)
Class IPSetLaws : Type := {
  Elem : Type;
  Elem_eq_dec :: EqDecision Elem;
  Elem_countable :: Countable Elem;
  element : list string → list string → option Elem;
  view : K → gmap string (KSet Elem);
  list_law n k :
    let '(r, k') := exec_run ["list"; n] None k in
    view k' = view k ∧ (∀ out, r = inl out → is_Some (view k !! n)) ∧
    (∀ e, r = inr e → Contains e "name does not exist" = true → view k !! n = None);
  create_law n options k :
    let '(r, k') := exec_run (["create"; "-exist"; n] ++ options) None k in
    view k' = match r with inl _ => ensure n options (view k) | inr _ => view k end;
  swap_law n m k :
    let '(r, k') := exec_run ["swap"; n; m] None k in
    match r with
    | inl _ => ∃ a b, view k !! n = Some a ∧ view k !! m = Some b ∧ view k' = <[n := b]> (<[m := a]> (view k))
    | inr _ => view k' = view k
    end;
  destroy_law n k :
    let '(r, k') := exec_run ["destroy"; n] None k in
    view k' = match r with inl _ => delete n (view k) | inr _ => view k end;
  restore_law n entries ks k :
    word n → Forall (Forall word) entries → view k !! n = Some ks →
    let '(r, k') := exec_run ["restore"] (Some (String.concat "" (map (add_line n) entries))) k in
    ∃ done rest elems, entries = done ++ rest ∧ (∀ out, r = inl out → rest = []) ∧
      Forall2 (λ e x, element (ks_options ks) e = Some x) done elems ∧
      view k' = <[n := mkKSet (ks_options ks) (list_to_set elems ∪ ks_members ks)]> (view k)
}.
End laws.

Section properties.
Context {K : Type} {C : IPSetCmd K} {L : IPSetLaws (K := K)}.
Abbreviation State := (IPSetObj * K)%type.
Implicit Types (s : State) (p q : nat).

(** Every name of the map is the name of the set that it points to. *)
Definition obj_wf (o : IPSetObj) : Prop :=
  ∀ n p, obj_Sets o !! n = Some p → ∃ set, obj_heap o !! p = Some set ∧ set_Name set = n.

(** Objects that were there keep their names and options. *)
Record grows (o o' : IPSetObj) : Prop := {
  gr_ipv6 : obj_isIpv6 o' = obj_isIpv6 o;
  gr_wf : obj_wf o → obj_wf o';
  gr_heap p set : obj_heap o !! p = Some set →
    ∃ set', obj_heap o' !! p = Some set' ∧ set_Name set' = set_Name set ∧ set_Options set' = set_Options set
}.

Lemma grows_refl o : grows o o.
Proof. split; eauto. Qed.

Lemma grows_trans o1 o2 o3 : grows o1 o2 → grows o2 o3 → grows o1 o3.
Proof.
  intros [A1 A2 A3] [B1 B2 B3]. split; [congruence|auto|]. intros p set H.
  destruct (A3 p set H) as (set' & H' & N & O). destruct (B3 p set' H') as (set'' & H'' & N' & O'). exists set''.
  split_and!; [done|congruence|congruence].
Qed.

(** The name of a set on the system. *)
Definition sys_name (o : IPSetObj) (n : string) : string := if obj_isIpv6 o then "inet6:" +:+ n else n.
Definition sys_options (o : IPSetObj) (options : list string) : list string :=
  if obj_isIpv6 o then options ++ ["family"; "inet6"] else options.

Lemma sys_name_inj o n m : sys_name o n = sys_name o m → n = m.
Proof. unfold sys_name. destruct (obj_isIpv6 o); [|done]. intros H. by repeat injection H as H. Qed.

Lemma grows_sys_name o o' n : grows o o' → sys_name o' n = sys_name o n.
Proof. intros G. unfold sys_name. by rewrite (gr_ipv6 _ _ G). Qed.

Lemma set_at_run p set s : obj_heap s.1 !! p = Some set → set_at p s = (Ret set, s).
Proof. intros E. unfold set_at, obj. m_run. unfold lift. cbn. by rewrite E. Qed.

Lemma name_run p set s : obj_heap s.1 !! p = Some set → name p s = (Ret (sys_name s.1 (set_Name set)), s).
Proof. intros E. unfold name. by rewrite (bind_Ret _ _ _ _ _ (set_at_run _ _ _ E)). Qed.

Lemma run_cases args s :
  run args s = match exec_run args None s.2 with
               | (inl stdout, k) => (Ret stdout, (s.1, k))
               | (inr stderr, k) => (Fail (errors_New stderr), (s.1, k))
               end.
Proof. unfold run, on_system, zoom, mbind, M_bind. by destruct (exec_run args None s.2) as [[?|?] k]. Qed.

Lemma runWithStdin_cases text args s :
  runWithStdin text args s = match exec_run args (Some text) s.2 with
                             | (inl _, k) => (Ret tt, (s.1, k))
                             | (inr stderr, k) => (Fail (errors_New stderr), (s.1, k))
                             end.
Proof. unfold runWithStdin, on_system, zoom, mbind, M_bind. by destruct (exec_run args (Some text) s.2) as [[?|?] k]. Qed.

Lemma new_set_run set s : new_set set s = (Ret (length (obj_heap s.1)), (mkIPSetObj (obj_heap s.1 ++ [set]) (obj_Sets s.1) (obj_isIpv6 s.1), s.2)).
Proof. by destruct s. Qed.

Lemma put_Sets_run f s : put_Sets f s = (Ret tt, (mkIPSetObj (obj_heap s.1) (f (obj_Sets s.1)) (obj_isIpv6 s.1), s.2)).
Proof. by destruct s. Qed.

Lemma store_set_run p set s : store_set p set s = (Ret tt, (mkIPSetObj (<[p := set]> (obj_heap s.1)) (obj_Sets s.1) (obj_isIpv6 s.1), s.2)).
Proof. by destruct s. Qed.

Lemma grows_new o set : grows o (mkIPSetObj (obj_heap o ++ [set]) (obj_Sets o) (obj_isIpv6 o)).
Proof.
  split; [done| |].
  - intros Hwf n p Hp. destruct (Hwf n p Hp) as (st & Hs & Hn). exists st. split; [|done]. cbn. by apply lookup_app_l_Some.
  - intros p st Hs. exists st. split; [|done]. cbn. by apply lookup_app_l_Some.
Qed.

Lemma grows_bind o n set :
  set_Name set = n →
  grows o (mkIPSetObj (obj_heap o ++ [set]) (<[n := length (obj_heap o)]> (obj_Sets o)) (obj_isIpv6 o)).
Proof.
  intros Hn. destruct (grows_new o set) as [G1 G2 G3]. split; [done| |done].
  intros Hwf m p. cbn. intros [[<- <-]|[Hne Hp]]%lookup_insert_Some.
  - exists set. split; [|done]. by rewrite lookup_app_r, Nat.sub_diag by lia.
  - by apply (G2 Hwf).
Qed.

Lemma grows_entries o p set entries :
  obj_heap o !! p = Some set →
  grows o (mkIPSetObj (<[p := mkSet (set_Name set) entries (set_Options set)]> (obj_heap o)) (obj_Sets o) (obj_isIpv6 o)).
Proof.
  intros Hs. pose proof (lookup_lt_Some _ _ _ Hs) as Hlt. split; [done| |].
  - intros Hwf n q Hq. destruct (Hwf n q Hq) as (st & Hst & Hn). cbn. destruct (decide (p = q)) as [<-|Hne].
    + eexists. split; [by apply list_lookup_insert_eq|]. cbn. congruence.
    + exists st. by rewrite list_lookup_insert_ne.
  - intros q st Hst. cbn. destruct (decide (p = q)) as [<-|Hne].
    + eexists. split; [by apply list_lookup_insert_eq|]. cbn. naive_solver.
    + exists st. by rewrite list_lookup_insert_ne.
Qed.

Lemma grows_delete o n : grows o (mkIPSetObj (obj_heap o) (delete n (obj_Sets o)) (obj_isIpv6 o)).
Proof.
  split; [done| |eauto]. intros Hwf m p. cbn. intros [_ Hp]%lookup_delete_Some. by apply Hwf.
Qed.

Lemma IsActive_spec p set s :
  obj_heap s.1 !! p = Some set →
  post (IsActive p) s (λ o s', s'.1 = s.1 ∧ view s'.2 = view s.2 ∧ match o with
    | Ret b => b = bool_decide (is_Some (view s.2 !! sys_name s.1 (set_Name set)))
    | Fail _ => True
    | _ => False
    end).
Proof.
  intros E. unfold post, IsActive. rewrite (bind_Ret _ _ _ _ _ (name_run _ _ _ E)).
  unfold listed. rewrite run_cases. pose proof (list_law (sys_name s.1 (set_Name set)) s.2) as H.
  destruct (exec_run _ None s.2) as [[out|e] k]; destruct H as (Hv & Hin & Hout); cbn [fst snd].
  - split_and!; [done|done|]. by rewrite bool_decide_eq_true_2 by (by eapply Hin).
  - destruct (Contains e "name does not exist") eqn:Ec; cbn [fst snd]; (split_and!; [done|done|]); [|done].
    rewrite bool_decide_eq_false_2; [done|]. rewrite (Hout e) by done. by intros [? ?].
Qed.

(** The object of a set by its name in the map. *)
Definition known_as (o : IPSetObj) (n : string) (p : nat) (options : list string) : Prop :=
  obj_Sets o !! n = Some p ∧ ∃ set, obj_heap o !! p = Some set ∧ set_Name set = n ∧ set_Options set = options.

(** The options of the object that [Create] finds or makes. *)
Definition kept_options (o : IPSetObj) (n : string) (options : list string) : list string :=
  match obj_Sets o !! n ≫= (obj_heap o !!.) with Some set => set_Options set | None => options end.

Lemma Create_object setName options s :
  obj_wf s.1 →
  ∃ o p,
    (match IPSet_Get setName s.1 with
     | None => p ← new_set (mkSet setName [] options); put_Sets <[setName := p]>
     | Some _ => mret tt
     end) s = (Ret tt, (o, s.2)) ∧
    grows s.1 o ∧ (∀ q set, obj_heap s.1 !! q = Some set → obj_heap o !! q = Some set) ∧
    (∀ n, n ≠ setName → obj_Sets o !! n = obj_Sets s.1 !! n) ∧
    known_as o setName p (kept_options s.1 setName options).
Proof.
  intros Hwf. unfold IPSet_Get, kept_options. destruct (obj_Sets s.1 !! setName) as [p|] eqn:Ep; cbn.
  - destruct (Hwf _ _ Ep) as (set & Hs & Hn). exists s.1, p. rewrite Hs.
    split_and!; [by destruct s|apply grows_refl|done|done|split; [done|by exists set]].
  - set (new := mkSet setName [] options). 
    exists (mkIPSetObj (obj_heap s.1 ++ [new]) (<[setName := length (obj_heap s.1)]> (obj_Sets s.1)) (obj_isIpv6 s.1)), (length (obj_heap s.1)).
    split_and!; [|by apply grows_bind| | |].
    + rewrite (bind_Ret _ _ _ _ _ (new_set_run _ _)). by rewrite put_Sets_run.
    + intros q st Hq. cbn. by apply lookup_app_l_Some.
    + intros n Hn. cbn. by rewrite lookup_insert_ne.
    + split; [cbn; by rewrite lookup_insert_eq|]. exists new. cbn. by rewrite lookup_app_r, Nat.sub_diag by lia.
Qed.

(** The command that creates a set on the system. *)
Lemma create_run o p set options k :
  obj_heap o !! p = Some set →
  ∃ out k',
    (n ← name p;
     wrap (Wrapf "failed to create ipset set on system: %s" [])
       (if obj_isIpv6 o then run (["create"; "-exist"; n] ++ options ++ ["family"; "inet6"])
        else run (["create"; "-exist"; set_Name set] ++ options));;
     mret tt) (o, k) = (out, (o, k')) ∧
    match out with
    | Ret _ => view k' = ensure (sys_name o (set_Name set)) (sys_options o options) (view k)
    | Fail _ => view k' = view k
    | _ => False
    end.
Proof.
  intros Hset. rewrite (bind_Ret _ _ _ _ _ (name_run p set (o, k) Hset)). cbn [fst]. unfold sys_name, sys_options.
  destruct (obj_isIpv6 o).
  - pose proof (create_law ("inet6:" +:+ set_Name set) (options ++ ["family"; "inet6"]) k) as H.
    unfold wrap, mbind at 1, M_bind. rewrite run_cases. cbn [fst snd].
    destruct (exec_run _ None k) as [[out|e] k']; do 2 eexists; (split; [reflexivity|done]).
  - pose proof (create_law (set_Name set) options k) as H.
    unfold wrap, mbind at 1, M_bind. rewrite run_cases. cbn [fst snd].
    destruct (exec_run _ None k) as [[out|e] k']; do 2 eexists; (split; [reflexivity|done]).
Qed.

Lemma Create_spec setName options s :
  obj_wf s.1 →
  post (Create setName options) s (λ o s', grows s.1 s'.1 ∧
    (∀ q set, obj_heap s.1 !! q = Some set → obj_heap s'.1 !! q = Some set) ∧ (∀ n, n ≠ setName → obj_Sets s'.1 !! n = obj_Sets s.1 !! n) ∧
    match o with
    | Ret p => known_as s'.1 setName p (kept_options s.1 setName options) ∧
               view s'.2 = ensure (sys_name s.1 setName) (sys_options s.1 options) (view s.2)
    | Fail _ => view s'.2 = view s.2
    | _ => False
    end).
Proof.
  intros Hwf. destruct (Create_object setName options s Hwf) as (o & p & E1 & G & Hheap & Hother & Hk).
  unfold post, Create, obj. rewrite bind_gets, (bind_Ret _ _ _ _ _ E1), bind_gets.
  pose proof Hk as (Hp & set & Hset & Hn & _). cbn [fst]. rewrite Hp. cbn [deref]. rewrite bind_lift_Ret.
  pose proof (IsActive_spec p set (o, s.2) Hset) as Ha. unfold post in Ha. cbn [fst snd] in Ha.
  rewrite Hn, (grows_sys_name _ _ _ G) in Ha.
  destruct (IsActive p (o, s.2)) as [[b|e| |] [o' k]] eqn:Ea; cbn [fst snd] in Ha; destruct Ha as (-> & Hv & Hb); [| |done..].
  2: { rewrite (bind_Fail _ _ _ _ _ (wrap_Fail _ _ _ _ _ Ea)). done. }
  rewrite (bind_Ret _ _ _ _ _ (wrap_Ret _ _ _ _ _ Ea)). subst b. unfold ensure.
  destruct (view s.2 !! sys_name s.1 setName) as [ks|] eqn:Eks.
  { rewrite bool_decide_eq_true_2 by eauto. by m_run. }
  rewrite bool_decide_eq_false_2 by (by intros [? ?]).
  destruct (create_run o p set options k Hset) as (out & k' & E2 & Hv'). rewrite Hn in E2, Hv'.
  rewrite Hv, (grows_sys_name _ _ _ G) in Hv'. unfold sys_options in *. rewrite (gr_ipv6 _ _ G) in Hv'.
  unfold ensure in Hv'. rewrite Eks in Hv'. destruct out as [[]|e| |]; [| |done..].
  - by rewrite (bind_Ret _ _ _ _ _ E2).
  - by rewrite (bind_Fail _ _ _ _ _ E2).
Qed.

(** Adding entries: all of them, or the first ones. *)
Definition adds (n : string) (entries : list (list string)) (all : bool) (v v' : gmap string (KSet Elem)) : Prop :=
  ∃ ks done rest elems, v !! n = Some ks ∧ entries = done ++ rest ∧ (all = true → rest = []) ∧
    Forall2 (λ e x, element (ks_options ks) e = Some x) done elems ∧
    v' = <[n := mkKSet (ks_options ks) (list_to_set elems ∪ ks_members ks)]> v.

Lemma BatchAdd_spec p set entries s :
  obj_heap s.1 !! p = Some set → word (sys_name s.1 (set_Name set)) → Forall (Forall word) entries →
  is_Some (view s.2 !! sys_name s.1 (set_Name set)) →
  post (BatchAdd p entries) s (λ o s', grows s.1 s'.1 ∧ obj_Sets s'.1 = obj_Sets s.1 ∧ match o with
    | Ret _ => adds (sys_name s.1 (set_Name set)) entries true (view s.2) (view s'.2)
    | Fail _ => adds (sys_name s.1 (set_Name set)) entries false (view s.2) (view s'.2)
    | _ => False
    end).
Proof.
  intros Hset Hw He [ks Hks]. unfold post, BatchAdd. rewrite (bind_Ret _ _ _ _ _ (set_at_run _ _ _ Hset)).
  rewrite (bind_Ret _ _ _ _ _ (store_set_run _ _ _)).
  pose proof (grows_entries s.1 p set (set_Entries set ++ map (mkEntry p) entries) Hset) as G.
  set (o1 := mkIPSetObj _ _ _) in G |- *. destruct (gr_heap _ _ G p set Hset) as (set1 & Hset1 & Hn1 & _).
  rewrite (bind_Ret _ _ _ _ _ (name_run p set1 (o1, s.2) Hset1)). cbn [fst]. rewrite (grows_sys_name _ _ _ G), Hn1.
  rewrite runWithStdin_cases. cbn [fst snd].
  pose proof (restore_law _ entries ks s.2 Hw He Hks) as H.
  destruct (exec_run ["restore"] _ s.2) as [[out|e] k]; cbn [fst snd]; destruct H as (dn & rest & elems & Hd & Hr & Hel & Hv);
    (split_and!; [exact G|done|]); exists ks, dn, rest, elems; split_and!; eauto; discriminate.
Qed.

(** The temporary set before the members are added. *)
Definition start (n : string) (options : list string) (v : gmap string (KSet Elem)) : KSet Elem :=
  default (mkKSet options ∅) (v !! n).

Lemma ensure_start n options v : ensure n options v = <[n := start n options v]> v.
Proof. unfold ensure, start. destruct (v !! n) as [ks|] eqn:E; [by rewrite insert_id|done]. Qed.

(** The set with the entries. *)
Definition refreshed (entries : list (list string)) (t x : KSet Elem) : Prop :=
  ∃ elems, Forall2 (λ e y, element (ks_options t) e = Some y) entries elems ∧
    x = mkKSet (ks_options t) (list_to_set elems ∪ ks_members t).

Lemma adds_none n b v v' : adds n [] b v v' → v' = v.
Proof.
  intros (ks & dn & rest & elems & Hks & Hd & _ & Hel & ->). symmetry in Hd. apply app_eq_nil in Hd as [-> ->]. inversion Hel; subst.
  apply insert_id. rewrite Hks. f_equal. destruct ks as [o m]. cbn. f_equal. set_solver.
Qed.

Lemma adds_all n entries t v v' : adds n entries true (<[n := t]> v) v' → ∃ x, refreshed entries t x ∧ v' = <[n := x]> v.
Proof.
  intros (ks & dn & rest & elems & Hks & -> & Hr & Hel & ->). rewrite lookup_insert_eq in Hks. injection Hks as <-.
  rewrite (Hr eq_refl), app_nil_r. eexists. split; [by exists elems|]. by rewrite insert_insert_eq.
Qed.

Lemma adds_other n entries b v v' m : adds n entries b v v' → m ≠ n → v' !! m = v !! m.
Proof. intros (ks & dn & rest & elems & _ & _ & _ & _ & ->) Hm. by rewrite lookup_insert_ne. Qed.

(** A set that is only an object is put on the system without entries. *)
Lemma Add_spec r n options s :
  obj_wf s.1 → obj_heap s.1 !! r = Some (mkSet n [] options) → word (sys_name s.1 n) →
  post (IPSet_Add r) s (λ o s', grows s.1 s'.1 ∧ (∀ m, m ≠ n → obj_Sets s'.1 !! m = obj_Sets s.1 !! m) ∧ match o with
    | Ret _ => (∃ q o', known_as s'.1 n q o') ∧ view s'.2 = ensure (sys_name s.1 n) (sys_options s.1 options) (view s.2)
    | Fail _ => ∀ m, m ≠ sys_name s.1 n → view s'.2 !! m = view s.2 !! m
    | _ => False
    end).
Proof.
  intros Hwf Hr Hw. unfold post, IPSet_Add. rewrite (bind_Ret _ _ _ _ _ (set_at_run _ _ _ Hr)). cbn [set_Name set_Options].
  pose proof (Create_spec n options s Hwf) as Hc. unfold post in Hc.
  destruct (Create n options s) as [[q|e| |] s1] eqn:Ec; cbn [fst snd] in Hc; destruct Hc as (G & Hheap & Hother & Hc); [| |done..].
  2: { rewrite (bind_Fail _ _ _ _ _ Ec). cbn [fst snd]. split_and!; [done|done|]. intros m _. by rewrite Hc. }
  rewrite (bind_Ret _ _ _ _ _ Ec). destruct Hc as [(Hq & set & Hset & Hn & Ho) Hv].
  rewrite (bind_Ret _ _ _ _ _ (set_at_run _ _ _ (Hheap _ _ Hr))). cbn [set_Name set_Entries map].
  unfold obj. rewrite bind_gets. cbn [fst]. unfold IPSet_Get. rewrite Hq. cbn [deref]. rewrite bind_lift_Ret.
  assert (is_Some (view s1.2 !! sys_name s1.1 (set_Name set))) as Hex.
  { rewrite Hn, (grows_sys_name _ _ _ G), Hv, ensure_start, lookup_insert_eq. eauto. }
  pose proof (BatchAdd_spec q set [] s1 Hset ltac:(by rewrite Hn, (grows_sys_name _ _ _ G)) ltac:(constructor) Hex) as Hb.
  unfold post in Hb. destruct Hb as (G' & HS & Hb). set (res := BatchAdd q [] s1) in *.
  split_and!; [by eapply grows_trans|intros m Hm; rewrite HS; by apply Hother|].
  destruct (gr_heap _ _ G' q set Hset) as (set' & Hset' & Hn' & Ho').
  destruct res.1 as [[]|e| |]; [| |done..]; apply adds_none in Hb.
  - split; [|by rewrite Hb]. exists q, (set_Options set'). split; [by rewrite HS|]. exists set'. split_and!; [done|congruence|done].
  - intros m Hm. rewrite Hb, Hv, ensure_start. by rewrite lookup_insert_ne.
Qed.

(** A command of two sets. *)
Lemma Swap_spec p q sp sq s :
  obj_heap s.1 !! p = Some sp → obj_heap s.1 !! q = Some sq →
  post (Swap p q) s (λ o s', s'.1 = s.1 ∧ match o with
    | Ret _ => ∃ a b, view s.2 !! sys_name s.1 (set_Name sp) = Some a ∧ view s.2 !! sys_name s.1 (set_Name sq) = Some b ∧
                 view s'.2 = <[sys_name s.1 (set_Name sp) := b]> (<[sys_name s.1 (set_Name sq) := a]> (view s.2))
    | Fail _ => view s'.2 = view s.2
    | _ => False
    end).
Proof.
  intros Hp Hq. unfold post, Swap. rewrite (bind_Ret _ _ _ _ _ (name_run _ _ _ Hp)), (bind_Ret _ _ _ _ _ (name_run _ _ _ Hq)).
  unfold mbind, M_bind. rewrite run_cases.
  pose proof (swap_law (sys_name s.1 (set_Name sp)) (sys_name s.1 (set_Name sq)) s.2) as H.
  by destruct (exec_run _ None s.2) as [[out|e] k].
Qed.

Lemma IPSet_Destroy_spec n p options s :
  known_as s.1 n p options →
  post (IPSet_Destroy n) s (λ o s', grows s.1 s'.1 ∧ (∀ m, m ≠ n → obj_Sets s'.1 !! m = obj_Sets s.1 !! m) ∧ match o with
    | Ret _ => view s'.2 = delete (sys_name s.1 n) (view s.2)
    | Fail _ => view s'.2 = view s.2
    | _ => False
    end).
Proof.
  intros (Hp & set & Hset & Hn & _). unfold post, IPSet_Destroy, obj. rewrite bind_gets. unfold IPSet_Get. rewrite Hp.
  unfold Set_Destroy. rewrite (bind_Ret _ _ _ _ _ (name_run _ _ _ Hset)), Hn.
  pose proof (destroy_law (sys_name s.1 n) s.2) as H. pose proof (run_cases ["destroy"; sys_name s.1 n] s) as E.
  destruct (exec_run ["destroy"; sys_name s.1 n] None s.2) as [[out|e] k].
  - rewrite (bind_Ret _ _ _ _ _ E), (bind_Ret _ _ _ _ _ (set_at_run p set (s.1, k) Hset)), put_Sets_run. cbn [fst snd]. rewrite Hn.
    split_and!; [apply grows_delete| |done]. intros m Hm. cbn. by rewrite lookup_delete_ne.
  - rewrite (bind_Fail _ _ _ _ _ E). split_and!; [apply grows_refl|done|done].
Qed.

(** What a refresh leaves of the sets [x] and [t] on the system. *)
Definition refresh_post (X T : string) (options : list string) (entries : list (list string))
    (v : gmap string (KSet Elem)) (o : outcome unit) (v' : gmap string (KSet Elem)) : Prop :=
  let t := start T options v in
  match o with
  | Ret _ => is_Some (v !! X) ∧ ∃ x, refreshed entries t x ∧ v' = delete T (<[X := x]> v)
  | Fail _ => (∀ n, n ≠ X → n ≠ T → v' !! n = v !! n) ∧
              (v' !! X = v !! X ∨ ∃ x, refreshed entries t x ∧ v' !! X = Some x)
  | _ => False
  end.

Lemma refresh_failed X T options entries v v' e :
  (∀ n, n ≠ T → v' !! n = v !! n) → X ≠ T → refresh_post X T options entries v (Fail e) v'.
Proof. intros H Hne. split; [intros n _; apply H|left; by apply H]. Qed.

Lemma dash_ne n : n ≠ n +:+ "-".
Proof. induction n as [|c n IH]; [done|]. rewrite sapp_cons. intros H. by injection H as H. Qed.

Lemma dash_word o n : word (sys_name o n) → word (sys_name o (n +:+ "-")).
Proof.
  unfold sys_name, word. intros [H1 H2]. assert (nobyte " " "-" ∧ nobyte "010" "-") as [D1 D2] by done.
  destruct (obj_isIpv6 o); [rewrite <-sapp_assoc|]; split; by apply nobyte_app.
Qed.

Lemma IPSet_Refresh_spec p set entries s :
  let n := set_Name set in
  obj_wf s.1 → obj_heap s.1 !! p = Some set → word (sys_name s.1 n) → Forall (Forall word) entries →
  post (RefreshWithBuiltinOptions p entries) s (λ o s', grows s.1 s'.1 ∧
    (∀ m, m ≠ n +:+ "-" → obj_Sets s'.1 !! m = obj_Sets s.1 !! m) ∧
    refresh_post (sys_name s.1 n) (sys_name s.1 (n +:+ "-")) (sys_options s.1 (set_Options set)) entries (view s.2) o (view s'.2)).
Proof.
  intros n Hwf Hset Hw He. unfold post, RefreshWithBuiltinOptions. rewrite (bind_Ret _ _ _ _ _ (set_at_run _ _ _ Hset)). fold n.
  set (T := n +:+ "-"). rewrite (bind_Ret _ _ _ _ _ (new_set_run _ _)).
  set (o1 := mkIPSetObj _ _ _). set (r := length (obj_heap s.1)). set (new := mkSet T [] (set_Options set)) in o1.
  pose proof (grows_new s.1 new) as G0. fold o1 in G0.
  pose proof (dash_ne n : n ≠ T) as HnT. pose proof (dash_word s.1 n Hw : word (sys_name s.1 T)) as HwT.
  assert (obj_heap o1 !! r = Some new) as Hr by (cbn; by rewrite lookup_app_r, Nat.sub_diag by (subst r; lia)).
  pose proof (Add_spec r T (set_Options set) (o1, s.2) (gr_wf _ _ G0 Hwf) Hr HwT) as Ha. unfold post in Ha.
  destruct (IPSet_Add r (o1, s.2)) as [[[]|e| |] s2] eqn:Ea; cbn [fst snd] in Ha; destruct Ha as (G1 & HS1 & Ha); [| |done..].
  2: { rewrite (bind_Fail _ _ _ _ _ Ea). cbn [fst snd]. split_and!; [by eapply grows_trans|done|]. apply refresh_failed; [done|].
       intros E. by apply sys_name_inj in E. }
  rewrite (bind_Ret _ _ _ _ _ Ea). destruct Ha as [(q & o' & Hq) Hv].
  pose proof (grows_trans _ _ _ G0 G1) as G2.
  assert (sys_name s.1 n ≠ sys_name s.1 T) as Hnn by (intros E; by apply sys_name_inj in E).
  assert (sys_name o1 T = sys_name s.1 T ∧ sys_options o1 (set_Options set) = sys_options s.1 (set_Options set)) as [En Eo] by done.
  rewrite En, Eo, ensure_start in Hv. set (t := start _ _ _) in Hv. pose proof (grows_sys_name _ _ T G2) as En2.
  destruct (gr_heap _ _ G1 r new Hr) as (new2 & Hr2 & Nr2 & _). cbn [set_Name new] in Nr2.
  destruct (gr_heap _ _ G2 p set Hset) as (set2 & Hp2 & Np2 & _). fold n in Np2.
  assert (is_Some (view s2.2 !! sys_name s2.1 (set_Name new2))) as Hex by (rewrite Nr2, En2, Hv, lookup_insert_eq; eauto).
  pose proof (BatchAdd_spec r new2 entries s2 Hr2 ltac:(by rewrite Nr2, En2) He Hex) as Hb. unfold post in Hb. rewrite Nr2, En2 in Hb.
  destruct (BatchAdd r entries s2) as [[[]|e| |] s3] eqn:Eb; cbn [fst snd] in Hb; destruct Hb as (G3 & HS3 & Hb); [| |done..].
  2: { rewrite (bind_Fail _ _ _ _ _ Eb). cbn [fst snd]. split_and!; [by eapply grows_trans|intros m Hm; rewrite HS3; by apply HS1|].
       apply refresh_failed; [|done]. intros m Hm. rewrite (adds_other _ _ _ _ _ _ Hb) by done. rewrite Hv. by rewrite lookup_insert_ne. }
  rewrite (bind_Ret _ _ _ _ _ Eb). rewrite Hv in Hb. apply adds_all in Hb as (x & Hx & Hv3).
  pose proof (grows_trans _ _ _ G2 G3) as G4.
  destruct (gr_heap _ _ G3 r new2 Hr2) as (new3 & Hr3 & Nr3 & _). destruct (gr_heap _ _ G3 p set2 Hp2) as (set3 & Hp3 & Np3 & _).
  pose proof (Swap_spec p r set3 new3 s3 Hp3 Hr3) as Hs. unfold post in Hs.
  rewrite Np3, Np2, Nr3, Nr2, (grows_sys_name _ _ n G4), (grows_sys_name _ _ T G4), Hv3 in Hs.
  destruct (Swap p r s3) as [[[]|e| |] s4] eqn:Es; cbn [fst snd] in Hs; destruct Hs as (E4 & Hs); [| |done..].
  2: { rewrite (bind_Fail _ _ _ _ _ Es). cbn [fst snd]. rewrite E4. split_and!; [done|intros m Hm; rewrite HS3; by apply HS1|].
       apply refresh_failed; [|done]. intros m Hm. rewrite Hs. by rewrite lookup_insert_ne. }
  rewrite (bind_Ret _ _ _ _ _ Es). destruct Hs as (ks & b & Hks & Hb & Hv4). rewrite lookup_insert_eq in Hb. injection Hb as <-.
  rewrite lookup_insert_ne in Hks by done. rewrite insert_insert_eq in Hv4.
  assert (known_as s4.1 T q (match obj_heap s4.1 !! q with Some st => set_Options st | None => [] end)) as Hq4.
  { destruct Hq as (Hq & st & Hst & Nst & _). rewrite E4. destruct (gr_heap _ _ G3 q st Hst) as (st' & Hst' & Nst' & _).
    split; [by rewrite HS3|]. exists st'. rewrite Hst'. split; [done|]. by rewrite Nst'. }
  pose proof (IPSet_Destroy_spec T q _ s4 Hq4) as Hd. unfold post in Hd. rewrite E4, (grows_sys_name _ _ T G4) in Hd.
  destruct Hd as (G5 & HS5 & Hd). split_and!; [by eapply grows_trans|intros m Hm; rewrite HS5 by done; rewrite HS3; by apply HS1|].
  unfold refresh_post. fold t. destruct (IPSet_Destroy T s4).1 as [[]|e| |]; [| |done..].
  - split; [eauto|]. exists x. split; [done|]. rewrite Hd, Hv4. rewrite !(delete_insert_ne _ (sys_name s.1 T) (sys_name s.1 n)) by congruence.
    by rewrite delete_insert_eq.
  - split; [|right; exists x; split; [done|]; rewrite Hd, Hv4; by rewrite lookup_insert_eq].
    intros m Hm1 Hm2. rewrite Hd, Hv4. by rewrite !lookup_insert_ne.
Qed.
End properties.
