(* ===== verification/IPTables.v ===== *)
(** * iptables (pkg/daemon/iptables)

    A manager records the subnets and addresses that the rules are about and
    [SyncRules] puts them on the system: five ipsets, the chains with the base
    rules that lead to them, and the rules of the chains as a text for
    iptables-restore.  The manager is the state of the monad together with
    the state [K] of the system; what iptables does is the class
    [IPTablesExec] (k8s.io/kubernetes/pkg/util/iptables). *)

From Stdlib Require Import Ascii.
From S2P Require Import Prelude GoNet GoStrings NetText Utils IPSet.

Definition TableNAT : string := "nat".
Definition TableFilter : string := "filter".
Definition TableMangle : string := "mangle".

Definition ChainPostRouting : string := "POSTROUTING".
Definition ChainPreRouting : string := "PREROUTING".
Definition ChainForward : string := "FORWARD".

Definition ChainHybridnetPostRouting : string := "HYBRIDNET-POSTROUTING".
Definition ChainHybridnetForward : string := "HYBRIDNET-FORWARD".
Definition ChainHybridnetPreRouting : string := "HYBRIDNET-PREROUTING".

Definition ChainRamaPostRouting : string := "RAMA-POSTROUTING".
Definition ChainRamaForward : string := "RAMA-FORWARD".
Definition ChainRamaPreRouting : string := "RAMA-PREROUTING".

Definition HybridnetOverlayNetSetName : string := "HYBRIDNET-OVERLAY-NET".
Definition HybridnetAllIPSetName : string := "HYBRIDNET-ALL".
Definition HybridnetNodeIPSetName : string := "HYBRIDNET-NODE-IP".
Definition HybridnetLocalPodIPSetName : string := "HYBRIDNET-LOCAL-POD-IP".
Definition HybridnetLocalBGPNetSetName : string := "HYBRIDNET-LOCAL-BGP-NET".

Definition PodToNodeBackTrafficMarkString : string := "0x20".
Definition ContainerHostLinkPrefix : string := "hybr".

(** A byte; the other values are not constants of the package. *)
Inductive Protocol := ProtocolIpv4 | ProtocolIpv6 | Protocol_other (b : Z).

#[export] Instance Protocol_eq_dec : EqDecision Protocol.
Proof. solve_decision. Defined.

(** The executor of a protocol, and whether the helper of go-iptables for the
    protocol can be made (nothing else is asked of the helper). *)
Class IPTablesExec (K : Type) : Type := {
  NewWithProtocol : Protocol → outcome unit;
  MakeChainLine : string → string;
  EnsureChain : Protocol → string → string → M K bool;
  EnsureRule : Protocol → string → string → list string → M K bool;
  DeleteRule : Protocol → string → string → list string → M K unit;
  FlushChain : Protocol → string → string → M K unit;
  DeleteChain : Protocol → string → string → M K unit;
  RestoreAll : Protocol → string → M K unit
}.

(** [mgr_c]: the number of messages in the channel that is the lock. *)
Record Manager := mkManager {
  localClusterOverlaySubnets : list IPNet;
  localClusterUnderlaySubnets : list IPNet;
  localBGPSubnets : list IPNet;
  nodeIPList : list netIP;
  localPodIPList : list netIP;
  overlayIfName : string;
  bgpIfName : string;
  protocol : Protocol;
  mgr_c : nat;
  upgradeWorkDone : bool;
  remoteClusterOverlaySubnets : list IPNet;
  remoteClusterUnderlaySubnets : list IPNet;
  remoteNodeIPList : list netIP
}.

Definition CreateIPtablesManager {K} `{IPTablesExec K} (protocol : Protocol) : outcome Manager :=
  match protocol with
  | Protocol_other b => Fail (Errorf "iptables version %v not supported" [ubtoa b])
  | _ =>
      wrap_outcome (Wrapf "create iptables manager error: %v" []) (NewWithProtocol protocol);;
      Ret (mkManager [] [] [] [] [] "" "" protocol 0 false [] [] [])
  end.

Definition Reset (m : Manager) : Manager :=
  mkManager [] [] [] [] [] "" (bgpIfName m) (protocol m) (mgr_c m) (upgradeWorkDone m) [] [] [].

Definition RecordNodeIP (nodeIP : netIP) (m : Manager) : Manager :=
  mkManager (localClusterOverlaySubnets m) (localClusterUnderlaySubnets m) (localBGPSubnets m)
    (nodeIPList m ++ [nodeIP]) (localPodIPList m) (overlayIfName m) (bgpIfName m) (protocol m) (mgr_c m)
    (upgradeWorkDone m) (remoteClusterOverlaySubnets m) (remoteClusterUnderlaySubnets m) (remoteNodeIPList m).

Definition RecordLocalPodIP (podIP : netIP) (m : Manager) : Manager :=
  mkManager (localClusterOverlaySubnets m) (localClusterUnderlaySubnets m) (localBGPSubnets m)
    (nodeIPList m) (localPodIPList m ++ [podIP]) (overlayIfName m) (bgpIfName m) (protocol m) (mgr_c m)
    (upgradeWorkDone m) (remoteClusterOverlaySubnets m) (remoteClusterUnderlaySubnets m) (remoteNodeIPList m).

Definition RecordSubnet (subnetCidr : IPNet) (isOverlay isLocalBGP : bool) (m : Manager) : Manager :=
  mkManager
    (if isOverlay then localClusterOverlaySubnets m ++ [subnetCidr] else localClusterOverlaySubnets m)
    (if isOverlay then localClusterUnderlaySubnets m else localClusterUnderlaySubnets m ++ [subnetCidr])
    (if isOverlay then localBGPSubnets m else if isLocalBGP then localBGPSubnets m ++ [subnetCidr] else localBGPSubnets m)
    (nodeIPList m) (localPodIPList m) (overlayIfName m) (bgpIfName m) (protocol m) (mgr_c m)
    (upgradeWorkDone m) (remoteClusterOverlaySubnets m) (remoteClusterUnderlaySubnets m) (remoteNodeIPList m).

Definition RecordRemoteNodeIP (nodeIP : netIP) (m : Manager) : Manager :=
  mkManager (localClusterOverlaySubnets m) (localClusterUnderlaySubnets m) (localBGPSubnets m)
    (nodeIPList m) (localPodIPList m) (overlayIfName m) (bgpIfName m) (protocol m) (mgr_c m)
    (upgradeWorkDone m) (remoteClusterOverlaySubnets m) (remoteClusterUnderlaySubnets m) (remoteNodeIPList m ++ [nodeIP]).

Definition RecordRemoteSubnet (subnetCidr : IPNet) (isOverlay : bool) (m : Manager) : Manager :=
  mkManager (localClusterOverlaySubnets m) (localClusterUnderlaySubnets m) (localBGPSubnets m)
    (nodeIPList m) (localPodIPList m) (overlayIfName m) (bgpIfName m) (protocol m) (mgr_c m) (upgradeWorkDone m)
    (if isOverlay then remoteClusterOverlaySubnets m ++ [subnetCidr] else remoteClusterOverlaySubnets m)
    (if isOverlay then remoteClusterUnderlaySubnets m else remoteClusterUnderlaySubnets m ++ [subnetCidr])
    (remoteNodeIPList m).

Definition SetOverlayIfName (name : string) (m : Manager) : Manager :=
  mkManager (localClusterOverlaySubnets m) (localClusterUnderlaySubnets m) (localBGPSubnets m)
    (nodeIPList m) (localPodIPList m) name (bgpIfName m) (protocol m) (mgr_c m)
    (upgradeWorkDone m) (remoteClusterOverlaySubnets m) (remoteClusterUnderlaySubnets m) (remoteNodeIPList m).

Definition SetBgpIfName (name : string) (m : Manager) : Manager :=
  mkManager (localClusterOverlaySubnets m) (localClusterUnderlaySubnets m) (localBGPSubnets m)
    (nodeIPList m) (localPodIPList m) (overlayIfName m) name (protocol m) (mgr_c m)
    (upgradeWorkDone m) (remoteClusterOverlaySubnets m) (remoteClusterUnderlaySubnets m) (remoteNodeIPList m).

(** ** Texts *)

Fixpoint writeLine (buf : string) (words : list string) : string :=
  match words with
  | [] => buf
  | [w] => buf +:+ w +:+ line_feed
  | w :: words => writeLine (buf +:+ w +:+ " ") words
  end.

Definition generateStringsFromIPNets (ipNets : list IPNet) : list string := map IPNet_String ipNets.
Definition generateStringsFromIPs (ips : list netIP) : list string := map IP_String ips.

Definition quoted (s : string) : string := String "034" (s +:+ String "034" "").

Definition generateHybridnetPostRoutingBaseRuleSpec : list string :=
  ["-m"; "comment"; "--comment"; "hybridnet postrouting rules"; "-j"; ChainHybridnetPostRouting].
Definition generateHybridnetForwardBaseRuleSpec : list string :=
  ["-m"; "comment"; "--comment"; "hybridnet forward rules"; "-j"; ChainHybridnetForward].
Definition generateHybridnetPreRoutingBaseRuleSpec : list string :=
  ["-m"; "comment"; "--comment"; "hybridnet prerouting rules"; "-j"; ChainHybridnetPreRouting].

Definition generateMasqueradeRuleSpec (vxlanIf overlayNetSet : string) : list string :=
  ["-A"; ChainHybridnetPostRouting; "-m"; "comment"; "--comment"; quoted "hybridnet overlay nat-outgoing masquerade rule";
   "!"; "-o"; vxlanIf; "-m"; "set"; "--match-set"; overlayNetSet; "src"; "-j"; "MASQUERADE"].

Definition generateSkipMasqueradeRuleSpec : list string :=
  ["-A"; ChainHybridnetPostRouting; "-m"; "comment"; "--comment"; quoted "skip masquerade if traffic is to local pod";
   "-o"; ContainerHostLinkPrefix +:+ "+"; "-j"; "RETURN"].

Definition generateOldSkipMasqueradeRuleSpec : list string :=
  ["-A"; ChainHybridnetPostRouting; "-m"; "comment"; "--comment"; quoted "skip masquerade if traffic is to exist old local pod";
   "-o"; "h_+"; "-j"; "RETURN"].

Definition rejectWithOption (p : Protocol) : string :=
  if decide (p = ProtocolIpv4) then "icmp-host-unreachable" else "icmp6-addr-unreachable".

Definition generateVxlanFilterRuleSpec (vxlanIf allIPSet : string) (p : Protocol) : list string :=
  ["-A"; ChainHybridnetForward; "-m"; "comment"; "--comment"; quoted "hybridnet overlay vxlan if egress filter rule";
   "-o"; vxlanIf; "-m"; "set"; "!"; "--match-set"; allIPSet; "dst"; "-j"; "REJECT"; "--reject-with"; rejectWithOption p].

Definition generateVxlanPodToNodeReplyMarkRuleSpec (overlayNetSet nodeIPSet : string) : list string :=
  ["-A"; ChainHybridnetPreRouting; "-m"; "comment"; "--comment"; quoted "mark overlay pod -> node back traffic";
   "-m"; "addrtype"; "!"; "--dst-type"; "LOCAL";
   "-m"; "set"; "--match-set"; overlayNetSet; "src";
   "-m"; "set"; "--match-set"; nodeIPSet; "dst";
   "-m"; "conntrack"; "!"; "--ctstate"; "NEW,INVALID,DNAT,SNAT";
   "-j"; "MARK"; "--set-xmark"; PodToNodeBackTrafficMarkString +:+ "/" +:+ PodToNodeBackTrafficMarkString].

Definition generateVxlanPodToNodeReplyRemoveMarkRuleSpec (overlayNetSet nodeIPSet : string) : list string :=
  ["-A"; ChainHybridnetPostRouting; "-m"; "comment"; "--comment"; quoted "remove overlay pod -> node back traffic mark";
   "-m"; "addrtype"; "!"; "--dst-type"; "LOCAL";
   "-m"; "set"; "--match-set"; overlayNetSet; "src";
   "-m"; "set"; "--match-set"; nodeIPSet; "dst";
   "-m"; "conntrack"; "!"; "--ctstate"; "NEW,INVALID,DNAT,SNAT";
   "-j"; "MARK"; "--set-xmark"; "0x0/" +:+ PodToNodeBackTrafficMarkString].

Definition generateBGPEndLoopRuleSpec (bgpIf localPodIPSet localBGPNetSet : string) : list string :=
  ["-A"; ChainHybridnetForward; "-m"; "comment"; "--comment"; quoted "drop endless bgp traffic because of route loop";
   "-i"; bgpIf;
   "-m"; "set"; "!"; "--match-set"; localPodIPSet; "dst";
   "-m"; "set"; "--match-set"; localBGPNetSet; "dst";
   "-j"; "DROP"].

Definition generateRamaPostRoutingBaseRuleSpec : list string :=
  ["-m"; "comment"; "--comment"; "rama postrouting rules"; "-j"; ChainRamaPostRouting].
Definition generateRamaForwardBaseRuleSpec : list string :=
  ["-m"; "comment"; "--comment"; "rama forward rules"; "-j"; ChainRamaForward].
Definition generateRamaPreRoutingBaseRuleSpec : list string :=
  ["-m"; "comment"; "--comment"; "rama prerouting rules"; "-j"; ChainRamaPreRouting].

(** ** Operations on the system *)

Section iptables.
Context {K : Type} `{IPSetCmd K} `{IPTablesExec K}.

(** The channel has room for one message; a second sender waits forever. *)
Definition locked {A} (m : M (Manager * K) A) : M (Manager * K) A := λ s,
  let set_c n (s : Manager * K) := (mkManager (localClusterOverlaySubnets s.1) (localClusterUnderlaySubnets s.1)
    (localBGPSubnets s.1) (nodeIPList s.1) (localPodIPList s.1) (overlayIfName s.1) (bgpIfName s.1) (protocol s.1) n
    (upgradeWorkDone s.1) (remoteClusterOverlaySubnets s.1) (remoteClusterUnderlaySubnets s.1) (remoteNodeIPList s.1), s.2) in
  match mgr_c s.1 with
  | O => let '(o, s) := m (set_c 1 s) in (o, set_c 0 s)
  | S _ => (Diverge, s)
  end.

Definition createAndRefreshIPSet (setName : string) (members createOptions : list string) : M (IPSetObj * K) nat :=
  set ← wrap (Wrapf "failed to create ip set: %v" []) (Create setName createOptions);
  wrap (Wrapf "failed to refresh ip set: %v" []) (Refresh set members []);;
  mret set.

Definition ensureBasicRuleAndChains (p : Protocol) : M K unit :=
  let chain_error c t := Wrapf "failed to ensule %v chain in %v table: %v" [c; t] in
  let rule_error c t := Wrapf "failed to ensure %v rule in %v table: %v" [c; t] in
  wrap (chain_error ChainHybridnetPostRouting TableNAT) (EnsureChain p TableNAT ChainHybridnetPostRouting);;
  wrap (rule_error ChainHybridnetPostRouting TableNAT) (EnsureRule p TableNAT ChainPostRouting generateHybridnetPostRoutingBaseRuleSpec);;
  wrap (chain_error ChainHybridnetForward TableFilter) (EnsureChain p TableFilter ChainHybridnetForward);;
  wrap (rule_error ChainHybridnetForward TableFilter) (EnsureRule p TableFilter ChainForward generateHybridnetForwardBaseRuleSpec);;
  wrap (chain_error ChainHybridnetPreRouting TableMangle) (EnsureChain p TableMangle ChainHybridnetPreRouting);;
  wrap (rule_error ChainHybridnetPreRouting TableMangle) (EnsureRule p TableMangle ChainPreRouting generateHybridnetPreRoutingBaseRuleSpec);;
  wrap (chain_error ChainHybridnetPostRouting TableMangle) (EnsureChain p TableMangle ChainHybridnetPostRouting);;
  wrap (rule_error ChainHybridnetPostRouting TableMangle) (EnsureRule p TableMangle ChainPostRouting generateHybridnetPostRoutingBaseRuleSpec);;
  mret tt.

Definition ensureCleanBasicRuleAndChain (p : Protocol) (table chain higherChain : string) (args : list string) : M K unit :=
  wrap (Wrapf "failed to ensule %v chain in %v table: %v" [chain; table]) (EnsureChain p table chain);;
  wrap (Wrapf "failed to delete %v rule in %v table: %v" [chain; table]) (DeleteRule p table higherChain args);;
  wrap (Wrapf "failed to flush %v chain in %v table: %v" [chain; table]) (FlushChain p table chain);;
  wrap (Wrapf "failed to delete %v chain in %v table: %v" [chain; table]) (DeleteChain p table chain).

Definition cleanDeprecatedBasicRuleAndChains (p : Protocol) : M K unit :=
  let clean_error c t := Wrapf "failed to ensule %v chain and rules deleted in %v table: %v" [c; t] in
  wrap (clean_error ChainRamaPostRouting TableNAT)
    (ensureCleanBasicRuleAndChain p TableNAT ChainRamaPostRouting ChainPostRouting generateRamaPostRoutingBaseRuleSpec);;
  wrap (clean_error ChainRamaForward TableFilter)
    (ensureCleanBasicRuleAndChain p TableFilter ChainRamaForward ChainForward generateRamaForwardBaseRuleSpec);;
  wrap (clean_error ChainRamaPreRouting TableMangle)
    (ensureCleanBasicRuleAndChain p TableMangle ChainRamaPreRouting ChainPreRouting generateRamaPreRoutingBaseRuleSpec);;
  wrap (clean_error ChainRamaPostRouting TableMangle)
    (ensureCleanBasicRuleAndChain p TableMangle ChainRamaPostRouting ChainPostRouting generateRamaPostRoutingBaseRuleSpec).

(** The names of the five sets on the system. *)
Record SetNames := mkSetNames {
  overlayNetSet : string; allIPSet : string; nodeIPSet : string; localBGPNetSet : string; localPodIPSet : string
}.

(** The part of [SyncRules] that works on the sets; the object is local. *)
Definition sync_sets (mgr : Manager) : M (IPSetObj * K) SetNames :=
  let overlayIPNets := generateStringsFromIPNets (localClusterOverlaySubnets mgr) in
  let nodeIPs := generateStringsFromIPs (nodeIPList mgr) in
  let allIPNets := generateStringsFromIPNets (localClusterUnderlaySubnets mgr) in
  let localBGPIPNets := generateStringsFromIPNets (localBGPSubnets mgr) in
  let localPodIPs := generateStringsFromIPs (localPodIPList mgr) in
  let overlayIPNets := overlayIPNets ++ generateStringsFromIPNets (remoteClusterOverlaySubnets mgr) in
  let allIPNets := allIPNets ++ generateStringsFromIPNets (remoteClusterUnderlaySubnets mgr) in
  let nodeIPs := nodeIPs ++ generateStringsFromIPs (remoteNodeIPList mgr) in
  let allIPNets := allIPNets ++ overlayIPNets in
  let allIPNets := allIPNets ++ nodeIPs in
  let set_error n := Wrapf "failed to create and refresh ip set %v: %v" [n] in
  overlayNet ← wrap (set_error HybridnetOverlayNetSetName)
    (createAndRefreshIPSet HybridnetOverlayNetSetName overlayIPNets [TypeHashNet; OptionTimeout; "0"]);
  allIP ← wrap (set_error HybridnetAllIPSetName)
    (createAndRefreshIPSet HybridnetAllIPSetName allIPNets [TypeHashNet; OptionTimeout; "0"]);
  nodeIP ← wrap (set_error HybridnetNodeIPSetName)
    (createAndRefreshIPSet HybridnetNodeIPSetName nodeIPs [TypeHashIP; OptionTimeout; "0"]);
  localBGPNet ← wrap (set_error HybridnetLocalBGPNetSetName)
    (createAndRefreshIPSet HybridnetLocalBGPNetSetName localBGPIPNets [TypeHashNet; OptionTimeout; "0"]);
  localPodIP ← wrap (set_error HybridnetLocalPodIPSetName)
    (createAndRefreshIPSet HybridnetLocalPodIPSetName localPodIPs [TypeHashIP; OptionTimeout; "0"]);
  n1 ← GetNameWithProtocol overlayNet;
  n2 ← GetNameWithProtocol allIP;
  n3 ← GetNameWithProtocol nodeIP;
  n4 ← GetNameWithProtocol localBGPNet;
  n5 ← GetNameWithProtocol localPodIP;
  mret (mkSetNames n1 n2 n3 n4 n5).

(** The part that writes the text. *)
Definition rules_text (mgr : Manager) (n : SetNames) : string :=
  let natChains := writeLine "" ["*nat"] in
  let filterChains := writeLine "" ["*filter"] in
  let mangleChains := writeLine "" ["*mangle"] in
  let natChains := writeLine natChains [MakeChainLine ChainHybridnetPostRouting] in
  let filterChains := writeLine filterChains [MakeChainLine ChainHybridnetForward] in
  let mangleChains := writeLine mangleChains [MakeChainLine ChainHybridnetPreRouting] in
  let mangleChains := writeLine mangleChains [MakeChainLine ChainHybridnetPostRouting] in
  let '(natRules, filterRules, mangleRules) :=
    if decide (overlayIfName mgr = "") then ("", "", "")
    else
      let natRules := writeLine "" generateSkipMasqueradeRuleSpec in
      let natRules := writeLine natRules generateOldSkipMasqueradeRuleSpec in
      let natRules := writeLine natRules (generateMasqueradeRuleSpec (overlayIfName mgr) (overlayNetSet n)) in
      let filterRules := writeLine "" (generateVxlanFilterRuleSpec (overlayIfName mgr) (allIPSet n) (protocol mgr)) in
      let mangleRules := writeLine "" (generateVxlanPodToNodeReplyMarkRuleSpec (overlayNetSet n) (nodeIPSet n)) in
      let mangleRules := writeLine mangleRules (generateVxlanPodToNodeReplyRemoveMarkRuleSpec (overlayNetSet n) (nodeIPSet n)) in
      (natRules, filterRules, mangleRules) in
  let filterRules :=
    if decide (bgpIfName mgr = "") then filterRules
    else writeLine filterRules (generateBGPEndLoopRuleSpec (bgpIfName mgr) (localPodIPSet n) (localBGPNetSet n)) in
  let natRules := writeLine natRules ["COMMIT"] in
  let filterRules := writeLine filterRules ["COMMIT"] in
  let mangleRules := writeLine mangleRules ["COMMIT"] in
  natChains +:+ natRules +:+ filterChains +:+ filterRules +:+ mangleChains +:+ mangleRules.

Definition on_kernel {A} (m : M K A) : M (Manager * K) A := zoom (λ s, Some s.2) (λ k s, (s.1, k)) m.

(** A computation on a local object, which starts as [o]. *)
Definition with_ipset {A} (o : IPSetObj) (m : M (IPSetObj * K) A) : M (Manager * K) A := λ s,
  let '(r, (_, k)) := m (o, s.2) in (r, (s.1, k)).

Definition set_upgradeWorkDone (m : Manager) : Manager :=
  mkManager (localClusterOverlaySubnets m) (localClusterUnderlaySubnets m) (localBGPSubnets m)
    (nodeIPList m) (localPodIPList m) (overlayIfName m) (bgpIfName m) (protocol m) (mgr_c m)
    true (remoteClusterOverlaySubnets m) (remoteClusterUnderlaySubnets m) (remoteNodeIPList m).

Definition SyncRules : M (Manager * K) unit := locked (
  mgr ← gets fst;
  o ← lift (wrap_outcome (Wrapf "failed to create ipset instance: %v" []) (NewIPSet (bool_decide (protocol mgr = ProtocolIpv6))));
  names ← with_ipset o (sync_sets mgr);
  wrap (Wrapf "failed to ensure basic rules and chains: %v" []) (on_kernel (ensureBasicRuleAndChains (protocol mgr)));;
  let iptablesData := rules_text mgr names in
  wrap (Wrapf "failed to execute iptables-restore: %v\n iptables rules are:\n %v" [iptablesData])
    (on_kernel (RestoreAll (protocol mgr) iptablesData));;
  if upgradeWorkDone mgr then mret tt
  else
    wrap (Wrapf "failed to clean deprecated basic rules: %v" []) (on_kernel (cleanDeprecatedBasicRuleAndChains (protocol mgr)));;
    modify (λ s, (set_upgradeWorkDone s.1, s.2))).
End iptables.
