(* ===== verification/IPTablesSync.v ===== *)
(** * A synchronisation puts exactly the recorded addresses in the ipsets *)

From Stdlib Require Import Ascii.
From S2P Require Import Prelude GoNet GoStrings NetText Utils IPSet IPSetProperties IPTables.

Local Open Scope Z_scope.

(** ** The text of an address is one word of a line *)

Definition separator (c : ascii) : Prop := c = " "%char ∨ c = "010"%char.

Lemma hexString_nobyte c l : bytes_ok l → hex_val c = None → nobyte c (hexString l).
Proof.
  intros Hl Hc. induction Hl as [|b l Hb Hl IH]; [done|]. cbn [hexString]. unfold byte_ok in Hb. unfold hex_byte.
  assert (∀ d, 0 ≤ d < 16 → hexdigit_ascii d ≠ c) as Hd by (intros d Hd E; pose proof (hex_val_ascii d Hd); congruence).
  rewrite !sapp_cons, sapp_nil. split; [|split; [|done]]; apply Hd; Z.to_euclidean_division_equations; lia.
Qed.

Lemma separator_plain c : separator c → hex_val c = None ∧ digit_val c = None ∧ c ≠ ":"%char ∧ c ≠ "."%char ∧ c ≠ "/"%char.
Proof. by intros [-> | ->]. Qed.

Lemma IP_String_nobyte c ip : separator c → ip = [] ∨ valid_ip ip → nobyte c (IP_String ip).
Proof.
  intros Hs [->|Hv]; [by destruct Hs as [-> | ->]|]. destruct (separator_plain c Hs) as (Hh & Hd & H1 & H2 & _).
  destruct (decide (To4 ip = [])) as [H4|H4].
  - destruct (IP_String_v6 ip Hv H4) as (_ & Hok & _ & ->). by apply print_v6_nobyte.
  - destruct (IP_String_v4 ip Hv H4) as (a & b & d & e & ? & ? & ? & ? & ->).
    repeat (apply nobyte_app; [by apply ubtoa_nobyte|]; rewrite sapp_cons, sapp_nil; split; [done|]).
    by apply ubtoa_nobyte.
Qed.

Lemma IP_String_word ip : ip = [] ∨ valid_ip ip → word (IP_String ip).
Proof. intros Hv. split; apply IP_String_nobyte; first [by left|by right|done]. Qed.

(** A network with an address and the bytes of a mask. *)
Definition net_ok (n : IPNet) : Prop := valid_ip (IPNet_IP n) ∧ bytes_ok (IPNet_Mask n).

Lemma leading_ones_bound k v : 0 ≤ (leading_ones k v).1 ≤ Z.of_nat k.
Proof.
  revert v. induction k as [|k IH]; intros v; cbn [leading_ones]; [cbn; lia|].
  destruct (Z.testbit v 7); [|cbn; lia]. specialize (IH (Z.land (Z.shiftl v 1) 255)). destruct (leading_ones k _) as [n w]. cbn in *. lia.
Qed.

Lemma simpleMaskLength_bound m : -1 ≤ simpleMaskLength m ≤ 8 * Z.of_nat (length m).
Proof.
  induction m as [|v m IH]; [cbn; lia|]. cbn [simpleMaskLength length]. destruct (v =? 255).
  - destruct (Z.eqb_spec (simpleMaskLength m) (-1)); lia.
  - pose proof (leading_ones_bound 8 v). destruct (leading_ones 8 v) as [n w]. cbn [fst] in *.
    destruct (negb (w =? 0)); [lia|]. destruct (forallb _ m); lia.
Qed.

Lemma network_parts n : net_ok n →
  let '(nn, m) := networkNumberAndMask n in (nn = [] ∨ valid_ip nn) ∧ bytes_ok m ∧ (length m ≤ 16)%nat.
Proof.
  intros [Hv Hm]. unfold networkNumberAndMask.
  assert (bytes_ok []) as Hnil by constructor.
  assert (To4 (IPNet_IP n) ≠ [] → valid_ip (To4 (IPNet_IP n))) as H4.
  { intros Hne. destruct (To4_length _ Hv) as [?|?]; [done|]. split; [by apply To4_bytes|by left]. }
  repeat case_decide; cbn; split_and!; auto; try lia; by apply Forall_drop || (rewrite length_drop; lia).
Qed.

Lemma IPNet_String_nobyte c n : separator c → net_ok n → nobyte c (IPNet_String n).
Proof.
  intros Hs Hn. destruct (separator_plain c Hs) as (Hh & Hd & _ & _ & Hsl).
  pose proof (network_parts n Hn) as H. unfold IPNet_String. destruct (networkNumberAndMask n) as [nn m].
  destruct H as (Hnn & Hm & Hl). case_decide; [by destruct Hs as [-> | ->]|].
  pose proof (IP_String_nobyte c nn Hs Hnn) as Hip. pose proof (simpleMaskLength_bound m) as Hb.
  destruct (Z.eqb_spec (simpleMaskLength m) (-1)); (apply nobyte_app; [done|]; rewrite sapp_cons, sapp_nil; split; [done|]).
  - unfold IPMask_String. case_decide; [by destruct Hs as [-> | ->]|by apply hexString_nobyte].
  - apply ubtoa_nobyte; [unfold byte_ok; lia|done].
Qed.

Lemma IPNet_String_word n : net_ok n → word (IPNet_String n).
Proof. intros Hn. split; apply IPNet_String_nobyte; first [done|by left|by right]. Qed.

(** ** The computations that leave the sets alone *)

Section quiet.
Context {K : Type} {C : IPSetCmd K} {L : IPSetLaws (K := K)}.

(** [restored]: the text that the executor of a protocol restored last. *)
Context (restored : Protocol → K → string).

(** It returns or fails, and the sets and the restored texts are as before. *)
Definition quiet {A} (m : M K A) : Prop :=
  ∀ k, post m k (λ o k', (view k' = view k ∧ ∀ p, restored p k' = restored p k) ∧ match o with Ret _ | Fail _ => True | _ => False end).

Lemma quiet_ret {A} (a : A) : quiet (mret a).
Proof. by intros k. Qed.

Lemma quiet_bind {A B} (m : M K A) (f : A → M K B) : quiet m → (∀ a, quiet (f a)) → quiet (m ≫= f).
Proof.
  intros Hm Hf k. apply post_bind. eapply post_mono; [apply Hm|]. intros [a|e| |] k' [[Hv Hr] Ho]; [|done..].
  eapply post_mono; [apply Hf|]. intros o k'' [[Hv' Hr'] ?]. split; [|done]. split; [congruence|]. intros p. by rewrite Hr'.
Qed.

Lemma quiet_wrap {A} f (m : M K A) : quiet m → quiet (wrap f m).
Proof. intros Hm k. apply post_wrap. eapply post_mono; [apply Hm|]. by intros [] k' []. Qed.
End quiet.

(** What the executor is relied on for: no method panics or touches a set,
    and a restore that returns has restored its text. *)
Class ExecLaws {K} {C : IPSetCmd K} {L : IPSetLaws (K := K)} `{IPTablesExec K} : Type := {
  restored : Protocol → K → string;
  NewWithProtocol_law p : match NewWithProtocol p with Ret _ | Fail _ => True | _ => False end;
  LookPath_law : match LookPath with Ret _ | Fail _ => True | _ => False end;
  EnsureChain_law p t c : quiet restored (EnsureChain p t c);
  EnsureRule_law p t c args : quiet restored (EnsureRule p t c args);
  DeleteRule_law p t c args : quiet restored (DeleteRule p t c args);
  FlushChain_law p t c : quiet restored (FlushChain p t c);
  DeleteChain_law p t c : quiet restored (DeleteChain p t c);
  RestoreAll_law p text k : post (RestoreAll p text) k (λ o k', view k' = view k ∧ match o with
    | Ret _ => restored p k' = text
    | Fail _ => True
    | _ => False
    end)
}.

Create HintDb quiet_db.
#[export] Hint Resolve quiet_ret quiet_bind quiet_wrap EnsureChain_law EnsureRule_law DeleteRule_law
  FlushChain_law DeleteChain_law : quiet_db.

Section exec.
Context {K : Type} {C : IPSetCmd K} {L : IPSetLaws (K := K)}.
Context {X : IPTablesExec K} {XL : ExecLaws}.

Lemma ensureBasic_quiet p : quiet restored (ensureBasicRuleAndChains p).
Proof. unfold ensureBasicRuleAndChains. auto 20 with quiet_db. Qed.

Lemma cleanDeprecated_quiet p : quiet restored (cleanDeprecatedBasicRuleAndChains p).
Proof. unfold cleanDeprecatedBasicRuleAndChains, ensureCleanBasicRuleAndChain. auto 20 with quiet_db. Qed.
End exec.

(** ** The five sets *)

Section sync.
Context {K : Type} {C : IPSetCmd K} {L : IPSetLaws (K := K)}.
Implicit Types (s : IPSetObj * K) (v : gmap string (KSet Elem)).

(** A set to be made: its name, the options of its creation, its members. *)
Abbreviation want := (string * (list string * list string))%type.

Definition suffixed (ipv6 : bool) (n : string) : string := if ipv6 then "inet6:" +:+ n else n.
Definition with_family (ipv6 : bool) (options : list string) : list string := if ipv6 then options ++ ["family"; "inet6"] else options.

(** The names on the system: of the set and of its temporary set. *)
Definition set_at_name (ipv6 : bool) (w : want) : string := suffixed ipv6 w.1.
Definition temp_name (ipv6 : bool) (w : want) : string := suffixed ipv6 (w.1 +:+ "-").
Definition own_names (ipv6 : bool) (wanted : list want) : list string :=
  map (set_at_name ipv6) wanted ++ map (temp_name ipv6) wanted.

(** What is to become the set, before members are added: new and empty, with
    the options, unless an earlier refresh that failed has left a temporary
    set. *)
Definition base (ipv6 : bool) (w : want) (v : gmap string (KSet Elem)) : KSet Elem :=
  start (temp_name ipv6 w) (with_family ipv6 w.2.1) v.

(** The set with exactly the members, and those of the base. *)
Definition holds (members : list string) (b x : KSet Elem) : Prop :=
  ∃ elems, Forall2 (λ m y, element (ks_options b) [m] = Some y) members elems ∧
    x = mkKSet (ks_options b) (list_to_set elems ∪ ks_members b).

(** The sets are as wanted and no temporary set of theirs is left; all others
    are as before. *)
Definition synced (ipv6 : bool) (wanted : list want) (v v' : gmap string (KSet Elem)) : Prop :=
  Forall (λ w : want, ∃ x, holds w.2.2 (base ipv6 w v) x ∧ v' !! set_at_name ipv6 w = Some x ∧ v' !! temp_name ipv6 w = None) wanted ∧
  ∀ n, n ∉ own_names ipv6 wanted → v' !! n = v !! n.

(** Each of the sets is as before, is new and empty, or is as wanted; only
    temporary sets may have been left behind. *)
Definition partly_synced (ipv6 : bool) (wanted : list want) (v v' : gmap string (KSet Elem)) : Prop :=
  Forall (λ w : want, let n := set_at_name ipv6 w in
    v' !! n = v !! n ∨ v !! n = None ∧ v' !! n = Some (mkKSet (with_family ipv6 w.2.1) ∅) ∨
    ∃ x, holds w.2.2 (base ipv6 w v) x ∧ v' !! n = Some x) wanted ∧
  ∀ n, n ∉ own_names ipv6 wanted → v' !! n = v !! n.

(** Without a temporary set the members are exactly the wanted ones. *)
Lemma holds_exactly ipv6 w v x :
  v !! temp_name ipv6 w = None → holds w.2.2 (base ipv6 w v) x →
  ∃ elems, Forall2 (λ m y, element (with_family ipv6 w.2.1) [m] = Some y) w.2.2 elems ∧
    x = mkKSet (with_family ipv6 w.2.1) (list_to_set elems).
Proof.
  unfold base, start. intros ->. cbn. intros (elems & He & ->). exists elems. split; [done|]. f_equal. set_solver.
Qed.

Lemma suffixed_inj ipv6 n m : suffixed ipv6 n = suffixed ipv6 m → n = m.
Proof. unfold suffixed. destruct ipv6; [|done]. intros H. by repeat injection H as H. Qed.

Lemma dash_inj (n m : string) : n +:+ "-" = m +:+ "-" → n = m.
Proof.
  revert m. induction n as [|c n IH]; intros [|d m]; rewrite ?sapp_nil, ?sapp_cons; [done| | |].
  - intros [= _ E]. by destruct m.
  - intros [= _ E]. by destruct n.
  - intros [= -> E]. f_equal. by apply IH.
Qed.

Lemma elem_of_set_names ipv6 (u : want) (wanted : list want) :
  set_at_name ipv6 u ∈ map (set_at_name ipv6) wanted ↔ u.1 ∈ map fst wanted.
Proof.
  rewrite !list_elem_of_fmap. split; intros (w & E & Hw); exists w; (split; [|done]).
  - by apply suffixed_inj in E.
  - unfold set_at_name. by rewrite E.
Qed.

Lemma elem_of_temp_names ipv6 (u : want) (wanted : list want) :
  temp_name ipv6 u ∈ map (temp_name ipv6) wanted ↔ u.1 ∈ map fst wanted.
Proof.
  rewrite !list_elem_of_fmap. split; intros (w & E & Hw); exists w; (split; [|done]).
  - by apply suffixed_inj, dash_inj in E.
  - unfold temp_name. by rewrite E.
Qed.

Lemma synced_nil ipv6 v : synced ipv6 [] v v.
Proof. by split. Qed.

Lemma base_same ipv6 w v v' : v' !! temp_name ipv6 w = v !! temp_name ipv6 w → base ipv6 w v' = base ipv6 w v.
Proof. unfold base, start. by intros ->. Qed.

Context (ipv6 : bool) (v0 : gmap string (KSet Elem)) (wanted : list want).
Context (Hnodup : NoDup (map fst wanted)).
Context (Hdash : ∀ n m, n ∈ map fst wanted → m ∈ map fst wanted → n ≠ m +:+ "-").
Context (Hword : Forall (λ w : want, word (suffixed ipv6 w.1) ∧ Forall word w.2.2) wanted).

Lemma want_unique (u w : want) : u ∈ wanted → w ∈ wanted → u.1 = w.1 → u = w.
Proof.
  intros [i Hi]%list_elem_of_lookup [j Hj]%list_elem_of_lookup E. assert (i = j) as ->; [|congruence].
  apply (NoDup_lookup _ i j u.1 Hnodup); change (map fst wanted) with (fst <$> wanted); rewrite list_lookup_fmap; [by rewrite Hi|by rewrite Hj, E].
Qed.

(** The sets that are done, with their objects. *)
Record progress (ws : list want) (ptrs : list nat) s : Prop := {
  pr_wf : obj_wf s.1;
  pr_v6 : obj_isIpv6 s.1 = ipv6;
  pr_todo n : n ∈ map fst wanted → n ∉ map fst ws → obj_Sets s.1 !! n = None;
  pr_ptrs : Forall2 (λ (w : want) p, ∃ set, obj_heap s.1 !! p = Some set ∧ set_Name set = w.1) ws ptrs;
  pr_view : synced ipv6 ws v0 (view s.2)
}.

Lemma ptrs_grow o o' ws ptrs :
  grows o o' → Forall2 (λ (w : want) p, ∃ set, obj_heap o !! p = Some set ∧ set_Name set = w.1) ws ptrs →
  Forall2 (λ (w : want) p, ∃ set, obj_heap o' !! p = Some set ∧ set_Name set = w.1) ws ptrs.
Proof.
  intros G H. eapply Forall2_impl; [exact H|]. intros w p (set & Hs & Hn). destruct (gr_heap _ _ G p set Hs) as (set' & ? & ? & _).
  exists set'. split; [done|congruence].
Qed.

Lemma want_new ws w rest : wanted = ws ++ w :: rest → w ∈ wanted ∧ w.1 ∉ map fst ws.
Proof.
  intros Ew. split; [rewrite Ew; set_solver|]. pose proof Hnodup as Hnd. rewrite Ew, map_app in Hnd. cbn [map] in Hnd.
  apply NoDup_app in Hnd as (_ & Hd & _). intros Hx. apply (Hd _ Hx). left.
Qed.

Lemma set_ne_temp (u w : want) : u ∈ wanted → w ∈ wanted → set_at_name ipv6 u ≠ temp_name ipv6 w.
Proof. intros Hu Hw E%suffixed_inj. by apply (Hdash u.1 w.1); [apply list_elem_of_fmap_2..|]. Qed.

Lemma set_ne_set ws w rest u : wanted = ws ++ w :: rest → u ∈ ws → set_at_name ipv6 u ≠ set_at_name ipv6 w.
Proof.
  intros Ew Hu E%suffixed_inj. destruct (want_new _ _ _ Ew) as [_ Hn]. apply Hn. rewrite <-E. by apply list_elem_of_fmap_2.
Qed.

(** What is left alone by the sets that are done. *)
Lemma not_own ws w rest : wanted = ws ++ w :: rest → (set_at_name ipv6 w ∉ own_names ipv6 ws) ∧ temp_name ipv6 w ∉ own_names ipv6 ws.
Proof.
  intros Ew. destruct (want_new _ _ _ Ew) as [Hw Hn]. assert (∀ u, u ∈ ws → u ∈ wanted) as Hin by (rewrite Ew; set_solver).
  unfold own_names. rewrite !not_elem_of_app, elem_of_set_names, elem_of_temp_names. split_and!; try done.
  - intros (u & E & Hu)%list_elem_of_fmap. by apply (set_ne_temp w u); auto.
  - intros (u & E & Hu)%list_elem_of_fmap. by apply (set_ne_temp u w); auto.
Qed.

(** One more set. *)
Lemma synced_snoc ws w rest v' x :
  wanted = ws ++ w :: rest → synced ipv6 ws v0 v' → holds w.2.2 (base ipv6 w v0) x →
  synced ipv6 (ws ++ [w]) v0 (delete (temp_name ipv6 w) (<[set_at_name ipv6 w := x]> v')).
Proof.
  intros Ew [Hin Hout] Hx. destruct (want_new _ _ _ Ew) as [Hw _]. assert (∀ u, u ∈ ws → u ∈ wanted) as Hsub by (rewrite Ew; set_solver).
  split.
  - apply Forall_app. split.
    + rewrite Forall_forall in Hin |- *. intros u Hu. destruct (Hin u Hu) as (y & Hy & E & Et). exists y. split; [done|].
      pose proof (set_ne_set _ _ _ _ Ew Hu). pose proof (set_ne_temp u w (Hsub u Hu) Hw). pose proof (set_ne_temp w u Hw (Hsub u Hu)). split.
      * by rewrite lookup_delete_ne, lookup_insert_ne by done.
      * apply lookup_delete_None. right. by rewrite lookup_insert_ne.
    + constructor; [|constructor]. exists x. pose proof (set_ne_temp w w Hw Hw). split; [done|]. split; [|by rewrite lookup_delete_eq].
      by rewrite lookup_delete_ne, lookup_insert_eq by done.
  - intros n. unfold own_names. rewrite !map_app, !not_elem_of_app. cbn. intros [[H1 H2] [H3 H4]].
    rewrite lookup_delete_ne, lookup_insert_ne by set_solver. apply Hout. unfold own_names. by rewrite not_elem_of_app.
Qed.

Lemma partly_synced_step ws w v' v'' rest :
  wanted = ws ++ w :: rest → synced ipv6 ws v0 v' →
  (∀ n, n ≠ set_at_name ipv6 w → n ≠ temp_name ipv6 w → v'' !! n = v' !! n) →
  (let n := set_at_name ipv6 w in
    v'' !! n = v' !! n ∨ v' !! n = None ∧ v'' !! n = Some (mkKSet (with_family ipv6 w.2.1) ∅) ∨
    ∃ x, holds w.2.2 (base ipv6 w v0) x ∧ v'' !! n = Some x) →
  partly_synced ipv6 wanted v0 v''.
Proof.
  intros Ew [Hin Hout] Hother Hw. destruct (want_new _ _ _ Ew) as [Hwin Hnew]. destruct (not_own _ _ _ Ew) as [Hno _].
  assert (∀ u, u ∈ wanted → u.1 ≠ w.1 → v'' !! set_at_name ipv6 u = v' !! set_at_name ipv6 u) as Hsame.
  { intros u Hu Hne. apply Hother; [intros E%suffixed_inj; done|by apply set_ne_temp]. }
  split.
  - apply Forall_forall. intros u Hu. cbn. destruct (decide (u.1 = w.1)) as [E|Hne].
    + rewrite (want_unique u w) by done. rewrite <-(Hout (set_at_name ipv6 w)) by done. exact Hw.
    + rewrite Hsame by done. destruct (decide (u.1 ∈ map fst ws)) as [Hd'|Hnot].
      * apply list_elem_of_fmap in Hd' as (u' & E & Hu'). rewrite Forall_forall in Hin.
        rewrite (want_unique u u') by (done || (rewrite Ew; set_solver)). right. right. destruct (Hin u' Hu') as (x & ? & ? & _). by exists x.
      * left. apply Hout. unfold own_names. rewrite not_elem_of_app, elem_of_set_names. split; [done|].
        intros (u' & E & Hu')%list_elem_of_fmap. apply (set_ne_temp u u'); [done|rewrite Ew; set_solver|done].
  - intros n Hn. unfold own_names in Hn. rewrite Ew, !map_app, !not_elem_of_app in Hn. cbn [map] in Hn.
    rewrite Hother by set_solver. apply Hout. unfold own_names. rewrite not_elem_of_app. naive_solver.
Qed.

Lemma refreshed_holds members b x : refreshed (map (λ m, [m]) members) b x → holds members b x.
Proof. intros (elems & He & ->). exists elems. split; [by rewrite Forall2_fmap_l in He|done]. Qed.

Lemma suffixed_sys s n : obj_isIpv6 s.1 = ipv6 → sys_name s.1 n = suffixed ipv6 n.
Proof. unfold sys_name, suffixed. by intros ->. Qed.

Lemma sys_options_family s options : obj_isIpv6 s.1 = ipv6 → sys_options s.1 options = with_family ipv6 options.
Proof. unfold sys_options, with_family. by intros ->. Qed.

(** The refresh of the set that was created. *)
Lemma refresh_step ws ptrs w rest p s s1 :
  wanted = ws ++ w :: rest → progress ws ptrs s → grows s.1 s1.1 →
  (∀ n, n ≠ w.1 → obj_Sets s1.1 !! n = obj_Sets s.1 !! n) → known_as s1.1 w.1 p w.2.1 →
  view s1.2 = ensure (suffixed ipv6 w.1) (with_family ipv6 w.2.1) (view s.2) →
  post (Refresh p w.2.2 []) s1 (λ o s', match o with
    | Ret _ => progress (ws ++ [w]) (ptrs ++ [p]) s'
    | Fail _ => partly_synced ipv6 wanted v0 (view s'.2)
    | _ => False
    end).
Proof.
  intros Ew [Pwf Pv6 Ptodo Pptrs Pview] G Hother (Hp & set & Hset & Hn & Ho) Hv. destruct (want_new _ _ _ Ew) as [Hw Hnew].
  pose proof Hword as HW. rewrite Forall_forall in HW. destruct (HW w Hw) as [Hwn Hwm].
  assert (obj_isIpv6 s1.1 = ipv6) as Hv6 by (rewrite (gr_ipv6 _ _ G); done). pose proof (set_ne_temp w w Hw Hw) as HXT.
  pose proof (IPSet_Refresh_spec p set (map (λ m, [m]) w.2.2) s1) as R. cbv zeta in R. rewrite Hn, !suffixed_sys, Ho, sys_options_family in R by done.
  specialize (R (gr_wf _ _ G Pwf) Hset Hwn ltac:(apply Forall_fmap; eapply Forall_impl; [exact Hwm|]; intros ??; by apply Forall_singleton)).
  unfold Refresh, post in R |- *. destruct R as (G' & HS' & R). set (res := RefreshWithBuiltinOptions p _ s1) in *.
  fold (set_at_name ipv6 w) (temp_name ipv6 w) in R, Hv.
  assert (start (temp_name ipv6 w) (with_family ipv6 w.2.1) (view s1.2) = base ipv6 w v0) as Est.
  { apply (base_same ipv6 w v0). rewrite Hv, ensure_start, lookup_insert_ne by done. by apply Pview, (not_own _ _ _ Ew). }
  unfold refresh_post in R. rewrite Est in R. destruct res.1 as [[]|e| |]; [| |done..].
  - destruct R as (_ & x & Hx & Hv'). apply refreshed_holds in Hx. split.
    + by apply (gr_wf _ _ G'), (gr_wf _ _ G).
    + by rewrite (gr_ipv6 _ _ G').
    + intros n Hin. rewrite map_app, not_elem_of_app. intros [Hn1 Hn2]. assert (n ≠ w.1) as Hnw by (intros ->; apply Hn2; left).
      rewrite HS' by (intros ->; by apply (Hdash (w.1 +:+ "-") w.1); [|apply list_elem_of_fmap_2|]). rewrite Hother by done. by apply Ptodo.
    + apply Forall2_app; [by eapply ptrs_grow, ptrs_grow|]. constructor; [|constructor].
      destruct (gr_heap _ _ G' p set Hset) as (set' & ? & ? & _). exists set'. split; [done|congruence].
    + rewrite Hv', Hv, ensure_start, insert_insert_eq. by apply (synced_snoc ws w rest).
  - destruct R as [R1 R2]. apply (partly_synced_step ws w (view s.2) _ rest Ew Pview).
    + intros n H1 H2. rewrite R1, Hv, ensure_start by done. by rewrite lookup_insert_ne.
    + cbv zeta. destruct R2 as [R2|(x & Hx & R2)]; [|right; right; exists x; split; [by apply refreshed_holds|done]].
      rewrite R2, Hv. unfold ensure. destruct (view s.2 !! set_at_name ipv6 w) eqn:E; [by left|right; left].
      split; [done|]. by rewrite lookup_insert_eq.
Qed.

Lemma progress_partly ws ptrs w rest s :
  wanted = ws ++ w :: rest → progress ws ptrs s → ∀ v, v = view s.2 → partly_synced ipv6 wanted v0 v.
Proof. intros Ew P v ->. eapply partly_synced_step; [exact Ew|apply (pr_view _ _ _ P)|done|by left]. Qed.

Lemma createAndRefresh_post ws ptrs w rest s :
  wanted = ws ++ w :: rest → progress ws ptrs s →
  post (createAndRefreshIPSet w.1 w.2.2 w.2.1) s (λ o s', match o with
    | Ret p => progress (ws ++ [w]) (ptrs ++ [p]) s'
    | Fail _ => partly_synced ipv6 wanted v0 (view s'.2)
    | _ => False
    end).
Proof.
  intros Ew P. destruct (want_new _ _ _ Ew) as [Hw Hnew]. unfold createAndRefreshIPSet.
  assert (kept_options s.1 w.1 w.2.1 = w.2.1) as Ek.
  { unfold kept_options. rewrite (pr_todo _ _ _ P w.1); [done|by apply list_elem_of_fmap_2|done]. }
  apply post_bind, post_wrap. eapply post_mono; [apply (Create_spec _ _ _ (pr_wf _ _ _ P))|].
  rewrite Ek, suffixed_sys, sys_options_family by apply (pr_v6 _ _ _ P).
  intros [p|err| |] s1 (G & _ & Hother & Hc); [| |done..].
  - destruct Hc as [Hk Hv]. apply post_bind, post_wrap.
    eapply post_mono; [apply (refresh_step ws ptrs w rest p s s1 Ew P G Hother Hk Hv)|]. by intros [[]|e| |] s2.
  - eapply progress_partly; [exact Ew|exact P|exact Hc].
Qed.

(** One of the sets, and what follows. *)
Lemma set_step {A} ws ptrs w rest e (f : nat → M (IPSetObj * K) A) s Q :
  wanted = ws ++ w :: rest → progress ws ptrs s →
  (∀ p s', progress (ws ++ [w]) (ptrs ++ [p]) s' → post (f p) s' Q) →
  (∀ err s', partly_synced ipv6 wanted v0 (view s'.2) → Q (Fail err) s') →
  post (p ← wrap e (createAndRefreshIPSet w.1 w.2.2 w.2.1); f p) s Q.
Proof.
  intros Ew P Hf Hfail. apply post_bind, post_wrap. eapply post_mono; [by eapply createAndRefresh_post|].
  intros [p|err| |] s1; auto; done.
Qed.
End sync.

(** ** The whole synchronisation *)

(** What the manager wants of the five sets. *)
Definition wanted_sets (mgr : Manager) : list (string * (list string * list string)) :=
  let nets := map IPNet_String in let ips := map IP_String in
  let overlay := nets (localClusterOverlaySubnets mgr ++ remoteClusterOverlaySubnets mgr) in
  let underlay := nets (localClusterUnderlaySubnets mgr ++ remoteClusterUnderlaySubnets mgr) in
  let nodes := ips (nodeIPList mgr ++ remoteNodeIPList mgr) in
  let hash t := [t; OptionTimeout; "0"] in
  [(HybridnetOverlayNetSetName, (hash TypeHashNet, overlay));
   (HybridnetAllIPSetName, (hash TypeHashNet, underlay ++ overlay ++ nodes));
   (HybridnetNodeIPSetName, (hash TypeHashIP, nodes));
   (HybridnetLocalBGPNetSetName, (hash TypeHashNet, nets (localBGPSubnets mgr)));
   (HybridnetLocalPodIPSetName, (hash TypeHashIP, ips (localPodIPList mgr)))].

(** What a parse gives: an address or nil, and a network. *)
Definition parsed_ip (ip : netIP) : Prop := ip = [] ∨ valid_ip ip.

(** The manager has recorded parsed addresses and networks. *)
Record manager_ok (mgr : Manager) : Prop := {
  mo_overlay : Forall net_ok (localClusterOverlaySubnets mgr);
  mo_underlay : Forall net_ok (localClusterUnderlaySubnets mgr);
  mo_bgp : Forall net_ok (localBGPSubnets mgr);
  mo_nodes : Forall parsed_ip (nodeIPList mgr);
  mo_pods : Forall parsed_ip (localPodIPList mgr);
  mo_remote_overlay : Forall net_ok (remoteClusterOverlaySubnets mgr);
  mo_remote_underlay : Forall net_ok (remoteClusterUnderlaySubnets mgr);
  mo_remote_nodes : Forall parsed_ip (remoteNodeIPList mgr)
}.

Lemma nets_words l : Forall net_ok l → Forall word (map IPNet_String l).
Proof. intros H. apply Forall_fmap. eapply Forall_impl; [exact H|]. apply IPNet_String_word. Qed.

Lemma ips_words l : Forall parsed_ip l → Forall word (map IP_String l).
Proof. intros H. apply Forall_fmap. eapply Forall_impl; [exact H|]. apply IP_String_word. Qed.

Lemma wanted_names mgr : map fst (wanted_sets mgr) = [HybridnetOverlayNetSetName; HybridnetAllIPSetName;
  HybridnetNodeIPSetName; HybridnetLocalBGPNetSetName; HybridnetLocalPodIPSetName].
Proof. done. Qed.

Lemma wanted_nodup mgr : NoDup (map fst (wanted_sets mgr)).
Proof. rewrite wanted_names. apply (bool_decide_unpack _). by vm_compute. Qed.

Lemma wanted_dash mgr n m : n ∈ map fst (wanted_sets mgr) → m ∈ map fst (wanted_sets mgr) → n ≠ m +:+ "-".
Proof.
  rewrite wanted_names. intros Hn Hm.
  repeat (apply elem_of_cons in Hn as [->|Hn]; [repeat (apply elem_of_cons in Hm as [->|Hm]; [discriminate|]); by apply elem_of_nil in Hm|]).
  by apply elem_of_nil in Hn.
Qed.

Lemma wanted_words mgr ipv6 :
  manager_ok mgr → Forall (λ w : string * (list string * list string), word (suffixed ipv6 w.1) ∧ Forall word w.2.2) (wanted_sets mgr).
Proof.
  intros []. unfold wanted_sets, suffixed. assert (∀ l l' : list string, Forall word l → Forall word l' → Forall word (l ++ l')) as Happ.
  { intros. by apply Forall_app. }
  assert (∀ l l', Forall net_ok l → Forall net_ok l' → Forall word (map IPNet_String (l ++ l'))) as Hnets.
  { intros. apply nets_words. by apply Forall_app. }
  assert (∀ l l', Forall parsed_ip l → Forall parsed_ip l' → Forall word (map IP_String (l ++ l'))) as Hips.
  { intros. apply ips_words. by apply Forall_app. }
  repeat (apply Forall_cons; split; [split; [destruct ipv6; by vm_compute|cbn [fst snd]; auto using nets_words, ips_words]|]). constructor.
Qed.

Section rules.
Context {K : Type} {C : IPSetCmd K} {L : IPSetLaws (K := K)} {X : IPTablesExec K} {XL : ExecLaws}.
Implicit Types (mgr : Manager) (k : K).

Lemma sync_sets_post mgr o k :
  let ipv6 := bool_decide (protocol mgr = ProtocolIpv6) in
  manager_ok mgr → o = mkIPSetObj [] ∅ ipv6 →
  post (sync_sets mgr) (o, k) (λ r s', match r with
    | Ret n => synced ipv6 (wanted_sets mgr) (view k) (view s'.2) ∧
        n = mkSetNames (suffixed ipv6 HybridnetOverlayNetSetName) (suffixed ipv6 HybridnetAllIPSetName)
              (suffixed ipv6 HybridnetNodeIPSetName) (suffixed ipv6 HybridnetLocalBGPNetSetName)
              (suffixed ipv6 HybridnetLocalPodIPSetName)
    | Fail _ => partly_synced ipv6 (wanted_sets mgr) (view k) (view s'.2)
    | _ => False
    end).
Proof.
  intros ipv6 Hok Ho. unfold sync_sets, generateStringsFromIPNets, generateStringsFromIPs.
  cbv zeta. rewrite <-(map_app _ (localClusterOverlaySubnets mgr)), <-(map_app _ (localClusterUnderlaySubnets mgr)), <-(map_app _ (nodeIPList mgr)).
  rewrite <-(app_assoc (map _ _)).
  pose proof (wanted_nodup mgr) as Hnd. pose proof (wanted_dash mgr) as Hd. pose proof (wanted_words mgr ipv6 Hok) as Hw.
  assert (progress ipv6 (view k) (wanted_sets mgr) [] [] (o, k)) as P0.
  { subst o. split; [intros n p; cbn; by rewrite lookup_empty|done|done|constructor|apply synced_nil]. }
  pose (W i := nth i (wanted_sets mgr) ("", ([], []))).
  pose proof (λ A i ptrs e f s Q, set_step (A := A) ipv6 (view k) (wanted_sets mgr) Hnd Hd Hw
    (take i (wanted_sets mgr)) ptrs (W i) (drop (S i) (wanted_sets mgr)) e f s Q) as step.
  apply (step _ 0%nat [] _ _ _ _ eq_refl P0); [clear P0; intros p1 s1 P1|done].
  apply (step _ 1%nat _ _ _ _ _ eq_refl P1); [clear P1; intros p2 s2 P2|done].
  apply (step _ 2%nat _ _ _ _ _ eq_refl P2); [clear P2; intros p3 s3 P3|done].
  apply (step _ 3%nat _ _ _ _ _ eq_refl P3); [clear P3; intros p4 s4 P4|done].
  apply (step _ 4%nat _ _ _ _ _ eq_refl P4); [clear P4; intros p5 s5 P5|done]. clear step.
  pose proof (pr_ptrs _ _ _ _ _ _ P5) as HP. cbn [app] in HP. repeat (apply Forall2_cons in HP as [(? & ? & ?) HP]).
  unfold post, GetNameWithProtocol. do 5 (erewrite bind_Ret; [|by apply name_run]). cbn [fst snd mret M_ret].
  rewrite !(suffixed_sys ipv6) by apply (pr_v6 _ _ _ _ _ _ P5). split; [apply (pr_view _ _ _ _ _ _ P5)|]. by f_equal; f_equal.
Qed.

Lemma synced_partly ipv6 wanted (v v' : gmap string (KSet Elem)) : synced ipv6 wanted v v' → partly_synced ipv6 wanted v v'.
Proof.
  intros [Hin Hout]. split; [|done]. eapply Forall_impl; [exact Hin|].
  intros w (x & Hx & E & _). right. right. by exists x.
Qed.

Lemma partly_refl ipv6 wanted (v : gmap string (KSet Elem)) : partly_synced ipv6 wanted v v.
Proof. split; [|done]. apply Forall_forall. intros w _. by left. Qed.

Lemma post_on_kernel {A} (m : M K A) mgr k Q :
  post m k (λ o k', Q o (mgr, k')) → post (on_kernel m) (mgr, k) Q.
Proof. unfold post, on_kernel, zoom. cbn. by destruct (m k). Qed.

Definition set_names mgr : SetNames :=
  let n := suffixed (bool_decide (protocol mgr = ProtocolIpv6)) in
  mkSetNames (n HybridnetOverlayNetSetName) (n HybridnetAllIPSetName) (n HybridnetNodeIPSetName)
    (n HybridnetLocalBGPNetSetName) (n HybridnetLocalPodIPSetName).

(** What a call of [SyncRules] leaves on the system. *)
Definition sync_result mgr (v v' : gmap string (KSet Elem)) (text : string) (ok : bool) : Prop :=
  let ipv6 := bool_decide (protocol mgr = ProtocolIpv6) in
  if ok then synced ipv6 (wanted_sets mgr) v v' ∧ text = rules_text mgr (set_names mgr)
  else partly_synced ipv6 (wanted_sets mgr) v v'.

(** The part after the sets. *)
Lemma rules_post mgr k0 k n :
  synced (bool_decide (protocol mgr = ProtocolIpv6)) (wanted_sets mgr) (view k0) (view k) → n = set_names mgr →
  post (wrap (Wrapf "failed to ensure basic rules and chains: %v" []) (on_kernel (ensureBasicRuleAndChains (protocol mgr)));;
    (let iptablesData := rules_text mgr n in
     wrap (Wrapf "failed to execute iptables-restore: %v\n iptables rules are:\n %v" [iptablesData])
       (on_kernel (RestoreAll (protocol mgr) iptablesData));;
     if upgradeWorkDone mgr then mret tt
     else
       wrap (Wrapf "failed to clean deprecated basic rules: %v" []) (on_kernel (cleanDeprecatedBasicRuleAndChains (protocol mgr)));;
       modify (λ s, (set_upgradeWorkDone s.1, s.2)))) (mgr, k)
    (λ o s', match o with
      | Ret _ => s'.1 = set_upgradeWorkDone mgr ∧ sync_result mgr (view k0) (view s'.2) (restored (protocol mgr) s'.2) true
      | Fail _ => s'.1 = mgr ∧ sync_result mgr (view k0) (view s'.2) "" false
      | _ => False
      end).
Proof.
  intros Hs ->. apply post_bind, post_wrap, post_on_kernel.
  eapply post_mono; [apply ensureBasic_quiet|]. intros [[]|e| |] k1 [[Hv _] Ho]; [|cbn [fst snd sync_result]; rewrite Hv; auto using synced_partly|done..].
  cbv zeta. apply post_bind, post_wrap, post_on_kernel.
  eapply post_mono; [apply RestoreAll_law|]. intros [[]|e| |] k2 [Hv2 Ho2]; [|cbn [fst snd sync_result]; rewrite Hv2, Hv; auto using synced_partly|done..].
  destruct (upgradeWorkDone mgr) eqn:Eu.
  { apply post_ret. cbn [fst snd sync_result]. rewrite Hv2, Hv. split; [|done]. destruct mgr; cbn in *. by subst. }
  apply post_bind, post_wrap, post_on_kernel.
  eapply post_mono; [apply cleanDeprecated_quiet|]. intros [[]|e| |] k3 [[Hv3 Hr] Ho3]; [| |done..]; cbn [fst snd sync_result].
  - unfold post, modify. cbn [fst snd]. rewrite Hv3, Hv2, Hv, Hr. done.
  - rewrite Hv3, Hv2, Hv. auto using synced_partly.
Qed.

Lemma SyncRules_post mgr k :
  mgr_c mgr = 0%nat → manager_ok mgr →
  post SyncRules (mgr, k) (λ o s', match o with
    | Ret _ => s'.1 = set_upgradeWorkDone mgr ∧ sync_result mgr (view k) (view s'.2) (restored (protocol mgr) s'.2) true
    | Fail _ => s'.1 = mgr ∧ sync_result mgr (view k) (view s'.2) "" false
    | _ => False
    end).
Proof.
  intros Hc Hok. unfold SyncRules, locked, post. cbn [fst snd]. rewrite Hc.
  set (mgr1 := mkManager _ _ _ _ _ _ _ _ _ _ _ _ _).
  match goal with |- context [let '(o, s) := ?m (mgr1, k) in _] => set (body := m) end.
  enough (post body (mgr1, k) (λ o s', match o with
    | Ret _ => s'.1 = set_upgradeWorkDone mgr1 ∧ sync_result mgr1 (view k) (view s'.2) (restored (protocol mgr) s'.2) true
    | Fail _ => s'.1 = mgr1 ∧ sync_result mgr1 (view k) (view s'.2) "" false
    | _ => False
    end)) as H.
  { unfold post in H. destruct (body (mgr1, k)) as [[[]|e| |] s']; cbn [fst snd] in *; [| |done..]; destruct H as [-> H];
      (split; [|exact H]); destruct mgr; cbn in *; by subst. }
  assert (manager_ok mgr1) as Hok' by (destruct Hok; by split).
  subst body. unfold post. rewrite bind_gets. cbn [fst].
  pose proof LookPath_law as HL. unfold NewIPSet, getIPSetPath.
  destruct LookPath as [path|e| |]; cbn [mbind outcome_bind wrap_outcome]; [| |done..].
  2: { cbn. split; [done|]. apply partly_refl. }
  rewrite bind_lift_Ret. set (o := mkIPSetObj _ _ _).
  pose proof (sync_sets_post mgr1 o k Hok' eq_refl) as S. unfold post in S. cbv zeta in S.
  assert (∀ r o' k', sync_sets mgr1 (o, k) = (r, (o', k')) → with_ipset o (sync_sets mgr1) (mgr1, k) = (r, (mgr1, k'))) as Hw.
  { intros r o' k' E. unfold with_ipset. cbn [snd]. by rewrite E. }
  destruct (sync_sets mgr1 (o, k)) as [[n|e| |] [o' k']]; cbn [fst snd] in S; [| |done..].
  - destruct S as [S ->]. rewrite (bind_Ret _ _ _ _ _ (Hw _ _ _ eq_refl)). by apply (rules_post mgr1 k).
  - by rewrite (bind_Fail _ _ _ _ _ (Hw _ _ _ eq_refl)).
Qed.
End rules.
