(* ===== verification/IPTablesProperties.v ===== *)
(** * The ipsets after a synchronisation

    A concrete system that satisfies the laws of the commands, and the
    property of [SyncRules]. *)

From Stdlib Require Import Ascii.
From S2P Require Import Prelude GoNet GoStrings NetText Utils IPSet IPSetProperties IPTables IPTablesSync.

Local Open Scope Z_scope.

(** ** A system that satisfies the laws

    The sets with their members as texts, and the texts restored last; no
    command fails but for a set that is not there. *)

Record Sys := mkSys { sys_sets : gmap string (KSet string); sys_text : Protocol → string }.

Definition missing : string := "The set with the given name does not exist".

(** One line of a restore: the words after [add -exist] are the set and the
    entry. *)
Definition restore_line (v : gmap string (KSet string)) (line : string) : gmap string (KSet string) :=
  match Split line " " with
  | "add" :: "-exist" :: n :: e =>
      match v !! n with
      | Some ks => <[n := mkKSet (ks_options ks) ({[words e]} ∪ ks_members ks)]> v
      | None => v
      end
  | _ => v
  end.

Definition sys_run (args : list string) (stdin : option string) (k : Sys) : (string + string) * Sys :=
  let v := sys_sets k in
  let done_ v' := (inl "", mkSys v' (sys_text k)) in
  match args, stdin with
  | ["list"; n], None => if decide (is_Some (v !! n)) then done_ v else (inr missing, k)
  | "create" :: "-exist" :: n :: options, None => done_ (ensure n options v)
  | ["swap"; n; m], None =>
      match v !! n, v !! m with
      | Some a, Some b => done_ (<[n := b]> (<[m := a]> v))
      | _, _ => (inr missing, k)
      end
  | ["destroy"; n], None => if decide (is_Some (v !! n)) then done_ (delete n v) else (inr missing, k)
  | ["restore"], Some text => done_ (fold_left restore_line (Split text "010") v)
  | _, _ => (inr "not understood", k)
  end.

#[export] Instance sys_ipset : IPSetCmd Sys := {| LookPath := Ret "/usr/sbin/ipset"; exec_run := sys_run; digest s := s |}.

Definition line_of (n : string) (e : list string) : string := words (["add"; "-exist"; n] ++ e).

Lemma nobyte_join c sep l : nobyte c sep → Forall (nobyte c) l → nobyte c (join sep l).
Proof.
  intros Hs. induction l as [|x l IH]; [done|]. intros [Hx Hl]%Forall_cons. destruct l as [|y l]; [done|].
  rewrite join_cons. repeat apply nobyte_app; auto.
Qed.

Lemma line_words n e : word n → Forall word e → Forall word (["add"; "-exist"; n] ++ e).
Proof. intros Hn He. repeat (constructor; [done|]). done. Qed.

Lemma concat_lines n entries :
  String.concat "" (map (add_line n) entries) = join line_feed (map (line_of n) entries ++ [""]).
Proof.
  induction entries as [|e entries IH]; [done|]. cbn [map app].
  assert (∀ x l, String.concat "" (x :: l) = x +:+ String.concat "" l) as Hc.
  { intros x [|y l]; [by rewrite sapp_nil_r|done]. }
  rewrite Hc, IH. unfold add_line at 1. fold (line_of n e).
  destruct (map (line_of n) entries ++ [""]) as [|y l] eqn:E; [by destruct entries|]. by rewrite join_cons, sapp_assoc.
Qed.

Lemma Split_lines n entries :
  word n → Forall (Forall word) entries →
  Split (String.concat "" (map (add_line n) entries)) "010" = map (line_of n) entries ++ [""].
Proof.
  intros Hn He. rewrite concat_lines. apply Split_join; [by destruct entries|]. apply Forall_app. split; [|by constructor].
  apply Forall_fmap. eapply Forall_impl; [exact He|]. intros e Hw. apply nobyte_join; [done|].
  eapply Forall_impl; [by apply line_words|]. by intros x [].
Qed.

Lemma restore_line_of n e ks (v : gmap string (KSet string)) :
  word n → Forall word e → v !! n = Some ks →
  restore_line v (line_of n e) = <[n := mkKSet (ks_options ks) ({[words e]} ∪ ks_members ks)]> v.
Proof.
  intros Hn He Hv. unfold restore_line, line_of, words at 1. rewrite (Split_join (["add"; "-exist"; n] ++ e) " ").
  - cbn [app]. by rewrite Hv.
  - done.
  - eapply Forall_impl; [by apply line_words|]. by intros x [].
Qed.

Lemma restore_lines n entries ks (v : gmap string (KSet string)) :
  word n → Forall (Forall word) entries → v !! n = Some ks →
  fold_left restore_line (map (line_of n) entries) v
  = <[n := mkKSet (ks_options ks) (list_to_set (map words entries) ∪ ks_members ks)]> v.
Proof.
  intros Hn He. revert v ks. induction He as [|e entries He Hes IH]; intros v ks Hv.
  - cbn. symmetry. apply insert_id. rewrite Hv. f_equal. destruct ks. cbn. f_equal. set_solver.
  - cbn [map fold_left]. rewrite (restore_line_of n e ks) by done.
    rewrite (IH _ (mkKSet (ks_options ks) ({[words e]} ∪ ks_members ks))) by (by rewrite lookup_insert_eq).
    rewrite insert_insert_eq. f_equal. cbn [ks_options ks_members list_to_set]. f_equal. cbn. set_solver.
Qed.

#[export] Program Instance sys_laws : IPSetLaws (K := Sys) :=
  {| Elem := string; element _ e := Some (words e); view := sys_sets |}.
Next Obligation.
  intros n k. cbn. case_decide as H; cbn; (split_and!; [done|..]); intros x; try discriminate.
  - done.
  - intros _ _. by apply eq_None_not_Some.
Qed.
Next Obligation. done. Qed.
Next Obligation.
  intros n m k. cbn. destruct (sys_sets k !! n) as [a|]; [|done]. destruct (sys_sets k !! m) as [b|]; [|done]. cbn. eauto.
Qed.
Next Obligation.
  intros n k. cbn. by case_decide.
Qed.
Next Obligation.
  intros n entries ks k Hn He Hk. cbn [exec_run sys_ipset sys_run].
  exists entries, [], (map words entries). split_and!; [by rewrite app_nil_r|done| |].
  - apply Forall2_fmap_r. apply Forall_Forall2_diag. by apply Forall_true.
  - cbn [sys_sets]. rewrite Split_lines by done. rewrite fold_left_app. cbn [fold_left].
    rewrite (restore_lines n entries ks) by done. done.
Qed.

#[export] Instance sys_exec : IPTablesExec Sys := {|
  NewWithProtocol _ := Ret tt;
  MakeChainLine chain := ":" +:+ chain +:+ " - [0:0]";
  EnsureChain _ _ _ := mret true;
  EnsureRule _ _ _ _ := mret true;
  DeleteRule _ _ _ _ := mret tt;
  FlushChain _ _ _ := mret tt;
  DeleteChain _ _ _ := mret tt;
  RestoreAll p text := modify (λ k, mkSys (sys_sets k) (λ q, if decide (q = p) then text else sys_text k q))
|}.

#[export] Instance sys_exec_laws : ExecLaws (K := Sys).
Proof.
  refine {| restored p k := sys_text k p |}; try done. intros p text k. split; [done|]. cbn. by rewrite decide_True.
Defined.

Definition w_net (a b c d n : Z) : IPNet := mkIPNet [a; b; c; d] (CIDRMask n 32).

(** Two overlay subnets, one of them remote, two nodes and a pod. *)
Definition w_manager : Manager :=
  RecordLocalPodIP [10; 14; 0; 2] (RecordRemoteNodeIP [192; 168; 1; 9] (RecordNodeIP [192; 168; 0; 9]
    (RecordRemoteSubnet (w_net 10 15 0 0 16) true (RecordSubnet (w_net 10 14 0 0 16) true false
      (SetOverlayIfName "eth0.vxlan4" (mkManager [] [] [] [] [] "" "" ProtocolIpv4 0 false [] [] [])))))).

(** A set of an earlier synchronisation, and one that is none of ours. *)
Definition w_system : Sys :=
  mkSys {[ HybridnetNodeIPSetName := mkKSet [TypeHashIP; OptionTimeout; "0"] {["192.168.0.8"]};
           "OTHER" := mkKSet [TypeHashIP] {["1.2.3.4"]} ]} (λ _, "").

Ltac w_bytes := vm_compute CIDRMask; repeat (apply Forall_cons; split; [by vm_compute|]); apply Forall_nil.

(** ** Property *)

(** C12. A call of [SyncRules] with the lock free, on a manager whose addresses
    and networks come from parses ([manager_ok]), returns or fails with the
    lock free again.  When it returns, each of the five ipsets holds the
    recorded addresses of its kind, whatever it held before, and nothing else
    unless an earlier refresh that failed has left its temporary set: then
    also the members of that set ([holds] over [base]; [holds_exactly] is the
    case without one); the temporary sets are gone, every other set is as it
    was, and the text restored last is the rules of the manager.  When it
    fails, each of the five sets is what it was, new and empty, or complete:
    never a part of the new members; and other sets are as they were, but for
    temporary ones. *)
Theorem SyncRules_exact {K} {C : IPSetCmd K} {L : IPSetLaws (K := K)} {X : IPTablesExec K} {XL : ExecLaws} (mgr : Manager) (k : K) :
  mgr_c mgr = 0%nat → manager_ok mgr →
  post SyncRules (mgr, k) (λ o s', match o with
    | Ret _ => s'.1 = set_upgradeWorkDone mgr ∧ sync_result mgr (view k) (view s'.2) (restored (protocol mgr) s'.2) true
    | Fail _ => s'.1 = mgr ∧ sync_result mgr (view k) (view s'.2) "" false
    | _ => False
    end).
Proof. apply SyncRules_post. Qed.

Lemma SyncRules_exact_witness :
  let s' := (SyncRules (w_manager, w_system)).2 in
  (SyncRules (w_manager, w_system)).1 = Ret tt ∧ upgradeWorkDone s'.1 = true ∧
  sync_result w_manager (sys_sets w_system) (sys_sets s'.2) (sys_text s'.2 ProtocolIpv4) true ∧
  ks_members <$> (sys_sets s'.2 !! HybridnetNodeIPSetName) = Some {["192.168.0.9"; "192.168.1.9"]}.
Proof.
  assert (mgr_c w_manager = 0%nat) as H1 by reflexivity.
  assert (manager_ok w_manager) as H2.
  { assert (valid_ip [192; 168; 0; 9] ∧ valid_ip [192; 168; 1; 9] ∧ valid_ip [10; 14; 0; 2]) as (? & ? & ?).
    { by repeat apply conj; try (by left); w_bytes. }
    assert (net_ok (w_net 10 14 0 0 16) ∧ net_ok (w_net 10 15 0 0 16)) as [? ?].
    { by repeat apply conj; try (by left); w_bytes. }
    split; by repeat (apply Forall_cons; split; [first [done|by right]|]). }
  pose proof (SyncRules_exact w_manager w_system H1 H2) as H. unfold post in H.
  assert ((SyncRules (w_manager, w_system)).1 = Ret tt) as E by (vm_compute; reflexivity). rewrite E in H. destruct H as [Hm H].
  cbv zeta. rewrite Hm. split_and!; [exact E|done|exact H|vm_compute; reflexivity].
Defined.

(** Members of a temporary set that a failed refresh has left get into the
    set at the next refresh. *)
Lemma Refresh_keeps_leftover :
  let old := mkKSet [TypeHashIP; OptionTimeout; "0"] {["192.168.0.8"]} in
  let k := mkSys {[ HybridnetNodeIPSetName +:+ "-" := old ]} (λ _, "") in
  let s' := (SyncRules (w_manager, k)).2 in
  (SyncRules (w_manager, k)).1 = Ret tt ∧
  ks_members <$> (sys_sets s'.2 !! HybridnetNodeIPSetName) = Some {["192.168.0.8"; "192.168.0.9"; "192.168.1.9"]}.
Proof. by vm_compute. Qed.
