(* ===== verification/Netlink.v ===== *)
(** * The kernel's network configuration (github.com/vishvananda/netlink)

    The data that the daemon exchanges with the kernel, with the fields that
    the source uses, and the calls as the class [Netlink]: what they do is not
    in the repository.  Numbers of Linux are written out.  [OS] are the files
    of sysctl. *)

From S2P Require Import Prelude GoNet.

Local Open Scope Z_scope.

Definition FAMILY_V4 : Z := 2.
Definition FAMILY_V6 : Z := 10.
Definition AF_BRIDGE : Z := 7.
Definition RTN_UNICAST : Z := 1.
Definition RTN_THROW : Z := 9.
Definition RT_TABLE_LOCAL : Z := 255.
Definition SCOPE_UNIVERSE : Z := 0.
Definition SCOPE_LINK : Z := 253.
Definition FLAG_ONLINK : Z := 4.
Definition IFA_F_SECONDARY : Z := 1.
Definition IFA_F_NOPREFIXROUTE : Z := 512.
Definition NUD_INCOMPLETE : Z := 1.
Definition NUD_REACHABLE : Z := 2.
Definition NUD_STALE : Z := 4.
Definition NUD_FAILED : Z := 32.
Definition NUD_PERMANENT : Z := 128.
Definition NTF_SELF : Z := 2.
Definition NTF_PROXY : Z := 8.

(** The attributes of a vxlan device. *)
Record VxlanAttrs := mkVxlanAttrs {
  VxlanId : Z; VtepDevIndex : Z; SrcAddr : netIP; vx_Group : netIP; L2miss : bool; vx_Port : Z; GBP : bool; Learning : bool
}.

(** [link_Loopback]: the flag FlagLoopback; [link_Vxlan]: the concrete type of
    the interface value is [*Vxlan]; [link_Vlan]: it is [*Vlan]. *)
Record Link := mkLink {
  link_Index : Z; link_Name : string; link_Type : string; link_HardwareAddr : list Z; link_Loopback : bool;
  link_ParentIndex : Z; link_VlanId : Z; link_Vxlan : option VxlanAttrs; link_MasterIndex : Z
}.

Record Addr := mkAddr { addr_IPNet : IPNet; addr_Label : string; addr_Flags : Z }.

(** A nil [Dst] is [None]; a nil [Gw] or [Src] is empty. *)
Record Route := mkRoute {
  rt_LinkIndex : Z; rt_Dst : option IPNet; rt_Gw : netIP; rt_Src : netIP;
  rt_Table : Z; rt_Scope : Z; rt_Flags : Z; rt_Type : Z
}.

Record Rule := mkRule {
  ru_Src : option IPNet; ru_Dst : option IPNet; ru_Table : Z; ru_Priority : Z; ru_Family : Z;
  ru_Mark : Z; ru_Mask : Z; ru_IifName : string; ru_OifName : string
}.

Record Neigh := mkNeigh {
  nb_LinkIndex : Z; nb_Family : Z; nb_State : Z; nb_Flags : Z; nb_IP : netIP; nb_HardwareAddr : list Z; nb_Type : Z
}.

#[export] Instance VxlanAttrs_eq_dec : EqDecision VxlanAttrs.
Proof. solve_decision. Defined.
#[export] Instance Link_eq_dec : EqDecision Link.
Proof. solve_decision. Defined.
#[export] Instance Addr_eq_dec : EqDecision Addr.
Proof. solve_decision. Defined.
#[export] Instance Route_eq_dec : EqDecision Route.
Proof. solve_decision. Defined.
#[export] Instance Rule_eq_dec : EqDecision Rule.
Proof. solve_decision. Defined.
#[export] Instance Neigh_eq_dec : EqDecision Neigh.
Proof. solve_decision. Defined.

(** The fields of the pattern that [RouteListFiltered] compares. *)
Inductive RouteFilter := RT_FILTER_TABLE | RT_FILTER_OIF | RT_FILTER_DST | RT_FILTER_SRC | RT_FILTER_TYPE.

(** A composite literal that sets no field. *)
Definition zero_Route : Route := mkRoute 0 None [] [] 0 0 0 0.

Class Netlink (K : Type) : Type := {
  NewRule : Rule;
  EEXIST : error;
  LinkByName : string → M K Link;
  LinkByIndex : Z → M K Link;
  LinkList : M K (list Link);
  LinkAdd : Link → M K Link;
  (** name, name of the peer, MTU *)
  LinkAddVeth : string → string → Z → M K unit;
  LinkSetNsFd : Link → Z → M K unit;
  LinkDel : Link → M K unit;
  LinkSetUp : Link → M K unit;
  LinkSetDown : Link → M K unit;
  LinkSetHardwareAddr : Link → list Z → M K unit;
  LinkSetMTU : Link → Z → M K unit;
  LinkSetName : Link → string → M K unit;
  AddrList : option Link → Z → M K (list Addr);
  AddrAdd : Link → Addr → M K unit;
  AddrDel : Link → Addr → M K unit;
  RouteList : option Link → Z → M K (list Route);
  RouteListFiltered : Z → Route → list RouteFilter → M K (list Route);
  RouteAdd : Route → M K unit;
  RouteReplace : Route → M K unit;
  RouteDel : Route → M K unit;
  RuleList : Z → M K (list Rule);
  RuleAdd : Rule → M K unit;
  RuleDel : Rule → M K unit;
  NeighList : Z → Z → M K (list Neigh);
  NeighProxyList : Z → Z → M K (list Neigh);
  NeighAdd : Neigh → M K unit;
  NeighAppend : Neigh → M K unit;
  NeighSet : Neigh → M K unit;
  NeighDel : Neigh → M K unit
}.

(** [ioutil.WriteFile], [ioutil.ReadFile], [ioutil.ReadDir] (the names),
    [os.Stat], the type of [syscall.Statfs], [os.IsNotExist] and
    [os.IsExist]. *)
Class OS (K : Type) : Type := {
  WriteFile : string → string → M K unit;
  ReadFile : string → M K string;
  ReadDir : string → M K (list string);
  Stat : string → M K unit;
  Statfs : string → M K Z;
  IsNotExist : error → bool;
  IsExist : error → bool
}.

(** Interfaces as Go's package net gives them. *)
Record Interface := mkInterface { if_Index : Z; if_Name : string; if_HardwareAddr : list Z; if_MTU : Z }.

Class NetPkg (K : Type) : Type := {
  InterfaceByName : string → M K Interface;
  InterfaceByIndex : Z → M K Interface;
  Interfaces : M K (list Interface)
}.

(** What the daemon uses of containernetworking/plugins that acts on the host:
    pkg/ip, pkg/utils/sysctl and pkg/ns.  A namespace is named by its path;
    [NS_Do] runs a function in it; the
    current one is its file descriptor. *)
Class CNIHost (K : Type) : Type := {
  EnableIP4Forward : M K unit;
  EnableIP6Forward : M K unit;
  DelLinkByName : string → M K unit;
  ErrLinkNotFound : error;
  (** the index is given with an error, too *)
  GetVethPeerIfindex : string → M K (Z * option error);
  SettleAddresses : string → Z → M K unit;
  Sysctl : string → M K string;
  Sysctl_write : string → string → M K unit;
  GetNS : string → M K string;
  GetCurrentNS : M K Z;
  NS_Do : ∀ {A}, string → M K A → M K A;
  PROCFS_MAGIC : Z;
  NSFS_MAGIC : Z
}.
