(* ===== verification/DaemonUtils.v ===== *)
(** * Helpers of the daemon (pkg/daemon/utils/network.go, utils.go) *)

From Stdlib Require Import Ascii.
From stdpp Require Import pretty.
From S2P Require Import Prelude GoNet GoStrings NetText Netlink.

Local Open Scope Z_scope.

(** The order in which a range statement visits a map; [site] tells range
    statements apart. *)
Class MapOrder : Type := {
  map_range : ∀ {A}, nat → gmap string A → list (string * A);
  map_range_perm : ∀ {A} site (m : gmap string A), map_range site m ≡ₚ map_to_list m
}.

Definition NotExist : error := Errorf "error info: not exist" [].
Definition VxlanLinkInfix : string := ".vxlan".

Definition IPv4NeighGCThresh1 : string := "/proc/sys/net/ipv4/neigh/default/gc_thresh1".
Definition IPv4NeighGCThresh2 : string := "/proc/sys/net/ipv4/neigh/default/gc_thresh2".
Definition IPv4NeighGCThresh3 : string := "/proc/sys/net/ipv4/neigh/default/gc_thresh3".
Definition IPv6NeighGCThresh1 : string := "/proc/sys/net/ipv6/neigh/default/gc_thresh1".
Definition IPv6NeighGCThresh2 : string := "/proc/sys/net/ipv6/neigh/default/gc_thresh2".
Definition IPv6NeighGCThresh3 : string := "/proc/sys/net/ipv6/neigh/default/gc_thresh3".
Definition IPv6DisableModuleParameter : string := "/sys/module/ipv6/parameters/disable".
Definition IPv6DisableSysctl (nic : string) : string := "/proc/sys/net/ipv6/conf/" +:+ nic +:+ "/disable_ipv6".

(** ** Names of interfaces; a nil pointer is [None] *)

Definition GenerateVlanNetIfName (parentName : string) (vlanID : option Z) : outcome string :=
  match vlanID with
  | None => Fail (Errorf "vlan id should not be nil" [])
  | Some id =>
      if 4096 <? id then Fail (Errorf "vlan id's value range is from 0 to 4094" [])
      else if id =? 0 then Ret parentName
      else Ret (parentName +:+ "." +:+ pretty id)
  end.

Definition GenerateVxlanNetIfName (parentName : string) (vlanID : option Z) : outcome string :=
  match vlanID with
  | None => Fail (Errorf "vxlan id should not be nil or zero" [])
  | Some id =>
      let maxVxlanID := Z.shiftl 1 24 - 1 in
      if id =? 0 then Fail (Errorf "vxlan id should not be nil or zero" [])
      else if maxVxlanID <? id then Fail (Errorf "vxlan id's value range is from 1 to %d" [pretty maxVxlanID])
      else Ret (parentName +:+ VxlanLinkInfix +:+ pretty id)
  end.

(** ** Addresses of Go's package net *)

Definition IPv4bcast : netIP := IPv4 255 255 255 255.
Definition IPv6zero : netIP := replicate 16 0.
Definition IPv6loopback : netIP := replicate 15 0 ++ [1].

Definition IsUnspecified (ip : netIP) : bool := IP_Equal ip (IPv4 0 0 0 0) || IP_Equal ip IPv6zero.
Definition IsLoopback (ip : netIP) : bool :=
  match To4 ip with a :: _ => a =? 127 | [] => IP_Equal ip IPv6loopback end.
Definition IsMulticast (ip : netIP) : bool :=
  match To4 ip with
  | a :: _ => Z.land a 240 =? 224
  | [] => match ip with a :: _ => bool_decide (length ip = 16%nat) && (a =? 255) | [] => false end
  end.
Definition IsInterfaceLocalMulticast (ip : netIP) : bool :=
  match ip with a :: b :: _ => bool_decide (length ip = 16%nat) && (a =? 255) && (Z.land b 15 =? 1) | _ => false end.
Definition IsLinkLocalUnicast (ip : netIP) : bool :=
  match To4 ip with
  | a :: b :: _ => (a =? 169) && (b =? 254)
  | _ => match ip with a :: b :: _ => bool_decide (length ip = 16%nat) && (a =? 254) && (Z.land b 192 =? 128) | _ => false end
  end.
Definition IsGlobalUnicast (ip : netIP) : bool :=
  bool_decide (length ip = 4%nat ∨ length ip = 16%nat) && negb (IP_Equal ip IPv4bcast) && negb (IsUnspecified ip)
  && negb (IsLoopback ip) && negb (IsMulticast ip) && negb (IsLinkLocalUnicast ip).

Definition CheckIPIsGlobalUnicast (ip : netIP) : bool := negb (IsInterfaceLocalMulticast ip) && IsGlobalUnicast ip.

Record IPInfo := mkIPInfo { ii_Addr : netIP; ii_Gw : netIP; ii_Cidr : option IPNet }.

(** What of the result of a CNI plugin is used: the names of the interfaces,
    the addresses (a nil interface is [None]) and the routes. *)
Record IPConfig := mkIPConfig { ipc_Version : string; ipc_Interface : option Z; ipc_Address : IPNet; ipc_Gateway : netIP }.
Record CNIRoute := mkCNIRoute { cr_Dst : IPNet; cr_GW : netIP }.
Record CNIResult := mkCNIResult { res_IPs : list IPConfig; res_Interfaces : list string; res_Routes : list CNIRoute }.

Definition IsDefaultRoute (route : Route) (family : Z) : bool :=
  let defaultDstString := if family =? FAMILY_V6 then "::/0" else "0.0.0.0/0" in
  match rt_Dst route with
  | None => true
  | Some dst => bool_decide (IPNet_String dst = defaultDstString)
  end.

Fixpoint ip_list_string (acc : string) (addrList : list Addr) : string :=
  match addrList with
  | [] => acc
  | addr :: l =>
      let s := IP_String (IPNet_IP (addr_IPNet addr)) in
      ip_list_string (if decide (acc = "") then s else acc +:+ "," +:+ s) l
  end.
Definition GenerateIPListString (addrList : list Addr) : string := ip_list_string "" addrList.

(** ** Calls of the kernel *)

Section kernel.
Context {K : Type} `{Netlink K} `{OS K} `{NetPkg K} `{CNIHost K}.

(** Any error of the second [LinkByName] counts as a missing interface. *)
Definition EnsureVlanIf (nodeIfName : string) (vlanID : option Z) : M K string :=
  nodeIf ← LinkByName nodeIfName;
  vlanIfName ← lift (wrap_outcome (Wrapf "failed to ensure bridge: %v" []) (GenerateVlanNetIfName nodeIfName vlanID));
  found ← attempt (LinkByName vlanIfName);
  match found with
  | inl vlanIf => LinkSetUp vlanIf;; mret vlanIfName
  | inr _ =>
      if decide (vlanIfName = nodeIfName) then mret vlanIfName
      else
        id ← lift (deref vlanID);
        LinkAdd (mkLink 0 vlanIfName "vlan" [] false (link_Index nodeIf) id None 0);;
        vlanIf ← LinkByName vlanIfName;
        LinkSetUp vlanIf;;
        mret vlanIfName
  end.

Definition GetDefaultRoute (family : Z) : M K Route :=
  routes ← RouteList None family;
  match List.find (λ route, IsDefaultRoute route family) routes with
  | Some route => mret route
  | None => fail NotExist
  end.

Definition GetDefaultInterface (family : Z) : M K Interface :=
  defaultRoute ← GetDefaultRoute family;
  if rt_LinkIndex defaultRoute <=? 0 then fail (errors_New "found ipv4 default route but could not determine interface")
  else wrap (Wrapf "failed to get interface %v" []) (InterfaceByIndex (rt_LinkIndex defaultRoute)).

(** The loop over the names. *)
Fixpoint first_interface (ifList : list string) : M K (option Interface) :=
  match ifList with
  | [] => mret None
  | iF :: ifList =>
      if decide (iF = "") then first_interface ifList
      else
        found ← attempt (InterfaceByName iF);
        match found with inl iif => mret (Some iif) | inr _ => first_interface ifList end
  end.

Definition GetInterfaceByPreferString (preferString : string) : M K Interface :=
  found ← first_interface (Split preferString ",");
  match found with
  | Some iif => mret iif
  | None => fail (Errorf "no valid interface found by prefer string %v" [preferString])
  end.

Definition EnableIPForward (family : Z) : M K unit :=
  if family =? FAMILY_V4 then EnableIP4Forward else EnableIP6Forward.

Definition ListAllAddress (link : Link) : M K (list Addr) :=
  ipv4AddrList ← wrap (Wrapf "failed to list ipv4 address for link %v: %v" [link_Name link]) (AddrList (Some link) FAMILY_V4);
  ipv6AddrList ← wrap (Wrapf "failed to list ipv6 address for link %v: %v" [link_Name link]) (AddrList (Some link) FAMILY_V6);
  let global := List.filter (λ addr, CheckIPIsGlobalUnicast (IPNet_IP (addr_IPNet addr))) in
  mret (global ipv4AddrList ++ global ipv6AddrList).

Definition CheckPodRuleExist (podCidr : IPNet) (family : Z) : M K (bool * Z) :=
  ruleList ← wrap (Wrapf "failed to list rule: %v" []) (RuleList family);
  match List.find (λ rule, match ru_Src rule with
                           | Some src => bool_decide (IPNet_String podCidr = IPNet_String src)
                           | None => false
                           end) ruleList with
  | Some rule => mret (true, ru_Table rule)
  | None => mret (false, 0)
  end.

Definition CheckDefaultRouteExist (table family : Z) : M K bool :=
  routeList ← wrap (λ _, Errorf "failed to list route for table %v" [pretty table])
    (RouteListFiltered family (mkRoute 0 None [] [] table 0 0 0) [RT_FILTER_TABLE]);
  mret (existsb (λ route, IsDefaultRoute route family) routeList).

Definition CheckPodNeighExist (podIP : netIP) (forwardNodeIfIndex family : Z) : M K bool :=
  neighList ← wrap (Wrapf "failed to list neighs for forward node if index %v: %v" [pretty forwardNodeIfIndex])
    (NeighProxyList forwardNodeIfIndex family);
  mret (existsb (λ neigh, IP_Equal (nb_IP neigh) podIP) neighList).

Definition AddRoute (ipn : IPNet) (gw : netIP) (dev : Link) : M K unit :=
  RouteAdd (mkRoute (link_Index dev) (Some ipn) gw [] 0 SCOPE_UNIVERSE FLAG_ONLINK 0).

Definition SetSysctl (sysctlPath : string) (newVal : Z) : M K unit := WriteFile sysctlPath (pretty newVal).

Definition SetSysctlIgnoreNotExist (sysctlPath : string) (newVal : Z) : M K unit :=
  written ← attempt (WriteFile sysctlPath (pretty newVal));
  match written with
  | inr err => if IsNotExist err then mret tt else fail err
  | inl _ => mret tt
  end.

(** [strings.Trim(_, " \n")] *)
Fixpoint trim_left (s : string) : string :=
  match s with
  | String c s' => if decide (c = " "%char ∨ c = "010"%char) then trim_left s' else s
  | EmptyString => s
  end.
Fixpoint trim_right (s : string) : string :=
  match s with
  | EmptyString => ""
  | String c s => let t := trim_right s in
                  if decide (t = "" ∧ (c = " "%char ∨ c = "010"%char)) then "" else String c t
  end.

Definition GetSysctl (sysctlPath : string) : M K Z :=
  data ← ReadFile sysctlPath;
  match Atoi (trim_right (trim_left data)) with
  | Some val => mret val
  | None => fail (errors_New "invalid syntax")
  end.

(** One of the three thresholds. *)
Definition set_thresh (path : string) (v : Z) : M K unit :=
  wrap (Wrapf "error set: %s sysctl path to %v, error: %v" [path; pretty v]) (SetSysctl path v).

Definition EnsureNeighGCThresh (family neighGCThresh1 neighGCThresh2 neighGCThresh3 : Z) : M K unit :=
  if family =? FAMILY_V4 then
    set_thresh IPv4NeighGCThresh1 neighGCThresh1;;
    set_thresh IPv4NeighGCThresh2 neighGCThresh2;;
    set_thresh IPv4NeighGCThresh3 neighGCThresh3
  else
    set_thresh IPv6NeighGCThresh1 neighGCThresh1;;
    set_thresh IPv6NeighGCThresh2 neighGCThresh2;;
    set_thresh IPv6NeighGCThresh3 neighGCThresh3.

Definition CheckIPv6GlobalDisabled : M K bool :=
  moduleDisableVar ← GetSysctl IPv6DisableModuleParameter;
  if moduleDisableVar =? 1 then mret true
  else
    sysctlGlobalDisableVar ← GetSysctl (IPv6DisableSysctl "all");
    mret (sysctlGlobalDisableVar =? 1).

Definition CheckIPv6Disabled (nicName : string) : M K bool :=
  globalDisabled ← CheckIPv6GlobalDisabled;
  if globalDisabled : bool then mret true
  else
    sysctlDisableVar ← GetSysctl (IPv6DisableSysctl nicName);
    mret (sysctlDisableVar =? 1).

(** ** File systems *)

Definition ValidDockerNetnsDir (path : string) : M K bool :=
  found ← attempt (Stat (path +:+ "/default"));
  mret (match found with inl _ => true | inr _ => false end).

(** An error of [Statfs] is a panic. *)
Definition IsFs (path : string) (magic : Z) : M K bool :=
  stat ← attempt (Statfs path);
  match stat with inl type => mret (type =? magic) | inr _ => panic end.

Definition is_fs (magic : Z) (path : string) : M K bool :=
  found ← attempt (Stat path);
  match found with
  | inr err => if IsNotExist err then mret false else IsFs path magic
  | inl _ => IsFs path magic
  end.
Definition IsProcFS : string → M K bool := is_fs PROCFS_MAGIC.
Definition IsNsFS : string → M K bool := is_fs NSFS_MAGIC.

(** ** ConfigureIface *)

(** The first IPv6 address clears the switches; a value that cannot be read
    is left alone. *)
Definition enable_ipv6 (ifName : string) : M K unit :=
  each (λ iface,
    let name := "net.ipv6.conf." +:+ iface +:+ ".disable_ipv6" in
    read ← attempt (Sysctl name);
    match read with
    | inr _ => mret tt
    | inl value =>
        if decide (value = "0") then mret tt
        else wrap (Wrapf "failed to enable IPv6 for interface %q (%s=%s): %v" [iface; name; value]) (Sysctl_write name "0")
    end) ["lo"; ifName].

(** The loop over the addresses: the gateways found, and whether IPv6 was
    enabled. *)
Fixpoint configure_ips (ifName : string) (link : Link) (interfaces : list string) (enabled : bool) (v4gw v6gw : netIP)
    (ips : list IPConfig) : M K (netIP * netIP) :=
  match ips with
  | [] => mret (v4gw, v6gw)
  | ipc :: ips =>
      match ipc_Interface ipc with
      | None => configure_ips ifName link interfaces enabled v4gw v6gw ips
      | Some intIdx =>
          if decide (intIdx < 0 ∨ interfaces !! Z.to_nat intIdx ≠ Some ifName) then
            fail (Errorf "failed to add IP addr %v to %q: invalid interface index" [ifName])
          else
            let version6 := bool_decide (ipc_Version ipc = "6") in
            (if negb enabled && version6 then enable_ipv6 ifName else mret tt);;
            wrap (Wrapf "failed to add IP addr %v to %q: %v" [ifName])
              (AddrAdd link (mkAddr (ipc_Address ipc) "" IFA_F_NOPREFIXROUTE));;
            let gw := ipc_Gateway ipc in
            let gwIsV4 := negb (bool_decide (To4 gw = [])) in
            configure_ips ifName link interfaces (enabled || version6)
              (if gwIsV4 && bool_decide (v4gw = []) then gw else v4gw)
              (if negb gwIsV4 && bool_decide (v6gw = []) then gw else v6gw) ips
      end
  end.

(** The gateway of a route without one. *)
Definition route_gateway (v4gw v6gw : netIP) (r : CNIRoute) : netIP :=
  if decide (cr_GW r = []) then
    if decide (To4 (IPNet_IP (cr_Dst r)) = []) then v6gw else v4gw
  else cr_GW r.

Definition ConfigureIface (ifName : string) (res : CNIResult) : M K unit :=
  if decide (res_Interfaces res = []) then fail (Errorf "no interfaces to configure" [])
  else
    link ← wrap (Wrapf "failed to lookup %q: %v" [ifName]) (LinkByName ifName);
    wrap (Wrapf "failed to set %q UP: %v" [ifName]) (LinkSetUp link);;
    gws ← configure_ips ifName link (res_Interfaces res) false [] [] (res_IPs res);
    (if decide (gws.2 = []) then mret tt
     else wrap (Wrapf "failed to settle address on %s: %v" [ifName]) (SettleAddresses ifName 10));;
    each (λ r,
      added ← attempt (AddRoute (cr_Dst r) (route_gateway gws.1 gws.2 r) link);
      match added with
      | inl _ => mret tt
      | inr err => if IsExist err then mret tt else fail (Wrapf "failed to add route '%v via %v dev %v': %v" [ifName] err)
      end) (res_Routes res).
End kernel.
