(* ===== verification/BGP.v ===== *)
(** * BGP (pkg/daemon/bgp)

    A manager records peers, subnets and addresses and makes the gobgp server
    of the node advertise exactly those.  The manager is the state of the
    monad together with the state [K] of the system; the server is the class
    [BgpServer] (github.com/osrg/gobgp).  Every method of the manager that
    takes [startMutex] holds it from its first to its last step. *)

From stdpp Require Import pretty.
From S2P Require Import Prelude GoNet GoStrings NetBlock NetText Utils Netlink DaemonUtils.

Local Open Scope Z_scope.

Definition uint32 (z : Z) : Z := z mod 2 ^ 32.

(** ** Messages of the server's API

    [apb.New] packs a message; the packed message is the message. *)

Record Family := mkFamily { Afi : string; Safi : string }.
Definition v4Family : Family := mkFamily "AFI_IP" "SAFI_UNICAST".
Definition v6Family : Family := mkFamily "AFI_IP6" "SAFI_UNICAST".

Record IPAddressPrefix := mkIPAddressPrefix { Prefix : string; PrefixLen : Z }.

Inductive PathAttribute :=
  | OriginAttribute (origin : Z)
  | CommunitiesAttribute (communities : list Z)
  | NextHopAttribute (nextHop : string)
  | MpReachNLRIAttribute (family : Family) (nextHops : list string) (nlris : list IPAddressPrefix).

Record Path := mkPath { path_Family : Family; Nlri : IPAddressPrefix; Pattrs : list PathAttribute }.

#[export] Instance Family_eq_dec : EqDecision Family.
Proof. solve_decision. Defined.
#[export] Instance IPAddressPrefix_eq_dec : EqDecision IPAddressPrefix.
Proof. solve_decision. Defined.
#[export] Instance PathAttribute_eq_dec : EqDecision PathAttribute.
Proof. solve_decision. Defined.
#[export] Instance Path_eq_dec : EqDecision Path.
Proof. solve_decision. Defined.

(** What the server lists: the paths of a destination by the addresses of the
    neighbours that they come from; a peer by its address and whether its
    session is established. *)
Record Destination := mkDestination { dest_Prefix : string; NeighborIps : list string }.

Record AfiSafi := mkAfiSafi { as_Family : Family; as_Enabled : bool; MpGracefulRestart_Enabled : bool }.

Record Peer := mkPeer {
  NeighborAddress : string; PeerAsn : Z; AuthPassword : string;
  GracefulRestart_Enabled : bool; RestartTime : Z; DeferralTime : Z; LocalRestarting : bool;
  AfiSafis : list AfiSafi
}.

Class BgpServer (K : Type) : Type := {
  StartBgp : Z → string → M K unit;
  AddPeer : Peer → M K unit;
  DeletePeer : string → M K unit;
  ListPeer : M K (list (string * bool));
  AddPath : option Path → M K unit;
  DeletePath : option Path → M K unit;
  ListPath : Family → M K (list Destination)
}.

(** ** utils.go *)

(** The community NO_EXPORT of RFC 1997. *)
Definition COMMUNITY_NO_EXPORT : Z := 4294967041.
Definition originAttr : PathAttribute := OriginAttribute 0.
Definition noExportCommunityAttr : PathAttribute := CommunitiesAttribute [uint32 COMMUNITY_NO_EXPORT].

Record peerInfo := mkPeerInfo { pi_address : string; pi_asn : Z; gracefulRestartSeconds : Z; pi_password : string }.

Definition generatePeerConfig (p : peerInfo) : Peer :=
  mkPeer (pi_address p) (uint32 (pi_asn p)) (pi_password p) true (gracefulRestartSeconds p) 1 true
    [mkAfiSafi v4Family true true; mkAfiSafi v6Family true true].

Definition getIPFamilyFromIP (ip : netIP) : Family := if decide (To4 ip = []) then v6Family else v4Family.

Definition generateNextHopAttr (isIPv6 : bool) (nextHop : string) (nlri : IPAddressPrefix) : PathAttribute :=
  if isIPv6 then MpReachNLRIAttribute v6Family [nextHop] [nlri] else NextHopAttribute nextHop.

Definition generatePathForIP (ip nextHop : netIP) : option Path :=
  if decide (length ip = 0%nat) then None
  else
    let isIPv6 := bool_decide (To4 ip = []) in
    let prefixBytesLen := if isIPv6 then 16 else 4 in
    let nlri := mkIPAddressPrefix (IP_String ip) (uint32 (prefixBytesLen * 8)) in
    Some (mkPath (getIPFamilyFromIP ip) nlri
      [generateNextHopAttr isIPv6 (IP_String nextHop) nlri; originAttr; noExportCommunityAttr]).

Definition generatePathForSubnet (subnet : option IPNet) (nextHop : netIP) : option Path :=
  match subnet with
  | None => None
  | Some subnet =>
      let prefixLen := (Mask_Size (IPNet_Mask subnet)).1 in
      let nlri := mkIPAddressPrefix (IP_String (IPNet_IP subnet)) (uint32 prefixLen) in
      Some (mkPath (getIPFamilyFromIP (IPNet_IP subnet)) nlri
        [generateNextHopAttr (bool_decide (To4 (IPNet_IP subnet) = [])) (IP_String nextHop) nlri; originAttr])
  end.

(** The maps that the list function fills; a nil map is [None].  A destination
    has a path, or the access of the first one panics; a prefix that cannot be
    parsed is logged. *)
Record Exist := mkExist { existSubnetPathMap : option (gmap string IPNet); existIPPathMap : option (gmap string netIP) }.

Definition generatePathListFunc (e : Exist) (p : Destination) : outcome Exist :=
  neighborIp ← deref (NeighborIps p !! 0%nat);
  if decide (neighborIp = "<nil>") then
    match ParseCIDR (dest_Prefix p) with
    | None => Ret e
    | Some (ipAddr, cidr) =>
        let '(ones, bits) := Mask_Size (IPNet_Mask cidr) in
        if decide (ones = bits) then
          Ret (mkExist (existSubnetPathMap e) (<[IP_String ipAddr := ipAddr]> <$> existIPPathMap e))
        else
          Ret (mkExist (<[dest_Prefix p := mkIPNet ipAddr (IPNet_Mask cidr)]> <$> existSubnetPathMap e) (existIPPathMap e))
    end
  else Ret e.

(** ** bgp.go *)

Record Manager := mkManager {
  localASN : Z;
  peeringInterfaceName : string;
  routerID : string;
  routerV4Address : netIP;
  routerV6Address : netIP;
  peerMap : gmap string peerInfo;
  subnetMap : gmap string IPNet;
  ipMap : gmap string netIP
}.

(** The choice of the addresses of the router among those of the interface:
    [addr_IPNet] has the address and its network. *)
Definition by_default_route (v4 v6 : option Route) (st : netIP * netIP) (addr : Addr) : netIP * netIP :=
  let ip := IPNet_IP (addr_IPNet addr) in
  let reaches (r : Route) := IP_Equal ip (rt_Src r) || IPNet_Contains (addr_IPNet addr) (rt_Gw r) in
  (match v4 with Some r => if reaches r then ip else st.1 | None => st.1 end,
   match v6 with Some r => if reaches r then ip else st.2 | None => st.2 end).

(** The loop of the case of two addresses of different families. *)
Definition by_family (st : netIP * netIP) (addr : Addr) : netIP * netIP :=
  let ip := IPNet_IP (addr_IPNet addr) in
  (ip, if decide (To4 ip = []) then ip else st.2).

Section bgp.
Context {K : Type} `{Netlink K} `{OS K} `{BgpServer K}.

Definition default_route (family : Z) (message : string) : M K (option Route) :=
  found ← attempt (GetDefaultRoute family);
  match found with
  | inl r => mret (Some r)
  | inr err => if decide (err = NotExist) then mret None else fail (Wrapf message [] err)
  end.

Definition choose_router (existLinkAddress : list Addr) : M K (string * netIP * netIP) :=
  let ip (a : Addr) := IPNet_IP (addr_IPNet a) in
  let by_routes :=
    defaultV4Route ← default_route FAMILY_V4 "failed to get v4 default route: %v";
    defaultV6Route ← default_route FAMILY_V6 "failed to get v6 default route: %v";
    let '(v4, v6) := fold_left (by_default_route defaultV4Route defaultV6Route) existLinkAddress ([], []) in
    if decide (v4 = [] ∧ v6 = []) then fail (Errorf "failed to find valid address for bgp router" [])
    else mret (if decide (v4 = []) then IP_String v6 else IP_String v4, v4, v6) in
  match existLinkAddress with
  | [] => fail (Errorf "there is no valid address on bpg peering interface" [])
  | [a] => mret (if decide (To4 (ip a) = []) then (IP_String (ip a), [], ip a) else (IP_String (ip a), ip a, []))
  | [a; b] =>
      if decide (bool_decide (To4 (ip a) = []) ≠ bool_decide (To4 (ip b) = [])) then
        let '(v4, v6) := fold_left by_family existLinkAddress ([], []) in
        mret (IP_String v4, v4, v6)
      else by_routes
  | _ => by_routes
  end.

Definition NewManager (peeringInterfaceName : string) : M K Manager :=
  peeringLink ← wrap (Wrapf "failed to get bgp peering link %v: %v" [peeringInterfaceName]) (LinkByName peeringInterfaceName);
  existLinkAddress ← wrap (Wrapf "failed to get link address for bgp peering interface %v: %v" [peeringInterfaceName])
    (ListAllAddress peeringLink);
  router ← choose_router existLinkAddress;
  let '(id, v4, v6) := router in
  mret (mkManager 0 peeringInterfaceName id v4 v6 ∅ ∅ ∅).

Definition set_maps (m : Manager) peers subnets ips : Manager :=
  mkManager (localASN m) (peeringInterfaceName m) (routerID m) (routerV4Address m) (routerV6Address m) peers subnets ips.

Definition RecordPeer (address password : string) (asn gracefulRestartTime : Z) (m : Manager) : Manager :=
  let gracefulRestartTime := if gracefulRestartTime =? 0 then 300 else gracefulRestartTime in
  set_maps m (<[address := mkPeerInfo address asn (uint32 gracefulRestartTime) password]> (peerMap m)) (subnetMap m) (ipMap m).

Definition RecordSubnet (cidr : IPNet) (m : Manager) : Manager :=
  set_maps m (peerMap m) (<[IPNet_String cidr := cidr]> (subnetMap m)) (ipMap m).

Definition RecordIP (ip : netIP) (m : Manager) : Manager :=
  set_maps m (peerMap m) (subnetMap m) (<[IP_String ip := ip]> (ipMap m)).

Definition ResetSubnetInfos (m : Manager) : Manager := set_maps m (peerMap m) ∅ (ipMap m).
Definition ResetPeerInfos (m : Manager) : Manager := set_maps m ∅ (subnetMap m) (ipMap m).
Definition ResetPeerAndSubnetInfos (m : Manager) : Manager := ResetSubnetInfos (ResetPeerInfos m).
Definition ResetIPInfos (m : Manager) : Manager := set_maps m (peerMap m) (subnetMap m) ∅.

Definition on_kernel {A} (c : M K A) : M (Manager * K) A := zoom (λ s, Some s.2) (λ k s, (s.1, k)) c.

Definition TryStart (asn : Z) : M (Manager * K) unit :=
  m ← gets fst;
  if negb (localASN m =? 0) then
    if negb (localASN m =? asn) then
      fail (Errorf "can not restart bgp manager (local AS number: %v) with a different AS number %v" [pretty (localASN m); pretty asn])
    else mret tt
  else
    modify (λ s, (mkManager asn (peeringInterfaceName m) (routerID m) (routerV4Address m) (routerV6Address m)
                    (peerMap m) (subnetMap m) (ipMap m), s.2));;
    on_kernel (StartBgp asn (routerID m)).

Definition CheckIfStart (m : Manager) : bool := negb (localASN m =? 0).

(** The map is used as a set. *)
Definition listRemoteBGPPeers (filterFunc : string * bool → bool) : M K (gset string) :=
  peers ← wrap (Wrapf "failed to list bgp peers: %v" []) ListPeer;
  mret (list_to_set (map fst (List.filter filterFunc peers))).

Definition listExistPath (e : Exist) : M K Exist :=
  paths ← wrap (Wrapf "failed to list ipv4 path: %v" [])
    (dests ← ListPath v4Family; lift (for_each generatePathListFunc e dests));
  wrap (Wrapf "failed to list ipv6 path: %v" [])
    (dests ← ListPath v6Family; lift (for_each generatePathListFunc paths dests)).

Definition getNextHopAddressByIP (m : Manager) (ipAddr : netIP) : outcome netIP :=
  if decide (To4 ipAddr = []) then
    if decide (routerV6Address m = []) then Fail (Errorf "router has no valid v6 nexthop address" [])
    else Ret (routerV6Address m)
  else if decide (routerV4Address m = []) then Fail (Errorf "router has no valid v4 nexthop address" [])
  else Ret (routerV4Address m).

(** An address without a next hop is logged and skipped. *)
Definition with_next_hop (m : Manager) (ipAddr : netIP) (f : netIP → M K unit) : M K unit :=
  match getNextHopAddressByIP m ipAddr with
  | Ret nextHop => f nextHop
  | _ => mret tt
  end.

(** The orders in which the maps are visited are arguments: [order] for the
    recorded map, [exist_order] for the existing one. *)
Definition SyncPeerInfos (order : list peerInfo) (exist_order : list string → list string) (m : Manager) : M K unit :=
  if negb (CheckIfStart m) then mret tt
  else
    existPeerMap ← wrap (Wrapf "failed to list all bgp peers: %v" []) (listRemoteBGPPeers (λ _, true));
    if localASN m =? 0 then mret tt
    else
      each (λ peer : peerInfo,
        if decide (pi_address peer ∈ existPeerMap) then mret tt
        else wrap (Wrapf "failed to add bgp peer %v: %v" [pi_address peer]) (AddPeer (generatePeerConfig peer))) order;;
      each (λ addr, match peerMap m !! addr with
                    | Some _ => mret tt
                    | None => wrap (Wrapf "failed to add bgp peer %v: %v" [addr]) (DeletePeer addr)
                    end) (exist_order (elements existPeerMap)).

Definition SyncSubnetInfos (order : list IPNet) (exist_order : list (string * IPNet) → list (string * IPNet)) (m : Manager) : M K unit :=
  if negb (CheckIfStart m) then mret tt
  else
    e ← wrap (Wrapf "failed to list exist subnet paths: %v" []) (listExistPath (mkExist (Some ∅) None));
    let exist := default ∅ (existSubnetPathMap e) in
    each (λ subnet, with_next_hop m (IPNet_IP subnet) (λ nextHop,
      match exist !! IPNet_String subnet with
      | Some _ => mret tt
      | None => wrap (Wrapf "failed to add path for subnet %v: %v" [IPNet_String subnet]) (AddPath (generatePathForSubnet (Some subnet) nextHop))
      end)) order;;
    each (λ '(prefix, cidr), with_next_hop m (IPNet_IP cidr) (λ nextHop,
      match subnetMap m !! prefix with
      | Some _ => mret tt
      | None => wrap (Wrapf "failed to delete path for subnet %v: %v" [prefix]) (DeletePath (generatePathForSubnet (Some cidr) nextHop))
      end)) (exist_order (map_to_list exist)).

Definition SyncPeerAndSubnetInfos peer_order exist_peer_order order exist_order (m : Manager) : M K unit :=
  SyncPeerInfos peer_order exist_peer_order m;;
  SyncSubnetInfos order exist_order m.

Definition SyncIPInfos (order : list netIP) (exist_order : list (string * netIP) → list (string * netIP)) (m : Manager) : M K unit :=
  if negb (CheckIfStart m) then mret tt
  else
    e ← wrap (Wrapf "failed to list exist ip paths: %v" []) (listExistPath (mkExist None (Some ∅)));
    let exist := default ∅ (existIPPathMap e) in
    each (λ ipInstance, with_next_hop m ipInstance (λ nextHop,
      match exist !! IP_String ipInstance with
      | Some _ => mret tt
      | None => wrap (Wrapf "failed to add path for ip instance %v: %v" [IP_String ipInstance]) (AddPath (generatePathForIP ipInstance nextHop))
      end)) order;;
    each (λ kv, with_next_hop m kv.2 (λ nextHop,
      match ipMap m !! IP_String kv.2 with
      | Some _ => mret tt
      | None => wrap (Wrapf "failed to delete path for ip instance %v: %v" [IP_String kv.2]) (DeletePath (generatePathForIP kv.2 nextHop))
      end)) (exist_order (map_to_list exist)).

Definition CheckIfIPInfoPathAdded (ipAddr : netIP) : M K bool :=
  e ← wrap (Wrapf "failed to list exist ip paths: %v" []) (listExistPath (mkExist None (Some ∅)));
  mret (bool_decide (is_Some (default ∅ (existIPPathMap e) !! IP_String ipAddr))).

Definition CheckEstablishedRemotePeerExists : M K bool :=
  establishedPeerMap ← wrap (Wrapf "failed to list all the established bgp peers: %v" []) (listRemoteBGPPeers snd);
  mret (negb (bool_decide (establishedPeerMap = ∅))).
End bgp.
