(* ===== verification/BGPSync.v ===== *)
(** * A synchronisation makes the server advertise what was recorded *)

From Stdlib Require Import Ascii.
From stdpp Require Import pretty.
From S2P Require Import Prelude GoNet GoStrings NetBlock NetText Utils Netlink DaemonUtils BGP.

Local Open Scope Z_scope.

(** ** What the server does

    The paths that the node itself advertises, by their prefixes, and the
    addresses of the peers. *)

Definition prefix_text (p : IPAddressPrefix) : string := Prefix p +:+ "/" +:+ pretty (PrefixLen p).

(** The list of a family has the local prefixes of the family, and every
    destination has a path. *)
Definition lists (f : Family) (v : gmap string Path) (dests : list Destination) : Prop :=
  Forall (λ d, NeighborIps d ≠ []) dests ∧
  ∀ p, (∃ d, d ∈ dests ∧ dest_Prefix d = p ∧ NeighborIps d !! 0%nat = Some "<nil>") ↔ (∃ path, v !! p = Some path ∧ path_Family path = f).

Class BgpLaws {K : Type} `{BgpServer K} : Type := {
  local_paths : K → gmap string Path;
  ListPath_law f k : post (ListPath f) k (λ o k', local_paths k' = local_paths k ∧ match o with
    | Ret dests => lists f (local_paths k) dests
    | Fail _ => True
    | _ => False
    end);
  AddPath_law p k : post (AddPath (Some p)) k (λ o k', match o with
    | Ret _ => local_paths k' = <[prefix_text (Nlri p) := p]> (local_paths k)
    | Fail _ => local_paths k' = local_paths k
    | _ => False
    end);
  DeletePath_law p k : post (DeletePath (Some p)) k (λ o k', match o with
    | Ret _ => local_paths k' = delete (prefix_text (Nlri p)) (local_paths k)
    | Fail _ => local_paths k' = local_paths k
    | _ => False
    end)
}.

(** ** Adding the missing and deleting the redundant paths

    The items [X] are addresses or networks.  [key] names an item in the
    recorded map, [pre] is its prefix on the server, [hop] its next hop. *)

Section reconcile.
Context {K : Type} `{BgpServer K} {L : BgpLaws}.
Context {X : Type} (key pre : X → string) (hop : X → option netIP) (path : X → netIP → Path) (ok : X → Prop).
Context (Hpath : ∀ x nh, ok x → prefix_text (Nlri (path x nh)) = pre x).
Context (Hkey : ∀ x y, ok x → ok y → pre x = pre y ↔ key x = key y).
Context (Hhop : ∀ x y, ok x → ok y → key x = key y → hop x = hop y).
Context (wanted exist : gmap string X) (v : gmap string Path).
Context (Hwanted : ∀ n x, wanted !! n = Some x → ok x ∧ key x = n).
Context (Hexist : ∀ n x, exist !! n = Some x → ok x ∧ key x = n).
Context (Hv : ∀ x, ok x → is_Some (exist !! key x) ↔ is_Some (v !! pre x)).

Definition add_missing (e : string → error → error) (x : X) : M K unit :=
  match hop x with
  | None => mret tt
  | Some nh => match exist !! key x with
               | Some _ => mret tt
               | None => wrap (e (key x)) (AddPath (Some (path x nh)))
               end
  end.

Definition delete_redundant (e : string → error → error) (x : X) : M K unit :=
  match hop x with
  | None => mret tt
  | Some nh => match wanted !! key x with
               | Some _ => mret tt
               | None => wrap (e (key x)) (DeletePath (Some (path x nh)))
               end
  end.

(** The path of a prefix afterwards: the recorded items are there, with the
    path that was there before if there was one; the others are not. *)
Definition settled (v' : gmap string Path) (x : X) : Prop :=
  ∀ nh, hop x = Some nh →
    v' !! pre x = match wanted !! key x with Some y => Some (default (path y nh) (v !! pre x)) | None => None end.

Definition untouched (v' : gmap string Path) (p : string) : Prop := v' !! p = v !! p.

Definition foreign (p : string) : Prop := ∀ x, ok x → is_Some (hop x) → p ≠ pre x.

(** After the first loop up to [xs]. *)
Record adding (xs : list X) (k : K) : Prop := {
  ad_done x : ok x → key x ∈ map key xs → settled (local_paths k) x;
  ad_todo x : ok x → key x ∉ map key xs → untouched (local_paths k) (pre x);
  ad_foreign p : foreign p → untouched (local_paths k) p
}.

(** The prefixes of the items are as before or settled, others as before. *)
Definition between (k : K) : Prop :=
  (∀ x, ok x → untouched (local_paths k) (pre x) ∨ settled (local_paths k) x) ∧
  ∀ p, foreign p → untouched (local_paths k) p.

Lemma adding_between xs k : adding xs k → between k.
Proof.
  intros [H1 H2 H3]. split; [|done]. intros x Hx. destruct (decide (key x ∈ map key xs)); [right|left]; auto.
Qed.

(** A step that changes at most the path of [x] and settles it. *)
Lemma adding_step xs x k k' :
  ok x → adding xs k → (∀ p, p ≠ pre x → local_paths k' !! p = local_paths k !! p) → settled (local_paths k') x →
  (hop x = None → local_paths k' = local_paths k) → adding (xs ++ [x]) k'.
Proof.
  intros Hok A Hother Hset Hnone. split.
  - intros y Hy. rewrite map_app, elem_of_app. intros Hin. destruct (decide (key y = key x)) as [Ek|Ek].
    + intros nh Hnh. rewrite (proj2 (Hkey y x Hy Hok) Ek), Ek. apply Hset. by rewrite <-(Hhop y x).
    + intros nh Hnh. rewrite Hother by (by rewrite Hkey). apply (ad_done _ _ A); [done| |done]. set_solver.
  - intros y Hy. rewrite map_app, not_elem_of_app. intros [Hn Hnx]. unfold untouched. rewrite Hother; [by apply (ad_todo _ _ A)|].
    rewrite Hkey by done. set_solver.
  - intros p Hp. unfold untouched. destruct (hop x) as [nh|] eqn:Eh; [|rewrite Hnone by done; by apply (ad_foreign _ _ A)].
    rewrite Hother; [by apply (ad_foreign _ _ A)|]. apply Hp; [done|by rewrite Eh].
Qed.

Lemma add_step e xs x k :
  wanted !! key x = Some x → adding xs k →
  post (add_missing e x) k (λ o k', match o with Ret _ => adding (xs ++ [x]) k' | Fail _ => between k' | _ => False end).
Proof.
  intros Hx A. destruct (Hwanted _ _ Hx) as [Hok _]. unfold add_missing. destruct (hop x) as [nh|] eqn:Eh.
  2: { apply post_ret. apply (adding_step xs x k k Hok A); [done| |done]. intros nh Hnh. congruence. }
  destruct (exist !! key x) as [y|] eqn:Ee.
  - apply post_ret. apply (adding_step xs x k k Hok A); [done| |done].
    destruct (decide (key x ∈ map key xs)) as [Hin|Hin]; [by apply (ad_done _ _ A)|]. intros nh' Hnh'.
    rewrite (ad_todo _ _ A x Hok Hin), Hx. destruct (proj1 (Hv x Hok)) as [q Hq]; [by rewrite Ee|]. by rewrite Hq.
  - assert (v !! pre x = None) as Hvx.
    { apply eq_None_not_Some. rewrite <-(Hv x Hok), Ee. by intros [? ?]. }
    apply post_wrap. eapply post_mono; [apply AddPath_law|]. intros [[]|e'| |] k' Hk; [| |done..].
    + rewrite Hpath in Hk by done. apply (adding_step xs x k k' Hok A); rewrite ?Hk; [| |congruence].
      * intros p Hp. by rewrite lookup_insert_ne.
      * intros nh' Hnh'. rewrite lookup_insert_eq, Hx, Hvx. cbn. congruence.
    + assert (between k) as B by (by eapply adding_between). unfold between, settled, untouched in *. by rewrite Hk.
Qed.

(** All recorded items are settled; the deletion has reached [ys]. *)
Record deleting (ys : list X) (k : K) : Prop := {
  de_wanted x : ok x → is_Some (wanted !! key x) → settled (local_paths k) x;
  de_done x : ok x → wanted !! key x = None → key x ∈ map key ys → settled (local_paths k) x;
  de_todo x : ok x → wanted !! key x = None → key x ∉ map key ys → untouched (local_paths k) (pre x);
  de_foreign p : foreign p → untouched (local_paths k) p
}.

Lemma deleting_between ys k : deleting ys k → between k.
Proof.
  intros [H1 H2 H3 H4]. split; [|done]. intros x Hx. destruct (wanted !! key x) eqn:Ew; [right; apply H1; eauto|].
  destruct (decide (key x ∈ map key ys)); [right|left]; auto.
Qed.

Lemma added_deleting order k : order ≡ₚ map snd (map_to_list wanted) → adding order k → deleting [] k.
Proof.
  intros Ho A. assert (∀ n, n ∈ map key order ↔ is_Some (wanted !! n)) as Hin.
  { intros n. rewrite list_elem_of_fmap. split.
    - intros (x & -> & Hx). rewrite Ho, list_elem_of_fmap in Hx. destruct Hx as ([m y] & -> & Hy). apply elem_of_map_to_list in Hy.
      destruct (Hwanted _ _ Hy) as [_ <-]. cbn. by rewrite Hy.
    - intros [x Hx]. exists x. destruct (Hwanted _ _ Hx) as [_ <-]. split; [done|]. rewrite Ho, list_elem_of_fmap.
      exists (key x, x). split; [done|]. by apply elem_of_map_to_list. }
  split.
  - intros x Hx Hw. apply (ad_done _ _ A); [done|by rewrite Hin].
  - intros x _ _ H'. by apply elem_of_nil in H'.
  - intros x Hx Hw _. apply (ad_todo _ _ A); [done|]. rewrite Hin, Hw. by intros [? ?].
  - apply (ad_foreign _ _ A).
Qed.

Lemma deleting_step ys x k k' :
  ok x → deleting ys k → (∀ p, p ≠ pre x → local_paths k' !! p = local_paths k !! p) → settled (local_paths k') x →
  (hop x = None → local_paths k' = local_paths k) → (is_Some (wanted !! key x) → local_paths k' = local_paths k) → deleting (ys ++ [x]) k'.
Proof.
  intros Hok A Hother Hset Hnone Hw. split.
  - intros y Hy Hwy nh Hnh. destruct (decide (key y = key x)) as [Ek|Ek].
    + rewrite (proj2 (Hkey y x Hy Hok) Ek), Ek. apply Hset. by rewrite <-(Hhop y x).
    + rewrite Hother by (by rewrite Hkey). by apply (de_wanted _ _ A).
  - intros y Hy Hwy. rewrite map_app, elem_of_app. intros Hin nh Hnh. destruct (decide (key y = key x)) as [Ek|Ek].
    + rewrite (proj2 (Hkey y x Hy Hok) Ek), Ek. apply Hset. by rewrite <-(Hhop y x).
    + rewrite Hother by (by rewrite Hkey). apply (de_done _ _ A); [done..| |done]. set_solver.
  - intros y Hy Hwy. rewrite map_app, not_elem_of_app. intros [Hn Hnx]. unfold untouched. rewrite Hother; [by apply (de_todo _ _ A)|].
    rewrite Hkey by done. set_solver.
  - intros p Hp. unfold untouched. destruct (hop x) as [nh|] eqn:Eh; [|rewrite Hnone by done; by apply (de_foreign _ _ A)].
    rewrite Hother; [by apply (de_foreign _ _ A)|]. apply Hp; [done|by rewrite Eh].
Qed.

Lemma delete_step e ys x k :
  ok x → deleting ys k →
  post (delete_redundant e x) k (λ o k', match o with Ret _ => deleting (ys ++ [x]) k' | Fail _ => between k' | _ => False end).
Proof.
  intros Hok A. unfold delete_redundant. destruct (hop x) as [nh|] eqn:Eh.
  2: { apply post_ret. apply (deleting_step ys x k k Hok A); [done| |done..]. intros nh Hnh. congruence. }
  destruct (wanted !! key x) as [y|] eqn:Ew.
  - apply post_ret. apply (deleting_step ys x k k Hok A); [done| |done..]. apply (de_wanted _ _ A); [done|by rewrite Ew].
  - apply post_wrap. eapply post_mono; [apply DeletePath_law|]. intros [[]|e'| |] k' Hk; [| |done..].
    + rewrite Hpath in Hk by done. apply (deleting_step ys x k k' Hok A); rewrite ?Hk; [| |congruence|by rewrite Ew; intros [? ?]].
      * intros p Hp. by rewrite lookup_delete_ne.
      * intros nh' Hnh'. by rewrite lookup_delete_eq, Ew.
    + assert (between k) as B by (by eapply deleting_between). unfold between, settled, untouched in *. by rewrite Hk.
Qed.

(** Every path was there before or is that of an item. *)
Definition sourced (k : K) : Prop :=
  ∀ p q, local_paths k !! p = Some q → v !! p = Some q ∨ ∃ x nh, ok x ∧ p = pre x ∧ q = path x nh.

Lemma add_sourced e x k :
  ok x → sourced k → post (add_missing e x) k (λ o k', sourced k' ∧ match o with Ret _ | Fail _ => True | _ => False end).
Proof.
  intros Hok Hs. unfold add_missing. destruct (hop x) as [nh|]; [|by apply post_ret]. destruct (exist !! key x); [by apply post_ret|].
  apply post_wrap. eapply post_mono; [apply AddPath_law|]. intros [[]|e'| |] k' Hk; [| |done..]; split; try done; unfold sourced; rewrite Hk; [|done].
  intros p q [[<- <-]|[_ Hp]]%lookup_insert_Some; [|by apply Hs]. right. exists x, nh. by rewrite Hpath.
Qed.

Lemma delete_sourced e x k :
  ok x → sourced k → post (delete_redundant e x) k (λ o k', sourced k' ∧ match o with Ret _ | Fail _ => True | _ => False end).
Proof.
  intros Hok Hs. unfold delete_redundant. destruct (hop x) as [nh|]; [|by apply post_ret]. destruct (wanted !! key x); [by apply post_ret|].
  apply post_wrap. eapply post_mono; [apply DeletePath_law|]. intros [[]|e'| |] k' Hk; [| |done..]; split; try done; unfold sourced; rewrite Hk; [|done].
  intros p q [_ Hp]%lookup_delete_Some. by apply Hs.
Qed.

(** Everything is settled. *)
Definition reconciled (k : K) : Prop :=
  (∀ x, ok x → settled (local_paths k) x) ∧ ∀ p, foreign p → untouched (local_paths k) p.

Lemma in_values {B} (m : gmap string B) l x : l ≡ₚ map snd (map_to_list m) → x ∈ l ↔ ∃ n, m !! n = Some x.
Proof.
  intros ->. rewrite list_elem_of_fmap. split.
  - intros ([n y] & -> & Hy). exists n. by apply elem_of_map_to_list in Hy.
  - intros [n Hn]. exists (n, x). split; [done|]. by apply elem_of_map_to_list.
Qed.

Lemma reconcile_sourced e1 e2 order ys k :
  order ≡ₚ map snd (map_to_list wanted) → ys ≡ₚ map snd (map_to_list exist) → local_paths k = v →
  post (each (add_missing e1) order;; each (delete_redundant e2) ys) k (λ _ k', sourced k').
Proof.
  intros Ho Hy Hk. apply post_bind. eapply post_mono; [apply (post_each_list _ order k (λ _, sourced) sourced)|].
  - intros p q. rewrite Hk. by left.
  - intros xs x rest k1 E Hs. assert (x ∈ order) as Hx by (rewrite E; set_solver). apply (in_values wanted) in Hx as [n Hn]; [|done].
    eapply post_mono; [by apply add_sourced; [apply (Hwanted n)|]|]. by intros [] ? [].
  - intros [[]|e'| |] k1 Hs; [|done..]. eapply post_mono; [apply (post_each_list _ ys k1 (λ _, sourced) sourced)|]; [done| |by intros [[]| | |]].
    intros xs x rest k2 E Hs'. assert (x ∈ ys) as Hx by (rewrite E; set_solver). apply (in_values exist) in Hx as [n Hn]; [|done].
    eapply post_mono; [by apply delete_sourced; [apply (Hexist n)|]|]. by intros [] ? [].
Qed.

Lemma reconcile_post e1 e2 order ys k :
  order ≡ₚ map snd (map_to_list wanted) → ys ≡ₚ map snd (map_to_list exist) → local_paths k = v →
  post (each (add_missing e1) order;; each (delete_redundant e2) ys) k (λ o k', match o with
    | Ret _ => reconciled k'
    | Fail _ => between k'
    | _ => False
    end).
Proof.
  intros Ho Hy Hk. apply post_bind. eapply post_mono; [apply (post_each_list _ order k adding between)|].
  - split; intros; unfold untouched; try congruence. by apply elem_of_nil in H1.
  - intros xs x rest k1 E A. apply add_step; [|done]. assert (x ∈ order) as Hx by (rewrite E; set_solver).
    apply (in_values wanted) in Hx as [n Hx]; [|done]. destruct (Hwanted _ _ Hx) as [_ En]. by rewrite En.
  - intros [[]|e'| |] k1 A; [|done..]. eapply post_mono; [apply (post_each_list _ ys k1 deleting between)|].
    + by eapply added_deleting.
    + intros xs x rest k2 E D. apply delete_step; [|done]. assert (x ∈ ys) as Hx by (rewrite E; set_solver).
      apply (in_values exist) in Hx as [n Hx]; [|done]. by apply (Hexist n).
    + intros [[]|e'| |] k2 D; [|done..]. split; [|apply (de_foreign _ _ D)]. intros x Hx.
      destruct (wanted !! key x) eqn:Ew; [apply (de_wanted _ _ D); [done|by rewrite Ew]|].
      destruct (decide (key x ∈ map key ys)) as [Hin|Hin]; [by apply (de_done _ _ D)|].
      intros nh Hnh. rewrite (de_todo _ _ D x Hx Ew Hin), Ew. apply eq_None_not_Some. rewrite <-(Hv x Hx). intros [y Hxy]. apply Hin.
      rewrite list_elem_of_fmap. exists y. destruct (Hexist _ _ Hxy) as [_ Ek]. split; [done|]. rewrite Hy, list_elem_of_fmap.
      exists (key x, y). split; [done|]. by apply elem_of_map_to_list.
Qed.
End reconcile.

(** ** Addresses and networks on the server *)

Lemma pretty_ubtoa l : 0 ≤ l ≤ 128 → pretty l = ubtoa l.
Proof.
  intros Hl. assert (forallb (λ n, bool_decide (pretty (Z.of_nat n) = ubtoa (Z.of_nat n))) (seq 0 129) = true) as H by (by vm_compute).
  rewrite forallb_forall in H. specialize (H (Z.to_nat l)). rewrite Z2Nat.id in H by lia.
  apply bool_decide_eq_true in H; [done|]. apply in_seq. lia.
Qed.

Definition bits (ip : netIP) : Z := if decide (To4 ip = []) then 128 else 32.

(** A network with a mask of its family and [l] leading ones. *)
Record canon (n : IPNet) (l : Z) : Prop := {
  ca_ip : valid_ip (IPNet_IP n);
  ca_mask : IPNet_Mask n = cidr_bytes (if decide (To4 (IPNet_IP n) = []) then 16 else 4) l;
  ca_len : 0 ≤ l ≤ bits (IPNet_IP n)
}.

Lemma canon_size n l : canon n l → Mask_Size (IPNet_Mask n) = (l, bits (IPNet_IP n)).
Proof.
  intros [_ -> Hl]. unfold bits in *. destruct (decide (To4 (IPNet_IP n) = [])); rewrite Mask_Size_cidr by lia; done.
Qed.

Lemma canon_String n l : canon n l → IPNet_String n = IP_String (IPNet_IP n) +:+ "/" +:+ pretty l.
Proof.
  intros [Hv Hm Hl]. unfold bits in Hl. rewrite pretty_ubtoa by (destruct (decide _); lia).
  unfold IPNet_String, networkNumberAndMask. rewrite Hm. destruct (decide (To4 (IPNet_IP n) = [])) as [H4|H4].
  - destruct (valid_cases _ Hv) as [[Hl' _]|[Hl' _]].
    { unfold To4 in H4. rewrite decide_True in H4 by done. by rewrite H4 in Hl'. }
    rewrite !cidr_bytes_length. rewrite decide_True, decide_False, decide_True by done.
    rewrite decide_False; [|intros [E|E]; [by rewrite E in Hl'|by apply (f_equal length) in E; rewrite cidr_bytes_length in E]].
    rewrite simpleMaskLength_cidr by lia. by rewrite (proj2 (Z.eqb_neq l (-1))) by lia.
  - rewrite !cidr_bytes_length. rewrite decide_True by done.
    rewrite decide_False; [|intros [E|E]; [done|by apply (f_equal length) in E; rewrite cidr_bytes_length in E]].
    rewrite simpleMaskLength_cidr by lia. rewrite (proj2 (Z.eqb_neq l (-1))) by lia. f_equal.
    destruct (To4_length _ Hv) as [?|Hl4]; [done|]. assert (valid_ip (To4 (IPNet_IP n))) as Hv4 by (split; [by apply To4_bytes|by left]).
    apply IP_String_eq; [done..|]. rewrite (To16_v4 _ Hv H4). unfold To16. by rewrite decide_True.
Qed.

(** The text of a network reads back as the network, up to the length of an
    IPv4 address. *)
Lemma canon_parse n l : canon n l →
  ∃ ip cidr, ParseCIDR (IPNet_String n) = Some (ip, cidr) ∧ IPNet_Mask cidr = IPNet_Mask n ∧ valid_ip ip ∧
    IP_String ip = IP_String (IPNet_IP n) ∧ To4 ip = To4 (IPNet_IP n).
Proof.
  intros [Hv Hm Hl]. unfold bits in Hl. destruct n as [ip m]. cbn [IPNet_IP IPNet_Mask] in *. rewrite Hm.
  destruct (decide (To4 ip = [])) as [H4|H4].
  - rewrite (ParseCIDR_IPNet_v6 ip l Hv H4) by lia. by do 2 eexists.
  - rewrite (ParseCIDR_IPNet_v4 ip l Hv H4) by lia. do 2 eexists. split_and!; [done|done| | |].
    + by apply To16_valid.
    + by apply IP_String_To16.
    + by apply To4_To16.
Qed.

Lemma nobyte_split a b c d : nobyte "/" a → nobyte "/" b → a +:+ "/" +:+ c = b +:+ "/" +:+ d → a = b ∧ c = d.
Proof.
  intros Ha Hb E. pose proof (split_slash_app a c Ha) as E1. rewrite E, (split_slash_app b d Hb) in E1. naive_solver.
Qed.

Lemma String_To4 x y : valid_ip x → valid_ip y → IP_String x = IP_String y → To4 x = To4 y.
Proof.
  intros Hx Hy E. rewrite <-(To4_To16 x Hx), <-(To4_To16 y Hy), <-(ParseIP_String x Hx), <-(ParseIP_String y Hy). by rewrite E.
Qed.

Lemma canon_inj n l n' l' : canon n l → canon n' l' → IPNet_String n = IPNet_String n' → IP_String (IPNet_IP n) = IP_String (IPNet_IP n') ∧ l = l'.
Proof.
  intros H H' E. rewrite (canon_String _ _ H), (canon_String _ _ H') in E.
  apply nobyte_split in E as [E1 E2]; [|by apply IP_String_noslash, (ca_ip _ _ H)|by apply IP_String_noslash, (ca_ip _ _ H')].
  split; [done|]. by apply (inj pretty) in E2.
Qed.

(** A network of one address. *)
Definition host (ip : netIP) : IPNet := mkIPNet ip (cidr_bytes (if decide (To4 ip = []) then 16 else 4) (bits ip)).

Lemma host_canon ip : valid_ip ip → canon (host ip) (bits ip).
Proof. intros Hv. split; [done|done|]. cbn. unfold bits. destruct (decide _); lia. Qed.

(** A network of more than one address. *)
Definition subnet_ok (n : IPNet) : Prop := ∃ l, canon n l ∧ l < bits (IPNet_IP n).

Definition path_of_ip (ip nh : netIP) : Path := default (mkPath v4Family (mkIPAddressPrefix "" 0) []) (generatePathForIP ip nh).
Definition path_of_subnet (n : IPNet) (nh : netIP) : Path :=
  default (mkPath v4Family (mkIPAddressPrefix "" 0) []) (generatePathForSubnet (Some n) nh).

Lemma valid_length_ne ip : valid_ip ip → length ip ≠ 0%nat.
Proof. intros [_ [H|H]]; by rewrite H. Qed.

Lemma generatePathForIP_eq ip nh : valid_ip ip → generatePathForIP ip nh = Some (path_of_ip ip nh).
Proof. intros Hv. unfold path_of_ip, generatePathForIP. by rewrite (decide_False (P := length ip = 0%nat)) by (by apply valid_length_ne). Qed.

Lemma path_of_ip_prefix ip nh : valid_ip ip → prefix_text (Nlri (path_of_ip ip nh)) = IPNet_String (host ip).
Proof.
  intros Hv. rewrite (canon_String _ _ (host_canon ip Hv)). unfold path_of_ip, generatePathForIP.
  rewrite (decide_False (P := length ip = 0%nat)) by (by apply valid_length_ne). cbn [default from_option id]. unfold prefix_text. cbn [Nlri Prefix PrefixLen host IPNet_IP].
  unfold bits. destruct (decide (To4 ip = [])) as [E|E]; [rewrite bool_decide_eq_true_2 by done|rewrite bool_decide_eq_false_2 by done]; reflexivity.
Qed.

Lemma path_of_subnet_prefix n l nh : canon n l → prefix_text (Nlri (path_of_subnet n nh)) = IPNet_String n.
Proof.
  intros Hc. rewrite (canon_String _ _ Hc). unfold path_of_subnet, generatePathForSubnet. rewrite (canon_size _ _ Hc).
  cbn [default from_option id]. unfold prefix_text. cbn [Nlri Prefix PrefixLen fst]. unfold uint32. rewrite Z.mod_small; [done|].
  pose proof (ca_len _ _ Hc) as Hl. unfold bits in Hl. destruct (decide _); lia.
Qed.

Lemma path_of_ip_family ip nh : valid_ip ip → path_Family (path_of_ip ip nh) = getIPFamilyFromIP ip.
Proof. intros Hv. unfold path_of_ip, generatePathForIP. by rewrite (decide_False (P := length ip = 0%nat)) by (by apply valid_length_ne). Qed.

(** What the node advertises are addresses and networks. *)
Definition local_wf (v : gmap string Path) : Prop :=
  ∀ p path, v !! p = Some path →
    (path_Family path = v4Family ∨ path_Family path = v6Family) ∧
    ((∃ ip, valid_ip ip ∧ p = IPNet_String (host ip)) ∨ (∃ n, subnet_ok n ∧ p = IPNet_String n)).

(** ** The maps that the list function fills *)

Definition dest_item (d : Destination) : option (netIP + IPNet) :=
  if decide (NeighborIps d !! 0%nat = Some "<nil>") then
    match ParseCIDR (dest_Prefix d) with
    | Some (ip, cidr) =>
        let '(ones, bits) := Mask_Size (IPNet_Mask cidr) in
        if decide (ones = bits) then Some (inl ip) else Some (inr (mkIPNet ip (IPNet_Mask cidr)))
    | None => None
    end
  else None.

Definition dest_ip (d : Destination) : option (string * netIP) :=
  match dest_item d with Some (inl ip) => Some (IP_String ip, ip) | _ => None end.
Definition dest_net (d : Destination) : option (string * IPNet) :=
  match dest_item d with Some (inr n) => Some (dest_Prefix d, n) | _ => None end.

Definition insert_item {A} (g : Destination → option (string * A)) (m : gmap string A) (d : Destination) : gmap string A :=
  match g d with Some (n, x) => <[n := x]> m | None => m end.

Lemma list_func_eq e d : NeighborIps d ≠ [] →
  generatePathListFunc e d = Ret (mkExist ((λ m, insert_item dest_net m d) <$> existSubnetPathMap e) ((λ m, insert_item dest_ip m d) <$> existIPPathMap e)).
Proof.
  intros Hne. unfold generatePathListFunc, insert_item, dest_net, dest_ip, dest_item.
  destruct (NeighborIps d) as [|n l] eqn:E; [done|]. cbn [lookup list_lookup deref mbind outcome_bind].
  destruct e as [subnets ips]. cbn [existSubnetPathMap existIPPathMap].
  destruct (decide (n = "<nil>")) as [->|Hn].
  - rewrite decide_True by done. destruct (ParseCIDR (dest_Prefix d)) as [[ip cidr]|]; [|by destruct subnets, ips].
    destruct (Mask_Size (IPNet_Mask cidr)) as [ones b]. destruct (decide (ones = b)); by destruct subnets, ips.
  - rewrite decide_False by (intros [= ->]; done). by destruct subnets, ips.
Qed.

Lemma list_func_fold e dests : Forall (λ d, NeighborIps d ≠ []) dests →
  for_each generatePathListFunc e dests
  = Ret (mkExist ((λ m, fold_left (insert_item dest_net) dests m) <$> existSubnetPathMap e)
                 ((λ m, fold_left (insert_item dest_ip) dests m) <$> existIPPathMap e)).
Proof.
  intros H. revert e. induction H as [|d dests Hd H IH]; intros e.
  - cbn. by destruct e as [[]  []].
  - cbn [for_each]. rewrite (list_func_eq e d Hd). cbn [mbind outcome_bind]. rewrite IH. cbn [fold_left existSubnetPathMap existIPPathMap].
    by destruct e as [[] []].
Qed.

Lemma fold_insert {A} (g : Destination → option (string * A)) dests m :
  let m' := fold_left (insert_item g) dests m in
  (∀ n x, m' !! n = Some x → m !! n = Some x ∨ ∃ d, d ∈ dests ∧ g d = Some (n, x)) ∧
  (∀ n, is_Some (m !! n) ∨ (∃ d x, d ∈ dests ∧ g d = Some (n, x)) → is_Some (m' !! n)).
Proof.
  revert m. induction dests as [|d dests IH]; intros m; cbn [fold_left].
  - split; [by left|]. intros n [H|(d & x & H & _)]; [done|by apply elem_of_nil in H].
  - destruct (IH (insert_item g m d)) as [H1 H2]. split.
    + intros n x Hx. destruct (H1 n x Hx) as [Hi|(d' & Hd' & Hg)]; [|right; exists d'; split; [by right|done]].
      unfold insert_item in Hi. destruct (g d) as [[k y]|] eqn:Eg; [|by left].
      apply lookup_insert_Some in Hi as [[-> ->]|[_ Hi]]; [right; exists d; split; [left|done]|by left].
    + intros n Hn. apply H2. unfold insert_item. destruct Hn as [Hn|(d' & x & [->|Hd']%elem_of_cons & Hg)].
      * left. destruct (g d) as [[k y]|]; [|done]. destruct (decide (k = n)) as [->|Hne]; [by rewrite lookup_insert_eq|by rewrite lookup_insert_ne].
      * left. rewrite Hg, lookup_insert_eq. eauto.
      * right. eauto.
Qed.

(** The destinations of both families. *)
Definition is_local (d : Destination) : Prop := NeighborIps d !! 0%nat = Some "<nil>".
Definition listed (v : gmap string Path) (dests : list Destination) : Prop :=
  ∀ p, (∃ d, d ∈ dests ∧ dest_Prefix d = p ∧ is_local d) ↔ is_Some (v !! p).

Lemma lists_both v d4 d6 : local_wf v → lists v4Family v d4 → lists v6Family v d6 → listed v (d4 ++ d6).
Proof.
  intros Hwf [_ H4] [_ H6] p. split.
  - intros (d & [Hd|Hd]%elem_of_app & Hp & Hn); [destruct (proj1 (H4 p)) as (path & ? & _)|destruct (proj1 (H6 p)) as (path & ? & _)]; eauto.
  - intros [path Hp]. destruct (Hwf _ _ Hp) as [[Hf|Hf] _].
    + destruct (proj2 (H4 p)) as (d & ? & ? & ?); [eauto|]. exists d. split_and!; [set_solver|done|done].
    + destruct (proj2 (H6 p)) as (d & ? & ? & ?); [eauto|]. exists d. split_and!; [set_solver|done|done].
Qed.

Lemma item_local d x : dest_item d = Some x → is_local d.
Proof. unfold dest_item. by case_decide. Qed.

Lemma lists_item v dests d : local_wf v → listed v dests → d ∈ dests → is_local d →
  (∃ ip x, valid_ip ip ∧ dest_Prefix d = IPNet_String (host ip) ∧ dest_item d = Some (inl x) ∧ valid_ip x ∧ IP_String x = IP_String ip) ∨
  (∃ n x, subnet_ok n ∧ dest_Prefix d = IPNet_String n ∧ dest_item d = Some (inr x) ∧ subnet_ok x ∧ IPNet_String x = IPNet_String n).
Proof.
  intros Hwf Hl Hd Hn. destruct (proj1 (Hl (dest_Prefix d))) as (path & Hp); [by exists d|].
  unfold dest_item, is_local in *. rewrite decide_True by done. destruct (Hwf _ _ Hp) as [_ [(ip & Hv & ->)|(n & (l & Hc & Hlt) & ->)]].
  - left. destruct (canon_parse _ _ (host_canon ip Hv)) as (x & cidr & -> & Hm & Hx & Es & _).
    rewrite Hm, (canon_size _ _ (host_canon ip Hv)). rewrite decide_True by done. by exists ip, x.
  - right. destruct (canon_parse _ _ Hc) as (x & cidr & -> & Hm & Hx & Es & E4).
    rewrite Hm, (canon_size _ _ Hc). rewrite decide_False by lia. exists n, (mkIPNet x (IPNet_Mask n)).
    assert (canon (mkIPNet x (IPNet_Mask n)) l) as Hc'.
    { destruct Hc as [Hv Hmk Hl']. split; cbn [IPNet_IP IPNet_Mask]; [done|by rewrite E4|unfold bits in *; by rewrite E4]. }
    split_and!; [by exists l|done|done| |].
    + exists l. split; [done|]. cbn [IPNet_IP]. unfold bits in *. by rewrite E4.
    + by rewrite (canon_String _ _ Hc'), (canon_String _ _ Hc), <-Es.
Qed.

(** The maps together hold exactly the addresses, and the networks, that are
    advertised. *)
Definition ips_of (v : gmap string Path) (m : gmap string netIP) : Prop :=
  (∀ n x, m !! n = Some x → valid_ip x ∧ IP_String x = n) ∧
  ∀ x, valid_ip x → is_Some (m !! IP_String x) ↔ is_Some (v !! IPNet_String (host x)).
Definition nets_of (v : gmap string Path) (m : gmap string IPNet) : Prop :=
  (∀ n x, m !! n = Some x → subnet_ok x ∧ IPNet_String x = n) ∧
  ∀ x, subnet_ok x → is_Some (m !! IPNet_String x) ↔ is_Some (v !! IPNet_String x).

Lemma host_String_eq x y : valid_ip x → valid_ip y → IPNet_String (host x) = IPNet_String (host y) ↔ IP_String x = IP_String y.
Proof.
  intros Hx Hy. split.
  - intros E. by apply (canon_inj _ _ _ _ (host_canon x Hx) (host_canon y Hy)) in E as [E _].
  - intros E. rewrite (canon_String _ _ (host_canon x Hx)), (canon_String _ _ (host_canon y Hy)). cbn [host IPNet_IP]. rewrite E.
    unfold bits. by rewrite (String_To4 x y).
Qed.

Lemma host_not_subnet x n : valid_ip x → subnet_ok n → IPNet_String (host x) ≠ IPNet_String n.
Proof.
  intros Hx (l & Hc & Hl) E. destruct (canon_inj _ _ _ _ (host_canon x Hx) Hc E) as [Es El]. subst l. cbn [host IPNet_IP] in *.
  unfold bits in Hl. rewrite (String_To4 _ _ Hx (ca_ip _ _ Hc) Es) in Hl. lia.
Qed.

Lemma filled_ips v dests : local_wf v → listed v dests → ips_of v (fold_left (insert_item dest_ip) dests ∅).
Proof.
  intros Hwf Hl. destruct (fold_insert dest_ip dests ∅) as [F1 F2].
  assert (∀ n x, fold_left (insert_item dest_ip) dests ∅ !! n = Some x →
    valid_ip x ∧ IP_String x = n ∧ is_Some (v !! IPNet_String (host x))) as Hget.
  { intros n x Hx. destruct (F1 n x Hx) as [H|(d & Hd & Hg)]; [by rewrite lookup_empty in H|].
    unfold dest_ip in Hg. destruct (dest_item d) as [[y|y]|] eqn:Ei; [|done..]. injection Hg as <- <-.
    pose proof (item_local _ _ Ei) as Hn.
    destruct (lists_item _ _ _ Hwf Hl Hd Hn) as [(ip & z & Hv & Ep & Ei' & Hz & Es)|(? & ? & _ & _ & Ei' & _)]; [|congruence].
    assert (z = y) as -> by congruence. split_and!; [done|done|]. rewrite (proj2 (host_String_eq y ip Hz Hv) Es), <-Ep. apply Hl. by exists d. }
  split; [intros n x Hx; destruct (Hget n x Hx) as (? & ? & _); done|]. intros x Hx. split.
  - intros [y Hy]. destruct (Hget _ _ Hy) as (Hv & Es & Hs). by rewrite (proj2 (host_String_eq x y Hx Hv)).
  - intros Hp. apply F2. right. destruct (proj2 (Hl _) Hp) as (d & Hd & Ep & Hn). 
    destruct (lists_item _ _ _ Hwf Hl Hd Hn) as [(ip & z & Hv & Ep' & Ei & Hz & Es)|(n & z & Hs & Ep' & _)].
    + exists d, z. split; [done|]. unfold dest_ip. rewrite Ei, Es. do 2 f_equal. apply host_String_eq; congruence.
    + exfalso. apply (host_not_subnet x n Hx Hs). congruence.
Qed.

Lemma filled_nets v dests : local_wf v → listed v dests → nets_of v (fold_left (insert_item dest_net) dests ∅).
Proof.
  intros Hwf Hl. destruct (fold_insert dest_net dests ∅) as [F1 F2].
  assert (∀ n x, fold_left (insert_item dest_net) dests ∅ !! n = Some x →
    subnet_ok x ∧ IPNet_String x = n ∧ is_Some (v !! IPNet_String x)) as Hget.
  { intros n x Hx. destruct (F1 n x Hx) as [H|(d & Hd & Hg)]; [by rewrite lookup_empty in H|].
    unfold dest_net in Hg. destruct (dest_item d) as [[y|y]|] eqn:Ei; [done| |done]. injection Hg as <- <-.
    pose proof (item_local _ _ Ei) as Hn.
    destruct (lists_item _ _ _ Hwf Hl Hd Hn) as [(? & ? & _ & _ & Ei' & _)|(k & z & Hk & Ep & Ei' & Hz & Es)]; [congruence|].
    assert (z = y) as -> by congruence. split_and!; [done|congruence|]. rewrite Es, <-Ep. apply Hl. by exists d. }
  split; [intros n x Hx; destruct (Hget n x Hx) as (? & ? & _); done|]. intros x Hx. split.
  - intros [y Hy]. destruct (Hget _ _ Hy) as (Hv & <- & Hs). done.
  - intros Hp. apply F2. right. destruct (proj2 (Hl _) Hp) as (d & Hd & Ep & Hn).
    destruct (lists_item _ _ _ Hwf Hl Hd Hn) as [(ip & z & Hv & Ep' & _)|(n & z & Hs & Ep' & Ei & _)].
    + exfalso. apply (host_not_subnet ip x Hv Hx). congruence.
    + exists d, z. split; [done|]. unfold dest_net. by rewrite Ei, Ep.
Qed.

(** ** The synchronisations *)

Lemma each_ext {S A} (f g : A → M S unit) l s : (∀ x s, x ∈ l → f x s = g x s) → each f l s = each g l s.
Proof.
  revert s. induction l as [|x l IH]; intros s H; [done|]. cbn [each]. unfold mbind, M_bind. rewrite (H x s) by left.
  destruct (g x s) as [[[]|e| |] s']; [|done..]. apply IH. intros y t Hy. apply H. by right.
Qed.

Lemma each_map {S A B} (h : A → B) (f : B → M S unit) l s : each (λ x, f (h x)) l s = each f (map h l) s.
Proof.
  revert s. induction l as [|x l IH]; intros s; [done|]. cbn [each map]. unfold mbind, M_bind.
  destruct (f (h x) s) as [[[]|e| |] s']; [|done..]. apply IH.
Qed.

(** What was recorded are addresses and networks, under their texts. *)
Record manager_wf (m : Manager) : Prop := {
  mw_ips n x : ipMap m !! n = Some x → valid_ip x ∧ IP_String x = n;
  mw_subnets n x : subnetMap m !! n = Some x → subnet_ok x ∧ IPNet_String x = n
}.

Lemma RecordIP_wf ip m : valid_ip ip → manager_wf m → manager_wf (RecordIP ip m).
Proof. intros Hv [H1 H2]. split; [|done]. intros n x. cbn. intros [[<- <-]|[_ Hx]]%lookup_insert_Some; [done|by apply H1]. Qed.

Lemma RecordSubnet_wf c m : subnet_ok c → manager_wf m → manager_wf (RecordSubnet c m).
Proof. intros Hv [H1 H2]. split; [done|]. intros n x. cbn. intros [[<- <-]|[_ Hx]]%lookup_insert_Some; [done|by apply H2]. Qed.

Definition hop_of (m : Manager) (ip : netIP) : option netIP :=
  match getNextHopAddressByIP m ip with Ret nextHop => Some nextHop | _ => None end.

Lemma hop_of_eq m x y : valid_ip x → valid_ip y → IP_String x = IP_String y → hop_of m x = hop_of m y.
Proof. intros Hx Hy E. unfold hop_of, getNextHopAddressByIP. by rewrite (String_To4 x y Hx Hy E). Qed.

Section sync.
Context {K : Type} `{BgpServer K} {L : BgpLaws}.

Lemma listExistPath_post e k : local_wf (local_paths k) →
  post (listExistPath e) k (λ o k', local_paths k' = local_paths k ∧ match o with
    | Ret e' => ∃ dests, listed (local_paths k) dests ∧
        e' = mkExist ((λ m, fold_left (insert_item dest_net) dests m) <$> existSubnetPathMap e)
                     ((λ m, fold_left (insert_item dest_ip) dests m) <$> existIPPathMap e)
    | Fail _ => True
    | _ => False
    end).
Proof.
  intros Hwf. unfold listExistPath. apply post_bind, post_wrap, post_bind. eapply post_mono; [apply ListPath_law|].
  intros [d4|err| |] k1 [Hk1 H4]; [|by split|done..]. rewrite (list_func_fold e d4) by apply H4.
  unfold post at 1, lift. cbn [fst snd]. apply post_wrap, post_bind. eapply post_mono; [apply ListPath_law|].
  rewrite Hk1. intros [d6|err| |] k2 [Hk2 H6]; [|by split|done..]. rewrite list_func_fold by apply H6.
  unfold post, lift. cbn [fst snd]. split; [done|]. exists (d4 ++ d6). split; [by apply lists_both|].
  cbn [existSubnetPathMap existIPPathMap]. destruct e as [[] []]; cbn; by rewrite ?fold_left_app.
Qed.

(** The prefixes of all addresses after a synchronisation. *)
Definition ips_settled (m : Manager) (v v' : gmap string Path) : Prop :=
  ∀ x nh, valid_ip x → getNextHopAddressByIP m x = Ret nh →
    v' !! IPNet_String (host x) = match ipMap m !! IP_String x with
                                  | Some y => Some (default (path_of_ip y nh) (v !! IPNet_String (host x)))
                                  | None => None
                                  end.
Definition no_ip (m : Manager) (p : string) : Prop :=
  ∀ x nh, valid_ip x → getNextHopAddressByIP m x = Ret nh → p ≠ IPNet_String (host x).

Definition subnets_settled (m : Manager) (v v' : gmap string Path) : Prop :=
  ∀ x nh, subnet_ok x → getNextHopAddressByIP m (IPNet_IP x) = Ret nh →
    v' !! IPNet_String x = match subnetMap m !! IPNet_String x with
                           | Some y => Some (default (path_of_subnet y nh) (v !! IPNet_String x))
                           | None => None
                           end.
Definition no_subnet (m : Manager) (p : string) : Prop :=
  ∀ x nh, subnet_ok x → getNextHopAddressByIP m (IPNet_IP x) = Ret nh → p ≠ IPNet_String x.

Lemma hop_of_Some m x nh : hop_of m x = Some nh ↔ getNextHopAddressByIP m x = Ret nh.
Proof. unfold hop_of. destruct (getNextHopAddressByIP m x); naive_solver. Qed.

Lemma foreign_no_ip m p : no_ip m p → foreign (λ x, IPNet_String (host x)) (hop_of m) valid_ip p.
Proof. intros Hp x Hx [nh Hnh]. apply (Hp x nh Hx). by apply hop_of_Some. Qed.

Lemma SyncIPInfos_post m order exist_order k :
  CheckIfStart m = true → manager_wf m → local_wf (local_paths k) →
  order ≡ₚ map snd (map_to_list (ipMap m)) → (∀ l, exist_order l ≡ₚ l) →
  post (SyncIPInfos order exist_order m) k (λ o k', local_wf (local_paths k') ∧
    (∀ p, no_ip m p → local_paths k' !! p = local_paths k !! p) ∧ match o with
    | Ret _ => ips_settled m (local_paths k) (local_paths k')
    | Fail _ => ∀ x, valid_ip x → let p := IPNet_String (host x) in local_paths k' !! p = local_paths k !! p ∨
        ∀ nh, getNextHopAddressByIP m x = Ret nh → local_paths k' !! p = match ipMap m !! IP_String x with
          | Some y => Some (default (path_of_ip y nh) (local_paths k !! p)) | None => None end
    | _ => False
    end).
Proof.
  intros Hst [Hips _] Hwf Ho Heo. unfold SyncIPInfos. rewrite Hst. cbn [negb].
  apply post_bind, post_wrap. eapply post_mono; [by apply listExistPath_post|].
  intros [e|err| |] k1 [Hk1 He]; [|rewrite Hk1; by auto|done..]. destruct He as (dests & Hl & ->). cbn [existIPPathMap fmap option_fmap option_map default from_option id].
  destruct (filled_ips _ _ Hwf Hl) as [Hex Hiff]. set (exist := fold_left (insert_item dest_ip) dests ∅) in *.
  set (v := local_paths k) in *.
  pose proof (λ x nh Hx, path_of_ip_prefix x nh Hx) as Hpath.
  pose proof (λ x y Hx Hy, host_String_eq x y Hx Hy) as Hkey. pose proof (λ x y Hx Hy, hop_of_eq m x y Hx Hy) as Hhop.
  set (e1 n := Wrapf "failed to add path for ip instance %v: %v" [n]). set (e2 n := Wrapf "failed to delete path for ip instance %v: %v" [n]).
  set (ys := map snd (exist_order (map_to_list exist))).
  assert (ys ≡ₚ map snd (map_to_list exist)) as Hys by (unfold ys; by rewrite Heo).
  match goal with |- post ?body k1 _ => assert (body k1 =
    (each (add_missing IP_String (hop_of m) path_of_ip exist e1) order;;
     each (delete_redundant IP_String (hop_of m) path_of_ip (ipMap m) e2) ys) k1) as Eb end.
  { unfold mbind, M_bind. rewrite (each_ext _ (add_missing IP_String (hop_of m) path_of_ip exist e1) order k1).
    - destruct (each _ order k1) as [[[]|err| |] k2]; [|done..]. unfold ys. rewrite <-(each_map snd (delete_redundant IP_String (hop_of m) path_of_ip (ipMap m) e2)). apply each_ext. intros [n x] s Hx.
      rewrite Heo in Hx. apply elem_of_map_to_list in Hx. destruct (Hex _ _ Hx) as [Hv En]. cbn [snd].
      unfold with_next_hop, delete_redundant, hop_of. destruct (getNextHopAddressByIP m x); [|done..]. by rewrite generatePathForIP_eq.
    - intros x s Hx. apply (in_values (ipMap m)) in Hx as [n Hn]; [|done]. destruct (Hips _ _ Hn) as [Hv _].
      unfold with_next_hop, add_missing, hop_of. destruct (getNextHopAddressByIP m x); [|done..]. by rewrite generatePathForIP_eq. }
  unfold post. rewrite Eb.
  pose proof (reconcile_post IP_String (λ x, IPNet_String (host x)) (hop_of m) path_of_ip valid_ip Hpath Hkey Hhop (ipMap m) exist v
    Hips Hex Hiff e1 e2 order ys k1 Ho Hys Hk1) as R.
  pose proof (reconcile_sourced IP_String (λ x, IPNet_String (host x)) (hop_of m) path_of_ip valid_ip Hpath Hkey Hhop (ipMap m) exist v
    Hips Hex Hiff e1 e2 order ys k1 Ho Hys Hk1) as Sc. unfold post in R, Sc.
  match type of Sc with context [(?c k1).2] => destruct (c k1) as [o k2] end. cbn [fst snd] in *. split.
  { intros p q Hq. destruct (Sc p q Hq) as [Hp|(x & nh & Hx & -> & ->)]; [by apply (Hwf p)|]. split; [|left; by exists x].
    rewrite path_of_ip_family by done. unfold getIPFamilyFromIP. case_decide; auto. }
  destruct o as [[]|err| |]; [| |done..]; destruct R as [R1 R2]; (split; [intros p Hp; by apply R2, foreign_no_ip|]).
  - intros x nh Hx Hnh. by apply R1, hop_of_Some.
  - intros x Hx. destruct (R1 x Hx) as [Hu|Hs]; [by left|right]. intros nh Hnh. by apply Hs, hop_of_Some.
Qed.

Lemma foreign_no_subnet m p : no_subnet m p → foreign IPNet_String (λ x, hop_of m (IPNet_IP x)) subnet_ok p.
Proof. intros Hp x Hx [nh Hnh]. apply (Hp x nh Hx). by apply hop_of_Some. Qed.

Lemma SyncSubnetInfos_post m order exist_order k :
  CheckIfStart m = true → manager_wf m → local_wf (local_paths k) →
  order ≡ₚ map snd (map_to_list (subnetMap m)) → (∀ l, exist_order l ≡ₚ l) →
  post (SyncSubnetInfos order exist_order m) k (λ o k', local_wf (local_paths k') ∧
    (∀ p, no_subnet m p → local_paths k' !! p = local_paths k !! p) ∧ match o with
    | Ret _ => subnets_settled m (local_paths k) (local_paths k')
    | Fail _ => ∀ x, subnet_ok x → let p := IPNet_String x in local_paths k' !! p = local_paths k !! p ∨
        ∀ nh, getNextHopAddressByIP m (IPNet_IP x) = Ret nh → local_paths k' !! p = match subnetMap m !! IPNet_String x with
          | Some y => Some (default (path_of_subnet y nh) (local_paths k !! p)) | None => None end
    | _ => False
    end).
Proof.
  intros Hst [_ Hips] Hwf Ho Heo. unfold SyncSubnetInfos. rewrite Hst. cbn [negb].
  apply post_bind, post_wrap. eapply post_mono; [by apply listExistPath_post|].
  intros [e|err| |] k1 [Hk1 He]; [|rewrite Hk1; by auto|done..]. destruct He as (dests & Hl & ->). cbn [existSubnetPathMap fmap option_fmap option_map default from_option id].
  destruct (filled_nets _ _ Hwf Hl) as [Hex Hiff]. set (exist := fold_left (insert_item dest_net) dests ∅) in *.
  set (v := local_paths k) in *.
  set (pth := path_of_subnet). set (hp := λ x, hop_of m (IPNet_IP x)).
  assert (∀ x nh, subnet_ok x → prefix_text (Nlri (pth x nh)) = IPNet_String x) as Hpath.
  { intros x nh (l & Hc & _). by apply (path_of_subnet_prefix x l). }
  assert (∀ x y, subnet_ok x → subnet_ok y → IPNet_String x = IPNet_String y ↔ IPNet_String x = IPNet_String y) as Hkey by done.
  assert (∀ x y, subnet_ok x → subnet_ok y → IPNet_String x = IPNet_String y → hp x = hp y) as Hhop.
  { intros x y (l & Hc & _) (l' & Hc' & _) E. apply hop_of_eq; [apply (ca_ip _ _ Hc)|apply (ca_ip _ _ Hc')|].
    by apply (canon_inj _ _ _ _ Hc Hc') in E as [E _]. }
  set (e1 n := Wrapf "failed to add path for subnet %v: %v" [n]). set (e2 n := Wrapf "failed to delete path for subnet %v: %v" [n]).
  set (ys := map snd (exist_order (map_to_list exist))).
  assert (ys ≡ₚ map snd (map_to_list exist)) as Hys by (unfold ys; by rewrite Heo).
  match goal with |- post ?body k1 _ => assert (body k1 =
    (each (add_missing IPNet_String hp pth exist e1) order;;
     each (delete_redundant IPNet_String hp pth (subnetMap m) e2) ys) k1) as Eb end.
  { unfold mbind, M_bind. rewrite (each_ext _ (add_missing IPNet_String hp pth exist e1) order k1).
    - destruct (each _ order k1) as [[[]|err| |] k2]; [|done..]. unfold ys. rewrite <-(each_map snd (delete_redundant IPNet_String hp pth (subnetMap m) e2)). apply each_ext. intros [n x] s Hx.
      rewrite Heo in Hx. apply elem_of_map_to_list in Hx. destruct (Hex _ _ Hx) as [Hv En]. cbn [snd].
      unfold with_next_hop, delete_redundant, hp, hop_of. destruct (getNextHopAddressByIP m (IPNet_IP x)); [|done..]. by rewrite <-En.
    - intros x s Hx. apply (in_values (subnetMap m)) in Hx as [n Hn]; [|done]. 
      by unfold with_next_hop, add_missing, hp, hop_of; destruct (getNextHopAddressByIP m (IPNet_IP x)). }
  unfold post. rewrite Eb.
  pose proof (reconcile_post IPNet_String IPNet_String hp pth subnet_ok Hpath Hkey Hhop (subnetMap m) exist v
    Hips Hex Hiff e1 e2 order ys k1 Ho Hys Hk1) as R.
  pose proof (reconcile_sourced IPNet_String IPNet_String hp pth subnet_ok Hpath Hkey Hhop (subnetMap m) exist v
    Hips Hex Hiff e1 e2 order ys k1 Ho Hys Hk1) as Sc. unfold post in R, Sc.
  match type of Sc with context [(?c k1).2] => destruct (c k1) as [o k2] end. cbn [fst snd] in *. split.
  { intros p q Hq. destruct (Sc p q Hq) as [Hp|(x & nh & Hx & -> & ->)]; [by apply (Hwf p)|]. split; [|right; by exists x].
    unfold pth, path_of_subnet, generatePathForSubnet. cbn [default from_option path_Family]. unfold getIPFamilyFromIP. case_decide; auto. }
  destruct o as [[]|err| |]; [| |done..]; destruct R as [R1 R2]; (split; [intros p Hp; by apply R2, foreign_no_subnet|]).
  - intros x nh Hx Hnh. by apply R1, hop_of_Some.
  - intros x Hx. destruct (R1 x Hx) as [Hu|Hs]; [by left|right]. intros nh Hnh. by apply Hs, hop_of_Some.
Qed.
End sync.
