(* ===== verification/BGPProperties.v ===== *)
(** * What the node advertises after a synchronisation

    A concrete server that satisfies the laws, and the property of the
    synchronisations. *)

From stdpp Require Import pretty.
From S2P Require Import Prelude GoNet GoStrings NetBlock NetText Utils Netlink DaemonUtils BGP BGPSync.

Local Open Scope Z_scope.

(** ** A server that satisfies the laws *)

Definition Server : Type := gmap string Path.

Definition family_dests (f : Family) (k : Server) : list Destination :=
  omap (λ '(p, path), if decide (path_Family path = f) then Some (mkDestination p ["<nil>"]) else None) (map_to_list k)
  ++ [mkDestination "learned from a neighbour" ["10.0.0.1"]].

#[export] Instance server_bgp : BgpServer Server := {|
  StartBgp _ _ := mret tt;
  AddPeer _ := mret tt;
  DeletePeer _ := mret tt;
  ListPeer := mret [];
  AddPath p := match p with Some p => modify <[prefix_text (Nlri p) := p]> | None => fail (errors_New "nil path") end;
  DeletePath p := match p with Some p => modify (delete (prefix_text (Nlri p))) | None => fail (errors_New "nil path") end;
  ListPath f := gets (family_dests f)
|}.

#[export] Instance server_laws : BgpLaws (K := Server).
Proof.
  refine {| local_paths k := k |}; [|done..]. intros f k. split; [done|]. split.
  - apply Forall_forall. intros d [Hd|Hd]%elem_of_app; [|by apply list_elem_of_singleton in Hd as ->].
    apply list_elem_of_omap in Hd as ([p path] & _ & Hd). case_decide; naive_solver.
  - intros p. split.
    + intros (d & [Hd|Hd]%elem_of_app & Hp & Hn); [|apply list_elem_of_singleton in Hd as ->; done].
      apply list_elem_of_omap in Hd as ([p' path] & Hin & Hd). apply elem_of_map_to_list in Hin. case_decide; [|done].
      injection Hd as <-. cbn in Hp. subst. by exists path.
    + intros (path & Hp & Hf). exists (mkDestination p ["<nil>"]). split; [|done]. apply elem_of_app. left.
      apply list_elem_of_omap. exists (p, path). split; [by apply elem_of_map_to_list|]. by rewrite decide_True.
Defined.

(** A node with an address that is advertised, one that is not any more, and
    no IPv6 next hop. *)
Definition w_bgp : Manager :=
  RecordSubnet (mkIPNet [10; 2; 0; 0] (cidr_bytes 4 16)) (RecordIP [10; 1; 0; 3] (RecordIP [10; 1; 0; 2]
    (mkManager 65000 "eth0" "192.168.0.1" [192; 168; 0; 1] [] ∅ ∅ ∅))).

Definition w_server : Server :=
  <[IPNet_String (host [10; 1; 0; 2]) := path_of_ip [10; 1; 0; 2] [192; 168; 0; 9]]>
    (<[IPNet_String (host [10; 1; 0; 9]) := path_of_ip [10; 1; 0; 9] [192; 168; 0; 1]]> ∅).

(** ** Property *)

(** C17. The paths that the node advertises follow what was recorded.  When
    the synchronisation of the addresses returns, an address for whose family
    the router has a next hop is advertised exactly when it was recorded, by
    the path that was there before if there was one, and every other prefix
    is as it was, those of subnets included; when it fails, every prefix is
    as before or as it should be.  The same holds of the synchronisation of
    the subnets.  What the node advertises stays well formed. *)
Theorem BGP_Sync_exact {K} `{BgpServer K} {L : BgpLaws} (m : Manager) (k : K) ips ips_order subnets subnets_order :
  CheckIfStart m = true → manager_wf m → local_wf (local_paths k) →
  ips ≡ₚ map snd (map_to_list (ipMap m)) → (∀ l, ips_order l ≡ₚ l) →
  subnets ≡ₚ map snd (map_to_list (subnetMap m)) → (∀ l, subnets_order l ≡ₚ l) →
  post (SyncIPInfos ips ips_order m) k (λ o k', local_wf (local_paths k') ∧
    (∀ p, no_ip m p → local_paths k' !! p = local_paths k !! p) ∧ match o with
    | Ret _ => ips_settled m (local_paths k) (local_paths k')
    | Fail _ => ∀ x, valid_ip x → let p := IPNet_String (host x) in local_paths k' !! p = local_paths k !! p ∨
        ∀ nh, getNextHopAddressByIP m x = Ret nh → local_paths k' !! p = match ipMap m !! IP_String x with
          | Some y => Some (default (path_of_ip y nh) (local_paths k !! p)) | None => None end
    | _ => False
    end) ∧
  post (SyncSubnetInfos subnets subnets_order m) k (λ o k', local_wf (local_paths k') ∧
    (∀ p, no_subnet m p → local_paths k' !! p = local_paths k !! p) ∧ match o with
    | Ret _ => subnets_settled m (local_paths k) (local_paths k')
    | Fail _ => ∀ x, subnet_ok x → let p := IPNet_String x in local_paths k' !! p = local_paths k !! p ∨
        ∀ nh, getNextHopAddressByIP m (IPNet_IP x) = Ret nh → local_paths k' !! p = match subnetMap m !! IPNet_String x with
          | Some y => Some (default (path_of_subnet y nh) (local_paths k !! p)) | None => None end
    | _ => False
    end).
Proof. intros. split; [by apply SyncIPInfos_post|by apply SyncSubnetInfos_post]. Qed.

Lemma BGP_Sync_exact_witness :
  let k' := (SyncIPInfos (map snd (map_to_list (ipMap w_bgp))) (λ l, l) w_bgp w_server).2 in
  (SyncIPInfos (map snd (map_to_list (ipMap w_bgp))) (λ l, l) w_bgp w_server).1 = Ret tt ∧
  ips_settled w_bgp w_server k' ∧ map fst (map_to_list k') = ["10.1.0.3/32"; "10.1.0.2/32"] ∧
  subnets_settled w_bgp w_server (SyncSubnetInfos (map snd (map_to_list (subnetMap w_bgp))) (λ l, l) w_bgp w_server).2.
Proof.
  assert (∀ a b c d, forallb (λ b, (0 <=? b) && (b <? 256)) [a; b; c; d] = true → valid_ip [a; b; c; d]) as Hip.
  { intros a b c d Hb. split; [|by left]. apply Forall_forall. intros x Hx. rewrite forallb_forall in Hb.
    specialize (Hb x). rewrite <-list_elem_of_In in Hb. specialize (Hb Hx). unfold byte_ok. lia. }
  assert (manager_wf w_bgp) as H2.
  { apply RecordSubnet_wf, RecordIP_wf, RecordIP_wf; [|by apply Hip..|split; intros n x; cbn; by rewrite lookup_empty].
    exists 16. split; [split|]; [by apply Hip|done|done|done]. }
  assert (local_wf w_server) as H3.
  { intros p q. unfold w_server. intros [[<- <-]|[_ [[<- <-]|[_ H]]%lookup_insert_Some]]%lookup_insert_Some; [..|by apply lookup_empty_Some in H];
      (split; [by left|left; eexists; split; [|done]; by apply Hip]). }
  destruct (BGP_Sync_exact (L := server_laws) w_bgp w_server (map snd (map_to_list (ipMap w_bgp))) (λ l, l)
    (map snd (map_to_list (subnetMap w_bgp))) (λ l, l) eq_refl H2 H3 (reflexivity _) (λ l, reflexivity l) (reflexivity _) (λ l, reflexivity l)) as [HI HS].
  assert ((SyncIPInfos (map snd (map_to_list (ipMap w_bgp))) (λ l, l) w_bgp w_server).1 = Ret tt) as E by (vm_compute; reflexivity).
  assert ((SyncSubnetInfos (map snd (map_to_list (subnetMap w_bgp))) (λ l, l) w_bgp w_server).1 = Ret tt) as E' by (vm_compute; reflexivity).
  unfold post in HI, HS. rewrite E in HI. rewrite E' in HS. destruct HI as (_ & _ & HI). destruct HS as (_ & _ & HS).
  cbv zeta. split_and!; [exact E|exact HI|vm_compute; reflexivity|exact HS].
Defined.

(** With one address per family, IPv4 first as [ListAllAddress] has them, the
    IPv6 address becomes the address for IPv4 and the identifier, too. *)
Lemma choose_router_both {K} `{Netlink K} (a b : Addr) (k : K) :
  To4 (IPNet_IP (addr_IPNet a)) ≠ [] → To4 (IPNet_IP (addr_IPNet b)) = [] →
  let ip := IPNet_IP (addr_IPNet b) in choose_router [a; b] k = (Ret (IP_String ip, ip, ip), k).
Proof.
  intros Ha Hb. cbv zeta. unfold choose_router, by_family. rewrite decide_True.
  - cbn [fold_left fst snd]. by rewrite (decide_True (P := To4 (IPNet_IP (addr_IPNet b)) = [])).
  - by rewrite bool_decide_eq_false_2, bool_decide_eq_true_2.
Qed.
