(* ===== verification/Neigh.v ===== *)
(** * Proxy neighbours, vtep entries and the cache of node addresses
    (pkg/daemon/neigh, pkg/daemon/vxlan,
    pkg/daemon/controller/node_ip_cache.go)

    The three keep maps from texts of addresses and, for the first two, bring
    the kernel's neighbour tables in line with them. *)

From Stdlib Require Import Ascii.
From stdpp Require Import pretty.
From S2P Require Import Prelude GoNet GoStrings NetText Utils NetworkingV1 MulticlusterV1 Kubernetes Config Names Store Mirror Netlink DaemonUtils.

Local Open Scope Z_scope.

(** ** neigh *)


Record Manager := mkManager { family : Z; interfaceToIPSliceMap : gmap string (gmap string netIP) }.

Definition CreateNeighManager (family : Z) : Manager := mkManager family ∅.
Definition ResetInfos (m : Manager) : Manager := mkManager (family m) ∅.

Definition AddPodInfo (podIP : netIP) (forwardNodeIfName : string) (m : Manager) : Manager :=
  let ipMap := default ∅ (interfaceToIPSliceMap m !! forwardNodeIfName) in
  mkManager (family m) (<[forwardNodeIfName := <[IP_String podIP := podIP]> ipMap]> (interfaceToIPSliceMap m)).

(** The calls of a pass. *)
Definition record_all (l : list (netIP * string)) (m : Manager) : Manager := fold_left (λ m r, AddPodInfo r.1 r.2 m) l m.

Section kernel.
Context {K : Type} `{Netlink K} `{OS K} {MO : MapOrder}.

Definition sync_interface (family : Z) (kv : string * gmap string netIP) : M K unit :=
  let '(forwardNodeIfName, ipMap) := kv in
  forwardNodeIf ← wrap (Wrapf "failed to get forward node if %v: %v" [forwardNodeIfName]) (LinkByName forwardNodeIfName);
  neighList ← wrap (Wrapf "failed to list neighs for forward node if %v: %v" [forwardNodeIfName])
    (NeighProxyList (link_Index forwardNodeIf) family);
  (if family =? FAMILY_V6 then
     let sysctlPath := "/proc/sys/net/ipv6/conf/" +:+ forwardNodeIfName +:+ "/proxy_ndp" in
     wrap (Wrapf "failed to set sysctl parameter %v: %v" [sysctlPath]) (WriteFile sysctlPath (pretty 1))
   else mret tt);;
  each (λ neigh, match ipMap !! IP_String (nb_IP neigh) with
    | None => wrap (Wrapf "failed to delete neigh for %v/%v: %v" [IP_String (nb_IP neigh); forwardNodeIfName]) (NeighDel neigh)
    | Some _ => mret tt
    end) neighList;;
  let existNeighMap : gset string :=
    list_to_set (List.filter (λ n, bool_decide (is_Some (ipMap !! n))) (map (λ neigh, IP_String (nb_IP neigh)) neighList)) in
  each (λ kv, if decide (IP_String kv.2 ∈ existNeighMap) then mret tt
    else wrap (Wrapf "failed to add neigh for ip %v/%v: %v" [IP_String kv.2; forwardNodeIfName])
      (NeighAdd (mkNeigh (link_Index forwardNodeIf) family 0 NTF_PROXY kv.2 [] 0))) (map_range 0 ipMap).

Definition SyncNeighs (m : Manager) : M K unit :=
  each (sync_interface (family m)) (map_range 1 (interfaceToIPSliceMap m)).

Definition ClearStaleNeighEntryByIP (linkIndex : Z) (ip : netIP) : M K unit :=
  let family := if decide (To4 ip = []) then FAMILY_V6 else FAMILY_V4 in
  neighList ← wrap (Wrapf "list neigh for link index %v error: %v" [pretty linkIndex]) (NeighList linkIndex family);
  each (λ neigh, if IP_Equal (nb_IP neigh) ip && (nb_State neigh =? NUD_STALE)
                 then wrap (Wrapf "del neigh cache %v error: %v" []) (NeighDel neigh) else mret tt) neighList.

Definition ClearStaleAddFailedNeighEntries (linkIndex family : Z) : M K unit :=
  neighList ← wrap (Wrapf "list neigh for link index %v error: %v" [pretty linkIndex]) (NeighList linkIndex family);
  each (λ neigh, if (nb_State neigh =? NUD_STALE) || (nb_State neigh =? NUD_FAILED)
                 then wrap (Wrapf "del neigh cache %v error: %v" []) (NeighDel neigh) else mret tt) neighList.
End kernel.

(** ** vxlan *)


(** [net.ParseMAC("00:00:00:00:00:00")] *)
Definition broadcastFdbMac : list Z := replicate 6 0.

Record Device := mkDevice { dev_link : Link; remoteIPToMacMap : gmap string (list Z) }.

Definition MacAddr (dev : Device) : list Z := link_HardwareAddr (dev_link dev).

Definition RecordVtepInfo (vtepMac : list Z) (vtepIP : netIP) (dev : Device) : Device :=
  mkDevice (dev_link dev) (<[IP_String vtepIP := vtepMac]> (remoteIPToMacMap dev)).

(** The text of the incompatibility is its format; only whether there is one
    matters.  [EmptyString]: compatible. *)
Definition vxlanLinksIncompat (l1 l2 : Link) : string :=
  if negb (bool_decide (link_Type l1 = link_Type l2)) then "link type: %v vs %v"
  else
    match link_Vxlan l1, link_Vxlan l2 with
    | None, _ | _, None => "link %v is not vxlan device"
    | Some v1, Some v2 =>
        let set ip := negb (bool_decide (length ip = 0%nat)) in
        if negb (VxlanId v1 =? VxlanId v2) then "vni: %v vs %v"
        else if (0 <? VtepDevIndex v1) && (0 <? VtepDevIndex v2) && negb (VtepDevIndex v1 =? VtepDevIndex v2) then
          "vtep (external) interface: %v vs %v"
        else if negb (bool_decide (HardwareAddr_String (link_HardwareAddr l1) = HardwareAddr_String (link_HardwareAddr l2))) then
          "vtep Mac: %v vs %v"
        else if set (SrcAddr v1) && set (SrcAddr v2) && negb (IP_Equal (SrcAddr v1) (SrcAddr v2)) then "vtep (external) IP: %v vs %v"
        else if set (vx_Group v1) && set (vx_Group v2) && negb (IP_Equal (vx_Group v1) (vx_Group v2)) then "group address: %v vs %v"
        else if negb (Bool.eqb (L2miss v1) (L2miss v2)) then "l2miss: %v vs %v"
        else if (0 <? vx_Port v1) && (0 <? vx_Port v2) && negb (vx_Port v1 =? vx_Port v2) then "port: %v vs %v"
        else if negb (Bool.eqb (GBP v1) (GBP v2)) then "gbp: %v vs %v"
        else ""
    end.

Section kernel.
Context {K : Type} `{Netlink K} `{OS K} {MO : MapOrder}.

(** The part after the device was made: [vxlan] has its index. *)
Definition located (vxlan : Link) : M K Link :=
  link ← wrap (λ _, Errorf "can't locate created vxlan device with index %v" [pretty (link_Index vxlan)]) (LinkByIndex (link_Index vxlan));
  match link_Vxlan link with
  | None => fail (Errorf "created vxlan device with index %v is not vxlan" [pretty (link_Index vxlan)])
  | Some _ =>
      wrap (Wrapf "failed to set link %v up: %v" [link_Name link]) (LinkSetUp link);;
      mret link
  end.

Definition ensureLink (vxlan : Link) : M K Link :=
  added ← attempt (LinkAdd vxlan);
  match added with
  | inl vxlan => located vxlan
  | inr err =>
      if decide (err = EEXIST) then
        existing ← LinkByName (link_Name vxlan);
        if decide (vxlanLinksIncompat vxlan existing = "") then
          wrap (Wrapf "failed to set link %v up: %v" [link_Name existing]) (LinkSetUp existing);;
          match link_Vxlan existing with Some _ => mret existing | None => panic end
        else
          wrap (Wrapf "failed to delete interface: %v" []) (LinkDel existing);;
          vxlan ← wrap (Wrapf "failed to create vxlan interface: %v" []) (LinkAdd vxlan);
          located vxlan
      else fail err
  end.

Definition IPv4AppSolicitSysctl (nic : string) : string := "/proc/sys/net/ipv4/neigh/" +:+ nic +:+ "/app_solicit".
Definition IPv6AppSolicitSysctl (nic : string) : string := "/proc/sys/net/ipv6/neigh/" +:+ nic +:+ "/app_solicit".
Definition IPv4BaseReachableTimeMSSysctl (nic : string) : string := "/proc/sys/net/ipv4/neigh/" +:+ nic +:+ "/base_reachable_time_ms".
Definition IPv6BaseReachableTimeMSSysctl (nic : string) : string := "/proc/sys/net/ipv6/neigh/" +:+ nic +:+ "/base_reachable_time_ms".
Definition AcceptRASysctl (nic : string) : string := "/proc/sys/net/ipv6/conf/" +:+ nic +:+ "/accept_ra".

(** [baseReachableTime]: in milliseconds. *)
Definition NewVxlanDevice (name : string) (vxlanID : Z) (parent : string) (localAddr : netIP) (port baseReachableTime : Z)
    (learning : bool) : M K Device :=
  parentLink ← wrap (Wrapf "failed to get parent link %v: %v" [parent]) (LinkByName parent);
  link ← ensureLink (mkLink 0 name "vxlan" (link_HardwareAddr parentLink) false 0 0
    (Some (mkVxlanAttrs vxlanID (link_Index parentLink) localAddr [] false port false learning)) 0);
  let set (ignore_missing : bool) (sysctlPath : string) (v : Z) : M K unit :=
    wrap (Wrapf "failed to set sysctl parameter %v: %v" [sysctlPath])
      (if ignore_missing then SetSysctlIgnoreNotExist sysctlPath v else SetSysctl sysctlPath v) in
  set true (IPv4AppSolicitSysctl (link_Name link)) 1;;
  set true (IPv4BaseReachableTimeMSSysctl (link_Name link)) baseReachableTime;;
  ipv6Disabled ← wrap (Wrapf "failed to check ipv6 disables for link %v: %v" [link_Name link]) (CheckIPv6Disabled (link_Name link));
  (if ipv6Disabled : bool then mret tt
   else
     set true (IPv6AppSolicitSysctl (link_Name link)) 1;;
     set true (IPv6BaseReachableTimeMSSysctl (link_Name link)) baseReachableTime;;
     set false (AcceptRASysctl (link_Name link)) 0);;
  mret (mkDevice link ∅).

Definition fdb_entry (dev : Device) (remoteIPString : string) (mac : list Z) : Neigh :=
  mkNeigh (link_Index (dev_link dev)) AF_BRIDGE NUD_PERMANENT NTF_SELF (ParseIP remoteIPString) mac 0.

Definition entry_invalid (dev : Device) (entry : Neigh) : bool :=
  match remoteIPToMacMap dev !! IP_String (nb_IP entry) with
  | None => true
  | Some vtepMac =>
      let mac := HardwareAddr_String (nb_HardwareAddr entry) in
      negb (bool_decide (HardwareAddr_String vtepMac = mac)) && negb (bool_decide (mac = HardwareAddr_String broadcastFdbMac))
      && negb (bool_decide (nb_HardwareAddr entry = []))
  end.

Definition SyncVtepInfo (dev : Device) : M K unit :=
  each (λ '(remoteIPString, macAddr),
    wrap (Wrapf "failed to append unicast fdb entry %v for interface %v: %v" [remoteIPString; link_Name (dev_link dev)])
      (NeighAppend (fdb_entry dev remoteIPString macAddr));;
    wrap (Wrapf "failed to append broadcast fdb entry %v for interface %v: %v" [remoteIPString; link_Name (dev_link dev)])
      (NeighAppend (fdb_entry dev remoteIPString broadcastFdbMac))) (map_range 2 (remoteIPToMacMap dev));;
  fdbEntryList ← wrap (Wrapf "failed to list neigh: %v" []) (NeighList (link_Index (dev_link dev)) AF_BRIDGE);
  each (λ entry,
    if entry_invalid dev entry then
      wrap (Wrapf "failed to delete fdb entry %v for interface %v: %v" [link_Name (dev_link dev)])
        (NeighDel (mkNeigh (nb_LinkIndex entry) AF_BRIDGE (nb_State entry) (nb_Flags entry) (nb_IP entry) (nb_HardwareAddr entry) (nb_Type entry)))
    else mret tt) fdbEntryList.
End kernel.

(** ** node_ip_cache.go *)


(** [net.ParseMAC]: pairs of digits after [sep], or groups of four after a
    dot; 6, 8 or 20 bytes. *)
Definition hex_pair (a b : ascii) : option Z :=
  match hex_val a, hex_val b with Some x, Some y => Some (x * 16 + y) | _, _ => None end.

Fixpoint mac_pairs (sep : ascii) (s : string) : option (list Z) :=
  match s with
  | String a (String b EmptyString) => b0 ← hex_pair a b; Some [b0]
  | String a (String b (String c s)) =>
      if decide (c = sep) then b0 ← hex_pair a b; l ← mac_pairs sep s; Some (b0 :: l) else None
  | _ => None
  end.

Fixpoint mac_quads (s : string) : option (list Z) :=
  match s with
  | String a (String b (String c (String d EmptyString))) => x ← hex_pair a b; y ← hex_pair c d; Some [x; y]
  | String a (String b (String c (String d (String e s)))) =>
      if decide (e = "."%char) then x ← hex_pair a b; y ← hex_pair c d; l ← mac_quads s; Some (x :: y :: l) else None
  | _ => None
  end.

Definition ParseMAC (s : string) : outcome (list Z) :=
  let bytes :=
    if decide (String.length s < 14)%nat then None
    else match String.get 2 s, String.get 4 s with
         | Some c, Some d =>
             if decide (c = ":"%char ∨ c = "-"%char) then mac_pairs c s
             else if decide (d = "."%char) then mac_quads s else None
         | _, _ => None
         end in
  match bytes with
  | Some hw => if decide (length hw = 6%nat ∨ length hw = 8%nat ∨ length hw = 20%nat) then Ret hw
               else Fail (Errorf "invalid MAC address" [s])
  | None => Fail (Errorf "invalid MAC address" [s])
  end.

(** A call holds the lock from its first to its last step. *)
Definition NodeIPCache : Type := gmap string (list Z).
Definition NewNodeIPCache : NodeIPCache := ∅.

Definition record_list (ipStringList : list string) (macAddr : list Z) (c : NodeIPCache) : NodeIPCache :=
  fold_left (λ c ipString, <[ipString := macAddr]> c) ipStringList c.

Definition update_node (localNodeName : string) (node : Node) : M NodeIPCache unit :=
  let m := node_Meta node in
  if decide (om_Name m = localNodeName) then mret tt
  else
    match om_Annotations m !! AnnotationNodeVtepMac, om_Annotations m !! AnnotationNodeLocalVxlanIPList with
    | Some mac, Some ips =>
        macAddr ← wrap (Wrapf "failed to parse node vtep mac %v: %v" [mac]) (lift (ParseMAC mac));
        modify (record_list (Split ips ",") macAddr)
    | _, _ => mret tt
    end.

Definition update_remote (remoteVtep : RemoteVtep) : M NodeIPCache unit :=
  let info := rv_VTEPInfo (rv_Spec remoteVtep) in
  macAddr ← wrap (Wrapf "failed to parse remote node vtep mac %v: %v" [vtep_MAC info]) (lift (ParseMAC (vtep_MAC info)));
  match om_Annotations (rv_Meta remoteVtep) !! AnnotationNodeLocalVxlanIPList with
  | None => modify <[vtep_IP info := macAddr]>
  | Some ips => modify (record_list (Split ips ",") macAddr)
  end.

Definition UpdateNodeIPs (nodeList : list Node) (localNodeName : string) (remoteVtepList : list RemoteVtep) : M NodeIPCache unit :=
  put ∅;;
  each (update_node localNodeName) nodeList;;
  each update_remote remoteVtepList.

Definition SearchIP (ip : netIP) (c : NodeIPCache) : option (list Z) := c !! IP_String ip.
