(* ===== verification/Route.v ===== *)
(** * Routes and policy rules (pkg/daemon/route)

    A manager records the subnets and makes the kernel's rules and route
    tables follow them.  The infos of subnets are shared by two maps of the
    manager: they are the elements of a heap, pointers are indices.  The texts
    of routes and rules in errors are left out. *)

From Stdlib Require Import Ascii.
From stdpp Require Import pretty.
From S2P Require Import Prelude GoNet GoStrings NetText CNIPlugins NetworkingV1 Utils IPRange Netlink DaemonUtils IPSet.

Local Open Scope Z_scope.

Definition MinRouteTableNum : Z := 10000.
Definition MaxRouteTableNum : Z := 40000.
Definition MaxRulePriority : Z := 32767.
Definition NodeLocalTableNum : Z := 255.
Definition PodToNodeBackTrafficMark : Z := 32.

Record SubnetInfo := mkSubnetInfo {
  cidr : IPNet;
  gateway : netIP;
  si_excludeIPs : list netIP;
  includedIPRanges : list IPRange;
  forwardNodeIfName : string;
  autoNatOutgoing : bool;
  isUnderlayOnHost : bool;
  mode : string
}.

(** A map of infos, with the pointers followed. *)
Abbreviation SubnetInfoMap := (gmap string SubnetInfo).
Abbreviation BlockMap := (gmap string IPNet).

(** ** Pure helpers of utils.go *)

Definition realRulePriority (priority : Z) : Z := if priority =? -1 then 0 else priority.

Definition defaultRouteDstByFamily (family : Z) : IPNet :=
  if family =? FAMILY_V6 then mkIPNet (To16 (ParseIP "::")) (CIDRMask 0 128)
  else mkIPNet (To4 (ParseIP "0.0.0.0")) (CIDRMask 0 32).

Definition isExcludeRoute (route : Route) : bool := rt_Type route =? RTN_THROW.

Definition combineLocalAndRemoteSubnetInfoMap (local remote : SubnetInfoMap) : SubnetInfoMap :=
  if decide (size remote = 0%nat) then local else remote ∪ local.
Definition combineLocalAndRemoteExcludeIPBlockMap (local remote : BlockMap) : BlockMap :=
  if decide (size remote = 0%nat) then local else remote ∪ local.

(** The priorities in use, and that of the rule for the local table: the last
    one of the list, or 0. *)
Definition used_priorities (ruleList : list Rule) : gset Z := list_to_set (map (λ rule, realRulePriority (ru_Priority rule)) ruleList).
Definition local_priority (ruleList : list Rule) : Z :=
  fold_left (λ p rule, if ru_Table rule =? NodeLocalTableNum then realRulePriority (ru_Priority rule) else p) ruleList 0.

(** The loop over the priorities up to [MaxRulePriority]; [fuel] is the number
    of those that are left. *)
Fixpoint priority_loop (fuel : nat) (priority : Z) (used : gset Z) (nodeLocalRulePrio : Z) : option Z :=
  match fuel with
  | O => None
  | S fuel =>
      if decide (priority ∈ used) then priority_loop fuel (priority + 1) used nodeLocalRulePrio
      else if nodeLocalRulePrio <? priority then Some priority
      else priority_loop fuel (priority + 1) used nodeLocalRulePrio
  end.

Definition same_src (src rule_src : option IPNet) : bool :=
  match src, rule_src with
  | None, None => true
  | Some a, Some b => bool_decide (IPNet_String a = IPNet_String b)
  | _, _ => false
  end.

Section kernel.
Context {K : Type} `{Netlink K} {MO : MapOrder} `{CNIPlugins} `{IPAddrLib}.

Definition in_table (table : Z) : Route := mkRoute 0 None [] [] table 0 0 0.

Definition checkIfRouteTableEmpty (tableNum family : Z) : M K bool :=
  routeList ← wrap (Wrapf "failed to list route for table %v: %v" [pretty tableNum])
    (RouteListFiltered family (in_table tableNum) [RT_FILTER_TABLE]);
  mret (bool_decide (length routeList = 0%nat)).

Definition listRoutesByTable (tableNum family : Z) : M K (list Route) :=
  wrap (Wrapf "failed to list route for table %v: %v" [pretty tableNum])
    (RouteListFiltered family (in_table tableNum) [RT_FILTER_TABLE]).

Definition findHighestUnusedRulePriority (family : Z) : M K Z :=
  ruleList ← wrap (Wrapf "failed to list rules: %v" []) (RuleList family);
  match priority_loop (Z.to_nat (MaxRulePriority + 1)) 0 (used_priorities ruleList) (local_priority ruleList) with
  | Some priority => mret priority
  | None => fail (Errorf "cannot find unused rule priority" [])
  end.

(** Two pointers are equal when both are nil; other pointers are never shared
    between the arguments and the list of the kernel. *)
Definition checkIfRuleExist (src : option IPNet) (table family : Z) : M K (option Rule) :=
  ruleList ← wrap (Wrapf "list subnet policy rules error: %v" []) (RuleList family);
  mret (List.find (λ rule, same_src src (ru_Src rule) && (if 0 <? table then ru_Table rule =? table else true)) ruleList).

(** The rule with the fields that are set on [netlink.NewRule()]. *)
Definition new_rule (src : option IPNet) (table priority family mark mask : Z) : Rule :=
  mkRule src (ru_Dst NewRule) table priority family mark mask (ru_IifName NewRule) (ru_OifName NewRule).

(** The text of a nil subnet is taken for the error message: Go 1.16 panics. *)
Definition appendHighestUnusedPriorityRuleIfNotExist (src : option IPNet) (table family mark mask : Z) : M K unit :=
  exist ← attempt (checkIfRuleExist src table family);
  match exist with
  | inr err =>
      src ← lift (deref src);
      fail (Wrapf "failed to check rule (src: %v, table: %v) exist: %v" [IPNet_String src; pretty table] err)
  | inl (Some _) => mret tt
  | inl None =>
      priority ← wrap (Wrapf "failed to find highest unused rule priority for to overlay subnet rule: %v" [])
        (findHighestUnusedRulePriority family);
      wrap (Wrapf "failed to add policy rule %v: %v" []) (RuleAdd (new_rule src table priority family mark mask))
  end.

(** The first empty table from [i] on; [fuel] is the number of tables left. *)
Fixpoint empty_table_loop (fuel : nat) (i family : Z) : M K Z :=
  match fuel with
  | O => fail (Errorf "cannot find empty route table in range %v~%v" [pretty MinRouteTableNum; pretty MaxRouteTableNum])
  | S fuel =>
      empty ← wrap (Wrapf "failed to check route table %v empty: %v" [pretty i]) (checkIfRouteTableEmpty i family);
      if empty : bool then mret i else empty_table_loop fuel (i + 1) family
  end.

Definition findEmptyRouteTable (family : Z) : M K Z :=
  empty_table_loop (Z.to_nat (MaxRouteTableNum - MinRouteTableNum)) MinRouteTableNum family.

(** The loop over the routes of the table of a rule. *)
Fixpoint pod_subnet_route (routes : list Route) (count : nat) : M K bool :=
  match routes with
  | [] => mret false
  | route :: rest =>
      if isExcludeRoute route then pod_subnet_route rest count
      else
        link ← wrap (Wrapf "failed to get link for route %v: %v" []) (LinkByIndex (rt_LinkIndex route));
        if bool_decide (rt_Dst route = None) && bool_decide (count = 2%nat) then mret true
        else if Contains (link_Name link) VxlanLinkInfix &&
                negb (match rt_Dst route with Some dst => negb (IsGlobalUnicast (IPNet_IP dst)) | None => false end) then mret true
        else pod_subnet_route rest count
  end.

Definition checkIsFromPodSubnetRule (rule : Rule) (family : Z) : M K bool :=
  if negb (bool_decide (ru_IifName rule = "")) || negb (bool_decide (ru_OifName rule = "")) || negb (bool_decide (ru_Dst rule = None))
     || bool_decide (ru_Src rule = None) || (ru_Table rule <? MinRouteTableNum) || (MaxRouteTableNum <=? ru_Table rule) then mret false
  else
    routes ← wrap (Wrapf "failed to list route for table %v: %v" [pretty (ru_Table rule)]) (listRoutesByTable (ru_Table rule) family);
    pod_subnet_route routes (length routes).

Definition set_Dst (r : Route) (dst : option IPNet) : Route :=
  mkRoute (rt_LinkIndex r) dst (rt_Gw r) (rt_Src r) (rt_Table r) (rt_Scope r) (rt_Flags r) (rt_Type r).

Definition clearRouteTable (table family : Z) : M K unit :=
  let defaultRouteDst := defaultRouteDstByFamily family in
  routeList ← wrap (Wrapf "failed to list route for table %v: %v" [pretty table])
    (RouteListFiltered family (in_table table) [RT_FILTER_TABLE]);
  each (λ r, wrap (Wrapf "failed to delete route %v for table %v: %v" [pretty table])
    (RouteDel (match rt_Dst r with None => set_Dst r (Some defaultRouteDst) | Some _ => r end))) routeList.

(** A nil [Dst] of a listed route is dereferenced. *)
Definition ensureExcludedIPBlockRoutes (excludeIPBlockMap : BlockMap) (table family : Z) : M K unit :=
  excludedRouteList ← wrap (Wrapf "failed to list excluded routes: %v" [])
    (RouteListFiltered family (mkRoute 0 None [] [] table 0 0 RTN_THROW) [RT_FILTER_TABLE; RT_FILTER_TYPE]);
  each (λ route,
    dst ← lift (deref (rt_Dst route));
    match excludeIPBlockMap !! IPNet_String dst with
    | Some _ => mret tt
    | None => wrap (Wrapf "failed delete excluded route %v: %v" []) (RouteDel route)
    end) excludedRouteList;;
  each (λ kv, wrap (Wrapf "failed to add excluded route for block %v: %v" [IPNet_String kv.2])
    (RouteReplace (mkRoute 0 (Some kv.2) [] [] table 0 0 RTN_THROW))) (map_range 10 excludeIPBlockMap).

Definition exclude_of (m : BlockMap) (info : SubnetInfo) : outcome BlockMap :=
  excludeIPBlocks ← wrap_outcome (Wrapf "failed to find excluded ip blocks for subnet %v: %v" [IPNet_String (cidr info)])
    (FindSubnetExcludeIPBlocks (cidr info) (includedIPRanges info) (gateway info) (si_excludeIPs info));
  Ret (fold_left (λ m block, <[IPNet_String block := block]> m) excludeIPBlocks m).

Definition findExcludeIPBlockMap (subnetInfoMap : SubnetInfoMap) : outcome BlockMap :=
  for_each exclude_of ∅ (map snd (map_range 11 subnetInfoMap)).

Definition default_route_of (forwardLink : Link) (dst : option IPNet) (gw : netIP) (table flags : Z) : Route :=
  mkRoute (link_Index forwardLink) dst gw [] table SCOPE_UNIVERSE flags 0.

Definition ensureRoutesForVxlanSubnet (forwardLink : Link) (cidr : IPNet) (table : Z) (autoNatOutgoing : bool) (family : Z)
    (underlaySubnetInfoMap : SubnetInfoMap) (underlayExcludeIPBlockMap : BlockMap) : M K unit :=
  routeList ← wrap (Wrapf "failed to list route for table %v: %v" [pretty table])
    (RouteListFiltered family (in_table table) [RT_FILTER_TABLE]);
  if negb autoNatOutgoing then
    let defaultRoute := default_route_of forwardLink (Some (defaultRouteDstByFamily family)) [] table 0 in
    wrap (Wrapf "failed to add overlay subnet %v default route %v: %v" [IPNet_String cidr]) (RouteReplace defaultRoute);;
    each (λ route, match rt_Dst route with
      | Some _ => wrap (Wrapf "failed to delete overlay route %v for table %v: %v" [pretty table]) (RouteDel route)
      | None => mret tt
      end) routeList
  else
    let delete route := wrap (Wrapf "failed to delete overlay route %v for table %v: %v" [pretty table]) (RouteDel route) in
    each (λ route,
      if isExcludeRoute route then mret tt
      else match rt_Dst route with
           | Some dst => match underlaySubnetInfoMap !! IPNet_String dst with Some _ => mret tt | None => delete route end
           | None => delete (set_Dst route (Some (defaultRouteDstByFamily family)))
           end) routeList;;
    each (λ kv : string * SubnetInfo,
      wrap (Wrapf "failed to set overlay route %v for table %v: %v" [pretty table])
        (RouteReplace (default_route_of forwardLink (Some (Route.cidr kv.2)) [] table 0))) (map_range 12 underlaySubnetInfoMap);;
    wrap (Wrapf "failed to ensure exclude all ip block routes: %v" [])
      (ensureExcludedIPBlockRoutes underlayExcludeIPBlockMap table family).

Definition ensureRoutesForVlanSubnet (forwardLink : Link) (cidr : IPNet) (gateway : netIP) (table family : Z) : M K unit :=
  localAddrList ← wrap (Wrapf "failed to list local addresses: %v" []) (AddrList None family);
  let isLocalSubnet := existsb (λ address, IPNet_Contains cidr (IPNet_IP (addr_IPNet address))
                                           && (Z.land (addr_Flags address) IFA_F_NOPREFIXROUTE =? 0)) localAddrList in
  let index := link_Index forwardLink in
  src ← (if isLocalSubnet : bool then
           found ← attempt (GetDefaultRoute family);
           (match found with
            | inl defaultRoute =>
                if (rt_LinkIndex defaultRoute =? index) && negb (bool_decide (rt_Gw defaultRoute = []))
                   && negb (IP_Equal (rt_Gw defaultRoute) gateway) then
                  fail (Errorf "exist default route of forward interface %v has a different gateway %v with %v"
                    [link_Name forwardLink; IP_String (rt_Gw defaultRoute); IP_String gateway])
                else mret tt
            | inr err => if decide (err = NotExist) then mret tt else fail (Wrapf "failed to get default route: %v" [] err)
            end);;
           directRouteList ← wrap (Wrapf "failed to list direct route for interface %v and subnet %v: %v" [link_Name forwardLink; IPNet_String cidr])
             (RouteListFiltered family (mkRoute index (Some cidr) [] [] 0 0 0 0) [RT_FILTER_OIF; RT_FILTER_DST]);
           match directRouteList with
           | [] => fail (Errorf "forward interface %v should have direct route for local subnet %v" [link_Name forwardLink; IPNet_String cidr])
           | r :: _ => mret (rt_Src r)
           end
         else mret []);
  wrap (Wrapf "failed to add vlan subent %v direct route %v: %v" [IPNet_String cidr])
    (RouteReplace (mkRoute index (Some cidr) [] src table SCOPE_UNIVERSE 0 0));;
  wrap (Wrapf "failed to add vlan subnet %v default route %v: %v" [IPNet_String cidr])
    (RouteReplace (default_route_of forwardLink None gateway table FLAG_ONLINK)).

Definition ensureRoutesForBGPSubnet (forwardLink : Link) (cidr : IPNet) (table : Z) (gateway : netIP) : M K unit :=
  wrap (Wrapf "failed to add bgp subnet %v default route %v: %v" [IPNet_String cidr])
    (RouteReplace (default_route_of forwardLink None gateway table 0)).

Definition ensureFromPodSubnetRuleAndRoutes (forwardNodeIfName : string) (cidr : IPNet) (gateway : netIP) (autoNatOutgoing : bool)
    (family : Z) (underlaySubnetInfoMap : SubnetInfoMap) (underlayExcludeIPBlockMap : BlockMap) (mode : string) : M K unit :=
  existRule ← wrap (Wrapf "failed to check rule (src: %v, table: %v) exist: %v" [IPNet_String cidr; pretty 0])
    (checkIfRuleExist (Some cidr) (-1) family);
  table ← (match existRule with
           | None => wrap (Wrapf "failed to find empty route table: %v" []) (findEmptyRouteTable family)
           | Some rule => mret (ru_Table rule)
           end);
  forwardLink ← wrap (Wrapf "failed to get forward link %v: %v" [forwardNodeIfName]) (LinkByName forwardNodeIfName);
  (if decide (mode = NetworkModeVxlan) then
     wrap (Wrapf "failed to ensure routes for vxlan subnet %v: %v" [IPNet_String cidr])
       (ensureRoutesForVxlanSubnet forwardLink cidr table autoNatOutgoing family underlaySubnetInfoMap underlayExcludeIPBlockMap)
   else if decide (mode = NetworkModeVlan) then
     wrap (Wrapf "failed to ensure routes for vlan subnet %v: %v" [IPNet_String cidr])
       (ensureRoutesForVlanSubnet forwardLink cidr gateway table family)
   else if decide (mode = NetworkModeBGP) then
     wrap (Wrapf "failed to ensure routes for bgp subnet %v: %v" [IPNet_String cidr]) (ensureRoutesForBGPSubnet forwardLink cidr table gateway)
   else fail (Errorf "unsupported network mode %v" [mode]));;
  match existRule with
  | Some _ => mret tt
  | None =>
      priority ← wrap (Wrapf "failed to find highest unused rule priority: %v" []) (findHighestUnusedRulePriority family);
      wrap (Wrapf "failed to add rule %v: %v" [])
        (RuleAdd (new_rule (Some cidr) table priority family (ru_Mark NewRule) (ru_Mask NewRule)))
  end.
End kernel.
