(* ===== verification/RouteManager.v ===== *)
(** * The manager of the routes (pkg/daemon/route/route.go) *)

From Stdlib Require Import Ascii.
From stdpp Require Import pretty.
From S2P Require Import Prelude GoNet GoStrings NetBlock NetText CNIPlugins NetworkingV1 Utils IPRange Netlink DaemonUtils Route.

Local Open Scope Z_scope.

(** The maps hold pointers into the heap of infos. *)
Record Manager := mkManager {
  localDirectTableNum : Z;
  toOverlaySubnetTableNum : Z;
  overlayMarkTableNum : Z;
  overlayIfName : string;
  family : Z;
  infos : list SubnetInfo;
  localClusterOverlaySubnetInfoMap : gmap string nat;
  localClusterUnderlaySubnetInfoMap : gmap string nat;
  localTotalSubnetInfoMap : gmap string nat;
  remoteOverlaySubnetInfoMap : gmap string nat;
  remoteUnderlaySubnetInfoMap : gmap string nat
}.

Definition follow (m : Manager) (map : gmap string nat) : gmap string SubnetInfo := omap (infos m !!.) map.

Definition ResetInfos (m : Manager) : Manager :=
  mkManager (localDirectTableNum m) (toOverlaySubnetTableNum m) (overlayMarkTableNum m) (overlayIfName m) (family m)
    (infos m) ∅ ∅ ∅ ∅ ∅.

Section record.
Context `{CNIPlugins} `{IPAddrLib}.

(** What an addition does to the info of its subnet; a nil address is empty. *)
Definition extend_info (subnetCidr : IPNet) (start stop : netIP) (excludeIPs : list netIP) (info : SubnetInfo) : SubnetInfo :=
  let ranges :=
    if decide (start = [] ∧ stop = []) then includedIPRanges info
    else
      let start := if decide (start = []) then IPNet_IP subnetCidr else start in
      let stop := if decide (stop = []) then daemon_LastIP subnetCidr else stop in
      match CreateIPRange start stop with
      | Ret (Some ipRange) => includedIPRanges info ++ [ipRange]
      | _ => includedIPRanges info
      end in
  mkSubnetInfo (cidr info) (gateway info) (si_excludeIPs info ++ excludeIPs) ranges (forwardNodeIfName info)
    (autoNatOutgoing info) (isUnderlayOnHost info) (mode info).

Definition AddSubnetInfo (subnetCidr : IPNet) (gateway start stop : netIP) (excludeIPs : list netIP) (forwardNodeIfName : string)
    (autoNatOutgoing isOverlay isUnderlayOnHost : bool) (mode : string) (m : Manager) : Manager :=
  let cidrString := IPNet_String subnetCidr in
  let '(heap, p) :=
    match localTotalSubnetInfoMap m !! cidrString with
    | Some p => (infos m, p)
    | None => (infos m ++ [mkSubnetInfo subnetCidr gateway [] [] forwardNodeIfName autoNatOutgoing isUnderlayOnHost mode], length (infos m))
    end in
  mkManager (localDirectTableNum m) (toOverlaySubnetTableNum m) (overlayMarkTableNum m)
    (if isOverlay then forwardNodeIfName else overlayIfName m) (family m)
    (alter (extend_info subnetCidr start stop excludeIPs) p heap)
    (if isOverlay then <[cidrString := p]> (localClusterOverlaySubnetInfoMap m) else localClusterOverlaySubnetInfoMap m)
    (if isOverlay then localClusterUnderlaySubnetInfoMap m else <[cidrString := p]> (localClusterUnderlaySubnetInfoMap m))
    (<[cidrString := p]> (localTotalSubnetInfoMap m)) (remoteOverlaySubnetInfoMap m) (remoteUnderlaySubnetInfoMap m).

Definition AddRemoteSubnetInfo (subnetCidr : IPNet) (gateway start stop : netIP) (excludeIPs : list netIP) (isOverlay : bool)
    (m : Manager) : Manager :=
  let cidrString := IPNet_String subnetCidr in
  let map := if isOverlay then remoteOverlaySubnetInfoMap m else remoteUnderlaySubnetInfoMap m in
  let '(heap, p) :=
    match map !! cidrString with
    | Some p => (infos m, p)
    | None => (infos m ++ [mkSubnetInfo subnetCidr gateway [] [] "" false false ""], length (infos m))
    end in
  mkManager (localDirectTableNum m) (toOverlaySubnetTableNum m) (overlayMarkTableNum m) (overlayIfName m) (family m)
    (alter (extend_info subnetCidr start stop excludeIPs) p heap)
    (localClusterOverlaySubnetInfoMap m) (localClusterUnderlaySubnetInfoMap m) (localTotalSubnetInfoMap m)
    (if isOverlay then <[cidrString := p]> map else remoteOverlaySubnetInfoMap m)
    (if isOverlay then remoteUnderlaySubnetInfoMap m else <[cidrString := p]> map).
End record.

Section kernel.
Context {K : Type} `{Netlink K} {MO : MapOrder} `{CNIPlugins} `{IPAddrLib}.

(** The checks that a table is empty or holds only routes of ours. *)
Definition check_table (table family : Z) (list_error : string) (check : list Route → M K unit) : M K unit :=
  empty ← wrap (Wrapf "failed to check table %v empty: %v" [pretty table]) (checkIfRouteTableEmpty table family);
  if empty : bool then mret tt
  else
    routes ← wrap (Wrapf list_error [pretty table]) (listRoutesByTable table family);
    check routes.

Definition check_local_direct (table : Z) (route : Route) : M K unit :=
  match rt_Dst route with
  | None => fail (Errorf "local direct route table %v is used by others, and nil Dst found" [pretty table])
  | Some dst =>
      if rt_LinkIndex route <=? 0 then fail (Errorf "find no device route, local direct route table %v is used by others" [pretty table])
      else
        vethIf ← wrap (Wrapf "failed to find veth interface by index %v: %v" [pretty (rt_LinkIndex route)]) (LinkByIndex (rt_LinkIndex route));
        let '(ones, bits) := Mask_Size (IPNet_Mask dst) in
        if negb (bool_decide (rt_Gw route = [])) || negb (ones =? bits) || negb (bool_decide (link_Type vethIf = "veth")) then
          fail (Errorf "local direct route table %v is used by others" [pretty table])
        else mret tt
  end.

Definition check_to_overlay (table : Z) (route : Route) : M K unit :=
  if (rt_LinkIndex route <=? 0) && negb (isExcludeRoute route) then
    fail (Errorf "find no device route, to overlay subnet route table %v is used by others" [pretty table])
  else if 0 <? rt_LinkIndex route then
    routeIf ← wrap (Wrapf "failed to get route interface by index %v: %v" [pretty (rt_LinkIndex route)]) (LinkByIndex (rt_LinkIndex route));
    if link_Loopback routeIf && isExcludeRoute route then mret tt
    else if negb (bool_decide (rt_Gw route = [])) || negb (bool_decide (link_Type routeIf = "vxlan")) then
      fail (Errorf "to overlay subnet route table %v is used by others" [pretty table])
    else mret tt
  else mret tt.

Definition check_overlay_mark (table : Z) (routes : list Route) : M K unit :=
  match routes with
  | [route] =>
      overlayIf ← wrap (Wrapf "failed to find overlay interface by index %v: %v" [pretty (rt_LinkIndex route)]) (LinkByIndex (rt_LinkIndex route));
      if negb (bool_decide (rt_Dst route = None)) || negb (bool_decide (rt_Gw route = [])) || negb (bool_decide (link_Type overlayIf = "vxlan")) then
        fail (Errorf "overlay-mark table %v is used by others" [pretty table])
      else mret tt
  | _ => fail (Errorf "overlay-mark table %v is used, cause more than on route exist" [pretty table])
  end.

Definition CreateRouteManager (localDirectTableNum toOverlaySubnetTableNum overlayMarkTableNum family : Z) : M K Manager :=
  check_table localDirectTableNum family "failed to list routes for local direct table %v: %v"
    (each (check_local_direct localDirectTableNum));;
  check_table toOverlaySubnetTableNum family "failed to list routes for to overlay subnet route table %v: %v"
    (each (check_to_overlay toOverlaySubnetTableNum));;
  check_table overlayMarkTableNum family "failed to list routes for overlay-mark table %v: %v"
    (check_overlay_mark overlayMarkTableNum);;
  if negb (family =? FAMILY_V6) && negb (family =? FAMILY_V4) then fail (Errorf "unsupported family %v" [pretty family])
  else mret (mkManager localDirectTableNum toOverlaySubnetTableNum overlayMarkTableNum "" family [] ∅ ∅ ∅ ∅ ∅).

(** The route of an overlay subnet. *)
Definition overlay_route (m : Manager) (dst : IPNet) (overlayLink : Link) : Route :=
  mkRoute (link_Index overlayLink) (Some dst) [] [] (toOverlaySubnetTableNum m) SCOPE_UNIVERSE 0 0.

(** A listed route is kept, under the map that has it, or deleted. *)
Definition keep_or_delete (local remote : gmap string SubnetInfo) (route : Route) : M K unit :=
  if isExcludeRoute route then mret tt
  else
    dst ← lift (deref (rt_Dst route));
    match local !! IPNet_String dst, remote !! IPNet_String dst with
    | None, None => wrap (Wrapf "failed to delete route %v: %v" []) (RouteDel route)
    | _, _ => mret tt
    end.

(** The texts of the destinations that were kept under a map. *)
Definition kept_routes (routes : list Route) (known : string → bool) : gset string :=
  list_to_set (omap (λ route, if isExcludeRoute route then None
                              else match rt_Dst route with
                                   | Some dst => if known (IPNet_String dst) then Some (IPNet_String dst) else None
                                   | None => None
                                   end) routes).

Definition add_overlay_route (m : Manager) (existing : gset string) (ifName : SubnetInfo → string) (message : string) (info : SubnetInfo) : M K unit :=
  if decide (IPNet_String (cidr info) ∈ existing) then mret tt
  else
    overlayLink ← wrap (Wrapf "failed to get overlay link %v: %v" [ifName info]) (LinkByName (ifName info));
    wrap (Wrapf message [IPNet_String (cidr info)]) (RouteReplace (overlay_route m (cidr info) overlayLink)).

Definition ensureToOverlaySubnetRoutes (excludeIPBlockMap : gmap string IPNet) (m : Manager) : M K unit :=
  let local := follow m (localClusterOverlaySubnetInfoMap m) in
  let remote := follow m (remoteOverlaySubnetInfoMap m) in
  toOverlaySubnetRoutes ← wrap (Wrapf "failed to list to-overlay-pod-subnet routes for table %v: %v" [pretty (toOverlaySubnetTableNum m)])
    (listRoutesByTable (toOverlaySubnetTableNum m) (family m));
  each (keep_or_delete local remote) toOverlaySubnetRoutes;;
  let known_local n := bool_decide (is_Some (local !! n)) in
  let existOverlaySubnetRouteMap := kept_routes toOverlaySubnetRoutes known_local in
  let existRemoteOverlaySubnetRouteMap :=
    kept_routes toOverlaySubnetRoutes (λ n, negb (known_local n) && bool_decide (is_Some (remote !! n))) in
  each (add_overlay_route m existOverlaySubnetRouteMap forwardNodeIfName "failed to add to-overlay-pod-subnet route for %v: %v")
    (map snd (map_range 20 local));;
  each (add_overlay_route m existRemoteOverlaySubnetRouteMap (λ _, overlayIfName m) "failed to add to remote overlay pod subnet route for %v: %v")
    (map snd (map_range 21 remote));;
  wrap (Wrapf "failed to ensure exclude ip block routes: %v" [])
    (ensureExcludedIPBlockRoutes excludeIPBlockMap (toOverlaySubnetTableNum m) (family m)).

Definition ensureOverlayMarkRoutes (m : Manager) : M K unit :=
  if decide (overlayIfName m = "") then mret tt
  else
    overlayLink ← wrap (Wrapf "failed to get overlay link %v: %v" [overlayIfName m]) (LinkByName (overlayIfName m));
    wrap (Wrapf "failed to add overlay-mark: %v" [])
      (RouteReplace (default_route_of overlayLink (Some (defaultRouteDstByFamily (family m))) [] (overlayMarkTableNum m) 0)).

(** A rule of a subnet that is gone. *)
Definition clean_rule (m : Manager) (rule : Rule) : M K unit :=
  isFromPodSubnetRule ← wrap (Wrapf "failed to check if rule %v is from pod subnet rule: %v" []) (checkIsFromPodSubnetRule rule (family m));
  if isFromPodSubnetRule : bool then
    src ← lift (deref (ru_Src rule));
    match localTotalSubnetInfoMap m !! IPNet_String src with
    | Some _ => mret tt
    | None =>
        wrap (Wrapf "del subnet policy rule error: %v" [])
          (RuleDel (mkRule (ru_Src rule) (ru_Dst rule) (ru_Table rule) (ru_Priority rule) (family m) (ru_Mark rule) (ru_Mask rule)
            (ru_IifName rule) (ru_OifName rule)));;
        wrap (Wrapf "failed to clear route table %v: %v" [pretty (ru_Table rule)]) (clearRouteTable (ru_Table rule) (family m))
    end
  else mret tt.

Definition SyncRoutes (m : Manager) : M K unit :=
  wrap (Wrapf "failed to append local-pod-direct rule: %v" [])
    (appendHighestUnusedPriorityRuleIfNotExist None (localDirectTableNum m) (family m) 0 0);;
  wrap (Wrapf "failed to append to-overlay-pod-subnet rule: %v" [])
    (appendHighestUnusedPriorityRuleIfNotExist None (toOverlaySubnetTableNum m) (family m) 0 0);;
  wrap (Wrapf "failed to append overlay-mark rule: %v" [])
    (appendHighestUnusedPriorityRuleIfNotExist None (overlayMarkTableNum m) (family m) PodToNodeBackTrafficMark PodToNodeBackTrafficMark);;
  let underlay := follow m (localClusterUnderlaySubnetInfoMap m) in
  let remote_underlay := follow m (remoteUnderlaySubnetInfoMap m) in
  let overlay := follow m (localClusterOverlaySubnetInfoMap m) in
  localUnderlayExcludeIPBlockMap ← lift (wrap_outcome (Wrapf "failed to find exclude ip blocks for underlay subnet: %v" [])
    (findExcludeIPBlockMap underlay));
  remoteUnderlayExcludeIPBlockMap ← lift (wrap_outcome (Wrapf "failed to find exclude ip blocks for remote underlay subnet: %v" [])
    (findExcludeIPBlockMap remote_underlay));
  localOverlayExcludeIPBlockMap ← lift (wrap_outcome (Wrapf "failed to find exclude ip blocks for overlay subnet: %v" [])
    (findExcludeIPBlockMap overlay));
  remoteOverlayExcludeIPBlockMap ← lift (wrap_outcome (Wrapf "failed to find exclude ip blocks for overlay subnet: %v" [])
    (findExcludeIPBlockMap (follow m (remoteOverlaySubnetInfoMap m))));
  wrap (Wrapf "failed to ensure to-overlay-pod-subnet routes: %v" [])
    (ensureToOverlaySubnetRoutes (combineLocalAndRemoteExcludeIPBlockMap localOverlayExcludeIPBlockMap remoteOverlayExcludeIPBlockMap) m);;
  wrap (Wrapf "failed to ensure overlay-mark routes: %v" []) (ensureOverlayMarkRoutes m);;
  ruleList ← wrap (Wrapf "failed to list rule: %v" []) (RuleList (family m));
  each (clean_rule m) ruleList;;
  each (λ info, wrap (Wrapf "failed to add subnet %v rule and routes: %v" [IPNet_String (cidr info)])
    (ensureFromPodSubnetRuleAndRoutes (forwardNodeIfName info) (cidr info) (gateway info) (autoNatOutgoing info) (family m)
      (combineLocalAndRemoteSubnetInfoMap underlay remote_underlay)
      (combineLocalAndRemoteExcludeIPBlockMap localUnderlayExcludeIPBlockMap remoteUnderlayExcludeIPBlockMap) (mode info)))
    (map snd (map_range 22 overlay));;
  each (λ info, if isUnderlayOnHost info then
      wrap (Wrapf "failed to add subnet %v rule and routes: %v" [IPNet_String (cidr info)])
        (ensureFromPodSubnetRuleAndRoutes (forwardNodeIfName info) (cidr info) (gateway info) (autoNatOutgoing info) (family m) ∅ ∅ (mode info))
    else mret tt) (map snd (map_range 23 underlay)).
End kernel.
