(* ===== verification/RouteSync.v ===== *)
(** * A synchronisation makes the route table of the overlay what was recorded *)

From Stdlib Require Import Ascii.
From stdpp Require Import pretty.
From S2P Require Import Prelude GoNet GoStrings NetText CNIPlugins NetworkingV1 Utils IPRange Netlink DaemonUtils Route RouteManager.

Local Open Scope Z_scope.

(** ** What the kernel does

    The route tables by family and number, their routes by destination (the
    code sets no metric, so that there is one route for a destination), and
    the indexes of links by name. *)

Definition net_family (n : IPNet) : Z := if decide (To4 (IPNet_IP n) = []) then FAMILY_V6 else FAMILY_V4.
Definition dst_text (r : Route) : string := match rt_Dst r with Some n => IPNet_String n | None => "default" end.

(** What the kernel keeps of a route that it is given: it may choose a device
    for one that has none, and a type when none is set. *)
Definition stored (r r' : Route) : Prop :=
  rt_Dst r' = rt_Dst r ∧ rt_Table r' = rt_Table r ∧ isExcludeRoute r' = isExcludeRoute r ∧
  (rt_LinkIndex r ≠ 0 → rt_LinkIndex r' = rt_LinkIndex r).

Class RouteView (K : Type) : Type := {
  tables : K → Z → Z → gmap string Route;
  link_index : K → string → option Z
}.

Section views.
Context {K : Type} `{RouteView K}.

(** The table of a family and a number is changed by [g]. *)
Definition updated (f t : Z) (g : gmap string Route → gmap string Route) (k k' : K) : Prop :=
  (∀ f' t', tables k' f' t' = if decide (f' = f ∧ t' = t) then g (tables k f t) else tables k f' t') ∧
  (∀ name, link_index k' name = link_index k name).
Definition unchanged (k k' : K) : Prop :=
  (∀ f t, tables k' f t = tables k f t) ∧ (∀ name, link_index k' name = link_index k name).

Definition reads {A} (m : M K A) (k : K) (Q : A → Prop) : Prop :=
  post m k (λ o k', unchanged k k' ∧ match o with Ret a => Q a | Fail _ => True | _ => False end).
Definition writes (f t : Z) (g : gmap string Route → gmap string Route) (m : M K unit) (k : K) : Prop :=
  post m k (λ o k', match o with Ret _ => updated f t g k k' | Fail _ => unchanged k k' | _ => False end).
End views.

Definition routes_of (m : gmap string Route) : list Route := map snd (map_to_list m).

Class RouteLaws {K : Type} `{Netlink K} `{RouteView K} : Prop := {
  tables_wf k f t d r : tables k f t !! d = Some r →
    dst_text r = d ∧ rt_Table r = t ∧ match rt_Dst r with Some n => net_family n = f | None => True end;
  list_table f t k : reads (RouteListFiltered f (in_table t) [RT_FILTER_TABLE]) k (λ l, l ≡ₚ routes_of (tables k f t));
  list_throw f t k : reads (RouteListFiltered f (mkRoute 0 None [] [] t 0 0 RTN_THROW) [RT_FILTER_TABLE; RT_FILTER_TYPE]) k
    (λ l, l ≡ₚ List.filter isExcludeRoute (routes_of (tables k f t)));
  RouteReplace_law r n k : rt_Dst r = Some n → rt_Table r ≠ 0 →
    ∃ r', stored r r' ∧ writes (net_family n) (rt_Table r) <[IPNet_String n := r']> (RouteReplace r) k;
  RouteDel_law r n k : rt_Dst r = Some n → tables k (net_family n) (rt_Table r) !! IPNet_String n = Some r →
    writes (net_family n) (rt_Table r) (delete (IPNet_String n)) (RouteDel r) k;
  LinkByName_law name k : reads (LinkByName name) k (λ l, link_index k name = Some (link_Index l) ∧ link_Index l ≠ 0)
}.

(** ** Loops over items with keys of their own

    A step changes the table at most at the key of its item; [P] relates what
    is there before and after.  A panic leaves what a failure leaves; there is
    one only when [Bad] holds. *)

Definition ended {A} (Bad : Prop) (o : outcome A) (returned failed : Prop) : Prop :=
  match o with
  | Ret _ => returned
  | Fail _ => failed
  | Panic => Bad ∧ failed
  | Diverge => False
  end.

Section keyed.
Context {K V A : Type} (Bad : Prop) (table : K → gmap string V) (key : A → string) (Inv : K → Prop).
Context (P : A → option V → option V → Prop).

Definition step_at (x : A) (m : M K unit) (k : K) : Prop :=
  post m k (λ o k', Inv k' ∧ (∀ d, d ≠ key x → table k' !! d = table k !! d) ∧
    ended Bad o (P x (table k !! key x) (table k' !! key x)) (table k' !! key x = table k !! key x)).

Definition changed (l : list A) (k : K) (o : outcome unit) (k' : K) : Prop :=
  Inv k' ∧ (∀ d, d ∉ map key l → table k' !! d = table k !! d) ∧
  ended Bad o (∀ x, x ∈ l → P x (table k !! key x) (table k' !! key x))
    (∀ x, x ∈ l → table k' !! key x = table k !! key x ∨ P x (table k !! key x) (table k' !! key x)).

Lemma each_keyed f l k :
  NoDup (map key l) → Inv k →
  (∀ x k1, x ∈ l → Inv k1 → table k1 !! key x = table k !! key x → step_at x (f x) k1) →
  post (each f l) k (changed l k).
Proof.
  revert k. induction l as [|x l IH]; intros k Hnd Hk Hf; cbn [each].
  { apply post_ret. split_and!; [done|done|]. intros x Hx. by apply elem_of_nil in Hx. }
  cbn [map] in Hnd. apply NoDup_cons in Hnd as [Hx Hnd]. apply post_bind.
  eapply post_mono; [by apply Hf; [left|..]|].
  assert (∀ k', Inv k' → (∀ d, d ≠ key x → table k' !! d = table k !! d) → table k' !! key x = table k !! key x →
    Inv k' ∧ (∀ d, d ∉ map key (x :: l) → table k' !! d = table k !! d) ∧
    ∀ y, y ∈ x :: l → table k' !! key y = table k !! key y ∨ P y (table k !! key y) (table k' !! key y)) as Hstop.
  { intros k1 Hk1 Hother Hp. split_and!; [done| |].
    - intros d Hd. apply Hother. set_solver.
    - intros y _. left. destruct (decide (key y = key x)) as [->|]; [done|by apply Hother]. }
  intros [[]|e| |] k1 (Hk1 & Hother & Hp); [|by apply Hstop|by destruct Hp as [HB Hp]; destruct (Hstop k1 Hk1 Hother Hp) as (? & ? & ?)|done].
  eapply post_mono; [apply (IH k1 Hnd Hk1)|].
  { intros y k2 Hy Hk2 E. apply Hf; [by right|done|]. rewrite E. apply Hother. intros E'. apply Hx. rewrite <-E'. by apply list_elem_of_fmap_2. }
  intros o k2 (Hk2 & Hn & Ho). split; [done|]. split.
  { intros d Hd. cbn [map] in Hd. apply not_elem_of_cons in Hd as [Hdx Hd]. by rewrite Hn, Hother. }
  assert (∀ y, y ∈ l → table k1 !! key y = table k !! key y) as Hl.
  { intros y Hy. apply Hother. intros E. apply Hx. rewrite <-E. by apply list_elem_of_fmap_2. }
  assert ((∀ y, y ∈ l → table k2 !! key y = table k1 !! key y ∨ P y (table k1 !! key y) (table k2 !! key y)) →
    ∀ y, y ∈ x :: l → table k2 !! key y = table k !! key y ∨ P y (table k !! key y) (table k2 !! key y)) as Hfail.
  { intros Ho' y [->|Hy]%elem_of_cons; [right; by rewrite Hn|]. rewrite <-(Hl y Hy). by apply Ho'. }
  destruct o as [[]|e| |]; cbn in Ho |- *; [|by apply Hfail|by destruct Ho; auto|done].
  intros y [->|Hy]%elem_of_cons; [by rewrite Hn|]. rewrite <-(Hl y Hy). by apply Ho.
Qed.
End keyed.

(** ** The infos of the manager *)

(** Both maps of overlay subnets hold infos under their texts. *)
Definition info_at (m : Manager) (d : string) (p : nat) : Prop :=
  ∃ info, infos m !! p = Some info ∧ IPNet_String (cidr info) = d ∧ net_family (cidr info) = family m.

Lemma slash_not_default u t : u +:+ String "/" t ≠ "default".
Proof. do 8 (destruct u as [|? u]; [discriminate|]). discriminate. Qed.

Lemma IPNet_String_default n : IPNet_String n ≠ "default".
Proof.
  unfold IPNet_String. destruct (networkNumberAndMask n) as [a b]. case_decide; [done|].
  destruct (_ =? -1); apply slash_not_default.
Qed.

Record routes_wf (m : Manager) : Prop := {
  rw_local d p : localClusterOverlaySubnetInfoMap m !! d = Some p → info_at m d p;
  rw_total d p : localTotalSubnetInfoMap m !! d = Some p → info_at m d p;
  rw_remote d p : remoteOverlaySubnetInfoMap m !! d = Some p → info_at m d p;
  rw_remote_underlay d p : remoteUnderlaySubnetInfoMap m !! d = Some p → info_at m d p
}.

Lemma ResetInfos_wf m : routes_wf (ResetInfos m).
Proof. split; intros d p H; cbn in H; by rewrite lookup_empty in H. Qed.

Section record.
Context `{CNIPlugins} `{IPAddrLib}.

Lemma extend_info_cidr c s e ex info : cidr (extend_info c s e ex info) = cidr info.
Proof. done. Qed.

(** The heap after an addition: old infos keep their networks, and the pointer
    of the subnet has its network. *)
Lemma heap_extended (m : Manager) c s e ex d p q heap :
  (∃ l, heap = infos m ++ l) → info_at m d p →
  ∃ info, alter (extend_info c s e ex) q heap !! p = Some info ∧ IPNet_String (cidr info) = d ∧ net_family (cidr info) = family m.
Proof.
  intros [l ->] (info & Hp & Hd & Hf). rewrite list_lookup_alter. apply (lookup_app_l_Some _ l) in Hp.
  case_decide as E; [rewrite E|]; rewrite Hp; cbn; by eexists.
Qed.

Lemma heap_new (m : Manager) c s e ex o :
  net_family c = family m → (∀ p, o = Some p → info_at m (IPNet_String c) p) →
  ∀ i, cidr i = c →
  let '(heap, p) := match o with Some p => (infos m, p) | None => (infos m ++ [i], length (infos m)) end in
  (∃ l, heap = infos m ++ l) ∧
  ∃ info, alter (extend_info c s e ex) p heap !! p = Some info ∧ IPNet_String (cidr info) = IPNet_String c ∧ net_family (cidr info) = family m.
Proof.
  intros Hf Ho i Hi. destruct o as [p|].
  - split; [exists []; by rewrite app_nil_r|]. destruct (Ho p eq_refl) as (info & Hp & Hd & Hf').
    exists (extend_info c s e ex info). rewrite list_lookup_alter, decide_True, Hp by done. done.
  - split; [by eexists|]. exists (extend_info c s e ex i).
    rewrite list_lookup_alter, decide_True, list_lookup_middle, extend_info_cidr, Hi by done. done.
Qed.

Lemma AddSubnetInfo_wf c g s e ex ifn nat ov un mode m :
  net_family c = family m → routes_wf m → routes_wf (AddSubnetInfo c g s e ex ifn nat ov un mode m).
Proof.
  intros Hf [H1 H2 H3 H4]. unfold AddSubnetInfo.
  pose proof (heap_new m c s e ex (localTotalSubnetInfoMap m !! IPNet_String c) Hf (H2 _) (mkSubnetInfo c g [] [] ifn nat un mode) eq_refl) as Hn.
  destruct (match localTotalSubnetInfoMap m !! IPNet_String c with Some _ => _ | None => _ end) as [heap q].
  destruct Hn as [Hl Hq]. split; intros d p; cbn [localClusterOverlaySubnetInfoMap localTotalSubnetInfoMap remoteOverlaySubnetInfoMap remoteUnderlaySubnetInfoMap];
    unfold info_at; cbn [infos family].
  - destruct ov; [intros [[<- <-]|[_ Hp]]%lookup_insert_Some; [done|]|intros Hp]; by eapply heap_extended, H1.
  - intros [[<- <-]|[_ Hp]]%lookup_insert_Some; [done|]. by eapply heap_extended, H2.
  - intros Hp. by eapply heap_extended, H3.
  - intros Hp. by eapply heap_extended, H4.
Qed.

Lemma AddRemoteSubnetInfo_wf c g s e ex ov m :
  net_family c = family m → routes_wf m → routes_wf (AddRemoteSubnetInfo c g s e ex ov m).
Proof.
  intros Hf [H1 H2 H3 H4]. unfold AddRemoteSubnetInfo.
  set (map := if ov then remoteOverlaySubnetInfoMap m else remoteUnderlaySubnetInfoMap m).
  assert (∀ d p, map !! d = Some p → info_at m d p) as Hm by (unfold map; destruct ov; auto).
  pose proof (heap_new m c s e ex (map !! IPNet_String c) Hf (Hm _) (mkSubnetInfo c g [] [] "" false false "") eq_refl) as Hn.
  destruct (match map !! IPNet_String c with Some _ => _ | None => _ end) as [heap q].
  destruct Hn as [Hl Hq]. split; intros d p; cbn [localClusterOverlaySubnetInfoMap localTotalSubnetInfoMap remoteOverlaySubnetInfoMap remoteUnderlaySubnetInfoMap];
    unfold info_at; cbn [infos family].
  - intros Hp. by eapply heap_extended, H1.
  - intros Hp. by eapply heap_extended, H2.
  - destruct ov; [intros [[<- <-]|[_ Hp]]%lookup_insert_Some; [done|]; by eapply heap_extended, Hm|intros Hp; by eapply heap_extended, H3].
  - destruct ov; [intros Hp; by eapply heap_extended, H4|intros [[<- <-]|[_ Hp]]%lookup_insert_Some; [done|]; by eapply heap_extended, Hm].
Qed.
End record.

Lemma follow_wf m (map : gmap string nat) d info :
  (∀ d p, map !! d = Some p → info_at m d p) → follow m map !! d = Some info →
  IPNet_String (cidr info) = d ∧ net_family (cidr info) = family m.
Proof.
  intros Hm. unfold follow. rewrite lookup_omap. intros (p & Hp & Hi)%bind_Some. destruct (Hm _ _ Hp) as (i & Hi' & Hd & Hf).
  assert (i = info) as -> by congruence. done.
Qed.

Lemma filter_keys_NoDup {A B} (f : A → B) p l : NoDup (map f l) → NoDup (map f (List.filter p l)).
Proof.
  induction l as [|x l IH]; cbn [map List.filter]; [done|]. intros [Hx Hn]%NoDup_cons. destruct (p x); [|by apply IH].
  apply NoDup_cons. split; [|by apply IH]. intros (y & E & [Hy _]%list_elem_of_In%filter_In)%list_elem_of_fmap.
  apply Hx. rewrite E. by apply list_elem_of_fmap_2, list_elem_of_In.
Qed.

(** ** Phases of the synchronisation of one table

    A phase relates what was and what is at every destination of the table,
    after a success and after a failure; all other tables stay. *)

Section phases.
Context {K : Type} `{RouteView K} (m : Manager) (k0 : K).

Definition overlay_table (k : K) : gmap string Route := tables k (family m) (toOverlaySubnetTableNum m).

(** The table had a default route: the loops take the destination of a route
    without asking whether it has one. *)
Definition had_default : Prop := overlay_table k0 !! "default" ≠ None.
Definition elsewhere (k : K) : Prop :=
  (∀ f t, ¬ (f = family m ∧ t = toOverlaySubnetTableNum m) → tables k f t = tables k0 f t) ∧
  (∀ name, link_index k name = link_index k0 name).

Definition transition : Type := string → option Route → option Route → Prop.
Definition phase {A} (R F : transition) (c : M K A) (k : K) : Prop :=
  post c k (λ o k', elsewhere k' ∧
    ended had_default o (∀ d, R d (overlay_table k !! d) (overlay_table k' !! d)) (∀ d, F d (overlay_table k !! d) (overlay_table k' !! d))).

Lemma elsewhere_unchanged k k' : elsewhere k → unchanged k k' → elsewhere k' ∧ overlay_table k' = overlay_table k.
Proof.
  intros [Ht Hl] [Ht' Hl']. split; [|apply Ht']. split; [|by intros n; rewrite Hl'].
  intros f t Hn. by rewrite Ht', Ht.
Qed.

Lemma elsewhere_updated g k k' :
  elsewhere k → updated (family m) (toOverlaySubnetTableNum m) g k k' → elsewhere k' ∧ overlay_table k' = g (overlay_table k).
Proof.
  intros [Ht Hl] [Ht' Hl']. split; [|unfold overlay_table; by rewrite Ht', decide_True].
  split; [|by intros n; rewrite Hl']. intros f t Hn. by rewrite Ht', decide_False, Ht.
Qed.

Lemma phase_wrap {A} R F e (c : M K A) k : phase R F c k → phase R F (wrap e c) k.
Proof. unfold phase. intros Hc. apply post_wrap. eapply post_mono; [exact Hc|]. by intros [] ?. Qed.

Lemma reads_wrap {A} e (c : M K A) k Q : reads c k Q → reads (wrap e c) k Q.
Proof. unfold reads. intros Hc. apply post_wrap. eapply post_mono; [exact Hc|]. by intros []. Qed.

Lemma phase_read {A B} (c : M K A) (g : A → M K B) (R F : transition) Q e k :
  elsewhere k → reads c k Q → (∀ d o, F d o o) →
  (∀ a k1, elsewhere k1 → overlay_table k1 = overlay_table k → Q a → phase R F (g a) k1) →
  phase R F (wrap e c ≫= g) k.
Proof.
  unfold phase, reads. intros Hk Hc HF Hg. apply post_bind, post_wrap. eapply post_mono; [exact Hc|].
  intros [a|er| |] k1 [Hu Ha]; [| |done..]; destruct (elsewhere_unchanged _ _ Hk Hu) as [Hk1 E].
  - eapply post_mono; [by apply (Hg a k1)|]. by rewrite E.
  - split; [done|]. intros d. by rewrite E.
Qed.

Lemma phase_seq {A} (R1 F1 R2 F2 R F : transition) (c1 : M K unit) (c2 : M K A) k :
  phase R1 F1 c1 k →
  (∀ k1, elsewhere k1 → (∀ d, R1 d (overlay_table k !! d) (overlay_table k1 !! d)) → phase R2 F2 c2 k1) →
  (∀ d x y z, R1 d x y → R2 d y z → R d x z) → (∀ d x y, F1 d x y → F d x y) →
  (∀ d x y z, R1 d x y → F2 d y z → F d x z) →
  phase R F (c1;; c2) k.
Proof.
  unfold phase. intros H1 H2 HR HF1 HF2. apply post_bind. eapply post_mono; [exact H1|].
  intros [[]|e| |] k1 [Hk1 Hd]; cbn in Hd |- *; [|split; [done|]; auto|destruct Hd; auto|done].
  eapply post_mono; [by apply (H2 k1)|]. intros [a|e| |] k2 [Hk2 Ho]; cbn in Ho |- *; [split; [done|]; eauto..| |done].
  destruct Ho. split_and!; [done..|]. eauto.
Qed.

Lemma phase_mono {A} (R F R' F' : transition) (c : M K A) k :
  phase R F c k → (∀ d y, R d (overlay_table k !! d) y → R' d (overlay_table k !! d) y) →
  (∀ d y, F d (overlay_table k !! d) y → F' d (overlay_table k !! d) y) → phase R' F' c k.
Proof.
  unfold phase. intros Hc HR HF. eapply post_mono; [exact Hc|]. intros [a|e| |] k' [Hk Ho]; cbn in *; (split; [done|]); [auto..| |done].
  destruct Ho. auto.
Qed.

Definition comp (R1 R2 : transition) : transition := λ d x z, ∃ y, R1 d x y ∧ R2 d y z.
Definition either (F1 F2 : transition) : transition := λ d x y, F1 d x y ∨ F2 d x y.

Lemma phase_comp {A} (R1 F1 R2 F2 : transition) (c1 : M K unit) (c2 : M K A) k :
  phase R1 F1 c1 k →
  (∀ k1, elsewhere k1 → (∀ d, R1 d (overlay_table k !! d) (overlay_table k1 !! d)) → phase R2 F2 c2 k1) →
  phase (comp R1 R2) (either F1 (comp R1 F2)) (c1;; c2) k.
Proof.
  intros H1 H2. eapply phase_seq; [exact H1|exact H2| | |].
  - intros d x y z ? ?. by exists y.
  - intros d x y ?. by left.
  - intros d x y z ? ?. right. by exists y.
Qed.

(** A loop over items with keys of their own. *)
Lemma phase_each {A} (key : A → string) (P : A → option Route → option Route → Prop) (R : transition) f l k :
  elsewhere k → NoDup (map key l) →
  (∀ x k1, x ∈ l → elsewhere k1 → overlay_table k1 !! key x = overlay_table k !! key x →
    step_at had_default overlay_table key elsewhere P x (f x) k1) →
  (∀ d y, ((∃ x, x ∈ l ∧ key x = d ∧ P x (overlay_table k !! d) y) ∨ (y = overlay_table k !! d ∧ d ∉ map key l)) →
    R d (overlay_table k !! d) y) →
  phase R (λ d x y, y = x ∨ R d x y) (each f l) k.
Proof.
  unfold phase. intros Hk Hnd Hf HR. eapply post_mono; [by apply (each_keyed had_default overlay_table key elsewhere P)|].
  intros o k' (Hk' & Hn & Ho). split; [done|].
  assert ((∀ x, x ∈ l → overlay_table k' !! key x = overlay_table k !! key x ∨ P x (overlay_table k !! key x) (overlay_table k' !! key x)) →
    ∀ d, overlay_table k' !! d = overlay_table k !! d ∨ R d (overlay_table k !! d) (overlay_table k' !! d)) as Hfail.
  { intros Ho' d. destruct (decide (d ∈ map key l)) as [(x & -> & Hx)%list_elem_of_fmap|Hd]; [|left; by apply Hn].
    destruct (Ho' x Hx); [by left|right]. apply HR. eauto. }
  destruct o as [[]|e| |]; cbn in Ho |- *; [|by apply Hfail|by destruct Ho; auto|done].
  intros d. apply HR. destruct (decide (d ∈ map key l)) as [(x & -> & Hx)%list_elem_of_fmap|Hd]; [left|right]; eauto.
Qed.

Lemma step_skip {A} (key : A → string) (P : A → option Route → option Route → Prop) x k :
  elsewhere k → P x (overlay_table k !! key x) (overlay_table k !! key x) → step_at had_default overlay_table key elsewhere P x (mret tt) k.
Proof. intros Hk Hp. by apply post_ret. Qed.

Lemma step_write {A} (key : A → string) (P : A → option Route → option Route → Prop) x e g (c : M K unit) k :
  elsewhere k → writes (family m) (toOverlaySubnetTableNum m) g c k →
  (∀ d, d ≠ key x → g (overlay_table k) !! d = overlay_table k !! d) →
  P x (overlay_table k !! key x) (g (overlay_table k) !! key x) →
  step_at had_default overlay_table key elsewhere P x (wrap e c) k.
Proof.
  unfold step_at, writes. intros Hk Hc Hg Hp. apply post_wrap. eapply post_mono; [exact Hc|]. intros [[]|er| |] k' Hu; [| |done..].
  - destruct (elsewhere_updated _ _ _ Hk Hu) as [Hk' E]. rewrite E. done.
  - destruct (elsewhere_unchanged _ _ Hk Hu) as [Hk' E]. by rewrite E.
Qed.

Lemma step_read {A B} (key : B → string) (P : B → option Route → option Route → Prop) x e (c : M K A) (g : A → M K unit) Q k :
  elsewhere k → reads c k Q →
  (∀ a k1, elsewhere k1 → overlay_table k1 = overlay_table k → Q a → step_at had_default overlay_table key elsewhere P x (g a) k1) →
  step_at had_default overlay_table key elsewhere P x (wrap e c ≫= g) k.
Proof.
  unfold step_at, reads. intros Hk Hc Hg. apply post_bind, post_wrap. eapply post_mono; [exact Hc|].
  intros [a|er| |] k1 [Hu Ha]; [| |done..]; destruct (elsewhere_unchanged _ _ Hk Hu) as [Hk1 E].
  - eapply post_mono; [by apply (Hg a k1)|]. by rewrite E.
  - by rewrite E.
Qed.
End phases.

(** ** The phases of the synchronisation *)

Definition throws (o : option Route) : Prop := ∃ r, o = Some r ∧ isExcludeRoute r = true.
Definition usable (o : option Route) : bool := match o with Some r => negb (isExcludeRoute r) | None => false end.

Section sync.
Context {K : Type} `{N : Netlink K} `{V : RouteView K} {L : RouteLaws} {MO : MapOrder}.
Context (m : Manager) (k0 : K).

(** A route through the link of the name. *)
Definition via (name : string) (o : option Route) : Prop :=
  ∃ r, o = Some r ∧ isExcludeRoute r = false ∧ link_index k0 name = Some (rt_LinkIndex r).

Abbreviation table := (overlay_table m).
Abbreviation outside := (elsewhere m k0).

(** *** The routes that are listed *)

Lemma listed_lookup k l r : l ≡ₚ routes_of (table k) → r ∈ l → table k !! dst_text r = Some r.
Proof.
  intros Hl. rewrite Hl. intros ([d r'] & -> & Hr%elem_of_map_to_list)%list_elem_of_fmap.
  cbn. by destruct (tables_wf _ _ _ _ _ Hr) as [-> _].
Qed.

Lemma lookup_listed k l d r : l ≡ₚ routes_of (table k) → table k !! d = Some r → r ∈ l ∧ dst_text r = d.
Proof.
  intros Hl Hr. split; [|by apply (tables_wf _ _ _ _ _ Hr)]. rewrite Hl. apply list_elem_of_fmap.
  exists (d, r). by rewrite elem_of_map_to_list.
Qed.

Lemma routes_keys k : map dst_text (routes_of (table k)) = map fst (map_to_list (table k)).
Proof.
  unfold routes_of. rewrite map_map. apply map_ext_in. intros [d r] Hr%list_elem_of_In%elem_of_map_to_list.
  by destruct (tables_wf _ _ _ _ _ Hr).
Qed.

Lemma listed_NoDup k l : l ≡ₚ routes_of (table k) → NoDup (map dst_text l).
Proof.
  intros Hl. change (map dst_text l) with (dst_text <$> l). rewrite Hl. change (NoDup (map dst_text (routes_of (table k)))).
  rewrite routes_keys. apply NoDup_fst_map_to_list.
Qed.

(** *** Deleting a listed route *)

Lemma step_delete (P : Route → option Route → option Route → Prop) e r n k :
  outside k → rt_Dst r = Some n → table k !! dst_text r = Some r → P r (Some r) None →
  step_at (had_default m k0) table dst_text outside P r (wrap e (RouteDel r)) k.
Proof.
  intros Hk Hd Hr Hp. destruct (tables_wf _ _ _ _ _ Hr) as (_ & Ht & Hf). rewrite Hd in Hf.
  assert (dst_text r = IPNet_String n) as E by (unfold dst_text; by rewrite Hd).
  eapply (step_write m k0 dst_text P r e (delete (IPNet_String n))).
  - done.
  - rewrite <-Hf, <-Ht. apply RouteDel_law; [done|]. rewrite Hf, Ht, <-E. exact Hr.
  - intros d Hn. rewrite E in Hn. by rewrite lookup_delete_ne.
  - rewrite Hr, E, lookup_delete_eq. done.
Qed.

(** *** Installing a route *)

Lemma step_replace {A} (key : A → string) (P : A → option Route → option Route → Prop) x e r n k :
  outside k → rt_Dst r = Some n → rt_Table r = toOverlaySubnetTableNum m → toOverlaySubnetTableNum m ≠ 0 →
  net_family n = family m → IPNet_String n = key x →
  (∀ o r', stored r r' → P x o (Some r')) →
  step_at (had_default m k0) table key outside P x (wrap e (RouteReplace r)) k.
Proof.
  intros Hk Hd Ht Hz Hf E Hp. destruct (RouteReplace_law r n k Hd) as (r' & Hs & Hw); [by rewrite Ht|].
  rewrite Hf, Ht, E in Hw. eapply (step_write m k0 key P x e (<[key x := r']>)); [done|done| |].
  - intros d Hn. by rewrite lookup_insert_ne.
  - rewrite lookup_insert_eq. by apply Hp.
Qed.

(** *** Unknown routes are deleted *)

Definition known (local remote : gmap string SubnetInfo) (d : string) : bool :=
  bool_decide (is_Some (local !! d)) || bool_decide (is_Some (remote !! d)).
Definition cleaned (local remote : gmap string SubnetInfo) : transition := λ d x y,
  y = match x with Some r => if isExcludeRoute r || known local remote d then x else None | None => None end ∧
  (d = "default" → usable x = false).
Definition attempted (R : transition) : transition := λ d x y, y = x ∨ R d x y.

(** A default route is there only when there was one. *)
Definition same_default (k : K) : Prop := table k !! "default" ≠ None → had_default m k0.

Lemma default_dst k d r : table k !! d = Some r → rt_Dst r = None ↔ d = "default".
Proof.
  intros Hr. destruct (tables_wf _ _ _ _ _ Hr) as [Hd _]. unfold dst_text in Hd. destruct (rt_Dst r) as [n|]; [|by subst d].
  split; [done|]. intros ->. by apply IPNet_String_default in Hd.
Qed.

Lemma step_keep_or_delete local remote r k :
  outside k → table k !! dst_text r = Some r → (rt_Dst r = None → had_default m k0) →
  step_at (had_default m k0) table dst_text outside (λ r x y, cleaned local remote (dst_text r) x y) r (keep_or_delete local remote r) k.
Proof.
  intros Hk Hr Hd. unfold keep_or_delete. destruct (isExcludeRoute r) eqn:He.
  { apply step_skip; [done|]. unfold cleaned, usable. by rewrite Hr, He. }
  destruct (rt_Dst r) as [n|] eqn:En; [|by split; [|split; [|split; [apply Hd|]]]].
  assert (dst_text r ≠ "default") as Hnd by (intros E; apply (default_dst _ _ _ Hr) in E; congruence).
  assert (dst_text r = IPNet_String n) as E by (unfold dst_text; by rewrite En).
  change (step_at (had_default m k0) table dst_text outside (λ r x y, cleaned local remote (dst_text r) x y) r
    (match local !! IPNet_String n, remote !! IPNet_String n with None, None => wrap (Wrapf "failed to delete route %v: %v" []) (RouteDel r) | _, _ => mret tt end) k).
  assert (known local remote (dst_text r) = match local !! IPNet_String n, remote !! IPNet_String n with None, None => false | _, _ => true end) as Ek.
  { unfold known. rewrite E. by destruct (local !! _), (remote !! _). }
  destruct (local !! IPNet_String n) eqn:El; [|destruct (remote !! IPNet_String n) eqn:Er].
  1,2: apply step_skip; [done|]; unfold cleaned; by rewrite Hr, He, Ek.
  eapply step_delete; [done|exact En|done|]. unfold cleaned. by rewrite He, Ek.
Qed.

Lemma phase_clean local remote l k :
  outside k → l ≡ₚ routes_of (table k) → same_default k →
  phase m k0 (cleaned local remote) (attempted (cleaned local remote)) (each (keep_or_delete local remote) l) k.
Proof.
  intros Hk Hl Hd. eapply phase_each; [done|by eapply listed_NoDup| |].
  - intros r k1 Hr Hk1 E. pose proof (listed_lookup _ _ _ Hl Hr) as Hr'.
    apply step_keep_or_delete; [done|by rewrite E|]. intros Ed%(default_dst _ _ _ Hr'). apply Hd. by rewrite <-Ed, Hr'.
  - intros d y [(r & Hr & <- & Hp)|[-> Hn]]; [done|]. unfold cleaned. destruct (table k !! d) as [r|] eqn:Er; [|done].
    exfalso. apply Hn. destruct (lookup_listed _ _ _ _ Hl Er) as [Hin <-]. by apply list_elem_of_fmap_2.
Qed.

(** *** Missing routes of a map of infos are installed *)

Definition installed (map : gmap string SubnetInfo) (existing : gset string) (ifName : SubnetInfo → string) : transition := λ d x y,
  match map !! d with
  | Some info => if decide (d ∈ existing) then y = x else via (ifName info) y
  | None => y = x
  end.

Definition infos_wf (map : gmap string SubnetInfo) : Prop :=
  ∀ d info, map !! d = Some info → IPNet_String (cidr info) = d ∧ net_family (cidr info) = family m.

Lemma in_range site (map : gmap string SubnetInfo) info :
  info ∈ List.map snd (map_range site map) ↔ ∃ d, map !! d = Some info.
Proof.
  rewrite list_elem_of_fmap. setoid_rewrite map_range_perm. split.
  - intros ([d i] & -> & Hi%elem_of_map_to_list). eauto.
  - intros [d Hi]. exists (d, info). by rewrite elem_of_map_to_list.
Qed.

Lemma range_NoDup site map : infos_wf map → NoDup (List.map (λ info, IPNet_String (cidr info)) (List.map snd (map_range site map))).
Proof.
  intros Hm. rewrite List.map_map.
  change (NoDup ((λ kv : string * SubnetInfo, IPNet_String (cidr kv.2)) <$> map_range site map)). rewrite map_range_perm.
  assert ((λ kv : string * SubnetInfo, IPNet_String (cidr kv.2)) <$> map_to_list map = fst <$> map_to_list map) as ->.
  { apply map_ext_in. intros [d i] Hi%list_elem_of_In%elem_of_map_to_list. by apply Hm. }
  apply NoDup_fst_map_to_list.
Qed.

Lemma phase_install site map existing ifName message k :
  outside k → infos_wf map → toOverlaySubnetTableNum m ≠ 0 →
  phase m k0 (installed map existing ifName) (attempted (installed map existing ifName))
    (each (add_overlay_route m existing ifName message) (List.map snd (map_range site map))) k.
Proof.
  intros Hk Hm Hz. eapply (phase_each m k0 (λ info, IPNet_String (cidr info))
    (λ info x y, installed map existing ifName (IPNet_String (cidr info)) x y)); [done|by apply range_NoDup| |].
  - intros info k1 [d Hi]%in_range Hk1 _. destruct (Hm _ _ Hi) as [Hd Hf]. subst d. unfold add_overlay_route.
    destruct (decide (IPNet_String (cidr info) ∈ existing)) as [Hin|Hin].
    { apply step_skip; [done|]. unfold installed. by rewrite Hi, decide_True. }
    eapply step_read; [done|apply LinkByName_law|]. intros link k2 Hk2 _ [Hl Hne].
    eapply step_replace; [done..|]. intros o r' (_ & _ & Hx & Hli). unfold installed. rewrite Hi, decide_False by done.
    exists r'. split_and!; [done|by rewrite Hx|]. rewrite Hli by done. rewrite <-(proj2 Hk1). exact Hl.
  - intros d y [(info & _ & <- & Hp)|[-> Hn]]; [done|]. unfold installed. destruct (map !! d) as [info|] eqn:Ei; [|done].
    exfalso. apply Hn, list_elem_of_fmap. exists info. split; [symmetry; by apply Hm|]. apply in_range. eauto.
Qed.

(** *** The throw routes of the excluded blocks *)

Definition dropped (blocks : gmap string IPNet) : transition := λ d x y,
  y = match x with
      | Some r => if isExcludeRoute r && negb (bool_decide (is_Some (blocks !! d))) then None else x
      | None => None
      end ∧ (d = "default" → ¬ throws x).
Definition placed (blocks : gmap string IPNet) : transition := λ d x y, if decide (is_Some (blocks !! d)) then throws y else y = x.
Definition excluded (blocks : gmap string IPNet) : transition := λ d x y,
  (if decide (is_Some (blocks !! d)) then throws y else if usable x then y = x else y = None) ∧ (d = "default" → ¬ throws x).

Definition blocks_wf (blocks : gmap string IPNet) : Prop :=
  ∀ d n, blocks !! d = Some n → IPNet_String n = d ∧ net_family n = family m.

Lemma phase_drop blocks e l k :
  outside k → l ≡ₚ List.filter isExcludeRoute (routes_of (table k)) → same_default k →
  phase m k0 (dropped blocks) (attempted (dropped blocks))
    (each (λ route, dst ← lift (deref (rt_Dst route));
      match blocks !! IPNet_String dst with Some _ => mret tt | None => wrap e (RouteDel route) end) l) k.
Proof.
  intros Hk Hl Hd.
  assert (∀ r, r ∈ l ↔ table k !! dst_text r = Some r ∧ isExcludeRoute r = true) as Hin.
  { intros r. rewrite Hl, list_elem_of_In, filter_In, <-list_elem_of_In.
    split; intros [H1 H2]; split; try done; [by eapply listed_lookup|by eapply lookup_listed]. }
  assert (NoDup (map dst_text l)) as Hnd.
  { change (NoDup (dst_text <$> l)). rewrite Hl. apply filter_keys_NoDup. by apply (listed_NoDup k). }
  eapply (phase_each m k0 dst_text (λ r x y, dropped blocks (dst_text r) x y)); [done|done| |].
  - intros r k1 [Hr He]%Hin Hk1 E. rewrite Hr in E. destruct (rt_Dst r) as [n|] eqn:En.
    2: { apply (default_dst _ _ _ Hr) in En. split; [done|]. split; [done|]. split; [|done]. apply Hd. by rewrite <-En, Hr. }
    assert (dst_text r = IPNet_String n) as Et by (unfold dst_text; by rewrite En).
    assert (dst_text r ≠ "default") as Hnd' by (intros Ed; apply (default_dst _ _ _ Hr) in Ed; congruence).
    change (step_at (had_default m k0) table dst_text outside (λ r x y, dropped blocks (dst_text r) x y) r
      (match blocks !! IPNet_String n with Some _ => mret tt | None => wrap e (RouteDel r) end) k1).
    destruct (blocks !! IPNet_String n) as [b|] eqn:Eb.
    + apply step_skip; [done|]. unfold dropped. rewrite E, Et, Eb, bool_decide_eq_true_2 by eauto. rewrite andb_false_r. split; [done|]. by rewrite <-Et.
    + eapply step_delete; [done|exact En|done|]. unfold dropped. rewrite He, Et, Eb, bool_decide_eq_false_2; [|by intros [? ?]].
      split; [done|]. by rewrite <-Et.
  - intros d y [(r & _ & <- & Hp)|[-> Hn]]; [done|]. unfold dropped, throws. destruct (table k !! d) as [r|] eqn:Er; [|split; [done|by intros _ (? & ? & _)]].
    destruct (isExcludeRoute r) eqn:He; [|split; [done|intros _ (? & [= <-] & ?); congruence]]. exfalso. apply Hn.
    destruct (lookup_listed k _ _ _ (Permutation_refl _) Er) as [_ Hd']. rewrite <-Hd'. apply list_elem_of_fmap_2, Hin. by rewrite Hd'.
Qed.

Lemma phase_place blocks site e k :
  outside k → blocks_wf blocks → toOverlaySubnetTableNum m ≠ 0 →
  phase m k0 (placed blocks) (attempted (placed blocks))
    (each (λ kv : string * IPNet, wrap (e kv) (RouteReplace (mkRoute 0 (Some kv.2) [] [] (toOverlaySubnetTableNum m) 0 0 RTN_THROW)))
      (map_range site blocks)) k.
Proof.
  intros Hk Hb Hz.
  assert (∀ d n, (d, n) ∈ map_range site blocks ↔ blocks !! d = Some n) as Hin.
  { intros d n. by rewrite map_range_perm, elem_of_map_to_list. }
  eapply (phase_each m k0 fst (λ kv x y, placed blocks kv.1 x y)); [done| | |].
  - change (NoDup (fst <$> map_range site blocks)). rewrite map_range_perm. apply NoDup_fst_map_to_list.
  - intros [d n] k1 Hn%Hin Hk1 _. destruct (Hb _ _ Hn) as [Hd Hf]. eapply step_replace; [done|reflexivity|done..|].
    intros o r' (_ & _ & Hx & _). unfold placed. cbn [fst]. rewrite decide_True by eauto. exists r'. by rewrite Hx.
  - intros d y [(kv & _ & <- & Hp)|[-> Hn]]; [done|]. unfold placed. rewrite decide_False; [done|]. intros [n Hn'%Hin].
    apply Hn. by apply (list_elem_of_fmap_2 fst _ _ Hn').
Qed.

(** After a failure a destination is as it was, without its stale route, or
    with the route of its block. *)
Definition excluding (blocks : gmap string IPNet) : transition := λ d x y,
  y = x ∨ (usable x = false ∧ blocks !! d = None ∧ y = None) ∨ (is_Some (blocks !! d) ∧ throws y).

Lemma dropped_cases blocks d x y : dropped blocks d x y → y = x ∨ (usable x = false ∧ blocks !! d = None ∧ y = None).
Proof.
  unfold dropped, usable. intros [-> _]. destruct x as [r|]; [|by left]. destruct (isExcludeRoute r); [|by left].
  destruct (blocks !! d) as [b|]; [left; by rewrite bool_decide_eq_true_2|right].
  rewrite bool_decide_eq_false_2; [done|by intros [? ?]].
Qed.

Lemma phase_exclude blocks k :
  outside k → blocks_wf blocks → toOverlaySubnetTableNum m ≠ 0 → same_default k →
  phase m k0 (excluded blocks) (excluding blocks)
    (ensureExcludedIPBlockRoutes blocks (toOverlaySubnetTableNum m) (family m)) k.
Proof.
  intros Hk Hb Hz Hd. unfold ensureExcludedIPBlockRoutes.
  eapply phase_read; [done|apply list_throw|by left|]. intros l k1 Hk1 E Hl.
  eapply phase_seq.
  - apply phase_drop; [done|unfold overlay_table in E; by rewrite <-E in Hl|by unfold same_default; rewrite E].
  - intros k2 Hk2 _. by apply phase_place.
  - intros d x y z. unfold dropped, placed, excluded, usable. intros [-> Hnd] Hz'. split; [|done]. case_decide as Hbl; [done|]. rewrite Hz'.
    destruct x as [r|]; [|done]. rewrite bool_decide_eq_false_2 by done. by destruct (isExcludeRoute r).
  - intros d x y [->|Hp%dropped_cases]; [by left|]. unfold excluding. tauto.
  - intros d x y z Hp%dropped_cases Hq. unfold excluding.
    destruct Hq as [->|Hq]; [tauto|]. unfold placed in Hq. case_decide; [by right; right|]. subst z. tauto.
Qed.

(** *** All phases *)

(** What a synchronisation makes of a destination; it does not return when
    there was a default route. *)
Definition synced (local remote : gmap string SubnetInfo) (blocks : gmap string IPNet) : transition := λ d x y,
  (d = "default" → x = None) ∧
  if decide (is_Some (blocks !! d)) then throws y
  else match local !! d, remote !! d with
       | None, None => y = None
       | Some info, None => if usable x then y = x else via (forwardNodeIfName info) y
       | None, Some _ => if usable x then y = x else via (overlayIfName m) y
       | Some _, Some _ => via (overlayIfName m) y
       end.

(** What one that fails leaves. *)
Definition interrupted (local remote : gmap string SubnetInfo) (blocks : gmap string IPNet) : transition := λ d x y,
  y = x ∨ (known local remote d = false ∧ y = None) ∨
  (∃ info, local !! d = Some info ∧ via (forwardNodeIfName info) y) ∨
  (is_Some (remote !! d) ∧ via (overlayIfName m) y) ∨ (is_Some (blocks !! d) ∧ throws y).

Lemma via_usable name o : via name o → usable o = true.
Proof. intros (r & -> & He & _). unfold usable. by rewrite He. Qed.

Lemma kept_routes_in k l (kn : string → bool) d :
  l ≡ₚ routes_of (table k) → kn "default" = false →
  d ∈ kept_routes l kn ↔ usable (table k !! d) = true ∧ kn d = true.
Proof.
  intros Hl Hd. unfold kept_routes. rewrite elem_of_list_to_set, list_elem_of_omap. split.
  - intros (r & Hr & E). pose proof (listed_lookup _ _ _ Hl Hr) as Ht. unfold dst_text in Ht.
    destruct (isExcludeRoute r) eqn:He; [done|]. destruct (rt_Dst r) as [n|]; [|done].
    destruct (kn (IPNet_String n)) eqn:Ek; [|done]. injection E as <-. unfold usable. by rewrite Ht, He.
  - intros [Hu Hk]. destruct (table k !! d) as [r|] eqn:Er; [|done]. destruct (lookup_listed _ _ _ _ Hl Er) as [Hin Ed].
    exists r. split; [done|]. cbn in Hu. apply negb_true_iff in Hu. rewrite Hu.
    unfold dst_text in Ed. destruct (rt_Dst r) as [n|]; subst d; [by rewrite Hk|congruence].
Qed.

Lemma cleaned_cases local remote d x y :
  cleaned local remote d x y → y = if known local remote d then x else if usable x then None else x.
Proof.
  unfold cleaned. intros [-> _]. destruct x as [r|]; cbn; [|by destruct (known local remote d)].
  destruct (isExcludeRoute r), (known local remote d); done.
Qed.

Section relations.
Context (local remote : gmap string SubnetInfo) (blocks : gmap string IPNet) (ex1 ex2 : gset string).
Context (d : string) (x : option Route).
Context (Hex1 : d ∈ ex1 ↔ usable x = true ∧ bool_decide (is_Some (local !! d)) = true).
Context (Hex2 : d ∈ ex2 ↔ usable x = true ∧ negb (bool_decide (is_Some (local !! d))) && bool_decide (is_Some (remote !! d)) = true).

Definition local_phase : transition := installed local ex1 forwardNodeIfName.
Definition remote_phase : transition := installed remote ex2 (λ _, overlayIfName m).

(** The destination after the routes were cleaned and installed. *)
Lemma installed_cases y1 y2 y3 :
  cleaned local remote d x y1 → local_phase d y1 y2 → remote_phase d y2 y3 →
  match local !! d, remote !! d with
  | None, None => y3 = (if usable x then None else x)
  | Some info, None => if usable x then y3 = x else via (forwardNodeIfName info) y3
  | None, Some _ => if usable x then y3 = x else via (overlayIfName m) y3
  | Some _, Some _ => via (overlayIfName m) y3
  end.
Proof.
  intros H1%cleaned_cases. unfold local_phase, remote_phase, installed, known in *. intros H2 H3. clear N L.
  destruct (local !! d) as [i|], (remote !! d) as [j|]; cbn in H1, Hex1, Hex2.
  - rewrite decide_False in H3; [done|]. rewrite Hex2. by intros [_ ?].
  - subst y3 y1. destruct (usable x) eqn:Hu.
    + by rewrite decide_True in H2 by (by apply Hex1).
    + rewrite decide_False in H2; [done|]. rewrite Hex1. by intros [? _].
  - subst y2 y1. destruct (usable x) eqn:Hu.
    + by rewrite decide_True in H3 by (by apply Hex2).
    + rewrite decide_False in H3; [done|]. rewrite Hex2. by intros [? _].
  - by subst.
Qed.

Context (Hlocal : local !! "default" = None) (Hremote : remote !! "default" = None).

(** A default route that all phases passed was none. *)
Lemma no_default_left y1 y2 y3 :
  d = "default" → cleaned local remote d x y1 → local_phase d y1 y2 → remote_phase d y2 y3 → (d = "default" → ¬ throws y3) → x = None.
Proof.
  intros -> [-> Hu] H2 H3 Ht. unfold local_phase, remote_phase, installed in *. rewrite Hlocal in H2. rewrite Hremote in H3. subst y2 y3.
  destruct x as [r|]; [|done]. specialize (Hu eq_refl). cbn in Hu. apply negb_false_iff in Hu. rewrite Hu in Ht. cbn in Ht.
  exfalso. apply Ht; [done|]. by exists r.
Qed.

Lemma sync_ret y :
  comp (cleaned local remote) (comp local_phase (comp remote_phase (excluded blocks))) d x y → synced local remote blocks d x y.
Proof.
  intros (y1 & H1 & y2 & H2 & y3 & H3 & H4 & Hnt). pose proof (installed_cases _ _ _ H1 H2 H3) as Hc.
  split; [intros Ed; by eapply no_default_left|]. case_decide as Hb; [done|].
  destruct (local !! d) as [i|], (remote !! d) as [j|].
  - rewrite (via_usable _ _ Hc) in H4. by subst y3.
  - destruct (usable x) eqn:Hu; [subst y3; rewrite Hu in H4; by subst y|]. rewrite (via_usable _ _ Hc) in H4. by subst y3.
  - destruct (usable x) eqn:Hu; [subst y3; rewrite Hu in H4; by subst y|]. rewrite (via_usable _ _ Hc) in H4. by subst y3.
  - subst y3. destruct (usable x) eqn:Hu; [done|]. by rewrite Hu in H4.
Qed.

Lemma sync_fail y :
  either (attempted (cleaned local remote)) (comp (cleaned local remote)
    (either (attempted local_phase) (comp local_phase
      (either (attempted remote_phase) (comp remote_phase (excluding blocks)))))) d x y →
  interrupted local remote blocks d x y.
Proof.
  assert (∀ z, cleaned local remote d x z → z = x ∨ (known local remote d = false ∧ z = None)) as Hc.
  { intros z ->%cleaned_cases. destruct (known local remote d); [by left|]. destruct (usable x) eqn:Hu; [by right|by left]. }
  assert (∀ z z', local_phase d z z' → z' = z ∨ ∃ info, local !! d = Some info ∧ via (forwardNodeIfName info) z') as H1.
  { intros z z'. unfold local_phase, installed. destruct (local !! d); [|by left]. case_decide; [by left|right; eauto]. }
  assert (∀ z z', remote_phase d z z' → z' = z ∨ (is_Some (remote !! d) ∧ via (overlayIfName m) z')) as H2.
  { intros z z'. unfold remote_phase, installed. destruct (remote !! d); [|by left]. case_decide; [by left|right; eauto]. }
  intros HF. unfold interrupted. destruct HF as [[->|Ha]|(y1 & Ha & HF)]; [by left|apply Hc in Ha; tauto|].
  destruct HF as [[->|Hb]|(y2 & Hb & HF)]; [apply Hc in Ha; tauto| |].
  { apply Hc in Ha. apply H1 in Hb. destruct Hb as [->|Hb]; tauto. }
  destruct HF as [[->|Hd]|(y3 & Hd & HF)].
  - apply Hc in Ha. apply H1 in Hb. destruct Hb as [->|Hb]; tauto.
  - apply Hc in Ha. apply H1 in Hb. apply H2 in Hd. destruct Hd as [->|Hd]; [destruct Hb as [->|Hb]; tauto|tauto].
  - pose proof (installed_cases _ _ _ Ha Hb Hd) as Hi.
    assert (y3 = x ∨ (known local remote d = false ∧ y3 = None) ∨ (∃ info, local !! d = Some info ∧ via (forwardNodeIfName info) y3) ∨
      (is_Some (remote !! d) ∧ via (overlayIfName m) y3)) as Hy.
    { apply Hc in Ha. apply H1 in Hb. apply H2 in Hd. destruct Hd as [->|Hd]; [destruct Hb as [->|Hb]; tauto|tauto]. }
    destruct HF as [->|[(Hu & Hbl & ->)|Hp]]; [tauto| |tauto].
    unfold known. destruct (local !! d) as [i|], (remote !! d) as [j|]; [| | |tauto].
    + by rewrite (via_usable _ _ Hi) in Hu.
    + destruct (usable x) eqn:Hx; [subst y3; congruence|]. by rewrite (via_usable _ _ Hi) in Hu.
    + destruct (usable x) eqn:Hx; [subst y3; congruence|]. by rewrite (via_usable _ _ Hi) in Hu.
Qed.
End relations.

Lemma elsewhere_refl : outside k0.
Proof. done. Qed.

Lemma same_default_transition (R : transition) k k1 :
  same_default k → (∀ d, R d (table k !! d) (table k1 !! d)) → (∀ y, R "default" None y → y = None) → same_default k1.
Proof. intros Hk HR Hn Hd. apply Hk. intros E. apply Hd, Hn. rewrite <-E. apply HR. Qed.

Lemma infos_default map : infos_wf map → map !! "default" = None.
Proof. intros Hm. destruct (map !! "default") as [info|] eqn:E; [|done]. destruct (Hm _ _ E) as [Hd _]. by apply IPNet_String_default in Hd. Qed.

Lemma installed_default map existing ifName y :
  infos_wf map → installed map existing ifName "default" None y → y = None.
Proof. intros Hm. unfold installed. by rewrite infos_default. Qed.

Lemma phase_sync blocks :
  let local := follow m (localClusterOverlaySubnetInfoMap m) in
  let remote := follow m (remoteOverlaySubnetInfoMap m) in
  infos_wf local → infos_wf remote → blocks_wf blocks → toOverlaySubnetTableNum m ≠ 0 →
  phase m k0 (synced local remote blocks) (interrupted local remote blocks) (ensureToOverlaySubnetRoutes blocks m) k0.
Proof.
  intros local remote Hl Hr Hb Hz. unfold ensureToOverlaySubnetRoutes. fold local remote. unfold listRoutesByTable.
  eapply phase_read; [done|apply reads_wrap, list_table|by left|]. intros l k1 Hk1 E Hin.
  change (tables k0 (family m) (toOverlaySubnetTableNum m)) with (table k0) in Hin. rewrite <-E in Hin.
  assert (same_default k1) as Hd1 by (unfold same_default; by rewrite E).
  pose proof (infos_default _ Hl) as Hl0. pose proof (infos_default _ Hr) as Hr0.
  set (ex1 := kept_routes l _). set (ex2 := kept_routes l _).
  eapply phase_mono.
  - apply phase_comp; [by apply phase_clean|]. intros k2 Hk2 HR2. apply phase_comp; [by apply phase_install|].
    intros k3 Hk3 HR3. apply phase_comp; [by apply phase_install|]. intros k4 Hk4 HR4.
    apply phase_wrap, phase_exclude; [done..|].
    eapply same_default_transition; [|exact HR4|by intros y; apply installed_default].
    eapply same_default_transition; [|exact HR3|by intros y; apply installed_default].
    eapply same_default_transition; [exact Hd1|exact HR2|by intros y [? _]].
  - intros d y. apply sync_ret; first [done|apply kept_routes_in; [done|]]; by rewrite ?Hl0, ?Hr0.
  - intros d y. apply sync_fail; apply kept_routes_in; try done; by rewrite ?Hl0, ?Hr0.
Qed.
End sync.
