(* ===== verification/RouteProperties.v ===== *)
(** * What the route table of the overlay is after a synchronisation

    A concrete kernel that satisfies the laws and the property of the
    synchronisation; then the same for the priorities of policy rules. *)

From Stdlib Require Import Ascii.
From stdpp Require Import pretty.
From S2P Require Import Prelude GoNet GoStrings NetBlock NetText CNIPlugins NetworkingV1 Utils IPRange Netlink DaemonUtils Route RouteManager RouteSync.

Local Open Scope Z_scope.

(** ** A kernel that satisfies the laws

    The routes with their families, the newest first; a newer route shadows
    an older one with the same destination. *)

Definition Tables : Type := list (Z * Route).

Definition in_view (f t : Z) (e : Z * Route) : Prop :=
  e.1 = f ∧ rt_Table e.2 = t ∧ match rt_Dst e.2 with Some n => net_family n = f | None => True end.
#[export] Instance in_view_dec f t e : Decision (in_view f t e).
Proof. unfold in_view. destruct (rt_Dst e.2); apply _. Defined.

Definition view (k : Tables) (f t : Z) : gmap string Route :=
  foldr (λ e acc, if decide (in_view f t e) then <[dst_text e.2 := e.2]> acc else acc) ∅ k.

Definition kernel_links (name : string) : option Z :=
  if decide (name = "eth0.vxlan4") then Some 7 else if decide (name = "eth0.10") then Some 5 else None.
Definition kernel_link (name : string) (index : Z) : Link := mkLink index name "vxlan" [] false 0 0 None 0.

Definition same_route (f : Z) (r : Route) (e : Z * Route) : Prop := e.1 = f ∧ rt_Table e.2 = rt_Table r ∧ dst_text e.2 = dst_text r.
#[export] Instance same_route_dec f r e : Decision (same_route f r e).
Proof. unfold same_route. apply _. Defined.

Fixpoint drop_routes (f : Z) (r : Route) (k : Tables) : Tables :=
  match k with
  | [] => []
  | e :: k => if decide (same_route f r e) then drop_routes f r k else e :: drop_routes f r k
  end.

Definition unsupported {A} : M Tables A := fail (errors_New "not supported").

#[export] Instance tables_netlink : Netlink Tables := {|
  NewRule := mkRule None None 0 (-1) 0 (-1) (-1) "" "";
  EEXIST := errors_New "file exists";
  LinkByName name := match kernel_links name with Some i => mret (kernel_link name i) | None => fail (errors_New "Link not found") end;
  LinkByIndex _ := unsupported;
  LinkList := unsupported;
  LinkAdd _ := unsupported;
  LinkAddVeth _ _ _ := unsupported;
  LinkSetNsFd _ _ := unsupported;
  LinkDel _ := unsupported;
  LinkSetUp _ := unsupported;
  LinkSetDown _ := unsupported;
  LinkSetHardwareAddr _ _ := unsupported;
  LinkSetMTU _ _ := unsupported;
  LinkSetName _ _ := unsupported;
  AddrList _ _ := unsupported;
  AddrAdd _ _ := unsupported;
  AddrDel _ _ := unsupported;
  RouteList _ _ := unsupported;
  RouteListFiltered f pattern filters := gets (λ k,
    let l := routes_of (view k f (rt_Table pattern)) in
    if existsb (λ x, match x with RT_FILTER_TYPE => true | _ => false end) filters then List.filter isExcludeRoute l else l);
  RouteAdd _ := unsupported;
  RouteReplace r := match rt_Dst r with Some n => modify (cons (net_family n, r)) | None => unsupported end;
  RouteDel r := match rt_Dst r with
                | Some n => modify (drop_routes (net_family n) r)
                | None => unsupported
                end;
  RuleList _ := unsupported;
  RuleAdd _ := unsupported;
  RuleDel _ := unsupported;
  NeighList _ _ := unsupported;
  NeighProxyList _ _ := unsupported;
  NeighAdd _ := unsupported;
  NeighAppend _ := unsupported;
  NeighSet _ := unsupported;
  NeighDel _ := unsupported
|}.

#[export] Instance tables_view : RouteView Tables := {| tables := view; link_index _ := kernel_links |}.

Lemma view_cons f t g s k :
  view ((g, s) :: k) f t = if decide (in_view f t (g, s)) then <[dst_text s := s]> (view k f t) else view k f t.
Proof. done. Qed.

Lemma view_in k f t d r : view k f t !! d = Some r → in_view f t (f, r) ∧ dst_text r = d.
Proof.
  induction k as [|[g s] k IH]; [by cbn; rewrite lookup_empty|]. rewrite view_cons. case_decide as Hv; [|exact IH].
  intros [[<- <-]|[_ Hr]]%lookup_insert_Some; [|by apply IH]. destruct Hv as (E & Ht & Hf). by cbn in *.
Qed.

Lemma view_delete k f r n f' t' :
  rt_Dst r = Some n → net_family n = f →
  view (drop_routes f r k) f' t' =
  if decide (f' = f ∧ t' = rt_Table r) then delete (dst_text r) (view k f (rt_Table r)) else view k f' t'.
Proof.
  intros Hn Hf. induction k as [|[g s] k IH].
  { case_decide; cbn; by rewrite ?delete_empty. }
  cbn [drop_routes]. destruct (decide (same_route f r (g, s))) as [(Hg & Htb & Hd)|Hs].
  - cbn [fst snd] in *. rewrite !view_cons, IH. clear IH. destruct (decide (f' = f ∧ t' = rt_Table r)) as [[-> ->]|Ht].
    + destruct (decide (in_view f (rt_Table r) (g, s))) as [Hv|Hv]; [|done]. by rewrite Hd, delete_insert_eq.
    + rewrite decide_False; [done|]. intros (? & ? & _). cbn in *. apply Ht. split; congruence.
  - rewrite !view_cons, IH. clear IH. destruct (decide (f' = f ∧ t' = rt_Table r)) as [[-> ->]|Ht]; [|done].
    destruct (decide (in_view f (rt_Table r) (g, s))) as [Hv|Hv]; [|done].
    rewrite delete_insert_ne; [done|]. intros E. apply Hs. destruct Hv as (? & ? & _). by split_and!.
Qed.

#[export] Instance tables_laws : RouteLaws (K := Tables).
Proof.
  split.
  - intros k f t d r [(_ & Ht & Hf) Hd]%view_in. done.
  - intros f t k. split; [done|]. cbn. reflexivity.
  - intros f t k. split; [done|]. cbn. reflexivity.
  - intros r n k Hn _. exists r. split; [done|]. unfold writes, post. cbn. rewrite Hn. cbn. split; [|done]. intros f' t'.
    rewrite view_cons. destruct (decide (f' = net_family n ∧ t' = rt_Table r)) as [[-> ->]|Ht].
    + rewrite decide_True; [unfold dst_text; by rewrite Hn|]. unfold in_view. cbn. by rewrite Hn.
    + rewrite decide_False; [done|]. intros (? & ? & _). apply Ht. cbn in *. done.
  - intros r n k Hn Hr. unfold writes, post. cbn. rewrite Hn. cbn. split; [|done]. intros f' t'.
    rewrite (view_delete k (net_family n) r n) by done. unfold dst_text. by rewrite Hn.
  - intros name k. unfold reads, post. cbn. unfold kernel_links. case_decide; [by subst|]. case_decide; [by subst|done].
Defined.

(** ** Property *)

(** C30. The routes to the overlay.  The managers hold the subnets of their
    family under their texts ([routes_wf]), the excluded blocks are of the
    family, and the table has a number.  When [ensureToOverlaySubnetRoutes]
    returns, a destination that is an excluded block has a throw route; of the
    others, one that is no overlay subnet has no route, one of a subnet of this
    cluster keeps the route that it had, through whatever link, or has got one
    through the interface of its network, one of a subnet of a remote cluster
    keeps its route or has got one through the overlay interface, and one that
    is both goes through the overlay interface; and the table had no default
    route.  When it fails, each destination is as it was, is as it should be,
    or is unknown and has no route.  It panics only when the table has a
    default route, and then too leaves each destination in one of these ways.
    Nothing else in any table changes, and it always ends. *)
Theorem ToOverlayRoutes_exact {K} `{N : Netlink K} `{V : RouteView K} {L : RouteLaws} {MO : MapOrder}
    (m : Manager) (blocks : gmap string IPNet) (k : K) :
  let f := family m in let t := toOverlaySubnetTableNum m in
  let local := follow m (localClusterOverlaySubnetInfoMap m) in
  let remote := follow m (remoteOverlaySubnetInfoMap m) in
  routes_wf m → blocks_wf m blocks → t ≠ 0 →
  post (ensureToOverlaySubnetRoutes blocks m) k (λ o k',
    (∀ f' t', ¬ (f' = f ∧ t' = t) → tables k' f' t' = tables k f' t') ∧
    let stopped := ∀ d, interrupted m k local remote blocks d (tables k f t !! d) (tables k' f t !! d) in
    match o with
    | Ret _ => tables k f t !! "default" = None ∧
        ∀ d, let old := tables k f t !! d in let new := tables k' f t !! d in
        if decide (is_Some (blocks !! d)) then throws new
        else match local !! d, remote !! d with
             | None, None => new = None
             | Some info, None => if usable old then new = old else via k (forwardNodeIfName info) new
             | None, Some _ => if usable old then new = old else via k (overlayIfName m) new
             | Some _, Some _ => via k (overlayIfName m) new
             end
    | Fail _ => stopped
    | Panic => tables k f t !! "default" ≠ None ∧ stopped
    | Diverge => False
    end).
Proof.
  intros f t local remote [H1 _ H2 _] Hb Ht. eapply post_mono.
  - apply phase_sync; try done; intros d info; [by apply (follow_wf m _ d info H1)|by apply (follow_wf m _ d info H2)].
  - intros o k' [[He _] Ho]. split; [exact He|]. destruct o as [a|e| |]; [|exact Ho..].
    split; [by apply (proj1 (Ho "default"))|]. intros d. exact (proj2 (Ho d)).
Qed.

(** An overlay subnet of this cluster and one of a remote cluster; the table
    has a stale route, a stale throw route and the route of the remote subnet. *)
Definition w_order : MapOrder := {| map_range A site m := map_to_list m; map_range_perm A site m := reflexivity _ |}.
Definition w_subnet (b : Z) (ones : Z) : IPNet := mkIPNet [10; b; 0; 0] (cidr_bytes 4 ones).
Definition w_routes : Manager :=
  let _ := cni_concrete in let _ := ipaddr_concrete in
  AddRemoteSubnetInfo (w_subnet 2 16) [10; 2; 0; 1] [] [] [] true
    (AddSubnetInfo (w_subnet 1 16) [10; 1; 0; 1] [] [] [] "eth0.vxlan4" true true false NetworkModeVxlan
      (mkManager 39999 40000 40001 "" FAMILY_V4 [] ∅ ∅ ∅ ∅ ∅)).
Definition w_blocks : gmap string IPNet := {[ IPNet_String (w_subnet 1 24) := w_subnet 1 24 ]}.
Definition w_tables : Tables :=
  [(FAMILY_V4, mkRoute 5 (Some (w_subnet 9 16)) [] [] 40000 0 0 1);
   (FAMILY_V4, mkRoute 0 (Some (w_subnet 8 16)) [] [] 40000 0 0 RTN_THROW);
   (FAMILY_V4, mkRoute 5 (Some (w_subnet 2 16)) [] [] 40000 0 0 1);
   (FAMILY_V4, mkRoute 5 (Some (w_subnet 7 16)) [] [] 254 0 0 1)].

Lemma w_routes_wf : routes_wf w_routes.
Proof.
  apply AddRemoteSubnetInfo_wf; [by vm_compute|]. apply AddSubnetInfo_wf; [by vm_compute|].
  apply (ResetInfos_wf (mkManager 39999 40000 40001 "" FAMILY_V4 [] ∅ ∅ ∅ ∅ ∅)).
Qed.

Lemma w_blocks_wf : blocks_wf w_routes w_blocks.
Proof. intros d n. unfold w_blocks. intros [<- <-]%lookup_singleton_Some. by split; vm_compute. Qed.

Lemma ToOverlayRoutes_exact_witness :
  let c := ensureToOverlaySubnetRoutes (MO := w_order) w_blocks w_routes w_tables in
  c.1 = Ret tt ∧ throws (view c.2 FAMILY_V4 40000 !! "10.1.0.0/24") ∧
  via w_tables "eth0.vxlan4" (view c.2 FAMILY_V4 40000 !! "10.1.0.0/16") ∧
  view c.2 FAMILY_V4 40000 !! "10.2.0.0/16" = view w_tables FAMILY_V4 40000 !! "10.2.0.0/16" ∧
  view c.2 FAMILY_V4 40000 !! "10.8.0.0/16" = None ∧ view c.2 FAMILY_V4 40000 !! "10.9.0.0/16" = None ∧
  view c.2 FAMILY_V4 254 = view w_tables FAMILY_V4 254.
Proof.
  assert (toOverlaySubnetTableNum w_routes ≠ 0) as Ht by (vm_compute; discriminate).
  pose proof (ToOverlayRoutes_exact (L := tables_laws) (MO := w_order) w_routes w_blocks w_tables w_routes_wf w_blocks_wf Ht) as Hp.
  unfold post in Hp. set (c := ensureToOverlaySubnetRoutes (MO := w_order) w_blocks w_routes w_tables) in *.
  assert (c.1 = Ret tt) as E by (vm_compute; reflexivity). rewrite E in Hp. destruct Hp as (Ho & _ & Hp). cbv zeta. split; [exact E|].
  split_and!.
  - exact (Hp "10.1.0.0/24").
  - exact (Hp "10.1.0.0/16").
  - exact (Hp "10.2.0.0/16").
  - exact (Hp "10.8.0.0/16").
  - exact (Hp "10.9.0.0/16").
  - apply Ho. intros [_ Hn]. vm_compute in Hn. discriminate.
Defined.

(** A default route in the table is a panic: its destination is nil. *)
Lemma default_route_panics :
  let k : Tables := [(FAMILY_V4, mkRoute 5 None [] [] 40000 0 0 1)] in
  (ensureToOverlaySubnetRoutes (MO := w_order) w_blocks w_routes k).1 = Panic.
Proof. by vm_compute. Qed.

(** ** What the kernel does to rules

    The rules of a family in the order in which they are listed; a new rule
    gets in among the others, which keep their order. *)

Class RuleView (K : Type) : Type := { rules : K → Z → list Rule }.

Definition same_rules {K} `{RuleView K} (k k' : K) : Prop := ∀ f, rules k' f = rules k f.

Class RuleLaws {K : Type} `{Netlink K} `{RuleView K} : Prop := {
  RuleList_law f k : post (RuleList f) k (λ o k', same_rules k k' ∧ match o with
    | Ret l => l = rules k f
    | Fail _ => True
    | _ => False
    end);
  RuleAdd_law r k : post (RuleAdd r) k (λ o k', match o with
    | Ret _ => (∃ l1 l2, rules k (ru_Family r) = l1 ++ l2 ∧ rules k' (ru_Family r) = l1 ++ r :: l2) ∧
        ∀ f, f ≠ ru_Family r → rules k' f = rules k f
    | Fail _ => same_rules k k'
    | _ => False
    end)
}.

(** ** The loop over the priorities *)

(** The loop gives the least priority from [p] on that is unused and larger
    than the one of the rule of the local table, and fails when there is none
    up to the bound. *)
Lemma priority_loop_least fuel p used lp :
  match priority_loop fuel p used lp with
  | Some q => p ≤ q < p + Z.of_nat fuel ∧ (q ∉ used) ∧ lp < q ∧ ∀ x, p ≤ x < q → x ∈ used ∨ x ≤ lp
  | None => ∀ x, p ≤ x < p + Z.of_nat fuel → x ∈ used ∨ x ≤ lp
  end.
Proof.
  revert p. induction fuel as [|fuel IH]; intros p; cbn [priority_loop]; [lia|].
  assert (p ∈ used ∨ p ≤ lp → match priority_loop fuel (p + 1) used lp with
    | Some q => p ≤ q < p + Z.of_nat (S fuel) ∧ (q ∉ used) ∧ lp < q ∧ ∀ x, p ≤ x < q → x ∈ used ∨ x ≤ lp
    | None => ∀ x, p ≤ x < p + Z.of_nat (S fuel) → x ∈ used ∨ x ≤ lp end) as Hs.
  { intros Hp. specialize (IH (p + 1)). destruct (priority_loop fuel (p + 1) used lp) as [q|].
    - destruct IH as (? & ? & ? & Hl). split_and!; try done; try lia. intros x Hx. destruct (decide (x = p)) as [->|]; [done|apply Hl; lia].
    - intros x Hx. destruct (decide (x = p)) as [->|]; [done|apply IH; lia]. }
  case_decide as Hu; [by apply Hs; left|]. destruct (lp <? p) eqn:Hlp; [|apply Hs; right; lia].
  split_and!; [lia..|done|lia|intros x ?; lia].
Qed.

(** [q] is the best priority that is free: unused, behind the rule of the
    local table, and least. *)
Record highest_unused (l : list Rule) (q : Z) : Prop := {
  hu_range : 0 ≤ q ≤ MaxRulePriority;
  hu_unused r : r ∈ l → realRulePriority (ru_Priority r) ≠ q;
  hu_local : local_priority l < q;
  hu_least x : 0 ≤ x < q → (∃ r, r ∈ l ∧ realRulePriority (ru_Priority r) = x) ∨ x ≤ local_priority l
}.

Definition all_used (l : list Rule) : Prop :=
  ∀ x, 0 ≤ x ≤ MaxRulePriority → (∃ r, r ∈ l ∧ realRulePriority (ru_Priority r) = x) ∨ x ≤ local_priority l.

Lemma used_in l x : x ∈ used_priorities l ↔ ∃ r, r ∈ l ∧ realRulePriority (ru_Priority r) = x.
Proof. unfold used_priorities. rewrite elem_of_list_to_set, list_elem_of_fmap. naive_solver. Qed.

(** A rule for the local table that is listed later decides; other rules do
    not count. *)
Lemma local_priority_insert l1 l2 r :
  ru_Table r ≠ NodeLocalTableNum → local_priority (l1 ++ r :: l2) = local_priority (l1 ++ l2).
Proof.
  intros Hr. unfold local_priority. rewrite !fold_left_app. cbn [fold_left].
  by rewrite (proj2 (Z.eqb_neq (ru_Table r) NodeLocalTableNum)).
Qed.

(** Of two rules that are added one after the other, the first has the higher
    precedence. *)
Lemma highest_unused_increases l1 l2 r p q :
  highest_unused (l1 ++ l2) p → ru_Table r ≠ NodeLocalTableNum → realRulePriority (ru_Priority r) = p →
  highest_unused (l1 ++ r :: l2) q → p < q.
Proof.
  intros Hp Hr Er Hq. destruct (Z.lt_trichotomy p q) as [?|[->|Hlt]]; [done| |].
  - exfalso. apply (hu_unused _ _ Hq r); [set_solver|done].
  - exfalso. pose proof (hu_local _ _ Hq) as Hlo. rewrite local_priority_insert in Hlo by done.
    destruct (hu_least _ _ Hp q) as [(r' & Hr' & E)|?]; [pose proof (hu_range _ _ Hq); lia| |lia].
    apply (hu_unused _ _ Hq r'); [set_solver|done].
Qed.

Section rule.
Context {K : Type} `{N : Netlink K} `{V : RuleView K} {L : RuleLaws}.
Implicit Types k : K.

(** A rule of the table, or of any table when [table] is not positive, for
    the source. *)
Definition covers (src : option IPNet) (table : Z) (r : Rule) : Prop :=
  same_src src (ru_Src r) = true ∧ (0 < table → ru_Table r = table).

Lemma same_rules_refl k : same_rules k k.
Proof. done. Qed.
Lemma same_rules_trans k1 k2 k3 : same_rules k1 k2 → same_rules k2 k3 → same_rules k1 k3.
Proof. intros H1 H2 f. by rewrite H2, H1. Qed.

Lemma checkIfRuleExist_post src table f k :
  post (checkIfRuleExist src table f) k (λ o k', same_rules k k' ∧ match o with
    | Ret (Some r) => r ∈ rules k f ∧ covers src table r
    | Ret None => ∀ r, r ∈ rules k f → ¬ covers src table r
    | Fail _ => True
    | _ => False
    end).
Proof.
  unfold checkIfRuleExist. apply post_bind, post_wrap. eapply post_mono; [apply RuleList_law|].
  intros [l|e| |] k' [Hs Hl]; [|done..]. subst l. apply post_ret. split; [done|].
  destruct (List.find _ _) as [r|] eqn:E.
  - apply find_some in E as [Hr [Hs' Ht]%andb_true_iff]. split; [by apply list_elem_of_In|]. split; [done|].
    intros Hp. rewrite (proj2 (Z.ltb_lt 0 table)) in Ht by done. by apply Z.eqb_eq.
  - intros r Hr [Hs' Ht]. apply list_elem_of_In in Hr. apply (find_none _ _ E) in Hr. rewrite Hs' in Hr. cbn in Hr.
    destruct (0 <? table) eqn:Hp; [|done]. apply Z.ltb_lt in Hp. apply Z.eqb_neq in Hr. auto.
Qed.

Lemma find_priority_post f k :
  post (findHighestUnusedRulePriority f) k (λ o k', same_rules k k' ∧ match o with
    | Ret p => highest_unused (rules k f) p
    | Fail e => e = Errorf "cannot find unused rule priority" [] → all_used (rules k f)
    | _ => False
    end).
Proof.
  unfold findHighestUnusedRulePriority. apply post_bind, post_wrap. eapply post_mono; [apply RuleList_law|].
  intros [l|e| |] k' [Hs Hl]; [|done..]. subst l.
  pose proof (priority_loop_least (Z.to_nat (MaxRulePriority + 1)) 0 (used_priorities (rules k f)) (local_priority (rules k f))) as Hp.
  rewrite Z2Nat.id in Hp by done. unfold post.
  destruct (priority_loop _ _ _ _) as [p|].
  - destruct Hp as (Hr & Hu & Hlo & Hle). split; [done|]. split; [lia| |done|].
    + intros r Hin E. apply Hu, used_in. eauto.
    + intros x Hx. rewrite <-used_in. by apply Hle.
  - split; [done|]. intros _ x Hx. rewrite <-used_in. apply Hp. lia.
Qed.

(** What a call makes of the rules. *)
Definition appended (src : option IPNet) (table f : Z) (k k' : K) : Prop :=
  (same_rules k k' ∧ ∃ r, r ∈ rules k f ∧ covers src table r) ∨
  ((∀ r, r ∈ rules k f → ¬ covers src table r) ∧ (∀ f', f' ≠ f → rules k' f' = rules k f') ∧
   ∃ l1 l2 r, rules k f = l1 ++ l2 ∧ rules k' f = l1 ++ r :: l2 ∧ ru_Src r = src ∧ ru_Table r = table ∧
     highest_unused (rules k f) (ru_Priority r)).

Lemma append_post src table f mark mask k :
  post (appendHighestUnusedPriorityRuleIfNotExist src table f mark mask) k (λ o k', match o with
    | Ret _ => appended src table f k k'
    | Fail _ => same_rules k k'
    | Panic => same_rules k k' ∧ src = None ∧ ∃ e k1, checkIfRuleExist src table f k = (Fail e, k1)
    | Diverge => False
    end).
Proof.
  unfold appendHighestUnusedPriorityRuleIfNotExist. apply post_bind. unfold post at 1, attempt.
  pose proof (checkIfRuleExist_post src table f k) as Hc. unfold post in Hc.
  destruct (checkIfRuleExist src table f k) as [[[r|]|e| |] k1] eqn:E; cbn [fst snd] in *; [| | |tauto..]; destruct Hc as [Hs Hc].
  - left. destruct Hc. eauto.
  - apply post_bind, post_wrap. eapply post_mono; [apply find_priority_post|]. intros [p|e| |] k2 [Hs2 Hp]; [| |done..].
    2: by eapply same_rules_trans.
    apply post_wrap. eapply post_mono; [apply RuleAdd_law|]. cbn [new_rule ru_Family]. intros [[]|e| |] k3 Ho; [| |done..].
    + destruct Ho as [(l1 & l2 & E1 & E2) Hf]. right. split; [done|]. rewrite Hs in Hp. split.
      { intros f' Hf'. rewrite Hf by done. by rewrite Hs2, Hs. }
      eexists l1, l2, _. rewrite <-(Hs f), <-(Hs2 f). split_and!; [exact E1|exact E2|done..|]. rewrite Hs2, Hs. exact Hp.
    + eapply same_rules_trans; [done|]. by eapply same_rules_trans.
  - destruct src as [n|].
    + exact Hs.
    + split_and!; [exact Hs|done|by eexists _, _].
Qed.
End rule.

(** ** Property of the rules *)

Section order.
Context {K : Type} `{N : Netlink K} `{V : RuleView K} {L : RuleLaws}.

Definition absent (src : option IPNet) (table : Z) (l : list Rule) : Prop := ∀ r, r ∈ l → ¬ covers src table r.

Lemma absent_insert src table l1 l2 r :
  absent src table (l1 ++ l2) → 0 < table → ru_Table r ≠ table → absent src table (l1 ++ r :: l2).
Proof.
  intros Ha Ht Hr x [Hx|[->|Hx]%elem_of_cons]%elem_of_app; [apply Ha; set_solver| |apply Ha; set_solver].
  intros [_ Hc]. auto.
Qed.

(** One of the calls of [SyncRoutes] that add the basic rules. *)
Lemma append_step table f mark mask (k : K) Q :
  0 < table → absent None table (rules k f) →
  (∀ k' l1 l2 r, rules k f = l1 ++ l2 → rules k' f = l1 ++ r :: l2 → ru_Src r = None → ru_Table r = table →
     highest_unused (rules k f) (ru_Priority r) → realRulePriority (ru_Priority r) = ru_Priority r → Q (Ret tt) k') →
  (∀ e k', same_rules k k' → Q (Fail e) k') → (∀ k', same_rules k k' → Q Panic k') →
  post (appendHighestUnusedPriorityRuleIfNotExist None table f mark mask) k Q.
Proof.
  intros Ht Ha HR HF HP. eapply post_mono; [apply append_post|]. intros [[]|e| |] k' Ho; [|by apply HF|by apply HP, Ho|done].
  destruct Ho as [[_ (r & Hr & Hc)]|(_ & _ & l1 & l2 & r & E1 & E2 & Hs & Hta & Hp)]; [by apply Ha in Hc|].
  apply (HR k' l1 l2 r); try done. unfold realRulePriority. pose proof (hu_range _ _ Hp). rewrite (proj2 (Z.eqb_neq _ _)); [done|lia].
Qed.
End order.

(** C7. The policy rules.  A call of [appendHighestUnusedPriorityRuleIfNotExist]
    leaves the rules alone when one covers the source and the table; otherwise
    it adds one rule with the least priority that is unused and behind the
    rule of the local table, and fails, with the rules as they were, when the
    kernel refuses or no priority is left.  It panics only for a rule without
    a source, when the rules cannot be listed.  The three basic rules of
    [SyncRoutes], when none of them was there, get increasing priorities:
    local pods before the overlay before marked traffic. *)
Theorem append_rule_exact {K} `{N : Netlink K} `{V : RuleView K} {L : RuleLaws} (f : Z) (k : K) :
  (∀ src table mark mask,
    post (appendHighestUnusedPriorityRuleIfNotExist src table f mark mask) k (λ o k', match o with
    | Ret _ => appended src table f k k'
    | Fail _ => same_rules k k'
    | Panic => same_rules k k' ∧ src = None ∧ ∃ e k1, checkIfRuleExist src table f k = (Fail e, k1)
    | Diverge => False
    end)) ∧
  (∀ t1 t2 t3 mark, NodeLocalTableNum < t1 → NodeLocalTableNum < t2 → NodeLocalTableNum < t3 → t1 ≠ t2 → t1 ≠ t3 → t2 ≠ t3 →
    absent None t1 (rules k f) → absent None t2 (rules k f) → absent None t3 (rules k f) →
    post (appendHighestUnusedPriorityRuleIfNotExist None t1 f 0 0;; appendHighestUnusedPriorityRuleIfNotExist None t2 f 0 0;;
          appendHighestUnusedPriorityRuleIfNotExist None t3 f mark mark) k (λ o k',
      (∀ r, r ∈ rules k f → r ∈ rules k' f) ∧ match o with
      | Ret _ => ∃ r1 r2 r3, r1 ∈ rules k' f ∧ r2 ∈ rules k' f ∧ r3 ∈ rules k' f ∧
          ru_Table r1 = t1 ∧ ru_Table r2 = t2 ∧ ru_Table r3 = t3 ∧
          local_priority (rules k f) < ru_Priority r1 < ru_Priority r2 ∧ ru_Priority r2 < ru_Priority r3 ≤ MaxRulePriority
      | Diverge => False
      | _ => True
      end)).
Proof.
  split; [intros; apply append_post|]. intros t1 t2 t3 mark H1 H2 H3 N12 N13 N23 A1 A2 A3. unfold NodeLocalTableNum in *.
  apply post_bind. apply append_step; [lia|done| |intros e k' Hs; split; [intros r ?; rewrite (Hs f); by auto|done]|intros k' Hs; split; [intros r ?; rewrite (Hs f); by auto|done]].
  intros k1 l1 l2 r1 E1 F1 _ T1 P1 R1. rewrite E1 in A2, A3, P1.
  apply (absent_insert None t2 l1 l2 r1) in A2; [|lia|congruence]. apply (absent_insert None t3 l1 l2 r1) in A3; [|lia|congruence].
  rewrite <-F1 in A2, A3. assert (∀ r, r ∈ rules k f → r ∈ rules k1 f) as I1 by (rewrite E1, F1; set_solver).
  apply post_bind. apply append_step; [lia|done| |intros e k' Hs; split; [intros r ?; rewrite (Hs f); by auto|done]|intros k' Hs; split; [intros r ?; rewrite (Hs f); by auto|done]].
  intros k2 m1 m2 r2 E2 F2 _ T2 P2 R2. rewrite E2 in A3. apply (absent_insert None t3 m1 m2 r2) in A3; [|lia|congruence].
  rewrite <-F2 in A3. assert (∀ r, r ∈ rules k1 f → r ∈ rules k2 f) as I2 by (rewrite E2, F2; set_solver).
  assert (ru_Priority r1 < ru_Priority r2) as O12.
  { apply (highest_unused_increases l1 l2 r1); [done|unfold NodeLocalTableNum; lia|done|by rewrite <-F1]. }
  apply append_step; [lia|done| |intros e k' Hs; split; [intros r ?; rewrite (Hs f); by auto|done]|intros k' Hs; split; [intros r ?; rewrite (Hs f); by auto|done]].
  intros k3 n1 n2 r3 E3 F3 _ T3 P3 R3. assert (∀ r, r ∈ rules k2 f → r ∈ rules k3 f) as I3 by (rewrite E3, F3; set_solver).
  split; [auto|]. rewrite E2 in P2.
  assert (ru_Priority r2 < ru_Priority r3) as O23.
  { apply (highest_unused_increases m1 m2 r2); [done|unfold NodeLocalTableNum; lia|done|by rewrite <-F2]. }
  exists r1, r2, r3. split_and!; try done.
  - apply I3, I2. rewrite F1. set_solver.
  - apply I3. rewrite F2. set_solver.
  - rewrite F3. set_solver.
  - rewrite E1. apply (hu_local _ _ P1).
  - apply (hu_range _ _ P3).
Qed.

(** ** A kernel that satisfies the laws of rules

    The rules as they were added; the local table first. *)

Definition Rules : Type := list Rule.
Definition no_such {A} : M Rules A := fail (errors_New "not supported").

#[export] Instance rules_netlink : Netlink Rules := {|
  NewRule := mkRule None None 0 (-1) 0 (-1) (-1) "" "";
  EEXIST := errors_New "file exists";
  LinkByName _ := no_such; LinkByIndex _ := no_such; LinkList := no_such; LinkAdd _ := no_such; LinkAddVeth _ _ _ := no_such;
  LinkSetNsFd _ _ := no_such; LinkDel _ := no_such; LinkSetUp _ := no_such; LinkSetDown _ := no_such; LinkSetHardwareAddr _ _ := no_such;
  LinkSetMTU _ _ := no_such; LinkSetName _ _ := no_such; AddrList _ _ := no_such; AddrAdd _ _ := no_such; AddrDel _ _ := no_such;
  RouteList _ _ := no_such; RouteListFiltered _ _ _ := no_such; RouteAdd _ := no_such; RouteReplace _ := no_such; RouteDel _ := no_such;
  RuleList f := gets (List.filter (λ r, ru_Family r =? f));
  RuleAdd r := modify (λ k, k ++ [r]);
  RuleDel _ := no_such;
  NeighList _ _ := no_such; NeighProxyList _ _ := no_such; NeighAdd _ := no_such; NeighAppend _ := no_such; NeighSet _ := no_such; NeighDel _ := no_such
|}.
#[export] Instance rules_view : RuleView Rules := {| rules k f := List.filter (λ r, ru_Family r =? f) k |}.

#[export] Instance rules_laws : RuleLaws (K := Rules).
Proof.
  split.
  - intros f k. by split.
  - intros r k. unfold post. cbn. split.
    + exists (List.filter (λ x, ru_Family x =? ru_Family r) k), []. rewrite app_nil_r. split; [done|].
      rewrite List.filter_app. cbn. by rewrite Z.eqb_refl.
    + intros f Hf. rewrite List.filter_app. cbn. rewrite (proj2 (Z.eqb_neq _ _)) by done. by rewrite app_nil_r.
Defined.

Definition w_rule (table priority : Z) : Rule := mkRule None None table priority FAMILY_V4 0 0 "" "".
Definition w_rules : Rules := [w_rule 255 (-1); w_rule 300 2; w_rule 254 32766; w_rule 253 32767].

Lemma append_rule_exact_witness :
  let c := (appendHighestUnusedPriorityRuleIfNotExist None 39999 FAMILY_V4 0 0;;
            appendHighestUnusedPriorityRuleIfNotExist None 40000 FAMILY_V4 0 0;;
            appendHighestUnusedPriorityRuleIfNotExist None 40001 FAMILY_V4 32 32) w_rules in
  c.1 = Ret tt ∧ map ru_Priority c.2 = [-1; 2; 32766; 32767; 1; 3; 4] ∧
  ∃ r1 r2 r3, r1 ∈ rules c.2 FAMILY_V4 ∧ r2 ∈ rules c.2 FAMILY_V4 ∧ r3 ∈ rules c.2 FAMILY_V4 ∧
    ru_Table r1 = 39999 ∧ ru_Table r2 = 40000 ∧ ru_Table r3 = 40001 ∧
    0 < ru_Priority r1 < ru_Priority r2 ∧ ru_Priority r2 < ru_Priority r3 ≤ MaxRulePriority.
Proof.
  assert (∀ t, 300 < t → absent None t (rules w_rules FAMILY_V4)) as Ha.
  { intros t Ht r Hr [_ Hc]. cbn in Hr. repeat (apply elem_of_cons in Hr as [->|Hr]; [cbn in Hc; lia|]). by apply elem_of_nil in Hr. }
  destruct (append_rule_exact (L := rules_laws) FAMILY_V4 w_rules) as [_ Ho].
  specialize (Ho 39999 40000 40001 32 ltac:(done) ltac:(done) ltac:(done) ltac:(done) ltac:(done) ltac:(done)
    (Ha 39999 ltac:(done)) (Ha 40000 ltac:(done)) (Ha 40001 ltac:(done))).
  set (c := (appendHighestUnusedPriorityRuleIfNotExist None 39999 FAMILY_V4 0 0;; _) w_rules) in *.
  assert (c.1 = Ret tt) as E by (vm_compute; reflexivity). unfold post in Ho. fold c in Ho. rewrite E in Ho. destruct Ho as [_ Ho].
  cbv zeta. split; [exact E|]. split; [vm_compute; reflexivity|exact Ho].
Defined.
