(* ===== verification/NDP.v ===== *)
(** * The check of an IPv6 address on a VLAN (pkg/daemon/ndp)

    The package mdlayher/ndp is not part of the repository: its messages are
    the types here, a connection is what will be read and what was written,
    and [SolicitedNodeMulticast] is the class [NDPLib]. *)

From S2P Require Import Prelude GoNet GoStrings Store.

Local Open Scope Z_scope.

Inductive Direction := Source | Target.

Inductive NDPOption :=
  | LinkLayerAddress (direction : Direction) (addr : list Z)
  | other_option.

Inductive Message :=
  | NeighborSolicitation (TargetAddress : netIP) (Options : list NDPOption)
  | NeighborAdvertisement (Solicited Override : bool) (TargetAddress : netIP) (Options : list NDPOption)
  | other_message.

Class NDPLib : Type := { SolicitedNodeMulticast : netIP → outcome netIP }.

(** What the next reads return, what was written and where to, what a write
    returns, and what setting a deadline returns.  A deadline shows as a
    failed read. *)
Record Conn := mkConn {
  nc_inbox : list (outcome Message); nc_outbox : list (Message * netIP);
  nc_write : Message → netIP → outcome unit; nc_deadline : outcome unit
}.

(** A read without a message or a timeout blocks. *)
Definition ReadFrom : M Conn Message := λ c,
  match nc_inbox c with
  | [] => (Diverge, c)
  | r :: inbox => (r, mkConn inbox (nc_outbox c) (nc_write c) (nc_deadline c))
  end.

Definition WriteTo (m : Message) (dst : netIP) : M Conn unit := λ c,
  match nc_write c m dst with
  | Ret _ => (Ret tt, mkConn (nc_inbox c) (nc_outbox c ++ [(m, dst)]) (nc_write c) (nc_deadline c))
  | o => (o, c)
  end.

Definition SetReadDeadline : M Conn unit := λ c, (nc_deadline c, c).

(** [net.IPv6linklocalallnodes] *)
Definition IPv6linklocalallnodes : netIP := [255; 2] ++ replicate 13 0 ++ [1].

(** The first link-layer address that is not ours. *)
Definition foreign_addr (hwaddr : list Z) (opt : NDPOption) : option (list Z) :=
  match opt with
  | LinkLayerAddress _ a => if decide (HardwareAddr_String a = HardwareAddr_String hwaddr) then None else Some a
  | other_option => None
  end.

Definition answers (target : netIP) (hwaddr : list Z) (msg : Message) : option (list Z) :=
  match msg with
  | NeighborAdvertisement _ _ t options => if IP_Equal t target then head (omap (foreign_addr hwaddr) options) else None
  | _ => None
  end.

(** One message a round. *)
Fixpoint wait_loop (fuel : nat) (target : netIP) (hwaddr : list Z) : M Conn (list Z) :=
  match fuel with
  | O => lift Diverge
  | S fuel =>
      msg ← wrap (Wrapf "failed to read from ndp connection: %v" []) ReadFrom;
      match answers target hwaddr msg with
      | Some a => mret a
      | None => wait_loop fuel target hwaddr
      end
  end.

(** As many rounds as there are messages, and the one that blocks. *)
Definition wait (target : netIP) (hwaddr : list Z) : M Conn (list Z) := λ c, wait_loop (S (length (nc_inbox c))) target hwaddr c.

Section ndp.
Context `{NDPLib}.

Definition doNS (target : netIP) (hwaddr : list Z) : M Conn (list Z) :=
  snm ← wrap (Wrapf "failed to determine solicited-node multicast address: %v" []) (lift (SolicitedNodeMulticast target));
  wrap (Wrapf "failed to set deadline: %v" []) SetReadDeadline;;
  wrap (Wrapf "failed to write message: %v" []) (WriteTo (NeighborSolicitation target [LinkLayerAddress Source hwaddr]) snm);;
  wait target hwaddr.

Definition doGratuitous (ip : netIP) (hwaddr : list Z) : M Conn unit :=
  WriteTo (NeighborAdvertisement false true ip [LinkLayerAddress Target hwaddr]) IPv6linklocalallnodes.

(** [Dial] takes the next connection of the environment and its source
    address, or the error in its place, and leaves the used one behind. *)
Record NDPLink := mkNDPLink { nl_next : list (outcome (Conn * netIP)); nl_used : list Conn }.

Definition with_conn {A} (dialError : error → error) (m : netIP → M Conn A) : M NDPLink A := λ l,
  match nl_next l with
  | [] => (Diverge, l)
  | Ret (c, srcIP) :: next => let '(o, c') := m srcIP c in (o, mkNDPLink next (nl_used l ++ [c']))
  | Fail e :: next => (Fail (dialError e), mkNDPLink next (nl_used l))
  | Panic :: next => (Panic, mkNDPLink next (nl_used l))
  | Diverge :: next => (Diverge, mkNDPLink next (nl_used l))
  end.

(** [ifi]: the name and the hardware address of the interface. *)
Definition CheckWithTimeout (ifi : string * list Z) (srcPod gateway : netIP) : M NDPLink unit :=
  with_conn (Wrapf "failed to ndp dial interface %v: %v" [ifi.1]) (λ srcIP,
    wrap (λ err, Wrapf "failed to resolve ndp from ip %v to gateway %v: %v, vlan network seems not working, please check the setting of %v's upper physical switch port first"
      [IP_String srcIP; IP_String gateway; ifi.1] err) (doNS gateway ifi.2);;
    found ← attempt (doNS srcPod ifi.2);
    match found with
    | inl duplicatedHw =>
        fail (Errorf "pod ip %v duplicated, please check if ip %v is occupied by other machines or containers, another hw addr is %v"
          [IP_String srcPod; IP_String srcPod; HardwareAddr_String duplicatedHw])
    | inr _ => wrap (Wrapf "failed to send gratuitous ndp for pod %v: %v" [IP_String srcPod]) (doGratuitous srcPod ifi.2)
    end).
End ndp.
