(* ===== verification/ContainerNetwork.v ===== *)
(** * The interfaces of a container (pkg/daemon/containernetwork)

    Sleeps are left out.  A veth pair lives in two network namespaces: what
    runs in that of the container goes through [NS_Do]. *)

From Stdlib Require Import Ascii.
From stdpp Require Import pretty.
From S2P Require Import Prelude GoNet GoStrings NetText NetworkingV1 Kubernetes Store IPSet IPTables ARP NDP BGP Neigh Netlink DaemonUtils.

Local Open Scope Z_scope.

Definition ContainerHostLinkMac : string := "ee:ee:ee:ee:ee:ee".
Definition ContainerNicName : string := "eth0".
Definition DefaultIP4Mask : string := "255.255.255.255".
Definition DefaultIP6Mask : string := "ffff:ffff:ffff:ffff:ffff:ffff:ffff:ffff".
Definition PodVirtualV4DefaultGateway : string := "169.254.1.1".
Definition PodVirtualV6DefaultGateway : string := "fe80::ecee:eeff:feee:eeee".

Definition ProxyArpSysctl (nic : string) : string := "/proc/sys/net/ipv4/conf/" +:+ nic +:+ "/proxy_arp".
Definition ProxyDelaySysctl (nic : string) : string := "/proc/sys/net/ipv4/neigh/" +:+ nic +:+ "/proxy_delay".
Definition RouteLocalNetSysctl (nic : string) : string := "/proc/sys/net/ipv4/conf/" +:+ nic +:+ "/route_localnet".
Definition IPv4ForwardingSysctl (nic : string) : string := "/proc/sys/net/ipv4/conf/" +:+ nic +:+ "/forwarding".
Definition RpFilterSysctl (nic : string) : string := "/proc/sys/net/ipv4/conf/" +:+ nic +:+ "/rp_filter".
Definition ProxyNdpSysctl (nic : string) : string := "/proc/sys/net/ipv6/conf/" +:+ nic +:+ "/proxy_ndp".
Definition IPv6ForwardingSysctl (nic : string) : string := "/proc/sys/net/ipv6/conf/" +:+ nic +:+ "/forwarding".
Definition AcceptDADSysctl (nic : string) : string := "/proc/sys/net/ipv6/conf/" +:+ nic +:+ "/accept_dad".

(** [crypto/sha1]: the sum of a text, 20 bytes. *)
Class Sha1 : Type := { sha1_Sum : string → list Z }.

(** The sockets of the node: those of ARP and of NDP. *)
Class Sockets (K : Type) : Type := {
  arp_link : K → ARP.Link; set_arp_link : ARP.Link → K → K;
  ndp_link : K → NDPLink; set_ndp_link : NDPLink → K → K
}.

(** The addresses of a pod by version; a nil pointer is an absent key. *)
Abbreviation allocated := (gmap string IPInfo).

Definition HasPrefix (s pre : string) : bool := String.prefix pre s.
Definition HasSuffix (s suffix : string) : bool :=
  (String.length suffix <=? String.length s)%nat
  && bool_decide (String.substring (String.length s - String.length suffix) (String.length suffix) s = suffix).

Definition GenerateContainerVethPair `{Sha1} (podNamespace podName : string) : string * string :=
  (ContainerHostLinkPrefix +:+ String.substring 0 11 (hexString (sha1_Sum (podNamespace +:+ "." +:+ podName))), ContainerNicName).

Definition CheckIfContainerNetworkLink (linkName : string) : bool :=
  HasSuffix linkName "_h" || HasPrefix linkName "h_" || HasPrefix linkName ContainerHostLinkPrefix
  || HasPrefix linkName "veth" || HasPrefix linkName "docker".

Section containernetwork.
Context {K : Type} `{Netlink K} `{OS K} `{NetPkg K} `{CNIHost K} `{BgpServer K} `{Sockets K} `{Ethernet} `{NDPLib}.

(** The loop over the links, from [addrList] on. *)
Fixpoint addresses_except (exceptLinkName : string) (addrList : list Addr) (linkList : list Link) : M K (list Addr) :=
  match linkList with
  | [] => mret addrList
  | link :: linkList =>
      if decide (link_Name link = exceptLinkName) then addresses_except exceptLinkName addrList linkList
      else if CheckIfContainerNetworkLink (link_Name link) then addresses_except exceptLinkName addrList linkList
      else
        linkAddrList ← wrap (Wrapf "failed to link addr for link %v: %v" [link_Name link]) (ListAllAddress link);
        addresses_except exceptLinkName (addrList ++ linkAddrList) linkList
  end.

Definition ListLocalAddressExceptLink (exceptLinkName : string) : M K (list Addr) :=
  linkList ← wrap (Wrapf "failed to list link: %v" []) LinkList;
  addresses_except exceptLinkName [] linkList.

Definition clear_rp_filter (nic : string) : M K unit :=
  wrap (Wrapf "error set: %s sysctl path to 0, error: %v" [RpFilterSysctl nic]) (SetSysctl (RpFilterSysctl nic) 0).

Definition EnsureRpFilterConfigs (containerHostIf : string) : M K unit :=
  each clear_rp_filter ["default"; "all"];;
  clear_rp_filter containerHostIf;;
  existInterfaces ← wrap (Wrapf "error get exist interfaces on system: %v" []) Interfaces;
  each (λ existIf,
    if CheckIfContainerNetworkLink (if_Name existIf) then mret tt
    else
      sysctlValue ← wrap (Wrapf "error get: %s sysctl path: %v" [RpFilterSysctl (if_Name existIf)])
        (GetSysctl (RpFilterSysctl (if_Name existIf)));
      if sysctlValue =? 0 then mret tt else clear_rp_filter (if_Name existIf)) existInterfaces.

(** ** checkPodNetConfigReady *)

(** One look at what a pod needs: [None] when it is there, or the error of the
    last round. *)
Definition neigh_ready (podIP : netIP) (podCidr : IPNet) (forwardNodeIfIndex family : Z) : M K (option error) :=
  neighExist ← wrap (Wrapf "failed to check pod ip %v neigh exist: %v" [IP_String podIP])
    (CheckPodNeighExist podIP forwardNodeIfIndex family);
  rule ← wrap (Wrapf "failed to check cidr %v rule exist: %v" [IPNet_String podCidr]) (CheckPodRuleExist podCidr family);
  mret (if negb neighExist then
          Some (Errorf "proxy neigh for %v is not created, waiting for daemon to create it" [IP_String podIP])
        else if negb rule.1 then
          Some (Errorf "policy rule for %v is not created, waiting for daemon to create it" [IPNet_String podCidr])
        else None).

Definition bgp_ready (podIP : netIP) (podCidr : IPNet) (family : Z) : M K (option error) :=
  rule ← wrap (Wrapf "failed to check cidr %v rule and default route exist: %v" [IPNet_String podCidr])
    (CheckPodRuleExist podCidr family);
  defaultRouteExist ← (if rule.1 : bool then
      wrap (Wrapf "failed to check cidr %v default route exist: %v" [IPNet_String podCidr]) (CheckDefaultRouteExist rule.2 family)
    else mret false);
  bgpPathExist ← wrap (Wrapf "failed to check bgp path for pod ip %v: %v" [IP_String podIP]) (CheckIfIPInfoPathAdded podIP);
  establishedPeerExists ← wrap (Wrapf "failed to check established peer eixst: %v" []) CheckEstablishedRemotePeerExists;
  mret (if negb rule.1 then
          Some (Errorf "policy rule for %v is not created, waiting for daemon to create it" [IPNet_String podCidr])
        else if negb defaultRouteExist then
          Some (Errorf "default route for %v is not created, waiting for daemon to create it" [IPNet_String podCidr])
        else if negb bgpPathExist then
          Some (Errorf "bgp path for pod ip %v is not added, waiting for daemon to add it" [IP_String podIP])
        else if negb establishedPeerExists then
          Some (Errorf "none of the remote bgp peers is established, no bgp pod will be running" [])
        else None).

(** [n] rounds after this one. *)
Fixpoint retry_ready (n : nat) (ready : M K (option error)) : M K unit :=
  missing ← ready;
  match missing, n with
  | None, _ => mret tt
  | Some err, O => fail err
  | Some _, S n => retry_ready n ready
  end.

Definition checkPodNetConfigReady (podIP : netIP) (podCidr : IPNet) (forwardNodeIfIndex family : Z) (networkMode : string) : M K unit :=
  if decide (networkMode = NetworkModeVxlan ∨ networkMode = NetworkModeVlan) then
    retry_ready 4 (neigh_ready podIP podCidr forwardNodeIfIndex family)
  else if decide (networkMode = NetworkModeBGP) then retry_ready 4 (bgp_ready podIP podCidr family)
  else mret tt.

(** ** ConfigureHostNic *)

Definition set_sysctl (sysctlPath : string) (v : Z) : M K unit :=
  wrap (Wrapf "failed to set sysctl parameter %v: %v" [sysctlPath]) (SetSysctl sysctlPath v).

Definition local_pod_route (hostLink : Link) (ip : netIP) (mask : list Z) (localDirectTableNum : Z) : Route :=
  mkRoute (link_Index hostLink) (Some (mkIPNet ip mask)) [] [] localDirectTableNum 0 0 0.

Definition host_ipv4 (hostLink : Link) (nicName : string) (localDirectTableNum : Z) (info : IPInfo) : M K unit :=
  set_sysctl (ProxyArpSysctl nicName) 1;;
  set_sysctl (RouteLocalNetSysctl nicName) 1;;
  set_sysctl (ProxyDelaySysctl nicName) 0;;
  set_sysctl (IPv4ForwardingSysctl nicName) 1;;
  wrap (Wrapf "failed to add route %v: %v" [])
    (RouteReplace (local_pod_route hostLink (ii_Addr info) (To4 (ParseIP DefaultIP4Mask)) localDirectTableNum)).

Definition host_ipv6 (hostLink : Link) (nicName : string) (localDirectTableNum : Z) (info : IPInfo) : M K unit :=
  set_sysctl (ProxyNdpSysctl nicName) 1;;
  set_sysctl (IPv6ForwardingSysctl nicName) 1;;
  wrap (Wrapf "failed to add route %v: %v" [])
    (RouteReplace (local_pod_route hostLink (ii_Addr info) (To16 (ParseIP DefaultIP6Mask)) localDirectTableNum));;
  wrap (Wrapf "failed to add neigh for ip %v/%v: %v" [PodVirtualV4DefaultGateway; link_Name hostLink])
    (NeighAdd (mkNeigh (link_Index hostLink) FAMILY_V6 0 NTF_PROXY (ParseIP PodVirtualV6DefaultGateway) [] 0)).

Definition for_version (allocatedIPs : allocated) (version : string) (f : IPInfo → M K unit) : M K unit :=
  match allocatedIPs !! version with Some info => f info | None => mret tt end.

Definition ConfigureHostNic (nicName : string) (allocatedIPs : allocated) (localDirectTableNum : Z) : M K unit :=
  hostLink ← wrap (Wrapf "can not find host nic %s %v" [nicName]) (LinkByName nicName);
  wrap (Wrapf "can not set host nic %s up %v" [nicName]) (LinkSetUp hostLink);;
  macAddress ← wrap (Wrapf "failed to parse mac %v: %v" [ContainerHostLinkMac]) (lift (ParseMAC ContainerHostLinkMac));
  wrap (Wrapf "failed to set mac address to nic %s %v" [link_Name hostLink]) (LinkSetHardwareAddr hostLink macAddress);;
  for_version allocatedIPs IPVersion4 (host_ipv4 hostLink nicName localDirectTableNum);;
  for_version allocatedIPs IPVersion6 (host_ipv6 hostLink nicName localDirectTableNum).

(** ** ConfigureContainerNic *)

Definition on_arp {A} (m : M ARP.Link A) : M K A := zoom (λ k, Some (arp_link k)) set_arp_link m.
Definition on_ndp {A} (m : M NDPLink A) : M K A := zoom (λ k, Some (ndp_link k)) set_ndp_link m.

Definition forward_if_name (networkMode nodeIfName : string) (netID : option Z) : outcome string :=
  if decide (networkMode = NetworkModeVlan) then
    wrap_outcome (Wrapf "failed to generate vlan forward node interface name: %v" []) (GenerateVlanNetIfName nodeIfName netID)
  else if decide (networkMode = NetworkModeVxlan) then
    wrap_outcome (Wrapf "failed to generate vxlan forward node interface name: %v" []) (GenerateVxlanNetIfName nodeIfName netID)
  else Ret (if decide (networkMode = NetworkModeBGP) then nodeIfName else "").

Record Thresholds := mkThresholds { neighGCThresh1 : Z; neighGCThresh2 : Z; neighGCThresh3 : Z }.

(** One version of the address: its route and configuration for the
    container, after the checks of the node. *)
Definition container_ipv4 (hostNicName networkMode : string) (t : Thresholds) (forwardNodeIf : Interface) (info : IPInfo)
    : M K (CNIRoute * IPConfig) :=
  podCidr ← lift (deref (ii_Cidr info));
  wrap (Wrapf "failed to enable ipv4 forwarding: %v" []) (EnableIPForward FAMILY_V4);;
  wrap (Wrapf "failed to ensure ipv4 neigh gc thresh: %v" [])
    (EnsureNeighGCThresh FAMILY_V4 (neighGCThresh1 t) (neighGCThresh2 t) (neighGCThresh3 t));;
  wrap (Wrapf "failed to ensure sysctl config: %v" []) (EnsureRpFilterConfigs hostNicName);;
  (if decide (networkMode = NetworkModeVlan) then
     if decide (ii_Gw info = []) then fail (Errorf "get a nil gateway for ip %v" [IP_String (ii_Addr info)])
     else wrap (Wrapf "failed to check ipv4 vlan environment: %v" [])
            (on_arp (ARP.CheckWithTimeout (if_HardwareAddr forwardNodeIf) (ii_Addr info) (ii_Gw info)))
   else mret tt);;
  wrap (Wrapf "failed to check pod ip %v network configuration: %v" [IP_String (ii_Addr info)])
    (checkPodNetConfigReady (ii_Addr info) podCidr (if_Index forwardNodeIf) FAMILY_V4 networkMode);;
  mret (mkCNIRoute (mkIPNet (To4 (ParseIP "0.0.0.0")) (CIDRMask 0 32)) (ParseIP PodVirtualV4DefaultGateway),
        mkIPConfig "4" (Some 0) (mkIPNet (ii_Addr info) (IPNet_Mask podCidr)) []).

Definition container_ipv6 (networkMode : string) (t : Thresholds) (forwardNodeIf : Interface) (info : IPInfo)
    : M K (CNIRoute * IPConfig) :=
  podCidr ← lift (deref (ii_Cidr info));
  wrap (Wrapf "failed to enable ipv6 forwarding: %v" []) (EnableIPForward FAMILY_V6);;
  wrap (Wrapf "failed to ensure ipv6 neigh gc thresh: %v" [])
    (EnsureNeighGCThresh FAMILY_V6 (neighGCThresh1 t) (neighGCThresh2 t) (neighGCThresh3 t));;
  (if decide (networkMode = NetworkModeVlan) then
     if decide (ii_Gw info = []) then fail (Errorf "get a nil gateway for ip %v" [IP_String (ii_Addr info)])
     else wrap (Wrapf "failed to check ipv6 vlan environment: %v" [])
            (on_ndp (NDP.CheckWithTimeout (if_Name forwardNodeIf, if_HardwareAddr forwardNodeIf) (ii_Addr info) (ii_Gw info)))
   else mret tt);;
  wrap (Wrapf "failed to check pod ip %v network configuration: %v" [IP_String (ii_Addr info)])
    (checkPodNetConfigReady (ii_Addr info) podCidr (if_Index forwardNodeIf) FAMILY_V6 networkMode);;
  mret (mkCNIRoute (mkIPNet (To16 (ParseIP "::")) (CIDRMask 0 128)) (ParseIP PodVirtualV6DefaultGateway),
        mkIPConfig "6" (Some 0) (mkIPNet (ii_Addr info) (IPNet_Mask podCidr)) []).

Definition version_config (allocatedIPs : allocated) (version : string) (f : IPInfo → M K (CNIRoute * IPConfig))
    : M K (list (CNIRoute * IPConfig)) :=
  match allocatedIPs !! version with Some info => c ← f info; mret [c] | None => mret [] end.

(** What runs in the namespace of the container. *)
Definition setup_container (containerNicName : string) (configs : list (CNIRoute * IPConfig)) (ipv6AddressAllocated : bool)
    (macAddr : list Z) (mtu : Z) : M K unit :=
  containerLink ← wrap (Wrapf "can not find container nic %s %v" [containerNicName]) (LinkByName containerNicName);
  LinkSetName containerLink ContainerNicName;;
  link ← LinkByName ContainerNicName;
  let result := mkCNIResult (map snd configs) [link_Name link] (map fst configs) in
  (if ipv6AddressAllocated then
     wrap (Wrapf "failed to set sysctl parameter %s to %v: %v" [AcceptDADSysctl ContainerNicName; "0"])
       (SetSysctl (AcceptDADSysctl ContainerNicName) 0)
   else mret tt);;
  wrap (Wrapf "failed to config container nic: %v" []) (ConfigureIface ContainerNicName result);;
  wrap (Wrapf "can not set mac address to nic %s %v" [link_Name link]) (LinkSetHardwareAddr link macAddr);;
  wrap (λ _, Errorf "can not set nic %s mtu %v" [link_Name link]) (LinkSetMTU link mtu).

Definition ConfigureContainerNic (containerNicName hostNicName nodeIfName : string) (allocatedIPs : allocated) (macAddr : list Z)
    (netID : option Z) (netns : string) (mtu : Z) (networkMode : string) (t : Thresholds) : M K unit :=
  forwardNodeIfName ← lift (forward_if_name networkMode nodeIfName netID);
  forwardNodeIf ← wrap (Wrapf "failed get forward node interface %v: %v; if not exist, waiting for daemon to create it" [forwardNodeIfName])
    (InterfaceByName forwardNodeIfName);
  config4 ← version_config allocatedIPs IPVersion4 (container_ipv4 hostNicName networkMode t forwardNodeIf);
  config6 ← version_config allocatedIPs IPVersion6 (container_ipv6 networkMode t forwardNodeIf);
  NS_Do netns (setup_container containerNicName (config4 ++ config6)
    (bool_decide (is_Some (allocatedIPs !! IPVersion6))) macAddr mtu).
End containernetwork.
