(* ===== verification/Addr.v ===== *)
(** * Enhanced addresses of VLAN interfaces (pkg/daemon/addr)

    A node keeps one address of a local pod per interface and subnet, without
    local routes.  [ip_Network] is [ip.Network] of containernetworking/plugins;
    the lookup of an IP instance by its address is an argument. *)

From S2P Require Import Prelude GoNet NetText NetworkingV1 Kubernetes Store Netlink DaemonUtils IPTables ContainerNetwork.

Local Open Scope Z_scope.

Class CNINetwork : Type := { ip_Network : IPNet → IPNet }.

Abbreviation subnetToPodMap := (gmap string netIP).

Record Manager := mkManager {
  family : Z;
  localNodeName : string;
  interfaceToSubnetMap : gmap string subnetToPodMap
}.

Definition CreateAddrManager (family : Z) (nodeName : string) : Manager := mkManager family nodeName ∅.
Definition ResetInfos (m : Manager) : Manager := mkManager (family m) (localNodeName m) ∅.

(** The first pod of a subnet stays. *)
Definition TryAddPodInfo (forwardNodeIfName : string) (subnet : IPNet) (podIP : netIP) (m : Manager) : Manager :=
  let subnetMap := default ∅ (interfaceToSubnetMap m !! forwardNodeIfName) in
  mkManager (family m) (localNodeName m)
    (<[forwardNodeIfName := match subnetMap !! IPNet_String subnet with
                            | Some _ => subnetMap
                            | None => <[IPNet_String subnet := podIP]> subnetMap
                            end]> (interfaceToSubnetMap m)).

(** What a scan of the links finds: the enhanced addresses by link and subnet,
    the subnets with other addresses, the links. *)
Record Scan := mkScan {
  existEnhancedAddrMap : gmap string (gmap string Addr);
  existManualAddrSubnetMap : gmap string (gset string);
  existLinkMap : gmap string Link
}.

Definition found_enhanced (linkName subnet : string) (a : Addr) (s : Scan) : Scan :=
  mkScan (<[linkName := <[subnet := a]> (default ∅ (existEnhancedAddrMap s !! linkName))]> (existEnhancedAddrMap s))
    (existManualAddrSubnetMap s) (existLinkMap s).
Definition found_manual (linkName subnet : string) (s : Scan) : Scan :=
  mkScan (existEnhancedAddrMap s)
    (<[linkName := {[subnet]} ∪ default ∅ (existManualAddrSubnetMap s !! linkName)]> (existManualAddrSubnetMap s)) (existLinkMap s).
Definition found_link (link : Link) (s : Scan) : Scan :=
  mkScan (existEnhancedAddrMap s) (existManualAddrSubnetMap s) (<[link_Name link := link]> (existLinkMap s)).

Section kernel.
Context {K : Type} `{Netlink K} `{OS K} `{CNINetwork} {MO : MapOrder}.
Implicit Types link : Link.

Definition addr_IP (a : Addr) : netIP := IPNet_IP (addr_IPNet a).

(** ** utils.go *)

Definition local_routes link (src : netIP) (family : Z) : M K (list Route) :=
  wrap (Wrapf "failed to list local routes for interface %v and src %v: %v" [link_Name link; IP_String src])
    (RouteListFiltered family (mkRoute (link_Index link) None [] src RT_TABLE_LOCAL 0 0 0)
       [RT_FILTER_TABLE; RT_FILTER_OIF; RT_FILTER_SRC]).

Definition checkIfEnhancedAddr link (addr : Addr) (family : Z) : M K bool :=
  routeList ← local_routes link (addr_IP addr) family;
  mret (bool_decide (routeList = []) && (Z.land (addr_Flags addr) IFA_F_SECONDARY =? 0)
        && negb (Z.land (addr_Flags addr) IFA_F_NOPREFIXROUTE =? 0)).

Definition network_of (a : Addr) : IPNet :=
  mkIPNet (IP_Mask (addr_IP a) (IPNet_Mask (addr_IPNet a))) (IPNet_Mask (addr_IPNet a)).

Definition same_subnet (a b : Addr) : bool := bool_decide (IPNet_String (network_of a) = IPNet_String (network_of b)).

(** A nil address is [None]. *)
Definition ensureSubnetEnhancedAddr link (newEnhancedAddr outOfDateEnhancedAddr : option Addr) (family : Z) : M K unit :=
  match newEnhancedAddr with
  | None => fail (Errorf "new enhanced address should not be nil" [])
  | Some newEnhancedAddr =>
      (match outOfDateEnhancedAddr with
       | Some old => if same_subnet old newEnhancedAddr then mret tt
                     else fail (Errorf "out-of-date enhanced address %v need to be in the same subnet with in new enhanced address %v" [])
       | None => mret tt
       end);;
      wrap (Wrapf "failed to add enhanced addr %v for interface %v: %v" [IP_String (addr_IP newEnhancedAddr); link_Name link])
        (AddrAdd link newEnhancedAddr);;
      (match outOfDateEnhancedAddr with
       | Some old => wrap (Wrapf "failed to del out-of-date enhanced addr %v for interface %v: %v" [IP_String (addr_IP old); link_Name link])
                       (AddrDel link old)
       | None => mret tt
       end);;
      routeList ← local_routes link (addr_IP newEnhancedAddr) family;
      each (λ route, wrap (Wrapf "failed to delete local route %v: %v" []) (RouteDel route)) routeList
  end.

(** ** SyncAddresses *)

(** The two loops over the links and their addresses. *)
Fixpoint scan_addrs (m : Manager) link (s : Scan) (addrList : list Addr) : M K Scan :=
  match addrList with
  | [] => mret s
  | addr :: addrList =>
      isEnhancedAddr ← wrap (Wrapf "failed to check addr %v enhanced address: %v" []) (checkIfEnhancedAddr link addr (family m));
      let cidr := IPNet_String (ip_Network (addr_IPNet addr)) in
      scan_addrs m link (if isEnhancedAddr : bool then found_enhanced (link_Name link) cidr addr s
                         else found_manual (link_Name link) cidr s) addrList
  end.

Fixpoint scan_links (m : Manager) (s : Scan) (linkList : list Link) : M K Scan :=
  match linkList with
  | [] => mret s
  | link :: linkList =>
      if CheckIfContainerNetworkLink (link_Name link) then scan_links m s linkList
      else
        addrList ← wrap (Wrapf "failed to list addresses for link %v: %v" [link_Name link]) (AddrList (Some link) (family m));
        s ← scan_addrs m link s addrList;
        scan_links m (found_link link s) linkList
  end.

(** An enhanced address was found on a link, which is in the map of links. *)
Definition del_enhanced (s : Scan) (message linkName : string) (a : Addr) : M K unit :=
  link ← lift (deref (existLinkMap s !! linkName));
  wrap (Wrapf message []) (AddrDel link a).

Definition clear_link (m : Manager) (s : Scan) (kv : string * gmap string Addr) : M K unit :=
  match interfaceToSubnetMap m !! kv.1 with
  | None => each (λ a, del_enhanced s "failed to delete link enhanced addr %v: %v" kv.1 a.2) (map_range 30 kv.2)
  | Some targetSubnetMap =>
      each (λ a, match targetSubnetMap !! a.1 with
                 | Some _ => mret tt
                 | None => del_enhanced s "failed to delete link subnet enhanced addr %v : %v" kv.1 a.2
                 end) (map_range 31 kv.2)
  end.

Section lookup.
Variable getIPInstanceByAddress : netIP → M K (option V1IPInstance).

(** What becomes of the address of a subnet: nothing to do ([None]), or a new
    one in place of the one that is out of date. *)
Definition enhanced_of (m : Manager) (s : Scan) (forwardNodeIfName subnetString : string) (podIP : netIP) : M K (option (option Addr)) :=
  if decide (subnetString ∈ default ∅ (existManualAddrSubnetMap s !! forwardNodeIfName)) then mret None
  else
    match default ∅ (existEnhancedAddrMap s !! forwardNodeIfName) !! subnetString with
    | None => mret (Some None)
    | Some enhancedAddr =>
        if IP_Equal (addr_IP enhancedAddr) podIP then mret None
        else
          ipInstance ← wrap (Wrapf "failed to get ip instance by address %v: %v" [IP_String (addr_IP enhancedAddr)])
            (getIPInstanceByAddress (addr_IP enhancedAddr));
          mret (match ipInstance with
                | Some i => if decide (label (vi_Meta i) LabelNode = localNodeName m) then None else Some (Some enhancedAddr)
                | None => Some (Some enhancedAddr)
                end)
    end.

Definition ensure_subnet (m : Manager) (s : Scan) (forwardNodeIfName : string) (forwardNodeIf : Link) (kv : string * netIP) : M K unit :=
  let '(subnetString, podIP) := kv in
  todo ← enhanced_of m s forwardNodeIfName subnetString podIP;
  match todo with
  | None => mret tt
  | Some outOfDateEnhancedAddr =>
      match ParseCIDR subnetString with
      | None => fail (Errorf "failed to parse subnet cidr %v: %v" [subnetString])
      | Some (_, subnetCidr) =>
          wrap (Wrapf "failed to ensure subnet enhanced addr %v: %v" [IP_String podIP])
            (ensureSubnetEnhancedAddr forwardNodeIf
               (Some (mkAddr (mkIPNet podIP (IPNet_Mask subnetCidr)) "" IFA_F_NOPREFIXROUTE)) outOfDateEnhancedAddr (family m))
      end
  end.

Definition ensure_interface (m : Manager) (s : Scan) (kv : string * subnetToPodMap) : M K unit :=
  forwardNodeIf ← wrap (Wrapf "failed to find interface %v: %v" [kv.1]) (LinkByName kv.1);
  each (ensure_subnet m s kv.1 forwardNodeIf) (map_range 32 kv.2).

Definition SyncAddresses (m : Manager) : M K unit :=
  linkList ← wrap (Wrapf "failed to list link: %v" []) LinkList;
  s ← scan_links m (mkScan ∅ ∅ ∅) linkList;
  each (clear_link m s) (map_range 33 (existEnhancedAddrMap s));;
  each (ensure_interface m s) (map_range 34 (interfaceToSubnetMap m)).
End lookup.
End kernel.
