(* ===== verification/DaemonConfig.v ===== *)
(** * The configuration of the daemon (pkg/daemon/config)

    The values of the flags are a record; parsing them is pflag's.  Durations
    are in nanoseconds. *)

From Stdlib Require Import Ascii.
From S2P Require Import Prelude GoNet GoStrings Utils Netlink DaemonUtils.

Local Open Scope Z_scope.

Definition DefaultHealthyServerBindAddress : string := ":11021".
Definition DefaultMetricsServerBindAddress : string := ":8091".
Definition DefaultBGPgRPCServerBindAddress : string := ":50051".
Definition DefaultVxlanUDPPort : Z := 8472.
Definition Second : Z := 1000000000.
Definition DefaultVlanCheckTimeout : Z := 3 * Second.
Definition DefaultIPtablesCheckDuration : Z := 5 * Second.
Definition DefaultVxlanBaseReachableTime : Z := 5 * Second.
Definition DefaultVxlanExpiredNeighCachesClearInterval : Z := 3600 * Second.
Definition DefaultNeighGCThresh1 : Z := 1024.
Definition DefaultNeighGCThresh2 : Z := 2048.
Definition DefaultNeighGCThresh3 : Z := 4096.
Definition DefaultLocalDirectTableNum : Z := 39999.
Definition DefaultToOverlaySubnetTableNum : Z := 40000.
Definition DefaultOverlayMarkTableNum : Z := 40001.

Record Configuration := mkConfiguration {
  BindSocket : string;
  NodeName : string;
  VlanMTU : Z; VxlanMTU : Z; BGPMTU : Z;
  NodeVlanIfName : string; NodeVxlanIfName : string; NodeBGPIfName : string;
  ExtraNodeLocalVxlanIPCidrs : list IPNet;
  HealthyServerAddress : string; MetricsServerAddress : string; BGPgRPCServerAddress : string;
  VxlanUDPPort : Z;
  VlanCheckTimeout : Z; IptablesCheckDuration : Z;
  VxlanBaseReachableTime : Z; VxlanExpiredNeighCachesClearInterval : Z;
  VtepAddressCIDRs : list IPNet;
  LocalDirectTableNum : Z; ToOverlaySubnetTableNum : Z; OverlayMarkTableNum : Z;
  NeighGCThresh1 : Z; NeighGCThresh2 : Z; NeighGCThresh3 : Z
}.

(** The values of the flags. *)
Record Flags := mkFlags {
  argPreferInterfaces : string; argPreferVlanInterfaces : string; argPreferVxlanInterfaces : string; argPreferBGPInterfaces : string;
  argBindSocket : string; argHealthyServerAddress : string; argMetricsServerAddress : string; argBGPgRPCServerAddress : string;
  argLocalDirectTableNum : Z; argIPtablesCheckDuration : Z; argToOverlaySubnetTableNum : Z; argOverlayMarkTableNum : Z;
  argVlanCheckTimeout : Z; argVxlanUDPPort : Z; argVxlanBaseReachableTime : Z; argVxlanExpiredNeighCachesClearInterval : Z;
  argVtepAddressCIDRs : string; argNeighGCThresh1 : Z; argNeighGCThresh2 : Z; argNeighGCThresh3 : Z;
  argExtraNodeLocalVxlanIPCidrs : string
}.

Definition default_flags : Flags := mkFlags "" "" "" "" "/var/run/hybridnet.sock" DefaultHealthyServerBindAddress
  DefaultMetricsServerBindAddress DefaultBGPgRPCServerBindAddress DefaultLocalDirectTableNum DefaultIPtablesCheckDuration
  DefaultToOverlaySubnetTableNum DefaultOverlayMarkTableNum DefaultVlanCheckTimeout DefaultVxlanUDPPort
  DefaultVxlanBaseReachableTime DefaultVxlanExpiredNeighCachesClearInterval "0.0.0.0/0,::/0" DefaultNeighGCThresh1
  DefaultNeighGCThresh2 DefaultNeighGCThresh3 "".

Definition parse_cidr (l : list IPNet) (cidrString : string) : outcome (list IPNet) :=
  match ParseCIDR cidrString with
  | Some (_, cidr) => Ret (l ++ [cidr])
  | None => Fail (Errorf "failed to parse cidr %v: %v" [cidrString])
  end.

Definition parseCidrString (cidrListString : string) : outcome (list IPNet) :=
  for_each parse_cidr [] (Split cidrListString ",").

(** The list of a flag; the flag may be empty. *)
Definition cidr_flag (message value : string) : outcome (list IPNet) :=
  if decide (value = "") then Ret [] else wrap_outcome (Wrapf message []) (parseCidrString value).

(** A maximum that is unset or too large is the given one. *)
Definition limit_MTU (MTU max : Z) : Z := if (MTU =? 0) || (max <? MTU) then max else MTU.

Definition set_nics (c : Configuration) (vlan vxlan bgp : string) (vlanMTU vxlanMTU bgpMTU : Z) : Configuration :=
  mkConfiguration (BindSocket c) (NodeName c) vlanMTU vxlanMTU bgpMTU vlan vxlan bgp (ExtraNodeLocalVxlanIPCidrs c)
    (HealthyServerAddress c) (MetricsServerAddress c) (BGPgRPCServerAddress c) (VxlanUDPPort c) (VlanCheckTimeout c)
    (IptablesCheckDuration c) (VxlanBaseReachableTime c) (VxlanExpiredNeighCachesClearInterval c) (VtepAddressCIDRs c)
    (LocalDirectTableNum c) (ToOverlaySubnetTableNum c) (OverlayMarkTableNum c) (NeighGCThresh1 c) (NeighGCThresh2 c) (NeighGCThresh3 c).

Section config.
Context {K : Type} `{Netlink K} `{NetPkg K}.

(** [None]: there is no default route. *)
Definition default_gateway_if (family : Z) (message : string) : M K (option Interface) :=
  found ← attempt (GetDefaultInterface family);
  match found with
  | inl i => mret (Some i)
  | inr err => if decide (err = NotExist) then mret None else fail (Wrapf message [] err)
  end.

Definition initNicConfig (c : Configuration) : M K Configuration :=
  v4 ← default_gateway_if FAMILY_V4 "failed to get ipv4 default gateway interface: %v";
  defaultGatewayIf ← match v4 with
                     | Some i => mret (Some i)
                     | None => default_gateway_if FAMILY_V6 "failed to get ipv6 default gateway interface: %v"
                     end;
  match defaultGatewayIf with
  | None => fail (Errorf "both ipv4 and ipv6 default gateway not found" [])
  | Some gateway =>
      let pick s := PickFirstNonEmptyString [s; if_Name gateway] in
      vlanNodeInterface ← wrap (Wrapf "failed to get vlan node interface: %v" []) (GetInterfaceByPreferString (pick (NodeVlanIfName c)));
      vxlanNodeInterface ← wrap (Wrapf "failed to get vxlan node interface: %v" []) (GetInterfaceByPreferString (pick (NodeVxlanIfName c)));
      bgpNodeInterface ← wrap (Wrapf "failed to get vxlan node interface: %v" []) (GetInterfaceByPreferString (pick (NodeBGPIfName c)));
      mret (set_nics c (if_Name vlanNodeInterface) (if_Name vxlanNodeInterface) (if_Name bgpNodeInterface)
              (limit_MTU (VlanMTU c) (if_MTU vlanNodeInterface)) (limit_MTU (VxlanMTU c) (if_MTU vxlanNodeInterface - 50))
              (limit_MTU (BGPMTU c) (if_MTU bgpNodeInterface)))
  end.

(** [nodeName]: the environment variable KUBE_NODE_NAME. *)
Definition ParseFlags (nodeName : string) (f : Flags) : M K Configuration :=
  if decide (nodeName = "") then fail (Errorf "env KUBE_NODE_NAME not exists" [])
  else
    extra ← lift (cidr_flag "failed to parse extra node local vxlan ip cidrs: %v" (argExtraNodeLocalVxlanIPCidrs f));
    vtep ← lift (cidr_flag "failed to parse vtep address cidrs: %v" (argVtepAddressCIDRs f));
    initNicConfig (mkConfiguration (argBindSocket f) nodeName 0 0 0
      (if decide (argPreferVlanInterfaces f = "") then argPreferInterfaces f else argPreferVlanInterfaces f)
      (argPreferVxlanInterfaces f) (argPreferBGPInterfaces f) extra (argHealthyServerAddress f) (argMetricsServerAddress f)
      (argBGPgRPCServerAddress f) (argVxlanUDPPort f) (argVlanCheckTimeout f) (argIPtablesCheckDuration f)
      (argVxlanBaseReachableTime f) (argVxlanExpiredNeighCachesClearInterval f) vtep (argLocalDirectTableNum f)
      (argToOverlaySubnetTableNum f) (argOverlayMarkTableNum f) (argNeighGCThresh1 f) (argNeighGCThresh2 f) (argNeighGCThresh3 f)).
End config.
