(* ===== verification/CtrlHub.v ===== *)
(** * The hub of the node's controllers (pkg/daemon/controller: controller.go, utils.go)

    The hub holds the managers of the node.  The state of a step is the hub
    and the kernel; [cache] is what the client of the manager reads. *)

From Stdlib Require Import Ascii.
From stdpp Require Import pretty.
From S2P Require Import Prelude GoNet GoStrings NetText CNIPlugins NetworkingV1 MulticlusterV1 Kubernetes Utils KubeClient Store Mirror IPRange IPSet IPTables BGP Neigh Route RouteManager Addr Netlink DaemonUtils ContainerNetwork DaemonConfig.

Local Open Scope Z_scope.

Definition ActionReconcileSubnet : string := "AllSubnetsRelatedToThisNode".
Definition ActionReconcileIPInstance : string := "AllIPInstancesRelatedToThisNode".
Definition ActionReconcileNode : string := "AllNodes".
Definition RTM_DELNEIGH : Z := 29.

(** The client of the controller manager: the cache, the reads that go to the
    server, the patch of a node by the text of a strategic merge patch. *)
Class Kube (K : Type) : Type := {
  cache : K → Reader;
  api_reader : K → Reader;
  RawPatch_Node : string → string → M K unit;
  UpdateStatus_IPInstance : V1IPInstance → M K unit
}.

(** What was added to the queue of a controller; the queue is nil before the
    controller starts. *)
Abbreviation triggerSource := (option (list string)).

(** [iptablesSyncCh]: the channel of capacity one holds a message. *)
Record Hub := mkHub {
  subnetControllerTriggerSource : triggerSource;
  ipInstanceControllerTriggerSource : triggerSource;
  nodeControllerTriggerSource : triggerSource;
  routeV4Manager : RouteManager.Manager;
  routeV6Manager : RouteManager.Manager;
  neighV4Manager : Neigh.Manager;
  neighV6Manager : Neigh.Manager;
  addrV4Manager : Addr.Manager;
  bgpManager : BGP.Manager;
  iptablesV4Manager : IPTables.Manager;
  iptablesV6Manager : IPTables.Manager;
  iptablesSyncCh : bool;
  nodeIPCache : NodeIPCache;
  hub_upgradeWorkDone : bool
}.

(** ** Fields *)

Definition set_routes (m4 m6 : RouteManager.Manager) (h : Hub) : Hub :=
  mkHub (subnetControllerTriggerSource h) (ipInstanceControllerTriggerSource h) (nodeControllerTriggerSource h) m4 m6
    (neighV4Manager h) (neighV6Manager h) (addrV4Manager h) (bgpManager h) (iptablesV4Manager h) (iptablesV6Manager h)
    (iptablesSyncCh h) (nodeIPCache h) (hub_upgradeWorkDone h).
Definition set_neighs (m4 m6 : Neigh.Manager) (h : Hub) : Hub :=
  mkHub (subnetControllerTriggerSource h) (ipInstanceControllerTriggerSource h) (nodeControllerTriggerSource h)
    (routeV4Manager h) (routeV6Manager h) m4 m6 (addrV4Manager h) (bgpManager h) (iptablesV4Manager h) (iptablesV6Manager h)
    (iptablesSyncCh h) (nodeIPCache h) (hub_upgradeWorkDone h).
Definition set_addr (m : Addr.Manager) (h : Hub) : Hub :=
  mkHub (subnetControllerTriggerSource h) (ipInstanceControllerTriggerSource h) (nodeControllerTriggerSource h)
    (routeV4Manager h) (routeV6Manager h) (neighV4Manager h) (neighV6Manager h) m (bgpManager h) (iptablesV4Manager h)
    (iptablesV6Manager h) (iptablesSyncCh h) (nodeIPCache h) (hub_upgradeWorkDone h).
Definition set_bgp (m : BGP.Manager) (h : Hub) : Hub :=
  mkHub (subnetControllerTriggerSource h) (ipInstanceControllerTriggerSource h) (nodeControllerTriggerSource h)
    (routeV4Manager h) (routeV6Manager h) (neighV4Manager h) (neighV6Manager h) (addrV4Manager h) m (iptablesV4Manager h)
    (iptablesV6Manager h) (iptablesSyncCh h) (nodeIPCache h) (hub_upgradeWorkDone h).
Definition set_iptables (m4 m6 : IPTables.Manager) (h : Hub) : Hub :=
  mkHub (subnetControllerTriggerSource h) (ipInstanceControllerTriggerSource h) (nodeControllerTriggerSource h)
    (routeV4Manager h) (routeV6Manager h) (neighV4Manager h) (neighV6Manager h) (addrV4Manager h) (bgpManager h) m4 m6
    (iptablesSyncCh h) (nodeIPCache h) (hub_upgradeWorkDone h).
Definition set_rest (sync : bool) (cache : NodeIPCache) (done : bool) (h : Hub) : Hub :=
  mkHub (subnetControllerTriggerSource h) (ipInstanceControllerTriggerSource h) (nodeControllerTriggerSource h)
    (routeV4Manager h) (routeV6Manager h) (neighV4Manager h) (neighV6Manager h) (addrV4Manager h) (bgpManager h)
    (iptablesV4Manager h) (iptablesV6Manager h) sync cache done.
Definition set_triggers (s i n : triggerSource) (h : Hub) : Hub :=
  mkHub s i n (routeV4Manager h) (routeV6Manager h) (neighV4Manager h) (neighV6Manager h) (addrV4Manager h) (bgpManager h)
    (iptablesV4Manager h) (iptablesV6Manager h) (iptablesSyncCh h) (nodeIPCache h) (hub_upgradeWorkDone h).

Definition is_v6 (ipVersion : string) : bool := bool_decide (ipVersion = IPVersion6).

Definition getRouterManager (ipVersion : string) (h : Hub) : RouteManager.Manager :=
  if is_v6 ipVersion then routeV6Manager h else routeV4Manager h.
Definition getNeighManager (ipVersion : string) (h : Hub) : Neigh.Manager :=
  if is_v6 ipVersion then neighV6Manager h else neighV4Manager h.
Definition getIPtablesManager (ipVersion : string) (h : Hub) : IPTables.Manager :=
  if is_v6 ipVersion then iptablesV6Manager h else iptablesV4Manager h.

(** A method called on the manager that a getter gives. *)
Definition at_route (ipVersion : string) (f : RouteManager.Manager → RouteManager.Manager) (h : Hub) : Hub :=
  if is_v6 ipVersion then set_routes (routeV4Manager h) (f (routeV6Manager h)) h else set_routes (f (routeV4Manager h)) (routeV6Manager h) h.
Definition at_neigh (ipVersion : string) (f : Neigh.Manager → Neigh.Manager) (h : Hub) : Hub :=
  if is_v6 ipVersion then set_neighs (neighV4Manager h) (f (neighV6Manager h)) h else set_neighs (f (neighV4Manager h)) (neighV6Manager h) h.
Definition at_iptables (ipVersion : string) (f : IPTables.Manager → IPTables.Manager) (h : Hub) : Hub :=
  if is_v6 ipVersion then set_iptables (iptablesV4Manager h) (f (iptablesV6Manager h)) h
  else set_iptables (f (iptablesV4Manager h)) (iptablesV6Manager h) h.
Definition both_iptables (f : IPTables.Manager → IPTables.Manager) (h : Hub) : Hub :=
  set_iptables (f (iptablesV4Manager h)) (f (iptablesV6Manager h)) h.

(** ** utils.go *)

Definition InstanceIPIndex : string := "instanceIP".
Definition EndpointIPIndex : string := "endpointIP".

Definition instanceIPIndexer (instance : V1IPInstance) : list string :=
  match ParseCIDR (ad_IP (is_Address (vi_Spec instance))) with
  | Some (podIP, _) => [IP_String podIP]
  | None => []
  end.
Definition endpointIPIndexer (vtep : RemoteVtep) : list string := rv_EndpointIPList (rv_Spec vtep).

Definition isNeighResolving (state : Z) : bool := negb (Z.land state NUD_INCOMPLETE =? 0).

Definition nodeBelongsToNetwork (nodeName : string) (network : V1Network) : bool :=
  if decide (GetNetworkType (Some network) = NetworkTypeOverlay) then true
  else bool_decide (nodeName ∈ nst_NodeList (vn_Status network)).

(** [Equal] of the sets of github.com/gogf/gf. *)
Class StrSetEq `{StrSets} : Type := { StrSet_Equal : StrSet → StrSet → bool }.

Definition isIPListEqual `{StrSetEq} (a b : list string) : bool :=
  if decide (a = [] ∧ b = []) then true
  else if decide (a = [] ∨ b = []) then false
  else StrSet_Equal (NewStrSetFrom a) (NewStrSetFrom b).

(** The addresses of a range; nil ones are empty. *)
Record RangeMeta := mkRangeMeta {
  rm_cidr : IPNet; rm_gateway : netIP; rm_start : netIP; rm_end : netIP; rm_excludeIPs : list netIP; rm_reservedIPs : list netIP
}.

Definition parse_optional (message s : string) : outcome netIP :=
  if decide (s = "") then Ret []
  else if decide (ParseIP s = []) then Fail (Errorf message [s]) else Ret (ParseIP s).

Definition parse_listed (message : string) (l : list netIP) (s : string) : outcome (list netIP) :=
  if decide (ParseIP s = []) then Fail (Errorf message [s]) else Ret (l ++ [ParseIP s]).

(** [netlink.ParseIPNet] is an argument. *)
Definition parseSubnetSpecRangeMeta (ParseIPNet : string → outcome IPNet) (addressRange : option AddressRange) : outcome RangeMeta :=
  match addressRange with
  | None => Fail (Errorf "cannot parse a nil range" [])
  | Some r =>
      cidr ← wrap_outcome (Wrapf "failed to parse subnet cidr %v error: %v" [ar_CIDR r]) (ParseIPNet (ar_CIDR r));
      gateway ← parse_optional "invalid gateway ip %v" (ar_Gateway r);
      start ← parse_optional "invalid start ip %v" (ar_Start r);
      stop ← parse_optional "invalid end ip %v" (ar_End r);
      excludeIPs ← for_each (parse_listed "invalid exclude ip %v") [] (ar_ExcludeIPs r);
      reservedIPs ← for_each (parse_listed "invalid reserved ip %v") [] (ar_ReservedIPs r);
      Ret (mkRangeMeta cidr gateway start stop excludeIPs reservedIPs)
  end.

(** ** Predicates of the watches *)

Definition subnet_changed (oldSubnet newSubnet : V1Subnet) : bool :=
  negb (bool_decide (ssp_NetID (vs_Spec oldSubnet) = ssp_NetID (vs_Spec newSubnet)))
  || negb (bool_decide (ssp_Network (vs_Spec oldSubnet) = ssp_Network (vs_Spec newSubnet)))
  || negb (bool_decide (ssp_Range (vs_Spec oldSubnet) = ssp_Range (vs_Spec newSubnet)))
  || negb (Bool.eqb (IsSubnetAutoNatOutgoing (Some (vs_Spec oldSubnet))) (IsSubnetAutoNatOutgoing (Some (vs_Spec newSubnet)))).

Definition remote_subnet_changed (oldRs newRs : RemoteSubnet) : bool :=
  negb (bool_decide (rs_ClusterName (rs_Spec oldRs) = rs_ClusterName (rs_Spec newRs)))
  || negb (bool_decide (rs_Range (rs_Spec oldRs) = rs_Range (rs_Spec newRs)))
  || negb (bool_decide (GetRemoteSubnetType (Some oldRs) = GetRemoteSubnetType (Some newRs))).

Definition checkNodeUpdate (oldNode newNode : Node) : bool :=
  let same a := bool_decide (annotation (node_Meta oldNode) a = annotation (node_Meta newNode) a) in
  negb (same AnnotationNodeVtepIP) || negb (same AnnotationNodeVtepMac) || negb (same AnnotationNodeLocalVxlanIPList).

Definition remote_vtep_changed `{StrSetEq} (oldRemoteVtep newRemoteVtep : RemoteVtep) : bool :=
  let oldInfo := rv_VTEPInfo (rv_Spec oldRemoteVtep) in
  let newInfo := rv_VTEPInfo (rv_Spec newRemoteVtep) in
  negb (bool_decide (vtep_IP oldInfo = vtep_IP newInfo)) || negb (bool_decide (vtep_MAC oldInfo = vtep_MAC newInfo))
  || negb (bool_decide (annotation (rv_Meta oldRemoteVtep) AnnotationNodeLocalVxlanIPList
                        = annotation (rv_Meta newRemoteVtep) AnnotationNodeLocalVxlanIPList))
  || negb (isIPListEqual (rv_EndpointIPList (rv_Spec oldRemoteVtep)) (rv_EndpointIPList (rv_Spec newRemoteVtep))).

(** The tests of the lists are not negated in the source. *)
Definition network_changed (oldNetwork newNetwork : V1Network) (same_config : bool) : bool :=
  DeepEqualStringSlice (nst_SubnetList (vn_Status oldNetwork)) (nst_SubnetList (vn_Status newNetwork))
  || DeepEqualStringSlice (nst_NodeList (vn_Status oldNetwork)) (nst_NodeList (vn_Status newNetwork))
  || negb same_config.

Definition overlay_created (network : V1Network) : bool := bool_decide (GetNetworkType (Some network) = NetworkTypeOverlay).

Definition instance_of_node (nodeName : string) (i : V1IPInstance) : bool := bool_decide (label (vi_Meta i) LabelNode = nodeName).
Definition instance_update_of_node (nodeName : string) (oldIPInstance newIPInstance : V1IPInstance) : bool :=
  instance_of_node nodeName newIPInstance || instance_of_node nodeName oldIPInstance.

(** The keys added by a handler with a fixed key. *)
Definition fixedKeyHandler (key : string) : list string := [key].

(** ** Steps *)

Section steps.
Context {K : Type}.

Definition on_k {A} (m : M K A) : M (Hub * K) A := zoom (λ s, Some s.2) (λ k s, (s.1, k)) m.
Definition at_hub (f : Hub → Hub) : M (Hub * K) unit := modify (λ s, (f s.1, s.2)).
Definition on_bgp {A} (m : M (BGP.Manager * K) A) : M (Hub * K) A :=
  zoom (λ s, Some (bgpManager s.1, s.2)) (λ mk s, (set_bgp mk.1 s.1, mk.2)) m.
Definition on_iptables {A} (ipVersion : string) (m : M (IPTables.Manager * K) A) : M (Hub * K) A :=
  zoom (λ s, Some (getIPtablesManager ipVersion s.1, s.2)) (λ mk s, (at_iptables ipVersion (λ _, mk.1) s.1, mk.2)) m.
Definition on_cache {A} (m : M NodeIPCache A) : M (Hub * K) A :=
  zoom (λ s, Some (nodeIPCache s.1)) (λ c s, (set_rest (iptablesSyncCh s.1) c (hub_upgradeWorkDone s.1) s.1, s.2)) m.

(** A message for the loop of iptables, dropped when there is one. *)
Definition iptablesSyncTrigger : M (Hub * K) unit := at_hub (λ h, set_rest true (nodeIPCache h) (hub_upgradeWorkDone h) h).

(** [Trigger] on a nil queue panics. *)
Definition trigger (key : string) (get_source : Hub → triggerSource) (set_source : triggerSource → Hub → Hub) : M (Hub * K) unit :=
  h ← gets fst;
  queue ← lift (deref (get_source h));
  at_hub (set_source (Some (queue ++ [key]))).
Definition trigger_subnet : M (Hub * K) unit :=
  trigger ActionReconcileSubnet subnetControllerTriggerSource
    (λ q h, set_triggers q (ipInstanceControllerTriggerSource h) (nodeControllerTriggerSource h) h).
Definition trigger_ipinstance : M (Hub * K) unit :=
  trigger ActionReconcileIPInstance ipInstanceControllerTriggerSource
    (λ q h, set_triggers (subnetControllerTriggerSource h) q (nodeControllerTriggerSource h) h).
Definition trigger_node : M (Hub * K) unit :=
  trigger ActionReconcileNode nodeControllerTriggerSource
    (λ q h, set_triggers (subnetControllerTriggerSource h) (ipInstanceControllerTriggerSource h) q h).
(** [Start] of a source: the queue of the controller. *)
Definition start_source (set_source : triggerSource → Hub → Hub) : M (Hub * K) unit := at_hub (set_source (Some [])).

Context `{Kube K} `{CNIPlugins} `{StrSets}.

Definition from_cache {A} (f : Reader → outcome A) : M K A := k ← get; lift (f (cache k)).

(** [MatchingFields]: the objects that the indexer gives the value. *)
Definition ListIPInstancesByIP (address : string) : M K (list V1IPInstance) :=
  l ← from_cache (λ r, r_ListIPInstances r everything);
  mret (List.filter (λ i, bool_decide (address ∈ instanceIPIndexer i)) l).
Definition ListRemoteVtepsByEndpoint (address : string) : M K (list RemoteVtep) :=
  l ← from_cache r_ListRemoteVteps;
  mret (List.filter (λ v, bool_decide (address ∈ endpointIPIndexer v)) l).
Definition ListRemoteSubnetsOfCluster (clusterName : string) : M K (list RemoteSubnet) :=
  l ← from_cache r_ListRemoteSubnets;
  mret (List.filter (λ s, bool_decide (om_Labels (rs_Meta s) !! LabelCluster = Some clusterName)) l).

Definition getIPInstanceByAddress (address : netIP) : M K (option V1IPInstance) :=
  items ← wrap (Wrapf "get ip instance by ip %v indexer failed: %v" [IP_String address]) (ListIPInstancesByIP (IP_String address));
  match items with
  | [] => mret None
  | [i] => mret (Some i)
  | _ => fail (Errorf "get more than one ip instance for ip %v" [IP_String address])
  end.

(** The range that an address is looked for in has no version. *)
Definition address_range (remoteSubnet : RemoteSubnet) (address : netIP) : AddressRange :=
  mkAddressRange "" (IP_String address) (IP_String address) (ar_CIDR (rs_Range (rs_Spec remoteSubnet))) "" [] [].

(** A CIDR that cannot be parsed gives a nil network. *)
Definition holds_address (address : netIP) (remoteSubnet : RemoteSubnet) : outcome bool :=
  cidr ← deref (snd <$> ParseCIDR (ar_CIDR (rs_Range (rs_Spec remoteSubnet))));
  if negb (IPNet_Contains cidr address) then Ret false
  else Intersect (rs_Range (rs_Spec remoteSubnet)) (address_range remoteSubnet address).

Fixpoint any_holds (address : netIP) (l : list RemoteSubnet) : outcome bool :=
  match l with
  | [] => Ret false
  | s :: l => found ← holds_address address s; if found : bool then Ret true else any_holds address l
  end.

Fixpoint valid_vtep (address : netIP) (l : list RemoteVtep) : M K (option RemoteVtep) :=
  match l with
  | [] => mret None
  | remoteVtep :: l =>
      subnets ← wrap (Wrapf "failed to list remoteSubnet %v" []) (ListRemoteSubnetsOfCluster (rv_ClusterName (rv_Spec remoteVtep)));
      found ← lift (any_holds address subnets);
      if found : bool then mret (Some remoteVtep) else valid_vtep address l
  end.

Definition getRemoteVtepByEndpointAddress (address : netIP) : M K (option RemoteVtep) :=
  items ← wrap (Wrapf "get remote vtep by ip %v indexer failed: %v" [IP_String address]) (ListRemoteVtepsByEndpoint (IP_String address));
  match items with
  | [] => mret None
  | [v] => mret (Some v)
  | _ =>
      found ← valid_vtep address items;
      match found with
      | Some v => mret (Some v)
      | None => fail (Errorf "get more than one remote vtep for ip %v and cannot find valid one" [IP_String address])
      end
  end.
End steps.
