(* ===== verification/DaemonControllers.v ===== *)
(** * The node's controllers (pkg/daemon/controller: subnet.go, ipinstance.go, node.go)

    A reconciliation that fails asks for another one.  Logs are left out. *)

From Stdlib Require Import Ascii.
From stdpp Require Import pretty.
From S2P Require Import Prelude GoNet GoStrings NetText CNIPlugins NetworkingV1 MulticlusterV1 Kubernetes Utils GoJSON KubeClient Store Mirror IPRange IPSet IPTables BGP Neigh Route RouteManager Addr Netlink DaemonUtils ContainerNetwork DaemonConfig CtrlHub.

Local Open Scope Z_scope.

(** A computation with variables of its own, which start as [s]. *)
Definition with_locals {K S A} (s : S) (m : M (S * K) A) : M K A := λ k,
  let '(o, (_, k')) := m (s, k) in (o, k').

(** A function that fails after it has changed the variables it captures. *)
Definition run_closure {K S A} (s : S) (m : M (S * K) A) : M K ((A + error) * S) := λ k,
  match m (s, k) with
  | (Ret a, (s', k')) => (Ret (inl a, s'), k')
  | (Fail e, (s', k')) => (Ret (inr e, s'), k')
  | (Panic, (_, k')) => (Panic, k')
  | (Diverge, (_, k')) => (Diverge, k')
  end.

Section controllers.
Context {K : Type} `{Kube K} `{Netlink K} `{OS K} `{NetPkg K} `{CNIHost K} `{BgpServer K} {MO : MapOrder}.
Context `{CNIPlugins} `{IPAddrLib} `{CNINetwork} `{Settings} `{StrSets}.
(** [netlink.ParseIPNet] *)
Variable ParseIPNet : string → outcome IPNet.
Variable cfg : Configuration.
(** The milliseconds of a duration, by way of a float. *)
Variable float_ms : Z → Z.

(** Orders of maps and of sets. *)
Definition order_values {A} (site : nat) (m : gmap string A) : list A := map snd (map_range site m).
Definition order_pairs {A} (site : nat) (l : list (string * A)) : list (string * A) := map_range site (list_to_map l).
Definition order_names (site : nat) (l : list string) : list string := map fst (order_pairs site (map (λ s, (s, tt)) l)).

Definition get_network (name : string) : M (Hub * K) V1Network := on_k (from_cache (λ r, r_GetNetwork r name)).

(** Both families, IPv6 unless it is disabled. *)
Definition sync_families (v4 v6 : M (Hub * K) unit) : M (Hub * K) unit :=
  v4;;
  globalDisabled ← wrap (Wrapf "failed to check ipv6 global disabled: %v" []) (on_k CheckIPv6GlobalDisabled);
  if globalDisabled : bool then mret tt else v6.

(** ** subnet.go *)

(** What the mode of the network says of a subnet: the interface, NAT,
    overlay and the gateway. *)
Definition subnet_vlan (isUnderlayOnHost : bool) (netID : option Z) (gateway : netIP) : M (Hub * K) (string * bool * bool * netIP) :=
  forwardNodeIfName ← (if isUnderlayOnHost then
      wrap (Wrapf "failed to ensure vlan forward node interface: %v" []) (on_k (EnsureVlanIf (NodeVlanIfName cfg) netID))
    else mret "");
  mret (forwardNodeIfName, false, false, gateway).

Definition subnet_vxlan (subnet : V1Subnet) (netID : option Z) (gateway : netIP) : M (Hub * K) (string * bool * bool * netIP) :=
  forwardNodeIfName ← wrap (Wrapf "failed to generate vxlan forward node if name: %v" [])
    (lift (GenerateVxlanNetIfName (NodeVxlanIfName cfg) netID));
  mret (forwardNodeIfName, IsSubnetAutoNatOutgoing (Some (vs_Spec subnet)), true, gateway).

(** A nil net ID and a nil config panic. *)
Definition subnet_bgp (network : V1Network) (isUnderlayOnHost : bool) (subnetCidr : IPNet) (gateway : netIP)
    : M (Hub * K) (string * bool * bool * netIP) :=
  if negb isUnderlayOnHost then mret ("", false, false, gateway)
  else
    let name := om_Name (vn_Meta network) in
    netID ← lift (deref (ns_NetID (vn_Spec network)));
    wrap (Wrapf "try start bgp manager for network %v failed: %v" [name]) (on_bgp (TryStart (uint32 netID)));;
    config ← lift (deref (ns_Config (vn_Spec network)));
    match nc_BGPPeers config with
    | [peer] =>
        at_hub (λ h, set_bgp (BGP.RecordSubnet subnetCidr
          (RecordPeer (bp_Address peer) (bp_Password peer) (bp_ASN peer) (bp_GracefulRestartSeconds peer) (bgpManager h))) h);;
        if decide (ParseIP (bp_Address peer) = []) then
          fail (Errorf "get invalid bgp peer address %v for network %v" [bp_Address peer; name])
        else mret (NodeBGPIfName cfg, false, false, ParseIP (bp_Address peer))
    | _ => fail (Errorf "no bgp peer or multiple bgp peers are not supported for network %v" [name])
    end.

Definition reconcile_subnet (subnet : V1Subnet) : M (Hub * K) unit :=
  network ← wrap (λ _, Errorf "failed to get network for subnet %v" [om_Name (vs_Meta subnet)])
    (get_network (ssp_Network (vs_Spec subnet)));
  let isUnderlayOnHost := nodeBelongsToNetwork (NodeName cfg) network in
  let netID := match ssp_NetID (vs_Spec subnet) with Some n => Some n | None => ns_NetID (vn_Spec network) end in
  meta ← wrap (Wrapf "failed to parse subnet %v spec range meta: %v" [om_Name (vs_Meta subnet)])
    (lift (parseSubnetSpecRangeMeta ParseIPNet (Some (ssp_Range (vs_Spec subnet)))));
  networkMode ← lift (GetNetworkMode (Some network));
  how ← (if decide (networkMode = NetworkModeVlan) then subnet_vlan isUnderlayOnHost netID (rm_gateway meta)
         else if decide (networkMode = NetworkModeVxlan) then subnet_vxlan subnet netID (rm_gateway meta)
         else if decide (networkMode = NetworkModeBGP) then subnet_bgp network isUnderlayOnHost (rm_cidr meta) (rm_gateway meta)
         else fail (Errorf "invalic network mode %v for %v" [networkMode; om_Name (vn_Meta network)]));
  let '(forwardNodeIfName, autoNatOutgoing, isOverlay, gatewayIP) := how in
  at_hub (at_route (ar_Version (ssp_Range (vs_Spec subnet)))
    (AddSubnetInfo (rm_cidr meta) gatewayIP (rm_start meta) (rm_end meta) (rm_excludeIPs meta) forwardNodeIfName
       autoNatOutgoing isOverlay isUnderlayOnHost networkMode)).

Definition reconcile_remote_subnet (remoteSubnet : RemoteSubnet) : M (Hub * K) unit :=
  let range := rs_Range (rs_Spec remoteSubnet) in
  meta ← wrap (Wrapf "failed to parse subnet %v spec range meta: %v" [om_Name (rs_Meta remoteSubnet)])
    (lift (parseSubnetSpecRangeMeta ParseIPNet (Some range)));
  at_hub (at_route (ar_Version range) (AddRemoteSubnetInfo (rm_cidr meta) (rm_gateway meta) (rm_start meta) (rm_end meta)
    (rm_excludeIPs meta) (bool_decide (GetRemoteSubnetType (Some remoteSubnet) = NetworkTypeOverlay)))).

Definition sync_routes (ipVersion : string) : M (Hub * K) unit :=
  h ← gets fst; on_k (SyncRoutes (getRouterManager ipVersion h)).

Definition sync_bgp_subnets : M (Hub * K) unit :=
  h ← gets fst;
  let m := bgpManager h in
  on_k (SyncPeerAndSubnetInfos (order_values 40 (peerMap m)) (order_names 41) (order_values 42 (subnetMap m)) (order_pairs 43) m).

Definition Subnet_Reconcile : M (Hub * K) unit :=
  subnetList ← wrap (Wrapf "failed to list subnet %v" []) (on_k (from_cache r_ListSubnets));
  at_hub (λ h, set_routes (RouteManager.ResetInfos (routeV4Manager h)) (RouteManager.ResetInfos (routeV6Manager h)) h);;
  at_hub (λ h, set_bgp (ResetPeerAndSubnetInfos (bgpManager h)) h);;
  each reconcile_subnet subnetList;;
  (if MultiClusterEnabled then
     remoteSubnetList ← wrap (Wrapf "failed to list remote subnet %v" []) (on_k (from_cache r_ListRemoteSubnets));
     each reconcile_remote_subnet remoteSubnetList
   else mret tt);;
  sync_families (wrap (Wrapf "failed to sync ipv4 routes: %v" []) (sync_routes IPVersion4))
    (wrap (Wrapf "failed to sync ipv6 routes: %v" []) (sync_routes IPVersion6));;
  wrap (Wrapf "failed to sync bgp peers and subnet paths: %v" []) sync_bgp_subnets;;
  iptablesSyncTrigger.

(** ** ipinstance.go *)

Definition DockerNetnsDir : string := "/var/run/docker/netns".
Definition ContainerdNetnsDir : string := "/var/run/netns/".

(** The variables that the loop over the namespaces shares: the index of the
    link on the host and the addresses found last. *)
Abbreviation Locals := (Z * allocated)%type.

(** The addresses of one family of a container. *)
Definition find_addresses (family : Z) (version addr_message route_message : string) (link : Link) : M (Locals * K) unit :=
  let kernel {A} (m : M K A) : M (Locals * K) A := zoom (λ s, Some s.2) (λ k s, (s.1, k)) m in
  let set_ips (f : allocated → allocated) : M (Locals * K) unit := modify (λ s, ((s.1.1, f s.1.2), s.2)) in
  addrs ← wrap (Wrapf addr_message []) (kernel (AddrList (Some link) family));
  match addrs with
  | [] => set_ips (delete version)
  | _ =>
      defaultRoute ← wrap (Wrapf route_message []) (kernel (GetDefaultRoute family));
      each (λ a, set_ips <[version := mkIPInfo (addr_IP a) (rt_Gw defaultRoute) None]>) addrs
  end.

(** What runs in the namespace of a container. *)
Definition inspect_container : M (Locals * K) unit :=
  let kernel {A} (m : M K A) : M (Locals * K) A := zoom (λ s, Some s.2) (λ k s, (s.1, k)) m in
  link ← wrap (Wrapf "get container interface error: %v" []) (kernel (LinkByName ContainerNicName));
  find_addresses FAMILY_V4 IPVersion4 "failed to get v4 container interface addr: %v" "failed to get ipv4 default route: %v" link;;
  find_addresses FAMILY_V6 IPVersion6 "failed to get v6 container interface addr: %v" "failed to get ipv6 default route: %v" link;;
  peer ← kernel (GetVethPeerIfindex ContainerNicName);
  modify (λ s, ((peer.1, s.1.2), s.2));;
  match peer.2 with
  | Some err => fail (Wrapf "get host link index error: %v" [] err)
  | None => mret tt
  end.

(** An error in the namespace is logged, and what was found before is used. *)
Definition reconfigure_container (localDirectTableNum : Z) (netns : string) : M (Locals * K) unit :=
  let kernel {A} (m : M K A) : M (Locals * K) A := zoom (λ s, Some s.2) (λ k s, (s.1, k)) m in
  handler ← wrap (Wrapf "get ns error: %v" []) (kernel (GetNS netns));
  locals ← gets fst;
  done ← attempt (kernel (NS_Do handler (run_closure locals inspect_container)));
  (match done with inl (_, locals) => modify (λ s, (locals, s.2)) | inr _ => mret tt end);;
  locals ← gets fst;
  if locals.1 =? 0 then mret tt
  else
    hostLink ← wrap (Wrapf "failed to get host link by index %v: %v" [pretty locals.1]) (kernel (LinkByIndex locals.1));
    if negb (HasSuffix (link_Name hostLink) "_h") then mret tt
    else
      (if link_MasterIndex hostLink =? 0 then mret tt
       else
         bridge ← wrap (Wrapf "failed to get bridge by index %v: %v" [pretty (link_MasterIndex hostLink)])
           (kernel (LinkByIndex (link_MasterIndex hostLink)));
         wrap (Wrapf "failed to delete bridge %v: %v" [link_Name bridge]) (kernel (LinkDel bridge)));;
      wrap (Wrapf "failed to reconfigure host nic %v: %v" [link_Name hostLink])
        (kernel (ConfigureHostNic (link_Name hostLink) locals.2 localDirectTableNum)).

Fixpoint netns_paths (netnsDir : string) (files : list string) : M K (list string) :=
  match files with
  | [] => mret []
  | f :: files =>
      if decide (f = "default") then netns_paths netnsDir files
      else
        let fpath := netnsDir +:+ "/" +:+ f in
        proc ← IsProcFS fpath;
        is_ns ← (if proc : bool then mret true else IsNsFS fpath);
        rest ← netns_paths netnsDir files;
        mret (if is_ns : bool then fpath :: rest else rest)
  end.

Definition ensureExistPodConfigs (localDirectTableNum : Z) : M K unit :=
  docker ← ValidDockerNetnsDir DockerNetnsDir;
  let netnsDir := if docker : bool then DockerNetnsDir else ContainerdNetnsDir in
  read ← attempt (ReadDir netnsDir);
  files ← (match read with
           | inl files => mret files
           | inr err => if IsNotExist err then mret [] else fail err
           end);
  netnsPaths ← netns_paths netnsDir files;
  with_locals (0, ∅) (each (reconfigure_container localDirectTableNum) netnsPaths).

(** The overlay interface of the node, and BGP networks started on the way. *)
Fixpoint look_at_networks (overlay : option string) (networks : list V1Network) : M (Hub * K) (option string) :=
  match networks with
  | [] => mret overlay
  | network :: networks =>
      networkMode ← lift (GetNetworkMode (Some network));
      if decide (networkMode = NetworkModeVxlan) then
        name ← wrap (Wrapf "failed to generate vxlan forward node if name: %v" [])
          (lift (GenerateVxlanNetIfName (NodeVxlanIfName cfg) (ns_NetID (vn_Spec network))));
        look_at_networks (Some name) networks
      else if decide (networkMode = NetworkModeBGP) then
        if negb (nodeBelongsToNetwork (NodeName cfg) network) then look_at_networks overlay networks
        else
          match ns_NetID (vn_Spec network) with
          | None => fail (Errorf "the net id of network %v must to be set" [om_Name (vn_Meta network)])
          | Some netID =>
              wrap (Wrapf "try start bgp manager for network %v failed: %v" [om_Name (vn_Meta network)])
                (on_bgp (TryStart (uint32 netID)));;
              look_at_networks overlay networks
          end
      else look_at_networks overlay networks
  end.

(** The interface of an instance; the empty name for BGP. *)
Definition record_forward (networkMode : string) (netID : option Z) (version : string) (subnetCidr : IPNet) (podIP : netIP)
    : M (Hub * K) string :=
  if decide (networkMode = NetworkModeVlan) then
    name ← wrap (Wrapf "failed to generate vlan forward node interface name: %v" [])
      (lift (GenerateVlanNetIfName (NodeVlanIfName cfg) netID));
    (if decide (version = IPVersion4) then at_hub (λ h, set_addr (TryAddPodInfo name subnetCidr podIP (addrV4Manager h)) h)
     else mret tt);;
    mret name
  else if decide (networkMode = NetworkModeVxlan) then
    wrap (Wrapf "failed to generate vxlan forward node interface name: %v" [])
      (lift (GenerateVxlanNetIfName (NodeVxlanIfName cfg) netID))
  else if decide (networkMode = NetworkModeBGP) then
    at_hub (λ h, set_bgp (RecordIP podIP (bgpManager h)) h);; mret ""
  else mret "".

Definition reconcile_instance (overlay : option string) (ipInstance : V1IPInstance) : M (Hub * K) unit :=
  let address := is_Address (vi_Spec ipInstance) in
  if decide (ist_Phase (vi_Status ipInstance) ≠ IPPhaseUsing) then mret tt
  else if decide (ad_NetID address = None) then
    fail (Errorf "NetID of ip instance %v should not be nil" [om_Name (vi_Meta ipInstance)])
  else
    match ParseCIDR (ad_IP address) with
    | None => fail (Errorf "parse pod ip %v error: %v" [ad_IP address])
    | Some (podIP, subnetCidr) =>
        network ← wrap (Wrapf "failed to get network for ip instance %v: %v" [om_Name (vi_Meta ipInstance)])
          (get_network (is_Network (vi_Spec ipInstance)));
        networkMode ← lift (GetNetworkMode (Some network));
        forwardNodeIfName ← record_forward networkMode (ad_NetID address) (ad_Version address) subnetCidr podIP;
        (match overlay with
         | Some name => at_hub (at_neigh (ad_Version address) (AddPodInfo podIP name))
         | None => mret tt
         end);;
        if decide (forwardNodeIfName = "") then mret tt
        else at_hub (at_neigh (ad_Version address) (AddPodInfo podIP forwardNodeIfName))
    end.

Definition local_instances : M (Hub * K) (list V1IPInstance) :=
  on_k (from_cache (λ r, r_ListIPInstances r (mkListOptions None {[LabelNode := NodeName cfg]}))).

Definition sync_neighs (ipVersion : string) : M (Hub * K) unit :=
  h ← gets fst; on_k (SyncNeighs (getNeighManager ipVersion h)).

Definition sync_addresses : M (Hub * K) unit :=
  h ← gets fst; on_k (SyncAddresses getIPInstanceByAddress (addrV4Manager h)).

Definition sync_bgp_ips : M (Hub * K) unit :=
  h ← gets fst;
  on_k (SyncIPInfos (order_values 44 (ipMap (bgpManager h))) (order_pairs 45) (bgpManager h)).

Definition DaemonIPInstance_Reconcile : M (Hub * K) unit :=
  networkList ← wrap (Wrapf "failed to list network: %v" []) (on_k (from_cache r_ListNetworks));
  overlay ← look_at_networks None networkList;
  h ← gets fst;
  (if hub_upgradeWorkDone h then mret tt
   else
     wrap (Wrapf "failed to ensure exist pod config: %v" []) (on_k (ensureExistPodConfigs (LocalDirectTableNum cfg)));;
     at_hub (λ h, set_rest (iptablesSyncCh h) (nodeIPCache h) true h));;
  ipInstanceList ← wrap (Wrapf "list ip instances for node %v error: %v" [NodeName cfg]) local_instances;
  at_hub (λ h, set_neighs (Neigh.ResetInfos (neighV4Manager h)) (Neigh.ResetInfos (neighV6Manager h)) h);;
  at_hub (λ h, set_addr (Addr.ResetInfos (addrV4Manager h)) h);;
  at_hub (λ h, set_bgp (ResetIPInfos (bgpManager h)) h);;
  each (reconcile_instance overlay) ipInstanceList;;
  sync_families (wrap (Wrapf "failed to sync ipv4 neighs: %v" []) (sync_neighs IPVersion4))
    (wrap (Wrapf "failed to sync ipv6 neighs: %v" []) (sync_neighs IPVersion6));;
  wrap (Wrapf "failed to sync ipv4 addresses: %v" []) sync_addresses;;
  wrap (Wrapf "failed to sync bgp ip paths: %v" []) sync_bgp_ips;;
  iptablesSyncTrigger.

(** ** node.go *)

Definition selectVtepAddressFromLink : M K (netIP * list Z) :=
  link ← wrap (Wrapf "failed to get node vxlan interface %v: %v" [NodeVxlanIfName cfg]) (LinkByName (NodeVxlanIfName cfg));
  existParentAddrList ← wrap (Wrapf "failed to list address for vxlan parent link %v: %v" [link_Name link]) (ListAllAddress link);
  if decide (existParentAddrList = []) then
    fail (Errorf "there is no available ip for vxlan parent link %v" [link_Name link])
  else
    match List.find (λ a, existsb (λ cidr, IPNet_Contains cidr (addr_IP a)) (VtepAddressCIDRs cfg)) existParentAddrList with
    | None => fail (Errorf "no availuable vtep ip can be used for link %v" [link_Name link])
    | Some a => mret (addr_IP a, link_HardwareAddr link)
    end.

(** An address is there once for each extra block that has it. *)
Definition local_vxlan_addr (thisNode : Node) (vtepIP : netIP) (a : Addr) : list Addr :=
  if bool_decide (IP_String (addr_IP a) ∈ node_Addresses thisNode) || IP_Equal (addr_IP a) vtepIP then [a]
  else map (λ _, a) (List.filter (λ cidr, IPNet_Contains cidr (addr_IP a)) (ExtraNodeLocalVxlanIPCidrs cfg)).

Definition selectNodeLocalVxlanAddrs (thisNode : Node) (vtepIP : netIP) (vxlanLinkName : string) : M K (list Addr) :=
  existAllAddrList ← wrap (Wrapf "failed to list address for all interfaces: %v" []) (ListLocalAddressExceptLink vxlanLinkName);
  mret (flat_map (local_vxlan_addr thisNode vtepIP) existAllAddrList).

Definition json_entry (key value : string) : string := quoted key +:+ ":" +:+ quoted value.

Definition vxlan_patch (vtepIP : netIP) (vtepMac : list Z) (addrs : list Addr) : string :=
  "{" +:+ quoted "metadata" +:+ ":{" +:+ quoted "annotations" +:+ ":{" +:+
  json_entry AnnotationNodeVtepIP (IP_String vtepIP) +:+ "," +:+
  json_entry AnnotationNodeVtepMac (HardwareAddr_String vtepMac) +:+ "," +:+
  json_entry AnnotationNodeLocalVxlanIPList (GenerateIPListString addrs) +:+ "}}}".

Definition updateNodeVxlanAnnotations (thisNode : Node) (vtepIP : netIP) (vtepMac : list Z) (addrs : list Addr) : M K unit :=
  RawPatch_Node (om_Name (node_Meta thisNode)) (vxlan_patch vtepIP vtepMac addrs).

Definition ip_texts (l : list Addr) : gset string := list_to_set (map (λ a, IP_String (addr_IP a)) l).

Definition ensureVxlanInterfaceAddresses (vxlanDev : Device) (addresses : list Addr) : M K unit :=
  let link := dev_link vxlanDev in
  vxlanDevAddrList ← wrap (Wrapf "failed to list address for vxlan interface %v: %v" [link_Name link]) (ListAllAddress link);
  each (λ a, if decide (IP_String (addr_IP a) ∈ ip_texts vxlanDevAddrList) then mret tt
             else wrap (Wrapf "failed to set addr %v to link %v: %v" [IP_String (addr_IP a); link_Name link])
                    (AddrAdd link (mkAddr (addr_IPNet a) "" IFA_F_NOPREFIXROUTE))) addresses;;
  each (λ a, if decide (IP_String (addr_IP a) ∈ ip_texts addresses) then mret tt
             else wrap (Wrapf "failed to del addr %v for link %v: %v" [IP_String (addr_IP a); link_Name link]) (AddrDel link a))
    vxlanDevAddrList.

(** Whether a node has all its annotations. *)
Definition vtep_known (node : Node) : bool :=
  let known a := negb (bool_decide (annotation (node_Meta node) a = "")) in
  known AnnotationNodeVtepMac && known AnnotationNodeVtepIP && known AnnotationNodeLocalVxlanIPList.

Definition record_vtep (mac_message ip_message mac ip : string) (dev : Device) : outcome Device :=
  vtepMac ← wrap_outcome (Wrapf mac_message [mac]) (ParseMAC mac);
  if decide (ParseIP ip = []) then Fail (Errorf ip_message [ip]) else Ret (RecordVtepInfo vtepMac (ParseIP ip) dev).

(** The device and the names of the nodes without annotations. *)
Definition record_node (st : Device * list string) (node : Node) : outcome (Device * list string) :=
  if vtep_known node then
    dev ← record_vtep "failed to parse node vtep mac string %v: %v" "failed to parse node vtep ip string %v"
      (annotation (node_Meta node) AnnotationNodeVtepMac) (annotation (node_Meta node) AnnotationNodeVtepIP) st.1;
    Ret (dev, st.2)
  else Ret (st.1, st.2 ++ [om_Name (node_Meta node)]).

Definition record_remote (dev : Device) (remoteVtep : RemoteVtep) : outcome Device :=
  let info := rv_VTEPInfo (rv_Spec remoteVtep) in
  record_vtep "failed to parse remote vtep mac string %v: %v" "failed to parse remote vtep ip string %v" (vtep_MAC info) (vtep_IP info) dev.

(** The net ID of the first overlay network. *)
Definition overlay_net_id (networks : list V1Network) : option Z :=
  match List.find (λ n, bool_decide (GetNetworkType (Some n) = NetworkTypeOverlay)) networks with
  | Some network => ns_NetID (vn_Spec network)
  | None => None
  end.

(** The part with an overlay network.  The list of remote VTEPs that is read
    is not the one that the cache is updated with: that one is empty. *)
Definition reconcile_overlay (overlayNetID : Z) : M (Hub * K) unit :=
  vtep ← wrap (Wrapf "failed to select vtep address: %v" []) (on_k selectVtepAddressFromLink);
  let '(vtepIP, vtepMac) := vtep in
  vxlanLinkName ← wrap (Wrapf "failed to generate vxlan interface name: %v" [])
    (lift (GenerateVxlanNetIfName (NodeVxlanIfName cfg) (Some overlayNetID)));
  thisNode ← wrap (Wrapf "failed to get node %v object: %v" [NodeName cfg]) (on_k (from_cache (λ r, r_GetNode r (NodeName cfg))));
  nodeLocalVxlanAddrs ← wrap (Wrapf "failed to select node local vxlan addresses: %v" [])
    (on_k (selectNodeLocalVxlanAddrs thisNode vtepIP vxlanLinkName));
  wrap (Wrapf "failed to update node vxlan annotations: %v" [])
    (on_k (updateNodeVxlanAnnotations thisNode vtepIP vtepMac nodeLocalVxlanAddrs));;
  nodeList ← wrap (Wrapf "failed list node: %v" []) (on_k (from_cache (λ r, r_ListNodes r everything)));
  vxlanDev ← wrap (Wrapf "failed to create vxlan device %v: %v" [vxlanLinkName])
    (on_k (NewVxlanDevice vxlanLinkName overlayNetID (NodeVxlanIfName cfg) vtepIP (VxlanUDPPort cfg)
       (float_ms (VxlanBaseReachableTime cfg)) true));
  wrap (Wrapf "failed to ensure addresses for vxlan device %v: %v" [vxlanLinkName])
    (on_k (ensureVxlanInterfaceAddresses vxlanDev nodeLocalVxlanAddrs));;
  recorded ← lift (for_each record_node (vxlanDev, []) nodeList);
  let '(vxlanDev, incompleteVtepInfoNodes) := recorded in
  vxlanDev ← (if MultiClusterEnabled then
      remoteVtepList ← wrap (Wrapf "failed to list remote vtep: %v" []) (on_k (from_cache r_ListRemoteVteps));
      lift (for_each record_remote vxlanDev remoteVtepList)
    else mret vxlanDev);
  wrap (Wrapf "failed to update node ip cache: %v" []) (on_cache (UpdateNodeIPs nodeList (NodeName cfg) []));;
  wrap (Wrapf "failed to sync vtep info for vxlan device %v: %v" [link_Name (dev_link vxlanDev)]) (on_k (SyncVtepInfo vxlanDev));;
  iptablesSyncTrigger;;
  trigger_subnet;;
  if decide (incompleteVtepInfoNodes = []) then mret tt
  else fail (Errorf "some of the nodes' vtep information has not been updated, error nodes are: %v" incompleteVtepInfoNodes).

Definition DaemonNode_Reconcile : M (Hub * K) unit :=
  networkList ← wrap (Wrapf "failed to list network %v" []) (on_k (from_cache r_ListNetworks));
  match overlay_net_id networkList with
  | None => mret tt
  | Some overlayNetID => reconcile_overlay overlayNetID
  end.
End controllers.
