(* ===== verification/DaemonEvents.v ===== *)
(** * The hub: start, events of the kernel, the loop of iptables (pkg/daemon/controller/controller.go)

    The loops over channels call the steps here with what they receive; their
    errors are logged.  Subscriptions, timers and the health server are left
    out. *)

From Stdlib Require Import Ascii.
From stdpp Require Import pretty.
From S2P Require Import Prelude GoNet GoStrings NetText CNIPlugins NetworkingV1 MulticlusterV1 Kubernetes Utils KubeClient Store Mirror IPRange IPSet IPTables BGP Neigh Route RouteManager Addr Netlink DaemonUtils ContainerNetwork DaemonConfig CtrlHub DaemonControllers.

Local Open Scope Z_scope.

Section events.
Context {K : Type} `{Kube K} `{Netlink K} `{OS K} `{NetPkg K} `{CNIHost K} `{BgpServer K} `{IPSetCmd K} `{IPTablesExec K} {MO : MapOrder}.
Context `{CNIPlugins} `{IPAddrLib} `{Settings} `{StrSets}.
Variable cfg : Configuration.

(** ** NewCtrlHub *)

Definition new_iptables (p : Protocol) (message : string) : M K IPTables.Manager :=
  wrap (Wrapf message []) (lift (CreateIPtablesManager (K := K) p)).

Definition NewCtrlHub : M K Hub :=
  let create family message := wrap (Wrapf message [])
    (CreateRouteManager (LocalDirectTableNum cfg) (ToOverlaySubnetTableNum cfg) (OverlayMarkTableNum cfg) family) in
  routeV4Manager ← create FAMILY_V4 "failed to create ipv4 route manager: %v";
  routeV6Manager ← create FAMILY_V6 "failed to create ipv6 route manager: %v";
  iptablesV4Manager ← new_iptables ProtocolIpv4 "failed to create ipv4 iptables manager: %v";
  iptablesV6Manager ← new_iptables ProtocolIpv6 "failed to create ipv6 iptables manager: %v";
  bgpManager ← wrap (Wrapf "failed to create bgp manager: %v" []) (NewManager (NodeBGPIfName cfg));
  k ← get;
  wrap (Wrapf "failed to get node %s info %v" [NodeName cfg]) (lift (r_GetNode (api_reader k) (NodeName cfg)));;
  mret (mkHub None None None routeV4Manager routeV6Manager (CreateNeighManager FAMILY_V4) (CreateNeighManager FAMILY_V6)
          (CreateAddrManager FAMILY_V4 (NodeName cfg)) bgpManager iptablesV4Manager iptablesV6Manager false NewNodeIPCache false).

(** ** handleLocalNetworkDeviceEvent *)

Definition on_link_update (up : bool) (linkName : string) : M (Hub * K) unit :=
  if up && negb (CheckIfContainerNetworkLink linkName) then trigger_subnet;; trigger_ipinstance else mret tt.

Definition on_addr_update (ip : netIP) : M (Hub * K) unit :=
  if CheckIPIsGlobalUnicast ip then trigger_node else mret tt.

(** ** handleVxlanInterfaceNeighEvent *)

(** The MAC of the VTEP behind an address; empty: unknown. *)
Definition vtep_of_instance (ipInstance : V1IPInstance) : M (Hub * K) (list Z) :=
  let nodeName := label (vi_Meta ipInstance) LabelNode in
  node ← wrap (Wrapf "failed to get node %v: %v" [nodeName]) (on_k (from_cache (λ r, r_GetNode r nodeName)));
  let mac := annotation (node_Meta node) AnnotationNodeVtepMac in
  wrap (Wrapf "failed to parse vtep mac %v: %v" [mac]) (lift (ParseMAC mac)).

Definition vtep_of_remote (ip : netIP) : M (Hub * K) (list Z) :=
  vtep ← wrap (Wrapf "failed to get remote vtep by address %s: %v" [IP_String ip]) (on_k (getRemoteVtepByEndpointAddress ip));
  match vtep with
  | None => mret []
  | Some v =>
      let mac := vtep_MAC (rv_VTEPInfo (rv_Spec v)) in
      wrap (Wrapf "failed to parse vtep mac %v: %v" [mac]) (lift (ParseMAC mac))
  end.

Definition find_vtep (ip : netIP) : M (Hub * K) (list Z) :=
  h ← gets fst;
  match SearchIP ip (nodeIPCache h) with
  | Some mac => mret mac
  | None =>
      ipInstance ← wrap (Wrapf "failed to get ip instance by address %v: %v" [IP_String ip]) (on_k (getIPInstanceByAddress ip));
      match ipInstance with
      | Some i => vtep_of_instance i
      | None => if MultiClusterEnabled then vtep_of_remote ip else mret []
      end
  end.

Definition ipSearch (ip : netIP) (link : Link) : M (Hub * K) unit :=
  vtepMac ← find_vtep ip;
  if decide (vtepMac = []) then
    wrap (Wrapf "failed to clear stale neigh for link %v and ip %v: %v" [link_Name link; IP_String ip])
      (on_k (ClearStaleNeighEntryByIP (link_Index link) ip));;
    fail (Errorf "no matched node or pod ip cache found for ip %v" [IP_String ip])
  else
    wrap (Wrapf "failed to set neigh %v: %v" [])
      (on_k (NeighSet (mkNeigh (link_Index link) 0 NUD_REACHABLE 0 ip vtepMac RTN_UNICAST))).

(** An update is looked at, and a search may start; it runs on its own. *)
Definition on_neigh_update (state type linkIndex : Z) (ip : netIP) : M (Hub * K) unit :=
  if negb (isNeighResolving state) || (type =? RTM_DELNEIGH) then mret tt
  else
    found ← attempt (on_k (LinkByIndex linkIndex));
    match found with
    | inr _ => mret tt
    | inl link => if Contains (link_Name link) VxlanLinkInfix then ignore (ipSearch ip link) else mret tt
    end.

Definition clear_link_caches (link : Link) : M K unit :=
  if negb (Contains (link_Name link) VxlanLinkInfix) then mret tt
  else
    wrap (Wrapf "failed to clear v4 expired neigh entries for link %v: %v" [link_Name link])
      (ClearStaleAddFailedNeighEntries (link_Index link) FAMILY_V4);;
    ipv6Disabled ← wrap (Wrapf "failed to check ipv6 disables for link %v: %v" [link_Name link]) (CheckIPv6Disabled (link_Name link));
    if ipv6Disabled : bool then mret tt
    else wrap (Wrapf "failed to clear v6 expired neigh entries for link %v: %v" [link_Name link])
           (ClearStaleAddFailedNeighEntries (link_Index link) FAMILY_V6).

Definition clearVxlanExpiredNeighCaches : M K unit :=
  linkList ← wrap (Wrapf "failed to list link: %v" []) LinkList;
  each clear_link_caches linkList.

(** ** iptablesSyncFunc *)

Definition record_network (network : V1Network) : M (Hub * K) unit :=
  networkMode ← lift (GetNetworkMode (Some network));
  if decide (networkMode = NetworkModeVxlan) then
    overlayIfName ← wrap (Wrapf "failed to generate vxlan forward node if name: %v" [])
      (lift (GenerateVxlanNetIfName (NodeVxlanIfName cfg) (ns_NetID (vn_Spec network))));
    at_hub (both_iptables (SetOverlayIfName overlayIfName))
  else if decide (networkMode = NetworkModeBGP) then
    if nodeBelongsToNetwork (NodeName cfg) network then at_hub (both_iptables (SetBgpIfName (NodeBGPIfName cfg))) else mret tt
  else mret tt.

(** The manager of the family of an address; an address that is none counts
    as IPv6. *)
Definition version_of (ip : netIP) : string := if decide (To4 ip = []) then IPVersion6 else IPVersion4.

Definition record_ip (record : netIP → IPTables.Manager → IPTables.Manager) (ipString : string) (h : Hub) : Hub :=
  let ip := ParseIP ipString in at_iptables (version_of ip) (record ip) h.

Definition record_ips (record : netIP → IPTables.Manager → IPTables.Manager) (list_text : string) (h : Hub) : Hub :=
  fold_left (λ h ipString, record_ip record ipString h) (Split list_text ",") h.

Definition record_node_ips (node : Node) : M (Hub * K) unit :=
  if vtep_known node then
    at_hub (record_ips RecordNodeIP (annotation (node_Meta node) AnnotationNodeLocalVxlanIPList))
  else mret tt.

Definition record_local_pod (ipInstance : V1IPInstance) : M (Hub * K) unit :=
  let address := ad_IP (is_Address (vi_Spec ipInstance)) in
  if decide (ist_Phase (vi_Status ipInstance) ≠ IPPhaseUsing) then mret tt
  else
    match ParseCIDR address with
    | None => fail (Errorf "parse pod ip %v error: %v" [address])
    | Some (podIP, _) => at_hub (at_iptables (version_of podIP) (RecordLocalPodIP podIP))
    end.

Definition record_subnet (subnet : V1Subnet) : M (Hub * K) unit :=
  let range := ssp_Range (vs_Spec subnet) in
  match ParseCIDR (ar_CIDR range) with
  | None => fail (Errorf "failed to parse subnet cidr %v: %v" [ar_CIDR range])
  | Some (_, cidr) =>
      network ← wrap (λ _, Errorf "failed to get network for subnet %v" [om_Name (vs_Meta subnet)])
        (get_network (ssp_Network (vs_Spec subnet)));
      networkMode ← lift (GetNetworkMode (Some network));
      at_hub (at_iptables (ar_Version range) (IPTables.RecordSubnet cidr
        (bool_decide (GetNetworkType (Some network) = NetworkTypeOverlay))
        (bool_decide (networkMode = NetworkModeBGP) && nodeBelongsToNetwork (NodeName cfg) network)))
  end.

Definition record_remote_vtep (vtep : RemoteVtep) : M (Hub * K) unit :=
  at_hub (match om_Annotations (rv_Meta vtep) !! AnnotationNodeLocalVxlanIPList with
          | None => record_ip RecordRemoteNodeIP (vtep_IP (rv_VTEPInfo (rv_Spec vtep)))
          | Some ips => record_ips RecordRemoteNodeIP ips
          end).

Definition record_remote_subnet (remoteSubnet : RemoteSubnet) : M (Hub * K) unit :=
  let range := rs_Range (rs_Spec remoteSubnet) in
  match ParseCIDR (ar_CIDR range) with
  | None => fail (Errorf "failed to parse remote subnet cidr %v: %v" [ar_CIDR range])
  | Some (_, cidr) =>
      at_hub (at_iptables (ar_Version range)
        (RecordRemoteSubnet cidr (bool_decide (GetRemoteSubnetType (Some remoteSubnet) = NetworkTypeOverlay))))
  end.

(** What the managers are told. *)
Definition record_iptables : M (Hub * K) unit :=
  at_hub (both_iptables Reset);;
  networkList ← wrap (Wrapf "failed to list network: %v" []) (on_k (from_cache r_ListNetworks));
  each record_network networkList;;
  nodeList ← wrap (Wrapf "failed to list node: %v" []) (on_k (from_cache (λ r, r_ListNodes r everything)));
  each record_node_ips nodeList;;
  ipInstanceList ← wrap (Wrapf "failed to list pod ip instances of node %v: %v" [NodeName cfg]) (local_instances cfg);
  each record_local_pod ipInstanceList;;
  subnetList ← wrap (Wrapf "failed to list subnet: %v" []) (on_k (from_cache r_ListSubnets));
  each record_subnet subnetList;;
  if MultiClusterEnabled then
    remoteSubnetList ← wrap (Wrapf "failed to list remote network: %v" []) (on_k (from_cache r_ListRemoteSubnets));
    vtepList ← wrap (Wrapf "failed to list remote vtep: %v" []) (on_k (from_cache r_ListRemoteVteps));
    each record_remote_vtep vtepList;;
    each record_remote_subnet remoteSubnetList
  else mret tt.

Definition iptablesSyncFunc : M (Hub * K) unit :=
  record_iptables;;
  sync_families (wrap (Wrapf "failed to sync v4 iptables rule: %v" []) (on_iptables IPVersion4 SyncRules))
    (wrap (Wrapf "failed to sync v6 iptables rule: %v" []) (on_iptables IPVersion6 SyncRules)).

(** A message is taken from the channel; the ticker puts one. *)
Definition iptables_round : M (Hub * K) unit :=
  h ← gets fst;
  if iptablesSyncCh h then
    at_hub (λ h, set_rest false (nodeIPCache h) (hub_upgradeWorkDone h) h);;
    ignore iptablesSyncFunc
  else mret tt.
End events.
