(* ===== verification/IPTablesCluster.v ===== *)
(** * What iptables is told of the cluster

    The loop of iptables reads the cached objects, records their addresses in
    the managers of both families, and makes the rules follow.  [expected] is
    what a manager holds then, as lists over the cached objects.  The property
    runs on the system of [IPTablesProperties]. *)

From Stdlib Require Import Ascii.
From stdpp Require Import pretty.
From S2P Require Import Prelude GoNet GoStrings NetBlock NetText NetworkingV1 MulticlusterV1 Kubernetes Utils KubeClient Store Mirror IPSet IPSetProperties IPTables IPTablesSync IPTablesProperties Netlink DaemonUtils DaemonConfig CtrlHub DaemonControllers DaemonEvents.

Local Open Scope Z_scope.

(** ** What is recorded *)

Record ClusterLists := mkClusterLists {
  cl_networks : list V1Network;
  cl_nodes : list Node;
  cl_instances : list V1IPInstance;
  cl_subnets : list V1Subnet;
  cl_remoteSubnets : list RemoteSubnet;
  cl_vteps : list RemoteVtep
}.

Section expected.
Context `{Settings}.
Variables (cfg : Configuration) (r : Reader).

(** The lists of the cache; those of remote clusters count with the feature. *)
Record cached (l : ClusterLists) : Prop := {
  ca_networks : r_ListNetworks r = Ret (cl_networks l);
  ca_nodes : r_ListNodes r everything = Ret (cl_nodes l);
  ca_instances : r_ListIPInstances r (mkListOptions None {[LabelNode := NodeName cfg]}) = Ret (cl_instances l);
  ca_subnets : r_ListSubnets r = Ret (cl_subnets l);
  ca_remote_subnets : r_ListRemoteSubnets r = Ret (cl_remoteSubnets l);
  ca_vteps : r_ListRemoteVteps r = Ret (cl_vteps l);
  ca_network name : match r_GetNetwork r name with Ret _ | Fail _ => True | _ => False end
}.

Definition same_family (v6 : bool) (version : string) : bool := Bool.eqb (is_v6 version) v6.

Definition overlay_net (net : V1Network) : bool := bool_decide (GetNetworkType (Some net) = NetworkTypeOverlay).
Definition is_local_bgp (net : V1Network) : bool :=
  negb (overlay_net net) && (match GetNetworkMode (Some net) with Ret mode => bool_decide (mode = NetworkModeBGP) | _ => false end
    && nodeBelongsToNetwork (NodeName cfg) net).

(** The network of a subnet of the family whose network is selected. *)
Definition subnet_part (v6 : bool) (sel : V1Network → bool) (s : V1Subnet) : option IPNet :=
  if same_family v6 (ar_Version (ssp_Range (vs_Spec s))) then
    match ParseCIDR (ar_CIDR (ssp_Range (vs_Spec s))), r_GetNetwork r (ssp_Network (vs_Spec s)) with
    | Some (_, n), Ret net => if sel net then Some n else None
    | _, _ => None
    end
  else None.

Definition remote_part (v6 : bool) (overlay : bool) (s : RemoteSubnet) : option IPNet :=
  if same_family v6 (ar_Version (rs_Range (rs_Spec s))) then
    match ParseCIDR (ar_CIDR (rs_Range (rs_Spec s))) with
    | Some (_, n) => if Bool.eqb (bool_decide (GetRemoteSubnetType (Some s) = NetworkTypeOverlay)) overlay then Some n else None
    | None => None
    end
  else None.

Definition of_family (v6 : bool) (texts : list string) : list netIP :=
  List.filter (λ ip, same_family v6 (version_of ip)) (map ParseIP texts).

Definition node_texts (node : Node) : list string :=
  if vtep_known node then Split (annotation (node_Meta node) AnnotationNodeLocalVxlanIPList) "," else [].
Definition vtep_texts (v : RemoteVtep) : list string :=
  match om_Annotations (rv_Meta v) !! AnnotationNodeLocalVxlanIPList with
  | None => [vtep_IP (rv_VTEPInfo (rv_Spec v))]
  | Some ips => Split ips ","
  end.

Definition pod_part (v6 : bool) (i : V1IPInstance) : option netIP :=
  if decide (ist_Phase (vi_Status i) = IPPhaseUsing) then
    match ParseCIDR (ad_IP (is_Address (vi_Spec i))) with
    | Some (ip, _) => if same_family v6 (version_of ip) then Some ip else None
    | None => None
    end
  else None.

(** The interfaces: those of the networks that are listed last. *)
Definition network_names (names : string * string) (net : V1Network) : string * string :=
  match GetNetworkMode (Some net) with
  | Ret mode =>
      if decide (mode = NetworkModeVxlan) then
        (match GenerateVxlanNetIfName (NodeVxlanIfName cfg) (ns_NetID (vn_Spec net)) with Ret n => n | _ => names.1 end, names.2)
      else if decide (mode = NetworkModeBGP) then
        (names.1, if nodeBelongsToNetwork (NodeName cfg) net then NodeBGPIfName cfg else names.2)
      else names
  | _ => names
  end.

Definition remote_lists {A} (l : list A) : list A := if MultiClusterEnabled then l else [].

Definition expected (l : ClusterLists) (v6 : bool) (m : Manager) : Manager :=
  let names := fold_left network_names (cl_networks l) ("", bgpIfName m) in
  mkManager (omap (subnet_part v6 overlay_net) (cl_subnets l)) (omap (subnet_part v6 (λ net, negb (overlay_net net))) (cl_subnets l))
    (omap (subnet_part v6 is_local_bgp) (cl_subnets l))
    (flat_map (λ n, of_family v6 (node_texts n)) (cl_nodes l)) (omap (pod_part v6) (cl_instances l))
    names.1 names.2 (protocol m) (mgr_c m) (upgradeWorkDone m)
    (omap (remote_part v6 true) (remote_lists (cl_remoteSubnets l))) (omap (remote_part v6 false) (remote_lists (cl_remoteSubnets l)))
    (flat_map (λ v, of_family v6 (vtep_texts v)) (remote_lists (cl_vteps l))).
End expected.

(** ** The managers of the hub *)

Definition hub_mgr (v6 : bool) (h : Hub) : Manager := if v6 then iptablesV6Manager h else iptablesV4Manager h.

Lemma hub_mgr_at v6 version f h :
  hub_mgr v6 (at_iptables version f h) = if same_family v6 version then f (hub_mgr v6 h) else hub_mgr v6 h.
Proof. unfold hub_mgr, at_iptables, same_family. by destruct (is_v6 version), v6. Qed.

Lemma hub_mgr_both v6 f h : hub_mgr v6 (both_iptables f h) = f (hub_mgr v6 h).
Proof. by destruct v6. Qed.

Lemma hub_mgr_ips v6 record texts h :
  hub_mgr v6 (fold_left (λ h s, record_ip record s h) texts h) = fold_left (λ m ip, record ip m) (of_family v6 texts) (hub_mgr v6 h).
Proof.
  revert h. induction texts as [|s texts IH]; intros h; [done|]. cbn [fold_left]. rewrite IH.
  unfold record_ip at 1. rewrite hub_mgr_at. unfold of_family. cbn [map List.filter]. by destruct (same_family v6 _).
Qed.

(** ** The loops

    A step tells the manager of each family what it is to record. *)

Section loops.
Context {K : Type}.

Definition tells {X} (k : K) (tell : bool → X → Manager → Manager) (f : X → M (Hub * K) unit) : Prop :=
  ∀ x h, post (f x) (h, k) (λ o s', s'.2 = k ∧ match o with
    | Ret _ => ∀ v6, hub_mgr v6 s'.1 = tell v6 x (hub_mgr v6 h)
    | Fail _ => True
    | _ => False
    end).

Lemma tells_each {X} (tell : bool → X → Manager → Manager) f l h k :
  tells k tell f →
  post (each f l) (h, k) (λ o s', s'.2 = k ∧ match o with
    | Ret _ => ∀ v6, hub_mgr v6 s'.1 = fold_left (λ m x, tell v6 x m) l (hub_mgr v6 h)
    | Fail _ => True
    | _ => False
    end).
Proof.
  intros Hf. revert h. induction l as [|x l IH]; intros h; cbn [each]; [by apply post_ret|].
  apply post_bind. eapply post_mono; [apply Hf|]. intros [[]|e| |] [h1 k1] [E Ho]; cbn [fst snd] in *; [|done..]. subst k1.
  eapply post_mono; [apply IH|]. intros o s' [Hk Hs]. split; [done|]. destruct o as [[]|e| |]; [|done..].
  intros v6. cbn [fold_left]. by rewrite Hs, Ho.
Qed.

Lemma post_at_hub f h (k : K) (Q : outcome unit → Hub * K → Prop) : Q (Ret tt) (f h, k) → post (at_hub f) (h, k) Q.
Proof. done. Qed.

Lemma post_on_k {A} (m : M K A) h k Q : post m k (λ o k', Q o (h, k')) → post (on_k m) (h, k) Q.
Proof. unfold post, on_k, zoom. cbn. by destruct (m k). Qed.

Lemma post_lift {A} (o : outcome A) (s : Hub * K) Q : Q o s → post (lift o) s Q.
Proof. done. Qed.

(** Lists are extended at their ends. *)
Definition extend (o u b : list IPNet) (n p : list netIP) (ro ru : list IPNet) (rn : list netIP) (m : Manager) : Manager :=
  mkManager (localClusterOverlaySubnets m ++ o) (localClusterUnderlaySubnets m ++ u) (localBGPSubnets m ++ b)
    (nodeIPList m ++ n) (localPodIPList m ++ p) (overlayIfName m) (bgpIfName m) (protocol m) (mgr_c m) (upgradeWorkDone m)
    (remoteClusterOverlaySubnets m ++ ro) (remoteClusterUnderlaySubnets m ++ ru) (remoteNodeIPList m ++ rn).

Lemma extend_nil m : extend [] [] [] [] [] [] [] [] m = m.
Proof. unfold extend. rewrite !app_nil_r. by destruct m. Qed.

Lemma fold_extend {X} (o u b ro ru : X → list IPNet) (n p rn : X → list netIP) l m :
  fold_left (λ m x, extend (o x) (u x) (b x) (n x) (p x) (ro x) (ru x) (rn x) m) l m
  = extend (flat_map o l) (flat_map u l) (flat_map b l) (flat_map n l) (flat_map p l) (flat_map ro l) (flat_map ru l) (flat_map rn l) m.
Proof.
  revert m. induction l as [|x l IH]; intros m; cbn [fold_left flat_map]; [by rewrite extend_nil|].
  rewrite IH. unfold extend. cbn. by rewrite <-!app_assoc.
Qed.

Lemma flat_map_none {X Y} (l : list X) : flat_map (λ _, []) l = @nil Y.
Proof. by induction l. Qed.

Lemma flat_map_omap {X Y} (f : X → option Y) l : flat_map (λ x, option_list (f x)) l = omap f l.
Proof. induction l as [|x l IH]; [done|]. cbn. rewrite IH. by destruct (f x). Qed.
End loops.

Lemma GetNetworkMode_Ret net : ∃ mode, GetNetworkMode (Some net) = Ret mode.
Proof.
  unfold GetNetworkMode. cbv zeta. case_decide; [destruct (nonempty _); eauto|].
  case_decide; [cbn; destruct (nonempty _); eauto|eauto].
Qed.

Section recording.
Context {K : Type} `{Kube K} `{Settings}.
Variables (cfg : Configuration) (k : K).
Abbreviation r := (cache k).
Context (l : ClusterLists) (Hl : cached cfg r l).

Lemma run_from_cache {A} (f : Reader → outcome A) h : on_k (from_cache f) (h, k) = (f r, (h, k)).
Proof. done. Qed.

Lemma record_subnet_tells :
  tells k (λ v6 s, extend (option_list (subnet_part r v6 overlay_net s)) (option_list (subnet_part r v6 (λ net, negb (overlay_net net)) s))
    (option_list (subnet_part r v6 (is_local_bgp cfg) s)) [] [] [] [] []) (record_subnet cfg).
Proof.
  intros s h. unfold record_subnet. destruct (ParseCIDR _) as [[ip n]|] eqn:Ec; [|done].
  apply post_bind, post_wrap. unfold get_network, post at 1. rewrite run_from_cache. cbn [fst snd].
  pose proof (ca_network _ _ _ Hl (ssp_Network (vs_Spec s))) as Hn. destruct (r_GetNetwork r _) as [net|e| |] eqn:En; [|done..].
  apply post_bind, post_lift. destruct (GetNetworkMode_Ret net) as [mode Em]. rewrite Em.
  apply post_at_hub. split; [done|]. intros v6. cbn [fst]. rewrite hub_mgr_at. unfold subnet_part. rewrite Ec, En.
  unfold is_local_bgp. rewrite Em. destruct (same_family v6 _); [|by rewrite extend_nil].
  unfold RecordSubnet, extend, overlay_net. destruct (bool_decide (GetNetworkType (Some net) = NetworkTypeOverlay)),
    (bool_decide (mode = NetworkModeBGP) && nodeBelongsToNetwork (NodeName cfg) net); cbn; by rewrite ?app_nil_r.
Qed.

Lemma record_local_pod_tells :
  tells k (λ v6 i, extend [] [] [] [] (option_list (pod_part v6 i)) [] [] []) record_local_pod.
Proof.
  intros i h. unfold record_local_pod, pod_part. destruct (decide (ist_Phase (vi_Status i) = IPPhaseUsing)) as [Hp|Hp].
  - rewrite decide_False by tauto. destruct (ParseCIDR _) as [[ip n]|]; [|done]. apply post_at_hub. split; [done|]. intros v6.
    cbn [fst]. rewrite hub_mgr_at. destruct (same_family v6 _); [|by rewrite extend_nil].
    unfold RecordLocalPodIP, extend. cbn. by rewrite ?app_nil_r.
  - rewrite decide_True by done. apply post_ret. split; [done|]. intros v6. by rewrite extend_nil.
Qed.

Lemma fold_nodes ips m :
  fold_left (λ m ip, RecordNodeIP ip m) ips m = extend [] [] [] ips [] [] [] [] m.
Proof.
  revert m. induction ips as [|ip ips IH]; intros m; cbn [fold_left]; [by rewrite extend_nil|].
  rewrite IH. unfold RecordNodeIP, extend. cbn. by rewrite ?app_nil_r, <-app_assoc.
Qed.

Lemma fold_remote_nodes ips m :
  fold_left (λ m ip, RecordRemoteNodeIP ip m) ips m = extend [] [] [] [] [] [] [] ips m.
Proof.
  revert m. induction ips as [|ip ips IH]; intros m; cbn [fold_left]; [by rewrite extend_nil|].
  rewrite IH. unfold RecordRemoteNodeIP, extend. cbn. by rewrite ?app_nil_r, <-app_assoc.
Qed.

Lemma record_node_tells : tells k (λ v6 n, extend [] [] [] (of_family v6 (node_texts n)) [] [] [] []) record_node_ips.
Proof.
  intros n h. unfold record_node_ips, node_texts. destruct (vtep_known n).
  - apply post_at_hub. split; [done|]. intros v6. cbn [fst]. unfold record_ips. by rewrite hub_mgr_ips, fold_nodes.
  - apply post_ret. split; [done|]. intros v6. cbn. by rewrite extend_nil.
Qed.

Lemma record_remote_vtep_tells :
  tells k (λ v6 v, extend [] [] [] [] [] [] [] (of_family v6 (vtep_texts v))) record_remote_vtep.
Proof.
  intros v h. unfold record_remote_vtep, vtep_texts. apply post_at_hub. split; [done|]. intros v6. cbn [fst].
  destruct (om_Annotations _ !! _) as [ips|].
  - unfold record_ips. by rewrite hub_mgr_ips, fold_remote_nodes.
  - rewrite <-fold_remote_nodes, <-(hub_mgr_ips v6 RecordRemoteNodeIP). done.
Qed.

Lemma record_remote_subnet_tells :
  tells k (λ v6 s, extend [] [] [] [] [] (option_list (remote_part v6 true s)) (option_list (remote_part v6 false s)) []) record_remote_subnet.
Proof.
  intros s h. unfold record_remote_subnet, remote_part. destruct (ParseCIDR _) as [[ip n]|]; [|done].
  apply post_at_hub. split; [done|]. intros v6. cbn [fst]. rewrite hub_mgr_at. destruct (same_family v6 _); [|by rewrite extend_nil].
  unfold RecordRemoteSubnet, extend. destruct (bool_decide _); cbn; by rewrite ?app_nil_r.
Qed.

Definition named (names : string * string) (m : Manager) : Manager :=
  mkManager (localClusterOverlaySubnets m) (localClusterUnderlaySubnets m) (localBGPSubnets m) (nodeIPList m) (localPodIPList m)
    names.1 names.2 (protocol m) (mgr_c m) (upgradeWorkDone m) (remoteClusterOverlaySubnets m) (remoteClusterUnderlaySubnets m)
    (remoteNodeIPList m).

Lemma record_network_tells :
  tells k (λ v6 net m, named (network_names cfg (overlayIfName m, bgpIfName m) net) m) (record_network cfg).
Proof.
  assert (∀ m, named (overlayIfName m, bgpIfName m) m = m) as Hm by (by intros []).
  intros net h. unfold record_network, network_names. destruct (GetNetworkMode_Ret net) as [mode Em]. rewrite Em.
  apply post_bind, post_lift. destruct (decide (mode = NetworkModeVxlan)).
  - apply post_bind, post_wrap, post_lift. unfold GenerateVxlanNetIfName. destruct (ns_NetID (vn_Spec net)) as [id|]; [|done].
    cbv zeta. destruct (id =? 0); [done|]. destruct (_ <? id); [done|].
    apply post_at_hub. split; [done|]. intros v6. cbn [fst]. by rewrite hub_mgr_both.
  - destruct (decide (mode = NetworkModeBGP)); [|apply post_ret; split; [done|]; intros v6; by rewrite Hm].
    destruct (nodeBelongsToNetwork _ _).
    + apply post_at_hub. split; [done|]. intros v6. cbn [fst]. by rewrite hub_mgr_both.
    + apply post_ret. split; [done|]. intros v6. cbn [fst snd]. by rewrite Hm.
Qed.

Lemma fold_named nets m :
  fold_left (λ m net, named (network_names cfg (overlayIfName m, bgpIfName m) net) m) nets m
  = named (fold_left (network_names cfg) nets (overlayIfName m, bgpIfName m)) m.
Proof.
  revert m. induction nets as [|net nets IH]; intros m; cbn [fold_left]; [by destruct m|].
  rewrite IH. unfold named. cbn. by rewrite <-(surjective_pairing (network_names _ _ _)).
Qed.

(** Then a list is read and told to the managers. *)
Lemma post_list_each {A X} (f : Reader → outcome (list X)) e tell (g : X → M (Hub * K) unit) (rest : M (Hub * K) A) xs h Q :
  f r = Ret xs → tells k tell g →
  (∀ h', (∀ v6, hub_mgr v6 h' = fold_left (λ m x, tell v6 x m) xs (hub_mgr v6 h)) → post rest (h', k) Q) →
  (∀ err h', Q (Fail err) (h', k)) →
  post (xs ← wrap e (on_k (from_cache f)); each g xs;; rest) (h, k) Q.
Proof.
  intros Hf Hg Hrest Hfail. apply post_bind, post_wrap. unfold post at 1. rewrite run_from_cache, Hf. cbn [fst snd].
  apply post_bind. eapply post_mono; [by apply tells_each|]. intros [[]|er| |] [h' k'] [Ek Ho]; cbn [fst snd] in *; [subst k'| |done..].
  - by apply Hrest.
  - subst k'. apply Hfail.
Qed.

Lemma record_iptables_post h :
  post (record_iptables cfg) (h, k) (λ o s', s'.2 = k ∧ match o with
    | Ret _ => ∀ v6, hub_mgr v6 s'.1 = expected cfg r l v6 (hub_mgr v6 h)
    | Fail _ => True
    | _ => False
    end).
Proof.
  unfold record_iptables. apply post_bind, post_at_hub. cbn [fst snd].
  destruct Hl as [Hnets Hnodes Hpods Hsubs Hrs Hvteps _].
  eapply post_list_each; [exact Hnets|apply record_network_tells|intros h1 E1|done].
  eapply post_list_each; [exact Hnodes|apply record_node_tells|intros h2 E2|done].
  eapply (post_list_each (λ r, r_ListIPInstances r _)); [exact Hpods|apply record_local_pod_tells|intros h3 E3|done].
  eapply post_list_each; [exact Hsubs|apply record_subnet_tells|intros h4 E4|done].
  assert (∀ v6, hub_mgr v6 h4 = extend (omap (subnet_part r v6 overlay_net) (cl_subnets l)) (omap (subnet_part r v6 (λ net, negb (overlay_net net))) (cl_subnets l))
    (omap (subnet_part r v6 (is_local_bgp cfg)) (cl_subnets l)) (flat_map (λ n, of_family v6 (node_texts n)) (cl_nodes l))
    (omap (pod_part v6) (cl_instances l)) [] [] [] (named (fold_left (network_names cfg) (cl_networks l) ("", bgpIfName (hub_mgr v6 h))) (Reset (hub_mgr v6 h)))) as E.
  { intros v6. rewrite E4, E3, E2, E1, hub_mgr_both, fold_named, !fold_extend, !flat_map_none, !flat_map_omap. unfold extend. cbn. by rewrite ?app_nil_r. }
  unfold expected, remote_lists. destruct MultiClusterEnabled.
  - apply post_bind, post_wrap. unfold post at 1. rewrite run_from_cache, Hrs. cbn [fst snd].
    eapply post_list_each; [exact Hvteps|apply record_remote_vtep_tells|intros h5 E5|done].
    eapply post_mono; [apply tells_each, record_remote_subnet_tells|]. intros [[]|er| |] [h6 k6] [Ek Ho]; cbn [fst snd] in *; [|done..].
    split; [done|]. intros v6. rewrite Ho, E5, E, !fold_extend, !flat_map_none, !flat_map_omap. unfold extend. cbn. by rewrite ?app_nil_r.
  - apply post_ret. split; [done|]. intros v6. cbn [fst]. rewrite E. unfold extend. cbn. by rewrite ?app_nil_r.
Qed.
End recording.

(** ** From the records to the sets *)

Abbreviation want := (string * (list string * list string))%type.

Lemma of_family_parsed v6 texts : Forall parsed_ip (of_family v6 texts).
Proof.
  apply Forall_forall. intros ip [Hip _]%list_elem_of_In%filter_In. apply list_elem_of_In, list_elem_of_fmap in Hip as (s & -> & Hs).
  destruct (decide (ParseIP s = [])) as [->|Hne]; [by left|]. right. by apply ParseIP_valid.
Qed.

Lemma Forall_flat_map {A B} (P : B → Prop) (f : A → list B) l : (∀ x, x ∈ l → Forall P (f x)) → Forall P (flat_map f l).
Proof.
  intros Hf. apply Forall_forall. intros y Hy%list_elem_of_In%in_flat_map. destruct Hy as (x & Hx & Hy).
  apply list_elem_of_In in Hx, Hy. specialize (Hf _ Hx). rewrite Forall_forall in Hf. by apply Hf.
Qed.

Lemma Forall_omap {A B} (P : B → Prop) (f : A → option B) l : (∀ x y, f x = Some y → P y) → Forall P (omap f l).
Proof. intros Hf. apply Forall_forall. intros y (x & _ & Hx)%list_elem_of_omap. by eapply Hf. Qed.

Lemma expected_ok `{Settings} cfg r l v6 m : manager_ok (expected cfg r l v6 m).
Proof.
  assert (∀ sel, Forall net_ok (omap (subnet_part r v6 sel) (cl_subnets l))) as Hs.
  { intros sel. apply Forall_omap. intros s n. unfold subnet_part. destruct (same_family _ _); [|done].
    destruct (ParseCIDR _) as [[ip n']|] eqn:E; [|done]. destruct (r_GetNetwork r _); try done. destruct (sel _); [|done].
    intros [= <-]. by apply ParseCIDR_valid in E as (_ & ? & ?). }
  assert (∀ b xs, Forall net_ok (omap (remote_part v6 b) xs)) as Hr.
  { intros b xs. apply Forall_omap. intros s n. unfold remote_part. destruct (same_family _ _); [|done].
    destruct (ParseCIDR _) as [[ip n']|] eqn:E; [|done]. destruct (Bool.eqb _ _); [|done].
    intros [= <-]. by apply ParseCIDR_valid in E as (_ & ? & ?). }
  split; cbn [expected localClusterOverlaySubnets localClusterUnderlaySubnets localBGPSubnets nodeIPList localPodIPList
    remoteClusterOverlaySubnets remoteClusterUnderlaySubnets remoteNodeIPList]; try done.
  - apply Forall_flat_map. intros n Hin. apply of_family_parsed.
  - apply Forall_omap. intros i ip. unfold pod_part. case_decide; [|done]. destruct (ParseCIDR _) as [[ip' n]|] eqn:E; [|done].
    destruct (same_family _ _); [|done]. intros [= <-]. right. by apply ParseCIDR_valid in E as (? & _).
  - apply Forall_flat_map. intros v Hin. apply of_family_parsed.
Qed.

Definition hub_ok (h : Hub) : Prop :=
  ∀ v6, mgr_c (hub_mgr v6 h) = 0%nat ∧ protocol (hub_mgr v6 h) = if v6 : bool then ProtocolIpv6 else ProtocolIpv4.

Section sync.
Context {K : Type} {C : IPSetCmd K} {L : IPSetLaws (K := K)} {X : IPTablesExec K} {XL : ExecLaws}.
Context `{KU : Kube K} `{O : OS K} `{Settings}.

(** Reading a file does not change the ipsets. *)
Class QuietReads : Prop := {
  ReadFile_law path (k : K) : post (ReadFile path) k (λ o k', view k' = view k ∧ match o with Ret _ | Fail _ => True | _ => False end)
}.

Context {QR : QuietReads}.

Lemma GetSysctl_quiet path (k : K) :
  post (GetSysctl path) k (λ o k', view k' = view k ∧ match o with Ret _ | Fail _ => True | _ => False end).
Proof.
  unfold GetSysctl. apply post_bind. eapply post_mono; [apply ReadFile_law|]. intros [data|e| |] k' [E Ho]; try done.
  by destruct (Atoi _).
Qed.

Lemma CheckIPv6GlobalDisabled_quiet (k : K) :
  post CheckIPv6GlobalDisabled k (λ o k', view k' = view k ∧ match o with Ret _ | Fail _ => True | _ => False end).
Proof.
  unfold CheckIPv6GlobalDisabled. apply post_bind. eapply post_mono; [apply GetSysctl_quiet|]. intros [x|e| |] k1 [E1 Ho]; try done.
  destruct (x =? 1); [done|]. apply post_bind. eapply post_mono; [apply GetSysctl_quiet|]. intros [y|e| |] k2 [E2 Ho2]; try done.
  - apply post_ret. by rewrite E2.
  - by rewrite E2.
Qed.

Lemma own_names_v6 m n : n ∈ own_names true (wanted_sets m) → ∃ x, n = "inet6:" +:+ x.
Proof.
  unfold own_names. rewrite elem_of_app, !list_elem_of_fmap. intros [(w & -> & _)|(w & -> & _)]; by eexists.
Qed.

(** The sets of the two families are apart. *)
Lemma families_apart m m' n : n ∈ own_names false (wanted_sets m) → n ∉ own_names true (wanted_sets m').
Proof.
  intros Hn (x & ->)%own_names_v6. apply elem_of_app in Hn as [Hn|Hn];
    [apply (list_elem_of_fmap_2 id) in Hn|apply (list_elem_of_fmap_2 id) in Hn];
    repeat (apply elem_of_cons in Hn as [Hn|Hn]; [discriminate Hn|]); by apply elem_of_nil in Hn.
Qed.

Lemma post_on_iptables version (m : M (Manager * K) unit) h (k : K) Q :
  post m (hub_mgr (is_v6 version) h, k) (λ o s', Q o (at_iptables version (λ _, s'.1) h, s'.2)) → post (on_iptables version m) (h, k) Q.
Proof. unfold post, on_iptables, zoom, getIPtablesManager, hub_mgr. cbn [fst snd]. by destruct (m _). Qed.

(** One family. *)
Lemma sync_family v6 version e h (k : K) :
  is_v6 version = v6 → hub_ok h → manager_ok (hub_mgr v6 h) →
  post (wrap e (on_iptables version SyncRules)) (h, k) (λ o s', match o with
    | Ret _ => SyncRules (hub_mgr v6 h, k) = (Ret tt, (set_upgradeWorkDone (hub_mgr v6 h), s'.2)) ∧
        synced v6 (wanted_sets (hub_mgr v6 h)) (view k) (view s'.2) ∧
        hub_mgr v6 s'.1 = set_upgradeWorkDone (hub_mgr v6 h) ∧ hub_mgr (negb v6) s'.1 = hub_mgr (negb v6) h
    | Fail _ => partly_synced v6 (wanted_sets (hub_mgr v6 h)) (view k) (view s'.2)
    | _ => False
    end).
Proof.
  intros Ev Hh Hok. destruct (Hh v6) as [Hc Hp]. apply post_wrap, post_on_iptables. rewrite Ev.
  assert (bool_decide (protocol (hub_mgr v6 h) = ProtocolIpv6) = v6) as Eb by (rewrite Hp; by destruct v6).
  pose proof (SyncRules_post _ k Hc Hok) as P. unfold post in P |- *.
  destruct (SyncRules (hub_mgr v6 h, k)) as [[[]|er| |] [m' k']]; cbn [fst snd] in *; [| |done..]; destruct P as [-> Ho];
    unfold sync_result in Ho; rewrite Eb in Ho; [|done].
  destruct Ho as [Ho _]. split; [done|]. split; [done|]. rewrite !hub_mgr_at. unfold same_family. rewrite Ev. by destruct v6.
Qed.
End sync.

(** ** Property *)

(** C18. The ipsets of a node follow the cluster.  The managers have their
    locks free and their families ([hub_ok]: the daemon keeps it).  When a
    round of the loop of iptables returns, the managers of both families hold
    exactly what [expected] takes from the cached objects; then the rules of
    IPv4 were synchronised, and whether IPv6 is disabled was read from the
    system; the five ipsets of IPv4, and those of IPv6 unless it is disabled,
    have the members that these managers want: the networks of the cached
    overlay and underlay subnets and of remote ones, the addresses of the
    nodes and VTEPs, the addresses of the pods of this node; and nothing else,
    but for the members of a temporary set that an earlier refresh, one that
    failed, has left; no temporary set of theirs remains, and every other set
    is as it was.  When it fails, each of the sets is as before, new and
    empty, or complete.  It never panics, whatever networks, subnets,
    instances and addresses are cached. *)
Theorem iptables_follow_cluster {K} {C : IPSetCmd K} {L : IPSetLaws (K := K)} {X : IPTablesExec K} {XL : ExecLaws}
    `{KU : Kube K} `{O : OS K} {QR : QuietReads} `{Settings} (cfg : Configuration) (l : ClusterLists) (h : Hub) (k : K) :
  cached cfg (cache k) l → hub_ok h →
  post (iptablesSyncFunc cfg) (h, k) (λ o s',
    let m v6 := expected cfg (cache k) l v6 (hub_mgr v6 h) in
    let follow v6 := Forall (λ w : want, ∃ x, holds w.2.2 (base v6 w (view k)) x ∧
      view s'.2 !! set_at_name v6 w = Some x ∧ view s'.2 !! temp_name v6 w = None) (wanted_sets (m v6)) in
    match o with
    | Ret _ => ∃ (k2 k3 : K) (disabled : bool),
        SyncRules (m false, k) = (Ret tt, (set_upgradeWorkDone (m false), k2)) ∧
        CheckIPv6GlobalDisabled k2 = (Ret disabled, k3) ∧
        hub_mgr false s'.1 = set_upgradeWorkDone (m false) ∧
        hub_mgr true s'.1 = (if disabled then m true else set_upgradeWorkDone (m true)) ∧
        follow false ∧ (disabled = false → follow true) ∧
        ∀ n, n ∉ own_names false (wanted_sets (m false)) → (disabled = true ∨ n ∉ own_names true (wanted_sets (m true))) →
          view s'.2 !! n = view k !! n
    | Fail _ => ∃ v1, partly_synced false (wanted_sets (m false)) (view k) v1 ∧ partly_synced true (wanted_sets (m true)) v1 (view s'.2)
    | _ => False
    end).
Proof.
  intros Hl Hh. unfold iptablesSyncFunc. apply post_bind. eapply post_mono; [by apply (record_iptables_post cfg k l)|].
  intros [[]|e| |] [h1 k1] [Ek E]; cbn [fst snd] in *; [|subst; by exists (view k); split; apply partly_refl|done..]. subst k1.
  set (m v6 := expected cfg (cache k) l v6 (hub_mgr v6 h)) in *.
  assert (hub_ok h1) as Hh1 by (intros v6; rewrite E; apply Hh).
  assert (∀ v6, manager_ok (m v6)) as Hok by (intros; by apply expected_ok).
  unfold sync_families. apply post_bind. eapply post_mono; [apply (sync_family false IPVersion4); [done|done|rewrite E; apply Hok]|].
  intros [[]|e| |] [h2 k2] Ho; cbn [fst snd] in *; [| |done..].
  2: { rewrite E in Ho. exists (view k2). split; [done|apply partly_refl]. }
  destruct Ho as (R4 & S4 & E4 & E6). rewrite E in R4, S4, E4. cbn [negb] in E6. rewrite E in E6.
  apply post_bind, post_wrap, post_on_k. pose proof (CheckIPv6GlobalDisabled_quiet k2) as Q. unfold post in Q |- * at 1.
  destruct (CheckIPv6GlobalDisabled k2) as [[disabled|e| |] k3] eqn:E2; destruct Q as [Ev Ho]; cbn [fst snd] in *; [| |done..].
  2: { exists (view k2). split; [by apply synced_partly|]. rewrite Ev. apply partly_refl. }
  destruct S4 as [S4 N4]. destruct disabled.
  { apply post_ret. exists k2, k3, true. cbn [fst snd]. rewrite Ev. split_and!; [done..|]. intros n Hn _. by apply N4. }
  assert (hub_ok h2) as Hh2 by (intros [|]; [rewrite E6|rewrite E4]; apply Hh).
  eapply post_mono; [apply (sync_family true IPVersion6); [done|done|rewrite E6; apply Hok]|].
  intros [[]|e| |] [h4 k4] Ho6; cbn [fst snd] in *; [| |done..]; rewrite E6, Ev in Ho6.
  2: { exists (view k2). split; [by apply synced_partly|done]. }
  destruct Ho6 as (_ & [S6 N6] & F6 & F4). cbn [negb] in F4. rewrite E4 in F4. exists k2, k3, false. split_and!; [done..| | |].
  - apply Forall_forall. intros w Hw. rewrite Forall_forall in S4. destruct (S4 w Hw) as (x & Hx & Hv & Ht).
    exists x. split; [done|]. split; (rewrite N6; [done|]); apply (families_apart (m false)), elem_of_app; [left|right]; by apply list_elem_of_fmap_2.
  - intros _. apply Forall_forall. intros w Hw. rewrite Forall_forall in S6. destruct (S6 w Hw) as (x & Hx & Hv & Ht). exists x. split; [|done].
    rewrite <-(base_same true w (view k) (view k2)); [done|]. apply N4. intros Hin.
    apply (families_apart _ (m true) _ Hin), elem_of_app. right. by apply list_elem_of_fmap_2.
  - intros n Hn [?|Hn6]; [done|]. rewrite N6 by done. by apply N4.
Qed.

(** ** A node of a concrete cluster

    An overlay network of two subnets, one for each family, two nodes, one of
    them without a VTEP yet, a pod of each family on this node, one of them
    reserved, and a remote VTEP with its subnet. *)

Definition w_cfg : Configuration :=
  mkConfiguration "" "node1" 1500 1500 1500 "eth0" "eth0" "eth0" [] "" "" "" 8472 0 0 0 0 [] 39999 40000 40001 0 0 0.
Definition w_count : Count := mkCount 0 0 0.
Definition w_overlay : V1Network :=
  mkV1Network (blank_meta "overlay") (mkNetworkSpec None (Some 4) "" "Overlay" "" None) (mkNetworkStatus "" "" [] [] None None None).
Definition w_subnet_of (name version cidr : string) : V1Subnet :=
  mkV1Subnet (blank_meta name) (mkSubnetSpec (mkAddressRange version "" "" cidr "" [] []) None "overlay" None) (mkSubnetStatus w_count "").
Definition w_node (name ips : string) : Node :=
  mkNode (mkObjectMeta name "" "" ∅
    (if decide (ips = "") then ∅ else {[ AnnotationNodeVtepIP := "192.168.0.9"; AnnotationNodeVtepMac := "00:16:3e:00:00:01";
       AnnotationNodeLocalVxlanIPList := ips ]}) [] [] None) [].
Definition w_instance (ip phase : string) : V1IPInstance :=
  mkV1IPInstance (blank_meta ip) (mkIPInstanceSpec "overlay" "subnet" (mkAddress "4" ip "" (Some 4) "")) (mkIPInstanceStatus "node1" phase "" "" "").
Definition w_lists : ClusterLists := mkClusterLists [w_overlay]
  [w_node "node1" "192.168.0.9,fd00::9"; w_node "node2" ""]
  [w_instance "10.14.0.2/16" "Using"; w_instance "10.14.0.3/16" "Reserved"; w_instance "fd14::2/64" "Using"]
  [w_subnet_of "s4" "4" "10.14.0.0/16"; w_subnet_of "s6" "6" "fd14::/64"]
  [mkRemoteSubnet (blank_meta "east.s") (mkRemoteSubnetSpec (mkAddressRange "4" "" "" "10.15.0.0/16" "" [] []) "Overlay" "east") None]
  [mkRemoteVtep (blank_meta "east.n") (mkRemoteVtepSpec "east" "n" (mkVTEPInfo "192.168.1.9" "") []) None].

Definition w_not_there {A} : outcome A := Fail (StatusError StatusReasonNotFound).
Definition w_cluster : Reader := {|
  r_GetNetwork name := if decide (name = "overlay") then Ret w_overlay else w_not_there;
  r_ListNetworks := Ret (cl_networks w_lists); r_ListNetworksByNode _ := Ret [];
  r_GetSubnet _ := w_not_there; r_ListSubnets := Ret (cl_subnets w_lists);
  r_GetIPInstance _ _ := w_not_there; r_ListIPInstances _ := Ret (cl_instances w_lists); r_GetPod _ _ := w_not_there;
  r_GetNode _ := w_not_there; r_ListNodes _ := Ret (cl_nodes w_lists); r_GetNamespace _ := w_not_there;
  r_ListRemoteSubnets := Ret (cl_remoteSubnets w_lists); r_ListRemoteVteps := Ret (cl_vteps w_lists); r_ListRemoteClusters := Ret [];
  r_GetRemoteCluster _ := w_not_there
|}.

#[export] Instance sys_kube : Kube Sys := {|
  cache _ := w_cluster; api_reader _ := w_cluster; RawPatch_Node _ _ := mret tt; UpdateStatus_IPInstance _ := mret tt
|}.
#[export] Instance sys_os : OS Sys := {|
  WriteFile _ _ := mret tt; ReadFile _ := mret "0"; ReadDir _ := mret []; Stat _ := mret tt; Statfs _ := mret 0;
  IsNotExist _ := false; IsExist _ := false
|}.
#[export] Instance sys_reads : QuietReads (K := Sys).
Proof. split. by intros path k. Defined.

#[local] Instance w_features : Settings := {|
  DualStackEnabled := true; MultiClusterEnabled := true; DEFAULT_IP_FAMILY := ""; DEFAULT_NETWORK_TYPE := "";
  DefaultIPRetain := true; StatefulWorkloadKinds := []
|}.

Definition w_empty (p : Protocol) : Manager := mkManager [] [] [] [] [] "" "" p 0 true [] [] [].
Definition w_hub : Hub :=
  mkHub None None None (RouteManager.mkManager 0 0 0 "" FAMILY_V4 [] ∅ ∅ ∅ ∅ ∅) (RouteManager.mkManager 0 0 0 "" FAMILY_V6 [] ∅ ∅ ∅ ∅ ∅)
    (Neigh.mkManager FAMILY_V4 ∅) (Neigh.mkManager FAMILY_V6 ∅) (Addr.mkManager FAMILY_V4 "node1" ∅) (BGP.mkManager 0 "" "" [] [] ∅ ∅ ∅)
    (w_empty ProtocolIpv4) (w_empty ProtocolIpv6) false ∅ false.

Lemma w_cached : cached w_cfg w_cluster w_lists.
Proof. split; try reflexivity. intros name. cbn. by case_decide. Qed.

Lemma iptables_follow_cluster_witness :
  let c := iptablesSyncFunc w_cfg (w_hub, w_system) in
  let members n := ks_members <$> (sys_sets c.2.2 !! n) in
  c.1 = Ret tt ∧
  members HybridnetOverlayNetSetName = Some {["10.14.0.0/16"; "10.15.0.0/16"]} ∧
  members HybridnetNodeIPSetName = Some {["192.168.0.9"; "192.168.1.9"]} ∧
  members HybridnetLocalPodIPSetName = Some {["10.14.0.2"]} ∧
  members (suffixed true HybridnetLocalPodIPSetName) = Some {["fd14::2"]} ∧
  sys_sets c.2.2 !! "OTHER" = sys_sets w_system !! "OTHER".
Proof.
  assert (hub_ok w_hub) as Hh by (by intros []).
  pose proof (iptables_follow_cluster w_cfg w_lists w_hub w_system w_cached Hh) as Hp.
  set (c := iptablesSyncFunc w_cfg (w_hub, w_system)) in *.
  assert (c.1 = Ret tt) as E by (vm_compute; reflexivity). unfold post in Hp. fold c in Hp. rewrite E in Hp.
  destruct Hp as (k2 & k3 & disabled & _ & _ & _ & _ & _ & _ & Ho). cbv zeta. split; [exact E|].
  split_and!; [vm_compute; reflexivity..|]. apply Ho.
  - intros Hin. vm_compute in Hin. repeat (apply elem_of_cons in Hin as [Hin|Hin]; [discriminate Hin|]). by apply elem_of_nil in Hin.
  - right. intros Hin. vm_compute in Hin. repeat (apply elem_of_cons in Hin as [Hin|Hin]; [discriminate Hin|]). by apply elem_of_nil in Hin.
Defined.
