(* ===== verification/DaemonInvariant.v ===== *)
(** * The daemon of a node as a state machine (pkg/daemon/controller)

    The hub starts with [NewCtrlHub]; then the controllers reconcile, the
    sources of their queues start, events of the kernel arrive and the loop of
    iptables goes round, in any order, while the system changes by itself.
    [hub_inv] is what the managers of the hub promise to the properties of
    [SyncRoutes], of the BGP synchronisation, of [SyncRules] and of the loop of
    iptables, which suppose it of their managers; what these properties suppose
    of the kernel is none of it.  A transition is a whole handler: the managers have
    locks of their own, and the interleaving of two handlers is not modelled. *)

From Stdlib Require Import Ascii.
From stdpp Require Import pretty relations.
From S2P Require Import Prelude GoNet GoStrings NetBlock NetText CNIPlugins NetworkingV1 MulticlusterV1 Kubernetes Utils KubeClient Store Mirror IPRange IPSet IPSetProperties IPTables IPTablesSync IPTablesProperties Netlink DaemonUtils BGP BGPSync Neigh Route RouteManager RouteSync Addr ContainerNetwork DaemonConfig CtrlHub DaemonControllers DaemonEvents IPTablesCluster.

Local Open Scope Z_scope.

(** ** The invariant *)

(** Whether the families of the cached objects are as declared: an invariant
    that mentions families supposes it. *)
Class Typed := typed : Prop.

Definition family_of (v6 : bool) : Z := if v6 then FAMILY_V6 else FAMILY_V4.
Definition hub_route (v6 : bool) (h : Hub) : RouteManager.Manager := if v6 then routeV6Manager h else routeV4Manager h.
Definition hub_neigh (v6 : bool) (h : Hub) : Neigh.Manager := if v6 then neighV6Manager h else neighV4Manager h.

(** The tables and the family are those of the configuration, and the infos
    are found under the texts of networks of the family. *)
Record route_inv {T : Typed} (cfg : Configuration) (v6 : bool) (m : RouteManager.Manager) : Prop := {
  ri_wf : typed → routes_wf m;
  ri_family : RouteManager.family m = family_of v6;
  ri_direct : RouteManager.localDirectTableNum m = LocalDirectTableNum cfg;
  ri_overlay : RouteManager.toOverlaySubnetTableNum m = ToOverlaySubnetTableNum cfg;
  ri_mark : RouteManager.overlayMarkTableNum m = OverlayMarkTableNum cfg
}.

Definition ip_family (ip : netIP) : Z := if decide (To4 ip = []) then FAMILY_V6 else FAMILY_V4.

(** Addresses are recorded under their texts, and are of the family. *)
Record neigh_inv {T : Typed} (v6 : bool) (m : Neigh.Manager) : Prop := {
  ni_family : Neigh.family m = family_of v6;
  ni_ips i ips n x : interfaceToIPSliceMap m !! i = Some ips → ips !! n = Some x → valid_ip x ∧ IP_String x = n ∧ (typed → ip_family x = family_of v6)
}.

Record hub_inv {T : Typed} (cfg : Configuration) (h : Hub) : Prop := {
  hi_route v6 : route_inv cfg v6 (hub_route v6 h);
  hi_neigh v6 : neigh_inv v6 (hub_neigh v6 h);
  hi_addr : Addr.family (addrV4Manager h) = FAMILY_V4 ∧ Addr.localNodeName (addrV4Manager h) = NodeName cfg;
  hi_bgp : typed → manager_wf (bgpManager h);
  hi_iptables : hub_ok h;
  hi_recorded v6 : manager_ok (hub_mgr v6 h)
}.

(** What is never taken back: the queues of started controllers, the mark that
    the pods of an older version were configured, the AS number. *)
Record stays (h h' : Hub) : Prop := {
  st_subnet : is_Some (subnetControllerTriggerSource h) → is_Some (subnetControllerTriggerSource h');
  st_instance : is_Some (ipInstanceControllerTriggerSource h) → is_Some (ipInstanceControllerTriggerSource h');
  st_node : is_Some (nodeControllerTriggerSource h) → is_Some (nodeControllerTriggerSource h');
  st_upgrade : hub_upgradeWorkDone h = true → hub_upgradeWorkDone h' = true;
  st_asn : localASN (bgpManager h) ≠ 0 → localASN (bgpManager h') = localASN (bgpManager h)
}.

#[export] Instance stays_preorder : PreOrder stays.
Proof.
  split; [by intros h; split|]. intros h1 h2 h3 [A1 B1 C1 D1 E1] [A2 B2 C2 D2 E2]. split; auto.
  intros Ha. rewrite E2; [by apply E1|]. by rewrite (E1 Ha).
Qed.

(** ** Changes of single managers *)

Section changes.
Context {T : Typed}.
Variable cfg : Configuration.

(** A change of the hub that is one of the daemon. *)
Definition good (f : Hub → Hub) : Prop := ∀ h, hub_inv cfg h → hub_inv cfg (f h) ∧ stays h (f h).

Lemma good_set_rest sync cache done :
  (∀ h, hub_upgradeWorkDone h = true → done h = true) → good (λ h, set_rest (sync h) (cache h) (done h) h).
Proof. intros Hd h [H1 H2 H3 H4 H5 H6]. split; [by split|]. split; try done. apply Hd. Qed.

Lemma good_routes f4 f6 :
  (∀ m, route_inv cfg false m → route_inv cfg false (f4 m)) → (∀ m, route_inv cfg true m → route_inv cfg true (f6 m)) →
  good (λ h, set_routes (f4 (routeV4Manager h)) (f6 (routeV6Manager h)) h).
Proof.
  intros F4 F6 h [H1 H2 H3 Hb H5 Hr]. split; [|by split]. split; try done.
  intros []; cbn; [apply F6, (H1 true)|apply F4, (H1 false)].
Qed.

Lemma good_at_route version f :
  (∀ m, route_inv cfg (is_v6 version) m → route_inv cfg (is_v6 version) (f m)) → good (at_route version f).
Proof.
  intros Hf. unfold at_route. destruct (is_v6 version).
  - intros h. by apply (good_routes (λ m, m) f).
  - intros h. by apply (good_routes f (λ m, m)).
Qed.

Lemma good_neighs f4 f6 :
  (∀ m, neigh_inv false m → neigh_inv false (f4 m)) → (∀ m, neigh_inv true m → neigh_inv true (f6 m)) →
  good (λ h, set_neighs (f4 (neighV4Manager h)) (f6 (neighV6Manager h)) h).
Proof.
  intros F4 F6 h [H1 H2 H3 Hb H5 Hr]. split; [|by split]. split; try done.
  intros []; cbn; [apply F6, (H2 true)|apply F4, (H2 false)].
Qed.

Lemma good_at_neigh version f :
  (∀ m, neigh_inv (is_v6 version) m → neigh_inv (is_v6 version) (f m)) → good (at_neigh version f).
Proof.
  intros Hf. unfold at_neigh. destruct (is_v6 version).
  - intros h. apply (good_neighs (λ m, m) f); auto.
  - intros h. apply (good_neighs f (λ m, m)); auto.
Qed.

Lemma good_addr f :
  (∀ m, Addr.family (f m) = Addr.family m ∧ Addr.localNodeName (f m) = Addr.localNodeName m) →
  good (λ h, set_addr (f (addrV4Manager h)) h).
Proof. intros Hf h [H1 H2 H3 Hb H5 Hr]. split; [|by split]. split; try done. cbn. destruct (Hf (addrV4Manager h)) as [E1 E2]. by rewrite E1, E2. Qed.

Lemma good_bgp f :
  (∀ m, typed → manager_wf m → manager_wf (f m)) → (∀ m, localASN m ≠ 0 → localASN (f m) = localASN m) →
  good (λ h, set_bgp (f (bgpManager h)) h).
Proof. intros Hf Ha h [H1 H2 H3 Hb H5 Hr]. split; [|split; try done; apply Ha]. split; try done. intros Ht. by apply Hf, Hb. Qed.

(** The lock and the protocol of a manager of iptables, and that it records
    what was parsed. *)
Definition same_mgr (m m' : IPTables.Manager) : Prop :=
  IPTables.mgr_c m' = IPTables.mgr_c m ∧ IPTables.protocol m' = IPTables.protocol m ∧ (manager_ok m → manager_ok m').

#[export] Instance same_mgr_preorder : PreOrder same_mgr.
Proof. split; [by intros m|]. intros m1 m2 m3 (A & B & C) (D & E & F). split_and!; [congruence..|auto]. Qed.

Lemma good_iptables f :
  (∀ h, (∀ v6, same_mgr (hub_mgr v6 h) (hub_mgr v6 (f h)))) → (∀ h, f h = set_iptables (iptablesV4Manager (f h)) (iptablesV6Manager (f h)) h) →
  good f.
Proof.
  intros Hf E h [H1 H2 H3 Hb H5 Hr]. specialize (Hf h). rewrite E in *. split; [|by split].
  split; try done; intros v6; destruct (Hf v6) as (E1 & E2 & Ho); [rewrite E1, E2; apply H5|by apply Ho].
Qed.

Lemma good_both f : (∀ m, same_mgr m (f m)) → good (both_iptables f).
Proof. intros Hf. apply good_iptables; [|done]. intros h v6. rewrite hub_mgr_both. apply Hf. Qed.

Lemma at_iptables_eq version f h :
  at_iptables version f h = set_iptables (iptablesV4Manager (at_iptables version f h)) (iptablesV6Manager (at_iptables version f h)) h.
Proof. unfold at_iptables. by destruct (is_v6 version). Qed.

Lemma good_at_iptables version f : (∀ m, same_mgr m (f m)) → good (at_iptables version f).
Proof.
  intros Hf. apply good_iptables; [|apply at_iptables_eq]. intros h v6. rewrite hub_mgr_at.
  by destruct (same_family v6 version).
Qed.

Lemma good_id : good (λ h, h).
Proof. intros h Hh. by split. Qed.

Lemma good_trans f g : good f → good g → good (λ h, g (f h)).
Proof. intros Hf Hg h Hh. destruct (Hf h Hh) as [H1 S1]. destruct (Hg _ H1) as [H2 S2]. split; [done|by etrans]. Qed.

Lemma ParseIP_parsed s : parsed_ip (ParseIP s).
Proof. destruct (decide (ParseIP s = [])) as [->|Hne]; [by left|]. right. by apply ParseIP_valid. Qed.

Lemma good_record_ips record texts : (∀ ip m, parsed_ip ip → same_mgr m (record ip m)) → good (record_ips record texts).
Proof.
  intros Hr. unfold record_ips. induction (Split texts ",") as [|s l IH]; cbn [fold_left]; [apply good_id|].
  apply (good_trans (record_ip record s)); [|done]. apply good_at_iptables. intros m. apply Hr, ParseIP_parsed.
Qed.
End changes.

(** ** What the cached objects are

    Typed objects: a range is a network of more than one address whose family
    is its version, and an instance has the version of its address.  The
    webhook of subnets admits a range whose family is not its version, so that
    this is no fact of the cluster, and no supposition of the invariant but
    for its clauses on families.  [netlink.ParseIPNet] gives the address of
    [ParseCIDR] with the mask of its network. *)

Definition cidr_ok (r : AddressRange) : Prop := ∀ ip n,
  ParseCIDR (ar_CIDR r) = Some (ip, n) →
  let c := mkIPNet ip (IPNet_Mask n) in subnet_ok c ∧ net_family c = family_of (is_v6 (ar_Version r)).

Definition address_ok (a : Address) : Prop := ∀ ip n,
  ParseCIDR (ad_IP a) = Some (ip, n) → ip_family ip = family_of (is_v6 (ad_Version a)).

Class CachedObjects {K : Type} `{Kube K} : Prop := {
  cached_subnet (k : K) l s : r_ListSubnets (cache k) = Ret l → s ∈ l → cidr_ok (ssp_Range (vs_Spec s));
  cached_remote (k : K) l s : r_ListRemoteSubnets (cache k) = Ret l → s ∈ l → cidr_ok (rs_Range (rs_Spec s));
  cached_instance (k : K) o l i : r_ListIPInstances (cache k) o = Ret l → i ∈ l → address_ok (is_Address (vi_Spec i))
}.

Definition parses (ParseIPNet : string → outcome IPNet) : Prop := ∀ s c,
  ParseIPNet s = Ret c → ∃ ip n, ParseCIDR s = Some (ip, n) ∧ c = mkIPNet ip (IPNet_Mask n).

(** ** Computations that keep the invariant

    Every outcome of a step keeps it, its errors too; [Q] is what is known of
    the result. *)

Section keeps.
Context {T : Typed} {K : Type} (cfg : Configuration).

Definition keeps {A} (m : M (Hub * K) A) (Q : A → Prop) : Prop := ∀ h k, hub_inv cfg h →
  post m (h, k) (λ o s', match o with
    | Ret a => hub_inv cfg s'.1 ∧ stays h s'.1 ∧ Q a
    | Fail _ => hub_inv cfg s'.1 ∧ stays h s'.1
    | _ => True
    end).
Abbreviation any := (λ _, True).

Lemma keeps_bind {A B} (m : M (Hub * K) A) (f : A → M (Hub * K) B) Q R :
  keeps m Q → (∀ a, Q a → keeps (f a) R) → keeps (m ≫= f) R.
Proof.
  intros Hm Hf h k Hh. apply post_bind. eapply post_mono; [by apply Hm|]. intros [a|e| |] [h1 k1] Ho; [|done..].
  destruct Ho as (H1 & S1 & Ha). eapply post_mono; [by apply (Hf a Ha h1 k1)|]. intros [b|e| |] [h2 k2] Ho; [| |done..].
  - destruct Ho as (H2 & S2 & Hb). split_and!; [done|by etrans|done].
  - destruct Ho as [H2 S2]. split; [done|by etrans].
Qed.

Lemma keeps_seq {A B} (m : M (Hub * K) A) (f : A → M (Hub * K) B) R :
  keeps m any → (∀ a, keeps (f a) R) → keeps (m ≫= f) R.
Proof. intros Hm Hf. by eapply keeps_bind; [exact Hm|]. Qed.

Lemma keeps_lift {A} (o : outcome A) (Q : A → Prop) : (∀ a, o = Ret a → Q a) → keeps (lift o) Q.
Proof. intros Ho h k Hh. unfold post, lift. cbn. destruct o; [split_and!; [done|done|by apply Ho]|done..]. Qed.

Lemma keeps_ret {A} (a : A) (Q : A → Prop) : Q a → keeps (mret a) Q.
Proof. intros Ha h k Hh. by apply post_ret. Qed.

Lemma keeps_fail {A} e (Q : A → Prop) : keeps (fail e) Q.
Proof. done. Qed.

Lemma keeps_gets {A} (f : Hub * K → A) : keeps (gets f) any.
Proof. done. Qed.

Lemma keeps_wrap {A} e (m : M (Hub * K) A) Q : keeps m Q → keeps (wrap e m) Q.
Proof. intros Hm h k Hh. apply post_wrap. eapply post_mono; [by apply Hm|]. by intros [] ?. Qed.

Lemma keeps_on_k {A} (m : M K A) (Q : A → Prop) : (∀ k a, (m k).1 = Ret a → Q a) → keeps (on_k m) Q.
Proof.
  intros Hm h k Hh. apply post_on_k. unfold post. cbn. destruct (m k).1 eqn:E; [|done..].
  split_and!; [done|done|by eapply Hm].
Qed.

Lemma keeps_at_hub f : good cfg f → keeps (at_hub f) any.
Proof. intros Hf h k Hh. destruct (Hf h Hh). by apply post_at_hub. Qed.

Lemma keeps_each {X} (f : X → M (Hub * K) unit) l : (∀ x, x ∈ l → keeps (f x) any) → keeps (each f l) any.
Proof.
  induction l as [|x l IH]; intros Hf; cbn [each]; [by apply keeps_ret|].
  apply keeps_seq; [apply Hf; by left|]. intros _. apply IH. intros y Hy. apply Hf. by right.
Qed.

Lemma keeps_attempt {A} (m : M (Hub * K) A) : keeps m any → keeps (attempt m) any.
Proof.
  intros Hm h k Hh. specialize (Hm h k Hh). unfold post, attempt in *.
  destruct (m (h, k)) as [[a|e| |] s']; cbn in *; naive_solver.
Qed.

Lemma keeps_ignore (m : M (Hub * K) unit) : keeps m any → keeps (ignore m) any.
Proof.
  intros Hm h k Hh. specialize (Hm h k Hh). unfold post, ignore in *.
  destruct (m (h, k)) as [[a|e| |] s']; cbn in *; naive_solver.
Qed.

Lemma keeps_on_cache (m : M NodeIPCache unit) : keeps (on_cache m) any.
Proof.
  intros h k Hh. unfold post, on_cache, zoom. cbn [fst snd]. destruct (m (nodeIPCache h)) as [o c].
  destruct (good_set_rest cfg iptablesSyncCh (λ _, c) hub_upgradeWorkDone (λ _ E, E) h Hh) as [H1 S1]. by destruct o.
Qed.

(** A queue that grows. *)
Lemma good_triggers fs fi fn :
  (∀ h, is_Some (subnetControllerTriggerSource h) → is_Some (fs h)) →
  (∀ h, is_Some (ipInstanceControllerTriggerSource h) → is_Some (fi h)) →
  (∀ h, is_Some (nodeControllerTriggerSource h) → is_Some (fn h)) →
  good cfg (λ h, set_triggers (fs h) (fi h) (fn h) h).
Proof. intros Hs Hi Hn h [H1 H2 H3 H4 H5 H6]. split; [by split|]. split; try done; [apply Hs|apply Hi|apply Hn]. Qed.

Lemma keeps_trigger key get set :
  (∀ q, good cfg (set (Some q))) → keeps (trigger key get set) any.
Proof.
  intros Hs. unfold trigger. apply keeps_seq; [apply keeps_gets|]. intros h.
  apply keeps_seq; [by apply keeps_lift|]. intros q. apply keeps_at_hub, Hs.
Qed.

Lemma keeps_trigger_subnet : keeps trigger_subnet any.
Proof. apply keeps_trigger. intros q. by apply (good_triggers (λ _, Some q)). Qed.
Lemma keeps_trigger_ipinstance : keeps trigger_ipinstance any.
Proof. apply keeps_trigger. intros q. by apply (good_triggers _ (λ _, Some q)). Qed.
Lemma keeps_trigger_node : keeps trigger_node any.
Proof. apply keeps_trigger. intros q. by apply (good_triggers _ _ (λ _, Some q)). Qed.

Lemma keeps_iptablesSyncTrigger : keeps iptablesSyncTrigger any.
Proof. apply keeps_at_hub. by apply (good_set_rest cfg (λ _, true) nodeIPCache hub_upgradeWorkDone). Qed.

(** The server may refuse to start after the AS number was set. *)
Lemma keeps_TryStart `{BgpServer K} asn : keeps (on_bgp (TryStart asn)) any.
Proof.
  intros h k Hh. unfold post, on_bgp, zoom. cbn [fst snd]. unfold TryStart, mbind, M_bind, gets. cbn [fst].
  set (m := bgpManager h).
  assert (∀ m', (typed → manager_wf m') → (localASN m ≠ 0 → localASN m' = localASN m) → hub_inv cfg (set_bgp m' h) ∧ stays h (set_bgp m' h)) as Hset.
  { intros m' Hw Ha. destruct Hh as [H1 H2 H3 Hb H5 Hr]. by split; split. }
  assert (hub_inv cfg (set_bgp m h) ∧ stays h (set_bgp m h)) as Hsame by (apply Hset; [apply Hh|done]).
  destruct (localASN m =? 0) eqn:E0; cbn [negb].
  - apply Z.eqb_eq in E0. unfold modify, BGP.on_kernel, zoom. cbn [fst snd]. destruct (StartBgp _ _ k) as [o k'].
    match goal with |- context [(BGP.mkManager asn ?a ?b ?c ?d ?e ?f ?g, _)] => destruct (Hset (BGP.mkManager asn a b c d e f g)) as [H1 S1] end.
    + intros Ht. destruct (hi_bgp _ _ Hh Ht) as [Hi Hs]. by split.
    + intros Ha. by rewrite E0 in Ha.
    + by destruct o.
  - destruct (localASN m =? asn); cbn; by destruct Hsame.
Qed.

(** What a call with the lock leaves: the lock is free again. *)
Definition same_records (m m' : IPTables.Manager) : Prop := protocol m' = protocol m ∧ (manager_ok m → manager_ok m').

Lemma locked_same {A} (c : M (IPTables.Manager * K) A) m k :
  IPTables.mgr_c m = 0%nat → (∀ m, post c (m, k) (λ _ s', same_records m s'.1)) → same_mgr m (locked c (m, k)).2.1.
Proof.
  intros Hc Hm. unfold locked. cbn [fst snd]. rewrite Hc.
  match goal with |- context [c (?m1, k)] => specialize (Hm m1) end. unfold post in Hm.
  destruct (c _) as [o s]. cbn [fst snd] in *. destruct Hm as [Hp Ho]. split_and!; [by rewrite Hc|done|].
  intros Hm. destruct Ho as []; [by destruct Hm|]. by split.
Qed.

Lemma post_with_ipset `{IPSetCmd K} {A} o (c : M (IPSetObj * K) A) m (k : K) (Q : outcome A → IPTables.Manager * K → Prop) :
  (∀ r k', Q r (m, k')) → post (with_ipset o c) (m, k) Q.
Proof. intros HQ. unfold post, with_ipset. cbn. destruct (c _) as [r [o' k']]. apply HQ. Qed.

Lemma post_mgr_kernel {A} (c : M K A) m (k : K) (Q : outcome A → IPTables.Manager * K → Prop) :
  (∀ r k', Q r (m, k')) → post (IPTables.on_kernel c) (m, k) Q.
Proof. intros HQ. unfold post, IPTables.on_kernel, zoom. cbn. destruct (c _) as [r k']. apply HQ. Qed.

Lemma SyncRules_same `{IPSetCmd K} `{IPTablesExec K} m (k : K) : IPTables.mgr_c m = 0%nat → same_mgr m (SyncRules (m, k)).2.1.
Proof.
  intros Hc. apply locked_same; [done|]. clear m Hc. intros m. apply post_bind. unfold post at 1. cbn [fst snd gets].
  apply post_bind. unfold post at 1, lift. cbn [fst snd]. destruct (wrap_outcome _ _); try done.
  apply post_bind, post_with_ipset. intros [n|e| |] k1; try done.
  apply post_bind, post_wrap, post_mgr_kernel. intros [[]|e| |] k2; try done.
  apply post_bind, post_wrap, post_mgr_kernel. intros [[]|e| |] k3; try done.
  destruct (upgradeWorkDone m); [done|]. apply post_bind, post_wrap, post_mgr_kernel. intros [[]|e| |] k4; try done.
  split; [done|]. intros Hm. destruct Hm. by split.
Qed.

Lemma keeps_SyncRules `{IPSetCmd K} `{IPTablesExec K} version : keeps (on_iptables version SyncRules) any.
Proof.
  intros h k Hh. unfold post, on_iptables, zoom. cbn [fst snd].
  assert (getIPtablesManager version h = hub_mgr (is_v6 version) h) as Eg by done. rewrite Eg.
  pose proof (SyncRules_same (hub_mgr (is_v6 version) h) k (proj1 (hi_iptables _ _ Hh _))) as (Hc & Hp & Ho).
  destruct (SyncRules _) as [o [m' k']]. cbn [fst snd] in *.
  assert (hub_inv cfg (at_iptables version (λ _, m') h) ∧ stays h (at_iptables version (λ _, m') h)) as [H1 S1].
  { destruct Hh as [H1 H2 H3 Hb H5 Hr]. rewrite at_iptables_eq. split; [|by split]. split; try done; rewrite <-at_iptables_eq;
    intros v6; rewrite hub_mgr_at; destruct (same_family v6 version) eqn:Ev; try done; apply Bool.eqb_prop in Ev as <-;
      [rewrite Hc, Hp; apply H5|by apply Ho]. }
  by destruct o.
Qed.
End keeps.

(** ** The handlers *)

Create HintDb keeps.
#[export] Hint Resolve keeps_trigger_subnet keeps_trigger_ipinstance keeps_trigger_node keeps_iptablesSyncTrigger keeps_TryStart keeps_SyncRules
  keeps_on_cache : keeps.

(** One construct of the monad; loops and reads whose results matter are left. *)
Ltac keeps_one :=
  first
  [ solve [eauto with keeps]
  | apply keeps_ret; done
  | apply keeps_fail
  | apply keeps_gets
  | apply keeps_wrap
  | apply keeps_attempt
  | apply keeps_ignore
  | apply keeps_lift; done
  | apply keeps_on_k; done
  | apply keeps_each; intros ? _
  | apply keeps_seq; [|intros ?]
  | match goal with |- keeps _ (match ?x with _ => _ end) _ => destruct x end ].
Ltac keeps_all := repeat keeps_one.

(** A loop over a cached list. *)
Lemma keeps_cached {T : Typed} {K A X} `{Kube K} cfg (f : Reader → outcome (list X)) (P : X → Prop) e (g : list X → M (Hub * K) A) R :
  (∀ (k : K) l x, f (cache k) = Ret l → x ∈ l → P x) →
  (∀ l, (∀ x, x ∈ l → P x) → keeps cfg (g l) R) →
  keeps cfg (xs ← wrap e (on_k (from_cache f)); g xs) R.
Proof.
  intros Hf Hg. apply (keeps_bind _ _ _ (λ l, ∀ x, x ∈ l → P x)); [|done]. apply keeps_wrap, keeps_on_k.
  intros k l E x Hx. exact (Hf k l x E Hx).
Qed.

Section handlers.
Context {T : Typed} {K : Type} `{Kube K} `{Netlink K} `{OS K} `{NetPkg K} `{CNIHost K} `{BgpServer K} `{IPSetCmd K} `{IPTablesExec K} {MO : MapOrder}.
Context `{CNIPlugins} `{IPAddrLib} `{CNINetwork} `{Settings} `{StrSets} (CS : typed → CachedObjects (K := K)).
Variable ParseIPNet : string → outcome IPNet.
Hypothesis Hparse : parses ParseIPNet.
Variable cfg : Configuration.
Variable float_ms : Z → Z.
Abbreviation any := (λ _, True).

(** *** subnet.go *)

Lemma route_inv_reset v6 m : route_inv cfg v6 m → route_inv cfg v6 (RouteManager.ResetInfos m).
Proof. intros [_ ? ? ? ?]. by split. Qed.

Lemma route_inv_add v6 c g s e ex ifn nat ov un mode m :
  (typed → net_family c = family_of v6) → route_inv cfg v6 m → route_inv cfg v6 (AddSubnetInfo c g s e ex ifn nat ov un mode m).
Proof.
  intros Hc [Hw Hf ? ? ?]. assert (typed → routes_wf (AddSubnetInfo c g s e ex ifn nat ov un mode m)) as Hw'.
  { intros Ht. apply AddSubnetInfo_wf; [rewrite Hf|]; auto. }
  unfold AddSubnetInfo in *. destruct (match localTotalSubnetInfoMap m !! _ with Some _ => _ | None => _ end). by split.
Qed.

Lemma route_inv_remote v6 c g s e ex ov m :
  (typed → net_family c = family_of v6) → route_inv cfg v6 m → route_inv cfg v6 (AddRemoteSubnetInfo c g s e ex ov m).
Proof.
  intros Hc [Hw Hf ? ? ?]. assert (typed → routes_wf (AddRemoteSubnetInfo c g s e ex ov m)) as Hw'.
  { intros Ht. apply AddRemoteSubnetInfo_wf; [rewrite Hf|]; auto. }
  unfold AddRemoteSubnetInfo in *. set (map := if ov then remoteOverlaySubnetInfoMap m else remoteUnderlaySubnetInfoMap m) in *.
  destruct (match map !! _ with Some _ => _ | None => _ end). by split.
Qed.

(** What is known of a range that was parsed. *)
Definition range_ok (r : AddressRange) (meta : RangeMeta) : Prop :=
  typed → subnet_ok (rm_cidr meta) ∧ net_family (rm_cidr meta) = family_of (is_v6 (ar_Version r)).

Lemma parseRange_ok r meta : (typed → cidr_ok r) → parseSubnetSpecRangeMeta ParseIPNet (Some r) = Ret meta → range_ok r meta.
Proof.
  intros Hr. unfold parseSubnetSpecRangeMeta. destruct (ParseIPNet _) as [c|e| |] eqn:Ec; try done. cbn.
  destruct (Hparse _ _ Ec) as (ip & n & Hp & ->).
  unfold mbind, outcome_bind. cbn [wrap_outcome].
  repeat (match goal with |- context [match ?o with Ret _ => _ | _ => _ end] => destruct o; try done end).
  intros [= <-] Ht. by apply (Hr Ht).
Qed.

Lemma good_add_subnet version c g s e ex ifn nat ov un mode :
  (typed → net_family c = family_of (is_v6 version)) → good cfg (at_route version (AddSubnetInfo c g s e ex ifn nat ov un mode)).
Proof. intros Hc. apply good_at_route. intros m. by apply route_inv_add. Qed.

Lemma good_add_remote version c g s e ex ov :
  (typed → net_family c = family_of (is_v6 version)) → good cfg (at_route version (AddRemoteSubnetInfo c g s e ex ov)).
Proof. intros Hc. apply good_at_route. intros m. by apply route_inv_remote. Qed.

Lemma good_record_peer_subnet c a p n g :
  (typed → subnet_ok c) → good cfg (λ h, set_bgp (BGP.RecordSubnet c (RecordPeer a p n g (bgpManager h))) h).
Proof.
  intros Hc. apply (good_bgp cfg (λ m, BGP.RecordSubnet c (RecordPeer a p n g m))); [|done].
  intros m Ht [Hi Hs]. by apply RecordSubnet_wf; [apply Hc|].
Qed.

Lemma keeps_reconcile_subnet subnet : (typed → cidr_ok (ssp_Range (vs_Spec subnet))) → keeps (K := K) cfg (reconcile_subnet ParseIPNet cfg subnet) any.
Proof.
  intros Hr. unfold reconcile_subnet, get_network. apply keeps_seq; [keeps_all|]. intros network.
  apply (keeps_bind _ _ _ (range_ok (ssp_Range (vs_Spec subnet)))).
  { apply keeps_wrap, keeps_lift. intros meta. by apply parseRange_ok. }
  intros meta Hm. apply keeps_seq; [keeps_all|]. intros mode. apply keeps_seq.
  - repeat case_decide; [unfold subnet_vlan|unfold subnet_vxlan|unfold subnet_bgp|]; keeps_all.
    apply keeps_at_hub, good_record_peer_subnet. intros Ht. by apply Hm.
  - intros [[[? ?] ?] ?]. apply keeps_at_hub, good_add_subnet. intros Ht. by apply Hm.
Qed.

Lemma keeps_reconcile_remote_subnet s : (typed → cidr_ok (rs_Range (rs_Spec s))) → keeps (K := K) cfg (reconcile_remote_subnet ParseIPNet s) any.
Proof.
  intros Hr. unfold reconcile_remote_subnet.
  apply (keeps_bind _ _ _ (range_ok (rs_Range (rs_Spec s)))).
  { apply keeps_wrap, keeps_lift. intros meta. by apply parseRange_ok. }
  intros meta Hm. apply keeps_at_hub, good_add_remote. intros Ht. by apply Hm.
Qed.

Lemma keeps_sync_families v4 v6 : keeps cfg v4 any → keeps cfg v6 any → keeps (K := K) cfg (sync_families v4 v6) any.
Proof. intros. unfold sync_families. keeps_all; done. Qed.

Lemma keeps_Subnet_Reconcile : keeps (K := K) cfg (Subnet_Reconcile ParseIPNet cfg) any.
Proof.
  unfold Subnet_Reconcile. apply (keeps_cached _ _ (λ s, typed → cidr_ok (ssp_Range (vs_Spec s)))); [intros k l s E Hs Ht; by eapply (cached_subnet (CachedObjects := CS Ht))|]. intros l Hl.
  apply keeps_seq; [apply keeps_at_hub, good_routes; intros m; apply route_inv_reset|]. intros _.
  apply keeps_seq; [apply keeps_at_hub, (good_bgp cfg ResetPeerAndSubnetInfos); [intros m _ [Hi _]; by split|done]|]. intros _.
  apply keeps_seq; [apply keeps_each; intros s Hs; by apply keeps_reconcile_subnet, Hl|]. intros _. apply keeps_seq.
  - destruct MultiClusterEnabled; [|by apply keeps_ret].
    apply (keeps_cached _ _ (λ s, typed → cidr_ok (rs_Range (rs_Spec s)))); [intros k rl s E Hs Ht; by eapply (cached_remote (CachedObjects := CS Ht))|]. intros rl Hrl.
    apply keeps_each. intros s Hs. by apply keeps_reconcile_remote_subnet, Hrl.
  - intros _. apply keeps_seq; [apply keeps_sync_families; unfold sync_routes; keeps_all|]. intros _. unfold sync_bgp_subnets. keeps_all.
Qed.

(** *** ipinstance.go *)

Lemma keeps_look_at_networks networks overlay : keeps (K := K) cfg (look_at_networks cfg overlay networks) any.
Proof.
  revert overlay. induction networks as [|network networks IH]; intros overlay; cbn [look_at_networks]; [by apply keeps_ret|].
  keeps_all; apply IH.
Qed.

Lemma good_add_pod version ip name :
  valid_ip ip → (typed → ip_family ip = family_of (is_v6 version)) → good cfg (at_neigh version (Neigh.AddPodInfo ip name)).
Proof.
  intros Hip Hv. apply good_at_neigh. intros m [Hf Hi]. split; [done|]. intros i ips n x. cbn.
  intros [[<- <-]|[_ Hm]]%lookup_insert_Some; [|by apply (Hi i)].
  intros [[<- <-]|[_ Hm]]%lookup_insert_Some; [done|]. destruct (interfaceToIPSliceMap m !! name) as [ips'|] eqn:E; [|done].
  by apply (Hi name ips').
Qed.

Lemma keeps_record_forward mode id version c ip : valid_ip ip → keeps (K := K) cfg (record_forward cfg mode id version c ip) any.
Proof.
  intros Hip. unfold record_forward. keeps_all; apply keeps_at_hub.
  - by apply (good_addr cfg (TryAddPodInfo _ c ip)).
  - apply (good_bgp cfg (RecordIP ip)); [|done]. intros m _ Hm. by apply RecordIP_wf.
Qed.

Lemma keeps_reconcile_instance overlay i :
  (typed → address_ok (is_Address (vi_Spec i))) → keeps (K := K) cfg (reconcile_instance cfg overlay i) any.
Proof.
  intros Ha. unfold reconcile_instance, get_network. do 2 (case_decide; [keeps_all|]).
  destruct (ParseCIDR _) as [[ip c]|] eqn:E; [|apply keeps_fail]. assert (typed → ip_family ip = family_of (is_v6 (ad_Version (is_Address (vi_Spec i))))) as Hv by (intros Ht; by eapply Ha).
  apply ParseCIDR_valid in E as (Hip & _).
  keeps_all; first [by apply keeps_record_forward|by apply keeps_at_hub, good_add_pod].
Qed.

Lemma neigh_inv_reset v6 m : neigh_inv v6 m → neigh_inv v6 (Neigh.ResetInfos m).
Proof. intros [Hf _]. split; [done|]. intros i ips n x Hi. cbn in Hi. by rewrite lookup_empty in Hi. Qed.

Lemma keeps_IPInstance_Reconcile : keeps (K := K) cfg (DaemonIPInstance_Reconcile cfg) any.
Proof.
  unfold DaemonIPInstance_Reconcile, local_instances. apply keeps_seq; [keeps_all|]. intros networks.
  apply keeps_seq; [apply keeps_look_at_networks|]. intros overlay. apply keeps_seq; [apply keeps_gets|]. intros h. apply keeps_seq.
  { keeps_all. apply keeps_at_hub. by apply (good_set_rest cfg iptablesSyncCh nodeIPCache (λ _, true)). }
  intros _. apply (keeps_cached _ _ (λ i, typed → address_ok (is_Address (vi_Spec i)))); [intros k l i E Hi Ht; by eapply (cached_instance (CachedObjects := CS Ht))|]. intros l Hl.
  apply keeps_seq; [apply keeps_at_hub, good_neighs; intros m; apply neigh_inv_reset|]. intros _.
  apply keeps_seq; [apply keeps_at_hub; by apply (good_addr cfg Addr.ResetInfos)|]. intros _.
  apply keeps_seq; [apply keeps_at_hub, (good_bgp cfg ResetIPInfos); [intros m _ [_ Hs]; by split|done]|]. intros _.
  apply keeps_seq; [apply keeps_each; intros i Hin; by apply keeps_reconcile_instance, Hl|]. intros _.
  apply keeps_seq; [apply keeps_sync_families; unfold sync_neighs; keeps_all|]. intros _.
  unfold sync_addresses, sync_bgp_ips. keeps_all.
Qed.

(** *** node.go *)

Lemma keeps_Node_Reconcile : keeps (K := K) cfg (DaemonNode_Reconcile cfg float_ms) any.
Proof. unfold DaemonNode_Reconcile, reconcile_overlay. keeps_all. Qed.

(** *** controller.go *)

Lemma keeps_on_link_update up name : keeps (K := K) cfg (on_link_update up name) any.
Proof. unfold on_link_update. keeps_all. Qed.

Lemma keeps_on_addr_update ip : keeps (K := K) cfg (on_addr_update ip) any.
Proof. unfold on_addr_update. keeps_all. Qed.

Lemma keeps_on_neigh_update state type index ip : keeps (K := K) cfg (on_neigh_update state type index ip) any.
Proof. unfold on_neigh_update, ipSearch, find_vtep, vtep_of_instance, vtep_of_remote. keeps_all. Qed.

(** What is recorded was parsed. *)
Lemma recorded_snoc {X} (P : X → Prop) l x : Forall P l → P x → Forall P (l ++ [x]).
Proof. intros Hl Hx. apply Forall_app. by split; [|constructor]. Qed.

Lemma same_mgr_subnet n overlay bgp m : net_ok n → same_mgr m (IPTables.RecordSubnet n overlay bgp m).
Proof.
  intros Hn. unfold IPTables.RecordSubnet. destruct overlay, bgp; (split; [done|split; [done|]]); intros []; split; cbn; auto using recorded_snoc.
Qed.

Lemma same_mgr_remote n overlay m : net_ok n → same_mgr m (RecordRemoteSubnet n overlay m).
Proof. intros Hn. unfold RecordRemoteSubnet. destruct overlay; (split; [done|split; [done|]]); intros []; split; cbn; auto using recorded_snoc. Qed.

Lemma same_mgr_node ip m : parsed_ip ip → same_mgr m (RecordNodeIP ip m).
Proof. intros Hip. split; [done|split; [done|]]. intros []. split; cbn; auto using recorded_snoc. Qed.

Lemma same_mgr_remote_node ip m : parsed_ip ip → same_mgr m (RecordRemoteNodeIP ip m).
Proof. intros Hip. split; [done|split; [done|]]. intros []. split; cbn; auto using recorded_snoc. Qed.

Lemma same_mgr_pod ip m : parsed_ip ip → same_mgr m (RecordLocalPodIP ip m).
Proof. intros Hip. split; [done|split; [done|]]. intros []. split; cbn; auto using recorded_snoc. Qed.

Lemma same_mgr_names f m : (f = SetOverlayIfName ∨ f = SetBgpIfName) → ∀ name, same_mgr m (f name m).
Proof. by intros [-> | ->] name; (split; [done|split; [done|]]); intros []; split. Qed.

Lemma keeps_record_network net : keeps (K := K) cfg (record_network cfg net) any.
Proof. unfold record_network. keeps_all; apply keeps_at_hub, good_both; intros m; apply same_mgr_names; auto. Qed.

Lemma keeps_record_node_ips n : keeps (K := K) cfg (record_node_ips n) any.
Proof. unfold record_node_ips. keeps_all. apply keeps_at_hub, good_record_ips. intros ip m. apply same_mgr_node. Qed.

Lemma keeps_record_local_pod i : keeps (K := K) cfg (record_local_pod i) any.
Proof.
  unfold record_local_pod. case_decide; [keeps_all|]. destruct (ParseCIDR _) as [[ip n]|] eqn:E; [|apply keeps_fail].
  apply ParseCIDR_valid in E as (Hip & _). apply keeps_at_hub, good_at_iptables. intros m. apply same_mgr_pod. by right.
Qed.

Lemma keeps_record_subnet s : keeps (K := K) cfg (record_subnet cfg s) any.
Proof.
  unfold record_subnet, get_network. destruct (ParseCIDR _) as [[ip n]|] eqn:E; [|apply keeps_fail]. apply ParseCIDR_valid in E as (_ & Hn & Hm).
  keeps_all. apply keeps_at_hub, good_at_iptables. intros m. by apply same_mgr_subnet.
Qed.

Lemma keeps_record_remote_vtep v : keeps (K := K) cfg (record_remote_vtep v) any.
Proof.
  unfold record_remote_vtep. apply keeps_at_hub.
  destruct (om_Annotations _ !! _); [apply good_record_ips|apply good_at_iptables; intros m]; intros; apply same_mgr_remote_node; [done|apply ParseIP_parsed].
Qed.

Lemma keeps_record_remote_subnet s : keeps (K := K) cfg (record_remote_subnet s) any.
Proof.
  unfold record_remote_subnet. destruct (ParseCIDR _) as [[ip n]|] eqn:E; [|apply keeps_fail]. apply ParseCIDR_valid in E as (_ & Hn & Hm).
  apply keeps_at_hub, good_at_iptables. intros m. by apply same_mgr_remote.
Qed.

Hint Resolve keeps_record_network keeps_record_node_ips keeps_record_local_pod keeps_record_subnet keeps_record_remote_vtep
  keeps_record_remote_subnet : keeps.

Lemma keeps_record_iptables : keeps (K := K) cfg (record_iptables cfg) any.
Proof.
  unfold record_iptables, local_instances. apply keeps_seq; [|intros _; keeps_all].
  apply keeps_at_hub, good_both. intros m. split; [done|split; [done|]]. intros _. by split; apply Forall_nil.
Qed.

Lemma keeps_iptablesSyncFunc : keeps (K := K) cfg (iptablesSyncFunc cfg) any.
Proof.
  unfold iptablesSyncFunc. apply keeps_seq; [apply keeps_record_iptables|]. intros _. apply keeps_sync_families; keeps_all.
Qed.

Lemma keeps_iptables_round : keeps (K := K) cfg (iptables_round cfg) any.
Proof.
  unfold iptables_round. apply keeps_seq; [apply keeps_gets|]. intros h. destruct (iptablesSyncCh h); [|by apply keeps_ret].
  apply keeps_seq; [|intros _; apply keeps_ignore, keeps_iptablesSyncFunc].
  apply keeps_at_hub. by apply (good_set_rest cfg (λ _, false) nodeIPCache hub_upgradeWorkDone).
Qed.
End handlers.

(** ** The start *)

Section start.
Context {T : Typed} {K : Type} `{Kube K} `{Netlink K} `{IPTablesExec K}.
Variable cfg : Configuration.

Lemma CreateRouteManager_new v6 (k k' : K) m :
  CreateRouteManager (LocalDirectTableNum cfg) (ToOverlaySubnetTableNum cfg) (OverlayMarkTableNum cfg) (family_of v6) k = (Ret m, k') →
  route_inv cfg v6 m.
Proof.
  intros Hm. do 3 apply bind_Ret_inv in Hm as (? & ? & _ & Hm). destruct (negb _ && negb _); [done|]. injection Hm as <- _.
  by split.
Qed.

Lemma CreateIPtablesManager_new p (k k' : K) e m : new_iptables p e k = (Ret m, k') →
  protocol m = p ∧ IPTables.mgr_c m = 0%nat ∧ manager_ok m.
Proof.
  intros Hm%wrap_Ret_inv. unfold lift, CreateIPtablesManager in Hm.
  destruct p; try (destruct (NewWithProtocol _)); cbn in Hm; try done; injection Hm as <- _;
    (split_and!; [done..|]); by split; apply Forall_nil.
Qed.

Lemma BGP_NewManager_new name (k k' : K) m : BGP.NewManager name k = (Ret m, k') → manager_wf m.
Proof.
  intros Hm. do 2 apply bind_Ret_inv in Hm as (? & ? & _ & Hm). apply bind_Ret_inv in Hm as ([[id v4] v6] & ? & _ & Hm). injection Hm as <- _.
  split; intros ? ?; cbn; by rewrite lookup_empty.
Qed.

Lemma NewCtrlHub_inv (k k' : K) h : NewCtrlHub cfg k = (Ret h, k') → hub_inv cfg h.
Proof.
  unfold NewCtrlHub. intros Hm.
  apply bind_Ret_inv in Hm as (r4 & k1 & R4 & Hm). apply bind_Ret_inv in Hm as (r6 & k2 & R6 & Hm).
  apply bind_Ret_inv in Hm as (i4 & k3 & I4 & Hm). apply bind_Ret_inv in Hm as (i6 & k4 & I6 & Hm).
  apply bind_Ret_inv in Hm as (b & k5 & B & Hm). apply bind_Ret_inv in Hm as (k6 & ? & _ & Hm). apply bind_Ret_inv in Hm as (? & ? & _ & Hm).
  apply wrap_Ret_inv, (CreateRouteManager_new false) in R4. apply wrap_Ret_inv, (CreateRouteManager_new true) in R6.
  apply CreateIPtablesManager_new in I4, I6. apply wrap_Ret_inv, BGP_NewManager_new in B.
  injection Hm as <- _. split.
  - by intros [].
  - intros []; (split; [done|]); intros i ips n ? Hi; cbn in Hi; by rewrite lookup_empty in Hi.
  - done.
  - done.
  - intros []; cbn; tauto.
  - intros []; cbn; tauto.
Qed.
End start.

(** ** The steps *)

(** The handler came to an end, with an error or without. *)
Definition runs {S} (m : M S unit) (s s' : S) : Prop := ∃ o, m s = (o, s') ∧ match o with Ret _ | Fail _ => True | _ => False end.

(** All controllers have started. *)
Definition started (h : Hub) : Prop :=
  is_Some (subnetControllerTriggerSource h) ∧ is_Some (ipInstanceControllerTriggerSource h) ∧ is_Some (nodeControllerTriggerSource h).

(** The sources of the three controllers start. *)
Definition start_subnet_source {K} : M (Hub * K) unit :=
  start_source (λ q h, set_triggers q (ipInstanceControllerTriggerSource h) (nodeControllerTriggerSource h) h).
Definition start_instance_source {K} : M (Hub * K) unit :=
  start_source (λ q h, set_triggers (subnetControllerTriggerSource h) q (nodeControllerTriggerSource h) h).
Definition start_node_source {K} : M (Hub * K) unit :=
  start_source (λ q h, set_triggers (subnetControllerTriggerSource h) (ipInstanceControllerTriggerSource h) q h).

Section steps.
Context {T : Typed} {K : Type} `{Kube K} `{Netlink K} `{OS K} `{NetPkg K} `{CNIHost K} `{BgpServer K} `{IPSetCmd K} `{IPTablesExec K} {MO : MapOrder}.
Context `{CNIPlugins} `{IPAddrLib} `{CNINetwork} `{Settings} `{StrSets}.
Variables (ParseIPNet : string → outcome IPNet) (cfg : Configuration) (float_ms : Z → Z).

Inductive daemon_step (s s' : Hub * K) : Prop :=
  | step_subnet_source : runs start_subnet_source s s' → daemon_step s s'
  | step_instance_source : runs start_instance_source s s' → daemon_step s s'
  | step_node_source : runs start_node_source s s' → daemon_step s s'
  | step_subnet : runs (Subnet_Reconcile ParseIPNet cfg) s s' → daemon_step s s'
  | step_instance : runs (DaemonIPInstance_Reconcile cfg) s s' → daemon_step s s'
  | step_node : runs (DaemonNode_Reconcile cfg float_ms) s s' → daemon_step s s'
  | step_iptables : runs (iptables_round cfg) s s' → daemon_step s s'
  | step_tick : runs iptablesSyncTrigger s s' → daemon_step s s'
  | step_link up name : runs (on_link_update up name) s s' → daemon_step s s'
  | step_addr ip : runs (on_addr_update ip) s s' → daemon_step s s'
  | step_neigh state type index ip : runs (on_neigh_update state type index ip) s s' → daemon_step s s'
  | step_clear : runs (on_k clearVxlanExpiredNeighCaches) s s' → daemon_step s s'
  | step_system : s'.1 = s.1 → daemon_step s s'.

Lemma keeps_runs (m : M (Hub * K) unit) s s' :
  keeps cfg m (λ _, True) → runs m s s' → hub_inv cfg s.1 → hub_inv cfg s'.1 ∧ stays s.1 s'.1.
Proof.
  intros Hm (o & E & Ho) Hs. destruct s as [h k]. specialize (Hm h k Hs). unfold post in Hm. rewrite E in Hm.
  destruct o; naive_solver.
Qed.

Context (CS : typed → CachedObjects (K := K)) (Hparse : parses ParseIPNet).

Lemma daemon_step_inv s s' : daemon_step s s' → hub_inv cfg s.1 → hub_inv cfg s'.1 ∧ stays s.1 s'.1.
Proof.
  destruct 1 as [Hm|Hm|Hm|Hm|Hm|Hm|Hm|Hm|up name Hm|ip Hm|state type index ip Hm|Hm|E]; try (eapply keeps_runs, Hm).
  - apply keeps_at_hub. by apply (good_triggers cfg (λ _, Some [])).
  - apply keeps_at_hub. by apply (good_triggers cfg _ (λ _, Some [])).
  - apply keeps_at_hub. by apply (good_triggers cfg _ _ (λ _, Some [])).
  - by apply keeps_Subnet_Reconcile.
  - by apply keeps_IPInstance_Reconcile.
  - apply keeps_Node_Reconcile.
  - apply keeps_iptables_round.
  - apply keeps_iptablesSyncTrigger.
  - apply keeps_on_link_update.
  - apply keeps_on_addr_update.
  - apply keeps_on_neigh_update.
  - by apply keeps_on_k.
  - by rewrite E.
Qed.

Lemma daemon_steps_inv s s' : rtc daemon_step s s' → hub_inv cfg s.1 → hub_inv cfg s'.1 ∧ stays s.1 s'.1.
Proof.
  induction 1 as [s|s1 s2 s3 Hs _ IH]; intros Hi; [by split|]. destruct (daemon_step_inv _ _ Hs Hi) as [I2 S2].
  destruct (IH I2) as [I3 S3]. split; [done|by etrans].
Qed.
End steps.

Lemma started_stays h h' : stays h h' → started h → started h'.
Proof. intros [H1 H2 H3 _ _] (S1 & S2 & S3). by split_and!; auto. Qed.

Lemma started_events {K} h (k : K) up name ip : started h →
  (on_link_update up name (h, k)).1 = Ret tt ∧ (on_addr_update ip (h, k)).1 = Ret tt.
Proof.
  intros ([q1 E1] & [q2 E2] & [q3 E3]). split.
  - unfold on_link_update. destruct (_ && _); [|done].
    unfold trigger_subnet, trigger_ipinstance, trigger, mbind, M_bind, gets, lift, at_hub, modify. cbn. rewrite E1. cbn. by rewrite E2.
  - unfold on_addr_update. destruct (CheckIPIsGlobalUnicast ip); [|done].
    unfold trigger_node, trigger, mbind, M_bind, gets, lift, at_hub, modify. cbn. by rewrite E3.
Qed.

(** The events are subscribed to before the manager starts the controllers: an
    interface that comes up in between is a panic. *)
Lemma early_event_panics {K} h (k : K) name :
  subnetControllerTriggerSource h = None → CheckIfContainerNetworkLink name = false → (on_link_update true name (h, k)).1 = Panic.
Proof.
  intros E En. unfold on_link_update. rewrite En. cbn [andb negb].
  unfold trigger_subnet, trigger, mbind, M_bind, gets, lift. cbn. by rewrite E.
Qed.

(** ** What a pass over the instances records *)

(** The records that a reconciliation of the instances makes. *)
Record Records := mkRecords {
  rec_v4 : Neigh.Manager;
  rec_v6 : Neigh.Manager;
  rec_addr : Addr.Manager;
  rec_ips : gmap string netIP
}.
Definition records (h : Hub) : Records := mkRecords (neighV4Manager h) (neighV6Manager h) (addrV4Manager h) (ipMap (bgpManager h)).

Section instances.
Variable cfg : Configuration.

(** The overlay interface: that of the vxlan network that is listed last. *)
Definition overlay_name (overlay : option string) (net : V1Network) : option string :=
  match GetNetworkMode (Some net) with
  | Ret mode =>
      if decide (mode = NetworkModeVxlan) then
        match GenerateVxlanNetIfName (NodeVxlanIfName cfg) (ns_NetID (vn_Spec net)) with Ret name => Some name | _ => overlay end
      else overlay
  | _ => overlay
  end.

Variables (r : Reader) (overlay : option string).

(** The address of an instance in use, its network, and the mode of the
    network that it is in. *)
Definition used_address (i : V1IPInstance) : option (netIP * IPNet * string) :=
  if decide (ist_Phase (vi_Status i) = IPPhaseUsing) then
    match ParseCIDR (ad_IP (is_Address (vi_Spec i))), r_GetNetwork r (is_Network (vi_Spec i)) with
    | Some (ip, c), Ret net => match GetNetworkMode (Some net) with Ret mode => Some (ip, c, mode) | _ => None end
    | _, _ => None
    end
  else None.

(** The interface of a pod; empty for BGP. *)
Definition forward_name (mode : string) (id : option Z) : string :=
  if decide (mode = NetworkModeVlan) then match GenerateVlanNetIfName (NodeVlanIfName cfg) id with Ret name => name | _ => "" end
  else if decide (mode = NetworkModeVxlan) then match GenerateVxlanNetIfName (NodeVxlanIfName cfg) id with Ret name => name | _ => "" end
  else "".

(** The address is a neighbour on the overlay interface and on its own. *)
Definition neigh_part (v6 : bool) (i : V1IPInstance) : list (netIP * string) :=
  match used_address i with
  | Some (ip, _, mode) =>
      if same_family v6 (ad_Version (is_Address (vi_Spec i))) then
        let name := forward_name mode (ad_NetID (is_Address (vi_Spec i))) in
        map (pair ip) (option_list overlay ++ (if decide (name = "") then [] else [name]))
      else []
  | None => []
  end.

(** Addresses of version 4 on VLANs, and addresses of BGP networks. *)
Definition addr_part (i : V1IPInstance) : list (string * IPNet * netIP) :=
  match used_address i with
  | Some (ip, c, mode) =>
      if decide (mode = NetworkModeVlan ∧ ad_Version (is_Address (vi_Spec i)) = IPVersion4) then
        [(forward_name mode (ad_NetID (is_Address (vi_Spec i))), c, ip)]
      else []
  | None => []
  end.
Definition bgp_part (i : V1IPInstance) : list netIP :=
  match used_address i with
  | Some (ip, _, mode) => if decide (mode = NetworkModeBGP) then [ip] else []
  | None => []
  end.

Definition add_addr (l : list (string * IPNet * netIP)) (m : Addr.Manager) : Addr.Manager :=
  fold_left (λ m a, TryAddPodInfo a.1.1 a.1.2 a.2 m) l m.
Definition add_ips (l : list netIP) (m : gmap string netIP) : gmap string netIP := fold_left (λ m ip, <[IP_String ip := ip]> m) l m.

Definition add_parts (l : list V1IPInstance) (R : Records) : Records :=
  mkRecords (Neigh.record_all (flat_map (neigh_part false) l) (rec_v4 R)) (Neigh.record_all (flat_map (neigh_part true) l) (rec_v6 R))
    (add_addr (flat_map addr_part l) (rec_addr R)) (add_ips (flat_map bgp_part l) (rec_ips R)).

Lemma add_parts_nil R : add_parts [] R = R.
Proof. by destruct R. Qed.

Lemma add_parts_cons i l R : add_parts (i :: l) R = add_parts l (add_parts [i] R).
Proof.
  unfold add_parts, Neigh.record_all, add_addr, add_ips. cbn [flat_map rec_v4 rec_v6 rec_addr rec_ips].
  by rewrite !app_nil_r, !fold_left_app.
Qed.
End instances.

Section recording.
Context {K : Type} `{Kube K}.
Variables (cfg : Configuration).

Lemma records_names version ip names h :
  records (fold_left (λ h name, at_neigh version (Neigh.AddPodInfo ip name) h) names h) =
  mkRecords (if same_family false version then Neigh.record_all (map (pair ip) names) (neighV4Manager h) else neighV4Manager h)
    (if same_family true version then Neigh.record_all (map (pair ip) names) (neighV6Manager h) else neighV6Manager h)
    (addrV4Manager h) (ipMap (bgpManager h)).
Proof.
  revert h. induction names as [|name names IH]; intros h; cbn [fold_left map].
  - unfold Neigh.record_all. cbn [fold_left]. by destruct (same_family false version), (same_family true version).
  - rewrite IH. unfold at_neigh, same_family. by destruct (is_v6 version).
Qed.

Lemma record_forward_records mode id version c ip h (k : K) :
  post (record_forward cfg mode id version c ip) (h, k) (λ o s', s'.2 = k ∧ match o with
    | Ret name => name = forward_name cfg mode id ∧
        records s'.1 = mkRecords (neighV4Manager h) (neighV6Manager h)
          (add_addr (if decide (mode = NetworkModeVlan ∧ version = IPVersion4) then [(name, c, ip)] else []) (addrV4Manager h))
          (add_ips (if decide (mode = NetworkModeBGP) then [ip] else []) (ipMap (bgpManager h)))
    | _ => True
    end).
Proof.
  unfold record_forward, forward_name. destruct (decide (mode = NetworkModeVlan)) as [->|Hv].
  - apply post_bind, post_wrap, post_lift. destruct (GenerateVlanNetIfName _ _) as [name|e| |]; [|done..]. apply post_bind.
    destruct (decide (version = IPVersion4)) as [->|Hn].
    + apply post_at_hub. by apply post_ret.
    + apply post_ret, post_ret. split; [done|]. split; [done|]. rewrite (decide_False (P := NetworkModeVlan = NetworkModeVlan ∧ _)) by tauto. done.
  - assert (¬ (mode = NetworkModeVlan ∧ version = IPVersion4)) as Hno by tauto.
    destruct (decide (mode = NetworkModeVxlan)) as [->|Hx].
    + apply post_wrap, post_lift. destruct (GenerateVxlanNetIfName _ _); [|done..]. by rewrite (decide_False _ _ Hno).
    + destruct (decide (mode = NetworkModeBGP)) as [->|Hb].
      * apply post_bind, post_at_hub, post_ret. by rewrite (decide_False _ _ Hno).
      * apply post_ret. by rewrite (decide_False _ _ Hno).
Qed.

Lemma reconcile_instance_records overlay i h (k : K) :
  post (reconcile_instance cfg overlay i) (h, k) (λ o s', s'.2 = k ∧ match o with
    | Ret _ => records s'.1 = add_parts cfg (cache k) overlay [i] (records h)
    | _ => True
    end).
Proof.
  unfold reconcile_instance. set (a := is_Address (vi_Spec i)).
  destruct (decide (ist_Phase (vi_Status i) = IPPhaseUsing)) as [Hp|Hp].
  2: { rewrite decide_True by done. apply post_ret. split; [done|]. unfold add_parts, neigh_part, addr_part, bgp_part, used_address.
       cbn [flat_map]. by rewrite decide_False. }
  rewrite decide_False by tauto. case_decide; [done|]. destruct (ParseCIDR (ad_IP a)) as [[ip c]|] eqn:Ec; [|done].
  apply post_bind, post_wrap. unfold get_network, post at 1. rewrite run_from_cache. cbn [fst snd].
  destruct (r_GetNetwork (cache k) _) as [net|e| |] eqn:En; [|done..].
  apply post_bind, post_lift. destruct (GetNetworkMode_Ret net) as [mode Em]. rewrite Em.
  assert (used_address (cache k) i = Some (ip, c, mode)) as Hu by (unfold used_address; rewrite decide_True by done; fold a; by rewrite Ec, En, Em).
  apply post_bind. eapply post_mono; [apply record_forward_records|]. intros [name|e| |] [h1 k1] [Ek Ho]; cbn [fst snd] in *; subst k1; [|done..].
  destruct Ho as [Ename Er].
  set (names := option_list overlay ++ (if decide (name = "") then [] else [name])).
  assert (records (fold_left (λ h name, at_neigh (ad_Version a) (Neigh.AddPodInfo ip name) h) names h1) = add_parts cfg (cache k) overlay [i] (records h)) as E.
  { rewrite records_names. injection Er as E4 E6 Ea Ei. rewrite E4, E6, Ea, Ei.
    unfold add_parts, neigh_part, addr_part, bgp_part. cbn [flat_map]. rewrite Hu. fold a. rewrite <-Ename, !app_nil_r. fold names.
    by destruct (same_family false _), (same_family true _). }
  unfold names in E. destruct overlay as [n|]; cbn [option_list app] in E.
  - apply post_bind, post_at_hub. destruct (decide (name = "")); [by apply post_ret|by apply post_at_hub].
  - apply post_bind, post_ret. destruct (decide (name = "")); [by apply post_ret|by apply post_at_hub].
Qed.

Lemma reconcile_instances_records overlay l h (k : K) :
  post (each (reconcile_instance cfg overlay) l) (h, k) (λ o s', s'.2 = k ∧ match o with
    | Ret _ => records s'.1 = add_parts cfg (cache k) overlay l (records h)
    | _ => True
    end).
Proof.
  revert h. induction l as [|i l IH]; intros h; cbn [each].
  - apply post_ret. by rewrite add_parts_nil.
  - apply post_bind. eapply post_mono; [apply reconcile_instance_records|]. intros [[]|e| |] [h1 k1] [Ek Ho]; cbn [fst snd] in *; subst k1; [|done..].
    rewrite add_parts_cons, <-Ho. apply IH.
Qed.

(** Computations that record nothing. *)
Definition records_same {A} (m : M (Hub * K) A) (Q : A → Prop) : Prop := ∀ h k, post m (h, k) (λ o s',
  match o with Ret a => records s'.1 = records h ∧ Q a | _ => True end).

Lemma same_bind {A B} (m : M (Hub * K) A) (f : A → M (Hub * K) B) Q R :
  records_same m Q → (∀ a, Q a → records_same (f a) R) → records_same (m ≫= f) R.
Proof.
  intros Hm Hf h k. apply post_bind. eapply post_mono; [apply Hm|]. intros [a|e| |] [h1 k1] Ho; [|done..]. destruct Ho as [E Ha].
  cbn [fst] in E. rewrite <-E. by apply Hf.
Qed.

Lemma same_wrap {A} e (m : M (Hub * K) A) Q : records_same m Q → records_same (wrap e m) Q.
Proof. intros Hm h k. apply post_wrap. eapply post_mono; [apply Hm|]. by intros [] ?. Qed.

Lemma same_on_k {A} (m : M K A) : records_same (on_k m) (λ _, True).
Proof. intros h k. apply post_on_k. unfold post. by destruct (m k).1. Qed.

Lemma same_lift {A} (o : outcome A) Q : (∀ a, o = Ret a → Q a) → records_same (lift o) Q.
Proof. intros Ho h k. unfold post, lift. cbn. destruct o; [split; [done|by apply Ho]|done..]. Qed.

Lemma same_ret {A} (a : A) (Q : A → Prop) : Q a → records_same (mret a) Q.
Proof. intros Ha h k. by apply post_ret. Qed.

Lemma same_at_hub f : (∀ h, records (f h) = records h) → records_same (at_hub f) (λ _, True).
Proof. intros Hf h k. apply post_at_hub. split; [apply Hf|done]. Qed.

Lemma same_TryStart `{BgpServer K} asn : records_same (on_bgp (TryStart asn)) (λ _, True).
Proof.
  intros h k. unfold post, on_bgp, zoom. cbn [fst snd]. unfold TryStart, mbind, M_bind, gets. cbn [fst].
  destruct (negb _); [destruct (negb _); by cbn|]. unfold modify, BGP.on_kernel, zoom. cbn [fst snd]. by destruct (StartBgp _ _ k) as [[] ?].
Qed.

Lemma same_look_at_networks `{BgpServer K} networks overlay :
  records_same (look_at_networks cfg overlay networks) (λ o, o = fold_left (overlay_name cfg) networks overlay).
Proof.
  revert overlay. induction networks as [|net networks IH]; intros overlay; cbn [look_at_networks fold_left]; [by apply same_ret|].
  destruct (GetNetworkMode_Ret net) as [mode Em]. rewrite Em. apply (same_bind _ _ (λ m, m = mode)); [by apply same_lift; intros ? [= ->]|]. intros ? ->.
  unfold overlay_name at 2. rewrite Em. destruct (decide (mode = NetworkModeVxlan)).
  - apply (same_bind _ _ (λ n, GenerateVxlanNetIfName (NodeVxlanIfName cfg) (ns_NetID (vn_Spec net)) = Ret n)); [by apply same_wrap, same_lift|].
    intros n ->. apply IH.
  - destruct (decide (mode = NetworkModeBGP)); [|apply IH]. destruct (negb _); [apply IH|].
    destruct (ns_NetID (vn_Spec net)) as [id|]; [|by intros h k].
    apply (same_bind _ _ (λ _, True)); [apply same_wrap, same_TryStart|]. intros _ _. apply IH.
Qed.
End recording.

(** A synchronisation of what the hub holds. *)
Lemma post_sync_hub {K A} (f : Hub → M K A) e h k Q :
  (∀ k', f h k = (Panic, k') → Q Panic (h, k')) → (∀ k', f h k = (Diverge, k') → Q Diverge (h, k')) →
  (∀ er k', f h k = (Fail er, k') → Q (Fail (e er)) (h, k')) → (∀ a k', f h k = (Ret a, k') → Q (Ret a) (h, k')) →
  post (wrap e (h ← gets fst; on_k (f h))) (h, k) Q.
Proof.
  intros HP HD HF HR. apply post_wrap. unfold post, mbind, M_bind, gets, on_k, zoom. cbn [fst snd].
  destruct (f h k) as [[a|er| |] k'] eqn:E; cbn [fst snd]; auto.
Qed.

(** ** Properties *)

(** C4. The daemon of a node keeps its invariant.  From the hub that
    [NewCtrlHub] makes, whatever sequence of reconciliations of subnets,
    instances and nodes, of rounds of iptables, of events of links, addresses
    and neighbours follows, with errors or without, and however the system and
    the cached objects change in between: the managers keep the family, the
    tables and the node of the configuration; the managers of neighbours hold
    addresses under their texts; the managers of iptables have their locks
    free and hold parsed addresses and networks only, as the synchronisation
    of the ipsets supposes.  Where moreover the cached objects are typed
    ([CachedObjects]: the CIDR of a subnet, or remote subnet, is a network of
    more than one address whose family is its version, and an instance has the
    version of its address; the webhooks do not enforce this): the managers of
    routes hold each subnet of their family under its text, the addresses of
    neighbours are of the family, and the manager of BGP holds networks and
    addresses under their texts, as the synchronisations of routes and of BGP
    suppose of the managers.  From any state on: no trigger queue is lost, the
    work of an upgrade is not done again, the AS number is not changed; and
    once all controllers have started, no event of a link or an address ever
    panics. *)
Theorem daemon_invariant {K} `{Kube K} `{Netlink K} `{OS K} `{NetPkg K} `{CNIHost K} `{BgpServer K} `{IPSetCmd K} `{IPTablesExec K}
    {MO : MapOrder} `{CNIPlugins} `{IPAddrLib} `{CNINetwork} `{Settings} `{StrSets}
    (ParseIPNet : string → outcome IPNet) (cfg : Configuration) (float_ms : Z → Z) (k0 k1 : K) (h0 : Hub) (s : Hub * K) :
  parses ParseIPNet → NewCtrlHub cfg k0 = (Ret h0, k1) → rtc (daemon_step ParseIPNet cfg float_ms) (h0, k1) s →
  hub_inv (T := CachedObjects (K := K)) cfg s.1 ∧
  ∀ s', rtc (daemon_step ParseIPNet cfg float_ms) s s' →
    stays s.1 s'.1 ∧
    (started s.1 → ∀ up name ip, (on_link_update up name s').1 = Ret tt ∧ (on_addr_update ip s').1 = Ret tt).
Proof.
  intros Hp Hnew Hs. pose proof (NewCtrlHub_inv (T := CachedObjects (K := K)) cfg _ _ _ Hnew) as Hi.
  assert (typed (Typed := CachedObjects (K := K)) → CachedObjects (K := K)) as CS by done.
  destruct (daemon_steps_inv ParseIPNet cfg float_ms CS Hp _ _ Hs Hi) as [His _]. split; [done|]. intros [h' k'] Hs'.
  destruct (daemon_steps_inv ParseIPNet cfg float_ms CS Hp _ _ Hs' His) as [_ Hst]. split; [done|].
  intros Hstart up name ip. by apply started_events, (started_stays s.1).
Qed.

(** C11. A pass over the instances records exactly what is cached of them, and
    puts it on the node.  When the reconciliation returns, there are a list
    [l] of the instances of this node, read at [k1], and the overlay interface
    of the networks, such that the managers hold what [add_parts] takes from
    these: as neighbours of a family the addresses in use of that version, on
    the overlay interface and on the interface of their network; the addresses
    of version 4 on VLANs; the addresses of BGP networks; and nothing of an
    earlier pass.  From [k1] on the system went through the synchronisations
    of exactly these records, one after the other and each of them returning:
    the neighbours of IPv4, those of IPv6 unless IPv6 was read to be disabled,
    the addresses, the paths of BGP; there it is left, and the loop of
    iptables was told. *)
Theorem instances_recorded {K} `{Kube K} `{Netlink K} `{OS K} `{NetPkg K} `{CNIHost K} `{BgpServer K} {MO : MapOrder} `{CNINetwork}
    (cfg : Configuration) (h : Hub) (k : K) :
  post (DaemonIPInstance_Reconcile cfg) (h, k) (λ o s', match o with
    | Ret _ => ∃ networks l (k1 k2 k3 k4 k5 : K) (disabled : bool),
        let R := records s'.1 in
        r_ListNetworks (cache k) = Ret networks ∧
        r_ListIPInstances (cache k1) (mkListOptions None {[LabelNode := NodeName cfg]}) = Ret l ∧
        R = add_parts cfg (cache k1) (fold_left (overlay_name cfg) networks None) l
              (mkRecords (Neigh.ResetInfos (neighV4Manager h)) (Neigh.ResetInfos (neighV6Manager h)) (Addr.ResetInfos (addrV4Manager h)) ∅) ∧
        SyncNeighs (rec_v4 R) k1 = (Ret tt, k2) ∧
        CheckIPv6GlobalDisabled k2 = (Ret disabled, k3) ∧
        (if disabled then k4 = k3 else SyncNeighs (rec_v6 R) k3 = (Ret tt, k4)) ∧
        SyncAddresses getIPInstanceByAddress (rec_addr R) k4 = (Ret tt, k5) ∧
        SyncIPInfos (order_values 44 (rec_ips R)) (order_pairs 45) (bgpManager s'.1) k5 = (Ret tt, s'.2) ∧
        iptablesSyncCh s'.1 = true
    | _ => True
    end).
Proof.
  unfold DaemonIPInstance_Reconcile. apply post_bind, post_wrap. unfold post at 1. rewrite run_from_cache. cbn [fst snd].
  destruct (r_ListNetworks (cache k)) as [networks|e| |] eqn:En; [|done..].
  apply post_bind. eapply post_mono; [apply same_look_at_networks|]. intros [overlay|e| |] [h1 k1] Ho; [|done..]. destruct Ho as [E1 ->]. cbn [fst] in E1.
  apply post_bind. unfold post at 1. cbn [fst snd gets]. apply post_bind.
  eapply (post_mono _ _ (λ o s', match o with Ret _ => records s'.1 = records h | _ => True end)).
  { destruct (hub_upgradeWorkDone h1); [by apply post_ret|]. apply post_bind, post_wrap, post_on_k. unfold post. destruct (ensureExistPodConfigs _ k1).1; [|done..].
    exact E1. }
  intros [[]|e| |] [h2 k2] E2; [|done..]. cbn [fst] in E2. unfold local_instances.
  apply post_bind, post_wrap. unfold post at 1. rewrite run_from_cache. cbn [fst snd].
  destruct (r_ListIPInstances (cache k2) _) as [l|e| |] eqn:El; [|done..].
  apply post_bind, post_at_hub, post_bind, post_at_hub, post_bind, post_at_hub.
  apply post_bind. eapply post_mono; [apply reconcile_instances_records|]. intros [[]|e| |] [h3 k3] Ho; [|by destruct Ho..].
  destruct Ho as [Ek E3]. cbn [fst snd] in Ek, E3. subst k3.
  assert (records h3 = add_parts cfg (cache k2) (fold_left (overlay_name cfg) networks None) l
    (mkRecords (Neigh.ResetInfos (neighV4Manager h)) (Neigh.ResetInfos (neighV6Manager h)) (Addr.ResetInfos (addrV4Manager h)) ∅)) as ER.
  { rewrite E3. f_equal. injection E2 as F4 F6 Fa Fi. unfold records. cbn. by rewrite F4, F6, Fa. }
  clear E1 E2 E3. unfold sync_families, sync_neighs, sync_addresses, sync_bgp_ips. apply post_bind, post_bind, post_sync_hub; try done.
  intros [] k4 S4. apply post_bind, post_wrap, post_on_k. unfold post at 1.
  destruct (CheckIPv6GlobalDisabled k4) as [[disabled|e| |] k5] eqn:Ed; cbn [fst snd]; [|done..].
  eapply (post_mono _ _ (λ o s', s'.1 = h3 ∧ match o with
    | Ret _ => if disabled then s'.2 = k5 else SyncNeighs (neighV6Manager h3) k5 = (Ret tt, s'.2)
    | _ => True end)).
  { destruct disabled; [by apply post_ret|]. apply post_sync_hub; try done. by intros [] k6 S6. }
  intros [[]|e| |] [h4 k6] [Eh S6]; cbn [fst snd] in *; subst h4; [|done..].
  apply post_bind, post_sync_hub; try done. intros [] k7 S7.
  apply post_bind, post_sync_hub; try done. intros [] k8 S8.
  unfold iptablesSyncTrigger. apply post_at_hub. exists networks, l, k2, k4, k5, k6, k7, disabled. cbv zeta. split; [done|]. split; [done|].
  split; [exact ER|]. by split_and!.
Qed.

(** ** A node that starts

    The cluster of [IPTablesCluster] on a kernel that does what it is asked
    to. *)

Definition w_link (name : string) : Link := mkLink 7 name "vxlan" [] false 0 0 None 0.
#[local] Instance w_netlink : Netlink Sys := {|
  NewRule := mkRule None None 0 (-1) 0 (-1) (-1) "" ""; EEXIST := errors_New "file exists";
  LinkByName name := mret (w_link name); LinkByIndex _ := mret (w_link "eth0.vxlan4"); LinkList := mret []; LinkAdd := mret;
  LinkAddVeth _ _ _ := mret tt; LinkSetNsFd _ _ := mret tt; LinkDel _ := mret tt; LinkSetUp _ := mret tt; LinkSetDown _ := mret tt;
  LinkSetHardwareAddr _ _ := mret tt; LinkSetMTU _ _ := mret tt; LinkSetName _ _ := mret tt;
  AddrList _ f := mret (if f =? FAMILY_V4 then [mkAddr (mkIPNet [192; 168; 0; 9] [255; 255; 255; 0]) "" 0] else []);
  AddrAdd _ _ := mret tt; AddrDel _ _ := mret tt; RouteList _ _ := mret []; RouteListFiltered _ _ _ := mret []; RouteAdd _ := mret tt;
  RouteReplace _ := mret tt; RouteDel _ := mret tt; RuleList _ := mret []; RuleAdd _ := mret tt; RuleDel _ := mret tt;
  NeighList _ _ := mret []; NeighProxyList _ _ := mret []; NeighAdd _ := mret tt; NeighAppend _ := mret tt; NeighSet _ := mret tt;
  NeighDel _ := mret tt
|}.
#[local] Instance w_netpkg : NetPkg Sys := {|
  InterfaceByName name := mret (mkInterface 7 name [] 1500); InterfaceByIndex i := mret (mkInterface i "eth0" [] 1500); Interfaces := mret []
|}.
#[local] Instance w_cnihost : CNIHost Sys := {|
  EnableIP4Forward := mret tt; EnableIP6Forward := mret tt; DelLinkByName _ := mret tt; ErrLinkNotFound := errors_New "Link not found";
  GetVethPeerIfindex _ := mret (0, None); SettleAddresses _ _ := mret tt; Sysctl _ := mret ""; Sysctl_write _ _ := mret tt;
  GetNS := mret; GetCurrentNS := mret 0; NS_Do A _ m := m; PROCFS_MAGIC := 0; NSFS_MAGIC := 0
|}.
#[local] Instance w_bgpserver : BgpServer Sys := {|
  StartBgp _ _ := mret tt; AddPeer _ := mret tt; DeletePeer _ := mret tt; ListPeer := mret []; AddPath _ := mret tt;
  DeletePath _ := mret tt; ListPath _ := mret []
|}.
#[local] Instance w_map_order : MapOrder := {| map_range A site m := map_to_list m; map_range_perm A site m := reflexivity _ |}.
#[local] Instance w_ip_network : CNINetwork := {| ip_Network n := n |}.
#[local] Existing Instance cni_concrete.
#[local] Existing Instance ipaddr_concrete.
#[local] Existing Instance strsets_concrete.
#[local] Instance w_settings : Settings := {|
  DualStackEnabled := true; MultiClusterEnabled := true; DEFAULT_IP_FAMILY := ""; DEFAULT_NETWORK_TYPE := "";
  DefaultIPRetain := true; StatefulWorkloadKinds := []
|}.

(** The instances of a pod of both families, one more that is reserved. *)
Definition w_pod_address (version ip phase : string) : V1IPInstance :=
  mkV1IPInstance (blank_meta ip) (mkIPInstanceSpec "overlay" "subnet" (mkAddress version ip "" (Some 4) ""))
    (mkIPInstanceStatus "node1" phase "" "" "").
Definition w_reader : Reader := {|
  r_GetNetwork := r_GetNetwork w_cluster; r_ListNetworks := r_ListNetworks w_cluster; r_ListNetworksByNode := r_ListNetworksByNode w_cluster;
  r_GetSubnet := r_GetSubnet w_cluster; r_ListSubnets := r_ListSubnets w_cluster; r_GetIPInstance := r_GetIPInstance w_cluster;
  r_ListIPInstances _ := Ret [w_pod_address "4" "10.14.0.2/16" "Using"; w_pod_address "6" "fd14::2/64" "Using";
    w_pod_address "4" "10.14.0.3/16" "Reserved"];
  r_GetPod := r_GetPod w_cluster; r_GetNode _ := Ret (w_node "node1" "192.168.0.9");
  r_ListNodes := r_ListNodes w_cluster; r_GetNamespace := r_GetNamespace w_cluster; r_ListRemoteSubnets := r_ListRemoteSubnets w_cluster;
  r_ListRemoteVteps := r_ListRemoteVteps w_cluster; r_ListRemoteClusters := r_ListRemoteClusters w_cluster;
  r_GetRemoteCluster := r_GetRemoteCluster w_cluster
|}.
#[local] Instance w_kube : Kube Sys := {|
  cache _ := w_reader; api_reader _ := w_reader; RawPatch_Node _ _ := mret tt; UpdateStatus_IPInstance _ := mret tt
|}.

Definition w_ParseIPNet (s : string) : outcome IPNet :=
  match ParseCIDR s with
  | Some (ip, n) => Ret (mkIPNet ip (IPNet_Mask n))
  | None => Fail (Errorf "invalid CIDR address: %v" [s])
  end.

Lemma w_parses : parses w_ParseIPNet.
Proof. intros s c. unfold w_ParseIPNet. destruct (ParseCIDR s) as [[ip n]|]; [|done]. intros [= <-]. by eexists _, _. Qed.

(** Concrete ranges by computation. *)
Lemma cidr_ok_eval version start stop cidr gateway reserved excluded ip n l :
  ParseCIDR cidr = Some (ip, n) →
  IPNet_Mask n = cidr_bytes (if decide (To4 ip = []) then 16 else 4) l → 0 ≤ l < bits ip →
  net_family (mkIPNet ip (IPNet_Mask n)) = family_of (is_v6 version) →
  cidr_ok (mkAddressRange version start stop cidr gateway reserved excluded).
Proof.
  intros E Hm Hl Hf ip' n'. cbn. rewrite E. intros [= <- <-]. pose proof (ParseCIDR_valid _ _ _ E) as [Hv _].
  split; [|done]. exists l. split; [split; cbn; [done|done|lia]|cbn; lia].
Qed.

#[local] Instance w_cached_objects : CachedObjects (K := Sys).
Proof.
  split; [intros k l s|intros k l s|intros k o l s]; intros [= <-] Hs; cbn in Hs;
    repeat (apply elem_of_cons in Hs as [->|Hs]; [|try by apply elem_of_nil in Hs]).
  - by eapply (cidr_ok_eval "4" _ _ "10.14.0.0/16" _ _ _ _ _ 16); vm_compute.
  - by eapply (cidr_ok_eval "6" _ _ "fd14::/64" _ _ _ _ _ 64); vm_compute.
  - by eapply (cidr_ok_eval "4" _ _ "10.15.0.0/16" _ _ _ _ _ 16); vm_compute.
  - intros ip n E. vm_compute in E. by injection E as <- _.
  - intros ip n E. vm_compute in E. by injection E as <- _.
  - intros ip n E. vm_compute in E. by injection E as <- _.
Defined.

(** The sources start, every controller reconciles, and iptables follows. *)
Abbreviation w_step := (daemon_step w_ParseIPNet w_cfg (λ x, x)).
Definition w_handlers : list (M (Hub * Sys) unit) := [
  start_subnet_source; start_instance_source; start_node_source;
  Subnet_Reconcile w_ParseIPNet w_cfg; DaemonIPInstance_Reconcile w_cfg; DaemonNode_Reconcile w_cfg (λ x, x); iptables_round w_cfg
].

Fixpoint after {S} (ms : list (M S unit)) (s : S) : S := match ms with [] => s | m :: ms => after ms (m s).2 end.
Fixpoint all_end {S} (ms : list (M S unit)) (s : S) : bool :=
  match ms with [] => true | m :: ms => (match (m s).1 with Ret _ | Fail _ => true | _ => false end) && all_end ms (m s).2 end.

Lemma after_rtc {S} (R : relation S) ms s :
  all_end ms s = true → (∀ m s s', m ∈ ms → runs m s s' → R s s') → rtc R s (after ms s).
Proof.
  revert s. induction ms as [|m ms IH]; intros s Ho Hm; cbn [after]; [done|]. cbn [all_end] in Ho. apply andb_prop in Ho as [Ho Hms].
  eapply rtc_l; [|apply IH; [done|intros m' s1 s2 Hin; apply Hm; by right]].
  apply (Hm m); [by left|]. exists (m s).1. split; [apply surjective_pairing|by destruct (m s).1].
Qed.

Definition w_init : Hub * Sys := match NewCtrlHub w_cfg w_system with (Ret h, k) => (h, k) | (_, k) => (w_hub, k) end.
Definition w_final : Hub * Sys := after w_handlers w_init.

(** No address of the parent link is one for VTEPs: the reconciliation of the
    nodes fails. *)
Lemma daemon_invariant_witness :
  let h := w_final.1 in
  hub_inv (T := CachedObjects (K := Sys)) w_cfg h ∧ routes_wf (hub_route true h) ∧ started h ∧
  map fst (map_to_list (localTotalSubnetInfoMap (hub_route false h))) = ["10.14.0.0/16"] ∧
  map fst (map_to_list (localTotalSubnetInfoMap (hub_route true h))) = ["fd14::/64"] ∧
  map (λ x, (x.1, map fst (map_to_list x.2))) (map_to_list (interfaceToIPSliceMap (hub_neigh true h))) = [("eth0.vxlan4", ["fd14::2"])] ∧
  (on_link_update true "eth1" w_final).1 = Ret tt.
Proof.
  assert (NewCtrlHub w_cfg w_system = (Ret w_init.1, w_init.2)) as E by (vm_compute; reflexivity).
  assert (rtc w_step (w_init.1, w_init.2) w_final) as Hs.
  { rewrite <-surjective_pairing. apply after_rtc; [vm_compute; reflexivity|]. intros m s s' Hm.
    unfold w_handlers in Hm. repeat (apply elem_of_cons in Hm as [->|Hm]); [by constructor..|by apply elem_of_nil in Hm]. }
  assert (started w_final.1) as Hst by (split_and!; vm_compute; by eexists).
  destruct (daemon_invariant w_ParseIPNet w_cfg (λ x, x) w_system w_init.2 w_init.1 w_final w_parses E Hs) as [Hi Hlater].
  destruct (Hlater w_final (rtc_refl _ _)) as [_ Hev].
  cbv zeta. split; [exact Hi|]. split; [exact (ri_wf _ _ _ (hi_route _ _ Hi true) w_cached_objects)|]. split; [exact Hst|]. do 3 (split; [vm_compute; reflexivity|]). exact (proj1 (Hev Hst true "eth1" [])).
Defined.

Lemma instances_recorded_witness :
  let c := DaemonIPInstance_Reconcile w_cfg w_init in
  let names m := map (λ x, (x.1, map fst (map_to_list x.2))) (map_to_list (interfaceToIPSliceMap m)) in
  c.1 = Ret tt ∧ names (neighV4Manager c.2.1) = [("eth0.vxlan4", ["10.14.0.2"])] ∧
  names (neighV6Manager c.2.1) = [("eth0.vxlan4", ["fd14::2"])] ∧ iptablesSyncCh c.2.1 = true ∧
  ∃ k1 l, r_ListIPInstances (cache k1) (mkListOptions None {[LabelNode := "node1"]}) = Ret l ∧
    rec_v4 (records c.2.1) = Neigh.record_all (flat_map (neigh_part w_cfg (cache k1) (Some "eth0.vxlan4") false) l)
      (Neigh.ResetInfos (neighV4Manager w_init.1)).
Proof.
  pose proof (instances_recorded w_cfg w_init.1 w_init.2) as Hp. cbv zeta. rewrite <-(surjective_pairing w_init) in Hp.
  unfold post in Hp. set (c := DaemonIPInstance_Reconcile w_cfg w_init) in *.
  assert (c.1 = Ret tt) as E by (vm_compute; reflexivity). rewrite E in Hp. destruct Hp as (networks & l & k1 & k2 & k3 & k4 & k5 & disabled & En & El & ER & _ & _ & _ & _ & _ & Hc).
  split; [exact E|]. split; [vm_compute; reflexivity|]. split; [vm_compute; reflexivity|]. split; [exact Hc|].
  exists k1, l. split; [exact El|]. rewrite ER. injection En as <-. reflexivity.
Defined.
