(* ===== verification/DaemonServer.v ===== *)
(** * The server that the CNI plugin calls (pkg/daemon/server, pkg/request)

    A handler gives a status and a response; reading a request and writing a
    response is go-restful's.  Sleeps and logs are left out. *)

From Stdlib Require Import Ascii.
From stdpp Require Import pretty.
From S2P Require Import Prelude GoNet GoStrings NetText NetworkingV1 Kubernetes KubeClient Store IPSet IPTables ARP NDP BGP Neigh Netlink DaemonUtils ContainerNetwork DaemonConfig CtrlHub.

Local Open Scope Z_scope.

Record PodRequest := mkPodRequest { pr_PodName : string; pr_PodNamespace : string; pr_ContainerID : string; pr_NetNs : string }.
Record IPAddress := mkIPAddress { ia_IP : string; ia_Mac : string; ia_Gateway : string; ia_Protocol : string }.
(** An error is given by its text; none is [None]. *)
Record PodResponse := mkPodResponse { pr_IPAddress : list IPAddress; pr_HostInterface : string; pr_Err : option error }.

Definition StatusOK : Z := 200.
Definition StatusNoContent : Z := 204.
Definition StatusBadRequest : Z := 400.
Definition StatusInternalServerError : Z := 500.

Definition errorWrapper (err : error) (status : Z) : Z * PodResponse := (status, mkPodResponse [] "" (Some err)).

Definition printAllocatedIPs (allocatedIPs : allocated) : string :=
  let text version := match allocatedIPs !! version with
                      | Some info => if decide (ii_Addr info = []) then None else Some (IP_String (ii_Addr info))
                      | None => None
                      end in
  match text IPVersion4, text IPVersion6 with
  | Some a, Some b => a +:+ "/" +:+ b
  | Some a, None | None, Some a => a
  | None, None => ""
  end.

(** ** The addresses of a pod *)

(** What the loop over the instances has found. *)
Record Found := mkFound {
  fo_netID : option Z;
  fo_macAddr : string;
  fo_allocatedIPs : allocated;
  fo_networkName : string;
  fo_returnIPAddress : list IPAddress;
  fo_affected : nat
}.

(** The pointers to the net IDs differ; the numbers are compared. *)
Definition net_ids_differ (netID : option Z) (instance_netID : option Z) : outcome bool :=
  match netID with
  | None => Ret false
  | Some a => b ← deref instance_netID; Ret (negb (a =? b))
  end.

Definition same_mac_and_net (pod : PodRequest) (f : Found) (address : Address) : outcome (option Z * string) :=
  if decide (fo_netID f = None ∧ fo_macAddr f = "") then Ret (ad_NetID address, ad_MAC address)
  else
    differ ← net_ids_differ (fo_netID f) (ad_NetID address);
    if differ || negb (bool_decide (fo_macAddr f = ad_MAC address)) then
      Fail (Errorf "mac and netId for all ip instances of pod %v/%v should be the same" [pr_PodNamespace pod; pr_PodName pod])
    else Ret (fo_netID f, fo_macAddr f).

Definition add_address (pod : PodRequest) (f : Found) (ipInstance : V1IPInstance) : outcome Found :=
  let address := is_Address (vi_Spec ipInstance) in
  let names := [pr_PodNamespace pod; pr_PodName pod] in
  if negb (bool_decide (ist_PodName (vi_Status ipInstance) = pr_PodName pod)
           && bool_decide (ist_PodNamespace (vi_Status ipInstance) = pr_PodNamespace pod)) then Ret f
  else
    ids ← same_mac_and_net pod f address;
    match ParseCIDR (ad_IP address) with
    | None => Fail (Errorf "failed to parse ip address %v to cidr: %v" [ad_IP address])
    | Some (containerIP, cidrNet) =>
        let version := ad_Version address in
        (if decide (version = IPVersion4) then
           if decide (is_Some (fo_allocatedIPs f !! IPVersion4)) then
             Fail (Errorf "only one ipv4 address for each pod are supported, %v/%v" names)
           else Ret tt
         else if decide (version = IPVersion6) then
           if decide (is_Some (fo_allocatedIPs f !! IPVersion6)) then
             Fail (Errorf "only one ipv6 address for each pod are supported, %v/%v" names)
           else Ret tt
         else Fail (Errorf "unsupported ip version %v for pod %v/%v" (version :: names)));;
        let currentNetworkName := is_Network (vi_Spec ipInstance) in
        let allocatedIPs := <[version := mkIPInfo containerIP (ParseIP (ad_Gateway address)) (Some cidrNet)]> (fo_allocatedIPs f) in
        if negb (bool_decide (fo_networkName f = "")) && negb (bool_decide (fo_networkName f = currentNetworkName)) then
          Fail (Errorf "found different networks %v/%v for pod %v/%v" (currentNetworkName :: fo_networkName f :: names))
        else
          Ret (mkFound ids.1 ids.2 allocatedIPs (if decide (fo_networkName f = "") then currentNetworkName else fo_networkName f)
                 (fo_returnIPAddress f ++ [mkIPAddress (ad_IP address) (ad_MAC address) (ad_Gateway address) version])
                 (S (fo_affected f)))
    end.

Definition with_sandbox (containerID : string) (i : V1IPInstance) : V1IPInstance :=
  let s := vi_Status i in
  vi_set_Status (mkIPInstanceStatus (ist_NodeName s) (ist_Phase s) (ist_PodName s) (ist_PodNamespace s) containerID) i.

Section server.
Context {K : Type} `{Kube K} `{Netlink K} `{OS K} `{NetPkg K} `{CNIHost K} `{BgpServer K} `{Sockets K} `{Ethernet} `{NDPLib} `{Sha1}.
Variable cfg : Configuration.

(** ** container.go *)

Definition deleteContainerNic (netns : string) : M K unit :=
  handler ← wrap (Wrapf "get ns error: %v" []) (GetNS netns);
  NS_Do handler (
    deleted ← attempt (DelLinkByName ContainerNicName);
    match deleted with
    | inl _ => mret tt
    | inr err => if decide (err = ErrLinkNotFound) then mret tt else fail err
    end).

Definition deleteNic (netns : string) : M K unit := deleteContainerNic netns.

Definition create_veth (path podName hostNicName containerNicName : string) (mtu hostNS : Z) : M K unit :=
  wrap (Wrapf "failed to create veth pair in netns %v for pod %v: %v" [path; podName]) (LinkAddVeth hostNicName containerNicName mtu);;
  containerHostLink ← wrap (Wrapf "can not find container host nic %s in netns %v: %v" [hostNicName; path]) (LinkByName hostNicName);
  wrap (Wrapf "failed to set link %v to host netns: %v" [hostNicName]) (LinkSetNsFd containerHostLink hostNS).

(** The names in the container and on the host, and the namespace. *)
Definition initContainerNic (podName podNamespace netns : string) (mtu : Z) : M K (string * string * string) :=
  podNS ← wrap (Wrapf "failed to open netns %q: %v" [netns]) (GetNS netns);
  hostNS ← wrap (Wrapf "failed to get host namespace: %v" []) GetCurrentNS;
  let '(hostNicName, containerNicName) := GenerateContainerVethPair podNamespace podName in
  wrap (Wrapf "failed to generate veth pair for pod %v: %v" [podName])
    (NS_Do podNS (create_veth podNS podName hostNicName containerNicName mtu hostNS));;
  mret (containerNicName, hostNicName, podNS).

Definition mode_nic (networkMode : string) : Z * string :=
  if decide (networkMode = NetworkModeVlan) then (VlanMTU cfg, NodeVlanIfName cfg)
  else if decide (networkMode = NetworkModeVxlan) then (VxlanMTU cfg, NodeVxlanIfName cfg)
  else if decide (networkMode = NetworkModeBGP) then (BGPMTU cfg, NodeBGPIfName cfg)
  else (0, "").

Definition configureNic (podName podNamespace netns mac : string) (netID : option Z) (allocatedIPs : allocated)
    (networkMode : string) : M K string :=
  let '(mtu, nodeIfName) := mode_nic networkMode in
  macAddr ← wrap (Wrapf "failed to parse mac %s %v" []) (lift (ParseMAC mac));
  nics ← wrap (Wrapf "failed to init container nic for pod %v: %v" [podName]) (initContainerNic podName podNamespace netns mtu);
  let '(containerNicName, hostNicName, podNS) := nics in
  on_error (deleteContainerNic netns) (
    wrap (Wrapf "failed to configure host nic for %v.%v: %v" [podName; podNamespace])
      (ConfigureHostNic hostNicName allocatedIPs (LocalDirectTableNum cfg));;
    wrap (Wrapf "failed to configure container nic for %v.%v: %v" [podName; podNamespace])
      (ConfigureContainerNic containerNicName hostNicName nodeIfName allocatedIPs macAddr netID podNS mtu networkMode
         (mkThresholds (NeighGCThresh1 cfg) (NeighGCThresh2 cfg) (NeighGCThresh3 cfg))));;
  mret hostNicName.

(** ** handle.go *)

(** [n] rounds after this one. *)
Fixpoint wait_coupled (n : nat) (pod : PodRequest) : M K unit :=
  k ← get;
  p ← wrap (Wrapf "failed to get pod %v/%v: %v" [pr_PodName pod; pr_PodNamespace pod])
    (lift (r_GetPod (api_reader k) (pr_PodNamespace pod) (pr_PodName pod)));
  match om_Annotations (pod_Meta p) !! AnnotationIP, n with
  | Some _, _ => mret tt
  | None, O => fail (Errorf "failed to wait for pod %v/%v be coupled with ip: %v" [pr_PodName pod; pr_PodNamespace pod])
  | None, S n => wait_coupled n pod
  end.

Definition list_of_pod (pod : PodRequest) : M K (list V1IPInstance) :=
  wait_coupled 10 pod;;
  wrap (Wrapf "failed to list ip instance for pod %v: %v" [NodeName cfg])
    (from_cache (λ r, r_ListIPInstances r (mkListOptions None (<[LabelNode := NodeName cfg]> {[LabelPod := pr_PodName pod]})))).

(** The pointers to the instances of the pod are all the pointer to the
    variable of the loop, which holds the last instance of the list. *)
Definition update_sandboxes (pod : PodRequest) (items : list V1IPInstance) (affected : nat) : M K unit :=
  each (λ ip, wrap (Wrapf "failed to update IPInstance crd for %s, %v" [om_Name (vi_Meta ip)])
    (UpdateStatus_IPInstance (with_sandbox (pr_ContainerID pod) ip)))
    (match last items with Some ip => replicate affected ip | None => [] end).

Definition add_pod (pod : PodRequest) (items : list V1IPInstance) : M K PodResponse :=
  f ← lift (for_each (add_address pod) (mkFound None "" ∅ "" [] 0) items);
  if decide (fo_macAddr f = "" ∨ fo_netID f = None) then
    fail (Errorf "no available ip for pod %s/%s" [pr_PodNamespace pod; pr_PodName pod])
  else
    network ← wrap (λ _, Errorf "cannot get network %v" [fo_networkName f]) (from_cache (λ r, r_GetNetwork r (fo_networkName f)));
    networkMode ← lift (GetNetworkMode (Some network));
    hostInterface ← wrap (Wrapf "failed to configure nic: %v" [])
      (configureNic (pr_PodName pod) (pr_PodNamespace pod) (pr_NetNs pod) (fo_macAddr f) (fo_netID f) (fo_allocatedIPs f) networkMode);
    update_sandboxes pod items (fo_affected f);;
    mret (mkPodResponse (fo_returnIPAddress f) hostInterface None).

(** [req]: what is read of the request, or the error. *)
Definition handleAdd (req : PodRequest + error) : M K (Z * PodResponse) :=
  match req with
  | inr err => mret (errorWrapper (Wrapf "failed to parse add request: %v" [] err) StatusBadRequest)
  | inl pod =>
      listed ← attempt (list_of_pod pod);
      match listed with
      | inr err => mret (errorWrapper err StatusBadRequest)
      | inl items =>
          added ← attempt (add_pod pod items);
          mret (match added with inr err => errorWrapper err StatusInternalServerError | inl resp => (StatusOK, resp) end)
      end
  end.

Definition handleDel (req : PodRequest + error) : M K (Z * PodResponse) :=
  match req with
  | inr err => mret (errorWrapper (Wrapf "failed to parse del request: %v" [] err) StatusBadRequest)
  | inl pod =>
      deleted ← attempt (deleteNic (pr_NetNs pod));
      mret (match deleted with
            | inr err => errorWrapper (Wrapf "failed to del container nic for %s: %v" [pr_PodName pod +:+ "." +:+ pr_PodNamespace pod] err)
                           StatusInternalServerError
            | inl _ => (StatusNoContent, mkPodResponse [] "" None)
            end)
  end.
End server.
