(* ===== verification/CNI.v ===== *)
(** * The CNI plugin (cmd/cni/cni.go, pkg/request/daemon.go)

    The plugin asks the daemon over its socket: [post] is gorequest's, given
    the socket, the address and the request; it gives a status and the
    response that was decoded, or an error.  [load_netconf] decodes the
    configuration of the plugin: the path of the socket and the version. *)

From Stdlib Require Import Ascii.
From stdpp Require Import pretty.
From S2P Require Import Prelude GoNet GoStrings NetworkingV1 Store Netlink DaemonUtils ContainerNetwork DaemonServer.

Local Open Scope Z_scope.

Class CNIEnv (K : Type) : Type := {
  post : string → string → PodRequest → M K (Z * PodResponse);
  load_netconf : string → outcome (string * string)
}.

Record CmdArgs := mkCmdArgs { ca_ContainerID : string; ca_Netns : string; ca_Args : string; ca_StdinData : string }.

(** The result for the runtime, with the name and the MAC of the interface. *)
Record Output := mkOutput {
  out_CNIVersion : string; out_IPs : list IPConfig; out_Routes : list CNIRoute; out_Interface : string * string
}.

Definition AddURL : string := "http://dummy/api/v1/add".
Definition DelURL : string := "http://dummy/api/v1/del".

Definition TrimPrefix (s pre : string) : string :=
  if HasPrefix s pre then String.substring (String.length pre) (String.length s - String.length pre) s else s.

Fixpoint find_value (key : string) (args : list string) : option string :=
  match args with
  | [] => None
  | arg :: args =>
      let pre := key +:+ "=" in
      if HasPrefix arg pre && negb (bool_decide (TrimPrefix arg pre = "")) then Some (TrimPrefix arg pre) else find_value key args
  end.

Definition parseValueFromArgs (key argString : string) : outcome string :=
  if decide (argString = "") then Fail (errors_New "CNI_ARGS is required")
  else
    match find_value key (Split argString ";") with
    | Some v => Ret v
    | None => Fail (Errorf "%s is required in CNI_ARGS" [key])
    end.

(** An address that cannot be parsed gives a nil network. *)
Definition cni_address (address : IPAddress) : outcome (IPConfig * CNIRoute) :=
  let parsed := ParseCIDR (ia_IP address) in
  let ipAddr := match parsed with Some (a, _) => a | None => [] end in
  let gateway := ParseIP (ia_Gateway address) in
  if decide (ia_Protocol address = IPVersion4) then
    mask ← deref (snd <$> parsed);
    Ret (mkIPConfig "4" None (mkIPNet (To4 ipAddr) (IPNet_Mask mask)) gateway,
         mkCNIRoute (mkIPNet (To4 (ParseIP "0.0.0.0")) (CIDRMask 0 32)) gateway)
  else if decide (ia_Protocol address = IPVersion6) then
    mask ← deref (snd <$> parsed);
    Ret (mkIPConfig "6" None (mkIPNet (To16 ipAddr) (IPNet_Mask mask)) gateway,
         mkCNIRoute (mkIPNet (To16 (ParseIP "::")) (CIDRMask 0 128)) gateway)
  else Ret (mkIPConfig "" None (mkIPNet [] []) [], mkCNIRoute (mkIPNet [] []) []).

Definition add_cni_address (l : list (IPConfig * CNIRoute)) (address : IPAddress) : outcome (list (IPConfig * CNIRoute)) :=
  c ← cni_address address; Ret (l ++ [c]).

Section cni.
Context {K : Type} `{Netlink K} `{CNIEnv K}.

Definition generateCNIResult (cniVersion : string) (cniResponse : PodResponse) : M K Output :=
  l ← lift (for_each add_cni_address [] (pr_IPAddress cniResponse));
  hostVeth ← wrap (Wrapf "failed to lookup host veth %q: %v" [pr_HostInterface cniResponse]) (LinkByName (pr_HostInterface cniResponse));
  mret (mkOutput cniVersion (map fst l) (map snd l) (link_Name hostVeth, HardwareAddr_String (link_HardwareAddr hostVeth))).

(** ** pkg/request *)

Definition client_Add (socket : string) (podRequest : PodRequest) : M K PodResponse :=
  res ← post socket AddURL podRequest;
  if res.1 =? 200 then mret res.2 else fail (Errorf "request ip return %d %s" [pretty res.1]).

Definition client_Del (socket : string) (podRequest : PodRequest) : M K unit :=
  res ← post socket DelURL podRequest;
  if res.1 =? 204 then mret tt else fail (Errorf "delete ip return %d %s" [pretty res.1]).

(** ** cni.go *)

Definition loadNetConf (bytes : string) : outcome (string * string) :=
  n ← wrap_outcome (Wrapf "failed to load netconf: %v" []) (load_netconf bytes);
  if decide (n.1 = "") then Fail (Errorf "server_socket is required in cni.conf" []) else Ret n.

Definition pod_request (args : CmdArgs) : outcome PodRequest :=
  podName ← parseValueFromArgs "K8S_POD_NAME" (ca_Args args);
  podNamespace ← parseValueFromArgs "K8S_POD_NAMESPACE" (ca_Args args);
  Ret (mkPodRequest podName podNamespace (ca_ContainerID args) (ca_Netns args)).

Definition cmdCheck (args : CmdArgs) : M K unit := mret tt.

Definition cmdAdd (args : CmdArgs) : M K Output :=
  netConf ← lift (loadNetConf (ca_StdinData args));
  podRequest ← lift (pod_request args);
  response ← client_Add netConf.1 podRequest;
  wrap (Wrapf "generate cni result failed: %v" []) (generateCNIResult netConf.2 response).

Definition cmdDel (args : CmdArgs) : M K unit :=
  netConf ← lift (loadNetConf (ca_StdinData args));
  podRequest ← lift (pod_request args);
  client_Del netConf.1 podRequest.
End cni.
