(* ===== verification/DaemonProperties.v ===== *)
(** * Properties of single steps of the daemon

    The proxy neighbours after a synchronisation, and what some steps of the
    managers, the controllers and the server do on inputs that occur. *)

From Stdlib Require Import Ascii.
From stdpp Require Import pretty.
From S2P Require Import Prelude GoNet GoStrings NetText CNIPlugins NetworkingV1 MulticlusterV1 Kubernetes Utils KubeClient Store IPRange IPSet Netlink DaemonUtils Route DaemonConfig CtrlHub DaemonServer RouteSync Neigh.

Local Open Scope Z_scope.

(** ** The rules of BGP subnets

    The table of a BGP subnet has the default route alone, whose link is no
    vxlan link: the rule is not recognised and stays when the subnet goes. *)
Lemma bgp_rule_unrecognised {K} `{Netlink K} (route : Route) (link : Link) (k k' : K) :
  rt_Dst route = None → isExcludeRoute route = false →
  LinkByIndex (rt_LinkIndex route) k = (Ret link, k') → Contains (link_Name link) VxlanLinkInfix = false →
  pod_subnet_route [route] (length [route]) k = (Ret false, k').
Proof.
  intros Hd He Hl Hn. cbn [pod_subnet_route]. rewrite He. unfold mbind, M_bind, wrap. rewrite Hl. cbn. rewrite Hd, Hn. done.
Qed.

Section daemon.
Context {K : Type} `{Kube K} `{CNIPlugins} `{StrSets}.

(** ** Several remote VTEPs with one endpoint

    The range that is made of the address has no version, so that no subnet
    with a version intersects it, and the choice is always an error. *)
Lemma any_holds_versioned address l :
  Forall (λ s, ar_Version (rs_Range (rs_Spec s)) ≠ "") l → any_holds address l ≠ Ret true.
Proof.
  induction 1 as [|s l Hs _ IH]; cbn; [done|]. unfold holds_address. destruct (snd <$> ParseCIDR _) as [c|]; [|done].
  cbn. destruct (negb (IPNet_Contains c address)); cbn; [exact IH|]. unfold Intersect. rewrite bool_decide_eq_false_2 by exact Hs. exact IH.
Qed.

Lemma ListRemoteSubnets_run name (k : K) :
  ListRemoteSubnetsOfCluster name k =
  (match r_ListRemoteSubnets (cache k) with
   | Ret l => Ret (List.filter (λ s, bool_decide (om_Labels (rs_Meta s) !! Mirror.LabelCluster = Some name)) l)
   | Fail e => Fail e
   | Panic => Panic
   | Diverge => Diverge
   end, k).
Proof.
  unfold ListRemoteSubnetsOfCluster, from_cache, mbind, M_bind, lift, get, mret, M_ret.
  by destruct (r_ListRemoteSubnets (cache k)).
Qed.

Lemma valid_vtep_versioned address l (k : K) :
  (∀ subnets, r_ListRemoteSubnets (cache k) = Ret subnets → Forall (λ s, ar_Version (rs_Range (rs_Spec s)) ≠ "") subnets) →
  ∀ v, (valid_vtep address l k).1 ≠ Ret (Some v).
Proof.
  intros Hk v. induction l as [|vtep l IH]; [done|]. cbn [valid_vtep].
  unfold mbind, M_bind, wrap, lift. rewrite ListRemoteSubnets_run.
  destruct (r_ListRemoteSubnets (cache k)) as [subnets|e| |]; [|done..]. cbn.
  match goal with |- context [any_holds address ?l'] => assert (any_holds address l' ≠ Ret true) as Hn end.
  { apply any_holds_versioned. specialize (Hk _ eq_refl). rewrite Forall_forall in *.
    intros s [Hs _]%list_elem_of_In%filter_In. by apply Hk, list_elem_of_In. }
  destruct (any_holds address _) as [[]|e| |]; done.
Qed.

(** ** The sandbox of a new pod

    Only the instance that was listed last is told the container, as often as
    there are addresses. *)
Lemma update_sandboxes_last pod items i n (k : K) :
  last items = Some i →
  update_sandboxes pod items n k = each (λ ip, wrap (Wrapf "failed to update IPInstance crd for %s, %v" [om_Name (vi_Meta ip)])
    (UpdateStatus_IPInstance (with_sandbox (pr_ContainerID pod) ip))) (replicate n i) k.
Proof. intros Hi. unfold update_sandboxes. by rewrite Hi. Qed.
End daemon.

(** ** Proxy neighbours

    What the kernel keeps: the proxies of a link and a family under the texts
    of their addresses, and the indexes of links. *)

Class NeighView (K : Type) : Type := {
  proxies : K → Z → Z → gmap string Neigh;
  if_index : K → string → option Z
}.

Section neigh_views.
Context {K : Type} `{NeighView K}.

Definition proxies_updated (i f : Z) (g : gmap string Neigh → gmap string Neigh) (k k' : K) : Prop :=
  (∀ i' f', proxies k' i' f' = if decide (i' = i ∧ f' = f) then g (proxies k i f) else proxies k i' f') ∧
  (∀ name, if_index k' name = if_index k name).
Definition proxies_same (k k' : K) : Prop :=
  (∀ i f, proxies k' i f = proxies k i f) ∧ (∀ name, if_index k' name = if_index k name).

Definition neigh_reads {A} (m : M K A) (k : K) (Q : A → Prop) : Prop :=
  post m k (λ o k', proxies_same k k' ∧ match o with Ret a => Q a | Fail _ => True | _ => False end).
Definition neigh_writes (i f : Z) (g : gmap string Neigh → gmap string Neigh) (m : M K unit) (k : K) : Prop :=
  post m k (λ o k', match o with Ret _ => proxies_updated i f g k k' | Fail _ => proxies_same k k' | _ => False end).
End neigh_views.

Class NeighLaws {K : Type} `{Netlink K} `{OS K} `{NeighView K} : Prop := {
  proxies_wf k i f t n : proxies k i f !! t = Some n → IP_String (nb_IP n) = t;
  NeighProxyList_law i f k : neigh_reads (NeighProxyList i f) k (λ l, l ≡ₚ map snd (map_to_list (proxies k i f)));
  NeighDel_law i f k t n : proxies k i f !! t = Some n → neigh_writes i f (delete t) (NeighDel n) k;
  NeighAdd_law i f k ip : ∃ n, IP_String (nb_IP n) = IP_String ip ∧
    neigh_writes i f <[IP_String ip := n]> (NeighAdd (mkNeigh i f 0 NTF_PROXY ip [] 0)) k;
  if_index_law name k : neigh_reads (LinkByName name) k (λ l, if_index k name = Some (link_Index l));
  if_index_inj k a b i : if_index k a = Some i → if_index k b = Some i → a = b;
  neigh_WriteFile path data k : neigh_reads (WriteFile path data) k (λ _, True)
}.

(** What is there of an address in the end: an entry that was wanted already
    stays as it is. *)
Definition proxy_ok (wanted : option netIP) (old new : option Neigh) : Prop :=
  match wanted with
  | None => new = None
  | Some _ => match old with Some _ => new = old | None => is_Some new end
  end.

Section sync.
Context {K : Type} `{Netlink K} `{OS K} `{NeighView K} {NL : NeighLaws} {MO : MapOrder}.

(** The tables other than one are as they were. *)
Definition elsewhere_same (i f : Z) (k k' : K) : Prop :=
  (∀ i' f', ¬ (i' = i ∧ f' = f) → proxies k' i' f' = proxies k i' f') ∧ (∀ name, if_index k' name = if_index k name).

Lemma elsewhere_same_refl i f k : elsewhere_same i f k k.
Proof. done. Qed.

Lemma elsewhere_proxies_same i f k k1 k2 : elsewhere_same i f k k1 → proxies_same k1 k2 → elsewhere_same i f k k2 ∧ proxies k2 i f = proxies k1 i f.
Proof. intros [P1 L1] [P2 L2]. split; [|apply P2]. split; [intros i' f' Hn; rewrite P2; by apply P1|intros n; by rewrite L2]. Qed.

Lemma elsewhere_written i f g k k1 k2 :
  elsewhere_same i f k k1 → proxies_updated i f g k1 k2 → elsewhere_same i f k k2 ∧ proxies k2 i f = g (proxies k1 i f).
Proof.
  intros [P1 L1] [P2 L2]. split; [|by rewrite P2, decide_True]. split; [|intros n; by rewrite L2].
  intros i' f' Hn. rewrite P2, decide_False by done. by apply P1.
Qed.

Lemma elsewhere_same_trans i f k1 k2 k3 : elsewhere_same i f k1 k2 → elsewhere_same i f k2 k3 → elsewhere_same i f k1 k3.
Proof. intros [P1 L1] [P2 L2]. split; [intros i' f' Hn; by rewrite P2, P1|intros n; by rewrite L2]. Qed.

Lemma proxies_same_trans k1 k2 k3 : proxies_same k1 k2 → proxies_same k2 k3 → proxies_same k1 k3.
Proof. intros [P1 L1] [P2 L2]. split; [intros i f; by rewrite P2|intros n; by rewrite L2]. Qed.

(** A write at one key. *)
Lemma neigh_step {X} (key : X → string) (x : X) i f g e m k k1 (P : X → option Neigh → option Neigh → Prop) :
  elsewhere_same i f k k1 → neigh_writes i f g m k1 →
  (∀ t, t ≠ key x → g (proxies k1 i f) !! t = proxies k1 i f !! t) →
  P x (proxies k1 i f !! key x) (g (proxies k1 i f) !! key x) →
  step_at False (λ k, proxies k i f) key (elsewhere_same i f k) P x (wrap e m) k1.
Proof.
  intros He Hw Hg HP. unfold neigh_writes in Hw. unfold step_at. apply post_wrap. eapply post_mono; [exact Hw|]. intros [[]|er| |] k2 Ho; [| |done..].
  - destruct (elsewhere_written _ _ _ _ _ _ He Ho) as [He2 E]. split_and!; [done| |]; rewrite E; [done|done].
  - destruct (elsewhere_proxies_same _ _ _ _ _ He Ho) as [He2 E]. split_and!; [done| |]; by rewrite E.
Qed.

Lemma skip_step {X} (key : X → string) (x : X) i f k k1 (P : X → option Neigh → option Neigh → Prop) :
  elsewhere_same i f k k1 → P x (proxies k1 i f !! key x) (proxies k1 i f !! key x) →
  step_at False (λ k, proxies k i f) key (elsewhere_same i f k) P x (mret tt) k1.
Proof. done. Qed.

Definition ips_wf (ips : gmap string netIP) : Prop := ∀ t x, ips !! t = Some x → IP_String x = t.

(** The loop over the proxies that are there. *)
Lemma delete_loop (ips : gmap string netIP) i f e l k :
  l ≡ₚ map snd (map_to_list (proxies k i f)) →
  post (each (λ neigh, match ips !! IP_String (nb_IP neigh) with
    | None => wrap (e neigh) (NeighDel neigh)
    | Some _ => mret tt
    end) l) k (λ o k', elsewhere_same i f k k' ∧ match o with
      | Ret _ => ∀ t, proxies k' i f !! t = match ips !! t with Some _ => proxies k i f !! t | None => None end
      | Fail _ => ∀ t, proxies k' i f !! t = proxies k i f !! t ∨ ips !! t = None ∧ proxies k' i f !! t = None
      | _ => False
      end).
Proof.
  intros Hl. set (key := λ n : Neigh, IP_String (nb_IP n)).
  assert (∀ n, n ∈ l ↔ ∃ t, proxies k i f !! t = Some n) as Hin.
  { intros n. rewrite Hl, list_elem_of_fmap. split.
    - intros ([t n'] & -> & Hn). apply elem_of_map_to_list in Hn. by exists t.
    - intros [t Ht]. exists (t, n). split; [done|by apply elem_of_map_to_list]. }
  assert (NoDup (map key l)) as Hnd.
  { assert (map key l ≡ₚ map fst (map_to_list (proxies k i f))) as ->; [|apply NoDup_fst_map_to_list].
    rewrite Hl. change (key <$> (snd <$> map_to_list (proxies k i f)) ≡ₚ fst <$> map_to_list (proxies k i f)).
    rewrite <-list_fmap_compose. apply Permutation_refl', list_fmap_ext. intros j [t n] Hj. cbn.
    by eapply proxies_wf, elem_of_map_to_list, list_elem_of_lookup_2. }
  set (P := λ (n : Neigh) (old new : option Neigh), match ips !! key n with Some _ => new = old | None => new = None end).
  eapply post_mono; [apply (each_keyed False (λ k, proxies k i f) key (elsewhere_same i f k) P _ l k Hnd (elsewhere_same_refl i f k))|].
  - intros n k1 Hn He E. destruct (ips !! IP_String (nb_IP n)) eqn:Ei.
    + apply skip_step; [done|]. unfold P, key. by rewrite Ei.
    + apply Hin in Hn as [t Ht]. pose proof (proxies_wf _ _ _ _ _ Ht) as Et. unfold key in E. rewrite Et, Ht in E.
      apply (neigh_step key n i f (delete t)); [done|by apply NeighDel_law| |].
      * intros t' Hne. apply lookup_delete_ne. unfold key in Hne. congruence.
      * unfold P, key. rewrite Ei, Et. apply lookup_delete_eq.
  - assert (∀ t, t ∉ map key l → proxies k i f !! t = None) as Hnot.
    { intros t Ht. destruct (proxies k i f !! t) as [n|] eqn:En; [|done]. exfalso. apply Ht.
      rewrite <-(proxies_wf _ _ _ _ _ En). apply (list_elem_of_fmap_2 key), Hin. by exists t. }
    assert (∀ t, t ∈ map key l → ∃ n, n ∈ l ∧ key n = t) as Hyes by (intros t (n & -> & Hn)%list_elem_of_fmap; by exists n).
    intros o k' (He & Ho & Hk). split; [done|]. destruct o as [[]|er| |]; [| |by destruct Hk|done]; intros t;
      (destruct (decide (t ∈ map key l)) as [Hd|Hd]; [apply Hyes in Hd as (n & Hn & <-)|]).
    + specialize (Hk n Hn). unfold P in Hk. by destruct (ips !! key n).
    + rewrite Ho, (Hnot t Hd) by done. by destruct (ips !! t).
    + destruct (Hk n Hn) as [->|Hp]; [by left|]. unfold P in Hp. destruct (ips !! key n); [by left|by right].
    + left. by apply Ho.
Qed.

(** The loop over the recorded addresses. *)
Lemma add_loop (ips : gmap string netIP) (existing : gset string) i f e k :
  ips_wf ips →
  post (each (λ kv, if decide (IP_String kv.2 ∈ existing) then mret tt
    else wrap (e kv) (NeighAdd (mkNeigh i f 0 NTF_PROXY kv.2 [] 0))) (map_range 0 ips)) k (λ o k', elsewhere_same i f k k' ∧ match o with
      | Ret _ => ∀ t, if decide (is_Some (ips !! t) ∧ t ∉ existing) then is_Some (proxies k' i f !! t) else proxies k' i f !! t = proxies k i f !! t
      | Fail _ => ∀ t, proxies k' i f !! t = proxies k i f !! t ∨ (is_Some (ips !! t) ∧ t ∉ existing) ∧ is_Some (proxies k' i f !! t)
      | _ => False
      end).
Proof.
  intros Hw. set (key := λ kv : string * netIP, IP_String kv.2).
  assert (∀ kv, kv ∈ map_range 0 ips ↔ ips !! kv.1 = Some kv.2) as Hin.
  { intros [t x]. rewrite map_range_perm. apply elem_of_map_to_list. }
  assert (∀ kv, kv ∈ map_range 0 ips → key kv = kv.1) as Hkey by (intros [t x] Hx%Hin; by apply Hw).
  assert (NoDup (map key (map_range 0 ips))) as Hnd.
  { assert (map key (map_range 0 ips) = map fst (map_range 0 ips)) as ->.
    { apply (list_fmap_ext key fst). intros j kv Hj. by eapply Hkey, list_elem_of_lookup_2. }
    change (NoDup (fst <$> map_range 0 ips)). rewrite map_range_perm. apply NoDup_fst_map_to_list. }
  set (P := λ (kv : string * netIP) (old new : option Neigh), if decide (key kv ∈ existing) then new = old else is_Some new).
  eapply post_mono; [apply (each_keyed False (λ k, proxies k i f) key (elsewhere_same i f k) P _ _ k Hnd (elsewhere_same_refl i f k))|].
  - intros kv k1 Hkv He E. case_decide as Hd.
    + apply skip_step; [done|]. unfold P. by rewrite decide_True.
    + destruct (NeighAdd_law i f k1 kv.2) as (n & Hn & Hadd). apply (neigh_step key kv i f <[IP_String kv.2 := n]>); [done|done| |].
      * intros t Ht. by apply lookup_insert_ne, not_eq_sym.
      * unfold P. rewrite decide_False by done. unfold key. rewrite lookup_insert_eq. by eexists.
  - assert (∀ t, t ∈ map key (map_range 0 ips) ↔ is_Some (ips !! t)) as Hdom.
    { intros t. split.
      - intros (kv & -> & Hkv)%list_elem_of_fmap. rewrite Hkey by done. apply Hin in Hkv. by eexists.
      - intros [x Hx]. assert ((t, x) ∈ map_range 0 ips) as Hkv by (by apply Hin). rewrite <-(Hkey _ Hkv : _ = t). by apply (list_elem_of_fmap_2 key). }
    assert (∀ t, is_Some (ips !! t) → ∃ kv, kv ∈ map_range 0 ips ∧ key kv = t) as Hyes.
    { intros t Ht%Hdom. apply list_elem_of_fmap in Ht as (kv & -> & Hkv). by exists kv. }
    intros o k' (He & Ho & Hk). split; [done|]. destruct o as [[]|er| |]; [| |by destruct Hk|done]; intros t.
    + case_decide as Hd; [destruct Hd as [Ht Hne]|].
      * destruct (Hyes t Ht) as (kv & Hkv & <-). specialize (Hk kv Hkv). unfold P in Hk. by rewrite decide_False in Hk.
      * destruct (ips !! t) eqn:Et; [|apply Ho; rewrite Hdom, Et; by intros [? ?]].
        destruct (Hyes t) as (kv & Hkv & <-); [by rewrite Et; eexists|]. specialize (Hk kv Hkv). unfold P in Hk.
        case_decide as Hx; [done|]. exfalso. apply Hd. split; [by eexists|done].
    + destruct (ips !! t) eqn:Et; [|left; apply Ho; rewrite Hdom, Et; by intros [? ?]].
      destruct (Hyes t) as (kv & Hkv & <-); [by rewrite Et; eexists|]. destruct (Hk kv Hkv) as [->|Hp]; [by left|].
      unfold P in Hp. case_decide as Hx; [by left|]. right. split; [split; [by eexists|done]|done].
Qed.

(** One interface. *)
Lemma sync_interface_post name ips f k :
  ips_wf ips →
  post (sync_interface f (name, ips)) k (λ o k', match o with
    | Ret _ => ∃ i, if_index k name = Some i ∧ elsewhere_same i f k k' ∧ ∀ t, proxy_ok (ips !! t) (proxies k i f !! t) (proxies k' i f !! t)
    | Fail _ => proxies_same k k' ∨ ∃ i, if_index k name = Some i ∧ elsewhere_same i f k k' ∧
        ∀ t, proxies k' i f !! t = proxies k i f !! t ∨ proxy_ok (ips !! t) (proxies k i f !! t) (proxies k' i f !! t)
    | _ => False
    end).
Proof.
  intros Hw. unfold sync_interface. apply post_bind, post_wrap. eapply post_mono; [apply if_index_law|].
  intros [link|e| |] k1 [S1 Hi]; [|by left|done..]. apply post_bind, post_wrap. eapply post_mono; [apply NeighProxyList_law|].
  intros [l|e| |] k2 [S2 Hl]; [|left; by eapply proxies_same_trans|done..]. set (i := link_Index link) in *.
  pose proof (proxies_same_trans _ _ _ S1 S2) as S12. apply post_bind.
  eapply (post_mono _ _ (λ o k3, proxies_same k2 k3 ∧ match o with Ret _ | Fail _ => True | _ => False end)).
  { destruct (f =? FAMILY_V6); [|by apply post_ret]. apply post_wrap. eapply post_mono; [apply neigh_WriteFile|]. by intros []. }
  intros [[]|e| |] k3 [S3 Ho]; [|left; by eapply proxies_same_trans|done..].
  pose proof (proxies_same_trans _ _ _ S12 S3) as S13. destruct (elsewhere_proxies_same i f k k k3 (elsewhere_same_refl _ _ _) S13) as [E3 T3].
  assert (if_index k name = Some i) as Hi' by done.
  assert (l ≡ₚ map snd (map_to_list (proxies k3 i f))) as Hl3 by (rewrite T3, <-(proj1 S1 i f); exact Hl).
  apply post_bind. eapply post_mono; [by apply delete_loop|]. intros [[]|e| |] k4 [E4 Hd]; [| |done..].
  2: { right. exists i. split; [done|]. split; [by eapply elsewhere_same_trans|]. intros t. rewrite <-T3. destruct (Hd t) as [->|[Hn Hz]]; [by left|].
       right. unfold proxy_ok. by rewrite Hn. }
  cbv zeta. set (existing := list_to_set _ : gset string).
  assert (∀ t, t ∈ existing ↔ is_Some (ips !! t) ∧ is_Some (proxies k i f !! t)) as Hex.
  { intros t. unfold existing. rewrite elem_of_list_to_set, list_elem_of_In, filter_In, bool_decide_eq_true, <-list_elem_of_In, list_elem_of_fmap.
    rewrite <-T3. split.
    - intros [(n & -> & Hn) Ht]. split; [done|]. rewrite Hl3 in Hn. apply list_elem_of_fmap in Hn as ([t n'] & -> & Hn).
      apply elem_of_map_to_list in Hn. cbn. rewrite (proxies_wf _ _ _ _ _ Hn), Hn. by eexists.
    - intros [Ht [n Hn]]. split; [|done]. exists n. split; [by rewrite (proxies_wf _ _ _ _ _ Hn)|]. rewrite Hl3.
      apply list_elem_of_fmap. exists (t, n). split; [done|by apply elem_of_map_to_list]. }
  eapply post_mono; [by apply add_loop|]. intros [[]|e| |] k5 [E5 Ha]; [| |done..].
  - exists i. split; [done|]. split; [by do 2 (eapply elsewhere_same_trans; [|done])|]. intros t. specialize (Hd t). specialize (Ha t). rewrite T3 in Hd.
    unfold proxy_ok. destruct (ips !! t) as [x|] eqn:Et.
    + case_decide as Hc.
      * destruct (proxies k i f !! t) as [n|] eqn:En; [|done]. exfalso. apply (proj2 Hc), Hex. rewrite Et, En. by split; eexists.
      * rewrite Ha, Hd. destruct (proxies k i f !! t) as [n|] eqn:En; [done|]. exfalso. apply Hc. split; [by eexists|].
        rewrite Hex, En. by intros [_ [? ?]].
    + rewrite decide_False in Ha by (by intros [[? ?] _]). by rewrite Ha, Hd.
  - right. exists i. split; [done|]. split; [by do 2 (eapply elsewhere_same_trans; [|done])|]. intros t. specialize (Hd t). rewrite T3 in Hd.
    unfold proxy_ok. destruct (Ha t) as [->|[[Ht Hn] Hs]].
    + rewrite Hd. destruct (ips !! t); [by left|by right].
    + right. destruct (ips !! t) as [x|] eqn:Et; [|by destruct Ht]. destruct (proxies k i f !! t) as [n|] eqn:En; [|done].
      exfalso. apply Hn, Hex. rewrite Et, En. by split; eexists.
Qed.

(** The interfaces, some of which are done. *)
Definition some_synced (f : Z) (k : K) (xs : list (string * gmap string netIP)) (k' : K) : Prop :=
  (∀ name, if_index k' name = if_index k name) ∧
  (∀ name ips, (name, ips) ∈ xs → ∃ i, if_index k name = Some i ∧ ∀ t, proxy_ok (ips !! t) (proxies k i f !! t) (proxies k' i f !! t)) ∧
  (∀ i f', (f' ≠ f ∨ ∀ name ips, (name, ips) ∈ xs → if_index k name ≠ Some i) → proxies k' i f' = proxies k i f').

Definition partly_followed (m : Neigh.Manager) (k k' : K) : Prop :=
  (∀ name ips i, interfaceToIPSliceMap m !! name = Some ips → if_index k name = Some i →
    ∀ t, proxies k' i (family m) !! t = proxies k i (family m) !! t ∨
         proxy_ok (ips !! t) (proxies k i (family m) !! t) (proxies k' i (family m) !! t)) ∧
  (∀ i f, (f ≠ family m ∨ ∀ name, is_Some (interfaceToIPSliceMap m !! name) → if_index k name ≠ Some i) → proxies k' i f = proxies k i f).

(** The next interface has a table of its own, which no other one changed. *)
Lemma some_synced_fresh f k xs k1 name i :
  name ∉ map fst xs → some_synced f k xs k1 → if_index k name = Some i → proxies k1 i f = proxies k i f.
Proof.
  intros Hn (_ & _ & Ho) Hi. apply Ho. right. intros name' ips Hin E. apply Hn.
  rewrite (if_index_inj _ _ _ _ Hi E). by apply (list_elem_of_fmap_2 fst xs (name', ips)).
Qed.

Lemma some_synced_next f k xs k1 k2 name ips i :
  name ∉ map fst xs → some_synced f k xs k1 → if_index k name = Some i → elsewhere_same i f k1 k2 →
  (∀ t, proxy_ok (ips !! t) (proxies k i f !! t) (proxies k2 i f !! t)) → some_synced f k (xs ++ [(name, ips)]) k2.
Proof.
  intros Hn (HL & Hd & Ho) Hi [He HL2] Hok. split; [intros n; by rewrite HL2|]. split.
  - intros name' ips' [Hin|Hin%list_elem_of_singleton]%elem_of_app; [|injection Hin as -> ->; by exists i].
    destruct (Hd name' ips' Hin) as (i' & Hi' & Ht). exists i'. split; [done|]. intros t. rewrite He; [done|]. intros [-> _]. apply Hn.
    rewrite (if_index_inj _ _ _ _ Hi Hi'). by apply (list_elem_of_fmap_2 fst xs (name', ips')).
  - intros i' f' Hcase. rewrite He.
    + apply Ho. destruct Hcase as [?|Hc]; [by left|]. right. intros name' ips' Hin. apply (Hc name' ips'), elem_of_app. by left.
    + intros [-> ->]. destruct Hcase as [?|Hc]; [done|]. apply (Hc name ips); [|done]. apply elem_of_app. right. by left.
Qed.

Lemma some_synced_partly m k xs k1 :
  (∀ name ips, (name, ips) ∈ xs → interfaceToIPSliceMap m !! name = Some ips) → some_synced (family m) k xs k1 → partly_followed m k k1.
Proof.
  intros Hsub (HL & Hd & Ho). split.
  - intros name ips i Hm Hi t. destruct (decide (name ∈ map fst xs)) as [Hin|Hin].
    + apply list_elem_of_fmap in Hin as ([name' ips'] & -> & Hin). cbn in *. pose proof (Hsub _ _ Hin) as Hm'.
      destruct (Hd _ _ Hin) as (i' & Hi' & Ht). right. assert (i' = i) as -> by congruence. assert (ips' = ips) as -> by congruence. apply Ht.
    + left. rewrite Ho; [done|]. right. intros name' ips' Hx E. apply Hin. rewrite (if_index_inj _ _ _ _ Hi E).
      by apply (list_elem_of_fmap_2 fst xs (name', ips')).
  - intros i f Hcase. apply Ho. destruct Hcase as [?|Hc]; [by left|]. right. intros name ips Hin. apply Hc. rewrite (Hsub _ _ Hin). by eexists.
Qed.

Lemma partly_followed_next m k xs k1 k2 name ips i :
  (∀ name ips, (name, ips) ∈ xs → interfaceToIPSliceMap m !! name = Some ips) → interfaceToIPSliceMap m !! name = Some ips →
  some_synced (family m) k xs k1 → proxies k1 i (family m) = proxies k i (family m) → if_index k name = Some i →
  elsewhere_same i (family m) k1 k2 →
  (∀ t, proxies k2 i (family m) !! t = proxies k1 i (family m) !! t ∨
        proxy_ok (ips !! t) (proxies k1 i (family m) !! t) (proxies k2 i (family m) !! t)) → partly_followed m k k2.
Proof.
  intros Hsub Hm Hs E Hi [He _] Ht. destruct (some_synced_partly _ _ _ _ Hsub Hs) as [Hp Ho]. rewrite E in Ht. split.
  - intros name' ips' i' Hm' Hi' t. destruct (decide (i' = i)) as [->|Hne].
    + rewrite (if_index_inj _ _ _ _ Hi' Hi) in Hm'. assert (ips' = ips) as -> by congruence. apply Ht.
    + rewrite (He i') by tauto. by apply (Hp name').
  - intros i' f Hcase. rewrite He; [by apply Ho|]. intros [-> ->]. destruct Hcase as [?|Hc]; [done|].
    apply (Hc name); [rewrite Hm; by eexists|done].
Qed.

Lemma SyncNeighs_post m k :
  (∀ name ips, interfaceToIPSliceMap m !! name = Some ips → ips_wf ips) →
  post (SyncNeighs m) k (λ o k', match o with
    | Ret _ => some_synced (family m) k (map_range 1 (interfaceToIPSliceMap m)) k'
    | Fail _ => partly_followed m k k'
    | _ => False
    end).
Proof.
  intros Hw. assert (∀ name ips, (name, ips) ∈ map_range 1 (interfaceToIPSliceMap m) ↔ interfaceToIPSliceMap m !! name = Some ips) as Hin.
  { intros name ips. rewrite map_range_perm. apply elem_of_map_to_list. }
  assert (NoDup (map fst (map_range 1 (interfaceToIPSliceMap m)))) as Hnd.
  { change (NoDup (fst <$> map_range 1 (interfaceToIPSliceMap m))). rewrite map_range_perm. apply NoDup_fst_map_to_list. }
  apply (post_each_list _ _ k (some_synced (family m) k) (partly_followed m k)).
  - split; [done|]. split; [intros name ips Hx; by apply elem_of_nil in Hx|done].
  - intros xs [name ips] rest k1 El Hs.
    assert (interfaceToIPSliceMap m !! name = Some ips) as Hm by (apply Hin; rewrite El; apply elem_of_app; right; by left).
    assert (∀ n i, (n, i) ∈ xs → interfaceToIPSliceMap m !! n = Some i) as Hsub by (intros n i Hx; apply Hin; rewrite El; apply elem_of_app; by left).
    assert (name ∉ map fst xs) as Hfresh.
    { rewrite El, map_app in Hnd. apply NoDup_app in Hnd as (_ & Hd & _). intros Hx. apply (Hd name Hx). by left. }
    eapply post_mono; [by apply sync_interface_post, (Hw name)|]. destruct Hs as (HL & Hs').
    intros [[]|e| |] k2 Ho; [| |done..].
    + destruct Ho as (i & Hi & He & Ht). rewrite HL in Hi. eapply some_synced_next; [done|by split|done|done|].
      intros t. rewrite <-(some_synced_fresh _ k xs k1 name i); [apply Ht|done|by split|done].
    + destruct Ho as [[Hp HL2]|(i & Hi & He & Ht)].
      * apply (some_synced_partly _ _ xs); [done|]. destruct Hs' as [Hd Ho']. split; [intros n; by rewrite HL2|]. split.
        -- intros n i Hx. destruct (Hd n i Hx) as (j & Hj & Ht). exists j. split; [done|]. intros t. rewrite Hp. apply Ht.
        -- intros i f' Hc. rewrite Hp. by apply Ho'.
      * rewrite HL in Hi. eapply partly_followed_next; [done|done|by split| |done|done|done].
        eapply some_synced_fresh; [done|by split|done].
Qed.
End sync.

(** *** From the records of a pass *)

(** An address of this text was recorded for the interface. *)
Definition recorded (l : list (netIP * string)) (name t : string) : Prop := ∃ ip, (ip, name) ∈ l ∧ IP_String ip = t.

Lemma record_all_snoc l ip name m : record_all (l ++ [(ip, name)]) m = AddPodInfo ip name (record_all l m).
Proof. unfold record_all. by rewrite fold_left_app. Qed.

Lemma record_all_family l m : family (record_all l (ResetInfos m)) = family m.
Proof. induction l as [|[ip name] l IH] using rev_ind; [done|]. by rewrite record_all_snoc. Qed.

Lemma record_all_maps l m name :
  let o := interfaceToIPSliceMap (record_all l (ResetInfos m)) !! name in
  (is_Some o ↔ ∃ ip, (ip, name) ∈ l) ∧
  ∀ ips, o = Some ips → ips_wf ips ∧ ∀ t, is_Some (ips !! t) ↔ recorded l name t.
Proof.
  induction l as [|[ip name'] l IH] using rev_ind.
  { cbn. rewrite lookup_empty. split; [|done]. split; [by intros [? ?]|by intros [? Hx%elem_of_nil]]. }
  destruct IH as [Hs Hm]. cbv zeta. rewrite record_all_snoc. cbn [AddPodInfo interfaceToIPSliceMap].
  destruct (decide (name' = name)) as [->|Hne].
  - rewrite lookup_insert_eq. split.
    { split; [|by eexists]. intros _. exists ip. apply elem_of_app. right. by left. }
    intros ips [= <-]. set (old := default ∅ _).
    assert (ips_wf old ∧ ∀ t, is_Some (old !! t) ↔ recorded l name t) as [Hw Hr].
    { unfold old. destruct (interfaceToIPSliceMap _ !! name) as [ips|] eqn:E; [by apply Hm|]. split; [done|]. intros t. split; [by intros [? ?]|].
      intros (ip' & Hin & _). destruct (proj2 Hs (ex_intro _ ip' Hin)) as [? Hx]. discriminate Hx. }
    split.
    + intros t x [[<- <-]|[_ Hx]]%lookup_insert_Some; [done|by apply Hw].
    + intros t. rewrite lookup_insert_is_Some', Hr. unfold recorded. split.
      * intros [<-|(ip' & Hin & Et)]; [exists ip|exists ip']; (split; [apply elem_of_app|done]); [right; by left|by left].
      * intros (ip' & [Hin|Hin%list_elem_of_singleton]%elem_of_app & Et); [right; by exists ip'|left]. by injection Hin as ->.
  - rewrite lookup_insert_ne by done.
    assert (∀ ip', (ip', name) ∈ l ++ [(ip, name')] ↔ (ip', name) ∈ l) as Hl.
    { intros ip'. rewrite elem_of_app, list_elem_of_singleton. split; [intros [?|E]; [done|by injection E as _ ->]|by left]. }
    split; [rewrite Hs; by setoid_rewrite Hl|]. intros ips Hi. destruct (Hm ips Hi) as [Hw Hr]. split; [done|].
    intros t. rewrite Hr. unfold recorded. by setoid_rewrite Hl.
Qed.

(** Exactly the recorded addresses have a proxy, and one that was there stays. *)
Definition proxy_exact (l : list (netIP * string)) (name t : string) (old new : option Neigh) : Prop :=
  (recorded l name t → is_Some new ∧ (is_Some old → new = old)) ∧ (¬ recorded l name t → new = None).

Lemma proxy_ok_exact l name t (ips : gmap string netIP) old new :
  (is_Some (ips !! t) ↔ recorded l name t) → proxy_ok (ips !! t) old new → proxy_exact l name t old new.
Proof.
  intros Hr. unfold proxy_ok, proxy_exact. rewrite <-Hr. destruct (ips !! t) as [x|].
  - intros Ho. split; [intros _|intros Hn; by destruct Hn]. destruct old as [n|]; [|by split; [|intros [? ?]]]. subst. by split; [eexists|].
  - intros ->. by split; [intros [? ?]|].
Qed.

(** C6. The proxies of the node are the recorded addresses.  After a pass that
    recorded the pairs [l] of an address and an interface, a call of
    [SyncNeighs] that returns leaves on every interface of [l], in the family
    of the manager, exactly the proxies of the addresses recorded for it, those
    that were there before unchanged; when it fails, each address has there the
    proxy that it had, or is as it should be.  All other proxies are as they
    were, and it never panics.  An interface that is not in [l] any more is one
    of the others: it keeps its proxies. *)
Theorem SyncNeighs_exact {K} `{Netlink K} `{OS K} `{NeighView K} {NL : NeighLaws} {MO : MapOrder}
    (m : Neigh.Manager) (l : list (netIP * string)) (k : K) :
  post (SyncNeighs (record_all l (ResetInfos m))) k (λ o k',
    let f := family m in
    match o with
    | Ret _ => ∀ ip name, (ip, name) ∈ l → ∃ i, if_index k name = Some i ∧ ∀ t, proxy_exact l name t (proxies k i f !! t) (proxies k' i f !! t)
    | Fail _ => ∀ ip name i, (ip, name) ∈ l → if_index k name = Some i →
        ∀ t, proxies k' i f !! t = proxies k i f !! t ∨ proxy_exact l name t (proxies k i f !! t) (proxies k' i f !! t)
    | _ => False
    end ∧
    ∀ i f', (f' ≠ f ∨ ∀ ip name, (ip, name) ∈ l → if_index k name ≠ Some i) → proxies k' i f' = proxies k i f').
Proof.
  pose proof (record_all_maps l m) as Hm. set (m' := record_all l (ResetInfos m)) in *.
  assert (family m' = family m) as Ef by apply record_all_family.
  assert (∀ ip name, (ip, name) ∈ l → ∃ ips, interfaceToIPSliceMap m' !! name = Some ips) as Hl.
  { intros ip name Hin. apply (Hm name). by exists ip. }
  assert (∀ name ips, (name, ips) ∈ map_range 1 (interfaceToIPSliceMap m') ↔ interfaceToIPSliceMap m' !! name = Some ips) as Hrange.
  { intros name ips. rewrite map_range_perm. apply elem_of_map_to_list. }
  eapply post_mono; [apply SyncNeighs_post; intros name ips Hi; by apply (Hm name)|]. rewrite Ef.
  intros [[]|e| |] k' Ho; [| |done..]; cbv zeta.
  - destruct Ho as (_ & Hd & Hother). split.
    + intros ip name Hin. destruct (Hl _ _ Hin) as [ips Hi]. destruct (Hd name ips) as (i & Hx & Ht); [by apply Hrange|].
      exists i. split; [done|]. intros t. eapply proxy_ok_exact; [by apply (Hm name)|apply Ht].
    + intros i f' Hc. apply Hother. destruct Hc as [?|Hc]; [by left|]. right. intros name ips Hin%Hrange.
      destruct (proj1 (proj1 (Hm name)) (ex_intro _ ips Hin)) as [ip Hip]. by apply (Hc ip).
  - destruct Ho as [Hd Hother]. rewrite Ef in *. split.
    + intros ip name i Hin Hx t. destruct (Hl _ _ Hin) as [ips Hi]. destruct (Hd name ips i Hi Hx t) as [?|Ht]; [by left|right].
      eapply proxy_ok_exact; [by apply (Hm name)|apply Ht].
    + intros i f' Hc. apply Hother. destruct Hc as [?|Hc]; [by left|]. right. intros name Hs.
      destruct (proj1 (proj1 (Hm name)) Hs) as [ip Hip]. by apply (Hc ip).
Qed.

(** *** A kernel of proxies *)

Abbreviation Proxies := (gmap (Z * Z) (gmap string Neigh)).
Definition belongs (i f : Z) (kv : string * Neigh) : Prop := IP_String (nb_IP kv.2) = kv.1 ∧ nb_LinkIndex kv.2 = i ∧ nb_Family kv.2 = f.
#[local] Instance belongs_dec i f kv : Decision (belongs i f kv).
Proof. unfold belongs. apply _. Defined.
Definition proxy_table (k : Proxies) (i f : Z) : gmap string Neigh := filter (belongs i f) (default ∅ (k !! (i, f))).
Definition proxy_links (name : string) : option Z := if decide (name = "eth0.10") then Some 5 else if decide (name = "eth0.vxlan4") then Some 7 else None.
Definition no_proxy {A} : M Proxies A := fail (errors_New "not supported").

#[local] Instance proxies_netlink : Netlink Proxies := {|
  NewRule := mkRule None None 0 (-1) 0 (-1) (-1) "" ""; EEXIST := errors_New "file exists";
  LinkByName name := match proxy_links name with Some i => mret (mkLink i name "vlan" [] false 0 0 None 0) | None => fail (errors_New "Link not found") end;
  LinkByIndex _ := no_proxy; LinkList := no_proxy; LinkAdd _ := no_proxy; LinkAddVeth _ _ _ := no_proxy; LinkSetNsFd _ _ := no_proxy;
  LinkDel _ := no_proxy; LinkSetUp _ := no_proxy; LinkSetDown _ := no_proxy; LinkSetHardwareAddr _ _ := no_proxy; LinkSetMTU _ _ := no_proxy;
  LinkSetName _ _ := no_proxy; AddrList _ _ := no_proxy; AddrAdd _ _ := no_proxy; AddrDel _ _ := no_proxy; RouteList _ _ := no_proxy;
  RouteListFiltered _ _ _ := no_proxy; RouteAdd _ := no_proxy; RouteReplace _ := no_proxy; RouteDel _ := no_proxy; RuleList _ := no_proxy;
  RuleAdd _ := no_proxy; RuleDel _ := no_proxy; NeighList _ _ := no_proxy; NeighAppend _ := no_proxy; NeighSet _ := no_proxy;
  NeighProxyList i f := gets (λ k, map snd (map_to_list (proxy_table k i f)));
  NeighAdd n := modify (λ k, <[(nb_LinkIndex n, nb_Family n) := <[IP_String (nb_IP n) := n]> (proxy_table k (nb_LinkIndex n) (nb_Family n))]> k);
  NeighDel n := modify (λ k, <[(nb_LinkIndex n, nb_Family n) := delete (IP_String (nb_IP n)) (proxy_table k (nb_LinkIndex n) (nb_Family n))]> k)
|}.
#[local] Instance proxies_os : OS Proxies := {|
  WriteFile _ _ := mret tt; ReadFile _ := no_proxy; ReadDir _ := no_proxy; Stat _ := no_proxy; Statfs _ := no_proxy;
  IsNotExist _ := false; IsExist _ := false
|}.
#[local] Instance proxies_view : NeighView Proxies := {| proxies := proxy_table; if_index _ := proxy_links |}.

Lemma proxy_table_filter k i f : filter (belongs i f) (proxy_table k i f) = proxy_table k i f.
Proof. unfold proxy_table. rewrite map_filter_filter. apply map_filter_ext. naive_solver. Qed.

Lemma proxy_table_set k i f t i' f' :
  filter (belongs i f) t = t → proxy_table (<[(i, f) := t]> k) i' f' = if decide (i' = i ∧ f' = f) then t else proxy_table k i' f'.
Proof.
  intros Ht. unfold proxy_table. case_decide as Hd.
  - destruct Hd as [-> ->]. by rewrite lookup_insert_eq.
  - rewrite lookup_insert_ne; [done|]. intros [= -> ->]. by apply Hd.
Qed.

#[local] Instance proxies_laws : NeighLaws (K := Proxies).
Proof.
  split.
  - intros k i f t n. cbn. unfold proxy_table. by intros [_ [? _]]%map_lookup_filter_Some.
  - intros i f k. unfold neigh_reads, post. cbn. by split; [|reflexivity].
  - intros i f k t n Hn. cbn in *. assert (belongs i f (t, n)) as (E & <- & <-) by (by apply map_lookup_filter_Some in Hn as [_ ?]). cbn in E.
    split; [|done]. intros i' f'. cbn [snd modify NeighDel proxies_netlink proxies proxies_view]. rewrite E. apply proxy_table_set.
    by rewrite map_filter_delete, proxy_table_filter.
  - intros i f k ip. exists (mkNeigh i f 0 NTF_PROXY ip [] 0). split; [done|]. split; [|done]. intros i' f'.
    cbn [snd modify NeighAdd proxies_netlink proxies proxies_view nb_LinkIndex nb_Family nb_IP]. apply proxy_table_set.
    rewrite map_filter_insert_True by done. by rewrite proxy_table_filter.
  - intros name k. unfold neigh_reads, post. cbn. destruct (proxy_links name) as [i|]; by split.
  - intros k a b i. cbn. unfold proxy_links. repeat case_decide; naive_solver.
  - done.
Defined.

#[local] Instance proxy_order : MapOrder := {| map_range A site m := map_to_list m; map_range_perm A site m := reflexivity _ |}.

(** A pod has left the VLAN, another has come; no pod is left on the overlay. *)
Definition w_proxy (i : Z) (ip : netIP) : Neigh := mkNeigh i FAMILY_V4 128 NTF_PROXY ip [] 0.
Definition w_proxies : Proxies :=
  {[ (5, FAMILY_V4) := {[ "10.0.0.2" := w_proxy 5 [10; 0; 0; 2]; "10.0.0.3" := w_proxy 5 [10; 0; 0; 3] ]};
     (7, FAMILY_V4) := {[ "10.1.0.2" := w_proxy 7 [10; 1; 0; 2] ]} ]}.
Definition w_records : list (netIP * string) := [([10; 0; 0; 3], "eth0.10"); ([10; 0; 0; 4], "eth0.10")].

Lemma SyncNeighs_exact_witness :
  let c := SyncNeighs (record_all w_records (ResetInfos (CreateNeighManager FAMILY_V4))) w_proxies in
  c.1 = Ret tt ∧ proxies c.2 5 FAMILY_V4 !! "10.0.0.2" = None ∧ proxies c.2 5 FAMILY_V4 !! "10.0.0.3" = Some (w_proxy 5 [10; 0; 0; 3]) ∧
  is_Some (proxies c.2 5 FAMILY_V4 !! "10.0.0.4") ∧ proxies c.2 7 FAMILY_V4 = proxies w_proxies 7 FAMILY_V4.
Proof.
  pose proof (SyncNeighs_exact (CreateNeighManager FAMILY_V4) w_records w_proxies) as Hp. cbv zeta.
  set (c := SyncNeighs _ _) in *. assert (c.1 = Ret tt) as E by (vm_compute; reflexivity).
  unfold post in Hp. fold c in Hp. rewrite E in Hp. cbv zeta in Hp. destruct Hp as [Hd Ho]. split; [exact E|].
  destruct (Hd [10; 0; 0; 3] "eth0.10") as (i & Hi & Ht); [by left|]. injection Hi as <-.
  assert (¬ recorded w_records "eth0.10" "10.0.0.2") as Hn.
  { intros (ip & Hin & Et). unfold w_records in Hin. repeat (apply elem_of_cons in Hin as [[= ->]|Hin]; [vm_compute in Et; discriminate Et|]).
    by apply elem_of_nil in Hin. }
  split; [by apply (Ht "10.0.0.2")|]. split.
  - destruct (proj1 (Ht "10.0.0.3")) as [_ Hk]; [exists [10; 0; 0; 3]; split; [by left|vm_compute; reflexivity]|].
    etrans; [apply Hk; vm_compute; by eexists|vm_compute; reflexivity].
  - split; [apply (proj1 (Ht "10.0.0.4")); exists [10; 0; 0; 4]; split; [by right; left|vm_compute; reflexivity]|].
    apply Ho. right. intros ip name Hin. unfold w_records in Hin.
    repeat (apply elem_of_cons in Hin as [[= -> ->]|Hin]; [vm_compute; discriminate|]). clear -Hin. by apply elem_of_nil in Hin.
Defined.
